(* ===== verification/_CoqProject ===== *)
-Q . S2P
Prelude.v
Text.v
ExecutionResult.v
ErrorCodes.v
Uuid.v
NoSQLDatabase.v
ConcurrentMap.v
AutoExpiryMap.v
AutoExpiryView.v
Serialization.v
Dispatcher.v
TimeframeUtils.v
TimeframeLog.v
TimeframeManager.v
TimeframeCache.v
TimeframeLoading.v
TimeframeRecovery.v
TimeframeSystem.v
TimeframeExamples.v
TransactionPhases.v
TransactionLog.v
StateMonad.v
TransactionEngine.v
TransactionRemote.v
TransactionRecovery.v
TransactionReplay.v
TransactionSystem.v
TransactionSteps.v
TransactionSafety.v
TransactionRequests.v
TransactionDurability.v
TransactionTheorems.v
TransactionCompletion.v
TransactionTermination.v
TransactionExamples.v
TransactionManager.v
TransactionManagerSystem.v
TransactionProtocol.v
ConsumeBudgetProtocol.v
BatchConsumeBudgetProtocol.v
ProtocolManager.v
ProtocolFrames.v
ProtocolCalls.v
ProtocolSystem.v
ProtocolExamples.v
ConsumeBudgetCommand.v
BatchConsumeBudgetCommand.v
CommandRun.v
TransactionCommandSerializer.v
CommandExamples.v
SpannerConsumeBudget.v
CommandProtocol.v
FrontEndUtils.v
FrontEndCommands.v
FrontEndService.v
FrontEndRun.v
FrontEndServiceV2.v
FrontEndExamples.v
JournalService.v
BudgetKey.v
BudgetKeyProvider.v
BudgetKeySystem.v
BudgetKeyRecovery.v
BudgetKeyReplay.v
BudgetKeyServing.v
BudgetKeyExamples.v
LeasableLock.v
LeaseSystem.v
LeaseRefresher.v
LeaseManager.v
LeaseManagerV2.v
LeaseManagerSystem.v
Partition.v
PartitionManager.v
PartitionRouting.v
LeasePreferenceApplier.v
PartitionLeaseEventSink.v
PartitionLeaseSystem.v
