(* ===== verification/Prelude.v ===== *)
(** * Privacy Budget Service: a verification development (root file)

    The repository is a C++ service, the Privacy Budget Service, that runs in two
    copies ("coordinators"). A client asks both to consume privacy budget: tokens of
    a budget key, one per hour of reporting time. The request is a transaction that
    goes through phases (begin, prepare, commit, notify or abort, end), each asked
    for by the client at both coordinators. Inside one coordinator the transaction
    engine runs the phases and journals them, each command of a transaction runs one
    of the consume-budget protocols on the timeframes of a budget key, and the
    timeframe manager of the key keeps one day of timeframes per cache entry, loaded
    from a database and journaled. A newer path consumes budget in one Spanner
    transaction, without the engine. The instances of a coordinator divide the budget
    keys into partitions; each partition is served by the instance that holds the lease
    on its lock, a row of a database that the instances share.

    The code is under [src/cc]; the files named below are relative to it. Each
    definition has the name of the function it translates.

    ** Parts

    Foundations.
    - [Prelude]: machine integers, tactics, list and bit lemmas. [Text]: numbers in
      decimal as the C++ library prints and reads them.
    - [ExecutionResult], [ErrorCodes]: the results every operation returns
      ([public/core], [core/interface/errors.h] and the [error_codes.h] files).
    - [Uuid]: [core/common/uuid].
    - [ConcurrentMap], [AutoExpiryMap], [AutoExpiryView]: the map and the map with a
      collector ([core/common/concurrent_map], [auto_expiry_concurrent_map]); the
      first over a class of hash maps, the second with records in a store, and a
      view of it as a finite map of entries that its clients use.
    - [Serialization]: byte buffers, integers, uuids and protobuf messages
      ([core/common/serialization]); protobuf is the class [ProtoMessage].
    - [Dispatcher]: [core/common/operation_dispatcher] with its retry strategies.
    - [NoSQLDatabase]: rows of the NoSQL database with conditional upserts, a class.
    - [StateMonad]: state with undefined behaviour, for the transaction engine.

    Timeframes of a budget key ([pbs/budget_key_timeframe_manager]).
    - [TimeframeUtils] (days, hours and the text of tokens), [TimeframeLog] (data and
      journal logs), [TimeframeManager] (every handler, on two heaps for groups and
      timeframes), [TimeframeCache] (its effect on days), [TimeframeLoading],
      [TimeframeRecovery], [TimeframeSystem] (theorems; the last has the manager with
      its database, journal and collector as a step relation), [TimeframeExamples].

    Transactions ([core/transaction_manager]).
    - [TransactionPhases] (the state machine), [TransactionLog] (data and logs),
      [TransactionEngine] and [TransactionRecovery] (the handlers of
      [transaction_engine.cc]: phases; expired transactions, recovery, checkpoint and
      resumption), for any commands with a serializer.
    - [TransactionRemote]: the handlers on a remotely coordinated transaction as
      functions. [TransactionReplay]: what a journal says, and that recovery does it.
    - [TransactionSystem]: the engine with clients, coordinator, journal, commands,
      collector and crashes as a step relation, with what holds in every reachable
      state; [TransactionSteps], [TransactionSafety], [TransactionRequests] and
      [TransactionDurability] prove it step by step.
    - [TransactionTheorems], [TransactionCompletion], [TransactionTermination]: the
      theorems; [TransactionExamples]: runs of the system, evaluated, with the
      theorems applied to them.
    - [TransactionManager] (the limit and the count of calls in front of the engine),
      [TransactionManagerSystem] (calls, starts and stops that overlap).

    Protocols ([pbs/budget_key_transaction_protocols]).
    - [TransactionProtocol] (requests, locks and the class by which the protocols use
      the timeframe manager), [ConsumeBudgetProtocol], [BatchConsumeBudgetProtocol]
      (the two protocols against the class), [ProtocolManager] (the manager's model
      implements the class), [ProtocolFrames], [ProtocolCalls], [ProtocolSystem]
      (theorems; the last has any number of transactions of both protocols on shared
      timeframes), [ProtocolExamples].

    Commands ([pbs/transactions]).
    - [ConsumeBudgetCommand], [BatchConsumeBudgetCommand] (the phase functions and
      callbacks of the two commands), [CommandRun] (a phase of a command through the
      dispatcher, against a class of what commands promise), [CommandProtocol] (what
      a batch command notes of the protocol's answer).
    - [TransactionCommandSerializer]: the serializer of the commands, an instance of
      the class the engine is given. [CommandExamples]: commands run and written.

    Budget keys and the journal ([core/journal_service], [pbs/budget_key],
    [pbs/budget_key_provider]).
    - [JournalService]: subscriptions, recovery through the subscribers, which the
      class [Recoverable] describes, and logging; the streams are arguments.
    - [BudgetKey] (the logs of keys and of their provider, and the keys with the
      stores of keys, timeframe managers and subscriptions),
      [BudgetKeyProvider] (the cache of keys: loading, unloading, recovery,
      checkpoint), [BudgetKeySystem] (the provider with clients, journal, collector
      and managers as a step relation), [BudgetKeyRecovery] (the logs of a
      checkpoint), [BudgetKeyReplay] (their replay), [BudgetKeyServing] (running what
      was recovered), [BudgetKeyExamples].

    Spanner path ([pbs/consume_budget]).
    - [SpannerConsumeBudget]: the body of the database transaction and its result.

    Front end ([pbs/front_end_service]).
    - [FrontEndUtils] (headers, bodies of requests and responses, over classes for
      the JSON library, timestamps and the public suffix list), [FrontEndCommands]
      (the commands of a request, one for each budget or for each day of a key, and
      the report of those that failed), [FrontEndService] (every handler and callback
      as the events it makes), [FrontEndRun] (a request from its handler to its
      answer), [FrontEndServiceV2] (the version on the Spanner path),
      [FrontEndExamples].

    Leases ([pbs/leasable_lock], [core/lease_manager],
    [pbs/partition_lease_preference_applier]).
    - [LeasableLock] (a lease on a row of the database), [LeaseSystem] (nodes that
      share a lock, with late and lost answers, as a step relation).
    - [LeaseRefresher] (the refresher of one lock, the enforcer of its liveness and
      the sink that runs a component while the lease is held), [LeaseManager] (the
      older manager of a single lock), [LeaseManagerV2] (the manager of many locks),
      [LeaseManagerSystem] (its rounds with the refreshers in between),
      [LeasePreferenceApplier] (how many partitions an instance is to lease).

    Partitions ([pbs/partition], [pbs/partition_manager], [pbs/partition_namespace],
    [pbs/partition_request_router], [pbs/budget_key_resolver],
    [pbs/partition_lease_event_sink]).
    - [Partition], [PartitionManager] (one partition; those of an instance),
      [PartitionRouting] (from a request to the partition that executes it),
      [PartitionLeaseEventSink] (what an instance does when a lease comes or goes),
      [PartitionLeaseSystem] (an instance with its lease manager, refreshers, sink and
      partitions as a step relation).

    ** State and effects

    Objects the code shares by pointer (map records, groups, timeframes,
    transactions) live in stores and are referred to by location, so aliasing is in
    the model. A handler is a function from the state, the clocks and the answers of
    what it calls to the new state and the calls it makes, in order; it is one atomic
    step, and threads are interleavings of steps. Undefined behaviour (null pointers,
    indices out of range) is [None], and theorems say that it does not occur or when
    it does. Machine integers are [Z] with wrap-around written out.

    ** Theorems

    - Budget: tokens are conserved in the runs of both protocols in which no failed
      commit that kept its lock is retried and no notification is overtaken before its
      second write; these two are steps of the system with a label of their own, and an
      example spends more than there was with one of them. A batch commits all or
      nothing; the Spanner transaction consumes exactly what was asked or nothing.
    - Two-phase commit: commands are told of a commit only when every command has
      committed, whatever fails, expires or crashes; commands are called only after
      the phase is in the journal; one activity at a time works on a transaction; a
      phase completes and is answered once with its first failure.
    - Durability: the engine's journal can always be replayed, and gives back the
      transactions, none ahead of its phase; checkpoints of the engine and of the
      timeframe manager restore them; updates of timeframes are journaled first and
      replay to the same tokens; a day unloaded is the day loaded later; a checkpoint
      of the provider, replayed through the journal service, gives back the keys with
      their days, and the recovered instance serves them at once.
    - Budget keys: a key that is given to a client has the name asked for and a ready
      protocol, keeps its timeframe manager, and is loaded by one call at a time.
    - Containers: an entry whose eviction is disabled survives; the collector asks
      for exactly the expired entries; its counters are exact; maps refine finite
      maps.
    - Round trips and bounds of uuids, logs, token text, times and buffers; a
      dispatched context is delivered after boundedly many calls.
    - Front end: a request that is parsed asks for different hours; its commands
      cover it exactly; failed budgets are reported by their place; a request is
      counted and answered once, but for a begin turned away by the configuration,
      which is answered and counted nowhere; a prepare of the second version takes
      exactly the tokens asked for from the table, or none.
    - Leases: two nodes hold a lease at once for as much longer as a clock is ahead of
      one of theirs and no longer; the manager holds no more leases than its maximum
      plus the acquisitions out of turn; a refresher's transitions are those of an
      explicit protocol, which differs from the documented scenarios as the findings
      say; the preference is the least that covers the partitions.
    - Partitions: one that an instance loads or serves is one whose lease it holds,
      unless a round changed the ownership without telling the sink or found the lease
      again after its release, which the code allows and examples show; a request
      routed to an instance is executed by the partition it was routed with.
    - Stopping: the transaction manager stops the engine when no call is in it; the
      partition manager's [Stop] ends, or never succeeds after a failed unload.
    - Errors: which requests are refused and that a refusal changes nothing; and the
      cases in which the code does not do what it means to (an entry evicted though
      pinned, a lock broken by a late callback, a day that is never loaded again, a
      phase without commands that never ends, a begin retried without a bound in one
      call, a batch protocol that is never made, so that a batch command on the keys as
      they are calls a null pointer, a lease whose loss goes unnoticed, reads out of
      bounds, positions reported for indices, an origin header that overrides the
      authorized domain).

    ** Bounds and fuel

    [TransactionEngine.ProceedToNextPhase] calls itself when every command refuses the
    begin with a retry, and nothing in the code bounds how often. The answers of the
    commands are an argument, a list; the fuel is one more than its length, and each
    round uses up at least one of them. [TransactionTermination] proves that this fuel
    is enough, that the recursive equation of the code holds, and that there are as
    many rounds in one call as the commands ask for. Other recursions are structural.
    Journal logs are taken to have bodies of at most 16 MiB, the bound under which a
    length fits the [int] protobuf takes.

    ** Not modelled

    Logging, metrics, activity and correlation ids; the executor's threads, the HTTP
    and storage clients and the cloud bindings (I/O: the models take any answer of
    theirs, but a Spanner commit that fails is taken to leave the table as it was);
    the streams that cut the journal into blobs (the models take any cut); the waiting
    loops of [Stop] but for those of the partition and transaction managers (whether
    they end in time is an argument); data races within a handler; the wait of
    [TransactionEngine::Run] for the transactions it resumed. *)

From stdpp Require Export base tactics list gmap strings numbers decidable relations.
From stdpp Require Import options.

(** ** Options of the development *)

#[export] Set Default Goal Selector "!".

(** ** Machine integers

    Unsigned machine integers are [Z] values with their wrap-around written
    out; [u64] is [uint64_t] ([Timestamp], [TimeGroup], [TimeBucket],
    [StatusCode], [size_t]), [u8] is [uint8_t] ([TokenCount]) and [i64] is the
    representation of [std::chrono] durations. *)

Definition u8 (z : Z) : Z := z mod 2 ^ 8.
Definition u64 (z : Z) : Z := z mod 2 ^ 64.
Definition i64 (z : Z) : Z := (z + 2 ^ 63) mod 2 ^ 64 - 2 ^ 63.

Definition is_u8 (z : Z) : Prop := (0 ≤ z < 2 ^ 8)%Z.
Definition is_u64 (z : Z) : Prop := (0 ≤ z < 2 ^ 64)%Z.

#[export] Instance is_u8_dec z : Decision (is_u8 z).
Proof. unfold is_u8. apply _. Defined.
#[export] Instance is_u64_dec z : Decision (is_u64 z).
Proof. unfold is_u64. apply _. Defined.

Lemma u8_range z : is_u8 (u8 z).
Proof. unfold is_u8, u8. apply Z.mod_pos_bound. lia. Qed.

Lemma u64_range z : is_u64 (u64 z).
Proof. unfold is_u64, u64. apply Z.mod_pos_bound. lia. Qed.

Lemma u8_id z : is_u8 z → u8 z = z.
Proof. unfold is_u8, u8. intros. by rewrite Z.mod_small. Qed.

Lemma u64_id z : is_u64 z → u64 z = z.
Proof. unfold is_u64, u64. intros. by rewrite Z.mod_small. Qed.

Lemma i64_id z : (- 2 ^ 63 ≤ z < 2 ^ 63)%Z → i64 z = z.
Proof. unfold i64. intros. rewrite Z.mod_small; lia. Qed.

Create HintDb machine_ints.
Create Rewrite HintDb machine_ints.
#[export] Hint Resolve u8_range u64_range : machine_ints.
#[export] Hint Rewrite u8_id u64_id i64_id using (unfold is_u8, is_u64 in *; lia) : machine_ints.

(** ** Tactics *)

(** Splits every boolean test and match of the goal and the context, then
    closes what is trivial: the case analysis of an operation by its guards. *)
Ltac split_guards :=
  repeat (first [ progress simplify_eq/= | case_match | case_decide | case_bool_decide ]).

(** Discharges the arithmetic premises of the hypotheses. *)
Ltac specialize_lia :=
  repeat match goal with
  | H : ?P → _ |- _ =>
      match type of P with Prop => specialize (H ltac:(first [done | lia])) end
  end.

(** Rewrites the goal with every equation of the context whose left side
    occurs in it. *)
Ltac rewrite_all_hyps :=
  repeat match goal with
  | H : ?a = ?b |- context [?a] => rewrite H; clear H
  end.

(** ** Lists *)

Lemma list_lookup_app_mid {A} (l1 l2 : list A) x :
  (l1 ++ x :: l2) !! length l1 = Some x.
Proof. rewrite lookup_app_r; [|lia]. by rewrite Nat.sub_diag. Qed.

Lemma NoDup_omap {A B} (f : A → option B) (l : list A) :
  NoDup l → (∀ x y b, f x = Some b → f y = Some b → x = y) → NoDup (omap f l).
Proof.
  intros Hl Hf. induction Hl as [|x l Hx Hl IH]; simpl; [by apply NoDup_nil|].
  destruct (f x) as [b|] eqn:Hb; [|done]. apply NoDup_cons. split; [|done].
  intros (y & Hy & Hyb)%list_elem_of_omap. by rewrite (Hf x y b Hb Hyb) in Hx.
Qed.

(** ** Bits *)

Lemma testbit_small b n i : (0 ≤ b < 2 ^ n → 0 ≤ n ≤ i → Z.testbit b i = false)%Z.
Proof.
  intros Hb Hi. rewrite <- (Z.mod_small b (2 ^ n)) by done.
  apply Z.mod_pow2_bits_high. lia.
Qed.

(** A value below [2 ^ n] or-ed under a value shifted by [n] is their sum. *)
Lemma lor_shiftl_add a b n :
  (0 ≤ n → 0 ≤ b < 2 ^ n → Z.lor (Z.shiftl a n) b = a * 2 ^ n + b)%Z.
Proof.
  intros Hn Hb. rewrite <- Z.shiftl_mul_pow2 by lia.
  assert (Z.land (Z.shiftl a n) b = 0)%Z as Hl.
  { apply Z.bits_inj'. intros i Hi. rewrite Z.land_spec, Z.bits_0.
    destruct (decide (i < n)%Z).
    - by rewrite Z.shiftl_spec_low by lia.
    - rewrite (testbit_small b n i) by lia. by rewrite andb_false_r. }
  rewrite <- Z.lxor_lor by done. symmetry. by apply Z.add_nocarry_lxor.
Qed.

Lemma shiftr_low a b n :
  (0 ≤ n → 0 ≤ b < 2 ^ n → Z.shiftr (a * 2 ^ n + b) n = a)%Z.
Proof.
  intros Hn Hb. rewrite Z.shiftr_div_pow2 by lia.
  rewrite Z.div_add_l by lia. rewrite Z.div_small by lia. lia.
Qed.

Lemma land_ones_mod a n : (0 ≤ n → Z.land a (2 ^ n - 1) = a mod 2 ^ n)%Z.
Proof. intros. rewrite <- Z.land_ones by lia. f_equal. rewrite Z.ones_equiv. lia. Qed.
