(* ===== verification/Text.v ===== *)
(** * Decimal text

    The parts of the C++ standard library the service prints and reads numbers
    with: [std::to_string], [std::stoi] and [strtoull] in base 10. *)

From Stdlib Require Import Ascii.
From S2P Require Import Prelude.
From stdpp Require Import options.

Local Open Scope Z_scope.

Definition digit_char (d : Z) : ascii := ascii_of_nat (48 + Z.to_nat d).

Definition digit_value (c : ascii) : option Z :=
  let n := Z.of_nat (nat_of_ascii c) in
  if (48 <=? n) && (n <=? 57) then Some (n - 48) else None.

(** [isspace] of the C locale. *)
Definition is_space (c : ascii) : bool :=
  let n := nat_of_ascii c in
  Nat.eqb n 32 || (Nat.leb 9 n && Nat.leb n 13).

(** ** Appending *)

Lemma string_app_nil_r s : (s +:+ EmptyString)%string = s.
Proof. induction s as [|c s IH]; [done|]. change (String c (s +:+ EmptyString) = String c s)%string. by rewrite IH. Qed.

Lemma string_app_cons c s t : (String c s +:+ t)%string = String c (s +:+ t)%string.
Proof. done. Qed.

Lemma string_app_assoc s t u : (s +:+ (t +:+ u))%string = ((s +:+ t) +:+ u)%string.
Proof. induction s as [|c s IH]; [done|]. rewrite !string_app_cons. by rewrite IH. Qed.

(** ** Printing *)

Fixpoint decimal_digits (fuel : nat) (n : Z) (acc : string) : string :=
  match fuel with
  | O => acc
  | S fuel' =>
      let acc' := String (digit_char (n mod 10)) acc in
      if n <? 10 then acc' else decimal_digits fuel' (n / 10) acc'
  end.

(** A number below [2 ^ k] has at most [k] digits, when [k] is positive. *)
Definition to_string (n : Z) : string :=
  let digits m := decimal_digits (S (Z.to_nat (Z.log2 m))) m EmptyString in
  if n <? 0 then String "-" (digits (- n)) else digits n.

(** ** Reading *)

(** The value of the digits [s] starts with, read after [acc]. *)
Fixpoint read_digits (s : string) (acc : Z) : Z :=
  match s with
  | EmptyString => acc
  | String c s' =>
      match digit_value c with
      | Some d => read_digits s' (acc * 10 + d)
      | None => acc
      end
  end.

Definition starts_with_digit (s : string) : bool :=
  match s with
  | String c _ => bool_decide (is_Some (digit_value c))
  | EmptyString => false
  end.

Fixpoint skip_spaces (s : string) : string :=
  match s with
  | String c s' => if is_space c then skip_spaces s' else s
  | EmptyString => EmptyString
  end.

(** An optional sign: whether it is a minus, and the text after it. *)
Definition read_sign (s : string) : bool * string :=
  match s with
  | String c s' => if ascii_dec c "-" then (true, s') else if ascii_dec c "+" then (false, s') else (false, s)
  | EmptyString => (false, s)
  end.

(** [strtol] without its limits: [None] when there is no number. *)
Definition read_decimal (s : string) : option Z :=
  let '(negative, s) := read_sign (skip_spaces s) in
  if starts_with_digit s then
    Some (if negative then - read_digits s 0 else read_digits s 0)
  else None.

(** [std::stoi]: [None] is [invalid_argument] or [out_of_range]. *)
Definition stoi (s : string) : option Z :=
  v ← read_decimal s;
  if (- 2 ^ 31 <=? v) && (v <? 2 ^ 31) then Some v else None.

(** [strtoull]: 0 when there is no number, the largest value when it is too
    large, and the negated value modulo [2 ^ 64] after a minus sign. *)
Definition strtoull (s : string) : Z :=
  let '(negative, s) := read_sign (skip_spaces s) in
  if starts_with_digit s then
    let v := read_digits s 0 in
    if 2 ^ 64 <=? v then 2 ^ 64 - 1 else if negative then u64 (- v) else v
  else 0.

(** ** What is printed is read back *)

Lemma digit_cases d : 0 ≤ d < 10 →
  digit_value (digit_char d) = Some d ∧ is_space (digit_char d) = false ∧
  digit_char d ≠ "-"%char ∧ digit_char d ≠ "+"%char ∧ digit_char d ≠ " "%char.
Proof.
  intros Hd. assert (∃ k : nat, (k < 10)%nat ∧ d = Z.of_nat k) as (k & Hk & ->).
  { exists (Z.to_nat d). lia. }
  do 10 (destruct k as [|k]; [by vm_compute|]). lia.
Qed.

#[global] Opaque digit_char digit_value.

Lemma read_decimal_digits fuel n acc :
  0 ≤ n < 10 ^ Z.of_nat fuel → (0 < fuel)%nat →
  read_digits (decimal_digits fuel n acc) 0 = read_digits acc n.
Proof.
  revert n acc. induction fuel as [|fuel IH]; intros n acc Hn Hf; [lia|]. cbn [decimal_digits].
  pose proof (Z.mod_pos_bound n 10 ltac:(lia)) as Hm. cbv zeta.
  destruct (n <? 10) eqn:Hlt; cbn [read_digits].
  - destruct (digit_cases (n mod 10) Hm) as [-> _]. f_equal. rewrite Z.mod_small; lia.
  - assert (0 < fuel)%nat.
    { destruct fuel; [|lia]. rewrite Z.pow_1_r in Hn by done. lia. }
    rewrite IH; [|split; [apply Z.div_pos; lia|]|done].
    + cbn [read_digits]. destruct (digit_cases (n mod 10) Hm) as [-> _]. f_equal.
      pose proof (Z.div_mod n 10). lia.
    + rewrite Nat2Z.inj_succ, Z.pow_succ_r in Hn by lia. apply Z.div_lt_upper_bound; lia.
Qed.

Lemma decimal_digits_start fuel n acc :
  0 ≤ n → (0 < fuel)%nat →
  ∃ d s, 0 ≤ d < 10 ∧ decimal_digits fuel n acc = String (digit_char d) s.
Proof.
  revert n acc. induction fuel as [|fuel IH]; intros n acc Hn Hf; [lia|]. cbn [decimal_digits]. cbv zeta.
  pose proof (Z.mod_pos_bound n 10 ltac:(lia)) as Hm.
  destruct (n <? 10); [by eauto|]. destruct fuel as [|fuel]; [by eauto|].
  apply IH; [apply Z.div_pos; lia|lia].
Qed.

Lemma digits_enough n : 0 ≤ n → n < 10 ^ Z.of_nat (S (Z.to_nat (Z.log2 n))).
Proof.
  intros Hn. rewrite Nat2Z.inj_succ, Z2Nat.id by apply Z.log2_nonneg.
  destruct (decide (n = 0)) as [->|]; [done|].
  pose proof (Z.log2_spec n ltac:(lia)) as [_ Hl]. pose proof (Z.log2_nonneg n).
  assert (2 ^ Z.succ (Z.log2 n) ≤ 10 ^ Z.succ (Z.log2 n)) by (apply Z.pow_le_mono_l; lia). lia.
Qed.

(** What [to_string] prints: an optional minus and digits that read back. *)
Lemma to_string_digits n : 0 ≤ n →
  ∃ d s, 0 ≤ d < 10 ∧ to_string n = String (digit_char d) s ∧ read_digits (to_string n) 0 = n.
Proof.
  intros Hn. unfold to_string. rewrite (proj2 (Z.ltb_ge n 0)) by done.
  destruct (decimal_digits_start (S (Z.to_nat (Z.log2 n))) n EmptyString) as (d & s & Hd & Hs); [done|lia|].
  exists d, s. split_and!; [lia|lia|done|].
  rewrite read_decimal_digits; [done| |lia]. split; [done|by apply digits_enough].
Qed.

Lemma read_decimal_to_string n : read_decimal (to_string n) = Some n.
Proof.
  assert (∀ d s, 0 ≤ d < 10 → starts_with_digit (String (digit_char d) s) = true) as Hstart.
  { intros d s Hd. simpl. destruct (digit_cases d Hd) as [-> _]. done. }
  unfold read_decimal. destruct (decide (0 ≤ n)) as [Hn|Hn].
  - destruct (to_string_digits n Hn) as (d & s & Hd & Hs & Hr).
    destruct (digit_cases d Hd) as (_ & Hsp & Hm & Hp & _). rewrite Hs in Hr |- *. cbn [skip_spaces].
    rewrite Hsp. cbn [read_sign]. destruct (ascii_dec _ "-"); [done|]. destruct (ascii_dec _ "+"); [done|].
    rewrite Hstart by done. by rewrite Hr.
  - assert (to_string n = String "-" (to_string (- n))) as ->.
    { unfold to_string. rewrite (proj2 (Z.ltb_lt n 0)), (proj2 (Z.ltb_ge (- n) 0)) by lia. done. }
    simpl. destruct (to_string_digits (- n) ltac:(lia)) as (d & s & Hd & Hs & Hr).
    rewrite Hs at 1. rewrite Hstart by done. rewrite Hr. f_equal. lia.
Qed.

Lemma to_string_inj m n : to_string m = to_string n → m = n.
Proof. intros H%(f_equal read_decimal). rewrite !read_decimal_to_string in H. by injection H. Qed.

Lemma stoi_to_string n : - 2 ^ 31 ≤ n < 2 ^ 31 → stoi (to_string n) = Some n.
Proof.
  intros Hn. unfold stoi. rewrite read_decimal_to_string; cbn [mbind option_bind].
  by rewrite (proj2 (Z.leb_le _ _)), (proj2 (Z.ltb_lt _ _)) by lia.
Qed.

Lemma strtoull_to_string n : is_u64 n → strtoull (to_string n) = n.
Proof.
  unfold is_u64. intros Hn. unfold strtoull.
  destruct (to_string_digits n ltac:(lia)) as (d & s & Hd & Hs & Hr).
  destruct (digit_cases d Hd) as (Hv & Hsp & Hm & Hp & _). rewrite Hs in Hr |- *. cbn [skip_spaces].
  rewrite Hsp. cbn [read_sign]. destruct (ascii_dec _ "-"); [done|]. destruct (ascii_dec _ "+"); [done|].
  unfold starts_with_digit. rewrite Hv, Hr. cbn [bool_decide].
  rewrite bool_decide_true by done.
  by rewrite (proj2 (Z.leb_gt _ _)) by lia.
Qed.

(** The characters of printed numbers. *)
Definition is_number_char (c : ascii) : bool :=
  bool_decide (is_Some (digit_value c)) || bool_decide (c = "-"%char).

Fixpoint all_chars (p : ascii → bool) (s : string) : bool :=
  match s with
  | EmptyString => true
  | String c s' => p c && all_chars p s'
  end.

Lemma decimal_digits_chars fuel n acc :
  all_chars is_number_char acc = true → all_chars is_number_char (decimal_digits fuel n acc) = true.
Proof.
  revert n acc. induction fuel as [|fuel IH]; intros n acc Hacc; [done|]. cbn [decimal_digits]. cbv zeta.
  assert (all_chars is_number_char (String (digit_char (n mod 10)) acc) = true).
  { simpl. rewrite Hacc, andb_true_r. unfold is_number_char.
    destruct (digit_cases (n mod 10)) as [-> _]; [apply Z.mod_pos_bound; lia|done]. }
  destruct (n <? 10); [done|]. by apply IH.
Qed.

Lemma to_string_chars n : all_chars is_number_char (to_string n) = true.
Proof. unfold to_string. destruct (n <? 0); cbn [all_chars]; by rewrite decimal_digits_chars. Qed.

Lemma to_string_nonempty n : to_string n ≠ EmptyString.
Proof.
  intros Hs. pose proof (read_decimal_to_string n) as Hr. rewrite Hs in Hr. done.
Qed.

Example to_string_example : to_string 1000 = "1000"%string ∧ to_string (-7) = "-7"%string ∧ to_string 0 = "0"%string.
Proof. by vm_compute. Qed.

Example strtoull_example :
  strtoull "18446744073709551616" = 2 ^ 64 - 1 ∧ strtoull " 12ab" = 12 ∧ strtoull "-1" = 2 ^ 64 - 1 ∧
  strtoull "x" = 0.
Proof. by vm_compute. Qed.

(** ** UTF-8 *)

(** Well-formed UTF-8, read from the middle of a character that wants [k] more
    bytes, of which the next is between [lo] and [hi]. *)
Fixpoint utf8_from (k : nat) (lo hi : Z) (s : string) : bool :=
  match s, k with
  | EmptyString, O => true
  | EmptyString, S _ => false
  | String c s, O =>
      let n := Z.of_nat (nat_of_ascii c) in
      if n <? 0x80 then utf8_from 0 0x80 0xBF s
      else if (0xC2 <=? n) && (n <=? 0xDF) then utf8_from 1 0x80 0xBF s
      else if (0xE0 <=? n) && (n <=? 0xEF) then
        utf8_from 2 (if n =? 0xE0 then 0xA0 else 0x80) (if n =? 0xED then 0x9F else 0xBF) s
      else if (0xF0 <=? n) && (n <=? 0xF4) then
        utf8_from 3 (if n =? 0xF0 then 0x90 else 0x80) (if n =? 0xF4 then 0x8F else 0xBF) s
      else false
  | String c s, S k =>
      let n := Z.of_nat (nat_of_ascii c) in
      if (lo <=? n) && (n <=? hi) then utf8_from k 0x80 0xBF s else false
  end.

(** What a protobuf [string] field may hold. *)
Definition is_utf8 (s : string) : bool := utf8_from 0 0x80 0xBF s.

(** ** Wire forms for the examples

    Encodings of lists and strings as lists of numbers, with the proofs that they
    are read back: what the concrete instances of the protobuf messages in the
    examples are made of. *)

(** Lists with their length in front. *)
Definition put_list (l : list Z) : list Z := Z.of_nat (length l) :: l.
Definition get_list (bytes : list Z) : option (list Z * list Z) :=
  match bytes with
  | n :: rest => Some (take (Z.to_nat n) rest, drop (Z.to_nat n) rest)
  | [] => None
  end.

Fixpoint get_lists (fuel : nat) (bytes : list Z) : option (list (list Z)) :=
  match fuel, bytes with
  | _, [] => Some []
  | O, _ => None
  | S fuel, _ => '(l, rest) ← get_list bytes; ls ← get_lists fuel rest; Some (l :: ls)
  end.

Definition put_string (s : string) : list Z := put_list (Z.of_nat ∘ Ascii.nat_of_ascii <$> String.list_ascii_of_string s).
Definition string_of (l : list Z) : string := String.string_of_list_ascii (Ascii.ascii_of_nat ∘ Z.to_nat <$> l).

Lemma get_put_list l rest : get_list (put_list l ++ rest) = Some (l, rest).
Proof. simpl. by rewrite Nat2Z.id, take_app_length, drop_app_length. Qed.

Lemma get_put_lists ls fuel : (length ls ≤ fuel)%nat → get_lists fuel (ls ≫= put_list) = Some ls.
Proof.
  revert fuel. induction ls as [|l ls IH]; intros fuel Hl; [by destruct fuel|].
  destruct fuel as [|fuel]; [simpl in Hl; lia|]. cbn [mbind list_bind]. simpl in Hl.
  change (put_list l ++ ls ≫= put_list) with ((Z.of_nat (length l) :: l) ++ ls ≫= put_list).
  cbn [app get_lists]. change (Z.of_nat (length l) :: l ++ ls ≫= put_list) with (put_list l ++ ls ≫= put_list).
  rewrite get_put_list. simpl. by rewrite IH by lia.
Qed.

Lemma string_of_put (s : string) :
  string_of (Z.of_nat ∘ Ascii.nat_of_ascii <$> String.list_ascii_of_string s) = s.
Proof.
  unfold string_of. rewrite <- list_fmap_compose.
  rewrite (list_fmap_ext _ Datatypes.id); [by rewrite list_fmap_id, String.string_of_list_ascii_of_string|].
  intros i c _. simpl. by rewrite Nat2Z.id, Ascii.ascii_nat_embedding.
Qed.
