(* ===== verification/ExecutionResult.v ===== *)
(** * Execution results

    Models [cc/public/core/interface/execution_result.h] and
    [cc/public/core/src/execution_result.cc]: the status and status code every
    operation of the service returns, its comparison, and its conversion to
    and from the protobuf message the journal stores. *)

From S2P Require Import Prelude.
From stdpp Require Import options.

Local Open Scope Z_scope.

(** Operation's execution status. *)
Inductive ExecutionStatus :=
| Success
| Failure
| Retry.

#[export] Instance ExecutionStatus_eq_dec : EqDecision ExecutionStatus.
Proof. solve_decision. Defined.

Definition SC_OK : Z := 0.
Definition SC_UNKNOWN : Z := 1.

Record ExecutionResult := mkResult {
  status : ExecutionStatus;
  status_code : Z;
}.

#[export] Instance ExecutionResult_eq_dec : EqDecision ExecutionResult.
Proof. solve_decision. Defined.

Definition SuccessExecutionResult : ExecutionResult := mkResult Success SC_OK.
Definition FailureExecutionResult (code : Z) : ExecutionResult := mkResult Failure code.
Definition RetryExecutionResult (code : Z) : ExecutionResult := mkResult Retry code.

(** [operator==] compares the status and the code. *)
Definition result_eqb (a b : ExecutionResult) : bool :=
  bool_decide (status a = status b) && (status_code a =? status_code b).

Definition Successful (r : ExecutionResult) : bool := result_eqb r SuccessExecutionResult.

Definition Retryable (r : ExecutionResult) : bool := bool_decide (status r = Retry).

(** ** The protobuf form *)

(** [core::common::proto::ExecutionStatus]; [UNKNOWN] stands for every number
    the map does not hold. *)
Inductive ProtoExecutionStatus :=
| EXECUTION_STATUS_UNKNOWN
| EXECUTION_STATUS_SUCCESS
| EXECUTION_STATUS_FAILURE
| EXECUTION_STATUS_RETRY.

Record ProtoExecutionResult := mkProtoResult {
  proto_status : ProtoExecutionStatus;
  proto_status_code : Z;
}.

Definition ToStatusProto (s : ExecutionStatus) : ProtoExecutionStatus :=
  match s with
  | Success => EXECUTION_STATUS_SUCCESS
  | Failure => EXECUTION_STATUS_FAILURE
  | Retry => EXECUTION_STATUS_RETRY
  end.

(** The reverse map: no entry for the unknown status. *)
Definition kProtoToExecutionStatusMap (s : ProtoExecutionStatus) : option ExecutionStatus :=
  match s with
  | EXECUTION_STATUS_SUCCESS => Some Success
  | EXECUTION_STATUS_FAILURE => Some Failure
  | EXECUTION_STATUS_RETRY => Some Retry
  | EXECUTION_STATUS_UNKNOWN => None
  end.

Definition ToProto (r : ExecutionResult) : ProtoExecutionResult :=
  mkProtoResult (ToStatusProto (status r)) (status_code r).

Definition FromProto (p : ProtoExecutionResult) : ExecutionResult :=
  mkResult (default Failure (kProtoToExecutionStatusMap (proto_status p)))
           (proto_status_code p).

(** ** Lemmas *)

Lemma result_eqb_spec a b : result_eqb a b = true ↔ a = b.
Proof.
  destruct a as [sa ca], b as [sb cb]. unfold result_eqb; simpl.
  rewrite andb_true_iff, bool_decide_eq_true, Z.eqb_eq. split; [by intros [-> ->]|by intros [= -> ->]].
Qed.

Lemma result_eqb_refl a : result_eqb a a = true.
Proof. by apply result_eqb_spec. Qed.

Lemma Successful_spec r : Successful r = true ↔ r = SuccessExecutionResult.
Proof. apply result_eqb_spec. Qed.

Lemma Successful_true r : Successful r = true → r = SuccessExecutionResult.
Proof. apply Successful_spec. Qed.

Lemma Successful_false r : Successful r = false ↔ r ≠ SuccessExecutionResult.
Proof. rewrite <- Successful_spec. by destruct (Successful r). Qed.

(** A result that goes to the journal and comes back is the same result. *)
Lemma FromProto_ToProto r : FromProto (ToProto r) = r.
Proof. by destruct r as [[] ?]. Qed.

Create HintDb results.
Create Rewrite HintDb results.
#[export] Hint Rewrite result_eqb_refl FromProto_ToProto : results.
#[export] Hint Resolve Successful_true : results.
