(* ===== verification/ErrorCodes.v ===== *)
(** * Error codes

    Models [MakeErrorCode] and [ExtractComponentCode] of
    [cc/core/interface/errors.h] and the error codes the modelled components
    register in their [error_codes.h]. *)

From S2P Require Import Prelude.
From stdpp Require Import options.

Local Open Scope Z_scope.

(** Bit 31, the component code in bits 16 to 30, the error in bits 0 to 15. *)
Definition MakeErrorCode (component error : Z) : Z :=
  Z.lor (Z.lor (Z.shiftl 1 31) (Z.shiftl component 16)) error.

Definition ExtractComponentCode (error_code : Z) : Z :=
  Z.land (Z.shiftr error_code 16) 0x7FFF.

(** The [static_assert]s of [DEFINE_ERROR_CODE]. *)
Definition component_in_range (component : Z) : Prop := 0 ≤ component < 0x8000.
Definition error_in_range (error : Z) : Prop := 0 ≤ error < 0x10000.

(** ** [cc/core/common/concurrent_map/src/error_codes.h] *)

Definition SC_CONCURRENT_MAP : Z := 0x0004.
Definition SC_CONCURRENT_MAP_ENTRY_ALREADY_EXISTS : Z := MakeErrorCode SC_CONCURRENT_MAP 0x0001.
Definition SC_CONCURRENT_MAP_ENTRY_DOES_NOT_EXIST : Z := MakeErrorCode SC_CONCURRENT_MAP 0x0002.

(** ** [cc/core/common/auto_expiry_concurrent_map/src/error_codes.h] *)

Definition SC_AUTO_EXPIRY_CONCURRENT_MAP : Z := 0x0015.
Definition SC_AUTO_EXPIRY_CONCURRENT_MAP_CANNOT_SCHEDULE : Z := MakeErrorCode SC_AUTO_EXPIRY_CONCURRENT_MAP 0x0001.
Definition SC_AUTO_EXPIRY_CONCURRENT_MAP_INVALID_EXPIRATION : Z := MakeErrorCode SC_AUTO_EXPIRY_CONCURRENT_MAP 0x0002.
Definition SC_AUTO_EXPIRY_CONCURRENT_MAP_ENTRY_BEING_DELETED : Z := MakeErrorCode SC_AUTO_EXPIRY_CONCURRENT_MAP 0x0004.
Definition SC_AUTO_EXPIRY_CONCURRENT_MAP_STOP_INCOMPLETE : Z := MakeErrorCode SC_AUTO_EXPIRY_CONCURRENT_MAP 0x0005.

(** ** [cc/core/common/operation_dispatcher/src/error_codes.h] *)

Definition SC_DISPATCHER : Z := 0x0009.
Definition SC_DISPATCHER_EXHAUSTED_RETRIES : Z := MakeErrorCode SC_DISPATCHER 0x0001.
Definition SC_DISPATCHER_OPERATION_EXPIRED : Z := MakeErrorCode SC_DISPATCHER 0x0002.
Definition SC_DISPATCHER_NOT_ENOUGH_TIME_REMAINED_FOR_OPERATION : Z := MakeErrorCode SC_DISPATCHER 0x0003.

(** ** [cc/core/common/uuid/src/error_codes.h] *)

Definition SC_UUID : Z := 0x0011.
Definition SC_UUID_INVALID_STRING : Z := MakeErrorCode SC_UUID 0x0001.

(** ** [cc/core/common/serialization/src/error_codes.h] *)

Definition SC_SERIALIZATION : Z := 0x000B.
Definition SC_SERIALIZATION_BUFFER_NOT_WRITABLE : Z := MakeErrorCode SC_SERIALIZATION 0x0001.
Definition SC_SERIALIZATION_BUFFER_NOT_READABLE : Z := MakeErrorCode SC_SERIALIZATION 0x0002.
Definition SC_SERIALIZATION_PROTO_SERIALIZATION_FAILED : Z := MakeErrorCode SC_SERIALIZATION 0x0003.
Definition SC_SERIALIZATION_PROTO_DESERIALIZATION_FAILED : Z := MakeErrorCode SC_SERIALIZATION 0x0004.
Definition SC_SERIALIZATION_INVALID_SERIALIZATION_TYPE : Z := MakeErrorCode SC_SERIALIZATION 0x0005.
Definition SC_SERIALIZATION_VERSION_IS_INVALID : Z := MakeErrorCode SC_SERIALIZATION 0x0006.

(** ** [cc/core/transaction_manager/src/error_codes.h] *)

Definition SC_TRANSACTION_MANAGER : Z := 0x0007.
Definition SC_TRANSACTION_MANAGER_CANNOT_INITIALIZE : Z := MakeErrorCode SC_TRANSACTION_MANAGER 0x0001.
Definition SC_TRANSACTION_MANAGER_ALREADY_STARTED : Z := MakeErrorCode SC_TRANSACTION_MANAGER 0x0002.
Definition SC_TRANSACTION_MANAGER_NOT_STARTED : Z := MakeErrorCode SC_TRANSACTION_MANAGER 0x0003.
Definition SC_TRANSACTION_MANAGER_CANNOT_ACCEPT_NEW_REQUESTS : Z := MakeErrorCode SC_TRANSACTION_MANAGER 0x0004.
Definition SC_TRANSACTION_MANAGER_INVALID_MAX_CONCURRENT_TRANSACTIONS_VALUE : Z := MakeErrorCode SC_TRANSACTION_MANAGER 0x0006.
Definition SC_TRANSACTION_ENGINE_CANNOT_ACCEPT_TRANSACTION : Z := MakeErrorCode SC_TRANSACTION_MANAGER 0x0007.
Definition SC_TRANSACTION_ENGINE_INVALID_DISTRIBUTED_COMMAND : Z := MakeErrorCode SC_TRANSACTION_MANAGER 0x0008.
Definition SC_TRANSACTION_MANAGER_ALREADY_STOPPED : Z := MakeErrorCode SC_TRANSACTION_MANAGER 0x0009.
Definition SC_TRANSACTION_MANAGER_NOT_FINISHED : Z := MakeErrorCode SC_TRANSACTION_MANAGER 0x000A.
Definition SC_TRANSACTION_MANAGER_TRANSACTION_NOT_FOUND : Z := MakeErrorCode SC_TRANSACTION_MANAGER 0x000B.
Definition SC_TRANSACTION_MANAGER_INVALID_TRANSACTION_LOG : Z := MakeErrorCode SC_TRANSACTION_MANAGER 0x000C.
Definition SC_TRANSACTION_MANAGER_TERMINATABLE_TRANSACTION : Z := MakeErrorCode SC_TRANSACTION_MANAGER 0x000D.
Definition SC_TRANSACTION_MANAGER_INVALID_TRANSACTION_PHASE : Z := MakeErrorCode SC_TRANSACTION_MANAGER 0x000E.
Definition SC_TRANSACTION_MANAGER_CURRENT_TRANSACTION_IS_RUNNING : Z := MakeErrorCode SC_TRANSACTION_MANAGER 0x000F.
Definition SC_TRANSACTION_MANAGER_CANNOT_CREATE_CHECKPOINT_WHEN_STARTED : Z := MakeErrorCode SC_TRANSACTION_MANAGER 0x0010.
Definition SC_TRANSACTION_MANAGER_TRANSACTION_TIMEOUT : Z := MakeErrorCode SC_TRANSACTION_MANAGER 0x0011.
Definition SC_TRANSACTION_MANAGER_TRANSACTION_NOT_COORDINATED_REMOTELY : Z := MakeErrorCode SC_TRANSACTION_MANAGER 0x0012.
Definition SC_TRANSACTION_MANAGER_TRANSACTION_SECRET_IS_NOT_VALID : Z := MakeErrorCode SC_TRANSACTION_MANAGER 0x0013.
Definition SC_TRANSACTION_MANAGER_TRANSACTION_IS_EXPIRED : Z := MakeErrorCode SC_TRANSACTION_MANAGER 0x0014.
Definition SC_TRANSACTION_MANAGER_REMOTE_TRANSACTION_FAILED : Z := MakeErrorCode SC_TRANSACTION_MANAGER 0x0015.
Definition SC_TRANSACTION_MANAGER_TRANSACTION_IS_ABORTED : Z := MakeErrorCode SC_TRANSACTION_MANAGER 0x0016.
Definition SC_TRANSACTION_MANAGER_TRANSACTION_HAS_PENDING_CALLBACKS : Z := MakeErrorCode SC_TRANSACTION_MANAGER 0x0017.
Definition SC_TRANSACTION_MANAGER_TRANSACTION_CANNOT_BE_LOCKED : Z := MakeErrorCode SC_TRANSACTION_MANAGER 0x0018.
Definition SC_TRANSACTION_MANAGER_TRANSACTION_ORIGIN_IS_NOT_VALID : Z := MakeErrorCode SC_TRANSACTION_MANAGER 0x0019.
Definition SC_TRANSACTION_MANAGER_TRANSACTION_OUT_OF_SYNC : Z := MakeErrorCode SC_TRANSACTION_MANAGER 0x001A.
Definition SC_TRANSACTION_MANAGER_TRANSACTION_STUCK : Z := MakeErrorCode SC_TRANSACTION_MANAGER 0x001B.
Definition SC_TRANSACTION_MANAGER_TRANSACTION_UNKNOWN : Z := MakeErrorCode SC_TRANSACTION_MANAGER 0x001C.
Definition SC_TRANSACTION_MANAGER_LAST_EXECUTION_TIMESTAMP_NOT_MATCHING : Z := MakeErrorCode SC_TRANSACTION_MANAGER 0x001D.
Definition SC_TRANSACTION_MANAGER_TRANSACTION_CANNOT_BE_UNLOCKED : Z := MakeErrorCode SC_TRANSACTION_MANAGER 0x001E.
Definition SC_TRANSACTION_ENGINE_INVALID_TRANSACTION_REQUEST : Z := MakeErrorCode SC_TRANSACTION_MANAGER 0x001F.
Definition SC_TRANSACTION_MANAGER_STATUS_CANNOT_BE_OBTAINED : Z := MakeErrorCode SC_TRANSACTION_MANAGER 0x0020.
Definition SC_TRANSACTION_MANAGER_QUEUE_FAILURE : Z := MakeErrorCode SC_TRANSACTION_MANAGER 0x0021.
Definition SC_TRANSACTION_MANAGER_STATE_IS_INVALID : Z := MakeErrorCode SC_TRANSACTION_MANAGER 0x0022.
Definition SC_TRANSACTION_MANAGER_TRANSACTION_IS_NOT_LOCKED : Z := MakeErrorCode SC_TRANSACTION_MANAGER 0x0023.
Definition SC_TRANSACTION_MANAGER_TRANSACTION_ALREADY_EXISTS : Z := MakeErrorCode SC_TRANSACTION_MANAGER 0x0024.

(** ** [cc/pbs/budget_key_timeframe_manager/src/error_codes.h] *)

Definition SC_BUDGET_KEY_TIMEFRAME_MANAGER : Z := 0x0104.
Definition SC_BUDGET_KEY_TIMEFRAME_MANAGER_ENTRY_IS_LOADING : Z := MakeErrorCode SC_BUDGET_KEY_TIMEFRAME_MANAGER 0x0001.
Definition SC_BUDGET_KEY_TIMEFRAME_MANAGER_INVALID_LOG : Z := MakeErrorCode SC_BUDGET_KEY_TIMEFRAME_MANAGER 0x0002.
Definition SC_BUDGET_KEY_TIMEFRAME_MANAGER_ENTRY_DOES_NOT_MATCH_LOG : Z := MakeErrorCode SC_BUDGET_KEY_TIMEFRAME_MANAGER 0x0003.
Definition SC_BUDGET_KEY_TIMEFRAME_MANAGER_CANNOT_BE_UNLOADED : Z := MakeErrorCode SC_BUDGET_KEY_TIMEFRAME_MANAGER 0x0004.
Definition SC_BUDGET_KEY_TIMEFRAME_MANAGER_CORRUPTED_KEY_METADATA : Z := MakeErrorCode SC_BUDGET_KEY_TIMEFRAME_MANAGER 0x0005.
Definition SC_BUDGET_KEY_TIMEFRAME_MANAGER_EMPTY_REQUEST : Z := MakeErrorCode SC_BUDGET_KEY_TIMEFRAME_MANAGER 0x0006.
Definition SC_BUDGET_KEY_TIMEFRAME_MANAGER_MULTIPLE_TIMEFRAME_GROUPS : Z := MakeErrorCode SC_BUDGET_KEY_TIMEFRAME_MANAGER 0x0007.
Definition SC_BUDGET_KEY_TIMEFRAME_MANAGER_REPEATED_TIMEBUCKETS : Z := MakeErrorCode SC_BUDGET_KEY_TIMEFRAME_MANAGER 0x0008.

(** ** [cc/pbs/budget_key_transaction_protocols/src/error_codes.h] *)

Definition SC_PBS_BUDGET_KEY_TRANSACTION_PROTOCOLS : Z := 0x0105.
Definition SC_PBS_BUDGET_KEY_ACTIVE_TRANSACTION_IN_PROGRESS : Z := MakeErrorCode SC_PBS_BUDGET_KEY_TRANSACTION_PROTOCOLS 0x0001.
Definition SC_PBS_BUDGET_KEY_INVALID_TRANSACTION_ID : Z := MakeErrorCode SC_PBS_BUDGET_KEY_TRANSACTION_PROTOCOLS 0x0002.
Definition SC_PBS_BUDGET_KEY_TRANSACTION_ID_MISMATCH : Z := MakeErrorCode SC_PBS_BUDGET_KEY_TRANSACTION_PROTOCOLS 0x0003.
Definition SC_PBS_BUDGET_KEY_CONSUME_BUDGET_INSUFFICIENT_BUDGET : Z := MakeErrorCode SC_PBS_BUDGET_KEY_TRANSACTION_PROTOCOLS 0x0004.
Definition SC_PBS_BUDGET_KEY_BATCH_REQUEST_HAS_LESS_BUDGETS_TO_CONSUME : Z := MakeErrorCode SC_PBS_BUDGET_KEY_TRANSACTION_PROTOCOLS 0x0005.
Definition SC_PBS_BUDGET_KEY_BATCH_REQUEST_HAS_INVALID_ORDER : Z := MakeErrorCode SC_PBS_BUDGET_KEY_TRANSACTION_PROTOCOLS 0x0006.
Definition SC_PBS_BUDGET_KEY_CONSUME_BUDGET_LOADED_TIMEFRAMES_INVALID : Z := MakeErrorCode SC_PBS_BUDGET_KEY_TRANSACTION_PROTOCOLS 0x0007.

(** ** [cc/pbs/transactions/src/command_error_codes.h] *)

Definition SC_PBS_TRANSACTION_COMMAND : Z := 0x0156.
Definition SC_PBS_TRANSACTION_COMMAND_DEPENDENCIES_UNINITIALIZED : Z := MakeErrorCode SC_PBS_TRANSACTION_COMMAND 0x0001.

(** ** [cc/pbs/transactions/src/error_codes.h] *)

Definition SC_PBS_TRANSACTION_COMMAND_SERIALIZER : Z := 0x0101.
Definition SC_PBS_TRANSACTION_COMMAND_SERIALIZER_UNSUPPORTED : Z := MakeErrorCode SC_PBS_TRANSACTION_COMMAND_SERIALIZER 0x0001.
Definition SC_PBS_TRANSACTION_COMMAND_SERIALIZER_INVALID_COMMAND_VERSION : Z := MakeErrorCode SC_PBS_TRANSACTION_COMMAND_SERIALIZER 0x0002.
Definition SC_PBS_TRANSACTION_COMMAND_SERIALIZER_SERIALIZATION_FAILED : Z := MakeErrorCode SC_PBS_TRANSACTION_COMMAND_SERIALIZER 0x0003.
Definition SC_PBS_TRANSACTION_COMMAND_SERIALIZER_INVALID_COMMAND_TYPE : Z := MakeErrorCode SC_PBS_TRANSACTION_COMMAND_SERIALIZER 0x0004.
Definition SC_PBS_TRANSACTION_COMMAND_SERIALIZER_INVALID_TRANSACTION_LOG : Z := MakeErrorCode SC_PBS_TRANSACTION_COMMAND_SERIALIZER 0x0005.
Definition SC_PBS_TRANSACTION_COMMAND_SERIALIZER_DESERIALIZATION_FAILED : Z := MakeErrorCode SC_PBS_TRANSACTION_COMMAND_SERIALIZER 0x0006.

(** ** [cc/pbs/front_end_service/src/error_codes.h] *)

Definition SC_PBS_FRONT_END_SERVICE : Z := 0x0100.
Definition SC_PBS_FRONT_END_SERVICE_INVALID_REQUEST : Z := MakeErrorCode SC_PBS_FRONT_END_SERVICE 0x0001.
Definition SC_PBS_FRONT_END_SERVICE_INVALID_REQUEST_BODY : Z := MakeErrorCode SC_PBS_FRONT_END_SERVICE 0x0002.
Definition SC_PBS_FRONT_END_SERVICE_NO_KEYS_AVAILABLE : Z := MakeErrorCode SC_PBS_FRONT_END_SERVICE 0x0003.
Definition SC_PBS_FRONT_END_SERVICE_INVALID_RESPONSE_BODY : Z := MakeErrorCode SC_PBS_FRONT_END_SERVICE 0x0004.
Definition SC_PBS_FRONT_END_SERVICE_REQUEST_HEADER_NOT_FOUND : Z := MakeErrorCode SC_PBS_FRONT_END_SERVICE 0x0005.
Definition SC_PBS_FRONT_END_SERVICE_BAD_TRANSACTON_COMMANDS : Z := MakeErrorCode SC_PBS_FRONT_END_SERVICE 0x0006.
Definition SC_PBS_FRONT_END_SERVICE_BEGIN_TRANSACTION_DISALLOWED : Z := MakeErrorCode SC_PBS_FRONT_END_SERVICE 0x0007.
Definition SC_PBS_FRONT_END_SERVICE_INVALID_REPORTING_ORIGIN : Z := MakeErrorCode SC_PBS_FRONT_END_SERVICE 0x0008.
Definition SC_PBS_FRONT_END_SERVICE_REPORTING_ORIGIN_NOT_BELONG_TO_SITE : Z := MakeErrorCode SC_PBS_FRONT_END_SERVICE 0x0009.
Definition SC_PBS_FRONT_END_SERVICE_UNABLE_TO_FIND_TRANSACTION_METRICS : Z := MakeErrorCode SC_PBS_FRONT_END_SERVICE 0x0010.
Definition SC_PBS_FRONT_END_SERVICE_INITIALIZATION_FAILED : Z := MakeErrorCode SC_PBS_FRONT_END_SERVICE 0x0011.
Definition SC_PBS_FRONT_END_SERVICE_GET_TRANSACTION_STATUS_RETURNS_404_BY_DEFAULT : Z := MakeErrorCode SC_PBS_FRONT_END_SERVICE 0x0012.

(** ** [cc/pbs/consume_budget/src/gcp/error_codes.h] *)

Definition SC_PBS_CONSUME_BUDGET : Z := 0x0157.
Definition SC_CONSUME_BUDGET_INITIALIZATION_ERROR : Z := MakeErrorCode SC_PBS_CONSUME_BUDGET 0x0001.
Definition SC_CONSUME_BUDGET_PARSING_ERROR : Z := MakeErrorCode SC_PBS_CONSUME_BUDGET 0x0002.
Definition SC_CONSUME_BUDGET_FAIL_TO_COMMIT : Z := MakeErrorCode SC_PBS_CONSUME_BUDGET 0x0003.
Definition SC_CONSUME_BUDGET_EXHAUSTED : Z := MakeErrorCode SC_PBS_CONSUME_BUDGET 0x0004.

(** ** [cc/core/nosql_database_provider/src/common/error_codes.h] *)

Definition SC_NO_SQL_DATABASE_PROVIDER : Z := 0x0008.
Definition SC_NO_SQL_DATABASE_PROVIDER_RECORD_NOT_FOUND : Z := MakeErrorCode SC_NO_SQL_DATABASE_PROVIDER 0x0004.

(** ** [cc/core/http2_client/src/error_codes.h] *)

Definition SC_HTTP2_CLIENT : Z := 0x0012.
Definition SC_HTTP2_CLIENT_HTTP_STATUS_NOT_FOUND : Z := MakeErrorCode SC_HTTP2_CLIENT 0x0020.

(** ** [cc/core/journal_service/src/error_codes.h] *)

Definition SC_JOURNAL_SERVICE : Z := 0x000D.
Definition SC_JOURNAL_SERVICE_INVALID_BLOB_NAME : Z := MakeErrorCode SC_JOURNAL_SERVICE 0x0001.
Definition SC_JOURNAL_SERVICE_CANNOT_SERIALIZE : Z := MakeErrorCode SC_JOURNAL_SERVICE 0x0002.
Definition SC_JOURNAL_SERVICE_CORRUPTED_BLOB : Z := MakeErrorCode SC_JOURNAL_SERVICE 0x0003.
Definition SC_JOURNAL_SERVICE_MAGIC_NUMBER_NOT_MATCHING : Z := MakeErrorCode SC_JOURNAL_SERVICE 0x0004.
Definition SC_JOURNAL_SERVICE_INPUT_STREAM_NO_MORE_LOGS_TO_RETURN : Z := MakeErrorCode SC_JOURNAL_SERVICE 0x0005.
Definition SC_JOURNAL_SERVICE_CANNOT_CREATE_BLOB_NAME : Z := MakeErrorCode SC_JOURNAL_SERVICE 0x0006.
Definition SC_JOURNAL_SERVICE_ALREADY_INITIALIZED : Z := MakeErrorCode SC_JOURNAL_SERVICE 0x0007.
Definition SC_JOURNAL_SERVICE_NOT_INITIALIZED : Z := MakeErrorCode SC_JOURNAL_SERVICE 0x0008.
Definition SC_JOURNAL_SERVICE_ALREADY_RUNNING : Z := MakeErrorCode SC_JOURNAL_SERVICE 0x0009.
Definition SC_JOURNAL_SERVICE_ALREADY_STOPPED : Z := MakeErrorCode SC_JOURNAL_SERVICE 0x000A.
Definition SC_JOURNAL_SERVICE_CANNOT_SUBSCRIBE_WHEN_RUNNING : Z := MakeErrorCode SC_JOURNAL_SERVICE 0x000B.
Definition SC_JOURNAL_SERVICE_CANNOT_UNSUBSCRIBE_WHEN_RUNNING : Z := MakeErrorCode SC_JOURNAL_SERVICE 0x000C.
Definition SC_JOURNAL_SERVICE_NO_NEW_JOURNAL_ID_AVAILABLE : Z := MakeErrorCode SC_JOURNAL_SERVICE 0x000D.
Definition SC_JOURNAL_SERVICE_OUTPUT_STREAM_JOURNAL_STATE_NOT_FOUND : Z := MakeErrorCode SC_JOURNAL_SERVICE 0x000E.
Definition SC_JOURNAL_SERVICE_CORRUPTED_BATCH_OF_LOGS : Z := MakeErrorCode SC_JOURNAL_SERVICE 0x000F.
Definition SC_JOURNAL_SERVICE_INPUT_STREAM_INVALID_LAST_CHECKPOINT : Z := MakeErrorCode SC_JOURNAL_SERVICE 0x0010.
Definition SC_JOURNAL_SERVICE_INPUT_STREAM_INVALID_LISTING : Z := MakeErrorCode SC_JOURNAL_SERVICE 0x0012.
Definition SC_JOURNAL_SERVICE_NO_OUTPUT_STREAM : Z := MakeErrorCode SC_JOURNAL_SERVICE 0x0013.
Definition SC_JOURNAL_SERVICE_FAILED_TO_FLUSH_BATCH_OF_LOGS : Z := MakeErrorCode SC_JOURNAL_SERVICE 0x0014.

(** ** [cc/core/common/concurrent_queue/src/error_codes.h] *)

Definition SC_CONCURRENT_QUEUE : Z := 0x0001.
Definition SC_CONCURRENT_QUEUE_CANNOT_ENQUEUE : Z := MakeErrorCode SC_CONCURRENT_QUEUE 0x0001.
Definition SC_CONCURRENT_QUEUE_CANNOT_DEQUEUE : Z := MakeErrorCode SC_CONCURRENT_QUEUE 0x0002.

(** ** [cc/core/blob_storage_provider/src/common/error_codes.h] *)

Definition SC_BLOB_STORAGE_PROVIDER : Z := 0x000A.
Definition SC_BLOB_STORAGE_PROVIDER_BLOB_PATH_NOT_FOUND : Z := MakeErrorCode SC_BLOB_STORAGE_PROVIDER 0x0001.

(** ** [cc/core/common/sized_or_timed_bytes_buffer/src/error_codes.h] *)

Definition SC_SIZED_OR_TIMED_BYTES_BUFFER : Z := 0x000C.
Definition SC_SIZED_OR_TIMED_BYTES_BUFFER_BUFFER_IS_SEALED : Z := MakeErrorCode SC_SIZED_OR_TIMED_BYTES_BUFFER 0x0001.
Definition SC_SIZED_OR_TIMED_BYTES_BUFFER_NOT_ENOUGH_SPACE : Z := MakeErrorCode SC_SIZED_OR_TIMED_BYTES_BUFFER 0x0002.
Definition SC_SIZED_OR_TIMED_BYTES_BUFFER_NOT_INITIALIZED : Z := MakeErrorCode SC_SIZED_OR_TIMED_BYTES_BUFFER 0x0003.

(** ** [cc/core/lease_manager/src/v2/error_codes.h] *)

Definition SC_LEASE_MANAGER_V2 : Z := 0x0067.
Definition SC_LEASE_MANAGER_NOT_INITIALIZED : Z := MakeErrorCode SC_LEASE_MANAGER_V2 0x0001.
Definition SC_LEASE_MANAGER_ALREADY_RUNNING : Z := MakeErrorCode SC_LEASE_MANAGER_V2 0x0002.
Definition SC_LEASE_MANAGER_NOT_RUNNING : Z := MakeErrorCode SC_LEASE_MANAGER_V2 0x0003.
Definition SC_LEASE_MANAGER_LOCK_CANNOT_BE_ADDED_WHILE_RUNNING : Z := MakeErrorCode SC_LEASE_MANAGER_V2 0x0004.
Definition SC_LEASE_LIVENESS_ENFORCER_INSUFFICIENT_PERIOD : Z := MakeErrorCode SC_LEASE_MANAGER_V2 0x0006.
Definition SC_LEASE_LIVENESS_ENFORCER_NOT_RUNNING : Z := MakeErrorCode SC_LEASE_MANAGER_V2 0x0007.
Definition SC_LEASE_REFRESHER_NOT_RUNNING : Z := MakeErrorCode SC_LEASE_MANAGER_V2 0x0008.
Definition SC_LEASE_REFRESHER_ALREADY_RUNNING : Z := MakeErrorCode SC_LEASE_MANAGER_V2 0x0009.
Definition SC_LEASE_LIVENESS_ENFORCER_LIVENESS_VIOLATION : Z := MakeErrorCode SC_LEASE_MANAGER_V2 0x000A.
Definition SC_LEASE_MANAGER_RELEASE_NOTIFICATION_CANNOT_BE_PROCESSED : Z := MakeErrorCode SC_LEASE_MANAGER_V2 0x000B.
Definition SC_LEASE_LIVENESS_ENFORCER_ALREADY_RUNNING : Z := MakeErrorCode SC_LEASE_MANAGER_V2 0x000C.
Definition SC_LEASE_REFRESHER_INVALID_STATE_WHEN_SETTING_REFRESH_MODE : Z := MakeErrorCode SC_LEASE_MANAGER_V2 0x000D.
Definition SC_LEASE_LIVENESS_ENFORCER_CANNOT_SET_THREAD_PRIORITY : Z := MakeErrorCode SC_LEASE_MANAGER_V2 0x000E.

(** ** [cc/pbs/budget_key/src/error_codes.h] *)

Definition SC_BUDGET_KEY : Z := 0x0103.
Definition SC_BUDGET_KEY_TIMEFRAME_MANAGER_NOT_INITIALIZED : Z := MakeErrorCode SC_BUDGET_KEY 0x0001.

(** ** [cc/pbs/budget_key_provider/src/error_codes.h] *)

Definition SC_BUDGET_KEY_PROVIDER : Z := 0x0102.
Definition SC_BUDGET_KEY_PROVIDER_ENTRY_IS_LOADING : Z := MakeErrorCode SC_BUDGET_KEY_PROVIDER 0x0001.
Definition SC_BUDGET_KEY_PROVIDER_INVALID_OPERATION_TYPE : Z := MakeErrorCode SC_BUDGET_KEY_PROVIDER 0x0002.
Definition SC_BUDGET_KEY_PROVIDER_CANNOT_STOP_COMPLETELY : Z := MakeErrorCode SC_BUDGET_KEY_PROVIDER 0x0003.

(** ** [cc/pbs/leasable_lock/src/error_codes.h] *)

Definition SC_LEASABLE_LOCK : Z := 0x0018.
Definition SC_LEASABLE_LOCK_TIMESTAMP_CONVERSION_ERROR : Z := MakeErrorCode SC_LEASABLE_LOCK 0x0001.
Definition SC_LEASABLE_LOCK_ACQUISITION_DISALLOWED : Z := MakeErrorCode SC_LEASABLE_LOCK 0x0002.

(** ** [cc/pbs/partition/src/error_codes.h] *)

Definition SC_PBS_PARTITION : Z := 0x011A.
Definition SC_PBS_PARTITION_NOT_LOADED : Z := MakeErrorCode SC_PBS_PARTITION 0x0001.
Definition SC_PBS_PARTITION_CANNOT_LOAD : Z := MakeErrorCode SC_PBS_PARTITION 0x0002.
Definition SC_PBS_PARTITION_CANNOT_UNLOAD : Z := MakeErrorCode SC_PBS_PARTITION 0x0003.
Definition SC_PBS_PARTITION_INVALID_PARTITON_STATE : Z := MakeErrorCode SC_PBS_PARTITION 0x0004.
Definition SC_PBS_PARTITION_RECOVERY_FAILED : Z := MakeErrorCode SC_PBS_PARTITION 0x0005.
Definition SC_PBS_PARTITION_INVALID_TRANSACTION : Z := MakeErrorCode SC_PBS_PARTITION 0x0006.
Definition SC_PBS_PARTITION_CANNOT_INITIALIZE : Z := MakeErrorCode SC_PBS_PARTITION 0x0007.
Definition SC_PBS_PARTITION_IS_REMOTE_CANNOT_HANDLE_REQUEST : Z := MakeErrorCode SC_PBS_PARTITION 0x0008.

(** ** [cc/pbs/partition_manager/src/error_codes.h] *)

Definition SC_PBS_PARTITION_MANAGER : Z := 0x010F.
Definition SC_PBS_PARTITION_MANAGER_ALREADY_RUNNING : Z := MakeErrorCode SC_PBS_PARTITION_MANAGER 0x0001.
Definition SC_PBS_PARTITION_MANAGER_NOT_RUNNING : Z := MakeErrorCode SC_PBS_PARTITION_MANAGER 0x0002.
Definition SC_PBS_PARTITION_MANAGER_INVALID_REQUEST : Z := MakeErrorCode SC_PBS_PARTITION_MANAGER 0x0003.
Definition SC_PBS_PARTITION_UNLOAD_FAILURE : Z := MakeErrorCode SC_PBS_PARTITION_MANAGER 0x0004.
Definition SC_PBS_PARTITION_LOAD_FAILURE : Z := MakeErrorCode SC_PBS_PARTITION_MANAGER 0x0005.

(** ** [cc/pbs/partition_request_router/src/error_codes.h] *)

Definition SC_PBS_TRANSACTION_REQUEST_ROUTER : Z := 0x0110.
Definition SC_PBS_TRANSACTION_REQUEST_ROUTER_MISSING_ROUTING_ID : Z := MakeErrorCode SC_PBS_TRANSACTION_REQUEST_ROUTER 0x0001.
Definition SC_PBS_TRANSACTION_REQUEST_ROUTER_PARTITION_UNAVAILABLE : Z := MakeErrorCode SC_PBS_TRANSACTION_REQUEST_ROUTER 0x0002.

(** ** [cc/pbs/checkpoint_service/src/error_codes.h] *)

Definition SC_PBS_CHECKPOINT_SERVICE : Z := 0x0106.
Definition SC_PBS_CHECKPOINT_SERVICE_NO_LOGS_TO_PROCESS : Z := MakeErrorCode SC_PBS_CHECKPOINT_SERVICE 0x0001.
Definition SC_PBS_CHECKPOINT_SERVICE_IS_ALREADY_RUNNING : Z := MakeErrorCode SC_PBS_CHECKPOINT_SERVICE 0x0002.
Definition SC_PBS_CHECKPOINT_SERVICE_IS_ALREADY_STOPPED : Z := MakeErrorCode SC_PBS_CHECKPOINT_SERVICE 0x0003.
Definition SC_PBS_CHECKPOINT_SERVICE_INVALID_LAST_PERSISTED_CHECKPOINT_ID : Z := MakeErrorCode SC_PBS_CHECKPOINT_SERVICE 0x0004.

(** ** [cc/pbs/partition_lease_event_sink/src/error_codes.h] *)

Definition SC_PARTITION_LEASE_EVENT_SINK : Z := 0x011B.
Definition SC_PARTITION_LEASE_EVENT_SINK_NOT_RUNNING : Z := MakeErrorCode SC_PARTITION_LEASE_EVENT_SINK 0x0001.
Definition SC_PARTITION_LEASE_EVENT_SINK_LOAD_TASK_RUNNING_WHILE_RELEASE : Z := MakeErrorCode SC_PARTITION_LEASE_EVENT_SINK 0x0002.
Definition SC_PARTITION_LEASE_EVENT_SINK_TASK_RUNNING_WHILE_LOST : Z := MakeErrorCode SC_PARTITION_LEASE_EVENT_SINK 0x0003.
Definition SC_PARTITION_LEASE_EVENT_SINK_TASK_RUNNING_WHILE_ACQUIRE : Z := MakeErrorCode SC_PARTITION_LEASE_EVENT_SINK 0x0004.
Definition SC_PARTITION_LEASE_EVENT_SINK_CANNOT_EMPLACE_TO_MAP : Z := MakeErrorCode SC_PARTITION_LEASE_EVENT_SINK 0x0005.
Definition SC_PARTITION_LEASE_EVENT_SINK_CANNOT_INIT_METRICS : Z := MakeErrorCode SC_PARTITION_LEASE_EVENT_SINK 0x0006.

(** ** [cc/pbs/partition_lease_preference_applier/src/error_codes.h] *)

Definition SC_PBS_PARTITION_LEASE_PREF_APPLIER : Z := 0x0145.
Definition SC_PBS_PARTITION_LEASE_PREF_APPLIER_ALREADY_RUNNING : Z := MakeErrorCode SC_PBS_PARTITION_LEASE_PREF_APPLIER 0x0001.
Definition SC_PBS_PARTITION_LEASE_PREF_APPLIER_NOT_RUNNING : Z := MakeErrorCode SC_PBS_PARTITION_LEASE_PREF_APPLIER 0x0002.
Definition SC_PBS_PARTITION_LEASE_PREF_APPLIER_NO_OP : Z := MakeErrorCode SC_PBS_PARTITION_LEASE_PREF_APPLIER 0x0003.

(** ** All the codes above *)

Definition defined_error_codes : list Z :=
  [ SC_CONCURRENT_MAP_ENTRY_ALREADY_EXISTS;
    SC_CONCURRENT_MAP_ENTRY_DOES_NOT_EXIST;
    SC_AUTO_EXPIRY_CONCURRENT_MAP_CANNOT_SCHEDULE;
    SC_AUTO_EXPIRY_CONCURRENT_MAP_INVALID_EXPIRATION;
    SC_AUTO_EXPIRY_CONCURRENT_MAP_ENTRY_BEING_DELETED;
    SC_AUTO_EXPIRY_CONCURRENT_MAP_STOP_INCOMPLETE;
    SC_DISPATCHER_EXHAUSTED_RETRIES;
    SC_DISPATCHER_OPERATION_EXPIRED;
    SC_DISPATCHER_NOT_ENOUGH_TIME_REMAINED_FOR_OPERATION;
    SC_UUID_INVALID_STRING;
    SC_SERIALIZATION_BUFFER_NOT_WRITABLE;
    SC_SERIALIZATION_BUFFER_NOT_READABLE;
    SC_SERIALIZATION_PROTO_SERIALIZATION_FAILED;
    SC_SERIALIZATION_PROTO_DESERIALIZATION_FAILED;
    SC_SERIALIZATION_INVALID_SERIALIZATION_TYPE;
    SC_SERIALIZATION_VERSION_IS_INVALID;
    SC_TRANSACTION_MANAGER_CANNOT_INITIALIZE;
    SC_TRANSACTION_MANAGER_ALREADY_STARTED;
    SC_TRANSACTION_MANAGER_NOT_STARTED;
    SC_TRANSACTION_MANAGER_CANNOT_ACCEPT_NEW_REQUESTS;
    SC_TRANSACTION_MANAGER_INVALID_MAX_CONCURRENT_TRANSACTIONS_VALUE;
    SC_TRANSACTION_ENGINE_CANNOT_ACCEPT_TRANSACTION;
    SC_TRANSACTION_ENGINE_INVALID_DISTRIBUTED_COMMAND;
    SC_TRANSACTION_MANAGER_ALREADY_STOPPED;
    SC_TRANSACTION_MANAGER_NOT_FINISHED;
    SC_TRANSACTION_MANAGER_TRANSACTION_NOT_FOUND;
    SC_TRANSACTION_MANAGER_INVALID_TRANSACTION_LOG;
    SC_TRANSACTION_MANAGER_TERMINATABLE_TRANSACTION;
    SC_TRANSACTION_MANAGER_INVALID_TRANSACTION_PHASE;
    SC_TRANSACTION_MANAGER_CURRENT_TRANSACTION_IS_RUNNING;
    SC_TRANSACTION_MANAGER_CANNOT_CREATE_CHECKPOINT_WHEN_STARTED;
    SC_TRANSACTION_MANAGER_TRANSACTION_TIMEOUT;
    SC_TRANSACTION_MANAGER_TRANSACTION_NOT_COORDINATED_REMOTELY;
    SC_TRANSACTION_MANAGER_TRANSACTION_SECRET_IS_NOT_VALID;
    SC_TRANSACTION_MANAGER_TRANSACTION_IS_EXPIRED;
    SC_TRANSACTION_MANAGER_REMOTE_TRANSACTION_FAILED;
    SC_TRANSACTION_MANAGER_TRANSACTION_IS_ABORTED;
    SC_TRANSACTION_MANAGER_TRANSACTION_HAS_PENDING_CALLBACKS;
    SC_TRANSACTION_MANAGER_TRANSACTION_CANNOT_BE_LOCKED;
    SC_TRANSACTION_MANAGER_TRANSACTION_ORIGIN_IS_NOT_VALID;
    SC_TRANSACTION_MANAGER_TRANSACTION_OUT_OF_SYNC;
    SC_TRANSACTION_MANAGER_TRANSACTION_STUCK;
    SC_TRANSACTION_MANAGER_TRANSACTION_UNKNOWN;
    SC_TRANSACTION_MANAGER_LAST_EXECUTION_TIMESTAMP_NOT_MATCHING;
    SC_TRANSACTION_MANAGER_TRANSACTION_CANNOT_BE_UNLOCKED;
    SC_TRANSACTION_ENGINE_INVALID_TRANSACTION_REQUEST;
    SC_TRANSACTION_MANAGER_STATUS_CANNOT_BE_OBTAINED;
    SC_TRANSACTION_MANAGER_QUEUE_FAILURE;
    SC_TRANSACTION_MANAGER_STATE_IS_INVALID;
    SC_TRANSACTION_MANAGER_TRANSACTION_IS_NOT_LOCKED;
    SC_TRANSACTION_MANAGER_TRANSACTION_ALREADY_EXISTS;
    SC_BUDGET_KEY_TIMEFRAME_MANAGER_ENTRY_IS_LOADING;
    SC_BUDGET_KEY_TIMEFRAME_MANAGER_INVALID_LOG;
    SC_BUDGET_KEY_TIMEFRAME_MANAGER_ENTRY_DOES_NOT_MATCH_LOG;
    SC_BUDGET_KEY_TIMEFRAME_MANAGER_CANNOT_BE_UNLOADED;
    SC_BUDGET_KEY_TIMEFRAME_MANAGER_CORRUPTED_KEY_METADATA;
    SC_BUDGET_KEY_TIMEFRAME_MANAGER_EMPTY_REQUEST;
    SC_BUDGET_KEY_TIMEFRAME_MANAGER_MULTIPLE_TIMEFRAME_GROUPS;
    SC_BUDGET_KEY_TIMEFRAME_MANAGER_REPEATED_TIMEBUCKETS;
    SC_PBS_BUDGET_KEY_ACTIVE_TRANSACTION_IN_PROGRESS;
    SC_PBS_BUDGET_KEY_INVALID_TRANSACTION_ID;
    SC_PBS_BUDGET_KEY_TRANSACTION_ID_MISMATCH;
    SC_PBS_BUDGET_KEY_CONSUME_BUDGET_INSUFFICIENT_BUDGET;
    SC_PBS_BUDGET_KEY_BATCH_REQUEST_HAS_LESS_BUDGETS_TO_CONSUME;
    SC_PBS_BUDGET_KEY_BATCH_REQUEST_HAS_INVALID_ORDER;
    SC_PBS_BUDGET_KEY_CONSUME_BUDGET_LOADED_TIMEFRAMES_INVALID;
    SC_PBS_TRANSACTION_COMMAND_DEPENDENCIES_UNINITIALIZED;
    SC_PBS_TRANSACTION_COMMAND_SERIALIZER_UNSUPPORTED;
    SC_PBS_TRANSACTION_COMMAND_SERIALIZER_INVALID_COMMAND_VERSION;
    SC_PBS_TRANSACTION_COMMAND_SERIALIZER_SERIALIZATION_FAILED;
    SC_PBS_TRANSACTION_COMMAND_SERIALIZER_INVALID_COMMAND_TYPE;
    SC_PBS_TRANSACTION_COMMAND_SERIALIZER_INVALID_TRANSACTION_LOG;
    SC_PBS_TRANSACTION_COMMAND_SERIALIZER_DESERIALIZATION_FAILED;
    SC_PBS_FRONT_END_SERVICE_INVALID_REQUEST;
    SC_PBS_FRONT_END_SERVICE_INVALID_REQUEST_BODY;
    SC_PBS_FRONT_END_SERVICE_NO_KEYS_AVAILABLE;
    SC_PBS_FRONT_END_SERVICE_INVALID_RESPONSE_BODY;
    SC_PBS_FRONT_END_SERVICE_REQUEST_HEADER_NOT_FOUND;
    SC_PBS_FRONT_END_SERVICE_BAD_TRANSACTON_COMMANDS;
    SC_PBS_FRONT_END_SERVICE_BEGIN_TRANSACTION_DISALLOWED;
    SC_PBS_FRONT_END_SERVICE_INVALID_REPORTING_ORIGIN;
    SC_PBS_FRONT_END_SERVICE_REPORTING_ORIGIN_NOT_BELONG_TO_SITE;
    SC_PBS_FRONT_END_SERVICE_UNABLE_TO_FIND_TRANSACTION_METRICS;
    SC_PBS_FRONT_END_SERVICE_INITIALIZATION_FAILED;
    SC_PBS_FRONT_END_SERVICE_GET_TRANSACTION_STATUS_RETURNS_404_BY_DEFAULT;
    SC_CONSUME_BUDGET_INITIALIZATION_ERROR;
    SC_CONSUME_BUDGET_PARSING_ERROR;
    SC_CONSUME_BUDGET_FAIL_TO_COMMIT;
    SC_CONSUME_BUDGET_EXHAUSTED;
    SC_NO_SQL_DATABASE_PROVIDER_RECORD_NOT_FOUND;
    SC_HTTP2_CLIENT_HTTP_STATUS_NOT_FOUND;
    SC_JOURNAL_SERVICE_INVALID_BLOB_NAME;
    SC_JOURNAL_SERVICE_CANNOT_SERIALIZE;
    SC_JOURNAL_SERVICE_CORRUPTED_BLOB;
    SC_JOURNAL_SERVICE_MAGIC_NUMBER_NOT_MATCHING;
    SC_JOURNAL_SERVICE_INPUT_STREAM_NO_MORE_LOGS_TO_RETURN;
    SC_JOURNAL_SERVICE_CANNOT_CREATE_BLOB_NAME;
    SC_JOURNAL_SERVICE_ALREADY_INITIALIZED;
    SC_JOURNAL_SERVICE_NOT_INITIALIZED;
    SC_JOURNAL_SERVICE_ALREADY_RUNNING;
    SC_JOURNAL_SERVICE_ALREADY_STOPPED;
    SC_JOURNAL_SERVICE_CANNOT_SUBSCRIBE_WHEN_RUNNING;
    SC_JOURNAL_SERVICE_CANNOT_UNSUBSCRIBE_WHEN_RUNNING;
    SC_JOURNAL_SERVICE_NO_NEW_JOURNAL_ID_AVAILABLE;
    SC_JOURNAL_SERVICE_OUTPUT_STREAM_JOURNAL_STATE_NOT_FOUND;
    SC_JOURNAL_SERVICE_CORRUPTED_BATCH_OF_LOGS;
    SC_JOURNAL_SERVICE_INPUT_STREAM_INVALID_LAST_CHECKPOINT;
    SC_JOURNAL_SERVICE_INPUT_STREAM_INVALID_LISTING;
    SC_JOURNAL_SERVICE_NO_OUTPUT_STREAM;
    SC_JOURNAL_SERVICE_FAILED_TO_FLUSH_BATCH_OF_LOGS;
    SC_CONCURRENT_QUEUE_CANNOT_ENQUEUE;
    SC_CONCURRENT_QUEUE_CANNOT_DEQUEUE;
    SC_BLOB_STORAGE_PROVIDER_BLOB_PATH_NOT_FOUND;
    SC_SIZED_OR_TIMED_BYTES_BUFFER_BUFFER_IS_SEALED;
    SC_SIZED_OR_TIMED_BYTES_BUFFER_NOT_ENOUGH_SPACE;
    SC_SIZED_OR_TIMED_BYTES_BUFFER_NOT_INITIALIZED;
    SC_LEASE_MANAGER_NOT_INITIALIZED;
    SC_LEASE_MANAGER_ALREADY_RUNNING;
    SC_LEASE_MANAGER_NOT_RUNNING;
    SC_LEASE_MANAGER_LOCK_CANNOT_BE_ADDED_WHILE_RUNNING;
    SC_LEASE_LIVENESS_ENFORCER_INSUFFICIENT_PERIOD;
    SC_LEASE_LIVENESS_ENFORCER_NOT_RUNNING;
    SC_LEASE_REFRESHER_NOT_RUNNING;
    SC_LEASE_REFRESHER_ALREADY_RUNNING;
    SC_LEASE_LIVENESS_ENFORCER_LIVENESS_VIOLATION;
    SC_LEASE_MANAGER_RELEASE_NOTIFICATION_CANNOT_BE_PROCESSED;
    SC_LEASE_LIVENESS_ENFORCER_ALREADY_RUNNING;
    SC_LEASE_REFRESHER_INVALID_STATE_WHEN_SETTING_REFRESH_MODE;
    SC_LEASE_LIVENESS_ENFORCER_CANNOT_SET_THREAD_PRIORITY;
    SC_BUDGET_KEY_TIMEFRAME_MANAGER_NOT_INITIALIZED;
    SC_BUDGET_KEY_PROVIDER_ENTRY_IS_LOADING;
    SC_BUDGET_KEY_PROVIDER_INVALID_OPERATION_TYPE;
    SC_BUDGET_KEY_PROVIDER_CANNOT_STOP_COMPLETELY;
    SC_LEASABLE_LOCK_TIMESTAMP_CONVERSION_ERROR;
    SC_LEASABLE_LOCK_ACQUISITION_DISALLOWED;
    SC_PBS_PARTITION_NOT_LOADED;
    SC_PBS_PARTITION_CANNOT_LOAD;
    SC_PBS_PARTITION_CANNOT_UNLOAD;
    SC_PBS_PARTITION_INVALID_PARTITON_STATE;
    SC_PBS_PARTITION_RECOVERY_FAILED;
    SC_PBS_PARTITION_INVALID_TRANSACTION;
    SC_PBS_PARTITION_CANNOT_INITIALIZE;
    SC_PBS_PARTITION_IS_REMOTE_CANNOT_HANDLE_REQUEST;
    SC_PBS_PARTITION_MANAGER_ALREADY_RUNNING;
    SC_PBS_PARTITION_MANAGER_NOT_RUNNING;
    SC_PBS_PARTITION_MANAGER_INVALID_REQUEST;
    SC_PBS_PARTITION_UNLOAD_FAILURE;
    SC_PBS_PARTITION_LOAD_FAILURE;
    SC_PBS_TRANSACTION_REQUEST_ROUTER_MISSING_ROUTING_ID;
    SC_PBS_TRANSACTION_REQUEST_ROUTER_PARTITION_UNAVAILABLE;
    SC_PBS_CHECKPOINT_SERVICE_NO_LOGS_TO_PROCESS;
    SC_PBS_CHECKPOINT_SERVICE_IS_ALREADY_RUNNING;
    SC_PBS_CHECKPOINT_SERVICE_IS_ALREADY_STOPPED;
    SC_PBS_CHECKPOINT_SERVICE_INVALID_LAST_PERSISTED_CHECKPOINT_ID;
    SC_PARTITION_LEASE_EVENT_SINK_NOT_RUNNING;
    SC_PARTITION_LEASE_EVENT_SINK_LOAD_TASK_RUNNING_WHILE_RELEASE;
    SC_PARTITION_LEASE_EVENT_SINK_TASK_RUNNING_WHILE_LOST;
    SC_PARTITION_LEASE_EVENT_SINK_TASK_RUNNING_WHILE_ACQUIRE;
    SC_PARTITION_LEASE_EVENT_SINK_CANNOT_EMPLACE_TO_MAP;
    SC_PARTITION_LEASE_EVENT_SINK_CANNOT_INIT_METRICS;
    SC_PBS_PARTITION_LEASE_PREF_APPLIER_ALREADY_RUNNING;
    SC_PBS_PARTITION_LEASE_PREF_APPLIER_NOT_RUNNING;
    SC_PBS_PARTITION_LEASE_PREF_APPLIER_NO_OP ].

(** ** Lemmas *)

Lemma MakeErrorCode_sum component error :
  component_in_range component → error_in_range error →
  MakeErrorCode component error = (2 ^ 15 + component) * 2 ^ 16 + error.
Proof.
  unfold component_in_range, error_in_range, MakeErrorCode. intros Hc He.
  change (Z.shiftl 1 31) with (Z.shiftl (Z.shiftl 1 15) 16).
  rewrite <- Z.shiftl_lor, lor_shiftl_add by lia.
  rewrite lor_shiftl_add by lia. lia.
Qed.

Lemma MakeErrorCode_component component error :
  component_in_range component → error_in_range error →
  ExtractComponentCode (MakeErrorCode component error) = component.
Proof.
  intros Hc He. rewrite MakeErrorCode_sum by done. unfold ExtractComponentCode.
  unfold component_in_range, error_in_range in *.
  rewrite shiftr_low by lia. change 0x7FFF with (2 ^ 15 - 1).
  rewrite land_ones_mod by lia.
  replace (2 ^ 15 + component) with (component + 1 * 2 ^ 15) by lia.
  rewrite Z.mod_add by lia. by apply Z.mod_small.
Qed.

(** The pair of component and error can be read back from a code. *)
Lemma MakeErrorCode_inj c e c' e' :
  component_in_range c → error_in_range e → component_in_range c' → error_in_range e' →
  MakeErrorCode c e = MakeErrorCode c' e' → c = c' ∧ e = e'.
Proof.
  intros Hc He Hc' He'. rewrite !MakeErrorCode_sum by done.
  unfold component_in_range, error_in_range in *. lia.
Qed.

(** No code the components define is [SC_OK] or [SC_UNKNOWN], so a failure
    never passes for a success. *)
Lemma defined_error_codes_large : Forall (λ c, 2 ^ 31 ≤ c < 2 ^ 32) defined_error_codes.
Proof. apply (bool_decide_eq_true_1 (Forall _ _)). by vm_compute. Qed.

(** The codes are pairwise different, so comparing codes identifies errors. *)
Lemma defined_error_codes_NoDup : NoDup defined_error_codes.
Proof. apply (bool_decide_eq_true_1 (NoDup _)). by vm_compute. Qed.
