(* ===== verification/Uuid.v ===== *)
(** * Uuids and their textual form

    Models [cc/core/common/uuid/src/uuid.h] and [uuid.cc]: the 128-bit
    identifier of transactions, logs and components, its comparison, and the
    guid form it is printed to and parsed from ([ToString], [FromString]).
    [GenerateUuid] (a clock and a random generator) is not modelled. *)

From S2P Require Import Prelude ExecutionResult ErrorCodes.
From Stdlib Require Import Ascii.
From stdpp Require Import options.

Local Open Scope Z_scope.

Record Uuid := mkUuid { high : Z; low : Z }.

#[export] Instance Uuid_eq_dec : EqDecision Uuid.
Proof. solve_decision. Defined.

#[export] Instance Uuid_countable : Countable Uuid.
Proof.
  refine (inj_countable' (λ u, (high u, low u)) (λ p, mkUuid p.1 p.2) _).
  by intros [].
Defined.

Definition valid_uuid (u : Uuid) : Prop := is_u64 (high u) ∧ is_u64 (low u).

Definition kZeroUuid : Uuid := mkUuid 0 0.

(** [operator==], [operator!=] and [operator<]; the order looks at [high]
    only. *)
Definition uuid_eqb (a b : Uuid) : bool := (high a =? high b) && (low a =? low b).
Definition uuid_neqb (a b : Uuid) : bool := negb (uuid_eqb a b).
Definition uuid_ltb (a b : Uuid) : bool := high a <? high b.

(** [UuidCompare::hash] and [UuidHash]. *)
Definition uuid_hash (u : Uuid) : Z := Z.lxor (high u) (low u).

(** ** Printing *)

Definition kHexMap : string := "0123456789ABCDEF".

Definition hex_char (d : Z) : ascii :=
  default "0"%char (String.get (Z.to_nat d) kHexMap).

Definition AppendHex (byte : Z) (s : string) : string :=
  (s +:+ String (hex_char (Z.shiftr byte 4)) (String (hex_char (Z.land byte 0x0F)) EmptyString))%string.

(** [(x >> k) & 0xFF] *)
Definition byte_at (x k : Z) : Z := Z.land (Z.shiftr x k) 0xFF.

Definition ToString (u : Uuid) : string :=
  let s := EmptyString in
  let s := AppendHex (byte_at (high u) 56) s in
  let s := AppendHex (byte_at (high u) 48) s in
  let s := AppendHex (byte_at (high u) 40) s in
  let s := AppendHex (byte_at (high u) 32) s in
  let s := (s +:+ "-")%string in
  let s := AppendHex (byte_at (high u) 24) s in
  let s := AppendHex (byte_at (high u) 16) s in
  let s := (s +:+ "-")%string in
  let s := AppendHex (byte_at (high u) 8) s in
  let s := AppendHex (byte_at (high u) 0) s in
  let s := (s +:+ "-")%string in
  let s := AppendHex (byte_at (low u) 56) s in
  let s := AppendHex (byte_at (low u) 48) s in
  let s := (s +:+ "-")%string in
  let s := AppendHex (byte_at (low u) 40) s in
  let s := AppendHex (byte_at (low u) 32) s in
  let s := AppendHex (byte_at (low u) 24) s in
  let s := AppendHex (byte_at (low u) 16) s in
  let s := AppendHex (byte_at (low u) 8) s in
  AppendHex (byte_at (low u) 0) s.

(** ** Parsing *)

Definition in_range (lo hi c : ascii) : bool :=
  (Nat.leb (nat_of_ascii lo) (nat_of_ascii c) && Nat.leb (nat_of_ascii c) (nat_of_ascii hi))%nat.

(** [isxdigit] and [islower] of the C locale. *)
Definition isxdigit (c : ascii) : bool :=
  in_range "0" "9" c || in_range "A" "F" c || in_range "a" "f" c.
Definition islower (c : ascii) : bool := in_range "a" "z" c.

Definition hex_value (c : ascii) : option Z :=
  if in_range "0" "9" c then Some (Z.of_nat (nat_of_ascii c) - 48)
  else if in_range "A" "F" c then Some (Z.of_nat (nat_of_ascii c) - 55)
  else if in_range "a" "f" c then Some (Z.of_nat (nat_of_ascii c) - 87)
  else None.

(** The digits an extraction consumes, up to the first character that is not
    one; [None] when there is no digit at all. *)
Fixpoint hex_digits (s : string) (acc : option Z) : option Z :=
  match s with
  | EmptyString => acc
  | String c s' =>
      match hex_value c with
      | Some d => hex_digits s' (Some (default 0 acc * 16 + d))
      | None => acc
      end
  end.

(** [istringstream >> std::hex >> int]: an optional sign, then digits; the
    value is 0 when no digit follows. (The [0x] prefix the stream would also
    take cannot occur: [FromString] has refused every [x] before.) *)
Definition read_hex_int (s : string) : Z :=
  match s with
  | String c s' =>
      if ascii_dec c "-" then - default 0 (hex_digits s' None)
      else if ascii_dec c "+" then default 0 (hex_digits s' None)
      else default 0 (hex_digits s None)
  | EmptyString => 0
  end.

(** The [int] becomes a [uint64_t] when it is returned. *)
Definition ReadHex (s : string) (offset : nat) : Z :=
  u64 (read_hex_int (String.substring offset 2 s)).

Definition char_at (s : string) (i : nat) : ascii :=
  default zero (String.get i s).

(** The character loop of [FromString]. *)
Fixpoint valid_chars (s : string) : bool :=
  match s with
  | EmptyString => true
  | String c s' =>
      if ascii_dec c "-" then valid_chars s'
      else if negb (isxdigit c) then false
      else if islower c then false
      else valid_chars s'
  end.

(** [x |= (b << k)] on [uint64_t]. *)
Definition or_shifted (x b k : Z) : Z := Z.lor x (u64 (Z.shiftl b k)).

Definition FromString (s : string) (uuid : Uuid) : ExecutionResult * Uuid :=
  if negb (Nat.eqb (String.length s) 36) then
    (FailureExecutionResult SC_UUID_INVALID_STRING, uuid)
  else if bool_decide (char_at s 8 ≠ "-"%char) || bool_decide (char_at s 13 ≠ "-"%char)
       || bool_decide (char_at s 18 ≠ "-"%char) || bool_decide (char_at s 23 ≠ "-"%char) then
    (FailureExecutionResult SC_UUID_INVALID_STRING, uuid)
  else if negb (valid_chars s) then
    (FailureExecutionResult SC_UUID_INVALID_STRING, uuid)
  else
    let h := high uuid in
    let h := or_shifted h (ReadHex s 0) 56 in
    let h := or_shifted h (ReadHex s 2) 48 in
    let h := or_shifted h (ReadHex s 4) 40 in
    let h := or_shifted h (ReadHex s 6) 32 in
    let h := or_shifted h (ReadHex s 9) 24 in
    let h := or_shifted h (ReadHex s 11) 16 in
    let h := or_shifted h (ReadHex s 14) 8 in
    let h := or_shifted h (ReadHex s 16) 0 in
    let l := low uuid in
    let l := or_shifted l (ReadHex s 19) 56 in
    let l := or_shifted l (ReadHex s 21) 48 in
    let l := or_shifted l (ReadHex s 24) 40 in
    let l := or_shifted l (ReadHex s 26) 32 in
    let l := or_shifted l (ReadHex s 28) 24 in
    let l := or_shifted l (ReadHex s 30) 16 in
    let l := or_shifted l (ReadHex s 32) 8 in
    let l := or_shifted l (ReadHex s 34) 0 in
    (SuccessExecutionResult, mkUuid h l).

Example ToString_example :
  ToString (mkUuid 0x0123456789ABCDEF 0xFEDCBA9876543210)
  = "01234567-89AB-CDEF-FEDC-BA9876543210"%string.
Proof. reflexivity. Qed.

Example FromString_example :
  FromString "01234567-89AB-CDEF-FEDC-BA9876543210" kZeroUuid
  = (SuccessExecutionResult, mkUuid 0x0123456789ABCDEF 0xFEDCBA9876543210).
Proof. by vm_compute. Qed.

(** ** Bytes of a word *)

Lemma byte_at_range x k : 0 ≤ byte_at x k < 256.
Proof.
  unfold byte_at. change 255 with (2 ^ 8 - 1). rewrite land_ones_mod by lia.
  by apply Z.mod_pos_bound.
Qed.

Lemma byte_at_div x k : 0 ≤ k → byte_at x k = (x / 2 ^ k) mod 256.
Proof.
  intros. unfold byte_at. change 255 with (2 ^ 8 - 1).
  rewrite land_ones_mod, Z.shiftr_div_pow2 by lia. done.
Qed.

Lemma or_shifted_next x b k k' :
  0 ≤ k ≤ 56 → k' = k + 8 → 0 ≤ b < 256 → or_shifted (x * 2 ^ k') b k = (x * 256 + b) * 2 ^ k.
Proof.
  intros Hk -> Hb. unfold or_shifted.
  assert (0 ≤ b * 2 ^ k < 2 ^ (k + 8)) as Hr.
  { rewrite Z.pow_add_r by lia. split; [nia|]. change (2 ^ 8) with 256. nia. }
  assert (2 ^ (k + 8) ≤ 2 ^ 64) by (apply Z.pow_le_mono_r; lia).
  rewrite Z.shiftl_mul_pow2 by lia. rewrite u64_id by (unfold is_u64; lia).
  rewrite <- (Z.shiftl_mul_pow2 x) by lia. rewrite lor_shiftl_add by lia.
  rewrite Z.pow_add_r by lia. change (2 ^ 8) with 256. lia.
Qed.

(** The eight [|=] of [FromString] on one word. *)
Definition pack (b7 b6 b5 b4 b3 b2 b1 b0 : Z) : Z :=
  or_shifted (or_shifted (or_shifted (or_shifted (or_shifted (or_shifted
    (or_shifted (or_shifted 0 b7 56) b6 48) b5 40) b4 32) b3 24) b2 16) b1 8) b0 0.

Definition is_byte (b : Z) : Prop := 0 ≤ b < 256.

Lemma pack_sum b7 b6 b5 b4 b3 b2 b1 b0 :
  is_byte b7 → is_byte b6 → is_byte b5 → is_byte b4 →
  is_byte b3 → is_byte b2 → is_byte b1 → is_byte b0 →
  pack b7 b6 b5 b4 b3 b2 b1 b0 =
  ((((((b7 * 256 + b6) * 256 + b5) * 256 + b4) * 256 + b3) * 256 + b2) * 256 + b1) * 256 + b0.
Proof.
  unfold is_byte, pack. intros.
  change 0 with (0 * 2 ^ 64) at 1.
  rewrite (or_shifted_next _ b7 56 64), (or_shifted_next _ b6 48 56),
    (or_shifted_next _ b5 40 48), (or_shifted_next _ b4 32 40),
    (or_shifted_next _ b3 24 32), (or_shifted_next _ b2 16 24),
    (or_shifted_next _ b1 8 16), (or_shifted_next _ b0 0 8) by lia.
  lia.
Qed.

Lemma byte_at_is_byte x k : is_byte (byte_at x k).
Proof. apply byte_at_range. Qed.
#[local] Hint Resolve byte_at_is_byte : core.

Lemma div_byte x k k' :
  0 ≤ k → k' = k + 8 → x / 2 ^ k = x / 2 ^ k' * 256 + byte_at x k.
Proof.
  intros Hk ->. rewrite byte_at_div by done.
  rewrite Z.pow_add_r by lia. rewrite <- Z.div_div by lia. change (2 ^ 8) with 256.
  rewrite (Z.mul_comm _ 256). apply Z.div_mod. lia.
Qed.

Lemma pack_bytes x : is_u64 x →
  pack (byte_at x 56) (byte_at x 48) (byte_at x 40) (byte_at x 32)
       (byte_at x 24) (byte_at x 16) (byte_at x 8) (byte_at x 0) = x.
Proof.
  intros Hx. rewrite pack_sum by done.
  assert (x / 2 ^ 64 = 0) as H64 by (by apply Z.div_small).
  pose proof (div_byte x 56 64) as H56. pose proof (div_byte x 48 56) as H48.
  pose proof (div_byte x 40 48) as H40. pose proof (div_byte x 32 40) as H32.
  pose proof (div_byte x 24 32) as H24. pose proof (div_byte x 16 24) as H16.
  pose proof (div_byte x 8 16) as H8. pose proof (div_byte x 0 8) as H0.
  change (2 ^ 0) with 1 in H0. rewrite Z.div_1_r in H0.
  specialize_lia. rewrite H64 in H56.
  generalize dependent (x / 2 ^ 56). generalize dependent (x / 2 ^ 48).
  generalize dependent (x / 2 ^ 40). generalize dependent (x / 2 ^ 32).
  generalize dependent (x / 2 ^ 24). generalize dependent (x / 2 ^ 16).
  generalize dependent (x / 2 ^ 8). intros. lia.
Qed.

Lemma pack_is_u64 b7 b6 b5 b4 b3 b2 b1 b0 :
  is_byte b7 → is_byte b6 → is_byte b5 → is_byte b4 →
  is_byte b3 → is_byte b2 → is_byte b1 → is_byte b0 →
  is_u64 (pack b7 b6 b5 b4 b3 b2 b1 b0).
Proof. intros. rewrite pack_sum by done. unfold is_byte, is_u64 in *. lia. Qed.

Lemma byte_at_pack b7 b6 b5 b4 b3 b2 b1 b0 :
  is_byte b7 → is_byte b6 → is_byte b5 → is_byte b4 →
  is_byte b3 → is_byte b2 → is_byte b1 → is_byte b0 →
  let x := pack b7 b6 b5 b4 b3 b2 b1 b0 in
  byte_at x 56 = b7 ∧ byte_at x 48 = b6 ∧ byte_at x 40 = b5 ∧ byte_at x 32 = b4 ∧
  byte_at x 24 = b3 ∧ byte_at x 16 = b2 ∧ byte_at x 8 = b1 ∧ byte_at x 0 = b0.
Proof.
  intros. pose proof (pack_sum b7 b6 b5 b4 b3 b2 b1 b0) as Hs. fold x in Hs.
  unfold is_byte in *. rewrite !byte_at_div by lia.
  specialize_lia. clearbody x.
  repeat split; Z.div_mod_to_equations; lia.
Qed.

(** ** Characters *)

(** The characters [FromString] accepts as digits. *)
Definition upper_hex (c : ascii) : bool := isxdigit c && negb (islower c).

(** A boolean statement on all 256 characters is decided by evaluation. *)
Lemma forall_ascii (P : ascii → bool) :
  forallb (λ n, P (ascii_of_nat n)) (seq 0 256) = true → ∀ c, P c = true.
Proof.
  intros H c. rewrite forallb_forall in H. rewrite <- (ascii_nat_embedding c).
  apply H. apply in_seq. pose proof (nat_ascii_bounded c). lia.
Qed.

Lemma forall_byte (P : Z → bool) :
  forallb P (seqZ 0 256) = true → ∀ b, is_byte b → P b = true.
Proof.
  intros H b Hb. rewrite forallb_forall in H. apply H.
  apply list_elem_of_In, elem_of_seqZ. unfold is_byte in Hb. lia.
Qed.

Lemma upper_hex_not_dash c : upper_hex c = true → c ≠ "-"%char.
Proof. by intros H ->. Qed.

Lemma valid_chars_hex c s : upper_hex c = true → valid_chars (String c s) = valid_chars s.
Proof.
  intros H. pose proof (upper_hex_not_dash _ H). simpl.
  destruct (ascii_dec c "-"); [done|]. unfold upper_hex in H.
  apply andb_true_iff in H as [-> Hl]. simpl. by destruct (islower c).
Qed.

Lemma valid_chars_dash s : valid_chars (String "-" s) = valid_chars s.
Proof. done. Qed.

(** The value two characters are read as. *)
Definition read2 (a b : ascii) : Z := u64 (read_hex_int (String a (String b EmptyString))).

Definition read2_inverts (a b : ascii) : bool :=
  if upper_hex b then
    bool_decide (0 ≤ read2 a b < 256 ∧ hex_char (Z.shiftr (read2 a b) 4) = a ∧
                 hex_char (Z.land (read2 a b) 0x0F) = b)
  else true.

Definition read2_inverts_all (a : ascii) : bool :=
  if upper_hex a then forallb (λ n, read2_inverts a (ascii_of_nat n)) (seq 0 256) else true.

Lemma read2_hex a b : upper_hex a = true → upper_hex b = true →
  is_byte (read2 a b) ∧ hex_char (Z.shiftr (read2 a b) 4) = a ∧
  hex_char (Z.land (read2 a b) 0x0F) = b.
Proof.
  intros Ha Hb.
  assert (read2_inverts_all a = true) as H by (apply forall_ascii; by vm_compute).
  unfold read2_inverts_all in H. rewrite Ha in H.
  apply (forall_ascii (read2_inverts a)) with (c := b) in H.
  unfold read2_inverts in H. rewrite Hb in H. by apply bool_decide_eq_true in H.
Qed.

Lemma read2_pair a b : upper_hex a = true → upper_hex b = true →
  (hex_char (Z.shiftr (read2 a b) 4), hex_char (Z.land (read2 a b) 0x0F)) = (a, b).
Proof. intros Ha Hb. by destruct (read2_hex a b Ha Hb) as (_ & -> & ->). Qed.

Definition byte_inverts (x : Z) : bool :=
  bool_decide (upper_hex (hex_char (Z.shiftr x 4)) = true ∧
    upper_hex (hex_char (Z.land x 0x0F)) = true ∧
    read2 (hex_char (Z.shiftr x 4)) (hex_char (Z.land x 0x0F)) = x).

Lemma hex_char_read2 x : is_byte x →
  upper_hex (hex_char (Z.shiftr x 4)) = true ∧ upper_hex (hex_char (Z.land x 0x0F)) = true ∧
  read2 (hex_char (Z.shiftr x 4)) (hex_char (Z.land x 0x0F)) = x.
Proof.
  intros Hx. apply (bool_decide_eq_true_1 (_ ∧ _ ∧ _)).
  apply (forall_byte byte_inverts); [by vm_compute|done].
Qed.

(** The digits of a packed word are the digits its bytes were read from. *)
Lemma hex_pack a7 b7 a6 b6 a5 b5 a4 b4 a3 b3 a2 b2 a1 b1 a0 b0 :
  Forall (λ c, upper_hex c = true) [a7; b7; a6; b6; a5; b5; a4; b4; a3; b3; a2; b2; a1; b1; a0; b0] →
  let x := pack (read2 a7 b7) (read2 a6 b6) (read2 a5 b5) (read2 a4 b4)
                (read2 a3 b3) (read2 a2 b2) (read2 a1 b1) (read2 a0 b0) in
  (λ k, (hex_char (Z.shiftr (byte_at x k) 4), hex_char (Z.land (byte_at x k) 0x0F)))
    <$> [56; 48; 40; 32; 24; 16; 8; 0]
  = [(a7, b7); (a6, b6); (a5, b5); (a4, b4); (a3, b3); (a2, b2); (a1, b1); (a0, b0)].
Proof.
  intros H x. rewrite !Forall_cons in H. destruct_and! H.
  destruct (byte_at_pack (read2 a7 b7) (read2 a6 b6) (read2 a5 b5) (read2 a4 b4)
              (read2 a3 b3) (read2 a2 b2) (read2 a1 b1) (read2 a0 b0))
    as (E7 & E6 & E5 & E4 & E3 & E2 & E1 & E0); [by apply read2_hex ..|].
  fold x in E7, E6, E5, E4, E3, E2, E1, E0. clearbody x.
  cbn [fmap list_fmap]. rewrite E7, E6, E5, E4, E3, E2, E1, E0.
  by rewrite !read2_pair by done.
Qed.

(** ** Guids *)

(** The 32 digits of a guid with the dashes between them. *)
Definition guid (c0 c1 c2 c3 c4 c5 c6 c7 c8 c9 c10 c11 c12 c13 c14 c15 c16 c17 c18 c19 c20 c21 c22 c23 c24 c25 c26 c27 c28 c29 c30 c31 : ascii) : string :=
  (String c0 (String c1 (String c2 (String c3 (String c4 (String c5 (String c6 (String c7 (String "-" (String c8 (String c9 (String c10 (String c11 (String "-" (String c12 (String c13 (String c14 (String c15 (String "-" (String c16 (String c17 (String c18 (String c19 (String "-" (String c20 (String c21 (String c22 (String c23 (String c24 (String c25 (String c26 (String c27 (String c28 (String c29 (String c30 (String c31 EmptyString)))))))))))))))))))))))))))))))))))).

Lemma ReadHex_guid c0 c1 c2 c3 c4 c5 c6 c7 c8 c9 c10 c11 c12 c13 c14 c15 c16 c17 c18 c19 c20 c21 c22 c23 c24 c25 c26 c27 c28 c29 c30 c31 :
  let g := guid c0 c1 c2 c3 c4 c5 c6 c7 c8 c9 c10 c11 c12 c13 c14 c15 c16 c17 c18 c19 c20 c21 c22 c23 c24 c25 c26 c27 c28 c29 c30 c31 in
  ReadHex g 0 = read2 c0 c1 ∧
  ReadHex g 2 = read2 c2 c3 ∧
  ReadHex g 4 = read2 c4 c5 ∧
  ReadHex g 6 = read2 c6 c7 ∧
  ReadHex g 9 = read2 c8 c9 ∧
  ReadHex g 11 = read2 c10 c11 ∧
  ReadHex g 14 = read2 c12 c13 ∧
  ReadHex g 16 = read2 c14 c15 ∧
  ReadHex g 19 = read2 c16 c17 ∧
  ReadHex g 21 = read2 c18 c19 ∧
  ReadHex g 24 = read2 c20 c21 ∧
  ReadHex g 26 = read2 c22 c23 ∧
  ReadHex g 28 = read2 c24 c25 ∧
  ReadHex g 30 = read2 c26 c27 ∧
  ReadHex g 32 = read2 c28 c29 ∧
  ReadHex g 34 = read2 c30 c31.
Proof. by repeat split. Qed.

(** What [FromString] computes once its checks have passed. *)
Lemma FromString_accept s :
  String.length s = 36%nat →
  char_at s 8 = "-"%char → char_at s 13 = "-"%char →
  char_at s 18 = "-"%char → char_at s 23 = "-"%char →
  valid_chars s = true →
  FromString s kZeroUuid =
  (SuccessExecutionResult,
   mkUuid (pack (ReadHex s 0) (ReadHex s 2) (ReadHex s 4) (ReadHex s 6) (ReadHex s 9) (ReadHex s 11) (ReadHex s 14) (ReadHex s 16))
          (pack (ReadHex s 19) (ReadHex s 21) (ReadHex s 24) (ReadHex s 26) (ReadHex s 28) (ReadHex s 30) (ReadHex s 32) (ReadHex s 34))).
Proof. intros HL H8 H13 H18 H23 HV. unfold FromString. by rewrite HL, H8, H13, H18, H23, HV. Qed.

Lemma FromString_guid c0 c1 c2 c3 c4 c5 c6 c7 c8 c9 c10 c11 c12 c13 c14 c15 c16 c17 c18 c19 c20 c21 c22 c23 c24 c25 c26 c27 c28 c29 c30 c31 :
  upper_hex c0 = true →
  upper_hex c1 = true →
  upper_hex c2 = true →
  upper_hex c3 = true →
  upper_hex c4 = true →
  upper_hex c5 = true →
  upper_hex c6 = true →
  upper_hex c7 = true →
  upper_hex c8 = true →
  upper_hex c9 = true →
  upper_hex c10 = true →
  upper_hex c11 = true →
  upper_hex c12 = true →
  upper_hex c13 = true →
  upper_hex c14 = true →
  upper_hex c15 = true →
  upper_hex c16 = true →
  upper_hex c17 = true →
  upper_hex c18 = true →
  upper_hex c19 = true →
  upper_hex c20 = true →
  upper_hex c21 = true →
  upper_hex c22 = true →
  upper_hex c23 = true →
  upper_hex c24 = true →
  upper_hex c25 = true →
  upper_hex c26 = true →
  upper_hex c27 = true →
  upper_hex c28 = true →
  upper_hex c29 = true →
  upper_hex c30 = true →
  upper_hex c31 = true →
  FromString (guid c0 c1 c2 c3 c4 c5 c6 c7 c8 c9 c10 c11 c12 c13 c14 c15 c16 c17 c18 c19 c20 c21 c22 c23 c24 c25 c26 c27 c28 c29 c30 c31) kZeroUuid =
  (SuccessExecutionResult,
   mkUuid (pack (read2 c0 c1) (read2 c2 c3) (read2 c4 c5) (read2 c6 c7) (read2 c8 c9) (read2 c10 c11) (read2 c12 c13) (read2 c14 c15))
          (pack (read2 c16 c17) (read2 c18 c19) (read2 c20 c21) (read2 c22 c23) (read2 c24 c25) (read2 c26 c27) (read2 c28 c29) (read2 c30 c31))).
Proof.
  intros. pose proof (ReadHex_guid c0 c1 c2 c3 c4 c5 c6 c7 c8 c9 c10 c11 c12 c13 c14 c15 c16 c17 c18 c19 c20 c21 c22 c23 c24 c25 c26 c27 c28 c29 c30 c31) as HR.
  cbv zeta in HR. destruct_and! HR.
  rewrite FromString_accept; [|done..|].
  - generalize dependent (guid c0 c1 c2 c3 c4 c5 c6 c7 c8 c9 c10 c11 c12 c13 c14 c15 c16 c17 c18 c19 c20 c21 c22 c23 c24 c25 c26 c27 c28 c29 c30 c31). intros g **. by rewrite_all_hyps.
  - unfold guid.
    repeat first [rewrite valid_chars_dash | rewrite valid_chars_hex by done]. done.
Qed.

Lemma ToString_guid u :
  let h k := hex_char (Z.shiftr (byte_at (high u) k) 4) in
  let h' k := hex_char (Z.land (byte_at (high u) k) 0x0F) in
  let l k := hex_char (Z.shiftr (byte_at (low u) k) 4) in
  let l' k := hex_char (Z.land (byte_at (low u) k) 0x0F) in
  ToString u = guid (h 56) (h' 56) (h 48) (h' 48) (h 40) (h' 40) (h 32) (h' 32) (h 24) (h' 24) (h 16) (h' 16) (h 8) (h' 8) (h 0) (h' 0)
                    (l 56) (l' 56) (l 48) (l' 48) (l 40) (l' 40) (l 32) (l' 32) (l 24) (l' 24) (l 16) (l' 16) (l 8) (l' 8) (l 0) (l' 0).
Proof. reflexivity. Qed.

(** A guid: 36 characters, dashes where they belong and digits elsewhere. *)
Definition is_guid (s : string) : Prop :=
  ∃ c0 c1 c2 c3 c4 c5 c6 c7 c8 c9 c10 c11 c12 c13 c14 c15 c16 c17 c18 c19 c20 c21 c22 c23 c24 c25 c26 c27 c28 c29 c30 c31 : ascii,
    s = guid c0 c1 c2 c3 c4 c5 c6 c7 c8 c9 c10 c11 c12 c13 c14 c15 c16 c17 c18 c19 c20 c21 c22 c23 c24 c25 c26 c27 c28 c29 c30 c31 ∧
    Forall (λ c, upper_hex c = true) [c0; c1; c2; c3; c4; c5; c6; c7; c8; c9; c10; c11; c12; c13; c14; c15; c16; c17; c18; c19; c20; c21; c22; c23; c24; c25; c26; c27; c28; c29; c30; c31].

Lemma FromString_ToString_result u :
  valid_uuid u → FromString (ToString u) kZeroUuid = (SuccessExecutionResult, u).
Proof.
  intros [Hh Hl]. rewrite ToString_guid.
  rewrite FromString_guid by (apply hex_char_read2, byte_at_is_byte).
  rewrite !(proj2 (proj2 (hex_char_read2 _ (byte_at_is_byte _ _)))).
  rewrite !pack_bytes by done. by destruct u.
Qed.

(** C37: Printing a uuid and parsing it into a zero uuid gives the uuid back. *)
Theorem FromString_ToString u :
  valid_uuid u → FromString (ToString u) kZeroUuid = (SuccessExecutionResult, u).
Proof. apply FromString_ToString_result. Qed.

(** parsing a guid and printing the result gives the same text. *)
Theorem ToString_FromString s :
  is_guid s →
  ∃ u, valid_uuid u ∧ FromString s kZeroUuid = (SuccessExecutionResult, u) ∧ ToString u = s.
Proof.
  intros (c0 & c1 & c2 & c3 & c4 & c5 & c6 & c7 & c8 & c9 & c10 & c11 & c12 & c13 & c14 & c15 & c16 & c17 & c18 & c19 & c20 & c21 & c22 & c23 & c24 & c25 & c26 & c27 & c28 & c29 & c30 & c31 & -> & Hc).
  rewrite !Forall_cons in Hc. destruct_and! Hc.
  rewrite FromString_guid by done. eexists. split; [|split; [done|]].
  - split; apply pack_is_u64; by apply read2_hex.
  - rewrite ToString_guid. cbn [high low].
    pose proof (hex_pack c0 c1 c2 c3 c4 c5 c6 c7 c8 c9 c10 c11 c12 c13 c14 c15) as Hh.
    pose proof (hex_pack c16 c17 c18 c19 c20 c21 c22 c23 c24 c25 c26 c27 c28 c29 c30 c31) as Hl.
    cbn zeta in Hh, Hl. specialize (Hh ltac:(by repeat constructor)).
    specialize (Hl ltac:(by repeat constructor)).
    cbn [fmap list_fmap] in Hh, Hl. injection Hh as. injection Hl as.
    by rewrite_all_hyps.
Qed.

Lemma FromString_ToString_witness :
  valid_uuid (mkUuid 0x0123456789ABCDEF 0xFEDCBA9876543210) ∧
  FromString (ToString (mkUuid 0x0123456789ABCDEF 0xFEDCBA9876543210)) kZeroUuid
  = (SuccessExecutionResult, mkUuid 0x0123456789ABCDEF 0xFEDCBA9876543210).
Proof.
  assert (valid_uuid (mkUuid 0x0123456789ABCDEF 0xFEDCBA9876543210)) as H
    by (split; vm_compute; split; congruence).
  split; [exact H|]. apply (FromString_ToString _ H).
Defined.

Lemma ToString_FromString_witness :
  ∃ u, valid_uuid u ∧
    FromString "00000000-0000-0000-0000-00000000002A" kZeroUuid = (SuccessExecutionResult, u) ∧
    ToString u = "00000000-0000-0000-0000-00000000002A"%string.
Proof.
  apply (ToString_FromString "00000000-0000-0000-0000-00000000002A").
  do 32 eexists. split; [reflexivity|]. by repeat constructor.
Defined.

(** The parser also accepts a dash where a digit belongs, and reads it as a
    sign: the first text below is not a guid and parses to the uuid of
    another text, and a text of 36 dashes parses to the zero uuid. *)
Theorem FromString_reads_dash_as_sign :
  FromString "-1000000-0000-0000-0000-000000000000" kZeroUuid
  = FromString "FF000000-0000-0000-0000-000000000000" kZeroUuid ∧
  FromString "-1000000-0000-0000-0000-000000000000" kZeroUuid
  = (SuccessExecutionResult, mkUuid (0xFF * 2 ^ 56) 0) ∧
  FromString "------------------------------------" kZeroUuid
  = (SuccessExecutionResult, kZeroUuid).
Proof. split_and!; by vm_compute. Qed.

(** The parser or-s into the uuid it is given: parsing into a uuid that is not
    zero keeps its bits. *)
Example FromString_keeps_bits :
  FromString "00000000-0000-0000-0000-000000000001" (mkUuid 0 2)
  = (SuccessExecutionResult, mkUuid 0 3).
Proof. by vm_compute. Qed.
