(* ===== verification/NoSQLDatabase.v ===== *)
(** * Rows of the NoSQL database

    The attribute values of [cc/core/interface/nosql_database_provider_interface.h],
    and what the components that share a row rely on: a read gives the attributes
    of the row, and an upsert with conditions changes the row when the row has the
    attributes it names, and then gives it the new ones, in one step. The database
    itself is not part of the repository; finite maps are an instance. *)

From S2P Require Import Prelude.
From stdpp Require Import options.

(** [std::variant<int, float, double, std::string>]; the floats by their bits. *)
Inductive AttributeValue :=
| IntValue (n : Z)
| FloatValue (bits : Z)
| DoubleValue (bits : Z)
| StringValue (s : string).

#[export] Instance AttributeValue_eq_dec : EqDecision AttributeValue.
Proof. solve_decision. Defined.

Definition Attribute : Type := string * AttributeValue.

Class RowOperations (Row : Type) := {
  row_attributes : Row → list Attribute;
  (** [None] when a condition does not hold. *)
  upsert_row : list Attribute → list Attribute → Row → option Row;
}.

Class RowLaws (Row : Type) `{RowOperations Row} : Prop := {
  row_names_NoDup r : NoDup (row_attributes r).*1;
  upsert_conditions attributes new_attributes r r' :
    upsert_row attributes new_attributes r = Some r' → ∀ a, a ∈ attributes → a ∈ row_attributes r;
  upsert_writes attributes new_attributes r r' :
    NoDup new_attributes.*1 → upsert_row attributes new_attributes r = Some r' →
    ∀ a, a ∈ row_attributes r' ↔ a ∈ new_attributes ∨ (a.1 ∉ new_attributes.*1 ∧ a ∈ row_attributes r);
}.

(** ** Rows as finite maps *)

Definition MapRow : Type := gmap string AttributeValue.

#[export] Instance MapRow_operations : RowOperations MapRow := {|
  row_attributes r := map_to_list r;
  upsert_row attributes new_attributes r :=
    if forallb (λ a, bool_decide (r !! a.1 = Some a.2)) attributes
    then Some (list_to_map new_attributes ∪ r) else None;
|}.

#[export] Instance MapRow_laws : RowLaws MapRow.
Proof.
  split.
  - intros r. apply NoDup_fst_map_to_list.
  - intros attributes new_attributes r r' Hu [n v] Ha. simpl in *.
    destruct (forallb (λ a, bool_decide (r !! a.1 = Some a.2)) attributes) eqn:Hf; [|done].
    rewrite forallb_forall in Hf. specialize (Hf (n, v)). apply list_elem_of_In in Ha.
    by apply Hf, bool_decide_eq_true, elem_of_map_to_list in Ha.
  - intros attributes new_attributes r r' Hn Hu [n v]. simpl in *.
    destruct (forallb (λ a, bool_decide (r !! a.1 = Some a.2)) attributes); simplify_eq.
    etrans; [apply (elem_of_map_to_list (M := gmap string))|].
    etrans; [apply lookup_union_Some_raw|]. rewrite <-elem_of_list_to_map by done.
    rewrite <-not_elem_of_list_to_map. f_equiv. f_equiv. symmetry. apply (elem_of_map_to_list (M := gmap string)).
Qed.
