(* ===== verification/ConcurrentMap.v ===== *)
(** * The concurrent map

    Models [cc/core/common/concurrent_map/src/concurrent_map.h]. The map is a
    wrapper of [oneapi::tbb::concurrent_hash_map], which is a library: the
    operations the wrapper uses are the methods of the class
    [ConcurrentHashMap], and its laws say what the library documents of them
    through the finite map a hash map stands for. The wrapper's operations are
    written against the class, and refine finite-map operations for every
    implementation of it; finite maps are themselves one. Each operation holds
    the element's accessor while it runs, so it is one atomic step. *)

From S2P Require Import Prelude ExecutionResult ErrorCodes.
From stdpp Require Import options.

(** ** What the library provides *)

Class ConcurrentHashMap (M K V : Type) := {
  tbb_empty : M;
  tbb_insert : M → K → V → bool * V * M;
  tbb_find : M → K → option V;
  tbb_erase : M → K → bool * M;
  tbb_elements : M → list (K * V);
  tbb_size : M → nat;
}.

(** The documented behaviour of the library: [contents] is the map it holds;
    [insert] keeps the element that is there and points the accessor to it. *)
Class ConcurrentHashMapLaws (M K V : Type) `{Countable K} `{ConcurrentHashMap M K V} := {
  contents : M → gmap K V;
  contents_empty : contents tbb_empty = ∅;
  contents_insert m k v :
    let '(inserted, out, m') := tbb_insert m k v in
    match contents m !! k with
    | Some v' => inserted = false ∧ out = v' ∧ contents m' = contents m
    | None => inserted = true ∧ out = v ∧ contents m' = <[k := v]> (contents m)
    end;
  contents_find m k : tbb_find m k = contents m !! k;
  contents_erase m k :
    (tbb_erase m k).1 = bool_decide (is_Some (contents m !! k)) ∧
    contents (tbb_erase m k).2 = delete k (contents m);
  contents_elements m : tbb_elements m ≡ₚ map_to_list (contents m);
  contents_size m : tbb_size m = size (contents m);
}.

(** ** The wrapper *)

Section concurrent_map.
  Context {M K V : Type} `{ConcurrentHashMap M K V}.

(** Gives the result, [out_value] and the map. *)
Definition Insert (m : M) (key_value : K * V) : ExecutionResult * V * M :=
  let '(inserted, out_value, m') := tbb_insert m key_value.1 key_value.2 in
  let execution_result :=
    if inserted then SuccessExecutionResult
    else FailureExecutionResult SC_CONCURRENT_MAP_ENTRY_ALREADY_EXISTS in
  (execution_result, out_value, m').

(** [out_value] is assigned only when the key is there. *)
Definition Find (m : M) (key : K) : ExecutionResult * option V :=
  match tbb_find m key with
  | None => (FailureExecutionResult SC_CONCURRENT_MAP_ENTRY_DOES_NOT_EXIST, None)
  | Some v => (SuccessExecutionResult, Some v)
  end.

Definition Erase (m : M) (key : K) : ExecutionResult * M :=
  let '(erased, m') := tbb_erase m key in
  (if erased then SuccessExecutionResult
   else FailureExecutionResult SC_CONCURRENT_MAP_ENTRY_DOES_NOT_EXIST, m').

Definition Keys (m : M) : ExecutionResult * list K :=
  (SuccessExecutionResult, (tbb_elements m).*1).

Definition Size (m : M) : nat := tbb_size m.

End concurrent_map.

(** ** Finite maps are an implementation *)

#[export] Instance gmap_hash_map {K V} `{Countable K} : ConcurrentHashMap (gmap K V) K V := {|
  tbb_empty := ∅;
  tbb_insert m k v :=
    match m !! k with
    | Some v' => (false, v', m)
    | None => (true, v, <[k := v]> m)
    end;
  tbb_find m k := m !! k;
  tbb_erase m k := (bool_decide (is_Some (m !! k)), delete k m);
  tbb_elements m := map_to_list m;
  tbb_size m := size m;
|}.

#[export, refine] Instance gmap_hash_map_laws {K V} `{Countable K} :
  ConcurrentHashMapLaws (gmap K V) K V := {| contents m := m |}.
Proof.
  all: try done.
  intros m k v. simpl. by destruct (m !! k).
Defined.

(** ** Refinement *)

(** What an operation of the wrapper promises, on the finite map. *)
Inductive MapCall (K V : Type) :=
| CallInsert (k : K) (v : V)
| CallFind (k : K)
| CallErase (k : K).
Arguments CallInsert {_ _}. Arguments CallFind {_ _}. Arguments CallErase {_ _}.

Definition map_call {M K V} `{ConcurrentHashMap M K V} (m : M) (c : MapCall K V)
  : ExecutionResult * option V * M :=
  match c with
  | CallInsert k v => let '(r, v', m') := Insert m (k, v) in (r, Some v', m')
  | CallFind k => let '(r, v) := Find m k in (r, v, m)
  | CallErase k => let '(r, m') := Erase m k in (r, None, m')
  end.

Fixpoint map_calls {M K V} `{ConcurrentHashMap M K V} (m : M) (cs : list (MapCall K V))
  : list (ExecutionResult * option V) * M :=
  match cs with
  | [] => ([], m)
  | c :: cs' =>
      let '(r, v, m') := map_call m c in
      let '(rs, m'') := map_calls m' cs' in ((r, v) :: rs, m'')
  end.

Section refinement.
  #[local] Set Default Proof Using "Type*".
  Context {M K V : Type} `{Countable K} `{!ConcurrentHashMap M K V} `{!ConcurrentHashMapLaws M K V}.

Lemma map_call_refines (m : M) (c : MapCall K V) :
  map_call (contents m) c = ((map_call m c).1, contents (map_call m c).2).
Proof.
  destruct c as [k v|k|k]; simpl.
  - unfold Insert; simpl. pose proof (contents_insert m k v) as Hi.
    destruct (tbb_insert m k v) as [[i o] m']; simpl in *.
    destruct (contents m !! k); destruct Hi as (-> & -> & ->); done.
  - unfold Find; simpl. rewrite contents_find. by destruct (contents m !! k).
  - unfold Erase; simpl. destruct (contents_erase m k) as [He Hc].
    destruct (tbb_erase m k) as [b m']; simpl in *. by rewrite He, Hc.
Qed.

(** Any sequence of Insert, Find and Erase calls gives, over every
    hash map that satisfies the library's laws, the results and values it gives
    over the finite map the hash map holds, and ends with the same contents. *)
Theorem map_calls_refine (m : M) (cs : list (MapCall K V)) :
  map_calls (contents m) cs = ((map_calls m cs).1, contents (map_calls m cs).2).
Proof.
  revert m; induction cs as [|c cs IH]; intros m; [done|]. simpl.
  rewrite map_call_refines. destruct (map_call m c) as [[r v] m']; simpl.
  rewrite IH. by destruct (map_calls m' cs).
Qed.

Lemma Keys_refines (m : M) : (Keys (V:=V) m).2 ≡ₚ (Keys (contents m)).2.
Proof. unfold Keys; simpl. apply (fmap_Permutation fst), contents_elements. Qed.

Lemma Size_Keys (m : M) : Size (V:=V) m = length (Keys (V:=V) m).2.
Proof.
  unfold Size, Keys; simpl. rewrite length_fmap, contents_elements, contents_size.
  symmetry. apply length_map_to_list.
Qed.

End refinement.

(** ** The operations over finite maps *)

Section gmap_calls.
  Context {K V : Type} `{Countable K}.
  Implicit Types m : gmap K V.

Lemma Insert_Some m k v v' : m !! k = Some v' →
  Insert m (k, v) = (FailureExecutionResult SC_CONCURRENT_MAP_ENTRY_ALREADY_EXISTS, v', m).
Proof. intros Hk. unfold Insert; simpl. by rewrite Hk. Qed.

Lemma Insert_None m k v : m !! k = None →
  Insert m (k, v) = (SuccessExecutionResult, v, <[k := v]> m).
Proof. intros Hk. unfold Insert; simpl. by rewrite Hk. Qed.

Lemma Find_Some m k v : m !! k = Some v → Find m k = (SuccessExecutionResult, Some v).
Proof. intros Hk. unfold Find; simpl. by rewrite Hk. Qed.

Lemma Find_None m k : m !! k = None →
  Find m k = (FailureExecutionResult SC_CONCURRENT_MAP_ENTRY_DOES_NOT_EXIST, None).
Proof. intros Hk. unfold Find; simpl. by rewrite Hk. Qed.

Lemma Erase_Some m k v : m !! k = Some v → Erase m k = (SuccessExecutionResult, delete k m).
Proof. intros Hk. unfold Erase; simpl. by rewrite Hk. Qed.

Lemma Erase_None m k : m !! k = None →
  Erase m k = (FailureExecutionResult SC_CONCURRENT_MAP_ENTRY_DOES_NOT_EXIST, m).
Proof.
  intros Hk. unfold Erase; simpl. rewrite Hk. by rewrite delete_id.
Qed.

End gmap_calls.

Create HintDb concurrent_map.
Create Rewrite HintDb concurrent_map.
#[export] Hint Rewrite @Insert_Some @Insert_None @Find_Some @Find_None @Erase_Some @Erase_None
  using eassumption : concurrent_map.

Lemma map_calls_refine_witness :
  map_calls (M := gmap nat nat) (K := nat) (V := nat) (contents (<[1 := 10]> ∅))
    [CallInsert 1 20; CallErase 1; CallInsert 1 20; CallFind 1; CallErase 2]
  = ((map_calls (M := gmap nat nat) (<[1 := 10]> ∅)
        [CallInsert 1 20; CallErase 1; CallInsert 1 20; CallFind 1; CallErase 2]).1,
     contents (map_calls (M := gmap nat nat) (<[1 := 10]> ∅)
        [CallInsert 1 20; CallErase 1; CallInsert 1 20; CallFind 1; CallErase 2]).2).
Proof.
  apply (map_calls_refine (M := gmap nat nat) (K := nat) (V := nat) (<[1 := 10]> ∅)).
Defined.

Example map_calls_example :
  map_calls (M := gmap nat nat) (K := nat) (V := nat) ∅
    [CallInsert 1 10; CallInsert 1 20; CallFind 1; CallErase 1; CallErase 1; CallFind 1]
  = ([(SuccessExecutionResult, Some 10);
      (FailureExecutionResult SC_CONCURRENT_MAP_ENTRY_ALREADY_EXISTS, Some 10);
      (SuccessExecutionResult, Some 10);
      (SuccessExecutionResult, None);
      (FailureExecutionResult SC_CONCURRENT_MAP_ENTRY_DOES_NOT_EXIST, None);
      (FailureExecutionResult SC_CONCURRENT_MAP_ENTRY_DOES_NOT_EXIST, None)], ∅).
Proof. by vm_compute. Qed.
