(* ===== verification/AutoExpiryMap.v ===== *)
(** * The auto-expiry concurrent map

    Models [cc/core/common/auto_expiry_concurrent_map/src/auto_expiry_concurrent_map.h].
    The map holds shared pointers to its records, and a garbage-collection
    round keeps the pointers it selected until its callbacks are answered, so
    records live in a store and the map and the pending callbacks refer to them
    by location. The steady clock is an argument ([now], nanoseconds); the
    executor's answer to [ScheduleFor] and the locks other threads hold when the
    collector runs are arguments too. An operation gives the calls it makes to
    the outside ([Action]) in order. *)

From S2P Require Import Prelude ExecutionResult ErrorCodes ConcurrentMap.
From stdpp Require Import options.

Local Open Scope Z_scope.

Section auto_expiry_map.
  Context {K V : Type} `{Countable K}.

Definition loc : Type := positive.

Record AutoExpiryConcurrentMapEntry := mkEntry {
  entry : V;
  being_evicted : bool;
  is_evictable : bool;
  expiration_time : Z;
}.

(** The constructor's constants. *)
Record Config := mkConfig {
  map_entry_lifetime_seconds_ : Z;
  extend_entry_lifetime_on_access_ : bool;
  block_entry_while_eviction_ : bool;
}.

Record AutoExpiryConcurrentMap := mkMap {
  concurrent_map_ : gmap K loc;
  records : gmap loc AutoExpiryConcurrentMapEntry;
  pending_garbage_collection_callbacks_ : Z;
  is_running_ : bool;
}.

(** Calls to the outside: the executor is asked for the next round, or the
    owner of the map is asked whether an element may go, with the callback
    [OnRemoveEntryFromCacheLogged] bound to the element. *)
Inductive Action :=
| ScheduleFor (t : Z)
| OnBeforeElementDeletion (key : K) (value : V) (element : K * loc).

Definition with_map (m : gmap K loc) (s : AutoExpiryConcurrentMap) :=
  mkMap m (records s) (pending_garbage_collection_callbacks_ s) (is_running_ s).
Definition with_records (r : gmap loc AutoExpiryConcurrentMapEntry) (s : AutoExpiryConcurrentMap) :=
  mkMap (concurrent_map_ s) r (pending_garbage_collection_callbacks_ s) (is_running_ s).
Definition with_pending (n : Z) (s : AutoExpiryConcurrentMap) :=
  mkMap (concurrent_map_ s) (records s) n (is_running_ s).

(** [(now + std::chrono::seconds(seconds)).count()], stored in a [Timestamp]. *)
Definition expiration_after (now seconds : Z) : Z :=
  u64 (i64 (now + i64 (i64 seconds * 1000000000))).

Definition NewEntry (now : Z) (value : V) (expiration_in_seconds : Z) : AutoExpiryConcurrentMapEntry :=
  mkEntry value false true (expiration_after now expiration_in_seconds).

Definition ExtendExpiration (now : Z) (r : AutoExpiryConcurrentMapEntry) (expiration_seconds : Z)
  : ExecutionResult * AutoExpiryConcurrentMapEntry :=
  if expiration_seconds =? 0 then
    (FailureExecutionResult SC_AUTO_EXPIRY_CONCURRENT_MAP_INVALID_EXPIRATION, r)
  else if being_evicted r then
    (FailureExecutionResult SC_AUTO_EXPIRY_CONCURRENT_MAP_ENTRY_BEING_DELETED, r)
  else
    (SuccessExecutionResult,
     mkEntry (entry r) (being_evicted r) (is_evictable r)
             (expiration_after now expiration_seconds)).

Definition IsExpired (now : Z) (r : AutoExpiryConcurrentMapEntry) : bool :=
  expiration_time r <? u64 now.

Definition set_evictable (b : bool) (r : AutoExpiryConcurrentMapEntry) : AutoExpiryConcurrentMapEntry :=
  mkEntry (entry r) (being_evicted r) b (expiration_time r).
Definition set_being_evicted (b : bool) (r : AutoExpiryConcurrentMapEntry) : AutoExpiryConcurrentMapEntry :=
  mkEntry (entry r) b (is_evictable r) (expiration_time r).

(** ** Access *)

Section operations.
  Variable cfg : Config.

(** The part [Insert] and [Find] share on a record that is there: the entry is
    refused when it is blocked, its life is extended when it is configured. *)
Definition access (now : Z) (r : AutoExpiryConcurrentMapEntry)
  : option AutoExpiryConcurrentMapEntry :=
  if block_entry_while_eviction_ cfg && being_evicted r then None
  else if extend_entry_lifetime_on_access_ cfg && negb (being_evicted r) then
    Some (ExtendExpiration now r (map_entry_lifetime_seconds_ cfg)).2
  else Some r.

(** Gives [out_value] when it is assigned. [make_shared] puts a record in the
    store before it is known whether the key is new. *)
Definition Insert (now : Z) (s : AutoExpiryConcurrentMap) (key : K) (value : V)
  : ExecutionResult * option V * AutoExpiryConcurrentMap :=
  let record := fresh (dom (records s)) in
  let s := with_records
    (<[record := NewEntry now value (map_entry_lifetime_seconds_ cfg)]> (records s)) s in
  let '(execution_result, record, m') := ConcurrentMap.Insert (concurrent_map_ s) (key, record) in
  let s := with_map m' s in
  match records s !! record with
  | None => (execution_result, None, s) (* unreachable: the map's pointers are not null *)
  | Some r =>
      if negb (Successful execution_result) then
        if negb (result_eqb execution_result
                   (FailureExecutionResult SC_CONCURRENT_MAP_ENTRY_ALREADY_EXISTS)) then
          (execution_result, None, s)
        else
          match access now r with
          | None => (FailureExecutionResult SC_AUTO_EXPIRY_CONCURRENT_MAP_ENTRY_BEING_DELETED, None, s)
          | Some r' => (execution_result, Some (entry r'), with_records (<[record := r']> (records s)) s)
          end
      else (execution_result, Some (entry r), s)
  end.

Definition Find (now : Z) (s : AutoExpiryConcurrentMap) (key : K)
  : ExecutionResult * option V * AutoExpiryConcurrentMap :=
  let '(execution_result, record) := ConcurrentMap.Find (concurrent_map_ s) key in
  if Successful execution_result then
    match record with
    | None => (execution_result, None, s) (* unreachable: found keys have a value *)
    | Some l =>
        match records s !! l with
        | None => (execution_result, None, s)
        | Some r =>
            match access now r with
            | None => (FailureExecutionResult SC_AUTO_EXPIRY_CONCURRENT_MAP_ENTRY_BEING_DELETED, None, s)
            | Some r' => (execution_result, Some (entry r'), with_records (<[l := r']> (records s)) s)
            end
        end
    end
  else (execution_result, None, s).

Definition Erase (s : AutoExpiryConcurrentMap) (key : K) : ExecutionResult * AutoExpiryConcurrentMap :=
  let '(r, m') := ConcurrentMap.Erase (concurrent_map_ s) key in (r, with_map m' s).

Definition Keys (s : AutoExpiryConcurrentMap) : ExecutionResult * list K :=
  ConcurrentMap.Keys (concurrent_map_ s).

Definition Size (s : AutoExpiryConcurrentMap) : nat := ConcurrentMap.Size (concurrent_map_ s).

(** [DisableEviction] and [EnableEviction] differ in the flag they write. *)
Definition write_evictable (flag : bool) (now : Z) (s : AutoExpiryConcurrentMap) (key : K)
  : ExecutionResult * AutoExpiryConcurrentMap :=
  let '(execution_result, record) := ConcurrentMap.Find (concurrent_map_ s) key in
  if Successful execution_result then
    match record with
    | None => (execution_result, s)
    | Some l =>
        match records s !! l with
        | None => (execution_result, s)
        | Some r =>
            if being_evicted r then
              (FailureExecutionResult SC_AUTO_EXPIRY_CONCURRENT_MAP_ENTRY_BEING_DELETED, s)
            else
              let r := if extend_entry_lifetime_on_access_ cfg
                       then (ExtendExpiration now r (map_entry_lifetime_seconds_ cfg)).2 else r in
              (execution_result, with_records (<[l := set_evictable flag r]> (records s)) s)
        end
    end
  else (execution_result, s).

Definition DisableEviction := write_evictable false.
Definition EnableEviction := write_evictable true.

(** ** Garbage collection *)

(** [fetch_sub(1)] on an [atomic<size_t>]. *)
Definition fetch_sub_one (n : Z) : Z := if n =? 0 then 2 ^ 64 - 1 else n - 1.

(** [scheduled] is the executor's answer to [ScheduleFor]. *)
Definition ScheduleGarbageCollection (now : Z) (scheduled : ExecutionResult)
    (s : AutoExpiryConcurrentMap) : ExecutionResult * list Action :=
  let next_schedule_time := expiration_after now (map_entry_lifetime_seconds_ cfg) in
  if negb (is_running_ s) then
    (FailureExecutionResult SC_AUTO_EXPIRY_CONCURRENT_MAP_CANNOT_SCHEDULE, [])
  else (scheduled, [ScheduleFor next_schedule_time]).

Definition Run (now : Z) (scheduled : ExecutionResult) (s : AutoExpiryConcurrentMap)
  : ExecutionResult * AutoExpiryConcurrentMap * list Action :=
  let s := mkMap (concurrent_map_ s) (records s) (pending_garbage_collection_callbacks_ s) true in
  let '(r, a) := ScheduleGarbageCollection now scheduled s in (r, s, a).

(** No round is scheduled any more; the callbacks of the current one are waited
    for, and [drained] tells whether they came before the time limit. *)
Definition Stop (drained : bool) (s : AutoExpiryConcurrentMap) : ExecutionResult * AutoExpiryConcurrentMap :=
  let s := mkMap (concurrent_map_ s) (records s) (pending_garbage_collection_callbacks_ s) false in
  if (0 <? pending_garbage_collection_callbacks_ s) && negb drained then
    (FailureExecutionResult SC_AUTO_EXPIRY_CONCURRENT_MAP_STOP_INCOMPLETE, s)
  else (SuccessExecutionResult, s).

(** One turn of the selection loop. [locked] tells which records another
    thread holds, where [try_lock] fails. *)
Definition select_element (locked : loc → bool) (now : Z) (s : AutoExpiryConcurrentMap) (key : K)
  : option loc :=
  match concurrent_map_ s !! key with
  | None => None
  | Some l =>
      match records s !! l with
      | None => None
      | Some r =>
          if locked l then None
          else if negb (is_evictable r) || negb (IsExpired now r) then None
          else Some l
      end
  end.

Fixpoint select_elements (locked : loc → bool) (now : Z) (s : AutoExpiryConcurrentMap) (keys : list K)
  : AutoExpiryConcurrentMap * list (K * loc) :=
  match keys with
  | [] => (s, [])
  | key :: keys' =>
      match select_element locked now s key with
      | None => select_elements locked now s keys'
      | Some l =>
          let s := with_records (alter (set_being_evicted true) l (records s)) s in
          let '(s', elements) := select_elements locked now s keys' in
          (s', (key, l) :: elements)
      end
  end.

(** The callbacks to the owner, in order, each with the record's value. *)
Definition deletion_calls (s : AutoExpiryConcurrentMap) (elements : list (K * loc)) : list Action :=
  omap (λ '(key, l), (λ r, OnBeforeElementDeletion key (entry r) (key, l)) <$> records s !! l) elements.

Definition RunGarbageCollector (locked : loc → bool) (now : Z) (scheduled : ExecutionResult)
    (s : AutoExpiryConcurrentMap) : AutoExpiryConcurrentMap * list Action :=
  let '(execution_result, keys) := Keys s in
  if negb (Successful execution_result) then
    (s, (ScheduleGarbageCollection now scheduled s).2)
  else
    let '(s, elements_to_remove) := select_elements locked now s keys in
    if Nat.eqb (length elements_to_remove) 0 then
      (s, (ScheduleGarbageCollection now scheduled s).2)
    else
      let s := with_pending (Z.of_nat (length elements_to_remove)) s in
      (s, deletion_calls s elements_to_remove).

Definition OnRemoveEntryFromCacheLogged (now : Z) (scheduled : ExecutionResult)
    (s : AutoExpiryConcurrentMap) (key_value_pair : K * loc) (can_delete : bool)
  : AutoExpiryConcurrentMap * list Action :=
  let '(key, l) := key_value_pair in
  let release s := with_records (alter (set_being_evicted false) l (records s)) s in
  let s :=
    if can_delete then
      let '(execution_result, s) := Erase s key in
      if negb (Successful execution_result) then release s else s
    else release s in
  (* Last callback *)
  let before := pending_garbage_collection_callbacks_ s in
  let s := with_pending (fetch_sub_one before) s in
  if negb (before =? 1) then (s, [])
  else (s, (ScheduleGarbageCollection now scheduled s).2).

End operations.

(** ** The system

    A run of the map with its owner and the executor: the map's state, the
    deletion callbacks the owner has not answered, and whether a round is
    scheduled. Calls, rounds and answers come in any order, except that a round
    runs only when one was scheduled and each callback is answered once. *)

Record System := mkSystem {
  map_state : AutoExpiryConcurrentMap;
  unanswered : list (K * loc);
  round_scheduled : bool;
}.

Definition schedules (a : Action) : bool := if a is ScheduleFor _ then true else false.
Definition deletion_element (a : Action) : option (K * loc) :=
  if a is OnBeforeElementDeletion _ _ e then Some e else None.

Inductive Event :=
| EvInsert (key : K) (value : V)
| EvFind (key : K)
| EvErase (key : K)
| EvDisableEviction (key : K)
| EvEnableEviction (key : K)
| EvRound
| EvAnswer (element : K * loc) (can_delete : bool).

(** The executor accepts what it is asked to schedule. *)
Inductive step (cfg : Config) : Event → System → System → Prop :=
| step_insert now key value s u b :
    step cfg (EvInsert key value) (mkSystem s u b) (mkSystem (Insert cfg now s key value).2 u b)
| step_find now key s u b :
    step cfg (EvFind key) (mkSystem s u b) (mkSystem (Find cfg now s key).2 u b)
| step_erase key s u b :
    step cfg (EvErase key) (mkSystem s u b) (mkSystem (Erase s key).2 u b)
| step_disable now key s u b :
    step cfg (EvDisableEviction key) (mkSystem s u b) (mkSystem (DisableEviction cfg now s key).2 u b)
| step_enable now key s u b :
    step cfg (EvEnableEviction key) (mkSystem s u b) (mkSystem (EnableEviction cfg now s key).2 u b)
| step_round locked now s u s' actions :
    RunGarbageCollector cfg locked now SuccessExecutionResult s = (s', actions) →
    step cfg EvRound (mkSystem s u true)
      (mkSystem s' (u ++ omap deletion_element actions) (existsb schedules actions))
| step_answer now key l can_delete s u1 u2 b s' actions :
    OnRemoveEntryFromCacheLogged cfg now SuccessExecutionResult s (key, l) can_delete = (s', actions) →
    step cfg (EvAnswer (key, l) can_delete) (mkSystem s (u1 ++ (key, l) :: u2) b)
      (mkSystem s' (u1 ++ u2) (b || existsb schedules actions)).

Definition initial : System := mkSystem (mkMap ∅ ∅ 0 true) [] true.

(** The states the system can be in, over the events [allowed]. *)
Inductive reachable (cfg : Config) (allowed : Event → Prop) : System → Prop :=
| reachable_initial : reachable cfg allowed initial
| reachable_step e σ σ' :
    reachable cfg allowed σ → allowed e → step cfg e σ σ' → reachable cfg allowed σ'.

(** The client never calls [Erase]. *)
Definition no_erase (e : Event) : Prop := if e is EvErase _ then False else True.

(** ** The selection loop *)

Definition elements_of (locked : loc → bool) (now : Z) (s : AutoExpiryConcurrentMap) (keys : list K)
  : list (K * loc) :=
  omap (λ key, pair key <$> select_element locked now s key) keys.

Definition mark_evicted (r : gmap loc AutoExpiryConcurrentMapEntry) (ls : list loc)
  : gmap loc AutoExpiryConcurrentMapEntry :=
  foldl (λ r l, alter (set_being_evicted true) l r) r ls.

Lemma select_element_marked locked now s l key :
  select_element locked now (with_records (alter (set_being_evicted true) l (records s)) s) key
  = select_element locked now s key.
Proof.
  unfold select_element; simpl. destruct (concurrent_map_ s !! key) as [l'|]; [|done].
  destruct (decide (l = l')) as [->|].
  - rewrite lookup_alter_eq. by destruct (records s !! l').
  - by rewrite lookup_alter_ne.
Qed.

Lemma select_elements_spec locked now s keys :
  select_elements locked now s keys
  = (with_records (mark_evicted (records s) (elements_of locked now s keys).*2) s,
     elements_of locked now s keys).
Proof.
  revert s; induction keys as [|key keys IH]; intros s; simpl; [by destruct s|].
  destruct (select_element locked now s key) as [l|] eqn:Hs; simpl; [|apply IH].
  rewrite IH. unfold elements_of at 1 2.
  rewrite (list_omap_ext _ (λ k, pair k <$> select_element locked now s k) keys keys).
  - done.
  - apply Forall_Forall2_diag, Forall_forall. intros k _. by rewrite select_element_marked.
Qed.

Lemma mark_evicted_lookup r ls l :
  mark_evicted r ls !! l
  = (if decide (l ∈ ls) then set_being_evicted true else id) <$> r !! l.
Proof.
  revert r; induction ls as [|l' ls IH]; intros r; simpl.
  { by rewrite option_fmap_id. }
  unfold mark_evicted in *; simpl. rewrite IH.
  destruct (decide (l = l')) as [->|Hne].
  - rewrite lookup_alter_eq, (decide_True (P := l' ∈ l' :: ls)) by set_solver.
    destruct (r !! l'); simpl; [|done]. by case_decide.
  - rewrite lookup_alter_ne by done. f_equal.
    destruct (decide (l ∈ ls)); [rewrite decide_True|rewrite decide_False]; set_solver.
Qed.

Lemma elem_of_elements_of locked now s keys key l :
  (key, l) ∈ elements_of locked now s keys ↔
  key ∈ keys ∧ select_element locked now s key = Some l.
Proof.
  unfold elements_of. rewrite list_elem_of_omap. split.
  - intros (k & Hk & (l' & Hs & [= -> ->])%fmap_Some). done.
  - intros [Hk Hs]. exists key. by rewrite Hs.
Qed.

Lemma elements_of_NoDup locked now s keys : NoDup keys → NoDup (elements_of locked now s keys).*1.
Proof.
  intros Hk. eapply (sublist_NoDup _ keys); [done|]. clear Hk.
  induction keys as [|key keys IH]; [done|]. unfold elements_of in *; simpl.
  destruct (select_element locked now s key); simpl; [by constructor|by constructor].
Qed.

Lemma select_element_Some locked now s key l :
  select_element locked now s key = Some l ↔
  concurrent_map_ s !! key = Some l ∧
  ∃ r, records s !! l = Some r ∧ locked l = false ∧ is_evictable r = true ∧ IsExpired now r = true.
Proof.
  unfold select_element. split.
  - intros Hs. split_guards. rewrite orb_false_iff, !negb_false_iff in *. naive_solver.
  - intros (-> & r & -> & -> & -> & ->). done.
Qed.

(** ** Invariant *)

Record invariant (σ : System) : Prop := {
  (* the map's pointers are valid and not shared between keys *)
  inv_alloc key l : concurrent_map_ (map_state σ) !! key = Some l → is_Some (records (map_state σ) !! l);
  inv_inj key1 key2 l :
    concurrent_map_ (map_state σ) !! key1 = Some l → concurrent_map_ (map_state σ) !! key2 = Some l →
    key1 = key2;
  (* no record is pinned and being evicted *)
  inv_excl l r : records (map_state σ) !! l = Some r → being_evicted r = true → is_evictable r = true;
  (* the counter counts the unanswered callbacks *)
  inv_pending : pending_garbage_collection_callbacks_ (map_state σ) = Z.of_nat (length (unanswered σ));
  inv_keys : NoDup (unanswered σ).*1;
  inv_locs : NoDup (unanswered σ).*2;
  (* each is about a record being evicted, which its key alone can hold *)
  inv_marked key l : (key, l) ∈ unanswered σ →
    ∃ r, records (map_state σ) !! l = Some r ∧ being_evicted r = true;
  inv_owner key key' l : (key, l) ∈ unanswered σ →
    concurrent_map_ (map_state σ) !! key' = Some l → key' = key;
  (* and every record of the map being evicted has one *)
  inv_evicting key l r :
    concurrent_map_ (map_state σ) !! key = Some l → records (map_state σ) !! l = Some r →
    being_evicted r = true → (key, l) ∈ unanswered σ;
  (* a round is scheduled exactly when none is in progress *)
  inv_round : round_scheduled σ = true ↔ unanswered σ = [];
  inv_running : is_running_ (map_state σ) = true;
}.

Lemma initial_invariant : invariant initial.
Proof.
  constructor; simpl; try done; try (by intros; simplify_map_eq); try by constructor.
  all: intros; set_solver.
Qed.

(** What access operations do to the state: at most one new key with a new
    record; a record keeps its eviction flag, and its pin when it is being
    evicted. *)
Record accessed (s s' : AutoExpiryConcurrentMap) : Prop := {
  acc_pending : pending_garbage_collection_callbacks_ s' = pending_garbage_collection_callbacks_ s;
  acc_running : is_running_ s' = is_running_ s;
  acc_map key l : concurrent_map_ s' !! key = Some l →
    concurrent_map_ s !! key = Some l ∨
    (records s !! l = None ∧ is_Some (records s' !! l) ∧
     ∀ key', concurrent_map_ s' !! key' = Some l → key' = key);
  acc_records l r : records s !! l = Some r →
    ∃ r', records s' !! l = Some r' ∧ being_evicted r' = being_evicted r ∧
      (being_evicted r = true → is_evictable r' = is_evictable r);
  acc_new l r' : records s' !! l = Some r' → records s !! l = None → being_evicted r' = false;
}.

Lemma accessed_invariant s s' u b :
  accessed s s' → invariant (mkSystem s u b) → invariant (mkSystem s' u b).
Proof.
  intros [Hp Hr Hm Hrec Hnew] I. pose proof (inv_alloc _ I) as Halloc.
  pose proof (inv_inj _ I) as Hinj. pose proof (inv_excl _ I) as Hexcl.
  pose proof (inv_marked _ I) as Hmk. pose proof (inv_owner _ I) as Hown.
  pose proof (inv_evicting _ I) as Hev. simpl in *.
  assert (∀ l r', records s' !! l = Some r' → being_evicted r' = true →
    ∃ r, records s !! l = Some r ∧ being_evicted r = true ∧ is_evictable r' = is_evictable r) as Hold.
  { intros l r' Hl He. destruct (records s !! l) as [r|] eqn:Hs.
    - destruct (Hrec _ _ Hs) as (r'' & ? & ? & ?). exists r. simplify_eq. split_and!; [done|congruence|].
      naive_solver congruence.
    - exfalso. rewrite (Hnew _ _ Hl Hs) in He. done. }
  constructor; simpl.
  - intros key l Hk. destruct (Hm _ _ Hk) as [Hk'|(_ & ? & _)]; [|done].
    destruct (Halloc _ _ Hk') as [r Hl]. destruct (Hrec _ _ Hl) as (? & ? & _). by eexists.
  - intros key1 key2 l H1 H2.
    destruct (Hm _ _ H1) as [H1'|(_ & _ & Hu)]; [|symmetry; by apply Hu].
    destruct (Hm _ _ H2) as [H2'|(_ & _ & Hu)]; [by eapply Hinj|by apply Hu].
  - intros l r' Hl He. destruct (Hold _ _ Hl He) as (r & ? & ? & ->). by eapply Hexcl.
  - rewrite Hp. apply (inv_pending _ I).
  - apply (inv_keys _ I).
  - apply (inv_locs _ I).
  - intros key l Hu. destruct (Hmk _ _ Hu) as (r & Hl & He).
    destruct (Hrec _ _ Hl) as (r' & ? & ? & _). exists r'. split; [done|congruence].
  - intros key key' l Hu Hk. destruct (Hm _ _ Hk) as [?|(Hn & _)]; [by eapply Hown|].
    destruct (Hmk _ _ Hu) as (? & ? & _). congruence.
  - intros key l r' Hk Hl He. destruct (Hold _ _ Hl He) as (r & Hl' & He' & _).
    destruct (Hm _ _ Hk) as [?|(Hn & _)]; [by eapply Hev|congruence].
  - apply (inv_round _ I).
  - rewrite Hr. apply (inv_running _ I).
Qed.

Lemma accessed_refl s : accessed s s.
Proof. constructor; try done; naive_solver congruence. Qed.

Lemma accessed_update s l r r' :
  records s !! l = Some r → being_evicted r' = being_evicted r →
  (being_evicted r = true → is_evictable r' = is_evictable r) →
  accessed s (with_records (<[l := r']> (records s)) s).
Proof.
  intros Hl He Hp. constructor; simpl; try done.
  - by left.
  - intros l0 r0 Hl0. destruct (decide (l0 = l)) as [->|].
    + simplify_eq. exists r'. by rewrite lookup_insert_eq.
    + exists r0. by rewrite lookup_insert_ne.
  - intros l0 r0 Hl0 Hn. destruct (decide (l0 = l)) as [->|]; simplify_map_eq.
Qed.

(** The states [Insert] passes through: the new record, then the new key. *)
Lemma accessed_allocate s l r m :
  records s !! l = None → being_evicted r = false →
  (∀ key, concurrent_map_ s !! key ≠ Some l) →
  (m = concurrent_map_ s ∨ ∃ key, concurrent_map_ s !! key = None ∧ m = <[key := l]> (concurrent_map_ s)) →
  accessed s (with_map m (with_records (<[l := r]> (records s)) s)).
Proof.
  intros Hl He Hfresh Hm. constructor; simpl; try done.
  - intros key l0 Hk. destruct Hm as [->|(key0 & Hk0 & ->)]; [by left|].
    destruct (decide (key = key0)) as [->|]; simplify_map_eq; [|by left].
    right. split_and!; [done|done|]. intros key' Hk'.
    destruct (decide (key' = key0)) as [->|]; [done|]. simplify_map_eq. naive_solver.
  - intros l0 r0 Hl0. exists r0. rewrite lookup_insert_ne by congruence. done.
  - intros l0 r0 Hl0 Hn. destruct (decide (l0 = l)) as [->|]; simplify_map_eq; done.
Qed.

Lemma accessed_trans s1 s2 s3 :
  accessed s1 s2 → concurrent_map_ s3 = concurrent_map_ s2 → accessed s2 s3 →
  accessed s1 s3.
Proof.
  intros [Hp Hr Hm Hrec Hnew] Heq [Hp' Hr' _ Hrec' Hnew']. constructor.
  - by rewrite Hp'.
  - by rewrite Hr'.
  - intros key l. rewrite Heq. intros Hk. destruct (Hm _ _ Hk) as [?|(? & [r ?] & ?)]; [by left|].
    right. split_and!; [done| |done]. destruct (Hrec' l r) as (? & ? & _); [done|by eexists].
  - intros l r Hl. destruct (Hrec _ _ Hl) as (r2 & Hl2 & He2 & Hv2).
    destruct (Hrec' _ _ Hl2) as (r3 & Hl3 & He3 & Hv3). exists r3. split_and!; [done|congruence|].
    intros He. rewrite Hv3, Hv2 by congruence. done.
  - intros l r3 Hl Hn. destruct (records s2 !! l) as [r2|] eqn:Hl2; [|by eapply Hnew'].
    destruct (Hrec' _ _ Hl2) as (? & ? & He & _). simplify_eq. rewrite He. by eapply Hnew.
Qed.

Section operations_accessed.
  Variable cfg : Config.
  Variable now : Z.

Lemma ExtendExpiration_flags r n :
  being_evicted (ExtendExpiration now r n).2 = being_evicted r ∧
  is_evictable (ExtendExpiration now r n).2 = is_evictable r ∧
  entry (ExtendExpiration now r n).2 = entry r.
Proof. unfold ExtendExpiration. by split_guards. Qed.

Lemma access_flags r r' : access cfg now r = Some r' →
  being_evicted r' = being_evicted r ∧ is_evictable r' = is_evictable r ∧ entry r' = entry r.
Proof.
  unfold access. intros Ha. split_guards; [apply ExtendExpiration_flags|done].
Qed.

Lemma fresh_record s : records s !! fresh (dom (records s)) = None.
Proof. apply not_elem_of_dom, is_fresh. Qed.

Lemma Insert_accessed s key value :
  (∀ key l, concurrent_map_ s !! key = Some l → is_Some (records s !! l)) →
  accessed s (Insert cfg now s key value).2.
Proof.
  intros Halloc. unfold Insert. pose proof (fresh_record s) as Hf.
  set (l0 := fresh (dom (records s))) in *. simpl.
  assert (∀ key, concurrent_map_ s !! key ≠ Some l0) as Hno.
  { intros k Hk. destruct (Halloc _ _ Hk). congruence. }
  assert (accessed s (with_map (concurrent_map_ s) (with_records
      (<[l0 := NewEntry now value (map_entry_lifetime_seconds_ cfg)]> (records s)) s))) as Hacc.
  { apply accessed_allocate; [done|done|done|by left]. }
  destruct (concurrent_map_ s !! key) as [l|] eqn:Hk.
  - rewrite (ConcurrentMap.Insert_Some _ _ _ _ Hk); simpl. destruct (Halloc _ _ Hk) as [r Hl].
    rewrite lookup_insert_ne, Hl by naive_solver. simpl.
    destruct (access cfg now r) as [r'|] eqn:Ha; simpl; [|done].
    eapply accessed_trans; [exact Hacc|done|].
    apply access_flags in Ha as (? & ? & ?).
    set (s2 := with_map _ _). assert (records s2 !! l = Some r) as Hl2.
    { simpl. rewrite lookup_insert_ne by naive_solver. done. }
    by apply (accessed_update s2 l r r' Hl2).
  - rewrite (ConcurrentMap.Insert_None _ _ _ Hk); simpl. rewrite lookup_insert_eq; simpl.
    apply accessed_allocate; [done|done|done|]. right. by exists key.
Qed.

Lemma Find_accessed s key : accessed s (Find cfg now s key).2.
Proof.
  unfold Find. destruct (concurrent_map_ s !! key) as [l|] eqn:Hk.
  - rewrite (ConcurrentMap.Find_Some _ _ _ Hk); simpl.
    destruct (records s !! l) as [r|] eqn:Hl; [|apply accessed_refl].
    destruct (access cfg now r) as [r'|] eqn:Ha; simpl; [|apply accessed_refl].
    apply access_flags in Ha as (? & ? & ?). by eapply accessed_update.
  - rewrite (ConcurrentMap.Find_None _ _ Hk). apply accessed_refl.
Qed.

Lemma write_evictable_accessed flag s key : accessed s (write_evictable cfg flag now s key).2.
Proof.
  unfold write_evictable. destruct (concurrent_map_ s !! key) as [l|] eqn:Hk.
  - rewrite (ConcurrentMap.Find_Some _ _ _ Hk); simpl.
    destruct (records s !! l) as [r|] eqn:Hl; [|apply accessed_refl].
    destruct (being_evicted r) eqn:He; simpl; [apply accessed_refl|].
    apply (accessed_update _ _ r); [done| |congruence].
    destruct (extend_entry_lifetime_on_access_ cfg); simpl; [apply ExtendExpiration_flags|done].
  - rewrite (ConcurrentMap.Find_None _ _ Hk). apply accessed_refl.
Qed.

End operations_accessed.

Lemma Erase_map s key :
  (Erase s key).2 = with_map (delete key (concurrent_map_ s)) s.
Proof.
  unfold Erase. destruct (concurrent_map_ s !! key) eqn:Hk.
  - by rewrite (ConcurrentMap.Erase_Some _ _ _ Hk).
  - rewrite (ConcurrentMap.Erase_None _ _ Hk); simpl. by rewrite delete_id by done.
Qed.

Lemma Erase_invariant s key u b :
  invariant (mkSystem s u b) → invariant (mkSystem (Erase s key).2 u b).
Proof.
  rewrite Erase_map. intros []; constructor; simpl in *; try done.
  - intros key0 l [_ Hk]%lookup_delete_Some. naive_solver.
  - intros key1 key2 l [_ H1]%lookup_delete_Some [_ H2]%lookup_delete_Some. naive_solver.
  - intros key0 key' l Hu [_ Hk]%lookup_delete_Some. naive_solver.
  - intros key0 l r [_ Hk]%lookup_delete_Some. naive_solver.
Qed.

Section rounds.
  Variable cfg : Config.

(** What a round does: it selects the elements whose record is unlocked,
    evictable and expired, marks those records and asks the owner about each;
    when there is none it asks for the next round. *)
Lemma RunGarbageCollector_spec locked now s :
  is_running_ s = true →
  let els := elements_of locked now s (map_to_list (concurrent_map_ s)).*1 in
  let s' := with_records (mark_evicted (records s) els.*2) s in
  RunGarbageCollector cfg locked now SuccessExecutionResult s
  = if Nat.eqb (length els) 0
    then (s', [ScheduleFor (expiration_after now (map_entry_lifetime_seconds_ cfg))])
    else (with_pending (Z.of_nat (length els)) s', deletion_calls (with_pending (Z.of_nat (length els)) s') els).
Proof.
  intros Hr els s'. unfold RunGarbageCollector; simpl. rewrite select_elements_spec.
  fold els. fold s'. destruct (Nat.eqb (length els) 0); [|done].
  unfold ScheduleGarbageCollection; simpl. by rewrite Hr.
Qed.

Lemma deletion_calls_elements s els :
  (∀ key l, (key, l) ∈ els → is_Some (records s !! l)) →
  omap deletion_element (deletion_calls s els) = els ∧ existsb schedules (deletion_calls s els) = false.
Proof.
  induction els as [|[key l] els IH]; intros Hall; [done|].
  destruct (Hall key l) as [r Hr]; [by left|].
  destruct IH as [IH1 IH2]; [intros key' l' ?; apply (Hall key'); by right|].
  assert (deletion_calls s ((key, l) :: els)
    = OnBeforeElementDeletion key (entry r) (key, l) :: deletion_calls s els) as ->.
  { unfold deletion_calls; simpl. by rewrite Hr. }
  split; [|exact IH2]. simpl. f_equal. exact IH1.
Qed.

(** The locations a round selects are different: keys do not share records. *)
Lemma elements_of_locs locked now s keys :
  NoDup keys →
  (∀ k1 k2 l, concurrent_map_ s !! k1 = Some l → concurrent_map_ s !! k2 = Some l → k1 = k2) →
  NoDup (elements_of locked now s keys).*2.
Proof.
  intros Hk Hinj. pose proof (elements_of_NoDup locked now s keys Hk) as Hn.
  pose proof (λ k l, proj1 (elem_of_elements_of locked now s keys k l)) as Hel.
  induction (elements_of locked now s keys) as [|[k l] els IH]; simpl in *; [constructor|].
  apply NoDup_cons in Hn as [Hnot Hn]. constructor.
  - intros ([k' l'] & -> & Hin)%list_elem_of_fmap. apply Hnot. simpl.
    destruct (Hel k l') as [_ [H1 _]%select_element_Some]; [by left|].
    destruct (Hel k' l') as [_ [H2 _]%select_element_Some]; [by right|].
    rewrite (Hinj _ _ _ H1 H2). apply list_elem_of_fmap. by exists (k', l').
  - apply IH; [done|]. intros. apply Hel. by right.
Qed.

Lemma mark_evicted_flags r ls l x' :
  mark_evicted r ls !! l = Some x' →
  ∃ x, r !! l = Some x ∧ is_evictable x' = is_evictable x ∧ entry x' = entry x ∧
    being_evicted x' = being_evicted x || bool_decide (l ∈ ls).
Proof.
  rewrite mark_evicted_lookup. intros (x & Hx & ->)%fmap_Some. exists x. split; [done|].
  case_decide; [rewrite bool_decide_true by done|rewrite bool_decide_false by done];
    simpl; by rewrite ?orb_true_r, ?orb_false_r.
Qed.

Lemma map_keys_NoDup s : NoDup (map_to_list (concurrent_map_ s)).*1.
Proof. apply NoDup_fst_map_to_list. Qed.

Lemma elem_of_round locked now s key l :
  (key, l) ∈ elements_of locked now s (map_to_list (concurrent_map_ s)).*1 ↔
  select_element locked now s key = Some l.
Proof.
  rewrite elem_of_elements_of. split; [by intros [_ ?]|]. intros Hs. split; [|done].
  apply select_element_Some in Hs as [Hk _].
  apply list_elem_of_fmap. exists (key, l). split; [done|]. by apply elem_of_map_to_list.
Qed.

(** Marking the elements of a round, when no callback is unanswered, gives a
    state whose unanswered callbacks are those elements. *)
Lemma round_invariant locked now s b :
  let els := elements_of locked now s (map_to_list (concurrent_map_ s)).*1 in
  invariant (mkSystem s [] true) → (b = true ↔ els = []) →
  invariant (mkSystem
    (with_pending (Z.of_nat (length els)) (with_records (mark_evicted (records s) els.*2) s)) els b).
Proof.
  intros els I Hb.
  assert (∀ k l, (k, l) ∈ els → ∃ r, concurrent_map_ s !! k = Some l ∧ records s !! l = Some r ∧
    is_evictable r = true) as Hels.
  { intros k l (? & r & ? & _ & ? & _)%elem_of_round%select_element_Some. eauto. }
  destruct I; constructor; simpl in *; try done.
  - intros key l Hk. rewrite mark_evicted_lookup. apply fmap_is_Some. eauto.
  - intros l r' (r & Hl & -> & _ & Hbe)%mark_evicted_flags Hr'. rewrite Hbe in Hr'.
    apply orb_true_iff in Hr' as [?|Hin%bool_decide_eq_true]; [eauto|].
    apply list_elem_of_fmap in Hin as ([k l'] & -> & Hin). destruct (Hels _ _ Hin) as (? & ? & ? & ?).
    simpl in *. congruence.
  - apply elements_of_NoDup, map_keys_NoDup.
  - apply elements_of_locs; [apply map_keys_NoDup|done].
  - intros key l Hin. destruct (Hels _ _ Hin) as (r & _ & Hr & _). rewrite mark_evicted_lookup, Hr; simpl.
    eexists; split; [done|]. rewrite decide_True; [done|].
    apply list_elem_of_fmap. by exists (key, l).
  - intros key key' l Hin Hk. destruct (Hels _ _ Hin) as (r & ? & _). eauto.
  - intros key l r' Hk (r & Hl & _ & _ & Hbe)%mark_evicted_flags Hr'. rewrite Hbe in Hr'.
    apply orb_true_iff in Hr' as [?|Hin%bool_decide_eq_true].
    + exfalso. assert ((key, l) ∈ @nil (K * loc)) by eauto. set_solver.
    + apply list_elem_of_fmap in Hin as ([k l'] & -> & Hin).
      destruct (Hels _ _ Hin) as (? & ? & _). simpl in *. by rewrite (inv_inj0 key k l').
Qed.

(** The effect of a round on the state, and the callbacks it makes. *)
Lemma RunGarbageCollector_effect locked now s s' actions :
  is_running_ s = true →
  RunGarbageCollector cfg locked now SuccessExecutionResult s = (s', actions) →
  let els := elements_of locked now s (map_to_list (concurrent_map_ s)).*1 in
  s' = with_pending (if Nat.eqb (length els) 0 then pending_garbage_collection_callbacks_ s
                     else Z.of_nat (length els)) (with_records (mark_evicted (records s) els.*2) s) ∧
  omap deletion_element actions = els ∧ existsb schedules actions = Nat.eqb (length els) 0.
Proof.
  intros Hr Hg els. rewrite RunGarbageCollector_spec in Hg by done. cbv zeta in Hg. fold els in Hg.
  destruct (Nat.eqb (length els) 0) eqn:Hlen; injection Hg as <- <-.
  - apply Nat.eqb_eq, length_zero_iff_nil in Hlen. by rewrite Hlen.
  - split; [done|]. apply deletion_calls_elements. intros key l Hin. simpl.
    apply elem_of_round, select_element_Some in Hin as (_ & r & Hl & _).
    rewrite mark_evicted_lookup, Hl. by eexists.
Qed.

Lemma RunGarbageCollector_invariant locked now s s' actions :
  RunGarbageCollector cfg locked now SuccessExecutionResult s = (s', actions) →
  invariant (mkSystem s [] true) →
  invariant (mkSystem s' (omap deletion_element actions) (existsb schedules actions)).
Proof.
  intros Hg I. apply RunGarbageCollector_effect in Hg as (-> & -> & ->); [|apply (inv_running _ I)].
  set (els := elements_of _ _ _ _).
  replace (if Nat.eqb (length els) 0 then pending_garbage_collection_callbacks_ s
           else Z.of_nat (length els)) with (Z.of_nat (length els)).
  - apply round_invariant; [done|]. fold els. by destruct els.
  - pose proof (inv_pending _ I) as Hp. simpl in Hp. rewrite Hp. by destruct els.
Qed.

End rounds.

Section answers.
  Variable cfg : Config.

(** What an answer does to the records and the map, before the counter. *)
Definition answered (s : AutoExpiryConcurrentMap) (key : K) (l : loc) (can_delete : bool)
  : AutoExpiryConcurrentMap :=
  if can_delete && bool_decide (is_Some (concurrent_map_ s !! key))
  then with_map (delete key (concurrent_map_ s)) s
  else with_records (alter (set_being_evicted false) l (records s)) s.

Lemma OnRemoveEntryFromCacheLogged_spec now s key l can_delete :
  is_running_ s = true →
  OnRemoveEntryFromCacheLogged cfg now SuccessExecutionResult s (key, l) can_delete
  = (with_pending (fetch_sub_one (pending_garbage_collection_callbacks_ s)) (answered s key l can_delete),
     if pending_garbage_collection_callbacks_ s =? 1
     then [ScheduleFor (expiration_after now (map_entry_lifetime_seconds_ cfg))] else []).
Proof.
  intros Hr. unfold OnRemoveEntryFromCacheLogged, answered, ScheduleGarbageCollection, Erase.
  destruct can_delete; [destruct (concurrent_map_ s !! key) eqn:Hk|].
  - rewrite (ConcurrentMap.Erase_Some _ _ _ Hk), bool_decide_true by by eexists. simpl. rewrite Hr.
    by destruct (_ =? 1).
  - rewrite (ConcurrentMap.Erase_None _ _ Hk), bool_decide_false by by intros []. simpl. rewrite Hr.
    by destruct (_ =? 1).
  - simpl. rewrite Hr. by destruct (_ =? 1).
Qed.

Lemma alter_evicted_lookup (r : gmap loc AutoExpiryConcurrentMapEntry) l l' x' :
  alter (set_being_evicted false) l r !! l' = Some x' →
  ∃ x, r !! l' = Some x ∧ is_evictable x' = is_evictable x ∧ entry x' = entry x ∧
    (being_evicted x' = true → being_evicted x = true ∧ l' ≠ l).
Proof.
  destruct (decide (l' = l)) as [->|].
  - rewrite lookup_alter_eq. intros (x & -> & ->)%fmap_Some. exists x. by split_and!.
  - rewrite lookup_alter_ne by done. intros Hx. exists x'. by split_and!.
Qed.

Lemma answered_invariant s key l can_delete u1 u2 b n :
  invariant (mkSystem s (u1 ++ (key, l) :: u2) false) →
  n = Z.of_nat (length (u1 ++ u2)) → (b = true ↔ u1 ++ u2 = []) →
  invariant (mkSystem (with_pending n (answered s key l can_delete)) (u1 ++ u2) b).
Proof.
  intros I -> Hb. pose proof (inv_keys _ I) as Hk. pose proof (inv_locs _ I) as Hl. simpl in Hk, Hl.
  rewrite fmap_app, fmap_cons in Hk. rewrite fmap_app, fmap_cons in Hl. apply NoDup_app in Hk as (Hk1 & Hk12 & Hk2).
  apply NoDup_app in Hl as (Hl1 & Hl12 & Hl2). apply NoDup_cons in Hk2 as [Hk2' Hk2].
  apply NoDup_cons in Hl2 as [Hl2' Hl2]. simpl in *.
  assert (∀ k' l', (k', l') ∈ u1 ++ u2 → (k', l') ∈ u1 ++ (key, l) :: u2) as Hsub by set_solver.
  assert (∀ k' l', (k', l') ∈ u1 ++ (key, l) :: u2 → k' ≠ key ∨ l' ≠ l → (k', l') ∈ u1 ++ u2) as Hsup.
  { intros k' l' Hin Hne. apply elem_of_app in Hin as [?|[?|?]%elem_of_cons]; set_solver. }
  assert (∀ k' l', (k', l') ∈ u1 ++ u2 → l' ≠ l) as Hloc.
  { intros k' l' [Hin|Hin]%elem_of_app ->.
    - apply (Hl12 l); [apply list_elem_of_fmap; by exists (k', l)|by left].
    - apply Hl2', list_elem_of_fmap. by exists (k', l). }
  assert (NoDup (u1 ++ u2).*1 ∧ NoDup (u1 ++ u2).*2) as [? ?].
  { rewrite !fmap_app, !NoDup_app. set_solver. }
  destruct I; simpl in *. unfold answered.
  destruct (can_delete && bool_decide (is_Some (concurrent_map_ s !! key))); constructor; simpl; try done.
  - intros k l0 [_ ?]%lookup_delete_Some. eauto.
  - intros k1 k2 l0 [_ ?]%lookup_delete_Some [_ ?]%lookup_delete_Some. eauto.
  - intros k l0 Hin. eauto.
  - intros k k' l0 Hin [_ ?]%lookup_delete_Some. eauto.
  - intros k l0 r [? ?]%lookup_delete_Some ? ?. apply Hsup; eauto.
  - intros k l0 Hin. apply lookup_alter_is_Some. eauto.
  - intros l0 r (x & ? & -> & _ & Hx)%alter_evicted_lookup [? _]%Hx. eauto.
  - intros k l0 Hin. rewrite lookup_alter_ne by (apply not_eq_sym; eauto). eauto.
  - intros k k' l0 Hin Hm. eauto.
  - intros k l0 r Hm (x & ? & _ & _ & Hx)%alter_evicted_lookup [? ?]%Hx. apply Hsup; eauto.
Qed.

Lemma answer_invariant now s key l can_delete u1 u2 b s' actions :
  OnRemoveEntryFromCacheLogged cfg now SuccessExecutionResult s (key, l) can_delete = (s', actions) →
  invariant (mkSystem s (u1 ++ (key, l) :: u2) b) →
  invariant (mkSystem s' (u1 ++ u2) (b || existsb schedules actions)).
Proof.
  intros Ha I. rewrite OnRemoveEntryFromCacheLogged_spec in Ha by apply (inv_running _ I).
  pose proof (inv_pending _ I) as Hp. pose proof (inv_round _ I) as Hb. simpl in Hp, Hb.
  assert (b = false) as ->.
  { destruct b; [|done]. exfalso. destruct Hb as [Hb _]. specialize (Hb eq_refl). by destruct u1. }
  assert (Z.of_nat (length (u1 ++ (key, l) :: u2)) = Z.of_nat (length (u1 ++ u2)) + 1) as Hlen
    by (rewrite !length_app; simpl; lia).
  injection Ha as <- <-. apply answered_invariant; [done| |].
  - unfold fetch_sub_one. rewrite Hp. case_match; lia.
  - rewrite Hp, Hlen. destruct (u1 ++ u2) as [|e u]; [done|].
    rewrite (proj2 (Z.eqb_neq _ 1)) by (simpl; lia). by split.
Qed.

End answers.

(** Cases of a step, with the names the proofs below use. *)
Ltac step_cases Hs :=
  destruct Hs as [now k v s u b|now k s u b|k s u b|now k s u b|now k s u b
    |locked now s u s' actions Hg|now k l' can_delete s u1 u2 b s' actions Ha].

Lemma step_invariant cfg e σ σ' : step cfg e σ σ' → invariant σ → invariant σ'.
Proof.
  intros Hs I. destruct Hs; try (by eapply accessed_invariant;
    [first [apply Find_accessed | apply write_evictable_accessed]|]).
  - eapply accessed_invariant; [|done]. apply Insert_accessed, (inv_alloc _ I).
  - by apply Erase_invariant.
  - assert (u = []) as -> by (by apply (inv_round _ I)). simpl.
    by eapply RunGarbageCollector_invariant.
  - by eapply answer_invariant.
Qed.

Lemma reachable_invariant cfg allowed σ : reachable cfg allowed σ → invariant σ.
Proof. induction 1; [apply initial_invariant|by eapply step_invariant]. Qed.

(** ** Pinned entries *)

(** [key] is in the map with a value, and its eviction is disabled. *)
Definition pinned (s : AutoExpiryConcurrentMap) (key : K) (value : V) : Prop :=
  ∃ l r, concurrent_map_ s !! key = Some l ∧ records s !! l = Some r ∧
    is_evictable r = false ∧ entry r = value.

Definition keeps_pin (key : K) (e : Event) : Prop :=
  match e with
  | EvErase _ => False
  | EvEnableEviction key' => key' ≠ key
  | _ => True
  end.

(** Without [Erase], an unanswered callback's key still holds its record. *)
Definition held (σ : System) : Prop :=
  ∀ key l, (key, l) ∈ unanswered σ → concurrent_map_ (map_state σ) !! key = Some l.

Lemma Insert_keeps cfg now s key value key' l r :
  (∀ k l, concurrent_map_ s !! k = Some l → is_Some (records s !! l)) →
  concurrent_map_ s !! key' = Some l → records s !! l = Some r →
  concurrent_map_ (Insert cfg now s key value).2 !! key' = Some l ∧
  ∃ r', records (Insert cfg now s key value).2 !! l = Some r' ∧
    is_evictable r' = is_evictable r ∧ entry r' = entry r.
Proof.
  intros Halloc Hk' Hl. unfold Insert. pose proof (fresh_record s) as Hf.
  set (l0 := fresh (dom (records s))) in *. simpl.
  assert (l ≠ l0) as Hne by congruence.
  destruct (concurrent_map_ s !! key) as [l1|] eqn:Hk.
  - rewrite (ConcurrentMap.Insert_Some _ _ _ _ Hk); simpl. destruct (Halloc _ _ Hk) as [r1 Hl1].
    rewrite lookup_insert_ne, Hl1 by congruence. simpl.
    destruct (access cfg now r1) as [r'|] eqn:Ha; simpl; (split; [done|]).
    + apply access_flags in Ha as (? & ? & ?). destruct (decide (l1 = l)) as [->|].
      * rewrite lookup_insert_eq. exists r'. simplify_eq. done.
      * rewrite lookup_insert_ne, lookup_insert_ne by done. by exists r.
    + rewrite lookup_insert_ne by done. by exists r.
  - rewrite (ConcurrentMap.Insert_None _ _ _ Hk); simpl. rewrite lookup_insert_eq; simpl.
    rewrite !lookup_insert_ne by congruence. split; [done|]. by exists r.
Qed.

Lemma Find_keeps cfg now s key key' l r :
  concurrent_map_ s !! key' = Some l → records s !! l = Some r →
  concurrent_map_ (Find cfg now s key).2 !! key' = Some l ∧
  ∃ r', records (Find cfg now s key).2 !! l = Some r' ∧
    is_evictable r' = is_evictable r ∧ entry r' = entry r.
Proof.
  intros Hk' Hl. unfold Find. destruct (concurrent_map_ s !! key) as [l1|] eqn:Hk.
  - rewrite (ConcurrentMap.Find_Some _ _ _ Hk); simpl.
    destruct (records s !! l1) as [r1|] eqn:Hl1; [|split; [done|by exists r]].
    destruct (access cfg now r1) as [r'|] eqn:Ha; simpl; (split; [done|]); [|by exists r].
    apply access_flags in Ha as (? & ? & ?). destruct (decide (l1 = l)) as [->|].
    + rewrite lookup_insert_eq. exists r'. simplify_eq. done.
    + rewrite lookup_insert_ne by done. by exists r.
  - rewrite (ConcurrentMap.Find_None _ _ Hk). split; [done|]. by exists r.
Qed.

Lemma write_evictable_keeps cfg now flag s key key' l r :
  (∀ k1 k2 l, concurrent_map_ s !! k1 = Some l → concurrent_map_ s !! k2 = Some l → k1 = k2) →
  concurrent_map_ s !! key' = Some l → records s !! l = Some r →
  concurrent_map_ (write_evictable cfg flag now s key).2 !! key' = Some l ∧
  ∃ r', records (write_evictable cfg flag now s key).2 !! l = Some r' ∧
    (key' ≠ key ∨ flag = is_evictable r → is_evictable r' = is_evictable r) ∧ entry r' = entry r.
Proof.
  intros Hinj Hk' Hl. unfold write_evictable. destruct (concurrent_map_ s !! key) as [l1|] eqn:Hk.
  - rewrite (ConcurrentMap.Find_Some _ _ _ Hk); simpl.
    destruct (records s !! l1) as [r1|] eqn:Hl1; [|split; [done|by exists r]].
    destruct (being_evicted r1) eqn:He; simpl; (split; [done|]); [by exists r|].
    destruct (decide (l1 = l)) as [->|]; [|rewrite lookup_insert_ne by done; by exists r].
    simplify_eq. rewrite lookup_insert_eq. eexists; split; [done|]; simpl. split.
    + intros [[]|?]; [by eapply Hinj|done].
    + destruct (extend_entry_lifetime_on_access_ cfg); simpl; [apply ExtendExpiration_flags|done].
  - rewrite (ConcurrentMap.Find_None _ _ Hk). split; [done|]. by exists r.
Qed.

Lemma map_kept cfg e σ σ' key l :
  invariant σ → step cfg e σ σ' → no_erase e → (∀ l' b, e ≠ EvAnswer (key, l') b) →
  concurrent_map_ (map_state σ) !! key = Some l → concurrent_map_ (map_state σ') !! key = Some l.
Proof.
  intros I Hs He Hne Hk. destruct (inv_alloc _ I _ _ Hk) as [r Hl].
  step_cases Hs; cbn [map_state unanswered] in *; try done.
  - eapply Insert_keeps; [apply (inv_alloc _ I)|done|done].
  - by eapply Find_keeps.
  - eapply write_evictable_keeps; [apply (inv_inj _ I)|done|done].
  - eapply write_evictable_keeps; [apply (inv_inj _ I)|done|done].
  - apply RunGarbageCollector_effect in Hg as (-> & _); [done|apply (inv_running _ I)].
  - rewrite OnRemoveEntryFromCacheLogged_spec in Ha by apply (inv_running _ I).
    injection Ha as <- <-. unfold answered. destruct (can_delete && _); simpl; [|done].
    rewrite lookup_delete_ne by naive_solver. done.
Qed.

Lemma held_step cfg e σ σ' :
  invariant σ → step cfg e σ σ' → no_erase e → held σ → held σ'.
Proof.
  intros I Hs He Hh. pose proof (step_invariant _ _ _ _ Hs I) as I'.
  pose proof (map_kept cfg e σ σ') as Hkept. step_cases Hs; cbn [map_state unanswered] in *; try done;
    try (intros k0 l0 Hin; eapply (Hkept k0 l0); [done|by constructor|done|done|by apply Hh]).
  - assert (u = []) as -> by (by apply (inv_round _ I)).
    apply RunGarbageCollector_effect in Hg as (-> & -> & _); [|apply (inv_running _ I)].
    by intros k l [? _]%elem_of_round%select_element_Some.
  - intros k0 l0 Hin. simpl in *. pose proof (inv_keys _ I) as Hnd. simpl in Hnd.
    rewrite fmap_app, fmap_cons in Hnd. apply NoDup_app in Hnd as (_ & Hnd & [Hnd' _]%NoDup_cons).
    eapply (Hkept k0 l0); [done|by econstructor|done| |apply Hh; set_solver].
    intros l1 b' [= -> -> ->]. apply elem_of_app in Hin as [Hin|Hin].
    + apply (Hnd k0); [apply list_elem_of_fmap; by exists (k0, l0)|by left].
    + apply Hnd', list_elem_of_fmap. by exists (k0, l0).
Qed.

Lemma held_reachable cfg σ : reachable cfg no_erase σ → held σ.
Proof.
  induction 1; [by intros ???%elem_of_nil|].
  eapply held_step; [by eapply reachable_invariant|done..].
Qed.

Lemma pinned_step cfg e σ σ' key value :
  invariant σ → held σ → step cfg e σ σ' → keeps_pin key e →
  pinned (map_state σ) key value → pinned (map_state σ') key value.
Proof.
  intros I Hh Hs He (l & r & Hk & Hl & Hp & Hv). 
  step_cases Hs; cbn [map_state unanswered] in *; try done.
  - destruct (Insert_keeps cfg now s k v key l r) as (? & r' & ? & ? & ?);
      [apply (inv_alloc _ I)|done|done|]. exists l, r'. split_and!; congruence.
  - destruct (Find_keeps cfg now s k key l r) as (? & r' & ? & ? & ?); [done..|].
    exists l, r'. split_and!; congruence.
  - destruct (write_evictable_keeps cfg now false s k key l r) as (? & r' & ? & Hf & ?);
      [apply (inv_inj _ I)|done|done|]. rewrite Hp in Hf. exists l, r'.
    split_and!; [done|done|apply Hf; by right|congruence].
  - destruct (write_evictable_keeps cfg now true s k key l r) as (? & r' & ? & Hf & ?);
      [apply (inv_inj _ I)|done|done|]. exists l, r'.
    split_and!; [done|done|rewrite Hf; [done|by left]|congruence].
  - apply RunGarbageCollector_effect in Hg as (-> & _); [|apply (inv_running _ I)]. exists l. simpl.
    rewrite mark_evicted_lookup, Hl. eexists. split_and!; [done|done|by case_decide..].
  - rewrite OnRemoveEntryFromCacheLogged_spec in Ha by apply (inv_running _ I).
    injection Ha as <- <-. destruct (decide (k = key)) as [->|Hne].
    + exfalso. assert (concurrent_map_ s !! key = Some l') as Hk2 by (apply Hh; set_solver).
      destruct (inv_marked _ I key l') as (r' & Hr' & Hbe); simpl in *; [set_solver|].
      pose proof (inv_excl _ I l' r' Hr' Hbe). congruence.
    + exists l. unfold answered. destruct (can_delete && _); simpl.
      * exists r. rewrite lookup_delete_ne by done. by split_and!.
      * exists (if decide (l = l') then set_being_evicted false r else r).
        destruct (decide (l = l')) as [->|]; [rewrite lookup_alter_eq, Hl|rewrite lookup_alter_ne by done];
          by split_and!.
Qed.

(** ** Properties *)

(** In every state the map, its owner and the executor can reach, the
    counter counts the unanswered deletion callbacks, a round is scheduled
    exactly when there is none, and a record of the map is marked as being
    evicted exactly when its callback is unanswered, in which case it is not
    pinned. So no round is lost, no two rounds overlap and no entry stays
    blocked after its callback is answered. *)
Theorem eviction_consistent cfg allowed σ :
  reachable cfg allowed σ →
  pending_garbage_collection_callbacks_ (map_state σ) = Z.of_nat (length (unanswered σ)) ∧
  (round_scheduled σ = true ↔ unanswered σ = []) ∧
  (∀ key l r, concurrent_map_ (map_state σ) !! key = Some l → records (map_state σ) !! l = Some r →
    (being_evicted r = true ↔ (key, l) ∈ unanswered σ) ∧
    (being_evicted r = true → is_evictable r = true)).
Proof.
  intros I%reachable_invariant. split_and!; [apply (inv_pending _ I)|apply (inv_round _ I)..|].
  intros key l r Hk Hl. split; [|by apply (inv_excl _ I l)]. split; [by apply (inv_evicting _ I)|].
  intros Hin. destruct (inv_marked _ I key l Hin) as (? & ? & ?). by simplify_eq.
Qed.

(** C34: while no client calls [Erase], an entry whose eviction is disabled stays
    in the map with its value through any calls, rounds and answers, until its
    eviction is enabled again. *)
Theorem pinned_survives cfg σ σ' key value :
  reachable cfg no_erase σ → pinned (map_state σ) key value →
  rtc (λ σ σ', ∃ e, keeps_pin key e ∧ step cfg e σ σ') σ σ' →
  pinned (map_state σ') key value.
Proof.
  intros Hr Hp Hs. induction Hs as [|σ1 σ2 σ3 (e & He & Hstep) _ IH]; [done|]. apply IH.
  - eapply reachable_step; [done| |done]. by destruct e.
  - eapply pinned_step; [by eapply reachable_invariant|by eapply held_reachable|done..].
Qed.

(** A round asks the owner about exactly the elements whose record is not
    locked by another thread, is evictable and has expired, and marks exactly
    their records, changing nothing else of any record. *)
Theorem RunGarbageCollector_selects cfg locked now s s' actions :
  is_running_ s = true →
  RunGarbageCollector cfg locked now SuccessExecutionResult s = (s', actions) →
  (∀ key l, (key, l) ∈ omap deletion_element actions ↔
    concurrent_map_ s !! key = Some l ∧
    ∃ r, records s !! l = Some r ∧ locked l = false ∧ is_evictable r = true ∧ IsExpired now r = true) ∧
  (∀ l, records s' !! l
    = (λ r, set_being_evicted (being_evicted r || bool_decide (l ∈ (omap deletion_element actions).*2)) r)
      <$> records s !! l) ∧
  concurrent_map_ s' = concurrent_map_ s.
Proof.
  intros Hr Hg. apply RunGarbageCollector_effect in Hg as (-> & -> & _); [|done]. split_and!; [|simpl|done].
  - intros key l. by rewrite elem_of_round, select_element_Some.
  - intros l. rewrite mark_evicted_lookup. apply option_fmap_ext. intros [v be ev ex].
    case_decide; [rewrite bool_decide_true by done|rewrite bool_decide_false by done];
      unfold set_being_evicted; simpl; by rewrite ?orb_true_r, ?orb_false_r.
Qed.

End auto_expiry_map.

(** ** Concrete runs *)

Definition example_config : Config := mkConfig 10 true true.

Arguments step_insert {_ _ _ _ _} now {_ _ _ _ _}.
Arguments step_disable {_ _ _ _ _} now {_ _ _ _}.
Arguments step_round {_ _ _ _ _} locked now {_ _ _ _}.
Arguments step_answer {_ _ _ _ _} now {_ _ _ _ _ _ _ _ _}.

(** One entry, inserted at time 0, then a round after its expiration. *)
Definition inserted_at_0 : System (K := nat) (V := nat) :=
  mkSystem (Insert example_config 0 (map_state initial) 1%nat 7%nat).2 [] true.

Definition after_round : System (K := nat) (V := nat) :=
  mkSystem (RunGarbageCollector example_config (λ _, false) 20000000000 SuccessExecutionResult
              (map_state inserted_at_0)).1 [(1%nat, 1%positive)] false.

Lemma inserted_reachable allowed :
  allowed (EvInsert 1%nat 7%nat) → reachable example_config allowed inserted_at_0.
Proof.
  intros. eapply reachable_step; [apply reachable_initial|done|].
  apply (step_insert 0 (s := map_state initial) (u := []) (b := true)).
Qed.

Lemma after_round_reachable : reachable example_config (λ _, True) after_round.
Proof.
  eapply (reachable_step _ _ EvRound); [by apply inserted_reachable|done|].
  apply (step_round (s := map_state inserted_at_0) (u := []) (λ _, false) 20000000000
    (actions := [OnBeforeElementDeletion 1%nat 7%nat (1%nat, 1%positive)])).
  by vm_compute.
Qed.

Lemma eviction_consistent_witness :
  pending_garbage_collection_callbacks_ (map_state after_round) = Z.of_nat (length (unanswered after_round)) ∧
  (round_scheduled after_round = true ↔ unanswered after_round = []) ∧
  (∀ key l r, concurrent_map_ (map_state after_round) !! key = Some l →
    records (map_state after_round) !! l = Some r →
    (being_evicted r = true ↔ (key, l) ∈ unanswered after_round) ∧
    (being_evicted r = true → is_evictable r = true)).
Proof. apply (eviction_consistent example_config (λ _, True)), after_round_reachable. Defined.

Definition pinned_at_0 : System (K := nat) (V := nat) :=
  mkSystem (DisableEviction example_config 0 (map_state inserted_at_0) 1%nat).2 [] true.

Definition after_pinned_round : System (K := nat) (V := nat) :=
  mkSystem (RunGarbageCollector example_config (λ _, false) 20000000000 SuccessExecutionResult
              (map_state pinned_at_0)).1 [] true.

Lemma pinned_reachable : reachable example_config no_erase pinned_at_0.
Proof.
  eapply (reachable_step _ _ (EvDisableEviction 1%nat)); [by apply inserted_reachable|done|].
  apply (step_disable 0 (s := map_state inserted_at_0) (u := []) (b := true)).
Qed.

Lemma pinned_survives_witness : pinned (map_state after_pinned_round) 1%nat 7%nat.
Proof.
  apply (pinned_survives example_config pinned_at_0); [apply pinned_reachable| |].
  - exists 1%positive. eexists. by vm_compute.
  - apply rtc_once. exists EvRound. split; [done|].
    apply (step_round (s := map_state pinned_at_0) (u := []) (λ _, false) 20000000000
      (actions := [ScheduleFor 30000000000])). by vm_compute.
Defined.

Lemma RunGarbageCollector_selects_witness :
  (∀ key l, (key, l) ∈ [(1%nat, 1%positive)] ↔
    concurrent_map_ (map_state inserted_at_0) !! key = Some l ∧
    ∃ r, records (map_state inserted_at_0) !! l = Some r ∧ (λ _, false) l = false ∧
      is_evictable r = true ∧ IsExpired 20000000000 r = true) ∧
  (∀ l, records (map_state after_round) !! l
    = (λ r, set_being_evicted (being_evicted r || bool_decide (l ∈ [1%positive])) r)
      <$> records (map_state inserted_at_0) !! l) ∧
  concurrent_map_ (map_state after_round) = concurrent_map_ (map_state inserted_at_0).
Proof.
  apply (RunGarbageCollector_selects example_config (λ _, false) 20000000000
    (map_state inserted_at_0) (map_state after_round)
    [OnBeforeElementDeletion 1%nat 7%nat (1%nat, 1%positive)]); by vm_compute.
Defined.

(** The state above after the owner erases the key, inserts it again and pins
    the new entry, and the old callback is answered. *)
Definition erased_and_pinned : AutoExpiryConcurrentMap (K := nat) (V := nat) :=
  let s := map_state after_round in
  let s := (Erase s 1%nat).2 in
  let s := (Insert example_config 20000000000 s 1%nat 8%nat).2 in
  (DisableEviction example_config 20000000000 s 1%nat).2.

(** The guarantee needs that nobody calls [Erase]: eviction removes by key,
    so the answer to an old callback removes an entry inserted since, though it
    is pinned and has not expired. *)
Theorem stale_answer_evicts_pinned :
  pinned erased_and_pinned 1%nat 8%nat ∧
  concurrent_map_ (OnRemoveEntryFromCacheLogged example_config 20000000000 SuccessExecutionResult
    erased_and_pinned (1%nat, 1%positive) true).1 !! 1%nat = None.
Proof. split; [|by vm_compute]. exists 2%positive. eexists. by vm_compute. Qed.
