(* ===== verification/AutoExpiryView.v ===== *)
(** * The auto-expiry map as a map of entries

    The record store of [AutoExpiryMap] is what the code has; its clients think
    of a map from keys to entries. This file gives that map, the access
    operations on it, and the proof that the operations of the code implement
    them, with the lemmas clients use. *)

From S2P Require Import Prelude ExecutionResult ErrorCodes ConcurrentMap AutoExpiryMap.
From stdpp Require Import options.

Local Open Scope Z_scope.

Section view.
  Context {K V : Type} `{Countable K}.
  Implicit Types s : AutoExpiryConcurrentMap (K := K) (V := V).

(** The entries by key. *)
Definition entries s : gmap K AutoExpiryConcurrentMapEntry :=
  omap (λ l, records s !! l) (concurrent_map_ s).

(** The pointers of the map are valid and no two keys share a record. *)
Record well_formed_map s : Prop := {
  pointers_valid key l : concurrent_map_ s !! key = Some l → is_Some (records s !! l);
  pointers_distinct k1 k2 l :
    concurrent_map_ s !! k1 = Some l → concurrent_map_ s !! k2 = Some l → k1 = k2;
}.

(** ** The operations on entries *)

Section operations.
  Variable cfg : Config.

Definition entry_insert (now : Z) (m : gmap K AutoExpiryConcurrentMapEntry) (key : K) (value : V)
  : ExecutionResult * option V * gmap K AutoExpiryConcurrentMapEntry :=
  match m !! key with
  | None =>
      (SuccessExecutionResult, Some value,
       <[key := NewEntry now value (map_entry_lifetime_seconds_ cfg)]> m)
  | Some r =>
      match access cfg now r with
      | None => (FailureExecutionResult SC_AUTO_EXPIRY_CONCURRENT_MAP_ENTRY_BEING_DELETED, None, m)
      | Some r' =>
          (FailureExecutionResult SC_CONCURRENT_MAP_ENTRY_ALREADY_EXISTS, Some (entry r'), <[key := r']> m)
      end
  end.

Definition entry_find (now : Z) (m : gmap K AutoExpiryConcurrentMapEntry) (key : K)
  : ExecutionResult * option V * gmap K AutoExpiryConcurrentMapEntry :=
  match m !! key with
  | None => (FailureExecutionResult SC_CONCURRENT_MAP_ENTRY_DOES_NOT_EXIST, None, m)
  | Some r =>
      match access cfg now r with
      | None => (FailureExecutionResult SC_AUTO_EXPIRY_CONCURRENT_MAP_ENTRY_BEING_DELETED, None, m)
      | Some r' => (SuccessExecutionResult, Some (entry r'), <[key := r']> m)
      end
  end.

Definition entry_erase (m : gmap K AutoExpiryConcurrentMapEntry) (key : K)
  : ExecutionResult * gmap K (AutoExpiryConcurrentMapEntry (V := V)) :=
  match m !! key with
  | None => (FailureExecutionResult SC_CONCURRENT_MAP_ENTRY_DOES_NOT_EXIST, m)
  | Some _ => (SuccessExecutionResult, delete key m)
  end.

(** The entry's life is extended, when that is configured. *)
Definition extended (now : Z) (r : AutoExpiryConcurrentMapEntry) : AutoExpiryConcurrentMapEntry (V := V) :=
  if extend_entry_lifetime_on_access_ cfg
  then (ExtendExpiration now r (map_entry_lifetime_seconds_ cfg)).2 else r.

Definition entry_write_evictable (flag : bool) (now : Z) (m : gmap K AutoExpiryConcurrentMapEntry) (key : K)
  : ExecutionResult * gmap K (AutoExpiryConcurrentMapEntry (V := V)) :=
  match m !! key with
  | None => (FailureExecutionResult SC_CONCURRENT_MAP_ENTRY_DOES_NOT_EXIST, m)
  | Some r =>
      if being_evicted r then
        (FailureExecutionResult SC_AUTO_EXPIRY_CONCURRENT_MAP_ENTRY_BEING_DELETED, m)
      else (SuccessExecutionResult, <[key := set_evictable flag (extended now r)]> m)
  end.

(** The calls of a client. *)
Inductive AccessCall :=
| CallInsert (now : Z) (key : K) (value : V)
| CallFind (now : Z) (key : K)
| CallErase (key : K)
| CallDisableEviction (now : Z) (key : K)
| CallEnableEviction (now : Z) (key : K).

Definition access_call s (c : AccessCall) : ExecutionResult * option V * AutoExpiryConcurrentMap :=
  match c with
  | CallInsert now key value => Insert cfg now s key value
  | CallFind now key => Find cfg now s key
  | CallErase key => let '(r, s') := Erase s key in (r, None, s')
  | CallDisableEviction now key => let '(r, s') := DisableEviction cfg now s key in (r, None, s')
  | CallEnableEviction now key => let '(r, s') := EnableEviction cfg now s key in (r, None, s')
  end.

Definition entry_call (m : gmap K AutoExpiryConcurrentMapEntry) (c : AccessCall)
  : ExecutionResult * option V * gmap K AutoExpiryConcurrentMapEntry :=
  match c with
  | CallInsert now key value => entry_insert now m key value
  | CallFind now key => entry_find now m key
  | CallErase key => let '(r, m') := entry_erase m key in (r, None, m')
  | CallDisableEviction now key => let '(r, m') := entry_write_evictable false now m key in (r, None, m')
  | CallEnableEviction now key => let '(r, m') := entry_write_evictable true now m key in (r, None, m')
  end.

(** A run of calls: their answers and the last state. *)
Fixpoint access_calls s (cs : list AccessCall)
  : list (ExecutionResult * option V) * AutoExpiryConcurrentMap :=
  match cs with
  | [] => ([], s)
  | c :: cs =>
      let '(r, v, s) := access_call s c in
      let '(rs, s) := access_calls s cs in ((r, v) :: rs, s)
  end.

Fixpoint entry_calls (m : gmap K AutoExpiryConcurrentMapEntry) (cs : list AccessCall)
  : list (ExecutionResult * option V) * gmap K AutoExpiryConcurrentMapEntry :=
  match cs with
  | [] => ([], m)
  | c :: cs =>
      let '(r, v, m) := entry_call m c in
      let '(rs, m) := entry_calls m cs in ((r, v) :: rs, m)
  end.

End operations.

(** ** Updates of the store, seen on the entries *)

Lemma entries_lookup s key l r :
  concurrent_map_ s !! key = Some l → records s !! l = Some r → entries s !! key = Some r.
Proof. intros Hk Hl. unfold entries. rewrite lookup_omap, Hk. done. Qed.

Lemma entries_Some s key r : entries s !! key = Some r ↔
  ∃ l, concurrent_map_ s !! key = Some l ∧ records s !! l = Some r.
Proof.
  unfold entries. rewrite lookup_omap. destruct (concurrent_map_ s !! key) as [l|]; simpl; naive_solver.
Qed.

Lemma entries_None s key : well_formed_map s → entries s !! key = None ↔ concurrent_map_ s !! key = None.
Proof.
  intros W. unfold entries. rewrite lookup_omap.
  destruct (concurrent_map_ s !! key) as [l|] eqn:Hk; simpl; [|done].
  destruct (pointers_valid _ W _ _ Hk) as [r ->]. done.
Qed.

(** A record of the map is written. *)
Lemma entries_write s key l r :
  well_formed_map s → concurrent_map_ s !! key = Some l →
  entries (with_records (<[l := r]> (records s)) s) = <[key := r]> (entries s) ∧
  well_formed_map (with_records (<[l := r]> (records s)) s).
Proof.
  intros W Hk. split.
  - apply map_eq. intros k. unfold entries; simpl. rewrite lookup_omap.
    destruct (decide (k = key)) as [->|Hne].
    + by rewrite Hk, lookup_insert_eq; simpl; rewrite lookup_insert_eq.
    + rewrite lookup_insert_ne by done. rewrite lookup_omap.
      destruct (concurrent_map_ s !! k) as [l'|] eqn:Hk'; simpl; [|done].
      rewrite lookup_insert_ne; [done|]. intros <-. apply Hne.
      by apply (pointers_distinct _ W k key l).
  - constructor; simpl; [|apply (pointers_distinct _ W)].
    intros k l' Hk'. apply lookup_insert_is_Some'. right. by apply (pointers_valid _ W k).
Qed.

(** A new record is stored, and not yet in the map. *)
Lemma entries_allocate s l r :
  well_formed_map s → records s !! l = None →
  entries (with_records (<[l := r]> (records s)) s) = entries s ∧
  well_formed_map (with_records (<[l := r]> (records s)) s) ∧
  (∀ key, concurrent_map_ s !! key ≠ Some l).
Proof.
  intros W Hl. assert (∀ key, concurrent_map_ s !! key ≠ Some l) as Hn.
  { intros key Hk. destruct (pointers_valid _ W _ _ Hk). congruence. }
  split_and!; [| |done].
  - apply map_eq. intros k. unfold entries; simpl. rewrite !lookup_omap.
    destruct (concurrent_map_ s !! k) as [l'|] eqn:Hk'; simpl; [|done].
    rewrite lookup_insert_ne; [done|]. intros <-. by destruct (Hn k).
  - constructor; simpl; [|apply (pointers_distinct _ W)].
    intros k l' Hk'. apply lookup_insert_is_Some'. right. by apply (pointers_valid _ W k).
Qed.

(** A key is bound to a record that no key has. *)
Lemma entries_bind s key l r :
  well_formed_map s → records s !! l = Some r → (∀ key, concurrent_map_ s !! key ≠ Some l) →
  entries (with_map (<[key := l]> (concurrent_map_ s)) s) = <[key := r]> (entries s) ∧
  well_formed_map (with_map (<[key := l]> (concurrent_map_ s)) s).
Proof.
  intros W Hl Hn. split.
  - unfold entries; simpl. apply (omap_insert_Some _ _ _ l r Hl).
  - constructor; simpl.
    + intros k l' Hk. apply lookup_insert_Some in Hk as [[<- <-]|[_ Hk]]; [done|].
      by apply (pointers_valid _ W k).
    + intros k1 k2 l' H1 H2.
      apply lookup_insert_Some in H1 as [[<- <-]|[Hn1 H1]];
        apply lookup_insert_Some in H2 as [[<- ?]|[Hn2 H2]]; try done; subst.
      * by destruct (Hn k2).
      * by destruct (Hn k1).
      * by apply (pointers_distinct _ W k1 k2 l').
Qed.

Lemma entries_erase s key : well_formed_map s →
  entries (with_map (delete key (concurrent_map_ s)) s) = delete key (entries s) ∧
  well_formed_map (with_map (delete key (concurrent_map_ s)) s).
Proof.
  intros W. split; [unfold entries; simpl; apply omap_delete|]. constructor; simpl.
  - intros k l Hk. apply lookup_delete_Some in Hk as [_ Hk]. by apply (pointers_valid _ W k).
  - intros k1 k2 l H1 H2. apply lookup_delete_Some in H1 as [_ H1], H2 as [_ H2].
    by apply (pointers_distinct _ W k1 k2 l).
Qed.

(** ** The operations implement the ones on entries *)

(** What an operation on records gives, seen on entries. *)
Definition implements {R} (out : R * AutoExpiryConcurrentMap) (spec : R * gmap K AutoExpiryConcurrentMapEntry)
  : Prop :=
  out.1 = spec.1 ∧ entries out.2 = spec.2 ∧ well_formed_map out.2.

Lemma implements_no_value (out : ExecutionResult * AutoExpiryConcurrentMap) spec : implements out spec →
  implements (let '(r, s) := out in (r, None : option V, s)) (let '(r, m) := spec in (r, None : option V, m)).
Proof. destruct out, spec. intros (Hr & He & W). simpl in *. subst. by split_and!. Qed.

Section implementation.
  Variable cfg : Config.

Lemma Insert_implements now s key value : well_formed_map s →
  implements (Insert cfg now s key value) (entry_insert cfg now (entries s) key value).
Proof.
  intros W. unfold Insert, entry_insert. pose proof (fresh_record s) as Hfresh.
  set (l := fresh (dom (records s))) in *.
  set (new := NewEntry now value (map_entry_lifetime_seconds_ cfg)).
  destruct (entries_allocate s l new W Hfresh) as (He & W' & Hn).
  set (s1 := with_records (<[l := new]> (records s)) s) in *.
  change (concurrent_map_ s) with (concurrent_map_ s1) in *.
  destruct (concurrent_map_ s1 !! key) as [l'|] eqn:Hk.
  - rewrite (ConcurrentMap.Insert_Some _ _ _ _ Hk).
    change (with_map (concurrent_map_ s1) s1) with s1.
    destruct (pointers_valid _ W' _ _ Hk) as [r Hr]. rewrite Hr.
    rewrite <- He. rewrite (entries_lookup _ _ _ _ Hk Hr). simpl.
    destruct (access cfg now r) as [r'|]; [|done].
    split; [done|]. by apply entries_write.
  - rewrite (ConcurrentMap.Insert_None _ _ _ Hk). rewrite <- He.
    assert (records s1 !! l = Some new) as Hl by apply lookup_insert_eq.
    assert (entries s1 !! key = None) as -> by by apply entries_None.
    destruct (entries_bind s1 key l new W' Hl Hn) as [He' W''].
    cbn [records with_map]. rewrite Hl. by split.
Qed.

Lemma Find_implements now s key : well_formed_map s →
  implements (Find cfg now s key) (entry_find cfg now (entries s) key).
Proof.
  intros W. unfold Find, entry_find. destruct (concurrent_map_ s !! key) as [l|] eqn:Hk.
  - rewrite (ConcurrentMap.Find_Some _ _ _ Hk). simpl.
    destruct (pointers_valid _ W _ _ Hk) as [r Hr]. rewrite Hr, (entries_lookup _ _ _ _ Hk Hr).
    destruct (access cfg now r) as [r'|]; [|done]. split; [done|]. by apply entries_write.
  - rewrite (ConcurrentMap.Find_None _ _ Hk). simpl.
    assert (entries s !! key = None) as -> by by apply entries_None. done.
Qed.

Lemma Erase_implements s key : well_formed_map s →
  implements (Erase s key) (entry_erase (entries s) key).
Proof.
  intros W. destruct (entries_erase s key W) as [He W'].
  unfold implements. rewrite !Erase_map, He. unfold Erase, entry_erase.
  destruct (concurrent_map_ s !! key) as [l|] eqn:Hk.
  - rewrite (ConcurrentMap.Erase_Some _ _ _ Hk).
    destruct (pointers_valid _ W _ _ Hk) as [r Hr]. by rewrite (entries_lookup _ _ _ _ Hk Hr).
  - rewrite (ConcurrentMap.Erase_None _ _ Hk).
    assert (entries s !! key = None) as Hn by by apply entries_None. rewrite Hn.
    split; [done|]. split; [|done]. by apply delete_id.
Qed.

Lemma write_evictable_implements flag now s key : well_formed_map s →
  implements (write_evictable cfg flag now s key) (entry_write_evictable cfg flag now (entries s) key).
Proof.
  intros W. unfold write_evictable, entry_write_evictable.
  destruct (concurrent_map_ s !! key) as [l|] eqn:Hk.
  - rewrite (ConcurrentMap.Find_Some _ _ _ Hk). simpl.
    destruct (pointers_valid _ W _ _ Hk) as [r Hr]. rewrite Hr, (entries_lookup _ _ _ _ Hk Hr).
    destruct (being_evicted r); [done|]. split; [done|]. by apply entries_write.
  - rewrite (ConcurrentMap.Find_None _ _ Hk). simpl.
    assert (entries s !! key = None) as -> by by apply entries_None. done.
Qed.

Lemma Keys_implements s : well_formed_map s →
  (Keys s).1 = SuccessExecutionResult ∧ NoDup (Keys s).2 ∧ (∀ key, key ∈ (Keys s).2 ↔ key ∈ dom (entries s)).
Proof.
  intros W. unfold Keys, ConcurrentMap.Keys. simpl. split_and!; [done|apply NoDup_fst_map_to_list|].
  intros key. rewrite elem_of_dom. split.
  - intros ([k l] & -> & Hl)%list_elem_of_fmap. apply elem_of_map_to_list in Hl. simpl.
    destruct (pointers_valid _ W _ _ Hl) as [r Hr]. exists r. by apply entries_Some; eauto.
  - intros [r Hr]. apply entries_Some in Hr as (l & Hl & _).
    apply list_elem_of_fmap. exists (key, l). split; [done|]. by apply elem_of_map_to_list.
Qed.

(** C36: any run of calls of [Insert], [Find], [Erase], [DisableEviction] and
    [EnableEviction] on a map whose pointers are valid and distinct gives the
    results and values the run gives on the map from keys to entries, ends with
    the same entries, and keeps the pointers valid and distinct: clients need
    not know that records are shared. *)
Theorem access_calls_refine s (cs : list AccessCall) :
  well_formed_map s →
  (access_calls cfg s cs).1 = (entry_calls cfg (entries s) cs).1 ∧
  entries (access_calls cfg s cs).2 = (entry_calls cfg (entries s) cs).2 ∧
  well_formed_map (access_calls cfg s cs).2.
Proof.
  assert (∀ s c, well_formed_map s → implements (access_call cfg s c) (entry_call cfg (entries s) c)) as Hcall.
  { clear. intros s [now key value|now key|key|now key|now key] W; simpl.
    - by apply Insert_implements.
    - by apply Find_implements.
    - pose proof (Erase_implements s key W) as Hi. by apply (implements_no_value _ _ Hi).
    - pose proof (write_evictable_implements false now s key W) as Hi. by apply (implements_no_value _ _ Hi).
    - pose proof (write_evictable_implements true now s key W) as Hi. by apply (implements_no_value _ _ Hi). }
  revert s. induction cs as [|c cs IH]; intros s W; [done|]. simpl.
  destruct (Hcall s c W) as (Hr & He & W').
  destruct (access_call cfg s c) as [[r v] s'], (entry_call cfg (entries s) c) as [[r' v'] m'].
  simpl in *. injection Hr as <- <-. subst m'. destruct (IH s' W') as (H1 & H2 & H3).
  destruct (access_calls cfg s' cs), (entry_calls cfg (entries s') cs). simpl in *. by subst.
Qed.

End implementation.

(** ** What the operations answer

    For a map that blocks entries while they are evicted and extends their life
    on access, as its clients configure it. *)

Lemma extended_flags now cfg (r : AutoExpiryConcurrentMapEntry (V := V)) :
  being_evicted (extended cfg now r) = being_evicted r ∧
  is_evictable (extended cfg now r) = is_evictable r ∧ entry (extended cfg now r) = entry r.
Proof. unfold extended. case_match; [apply ExtendExpiration_flags|done]. Qed.

Section answers.
  Variable cfg : Config.
  Variable now : Z.
  Hypothesis block : block_entry_while_eviction_ cfg = true.
  Hypothesis extend : extend_entry_lifetime_on_access_ cfg = true.

Lemma access_blocking (r : AutoExpiryConcurrentMapEntry (V := V)) :
  access cfg now r = if being_evicted r then None else Some (extended cfg now r).
Proof using block extend. unfold access, extended. rewrite block, extend. by destruct (being_evicted r). Qed.

Lemma Insert_answers s key value : well_formed_map s →
  ∃ s', well_formed_map s' ∧
    match entries s !! key with
    | None =>
        Insert cfg now s key value = (SuccessExecutionResult, Some value, s') ∧
        entries s' = <[key := NewEntry now value (map_entry_lifetime_seconds_ cfg)]> (entries s)
    | Some r =>
        if being_evicted r then
          Insert cfg now s key value
          = (FailureExecutionResult SC_AUTO_EXPIRY_CONCURRENT_MAP_ENTRY_BEING_DELETED, None, s') ∧
          entries s' = entries s
        else
          Insert cfg now s key value
          = (FailureExecutionResult SC_CONCURRENT_MAP_ENTRY_ALREADY_EXISTS, Some (entry r), s') ∧
          entries s' = <[key := extended cfg now r]> (entries s)
    end.
Proof using block extend.
  intros W. destruct (Insert_implements cfg now s key value W) as (Hr & He & W').
  destruct (Insert cfg now s key value) as [ro s'] eqn:Hi. simpl in *.
  exists s'. split; [done|]. unfold entry_insert in *.
  destruct (entries s !! key) as [r|]; [|by rewrite Hr, He].
  rewrite access_blocking in Hr, He. destruct (being_evicted r); [by rewrite Hr, He|].
  destruct (extended_flags now cfg r) as (_ & _ & <-). by rewrite Hr, He.
Qed.

Lemma Find_answers s key : well_formed_map s →
  ∃ s', well_formed_map s' ∧
    match entries s !! key with
    | None =>
        Find cfg now s key
        = (FailureExecutionResult SC_CONCURRENT_MAP_ENTRY_DOES_NOT_EXIST, None, s') ∧
        entries s' = entries s
    | Some r =>
        if being_evicted r then
          Find cfg now s key
          = (FailureExecutionResult SC_AUTO_EXPIRY_CONCURRENT_MAP_ENTRY_BEING_DELETED, None, s') ∧
          entries s' = entries s
        else
          Find cfg now s key = (SuccessExecutionResult, Some (entry r), s') ∧
          entries s' = <[key := extended cfg now r]> (entries s)
    end.
Proof using block extend.
  intros W. destruct (Find_implements cfg now s key W) as (Hr & He & W').
  destruct (Find cfg now s key) as [ro s'] eqn:Hi. simpl in *.
  exists s'. split; [done|]. unfold entry_find in *.
  destruct (entries s !! key) as [r|]; [|by rewrite Hr, He].
  rewrite access_blocking in Hr, He. destruct (being_evicted r); [by rewrite Hr, He|].
  destruct (extended_flags now cfg r) as (_ & _ & <-). by rewrite Hr, He.
Qed.

Lemma write_evictable_answers flag s key : well_formed_map s →
  ∃ s', well_formed_map s' ∧
    match entries s !! key with
    | None =>
        write_evictable cfg flag now s key
        = (FailureExecutionResult SC_CONCURRENT_MAP_ENTRY_DOES_NOT_EXIST, s') ∧ entries s' = entries s
    | Some r =>
        if being_evicted r then
          write_evictable cfg flag now s key
          = (FailureExecutionResult SC_AUTO_EXPIRY_CONCURRENT_MAP_ENTRY_BEING_DELETED, s') ∧
          entries s' = entries s
        else
          write_evictable cfg flag now s key = (SuccessExecutionResult, s') ∧
          entries s' = <[key := set_evictable flag (extended cfg now r)]> (entries s)
    end.
Proof.
  intros W. destruct (write_evictable_implements cfg flag now s key W) as (Hr & He & W').
  destruct (write_evictable cfg flag now s key) as [r' s'] eqn:Hi. simpl in *.
  exists s'. split; [done|]. unfold entry_write_evictable in *.
  destruct (entries s !! key) as [r|]; [|by rewrite Hr, He].
  by destruct (being_evicted r); rewrite Hr, He.
Qed.

Lemma Erase_answers s key : well_formed_map s →
  ∃ s', well_formed_map s' ∧ entries s' = delete key (entries s) ∧
    Erase s key
    = (if entries s !! key is Some _ then SuccessExecutionResult
       else FailureExecutionResult SC_CONCURRENT_MAP_ENTRY_DOES_NOT_EXIST, s').
Proof.
  intros W. destruct (Erase_implements s key W) as (Hr & He & W').
  destruct (Erase s key) as [r' s'] eqn:Hi. simpl in *.
  exists s'. unfold entry_erase in *. destruct (entries s !! key) eqn:Hc; simpl in *; subst; [done|].
  split_and!; [done| |done]. by rewrite He, delete_id.
Qed.

End answers.

Lemma empty_map_well_formed n b : well_formed_map (mkMap ∅ ∅ n b).
Proof. constructor; simpl; intros *; by rewrite lookup_empty. Qed.

Lemma empty_map_entries n b : entries (mkMap ∅ ∅ n b) = ∅.
Proof. done. Qed.

(** The states of the map's system are well formed. *)
Lemma invariant_well_formed σ : invariant σ → well_formed_map (map_state σ).
Proof. intros I. constructor; [apply (inv_alloc _ I)|apply (inv_inj _ I)]. Qed.

End view.

(** ** Examples *)

Lemma access_calls_refine_witness :
  let s := mkMap ∅ ∅ 0 true : AutoExpiryConcurrentMap (K := nat) (V := nat) in
  let cs := [CallInsert 0 1%nat 7%nat; CallInsert 1 1%nat 8%nat; CallDisableEviction 2 1%nat;
             CallFind 3 1%nat; CallErase 1%nat; CallFind 4 1%nat] in
  let cfg := mkConfig 10 true true in
  (access_calls cfg s cs).1 = (entry_calls cfg (entries s) cs).1 ∧
  entries (access_calls cfg s cs).2 = (entry_calls cfg (entries s) cs).2 ∧
  well_formed_map (access_calls cfg s cs).2.
Proof. intros s cs cfg. apply access_calls_refine, empty_map_well_formed. Defined.
