(* ===== verification/Serialization.v ===== *)
(** * Byte buffers and serialization

    Models [BytesBuffer] of [cc/core/interface/type_def.h] and
    [cc/core/common/serialization/src/serialization.h]: integers, uuids,
    versions and protobuf messages written to and read from a buffer at an
    offset. Protobuf is a library: a message type is an instance of
    [ProtoMessage], with the laws of [ProtoMessageLaws]. Offsets and sizes are
    [size_t]s whose sums wrap. A read or write outside the buffer's bytes is
    undefined and gives [None]. *)

From S2P Require Import Prelude ExecutionResult ErrorCodes Uuid.
From stdpp Require Import list_numbers.
From stdpp Require Import options.

Local Open Scope Z_scope.

(** ** Buffers *)

Abbreviation Byte := Z (only parsing).

Record BytesBuffer := mkBuffer {
  bytes : list Byte;
  buffer_length : Z;    (* the bytes in use *)
  capacity : Z;
}.

(** [BytesBuffer(size)]: zeroed, none in use. *)
Definition NewBytesBuffer (size : Z) : BytesBuffer := mkBuffer (replicate (Z.to_nat size) 0) 0 size.

(** [BytesBuffer(string)] *)
Definition BytesBufferOf (buffer_string : list Byte) : BytesBuffer :=
  mkBuffer buffer_string (Z.of_nat (length buffer_string)) (Z.of_nat (length buffer_string)).

(** [std::string(bytes->data(), buffer_length)] *)
Definition BufferContents (b : BytesBuffer) : list Byte := take (Z.to_nat (buffer_length b)) (bytes b).

Definition set_length (n : Z) (b : BytesBuffer) : BytesBuffer := mkBuffer (bytes b) n (capacity b).

(** The [int] a [size_t] is passed as. *)
Definition to_int (size : Z) : Z := (size + 2 ^ 31) mod 2 ^ 32 - 2 ^ 31.

(** Memory at [bytes->data() + offset]; outside of the vector, or for a negative
    size, it is undefined. *)
Definition memory_read (b : BytesBuffer) (offset size : Z) : option (list Byte) :=
  if bool_decide (0 ≤ size ∧ offset + size ≤ Z.of_nat (length (bytes b))) then
    Some (take (Z.to_nat size) (drop (Z.to_nat offset) (bytes b)))
  else None.

Definition memory_write (b : BytesBuffer) (offset : Z) (data : list Byte) : option BytesBuffer :=
  if bool_decide (offset + Z.of_nat (length data) ≤ Z.of_nat (length (bytes b))) then
    Some (mkBuffer (take (Z.to_nat offset) (bytes b) ++ data ++
                    drop (Z.to_nat offset + length data) (bytes b)) (buffer_length b) (capacity b))
  else None.

(** ** Integers *)

(** [T] is an unsigned integer of [size] bytes on a little-endian machine. The
    number of bytes written or read is the last component. *)
Definition SerializeInt (size : Z) (b : BytesBuffer) (buffer_offset value : Z)
  : option (ExecutionResult * BytesBuffer * Z) :=
  if capacity b <? u64 (buffer_offset + size) then
    Some (FailureExecutionResult SC_SERIALIZATION_BUFFER_NOT_WRITABLE, b, 0)
  else
    b' ← memory_write b buffer_offset (Z_to_little_endian size 8 value);
    Some (SuccessExecutionResult, b', size).

Definition DeserializeInt (size : Z) (b : BytesBuffer) (buffer_offset value : Z)
  : option (ExecutionResult * Z * Z) :=
  if buffer_length b <? u64 (buffer_offset + size) then
    Some (FailureExecutionResult SC_SERIALIZATION_BUFFER_NOT_READABLE, value, 0)
  else
    data ← memory_read b buffer_offset size;
    Some (SuccessExecutionResult, little_endian_to_Z 8 data, size).

(** ** Pairs of words: uuids and versions *)

Record Version := mkVersion { major : Z; minor : Z }.

#[export] Instance Version_eq_dec : EqDecision Version.
Proof. solve_decision. Defined.

(** [Serialize<Uuid>] and [Serialize<Version>] are the same code on the two
    fields. *)
Definition SerializeWords (b : BytesBuffer) (buffer_offset first second : Z)
  : option (ExecutionResult * BytesBuffer * Z) :=
  let size_of_object_in_bytes := 16 in
  if capacity b <? u64 (buffer_offset + size_of_object_in_bytes) then
    Some (FailureExecutionResult SC_SERIALIZATION_BUFFER_NOT_WRITABLE, b, 0)
  else
    '(r, b, bytes_serialized) ← SerializeInt 8 b buffer_offset first;
    if negb (Successful r) then Some (r, b, bytes_serialized)
    else
      '(r, b, bytes_serialized) ← SerializeInt 8 b (u64 (buffer_offset + bytes_serialized)) second;
      if negb (Successful r) then Some (r, b, bytes_serialized)
      else Some (SuccessExecutionResult, b, size_of_object_in_bytes).

Definition DeserializeWords (b : BytesBuffer) (buffer_offset first second : Z)
  : option (ExecutionResult * (Z * Z) * Z) :=
  let size_of_object_in_bytes := 16 in
  if buffer_length b <? u64 (buffer_offset + size_of_object_in_bytes) then
    Some (FailureExecutionResult SC_SERIALIZATION_BUFFER_NOT_READABLE, (first, second), 0)
  else
    '(r, first, bytes_deserialized) ← DeserializeInt 8 b buffer_offset first;
    if negb (Successful r) then Some (r, (first, second), bytes_deserialized)
    else
      '(r, second, bytes_deserialized) ←
        DeserializeInt 8 b (u64 (buffer_offset + bytes_deserialized)) second;
      if negb (Successful r) then Some (r, (first, second), bytes_deserialized)
      else Some (SuccessExecutionResult, (first, second), size_of_object_in_bytes).

Definition SerializeUuid (b : BytesBuffer) (buffer_offset : Z) (u : Uuid) :=
  SerializeWords b buffer_offset (high u) (low u).

Definition DeserializeUuid (b : BytesBuffer) (buffer_offset : Z) (u : Uuid)
  : option (ExecutionResult * Uuid * Z) :=
  '(r, (h, l), n) ← DeserializeWords b buffer_offset (high u) (low u);
  Some (r, mkUuid h l, n).

Definition SerializeVersion (b : BytesBuffer) (buffer_offset : Z) (v : Version) :=
  SerializeWords b buffer_offset (major v) (minor v).

Definition DeserializeVersion (b : BytesBuffer) (buffer_offset : Z) (v : Version)
  : option (ExecutionResult * Version * Z) :=
  '(r, (ma, mi), n) ← DeserializeWords b buffer_offset (major v) (minor v);
  Some (r, mkVersion ma mi, n).

(** ** Protobuf messages *)

(** [SerializeToArray] writes [ByteSizeLong] bytes and gives [false] when the
    message cannot be serialized; [ParseFromArray] gives [None] when it returns
    [false]. *)
Class ProtoMessage (M : Type) := {
  SerializeToArray : M → option (list Byte);
  ByteSizeLong : M → Z;
  ParseFromArray : list Byte → option M;
}.

(** What the library documents, for the messages [proto_valid] whose fields fit
    their types: they serialize to that many bytes, at most [proto_max], which
    parse back to the message. *)
Class ProtoMessageLaws (M : Type) `{ProtoMessage M} (proto_valid : M → Prop) (proto_max : Z) := {
  proto_bytes : M → list Byte;
  proto_serialize m : proto_valid m → SerializeToArray m = Some (proto_bytes m);
  proto_size m : proto_valid m → ByteSizeLong m = Z.of_nat (length (proto_bytes m));
  proto_size_bound m : proto_valid m → ByteSizeLong m ≤ proto_max;
  proto_max_int : proto_max < 2 ^ 31;
  proto_parse m : proto_valid m → ParseFromArray (proto_bytes m) = Some m;
}.

Section proto.
  Context {M : Type} `{ProtoMessage M}.

Definition CalculateSerializationByteSize (m : M) : ExecutionResult * Z :=
  (SuccessExecutionResult, u64 (8 + ByteSizeLong m)).

Definition SerializeProtoMessage (b : BytesBuffer) (buffer_offset : Z) (m : M)
  : option (ExecutionResult * BytesBuffer * Z) :=
  let size_of_serialized_proto := ByteSizeLong m in
  if capacity b <? u64 (buffer_offset + size_of_serialized_proto) then
    Some (FailureExecutionResult SC_SERIALIZATION_BUFFER_NOT_WRITABLE, b, 0)
  else
    match SerializeToArray m with
    | None => Some (FailureExecutionResult SC_SERIALIZATION_PROTO_SERIALIZATION_FAILED, b, 0)
    | Some data =>
        b' ← memory_write b buffer_offset data;
        Some (SuccessExecutionResult, b', size_of_serialized_proto)
    end.

(** The message is unchanged ([None]) when nothing is parsed. *)
Definition DeserializeProtoMessage (b : BytesBuffer) (buffer_offset message_length : Z)
  : option (ExecutionResult * option M) :=
  if buffer_length b <? u64 (buffer_offset + message_length) then
    Some (FailureExecutionResult SC_SERIALIZATION_BUFFER_NOT_READABLE, None)
  else if buffer_length b =? 0 then
    Some (FailureExecutionResult SC_SERIALIZATION_PROTO_DESERIALIZATION_FAILED, None)
  else
    data ← memory_read b buffer_offset (to_int message_length);
    match ParseFromArray data with
    | None => Some (FailureExecutionResult SC_SERIALIZATION_PROTO_DESERIALIZATION_FAILED, None)
    | Some m => Some (SuccessExecutionResult, Some m)
    end.

(** The overload that reads a string. *)
Definition DeserializeProtoString (proto_message : list Byte) : ExecutionResult * option M :=
  if Nat.eqb (length proto_message) 0 then
    (FailureExecutionResult SC_SERIALIZATION_PROTO_DESERIALIZATION_FAILED, None)
  else
    match ParseFromArray proto_message with
    | None => (FailureExecutionResult SC_SERIALIZATION_PROTO_DESERIALIZATION_FAILED, None)
    | Some m => (SuccessExecutionResult, Some m)
    end.

Definition ValidateVersion (version supported_version : Version) : ExecutionResult :=
  if negb (major version =? major supported_version) || negb (minor version =? minor supported_version)
  then FailureExecutionResult SC_SERIALIZATION_VERSION_IS_INVALID
  else SuccessExecutionResult.

(** [Serialize<Message>]: the size of the message, then the message. *)
Definition SerializeSizedMessage (b : BytesBuffer) (buffer_offset : Z) (m : M)
  : option (ExecutionResult * BytesBuffer * Z) :=
  let size_of_object_size_block := 8 in
  let size_of_serialized_proto := ByteSizeLong m in
  if capacity b <? u64 (u64 (buffer_offset + size_of_object_size_block) + size_of_serialized_proto) then
    Some (FailureExecutionResult SC_SERIALIZATION_BUFFER_NOT_WRITABLE, b, 0)
  else
    '(r, b, bytes_serialized) ← SerializeInt 8 b buffer_offset size_of_serialized_proto;
    if negb (Successful r) then Some (r, b, bytes_serialized)
    else
      match SerializeToArray m with
      | None => Some (FailureExecutionResult SC_SERIALIZATION_PROTO_SERIALIZATION_FAILED, b, bytes_serialized)
      | Some data =>
          b' ← memory_write b (buffer_offset + bytes_serialized) data;
          Some (SuccessExecutionResult, b', u64 (size_of_object_size_block + size_of_serialized_proto))
      end.

Definition DeserializeSizedMessage (b : BytesBuffer) (buffer_offset : Z)
  : option (ExecutionResult * option M * Z) :=
  let size_of_object_size_block := 8 in
  if buffer_length b <? u64 (buffer_offset + size_of_object_size_block) then
    Some (FailureExecutionResult SC_SERIALIZATION_BUFFER_NOT_READABLE, None, 0)
  else
    '(r, size_of_serialized_proto, bytes_deserialized) ← DeserializeInt 8 b buffer_offset 0;
    if negb (Successful r) then Some (r, None, bytes_deserialized)
    else if buffer_length b <? u64 (u64 (buffer_offset + size_of_object_size_block) + size_of_serialized_proto) then
      Some (FailureExecutionResult SC_SERIALIZATION_BUFFER_NOT_READABLE, None, bytes_deserialized)
    else
      let total := u64 (size_of_object_size_block + size_of_serialized_proto) in
      if size_of_serialized_proto =? 0 then Some (SuccessExecutionResult, None, total)
      else
        data ← memory_read b (buffer_offset + bytes_deserialized) (to_int size_of_serialized_proto);
        match ParseFromArray data with
        | None => Some (FailureExecutionResult SC_SERIALIZATION_PROTO_DESERIALIZATION_FAILED, None, bytes_deserialized)
        | Some m => Some (SuccessExecutionResult, Some m, total)
        end.

(** The end of every serializing function: a buffer of the message's size, the
    message written at offset 0, and the buffer's length set. *)
Definition serialize_message (m : M) : option (ExecutionResult * BytesBuffer) :=
  '(execution_result, b, bytes_serialized) ←
    SerializeProtoMessage (NewBytesBuffer (ByteSizeLong m)) 0 m;
  if negb (result_eqb execution_result SuccessExecutionResult) then Some (execution_result, b)
  else Some (SuccessExecutionResult, set_length bytes_serialized b).

End proto.

(** A message with a field that is present, or is not its default, is not
    empty. *)
Class ProtoNotEmpty (M : Type) `{ProtoMessage M} (proto_valid : M → Prop) (proto_max : Z)
    `{!ProtoMessageLaws M proto_valid proto_max} : Prop :=
  proto_not_empty m : proto_valid m → proto_bytes m ≠ [].

(** A message type given by its fields and their parser. *)
Definition fields_message {M} (fields : M → list Z) (parse : list Z → option M) : ProtoMessage M := {|
  SerializeToArray m := Some (fields m);
  ByteSizeLong m := Z.of_nat (length (fields m));
  ParseFromArray := parse;
|}.

Definition fields_message_laws {M} (fields : M → list Z) (parse : list Z → option M)
    (valid : M → Prop) (max : Z)
    (Hsize : ∀ m, valid m → Z.of_nat (length (fields m)) ≤ max) (Hmax : max < 2 ^ 31)
    (Hparse : ∀ m, parse (fields m) = Some m) :
  @ProtoMessageLaws M (fields_message fields parse) valid max.
Proof.
  refine (@Build_ProtoMessageLaws M (fields_message fields parse) valid max fields _ _ _ _ _); done.
Defined.

(** ** Memory *)

Lemma to_int_id n : 0 ≤ n < 2 ^ 31 → to_int n = n.
Proof. intros Hn. unfold to_int. rewrite Z.mod_small; lia. Qed.

(** A buffer as the constructors make it: the vector has [capacity] bytes. *)
Definition valid_buffer (b : BytesBuffer) : Prop :=
  capacity b = Z.of_nat (length (bytes b)) ∧ 0 ≤ buffer_length b ≤ capacity b ∧ capacity b < 2 ^ 64.

Lemma memory_write_spec b offset data :
  0 ≤ offset → offset + Z.of_nat (length data) ≤ Z.of_nat (length (bytes b)) →
  ∃ b', memory_write b offset data = Some b' ∧
    buffer_length b' = buffer_length b ∧ capacity b' = capacity b ∧ length (bytes b') = length (bytes b) ∧
    memory_read b' offset (Z.of_nat (length data)) = Some data ∧
    ∀ o n, 0 ≤ o → 0 ≤ n → o + n ≤ offset ∨ offset + Z.of_nat (length data) ≤ o →
      memory_read b' o n = memory_read b o n.
Proof.
  intros Ho Hlen. unfold memory_write. rewrite bool_decide_true by done.
  eexists; split; [done|]. simpl.
  assert (length (take (Z.to_nat offset) (bytes b)) = Z.to_nat offset) as Ht by (rewrite length_take; lia).
  assert (length (take (Z.to_nat offset) (bytes b) ++ data ++ drop (Z.to_nat offset + length data) (bytes b))
    = length (bytes b)) as Hl by (rewrite !length_app, Ht, length_drop; lia).
  split_and!; [done|done|done| |].
  - unfold memory_read; simpl. rewrite Hl, bool_decide_true by lia. rewrite drop_app_length' by done.
    by rewrite Nat2Z.id, take_app_length.
  - intros o n Ho0 Hn0 Hdis. unfold memory_read; simpl. rewrite Hl.
    case_bool_decide as Hin; [|done]. f_equal. destruct Hdis as [Hdis|Hdis].
    + apply list_eq. intros i. destruct (decide (i < Z.to_nat n)%nat).
      * rewrite !lookup_take_lt, !lookup_drop by done. rewrite lookup_app_l by (rewrite Ht; lia).
        by rewrite lookup_take_lt by lia.
      * by rewrite !lookup_take_ge by lia.
    + f_equal. rewrite app_assoc. rewrite drop_app_ge by (rewrite length_app, Ht; lia).
      rewrite length_app, Ht, drop_drop. f_equal. lia.
Qed.

Lemma memory_read_set_length b n o k : memory_read (set_length n b) o k = memory_read b o k.
Proof. done. Qed.

(** ** Round trips *)

Lemma SerializeInt_spec size b offset value :
  valid_buffer b → 0 ≤ size → 0 ≤ offset → offset + size ≤ capacity b →
  ∃ b', SerializeInt size b offset value = Some (SuccessExecutionResult, b', size) ∧
    valid_buffer b' ∧ buffer_length b' = buffer_length b ∧ capacity b' = capacity b ∧
    memory_read b' offset size = Some (Z_to_little_endian size 8 value) ∧
    ∀ o n, 0 ≤ o → 0 ≤ n → o + n ≤ offset ∨ offset + size ≤ o → memory_read b' o n = memory_read b o n.
Proof.
  intros (Hcap & Hlen & Hmax) Hs Ho Hfit. unfold SerializeInt.
  rewrite u64_id by (unfold is_u64; lia). rewrite (proj2 (Z.ltb_ge _ _)) by lia.
  assert (Z.of_nat (length (Z_to_little_endian size 8 value)) = size) as Hl.
  { rewrite length_Z_to_little_endian by lia. lia. }
  destruct (memory_write_spec b offset (Z_to_little_endian size 8 value))
    as (b' & -> & Hb1 & Hb2 & Hb3 & Hb4 & Hb5); [done|lia|]. rewrite Hl in *.
  exists b'. split_and!; try done. unfold valid_buffer. rewrite Hb1, Hb2, Hb3. lia.
Qed.

Lemma DeserializeInt_spec size b offset value old :
  0 ≤ size → 0 ≤ offset → offset + size ≤ buffer_length b → buffer_length b < 2 ^ 64 →
  0 ≤ value < 2 ^ (size * 8) →
  memory_read b offset size = Some (Z_to_little_endian size 8 value) →
  DeserializeInt size b offset old = Some (SuccessExecutionResult, value, size).
Proof.
  intros Hs Ho Hfit Hmax Hv Hread. unfold DeserializeInt. rewrite u64_id by (unfold is_u64; lia).
  rewrite (proj2 (Z.ltb_ge _ _)) by lia. rewrite Hread. simpl.
  by rewrite little_endian_to_Z_to_little_endian, Z.mod_small by lia.
Qed.

(** Two words are read back from where they were written. *)
Lemma SerializeWords_spec b offset first second first' second' :
  valid_buffer b → 0 ≤ offset → offset + 16 ≤ capacity b → is_u64 first → is_u64 second →
  ∃ b', SerializeWords b offset first second = Some (SuccessExecutionResult, b', 16) ∧
    valid_buffer b' ∧ buffer_length b' = buffer_length b ∧
    (∀ o n, 0 ≤ o → 0 ≤ n → o + n ≤ offset ∨ offset + 16 ≤ o → memory_read b' o n = memory_read b o n) ∧
    ∀ n, offset + 16 ≤ n ≤ capacity b →
      DeserializeWords (set_length n b') offset first' second'
      = Some (SuccessExecutionResult, (first, second), 16).
Proof.
  intros Hb Ho Hfit Hf Hs. pose proof Hb as (Hcap & Hlen & Hmax). unfold SerializeWords.
  rewrite u64_id by (unfold is_u64; lia). rewrite (proj2 (Z.ltb_ge _ _)) by lia.
  destruct (SerializeInt_spec 8 b offset first) as (b1 & -> & Hv1 & Hl1 & Hc1 & Hr1 & Hf1); [done|lia..|].
  simpl. rewrite u64_id by (unfold is_u64; lia).
  destruct (SerializeInt_spec 8 b1 (offset + 8) second) as (b2 & -> & Hv2 & Hl2 & Hc2 & Hr2 & Hf2);
    [done|lia..|]. simpl.
  exists b2. split_and!; [done|done|lia| |].
  - intros o n ? ? Hdis. rewrite Hf2, Hf1 by lia. done.
  - intros n Hn. unfold DeserializeWords. simpl. rewrite u64_id by (unfold is_u64; lia).
    rewrite (proj2 (Z.ltb_ge _ _)) by lia. unfold is_u64 in *.
    rewrite (DeserializeInt_spec 8 (set_length n b2) offset first); simpl; try lia.
    2:{ rewrite memory_read_set_length, Hf2 by lia. done. }
    rewrite u64_id by (unfold is_u64; lia).
    rewrite (DeserializeInt_spec 8 (set_length n b2) (offset + 8) second); simpl; try lia; [done|].
    by rewrite memory_read_set_length.
Qed.

(** A uuid written into a buffer with room for it at an offset is read back
    from that offset, into whatever uuid, by every buffer length that covers it;
    16 bytes are written and read, and no other byte of the buffer changes. *)
Theorem SerializeUuid_roundtrip b offset u old :
  valid_buffer b → 0 ≤ offset → offset + 16 ≤ capacity b → valid_uuid u →
  ∃ b', SerializeUuid b offset u = Some (SuccessExecutionResult, b', 16) ∧
    (∀ n, offset + 16 ≤ n ≤ capacity b →
      DeserializeUuid (set_length n b') offset old = Some (SuccessExecutionResult, u, 16)) ∧
    (∀ o n, 0 ≤ o → 0 ≤ n → o + n ≤ offset ∨ offset + 16 ≤ o → memory_read b' o n = memory_read b o n).
Proof.
  intros Hb Ho Hfit [Hh Hl]. unfold SerializeUuid, DeserializeUuid.
  destruct (SerializeWords_spec b offset (high u) (low u) (high old) (low old))
    as (b' & -> & _ & _ & Hframe & Hread); [done..|].
  exists b'. split_and!; [done| |done]. intros n Hn. rewrite Hread by done. simpl. by destruct u.
Qed.

Section proto_laws.
  Context {M : Type} `{ProtoMessage M} (proto_valid : M → Prop) (proto_max : Z)
    `{!ProtoMessageLaws M proto_valid proto_max}.
  Implicit Types m : M.

Lemma proto_size_range m : proto_valid m → 0 ≤ ByteSizeLong m < 2 ^ 31.
Proof using Type*. intros Hm. rewrite proto_size at 1 by done. pose proof (proto_size_bound m Hm). pose proof proto_max_int. lia. Qed.

(** Serializing into a new buffer of the message's size gives its bytes. *)
Lemma SerializeProtoMessage_fresh m :
  proto_valid m →
  ∃ b, SerializeProtoMessage (NewBytesBuffer (ByteSizeLong m)) 0 m
    = Some (SuccessExecutionResult, b, ByteSizeLong m) ∧
    BufferContents (set_length (ByteSizeLong m) b) = proto_bytes m.
Proof using Type*.
  intros Hm. pose proof (proto_size_range m Hm) as Hs. pose proof (proto_size m Hm) as Hsize.
  unfold SerializeProtoMessage. rewrite u64_id by (unfold is_u64; lia).
  simpl. rewrite (proj2 (Z.ltb_ge _ _)) by lia. rewrite proto_serialize by done.
  unfold memory_write; simpl. rewrite length_replicate, bool_decide_true by lia. simpl.
  eexists; split; [done|]. unfold BufferContents; simpl.
  rewrite drop_ge by (rewrite length_replicate; lia). rewrite app_nil_r.
  apply take_ge. lia.
Qed.

(** What [serialize_message] wrote is the message's bytes. *)
Lemma serialize_message_spec m :
  proto_valid m →
  ∃ b, serialize_message m = Some (SuccessExecutionResult, b) ∧ BufferContents b = proto_bytes m ∧
    buffer_length b = ByteSizeLong m ∧ memory_read b 0 (ByteSizeLong m) = Some (proto_bytes m).
Proof using Type*.
  intros Hm. unfold serialize_message.
  destruct (SerializeProtoMessage_fresh m Hm) as (b & -> & Hb). simpl.
  eexists; split; [done|]. split_and!; [done|done|].
  unfold memory_read, BufferContents in *. simpl in *.
  pose proof (proto_size_range m Hm) as Hr. pose proof (proto_size m Hm) as Hs.
  assert (length (proto_bytes m) ≤ length (bytes b))%nat.
  { rewrite <- Hb, length_take. lia. }
  rewrite bool_decide_true by lia. change (Z.to_nat 0) with 0%nat. by rewrite drop_0, Hb.
Qed.

(** The buffer is what a string of the bytes gives: journaling it and reading it
    back keeps it. *)
Lemma serialize_message_stored m b :
  proto_valid m → serialize_message m = Some (SuccessExecutionResult, b) →
  BytesBufferOf (BufferContents b) = b.
Proof using Type*.
  intros Hm. pose proof (proto_size_range m Hm) as Hs. pose proof (proto_size m Hm) as Hsize.
  unfold serialize_message, SerializeProtoMessage. rewrite u64_id by (unfold is_u64; lia).
  simpl. rewrite (proj2 (Z.ltb_ge _ _)) by lia. rewrite proto_serialize by done.
  unfold memory_write; simpl. rewrite length_replicate, bool_decide_true by lia. simpl. intros [= <-].
  unfold BytesBufferOf, BufferContents, set_length; simpl.
  rewrite drop_ge by (rewrite length_replicate; lia). rewrite app_nil_r, take_ge by lia.
  by rewrite Hsize.
Qed.

(** A message read from the start of the buffer it was written to. *)
Lemma DeserializeProtoMessage_written `{!ProtoNotEmpty M proto_valid proto_max} m b :
  proto_valid m → serialize_message m = Some (SuccessExecutionResult, b) →
  DeserializeProtoMessage b 0 (buffer_length b) = Some (SuccessExecutionResult, Some m).
Proof using Type*.
  intros Hm Hb. destruct (serialize_message_spec m Hm) as (b' & Hb' & _ & Hlen & Hread).
  assert (b' = b) as -> by congruence. pose proof (proto_size_range m Hm) as Hr.
  assert (ByteSizeLong m ≠ 0) as Hnz.
  { rewrite proto_size by done. pose proof (proto_not_empty m Hm). by destruct (proto_bytes m). }
  unfold DeserializeProtoMessage. rewrite Hlen, u64_id by (unfold is_u64; lia).
  rewrite (proj2 (Z.ltb_ge _ _)), (proj2 (Z.eqb_neq _ _)) by lia.
  rewrite to_int_id by lia. rewrite Hread. simpl. by rewrite proto_parse.
Qed.

Lemma DeserializeProtoString_bytes m :
  proto_valid m → proto_bytes m ≠ [] →
  DeserializeProtoString (proto_bytes m) = (SuccessExecutionResult, Some m).
Proof using Type*.
  intros Hm Hne. unfold DeserializeProtoString.
  destruct (proto_bytes m) eqn:Hb; [done|]. simpl. rewrite <- Hb. by rewrite proto_parse.
Qed.

(** a message written after its size is read back from the same offset, and
    the same number of bytes is reported; an empty message is left as it was. *)
Theorem SerializeSizedMessage_roundtrip b offset m :
  valid_buffer b → 0 ≤ offset → proto_valid m → offset + 8 + ByteSizeLong m ≤ capacity b →
  ∃ b', SerializeSizedMessage b offset m = Some (SuccessExecutionResult, b', 8 + ByteSizeLong m) ∧
    ∀ n, offset + 8 + ByteSizeLong m ≤ n ≤ capacity b →
      DeserializeSizedMessage (set_length n b') offset
      = Some (SuccessExecutionResult, if ByteSizeLong m =? 0 then None else Some m, 8 + ByteSizeLong m).
Proof using Type*.
  intros Hb Ho Hm Hfit. pose proof (proto_size_range m Hm) as Hs. pose proof (proto_size m Hm) as Hsize.
  pose proof Hb as (Hcap & Hlen & Hmax). unfold SerializeSizedMessage.
  rewrite !(u64_id (offset + 8)) by (unfold is_u64; lia). rewrite !u64_id by (unfold is_u64; lia).
  rewrite (proj2 (Z.ltb_ge _ _)) by lia.
  destruct (SerializeInt_spec 8 b offset (ByteSizeLong m)) as (b1 & -> & Hv1 & Hl1 & Hc1 & Hr1 & Hf1);
    [done|lia..|]. simpl. rewrite proto_serialize by done. destruct Hv1 as (Hcap1 & _ & _).
  destruct (memory_write_spec b1 (offset + 8) (proto_bytes m)) as (b2 & -> & Hl2 & Hc2 & Hb2 & Hr2 & Hf2);
    [lia|lia|]. simpl. exists b2. split; [done|]. intros n Hn. unfold DeserializeSizedMessage. simpl.
  rewrite !(u64_id (offset + 8)) by (unfold is_u64; lia). rewrite (proj2 (Z.ltb_ge _ _)) by lia.
  rewrite (DeserializeInt_spec 8 (set_length n b2) offset (ByteSizeLong m)); simpl; try lia.
  2:{ rewrite memory_read_set_length, Hf2 by lia. done. }
  rewrite !u64_id by (unfold is_u64; lia). rewrite (proj2 (Z.ltb_ge _ _)) by lia.
  destruct (ByteSizeLong m =? 0) eqn:Hz; [done|].
  rewrite to_int_id by lia. rewrite memory_read_set_length, Hsize, Hr2. simpl. by rewrite proto_parse.
Qed.

End proto_laws.

(** The bounds check of a sized message adds the size it has just read to the
    offset without an overflow check: a buffer of eight bytes that hold a size of
    [2 ^ 64 - 8] passes it, and the parse is given a negative size. *)
Theorem DeserializeSizedMessage_overflow {M} `{ProtoMessage M} :
  DeserializeSizedMessage (M := M) (BytesBufferOf ([0xF8] ++ replicate 7 0xFF)) 0 = None.
Proof. by vm_compute. Qed.

(** ** A concrete message type *)

(** A message of one byte, written as that byte. *)
Definition example_proto : ProtoMessage Z := {|
  SerializeToArray m := Some [m];
  ByteSizeLong m := 1;
  ParseFromArray data := match data with [m] => Some m | _ => None end;
|}.

Definition example_proto_laws : @ProtoMessageLaws Z example_proto is_u8 1.
Proof. by refine (@Build_ProtoMessageLaws Z example_proto is_u8 1 (λ m, [m]) _ _ _ _ _). Defined.

Lemma SerializeUuid_roundtrip_witness :
  ∃ b', SerializeUuid (NewBytesBuffer 24) 5 (mkUuid 0x0123456789ABCDEF 42)
    = Some (SuccessExecutionResult, b', 16) ∧
    (∀ n, 5 + 16 ≤ n ≤ capacity (NewBytesBuffer 24) →
      DeserializeUuid (set_length n b') 5 kZeroUuid
      = Some (SuccessExecutionResult, mkUuid 0x0123456789ABCDEF 42, 16)) ∧
    (∀ o n, 0 ≤ o → 0 ≤ n → o + n ≤ 5 ∨ 5 + 16 ≤ o →
      memory_read b' o n = memory_read (NewBytesBuffer 24) o n).
Proof.
  apply (SerializeUuid_roundtrip (NewBytesBuffer 24) 5 (mkUuid 0x0123456789ABCDEF 42) kZeroUuid).
  - vm_compute. repeat split; congruence.
  - lia.
  - vm_compute. congruence.
  - vm_compute. repeat split; congruence.
Defined.

Lemma SerializeSizedMessage_roundtrip_witness :
  ∃ b', @SerializeSizedMessage Z example_proto (NewBytesBuffer 16) 3 77
    = Some (SuccessExecutionResult, b', 8 + 1) ∧
    ∀ n, 3 + 8 + 1 ≤ n ≤ capacity (NewBytesBuffer 16) →
      @DeserializeSizedMessage Z example_proto (set_length n b') 3
      = Some (SuccessExecutionResult, if 1 =? 0 then None else Some 77, 8 + 1).
Proof.
  apply (@SerializeSizedMessage_roundtrip Z example_proto is_u8 1 example_proto_laws (NewBytesBuffer 16) 3 77).
  - vm_compute. repeat split; congruence.
  - lia.
  - vm_compute. split; congruence.
  - vm_compute. congruence.
Defined.
