(* ===== verification/Dispatcher.v ===== *)
(** * The operation dispatcher

    Models [cc/core/common/operation_dispatcher/src/operation_dispatcher.h] and
    [retry_strategy.h]. A dispatched context passes through the states of
    [State]: the target is called, the context finishes, and the wrapped callback
    either gives the context to the caller or dispatches it again. What the
    target, the clock and the executor answer at each step is an environment.
    The three [Dispatch] methods differ only in the type of the context. *)

From S2P Require Import Prelude ExecutionResult ErrorCodes.
From stdpp Require Import options.

Local Open Scope Z_scope.

(** ** Retry strategy *)

Inductive RetryStrategyType := Linear | Exponential.

Record RetryStrategy := mkStrategy {
  retry_strategy_type_ : RetryStrategyType;
  delay_duration_ms_ : Z;
  maximum_allowed_retry_count_ : Z;
}.

(** A [uint64_t] as a [double]: the nearest value of 53 significant bits, ties
    to even. *)
Definition to_double (z : Z) : Z :=
  if z <? 2 ^ 53 then z
  else
    let k := Z.log2 z - 52 in
    let q := Z.shiftr z k in
    let r := z - Z.shiftl q k in
    let half := 2 ^ (k - 1) in
    let up := (half <? r) || ((half =? r) && Z.odd q) in
    Z.shiftl (if up then q + 1 else q) k.

(** [pow(2, n) * delay], computed on doubles, where a product with a power of
    two is exact, and converted to [uint64_t], which is undefined out of range. *)
Definition pow2_times (n delay : Z) : option Z :=
  let v := 2 ^ n * to_double delay in
  if (n <? 1024) && (v <? 2 ^ 64) then Some v else None.

Definition GetBackOffDurationInMilliseconds (s : RetryStrategy) (retry_count : Z) : option Z :=
  if retry_count =? 0 then Some 0
  else
    match retry_strategy_type_ s with
    | Linear => Some (u64 (retry_count * delay_duration_ms_ s))
    | Exponential => pow2_times (u64 (retry_count - 1)) (delay_duration_ms_ s)
    end.

Definition GetMaximumAllowedRetryCount (s : RetryStrategy) : Z := maximum_allowed_retry_count_ s.

(** ** Contexts *)

(** The fields of [AsyncContext] the dispatcher uses. *)
Record AsyncContext := mkContext {
  result : ExecutionResult;
  retry_count : Z;
  expiration_time : Z;
}.

Definition with_result (r : ExecutionResult) (c : AsyncContext) : AsyncContext :=
  mkContext r (retry_count c) (expiration_time c).

(** [retry_count++] *)
Definition count_retry (c : AsyncContext) : AsyncContext :=
  mkContext (result c) (u64 (retry_count c + 1)) (expiration_time c).

(** Where a dispatched context is. *)
Inductive State :=
| Calling (c : AsyncContext)            (* [async_operation] is about to run *)
| Scheduled (c : AsyncContext) (t : Z)  (* the executor runs it at [t] *)
| Finishing (c : AsyncContext)          (* [Finish()] calls the wrapped callback *)
| Delivered (c : AsyncContext)          (* the original callback has been called *)
| Undefined.                            (* the back-off has no defined value *)

(** The target returns a result; when that is success it has taken the context
    and finishes it, with the result it then has. *)
Record TargetAnswer := mkAnswer { returned : ExecutionResult; finished : ExecutionResult }.

Record Environment := mkEnvironment {
  target : TargetAnswer;
  clock : Z;
  schedule_result : ExecutionResult;
}.

Section dispatch.
  Variable strategy : RetryStrategy.

Definition async_operation (c : AsyncContext) (answer : TargetAnswer) : State :=
  if negb (Successful (returned answer)) then Finishing (with_result (returned answer) c)
  else Finishing (with_result (finished answer) c).

(** [duration_cast<nanoseconds>(milliseconds(ms)).count()] *)
Definition to_nanoseconds (ms : Z) : Z := i64 (i64 ms * 1000000).

Definition DispatchWithRetry (env : Environment) (c : AsyncContext) : State :=
  if retry_count c =? 0 then Calling c
  else
    match GetBackOffDurationInMilliseconds strategy (retry_count c) with
    | None => Undefined
    | Some back_off_duration_ms =>
        if GetMaximumAllowedRetryCount strategy <=? retry_count c then
          Finishing (with_result (FailureExecutionResult SC_DISPATCHER_EXHAUSTED_RETRIES) c)
        else
          let current_time := clock env in
          if expiration_time c <=? current_time then
            Finishing (with_result (FailureExecutionResult SC_DISPATCHER_OPERATION_EXPIRED) c)
          else
            let back_off_duration_ns := to_nanoseconds back_off_duration_ms in
            if u64 (expiration_time c - current_time) <=? u64 back_off_duration_ns then
              Finishing (with_result
                (FailureExecutionResult SC_DISPATCHER_NOT_ENOUGH_TIME_REMAINED_FOR_OPERATION) c)
            else if negb (Successful (schedule_result env)) then
              Finishing (with_result (schedule_result env) c)
            else Scheduled c (u64 (current_time + back_off_duration_ns))
    end.

(** The callback [Dispatch] puts in the context. *)
Definition wrapped_callback (env : Environment) (c : AsyncContext) : State :=
  if bool_decide (status (result c) = Retry) then DispatchWithRetry env (count_retry c)
  else Delivered c.

Definition Dispatch (env : Environment) (c : AsyncContext) : State := DispatchWithRetry env c.

Definition step (env : Environment) (s : State) : State :=
  match s with
  | Calling c => async_operation c (target env)
  | Scheduled c _ => Calling c
  | Finishing c => wrapped_callback env c
  | Delivered c => Delivered c
  | Undefined => Undefined
  end.

Definition calls_target (s : State) : nat := if s is Calling _ then 1%nat else 0%nat.

(** [n] steps in the environments [env i], [env (i + 1)], ...; the number of
    calls to the target is counted. *)
Fixpoint run (env : nat → Environment) (n i : nat) (s : State) : State * nat :=
  match n with
  | O => (s, O)
  | S n' =>
      let '(s', calls) := run env n' (S i) (step (env i) s) in
      (s', (calls_target s + calls)%nat)
  end.

(** ** The back-off *)

Lemma to_double_exact z : z < 2 ^ 53 → to_double z = z.
Proof. intros Hz. unfold to_double. by rewrite (proj2 (Z.ltb_lt _ _)). Qed.

Lemma pow2_times_exact n delay :
  0 ≤ n → 0 < delay < 2 ^ 53 → 2 ^ n * delay < 2 ^ 64 → pow2_times n delay = Some (2 ^ n * delay).
Proof.
  intros Hn Hd Hp. unfold pow2_times. rewrite to_double_exact by lia.
  assert (n < 1024) as Hlt.
  { apply Z.nle_gt. intros Hle. assert (2 ^ 1024 ≤ 2 ^ n) by (apply Z.pow_le_mono_r; lia).
    assert (2 ^ 64 ≤ 2 ^ 1024) by (apply Z.pow_le_mono_r; lia).
    assert (2 ^ n * 1 ≤ 2 ^ n * delay) by (apply Z.mul_le_mono_nonneg_l; lia). lia. }
  rewrite (proj2 (Z.ltb_lt _ _) Hlt), (proj2 (Z.ltb_lt _ _) Hp). done.
Qed.

(** The delays are small enough that no retry up to [k] overflows
    nanoseconds. *)
Definition no_overflow (k : Z) : Prop :=
  0 < delay_duration_ms_ strategy < 2 ^ 53 ∧
  k * delay_duration_ms_ strategy * 1000000 < 2 ^ 63 ∧
  2 ^ k * delay_duration_ms_ strategy * 1000000 < 2 ^ 63.

(** The back-off a strategy means. *)
Definition back_off (n : Z) : Z :=
  match retry_strategy_type_ strategy with
  | Linear => n * delay_duration_ms_ strategy
  | Exponential => 2 ^ (n - 1) * delay_duration_ms_ strategy
  end.

Lemma back_off_bounds k n :
  no_overflow k → 1 ≤ n ≤ k → 0 < back_off n ∧ back_off n * 1000000 < 2 ^ 63.
Proof.
  intros (Hd & Hl & He) Hn. unfold back_off. destruct (retry_strategy_type_ strategy).
  - assert (n * delay_duration_ms_ strategy ≤ k * delay_duration_ms_ strategy)
      by (apply Z.mul_le_mono_nonneg_r; lia).
    split; [apply Z.mul_pos_pos|]; lia.
  - assert (2 ^ (n - 1) ≤ 2 ^ k) by (apply Z.pow_le_mono_r; lia).
    assert (0 < 2 ^ (n - 1)) by (apply Z.pow_pos_nonneg; lia).
    assert (2 ^ (n - 1) * delay_duration_ms_ strategy ≤ 2 ^ k * delay_duration_ms_ strategy)
      by (apply Z.mul_le_mono_nonneg_r; lia).
    split; [apply Z.mul_pos_pos|]; lia.
Qed.

Lemma GetBackOff_exact k n :
  no_overflow k → k < 2 ^ 64 → 1 ≤ n ≤ k →
  GetBackOffDurationInMilliseconds strategy n = Some (back_off n).
Proof.
  intros Hk Hk64 Hn. pose proof (back_off_bounds k n Hk Hn) as Hb. destruct Hk as (Hd & _ & _).
  unfold GetBackOffDurationInMilliseconds, back_off in *.
  rewrite (proj2 (Z.eqb_neq _ _)) by lia. destruct (retry_strategy_type_ strategy).
  - by rewrite u64_id by (unfold is_u64; lia).
  - rewrite u64_id by (unfold is_u64; lia). apply pow2_times_exact; lia.
Qed.

Lemma to_nanoseconds_exact ms : 0 ≤ ms → ms * 1000000 < 2 ^ 63 → to_nanoseconds ms = ms * 1000000.
Proof. intros. unfold to_nanoseconds. rewrite (i64_id ms) by lia. rewrite i64_id; lia. Qed.

(** ** Dispatching again *)

Definition strategy_ok : Prop :=
  0 ≤ maximum_allowed_retry_count_ strategy < 2 ^ 64 - 1 ∧
  no_overflow (Z.max 1 (maximum_allowed_retry_count_ strategy)).

(** What happens to a context that is dispatched again, on each path. *)
Lemma DispatchWithRetry_paths env c :
  strategy_ok → is_u64 (expiration_time c) → is_u64 (clock env) →
  1 ≤ retry_count c ≤ Z.max 1 (maximum_allowed_retry_count_ strategy) →
  DispatchWithRetry env c =
    if maximum_allowed_retry_count_ strategy <=? retry_count c then
      Finishing (with_result (FailureExecutionResult SC_DISPATCHER_EXHAUSTED_RETRIES) c)
    else if expiration_time c <=? clock env then
      Finishing (with_result (FailureExecutionResult SC_DISPATCHER_OPERATION_EXPIRED) c)
    else if expiration_time c <=? clock env + back_off (retry_count c) * 1000000 then
      Finishing (with_result (FailureExecutionResult SC_DISPATCHER_NOT_ENOUGH_TIME_REMAINED_FOR_OPERATION) c)
    else if Successful (schedule_result env) then
      Scheduled c (clock env + back_off (retry_count c) * 1000000)
    else Finishing (with_result (schedule_result env) c).
Proof.
  intros [Hmax Hov] Hexp Hclk Hrc. unfold is_u64 in Hexp, Hclk.
  pose proof (back_off_bounds _ (retry_count c) Hov ltac:(lia)) as [Hb1 Hb2].
  unfold DispatchWithRetry, GetMaximumAllowedRetryCount.
  rewrite (proj2 (Z.eqb_neq _ _)), (GetBackOff_exact _ _ Hov) by lia.
  rewrite to_nanoseconds_exact by lia. rewrite (u64_id (back_off _ * _)) by (unfold is_u64; lia).
  destruct (_ <=? retry_count c); [done|]. destruct (expiration_time c <=? clock env) eqn:He; [done|].
  rewrite (u64_id (expiration_time c - clock env)) by (unfold is_u64; lia).
  set (t := clock env + _).
  replace (expiration_time c - clock env <=? back_off (retry_count c) * 1000000)
    with (expiration_time c <=? t) by lia.
  destruct (expiration_time c <=? t) eqn:Ht; [done|].
  destruct (Successful (schedule_result env)); simpl; [|done].
  by rewrite u64_id by (unfold is_u64; lia).
Qed.

(** A retry is scheduled exactly when retries are left, the executor accepts
    it, and the back-off the strategy means ([n] times the delay, or
    [2 ^ (n - 1)] times the delay) ends before the context expires; and then it
    is scheduled exactly that back-off after the current time. *)
Theorem DispatchWithRetry_schedules env c c' t :
  strategy_ok → is_u64 (expiration_time c) → is_u64 (clock env) →
  1 ≤ retry_count c ≤ Z.max 1 (maximum_allowed_retry_count_ strategy) →
  DispatchWithRetry env c = Scheduled c' t ↔
  c' = c ∧ t = clock env + back_off (retry_count c) * 1000000 ∧
  retry_count c < maximum_allowed_retry_count_ strategy ∧ t < expiration_time c ∧
  schedule_result env = SuccessExecutionResult.
Proof.
  intros Hs Hexp Hclk Hrc. rewrite DispatchWithRetry_paths by done.
  pose proof (back_off_bounds _ (retry_count c) (proj2 Hs) ltac:(lia)) as [Hb _].
  rewrite <- Successful_spec. split.
  - intros Hd. repeat case_match; simplify_eq. split_and!; try done; lia.
  - intros (-> & -> & ? & ? & Hok). rewrite Hok.
    rewrite !(proj2 (Z.leb_gt _ _)) by lia. done.
Qed.

(** ** Termination *)

(** What holds of a dispatched context on its way: it has fewer than the
    allowed retries, and so has one whose result asks for one more. *)
Definition on_its_way (s : State) : Prop :=
  match s with
  | Calling c | Scheduled c _ =>
      is_u64 (expiration_time c) ∧ 0 ≤ retry_count c ∧
      (retry_count c = 0 ∨ retry_count c < maximum_allowed_retry_count_ strategy)
  | Finishing c =>
      is_u64 (expiration_time c) ∧ 0 ≤ retry_count c ∧
      (status (result c) = Retry →
       retry_count c = 0 ∨ retry_count c < maximum_allowed_retry_count_ strategy)
  | Delivered c => status (result c) ≠ Retry
  | Undefined => False
  end.

(** Steps left, and calls of the target left. *)
Definition steps_left (s : State) : Z :=
  let m := maximum_allowed_retry_count_ strategy in
  match s with
  | Calling c => 3 * (m - retry_count c) + 5
  | Finishing c => if bool_decide (status (result c) = Retry) then 3 * (m - retry_count c) + 4 else 1
  | Scheduled c _ => 3 * (m - retry_count c) + 6
  | Delivered _ | Undefined => 0
  end.

Definition calls_left (s : State) : Z :=
  let m := maximum_allowed_retry_count_ strategy in
  match s with
  | Calling c | Scheduled c _ => Z.max (m - retry_count c) 1
  | Finishing c => if bool_decide (status (result c) = Retry) then Z.max (m - retry_count c - 1) 0 else 0
  | Delivered _ | Undefined => 0
  end.

Lemma step_progress env s :
  strategy_ok → is_u64 (clock env) → on_its_way s →
  on_its_way (step env s) ∧
  (0 < steps_left s → steps_left (step env s) < steps_left s) ∧
  Z.of_nat (calls_target s) + calls_left (step env s) ≤ calls_left s.
Proof.
  intros Hs Hclk Hway. pose proof Hs as [Hmax _].
  destruct s as [c|c t|c|c|]; simpl in *; [| |  |split_and!; [done|lia|lia]|done].
  - unfold async_operation. destruct Hway as (He & H0 & Hrc).
    destruct (negb _); simpl; case_bool_decide; split_and!; try done; lia.
  - destruct Hway as (He & H0 & Hrc). split_and!; try done; lia.
  - unfold wrapped_callback. destruct Hway as (He & H0 & Hrc).
    case_bool_decide as Hr; simpl; [|split_and!; [done|lia..]]. specialize (Hrc Hr).
    assert (retry_count (count_retry c) = retry_count c + 1) as Hcount.
    { simpl. apply u64_id. unfold is_u64. lia. }
    rewrite DispatchWithRetry_paths; [|done|done|done|lia]. rewrite Hcount.
    repeat (case_match; simpl; try rewrite bool_decide_false by done);
      try case_bool_decide; simpl in *; split_and!; try done; try lia.
Qed.

Lemma steps_left_nonneg s : strategy_ok → on_its_way s → 0 ≤ steps_left s.
Proof.
  intros [Hm _]. destruct s; simpl; [lia|lia| |lia|lia].
  case_bool_decide; [|lia]. intros (_ & _ & []); [done|lia..].
Qed.

Lemma calls_left_nonneg s : 0 ≤ calls_left s.
Proof. destruct s; simpl; try case_bool_decide; lia. Qed.

Lemma steps_left_delivered s : strategy_ok → on_its_way s → steps_left s ≤ 0 → ∃ c, s = Delivered c.
Proof.
  intros [Hm _]. destruct s; simpl; intros Hw ?; [lia|lia| |by eexists|done].
  case_bool_decide; [|lia]. destruct Hw as (_ & _ & []); [done|lia..].
Qed.

Lemma run_delivers env n i s :
  strategy_ok → (∀ i, is_u64 (clock (env i))) → on_its_way s → steps_left s ≤ Z.of_nat n →
  ∃ c calls, run env n i s = (Delivered c, calls) ∧ status (result c) ≠ Retry ∧
    Z.of_nat calls ≤ calls_left s.
Proof.
  intros Hs Hclk. revert i s. induction n as [|n IH]; intros i s Hway Hn; simpl.
  - destruct (steps_left_delivered s Hs Hway) as [c ->]; [lia|]. by exists c, 0%nat.
  - destruct (step_progress (env i) s Hs (Hclk i) Hway) as (Hway' & Hless & Hcalls).
    assert (steps_left (step (env i) s) ≤ Z.of_nat n).
    { destruct (decide (0 < steps_left s)); [lia|].
      destruct (steps_left_delivered s Hs Hway) as [c ->]; [lia|]. simpl. lia. }
    destruct (IH (S i) (step (env i) s)) as (c & calls & -> & ? & ?); [done|done|].
    exists c, (calls_target s + calls)%nat. split_and!; [done|done|lia].
Qed.

(** C35: a dispatched context is always delivered: whatever the target, the
    clock and the executor answer, after at most [3 * maximum + 5] steps the
    original callback has been called, with a result that does not ask for a
    retry, and the target has been called at most [maximum] times (once when no
    retry is allowed). *)
Theorem Dispatch_delivers env c :
  strategy_ok → (∀ i, is_u64 (clock (env i))) → is_u64 (expiration_time c) → retry_count c = 0 →
  let m := maximum_allowed_retry_count_ strategy in
  ∃ c' calls,
    run env (Z.to_nat (3 * m + 5)) 0 (Dispatch (env 0%nat) c) = (Delivered c', calls) ∧
    status (result c') ≠ Retry ∧ Z.of_nat calls ≤ Z.max m 1.
Proof.
  intros Hs Hclk He Hc m. assert (Dispatch (env 0%nat) c = Calling c) as ->.
  { unfold Dispatch, DispatchWithRetry. by rewrite Hc. }
  destruct (run_delivers env (Z.to_nat (3 * m + 5)) 0 (Calling c)) as (c' & calls & Hrun & ? & Hcalls);
    [done|done| | |].
  - simpl. split_and!; [done|lia|by left].
  - simpl. rewrite Hc. fold m. destruct Hs as [? _]. lia.
  - exists c', calls. split_and!; [done|done|]. simpl in Hcalls. rewrite Hc in Hcalls. fold m in Hcalls. lia.
Qed.

End dispatch.

(** ** Concrete runs *)

Definition example_strategy : RetryStrategy := mkStrategy Exponential 100 3.

Lemma example_strategy_ok : strategy_ok example_strategy.
Proof. unfold strategy_ok, no_overflow. vm_compute. repeat split; congruence. Qed.

(** A target that always asks for a retry, and a clock that stands still. *)
Definition retrying (i : nat) : Environment :=
  mkEnvironment (mkAnswer SuccessExecutionResult (RetryExecutionResult 7)) 1000 SuccessExecutionResult.

Definition example_context : AsyncContext := mkContext (FailureExecutionResult SC_UNKNOWN) 0 (10 ^ 12).

Example retrying_exhausts :
  run example_strategy retrying 14 0 (Dispatch example_strategy (retrying 0) example_context)
  = (Delivered (mkContext (FailureExecutionResult SC_DISPATCHER_EXHAUSTED_RETRIES) 3 (10 ^ 12)), 3%nat).
Proof. by vm_compute. Qed.

Lemma DispatchWithRetry_schedules_witness :
  DispatchWithRetry example_strategy (retrying 0) (mkContext (RetryExecutionResult 7) 2 (10 ^ 12))
  = Scheduled (mkContext (RetryExecutionResult 7) 2 (10 ^ 12)) 200001000.
Proof.
  apply (DispatchWithRetry_schedules example_strategy (retrying 0)
    (mkContext (RetryExecutionResult 7) 2 (10 ^ 12)) (mkContext (RetryExecutionResult 7) 2 (10 ^ 12)) 200001000).
  - apply example_strategy_ok.
  - vm_compute. split; congruence.
  - vm_compute. split; congruence.
  - vm_compute. split; congruence.
  - split_and!; reflexivity.
Defined.

Lemma Dispatch_delivers_witness :
  ∃ c' calls,
    run example_strategy retrying (Z.to_nat (3 * 3 + 5)) 0
      (Dispatch example_strategy (retrying 0) example_context) = (Delivered c', calls) ∧
    status (result c') ≠ Retry ∧ Z.of_nat calls ≤ Z.max 3 1.
Proof.
  apply (Dispatch_delivers example_strategy retrying example_context).
  - apply example_strategy_ok.
  - intros i. vm_compute. split; congruence.
  - vm_compute. split; congruence.
  - reflexivity.
Defined.
