(* ===== verification/TimeframeUtils.v ===== *)
(** * Time groups, time buckets and hour tokens

    Models [cc/pbs/budget_key_timeframe_manager/src/budget_key_timeframe_utils.h]
    (the day and the hour of the day a reporting time falls in) and the text form
    of a day's tokens in [budget_key_timeframe_serialization.h]
    ([SerializeHourTokensInTimeGroup], [DeserializeHourTokensInTimeGroup]), which
    is what the database holds. [boost::algorithm::split] is a library function:
    it is the argument [split] with the law [SplitLaw]. *)

From Stdlib Require Import Ascii.
From S2P Require Import Prelude Text ExecutionResult ErrorCodes.
From stdpp Require Import options.

Local Open Scope Z_scope.

(** ** Time *)

Definition nanoseconds_per_hour : Z := 3600000000000.
Definition nanoseconds_per_day : Z := 86400000000000.

(** A [Timestamp] is read as a signed 64-bit count of nanoseconds;
    [duration_cast] truncates toward zero. *)
Definition GetTimeGroup (timestamp : Z) : Z :=
  u64 (Z.quot (i64 timestamp) nanoseconds_per_day).

Definition GetTimeBucket (timestamp : Z) : Z :=
  let days_since_epoch := GetTimeGroup timestamp in
  let bucket_time_nano_seconds := i64 timestamp in
  let days_since_epoch_nano_seconds := i64 (i64 days_since_epoch * nanoseconds_per_day) in
  u64 (Z.quot (i64 (bucket_time_nano_seconds - days_since_epoch_nano_seconds)) nanoseconds_per_hour).

Definition GetUniqueTimeBuckets (timestamps : list Z) : gset Z :=
  foldl (λ s t, {[GetTimeBucket t]} ∪ s) ∅ timestamps.

Definition GetUniqueTimeGroups (timestamps : list Z) : gset Z :=
  foldl (λ s t, {[GetTimeGroup t]} ∪ s) ∅ timestamps.

(** Times up to the year 2262. *)
Definition in_range_time (t : Z) : Prop := 0 ≤ t < 2 ^ 63.

Lemma GetTimeGroup_div t : in_range_time t → GetTimeGroup t = t / nanoseconds_per_day.
Proof.
  unfold in_range_time, GetTimeGroup, nanoseconds_per_day. intros Ht.
  rewrite i64_id by lia. rewrite Z.quot_div_nonneg by lia. apply u64_id. unfold is_u64.
  split; [apply Z.div_pos; lia|apply Z.div_lt_upper_bound; lia].
Qed.

Lemma GetTimeBucket_div t : in_range_time t →
  GetTimeBucket t = (t mod nanoseconds_per_day) / nanoseconds_per_hour.
Proof.
  intros Ht. unfold GetTimeBucket. rewrite GetTimeGroup_div by done.
  unfold in_range_time, nanoseconds_per_day, nanoseconds_per_hour in *.
  pose proof (Z.div_mod t 86400000000000 ltac:(lia)) as Hdm.
  pose proof (Z.mod_pos_bound t 86400000000000 ltac:(lia)) as Hm.
  assert (0 ≤ t / 86400000000000) by (apply Z.div_pos; lia).
  rewrite (i64_id t) by lia. rewrite (i64_id (t / _)) by lia.
  rewrite (i64_id (t / _ * _)) by lia. rewrite i64_id by lia.
  rewrite Z.quot_div_nonneg by lia.
  replace (t - t / 86400000000000 * 86400000000000) with (t mod 86400000000000) by lia.
  apply u64_id. unfold is_u64.
  split; [apply Z.div_pos; lia|apply Z.div_lt_upper_bound; lia].
Qed.

Lemma group_and_bucket t : in_range_time t →
  0 ≤ GetTimeBucket t < 24 ∧ GetTimeGroup t * 24 + GetTimeBucket t = t / nanoseconds_per_hour.
Proof.
  intros Ht. rewrite GetTimeGroup_div, GetTimeBucket_div by done.
  unfold nanoseconds_per_day, nanoseconds_per_hour.
  pose proof (Z.div_mod t 86400000000000 ltac:(lia)) as Hdm.
  pose proof (Z.mod_pos_bound t 86400000000000 ltac:(lia)) as Hm. split.
  - split; [apply Z.div_pos; lia|apply Z.div_lt_upper_bound; lia].
  - rewrite Hdm at 3.
    replace (86400000000000 * (t / 86400000000000) + t mod 86400000000000)
      with (t mod 86400000000000 + (t / 86400000000000 * 24) * 3600000000000) by lia.
    rewrite Z.div_add by lia. lia.
Qed.

(** For every reporting time that is a non-negative signed 64-bit count of
    nanoseconds, the bucket is one of the 24 hours of the day, and the group and
    the bucket together are the hour since the epoch: two times have the same
    group and bucket exactly when they are in the same hour. *)
Theorem TimeGroup_TimeBucket_hour t1 t2 :
  in_range_time t1 → in_range_time t2 →
  0 ≤ GetTimeBucket t1 < 24 ∧
  GetTimeGroup t1 * 24 + GetTimeBucket t1 = t1 / nanoseconds_per_hour ∧
  (GetTimeGroup t1 = GetTimeGroup t2 ∧ GetTimeBucket t1 = GetTimeBucket t2 ↔
   t1 / nanoseconds_per_hour = t2 / nanoseconds_per_hour).
Proof.
  intros H1 H2. destruct (group_and_bucket t1 H1) as [Hb1 Hg1], (group_and_bucket t2 H2) as [Hb2 Hg2].
  split_and!; [lia|lia|done|]. split; lia.
Qed.

Lemma GetTimeBucket_range t : in_range_time t → 0 ≤ GetTimeBucket t < 24.
Proof. intros Ht. apply (group_and_bucket t Ht). Qed.

Lemma same_hour_group t1 t2 : in_range_time t1 → in_range_time t2 →
  t1 / nanoseconds_per_hour = t2 / nanoseconds_per_hour →
  GetTimeGroup t1 = GetTimeGroup t2 ∧ GetTimeBucket t1 = GetTimeBucket t2.
Proof. intros H1 H2 H. pose proof (group_and_bucket t1 H1). pose proof (group_and_bucket t2 H2). split; lia. Qed.

(** A time of [2 ^ 63] nanoseconds or more is read as a negative one, and its
    bucket need not be an hour of the day. *)
Example GetTimeBucket_after_2262 : GetTimeBucket (2 ^ 63) = 2 ^ 64 - 23.
Proof. by vm_compute. Qed.

Lemma elem_of_GetUnique (f : Z → Z) (timestamps : list Z) x (s : gset Z) :
  x ∈ foldl (λ s t, {[f t]} ∪ s) s timestamps ↔ x ∈ f <$> timestamps ∨ x ∈ s.
Proof.
  revert s. induction timestamps as [|t ts IH]; intros s; simpl.
  - set_solver.
  - rewrite IH. set_solver.
Qed.

Lemma elem_of_GetUniqueTimeBuckets timestamps b :
  b ∈ GetUniqueTimeBuckets timestamps ↔ b ∈ GetTimeBucket <$> timestamps.
Proof. unfold GetUniqueTimeBuckets. rewrite elem_of_GetUnique. set_solver. Qed.

Lemma elem_of_GetUniqueTimeGroups timestamps b :
  b ∈ GetUniqueTimeGroups timestamps ↔ b ∈ GetTimeGroup <$> timestamps.
Proof. unfold GetUniqueTimeGroups. rewrite elem_of_GetUnique. set_solver. Qed.

(** The checks of the callers compare the sizes of these sets: as many buckets
    as times means that no bucket repeats, one group that all are the same. *)
Lemma GetUnique_size (f : Z → Z) (ts : list Z) :
  foldl (λ s t, {[f t]} ∪ s) (∅ : gset Z) ts = list_to_set (f <$> ts).
Proof. apply set_eq. intros x. rewrite elem_of_GetUnique, elem_of_list_to_set. set_solver. Qed.

Lemma list_to_set_size_le (l : list Z) : (size (list_to_set (C := gset Z) l) ≤ length l)%nat.
Proof.
  induction l as [|x l IH]; simpl; [done|].
  rewrite size_union_alt, size_singleton.
  pose proof (subseteq_size (list_to_set (C := gset Z) l ∖ {[x]}) (list_to_set l) ltac:(set_solver)). lia.
Qed.

Lemma list_to_set_size_NoDup (l : list Z) :
  size (list_to_set (C := gset Z) l) = length l ↔ NoDup l.
Proof.
  split.
  - induction l as [|x l IH]; [constructor|]. simpl. intros Hs.
    destruct (decide (x ∈ l)) as [Hx|Hx].
    + exfalso. rewrite subseteq_union_1_L in Hs by set_solver.
      pose proof (list_to_set_size_le l). lia.
    + rewrite size_union, size_singleton in Hs by set_solver. constructor; [done|]. apply IH. lia.
  - intros Hn. by apply size_list_to_set.
Qed.

Lemma GetUniqueTimeBuckets_NoDup timestamps :
  size (GetUniqueTimeBuckets timestamps) = length timestamps ↔ NoDup (GetTimeBucket <$> timestamps).
Proof.
  unfold GetUniqueTimeBuckets. rewrite GetUnique_size.
  rewrite <- list_to_set_size_NoDup, length_fmap. done.
Qed.

(** ** Hour tokens *)

Definition kHoursPerDay : nat := 24.

(** The printing loop: a space after every token but the last. *)
Fixpoint append_tokens (i size : nat) (hour_tokens : list Z) (s : string) : string :=
  match hour_tokens with
  | [] => s
  | token :: rest =>
      let s := (s +:+ to_string token)%string in
      let s := if bool_decide (i < size - 1)%nat then (s +:+ " ")%string else s in
      append_tokens (S i) size rest s
  end.

Definition SerializeHourTokensInTimeGroup (hour_tokens : list Z) (hour_token_in_time_group : string)
  : ExecutionResult * string :=
  if negb (Nat.eqb (length hour_tokens) kHoursPerDay) then
    (FailureExecutionResult SC_BUDGET_KEY_TIMEFRAME_MANAGER_CORRUPTED_KEY_METADATA, hour_token_in_time_group)
  else (SuccessExecutionResult, append_tokens 0 (length hour_tokens) hour_tokens EmptyString).

(** The reading loop: each token is read with [stoi] and narrowed to [uint8_t]
    when it is pushed; what was pushed before a failure stays. *)
Fixpoint push_tokens (tokens_per_hour : list string) (hour_tokens : list Z) : ExecutionResult * list Z :=
  match tokens_per_hour with
  | [] => (SuccessExecutionResult, hour_tokens)
  | token_per_hour :: rest =>
      match stoi token_per_hour with
      | Some value => push_tokens rest (hour_tokens ++ [u8 value])
      | None => (FailureExecutionResult SC_BUDGET_KEY_TIMEFRAME_MANAGER_CORRUPTED_KEY_METADATA, hour_tokens)
      end
  end.

Section deserialize.
  (** [split] on any of the characters " ", with adjacent separators merged. *)
  Variable split : string → list string.

Definition DeserializeHourTokensInTimeGroup (hour_token_in_time_group : string) (hour_tokens : list Z)
  : ExecutionResult * list Z :=
  let tokens_per_hour := split hour_token_in_time_group in
  if negb (Nat.eqb (length tokens_per_hour) kHoursPerDay) then
    (FailureExecutionResult SC_BUDGET_KEY_TIMEFRAME_MANAGER_CORRUPTED_KEY_METADATA, hour_tokens)
  else push_tokens tokens_per_hour hour_tokens.

End deserialize.

Fixpoint join_spaces (tokens : list string) : string :=
  match tokens with
  | [] => EmptyString
  | [t] => t
  | t :: ts => (t +:+ String " " (join_spaces ts))%string
  end.

Definition not_space (c : ascii) : bool := bool_decide (c ≠ " "%char).

(** The library's documented behaviour on tokens separated by single spaces. *)
Definition SplitLaw (split : string → list string) : Prop :=
  ∀ tokens, tokens ≠ [] → Forall (λ t, t ≠ EmptyString ∧ all_chars not_space t = true) tokens →
    split (join_spaces tokens) = tokens.

Lemma append_tokens_join hour_tokens i size s :
  (i + length hour_tokens = size)%nat →
  append_tokens i size hour_tokens s = (s +:+ join_spaces (to_string <$> hour_tokens))%string.
Proof.
  revert i s. induction hour_tokens as [|t ts IH]; intros i s Hi; simpl in *.
  - by rewrite string_app_nil_r.
  - rewrite IH by lia. destruct ts as [|t' ts]; simpl in *.
    + rewrite bool_decide_false by lia. by rewrite string_app_nil_r.
    + rewrite bool_decide_true by lia. rewrite <- !string_app_assoc. done.
Qed.

Lemma number_not_space c : is_number_char c = true → not_space c = true.
Proof.
  unfold is_number_char, not_space. intros Hc. apply bool_decide_eq_true. intros ->.
  vm_compute in Hc. done.
Qed.

Lemma all_chars_impl (p q : ascii → bool) s :
  (∀ c, p c = true → q c = true) → all_chars p s = true → all_chars q s = true.
Proof.
  intros Hpq. induction s as [|c s IH]; simpl; [done|].
  rewrite !andb_true_iff. naive_solver.
Qed.

Lemma push_tokens_values (values hour_tokens : list Z) :
  Forall (λ v, - 2 ^ 31 ≤ v < 2 ^ 31) values →
  push_tokens (to_string <$> values) hour_tokens = (SuccessExecutionResult, hour_tokens ++ (u8 <$> values)).
Proof.
  intros Hv. revert hour_tokens. induction Hv as [|v values Hv _ IH]; intros hour_tokens.
  - by rewrite app_nil_r.
  - cbn [fmap list_fmap push_tokens]. rewrite stoi_to_string by done. rewrite IH.
    by rewrite <- app_assoc.
Qed.

Lemma Deserialize_values split (values hour_tokens : list Z) :
  SplitLaw split → length values = kHoursPerDay → Forall (λ v, - 2 ^ 31 ≤ v < 2 ^ 31) values →
  DeserializeHourTokensInTimeGroup split (join_spaces (to_string <$> values)) hour_tokens
  = (SuccessExecutionResult, hour_tokens ++ (u8 <$> values)).
Proof.
  intros Hsplit Hlen Hv. unfold DeserializeHourTokensInTimeGroup.
  rewrite Hsplit.
  - rewrite length_fmap, Hlen, Nat.eqb_refl. simpl. by apply push_tokens_values.
  - destruct values; [done|]. done.
  - apply Forall_fmap, Forall_true. intros v. split; [apply to_string_nonempty|].
    eapply all_chars_impl; [apply number_not_space|apply to_string_chars].
Qed.

(** The 24 token counts of a day are printed to a text that reads back as
    the same counts. *)
Theorem HourTokens_roundtrip split (hour_tokens : list Z) (old : string) :
  SplitLaw split → length hour_tokens = kHoursPerDay → Forall is_u8 hour_tokens →
  ∃ s, SerializeHourTokensInTimeGroup hour_tokens old = (SuccessExecutionResult, s) ∧
    DeserializeHourTokensInTimeGroup split s [] = (SuccessExecutionResult, hour_tokens).
Proof.
  intros Hsplit Hlen Ht. unfold SerializeHourTokensInTimeGroup. rewrite Hlen, Nat.eqb_refl; simpl.
  eexists; split; [done|]. rewrite append_tokens_join by done.
  change (EmptyString +:+ join_spaces (to_string <$> hour_tokens))%string
    with (join_spaces (to_string <$> hour_tokens)).
  rewrite Deserialize_values; [|done|done|].
  - f_equal. simpl. clear Hlen. induction Ht as [|t ts Ht _ IH]; [done|]. simpl.
    rewrite u8_id by done. by f_equal.
  - eapply Forall_impl; [done|]. unfold is_u8. lia.
Qed.

(** Reading does not check the range of a token: the text of any 24 [int]s
    is accepted, and each is taken modulo 256, so that a stored 256 reads as no
    token and -1 as 255 tokens. *)
Theorem Deserialize_narrows_tokens split (values : list Z) :
  SplitLaw split → length values = kHoursPerDay → Forall (λ v, - 2 ^ 31 ≤ v < 2 ^ 31) values →
  DeserializeHourTokensInTimeGroup split (join_spaces (to_string <$> values)) []
  = (SuccessExecutionResult, (λ v, v mod 256) <$> values).
Proof. intros. by rewrite Deserialize_values. Qed.

(** ** A concrete split *)

(** [after_separator]: the previous character was a space; [cur] is the token
    being read. *)
Fixpoint split_from (s cur : string) (after_separator : bool) : list string :=
  match s with
  | EmptyString => [cur]
  | String c s' =>
      if ascii_dec c " " then
        if after_separator then split_from s' cur true else cur :: split_from s' EmptyString true
      else split_from s' (cur +:+ String c EmptyString) false
  end.

Definition split_spaces (s : string) : list string := split_from s EmptyString false.

Lemma split_from_token t s cur :
  all_chars not_space t = true → t ≠ EmptyString →
  ∀ b, split_from (t +:+ s) cur b = split_from s (cur +:+ t) false.
Proof.
  intros Ht Hne. revert cur. induction t as [|c t IH]; intros cur b; [done|].
  rewrite string_app_cons. simpl in *.
  apply andb_true_iff in Ht as [Hc Ht]. apply bool_decide_eq_true in Hc.
  destruct (ascii_dec c " "); [done|]. destruct t as [|c' t]; [done|].
  rewrite IH by done. by rewrite <- string_app_assoc.
Qed.

Lemma split_spaces_law : SplitLaw split_spaces.
Proof.
  intros tokens Hne Ht. unfold split_spaces.
  assert (∀ b, split_from (join_spaces tokens) EmptyString b = tokens) as H; [|done].
  induction Ht as [|t ts [Hn Hc] Hts IH]; [done|]. intros b. destruct ts as [|t' ts].
  - simpl. rewrite <- (string_app_nil_r t) at 1. rewrite split_from_token by done. done.
  - change (join_spaces (t :: t' :: ts)) with (t +:+ String " " (join_spaces (t' :: ts)))%string.
    rewrite split_from_token by done. cbn [split_from]. destruct (ascii_dec " " " "); [|done].
    simpl. f_equal. by apply IH.
Qed.

Definition example_tokens : list Z := [1; 0; 255] ++ replicate 21 1.

Lemma HourTokens_roundtrip_witness :
  ∃ s, SerializeHourTokensInTimeGroup example_tokens EmptyString = (SuccessExecutionResult, s) ∧
    DeserializeHourTokensInTimeGroup split_spaces s [] = (SuccessExecutionResult, example_tokens).
Proof.
  apply (HourTokens_roundtrip split_spaces example_tokens EmptyString split_spaces_law eq_refl).
  by apply (bool_decide_unpack _).
Defined.

Lemma Deserialize_narrows_tokens_witness :
  DeserializeHourTokensInTimeGroup split_spaces (join_spaces (to_string <$> ([256; -1] ++ replicate 22 1))) []
  = (SuccessExecutionResult, [0; 255] ++ replicate 22 1).
Proof.
  apply (Deserialize_narrows_tokens split_spaces ([256; -1] ++ replicate 22 1) split_spaces_law eq_refl).
  by repeat (constructor; [lia|]); constructor.
Defined.

Lemma TimeGroup_TimeBucket_hour_witness :
  0 ≤ GetTimeBucket 1700000000000000000 < 24 ∧
  GetTimeGroup 1700000000000000000 * 24 + GetTimeBucket 1700000000000000000
    = 1700000000000000000 / nanoseconds_per_hour ∧
  (GetTimeGroup 1700000000000000000 = GetTimeGroup 0 ∧ GetTimeBucket 1700000000000000000 = GetTimeBucket 0 ↔
   1700000000000000000 / nanoseconds_per_hour = 0 / nanoseconds_per_hour).
Proof.
  apply (TimeGroup_TimeBucket_hour 1700000000000000000 0); unfold in_range_time; lia.
Defined.
