(* ===== verification/TimeframeLog.v ===== *)
(** * Budget key timeframes and their journal logs

    Models the data of [cc/pbs/interface/budget_key_timeframe_manager_interface.h]
    and the logs of [budget_key_timeframe_serialization.h]: a log of the timeframe
    manager is a message with a version and a body, whose body is a message with
    an operation, a day and a body, whose body depends on the operation. The
    protobuf messages are records; their wire form is the classes of
    [Serialization]. What the manager needs of the logs is the class
    [TimeframeLogs], which the functions here implement. *)

From S2P Require Import Prelude ExecutionResult ErrorCodes Uuid ConcurrentMap Serialization.
From stdpp Require Import options.

Local Open Scope Z_scope.

(** ** Timeframes *)

(** An hour of a day of a budget key. *)
Record BudgetKeyTimeframe := mkFrame {
  time_bucket_index : Z;
  token_count : Z;
  active_transaction_id : Uuid;
  active_token_count : Z;
}.

#[export] Instance BudgetKeyTimeframe_eq_dec : EqDecision BudgetKeyTimeframe.
Proof. solve_decision. Defined.

Definition NewFrame (time_bucket : Z) : BudgetKeyTimeframe := mkFrame time_bucket 0 kZeroUuid 0.

Definition set_frame (active_tokens : Z) (transaction_id : Uuid) (tokens : Z) (f : BudgetKeyTimeframe)
  : BudgetKeyTimeframe :=
  mkFrame (time_bucket_index f) tokens transaction_id active_tokens.

(** Locations of timeframes and groups: they are shared between the manager,
    the transaction protocols and the calls in flight. *)
Definition frame_loc : Type := positive.

(** A day of a budget key; a [LoadableObject]. *)
Record BudgetKeyTimeframeGroup := mkGroup {
  time_group : Z;
  budget_key_timeframes : gmap Z frame_loc;
  is_loaded : bool;
  needs_loader : bool;
}.

Definition NewGroup (time_group : Z) : BudgetKeyTimeframeGroup := mkGroup time_group ∅ false false.

(** ** Messages *)

Inductive OperationType :=
| OPERATION_TYPE_UNKNOWN
| INSERT_TIMEGROUP_INTO_CACHE
| REMOVE_TIMEGROUP_FROM_CACHE
| UPDATE_TIMEFRAME_RECORD
| BATCH_UPDATE_TIMEFRAME_RECORDS_OF_TIMEGROUP.

#[export] Instance OperationType_eq_dec : EqDecision OperationType.
Proof. solve_decision. Defined.

Record FrameLog := mkFrameLog {
  log_time_bucket : Z;
  log_token_count : Z;         (* uint32 *)
  log_active_token_count : Z;  (* uint32 *)
  log_active_transaction_id : Uuid;
}.

Record GroupLog := mkGroupLog { log_time_group : Z; log_items : list FrameLog }.
Record BatchLog := mkBatchLog { batch_items : list FrameLog }.

Record ManagerLog_1_0 := mkManagerLog_1_0 {
  operation_type : OperationType;
  manager_time_group : Z;
  log_1_0_body : list Z;
}.

Record ManagerLog := mkManagerLog { log_version : Version; log_body : list Z }.

Definition kCurrentVersion : Version := mkVersion 1 0.

(** The message of a timeframe, and the timeframe of a message: the counts are
    narrowed to [uint8_t]. *)
Definition frame_log (f : BudgetKeyTimeframe) : FrameLog :=
  mkFrameLog (time_bucket_index f) (token_count f) (active_token_count f) (active_transaction_id f).

Definition frame_of_log (l : FrameLog) : BudgetKeyTimeframe :=
  mkFrame (log_time_bucket l) (u8 (log_token_count l)) (log_active_transaction_id l)
          (u8 (log_active_token_count l)).

(** A frame whose fields fit their types. *)
Definition valid_frame (f : BudgetKeyTimeframe) : Prop :=
  is_u64 (time_bucket_index f) ∧ is_u8 (token_count f) ∧ is_u8 (active_token_count f) ∧
  valid_uuid (active_transaction_id f).

Lemma frame_of_log_frame_log f : valid_frame f → frame_of_log (frame_log f) = f.
Proof.
  intros (_ & Ht & Ha & _). destruct f; unfold frame_of_log; simpl in *. by rewrite !u8_id.
Qed.

(** ** The functions *)

Section logs.
  Context `{!ProtoMessage FrameLog} `{!ProtoMessage GroupLog} `{!ProtoMessage BatchLog}
    `{!ProtoMessage ManagerLog_1_0} `{!ProtoMessage ManagerLog}.

Definition SerializeBudgetKeyTimeframeManagerLog (l : ManagerLog) := serialize_message l.
Definition SerializeBudgetKeyTimeframeManagerLog_1_0 (l : ManagerLog_1_0) := serialize_message l.

Definition SerializeBudgetKeyTimeframeLog_1_0 (f : BudgetKeyTimeframe) := serialize_message (frame_log f).

Definition SerializeBatchBudgetKeyTimeframeLog_1_0 (frames : list BudgetKeyTimeframe)
  : option (ExecutionResult * BytesBuffer) :=
  if Nat.eqb (length frames) 0 then
    Some (FailureExecutionResult SC_BUDGET_KEY_TIMEFRAME_MANAGER_INVALID_LOG, NewBytesBuffer 0)
  else serialize_message (mkBatchLog (frame_log <$> frames)).

(** The loop over the group's keys: each key's timeframe becomes an item. *)
Fixpoint group_items (frames : gmap frame_loc BudgetKeyTimeframe) (timeframes : gmap Z frame_loc)
    (time_buckets : list Z) : ExecutionResult * list FrameLog :=
  match time_buckets with
  | [] => (SuccessExecutionResult, [])
  | time_bucket :: rest =>
      let '(execution_result, budget_key_timeframe) := ConcurrentMap.Find timeframes time_bucket in
      match budget_key_timeframe ≫= (frames !!.) with
      | Some f =>
          let '(r, items) := group_items frames timeframes rest in (r, frame_log f :: items)
      | None => (execution_result, [])
      end
  end.

Definition SerializeBudgetKeyTimeframeGroupLog_1_0 (frames : gmap frame_loc BudgetKeyTimeframe)
    (g : BudgetKeyTimeframeGroup) : option (ExecutionResult * BytesBuffer) :=
  let '(execution_result, time_buckets) := ConcurrentMap.Keys (budget_key_timeframes g) in
  if negb (result_eqb execution_result SuccessExecutionResult) then Some (execution_result, NewBytesBuffer 0)
  else
    let '(execution_result, items) := group_items frames (budget_key_timeframes g) time_buckets in
    if negb (result_eqb execution_result SuccessExecutionResult) then Some (execution_result, NewBytesBuffer 0)
    else serialize_message (mkGroupLog (time_group g) items).

(** The two outer messages around a body. *)
Definition wrap_log (operation : OperationType) (tg : Z) (body : list Z)
  : option (ExecutionResult * BytesBuffer) :=
  '(execution_result, b) ← SerializeBudgetKeyTimeframeManagerLog_1_0 (mkManagerLog_1_0 operation tg body);
  if negb (result_eqb execution_result SuccessExecutionResult) then Some (execution_result, b)
  else SerializeBudgetKeyTimeframeManagerLog (mkManagerLog kCurrentVersion (BufferContents b)).

Definition SerializeBudgetKeyTimeframeLog (tg : Z) (f : BudgetKeyTimeframe)
  : option (ExecutionResult * BytesBuffer) :=
  '(execution_result, b) ← SerializeBudgetKeyTimeframeLog_1_0 f;
  if negb (result_eqb execution_result SuccessExecutionResult) then Some (execution_result, b)
  else wrap_log UPDATE_TIMEFRAME_RECORD tg (BufferContents b).

Definition SerializeBatchBudgetKeyTimeframeLog (tg : Z) (frames : list BudgetKeyTimeframe)
  : option (ExecutionResult * BytesBuffer) :=
  '(execution_result, b) ← SerializeBatchBudgetKeyTimeframeLog_1_0 frames;
  if negb (result_eqb execution_result SuccessExecutionResult) then Some (execution_result, b)
  else wrap_log BATCH_UPDATE_TIMEFRAME_RECORDS_OF_TIMEGROUP tg (BufferContents b).

Definition SerializeBudgetKeyTimeframeGroupLog (frames : gmap frame_loc BudgetKeyTimeframe)
    (g : BudgetKeyTimeframeGroup) : option (ExecutionResult * BytesBuffer) :=
  '(execution_result, b) ← SerializeBudgetKeyTimeframeGroupLog_1_0 frames g;
  if negb (result_eqb execution_result SuccessExecutionResult) then Some (execution_result, b)
  else wrap_log INSERT_TIMEGROUP_INTO_CACHE (time_group g) (BufferContents b).

Definition SerializeBudgetKeyTimeframeGroupRemoval (g : BudgetKeyTimeframeGroup)
  : option (ExecutionResult * BytesBuffer) :=
  wrap_log REMOVE_TIMEGROUP_FROM_CACHE (time_group g) [].

Definition DeserializeBudgetKeyTimeframeManagerLog (b : BytesBuffer)
  : option (ExecutionResult * option ManagerLog) :=
  '(execution_result, l) ← DeserializeProtoMessage b 0 (buffer_length b);
  if negb (result_eqb execution_result SuccessExecutionResult) then Some (execution_result, l)
  else Some (ValidateVersion (from_option log_version (mkVersion 0 0) l) kCurrentVersion, l).

Definition DeserializeBudgetKeyTimeframeManagerLog_1_0 (s : list Z)
  : ExecutionResult * option ManagerLog_1_0 := DeserializeProtoString s.

Definition DeserializeBudgetKeyTimeframeLog_1_0 (s : list Z)
  : ExecutionResult * option BudgetKeyTimeframe :=
  let '(execution_result, l) := DeserializeProtoString (M := FrameLog) s in
  if negb (result_eqb execution_result SuccessExecutionResult) then (execution_result, None)
  else (SuccessExecutionResult, frame_of_log <$> l).

Definition DeserializeBatchBudgetKeyTimeframeLog_1_0 (s : list Z)
  : ExecutionResult * list BudgetKeyTimeframe :=
  if Nat.eqb (length s) 0 then
    (FailureExecutionResult SC_BUDGET_KEY_TIMEFRAME_MANAGER_INVALID_LOG, [])
  else
    let '(execution_result, l) := DeserializeProtoString (M := BatchLog) s in
    if negb (result_eqb execution_result SuccessExecutionResult) then (execution_result, [])
    else
      let items := from_option batch_items [] l in
      if Nat.eqb (length items) 0 then
        (FailureExecutionResult SC_BUDGET_KEY_TIMEFRAME_MANAGER_INVALID_LOG, [])
      else (SuccessExecutionResult, frame_of_log <$> items).

(** The loop of the group: a bucket that comes twice overwrites the timeframe
    that is there. *)
Definition insert_items (items : list FrameLog) (m : gmap Z BudgetKeyTimeframe) : gmap Z BudgetKeyTimeframe :=
  foldl (λ m item, <[log_time_bucket item := frame_of_log item]> m) m items.

(** Gives the day and the timeframes of the group. *)
Definition DeserializeBudgetKeyTimeframeGroupLog_1_0 (s : list Z)
  : ExecutionResult * option (Z * gmap Z BudgetKeyTimeframe) :=
  if Nat.eqb (length s) 0 then
    (FailureExecutionResult SC_BUDGET_KEY_TIMEFRAME_MANAGER_CORRUPTED_KEY_METADATA, None)
  else
    let '(execution_result, l) := DeserializeProtoString (M := GroupLog) s in
    if negb (result_eqb execution_result SuccessExecutionResult) then (execution_result, None)
    else
      (SuccessExecutionResult, (λ l, (log_time_group l, insert_items (log_items l) ∅)) <$> l).

End logs.

(** ** What the manager is promised *)

(** The timeframes of a group, by bucket. *)
Definition group_frames (frames : gmap frame_loc BudgetKeyTimeframe) (g : BudgetKeyTimeframeGroup)
  : gmap Z BudgetKeyTimeframe :=
  omap (λ l, frames !! l) (budget_key_timeframes g).

(** A group whose pointers are valid and whose timeframes have the index they
    are stored under. *)
Definition valid_group (frames : gmap frame_loc BudgetKeyTimeframe) (g : BudgetKeyTimeframeGroup) : Prop :=
  is_u64 (time_group g) ∧ budget_key_timeframes g ≠ ∅ ∧
  ∀ b l, budget_key_timeframes g !! b = Some l →
    ∃ f, frames !! l = Some f ∧ time_bucket_index f = b ∧ valid_frame f.

(** A decoded log: the operation, the day and the body. *)
Record DecodedLog := mkDecoded { decoded_operation : OperationType; decoded_group : Z; decoded_body : list Z }.

(** The logs the manager writes and reads. What it reads of a log it wrote is
    what it wrote. *)
Class TimeframeLogs := {
  write_frame : Z → BudgetKeyTimeframe → option (ExecutionResult * BytesBuffer);
  write_batch : Z → list BudgetKeyTimeframe → option (ExecutionResult * BytesBuffer);
  write_group : gmap frame_loc BudgetKeyTimeframe → BudgetKeyTimeframeGroup →
    option (ExecutionResult * BytesBuffer);
  write_removal : BudgetKeyTimeframeGroup → option (ExecutionResult * BytesBuffer);
  read_log : BytesBuffer → option (ExecutionResult * option DecodedLog);
  read_frame : list Z → ExecutionResult * option BudgetKeyTimeframe;
  read_batch : list Z → ExecutionResult * list BudgetKeyTimeframe;
  read_group : list Z → ExecutionResult * option (Z * gmap Z BudgetKeyTimeframe);
}.

(** The timeframes one log may hold. *)
Definition max_items : Z := 2 ^ 16.

(** [w] wrote a log that reads as [operation] on [tg] with a body of which [P]
    holds. *)
Definition wrote `{TimeframeLogs} (w : option (ExecutionResult * BytesBuffer))
    (operation : OperationType) (tg : Z) (P : list Z → Prop) : Prop :=
  ∃ b body, w = Some (SuccessExecutionResult, b) ∧
    read_log b = Some (SuccessExecutionResult, Some (mkDecoded operation tg body)) ∧ P body.

Class TimeframeLogsLaws `{TimeframeLogs} : Prop := {
  write_frame_law tg f : is_u64 tg → valid_frame f →
    wrote (write_frame tg f) UPDATE_TIMEFRAME_RECORD tg
      (λ body, read_frame body = (SuccessExecutionResult, Some f));
  write_batch_law tg frames : is_u64 tg → frames ≠ [] →
    Z.of_nat (length frames) ≤ max_items → Forall valid_frame frames →
    wrote (write_batch tg frames) BATCH_UPDATE_TIMEFRAME_RECORDS_OF_TIMEGROUP tg
      (λ body, read_batch body = (SuccessExecutionResult, frames));
  write_group_law frames g : valid_group frames g → Z.of_nat (size (budget_key_timeframes g)) ≤ max_items →
    wrote (write_group frames g) INSERT_TIMEGROUP_INTO_CACHE (time_group g)
      (λ body, read_group body = (SuccessExecutionResult, Some (time_group g, group_frames frames g)));
  write_removal_law g : is_u64 (time_group g) →
    wrote (write_removal g) REMOVE_TIMEGROUP_FROM_CACHE (time_group g) (λ _, True);
  (* the journal keeps the bytes of a log *)
  write_group_stored frames g b : valid_group frames g → Z.of_nat (size (budget_key_timeframes g)) ≤ max_items →
    write_group frames g = Some (SuccessExecutionResult, b) → BytesBufferOf (BufferContents b) = b;
}.

(** ** The functions keep the promise *)

#[export] Instance proto_timeframe_logs `{!ProtoMessage FrameLog} `{!ProtoMessage GroupLog}
  `{!ProtoMessage BatchLog} `{!ProtoMessage ManagerLog_1_0} `{!ProtoMessage ManagerLog} : TimeframeLogs := {|
  write_frame := SerializeBudgetKeyTimeframeLog;
  write_batch := SerializeBatchBudgetKeyTimeframeLog;
  write_group := SerializeBudgetKeyTimeframeGroupLog;
  write_removal := SerializeBudgetKeyTimeframeGroupRemoval;
  read_log b :=
    '(r, l) ← DeserializeBudgetKeyTimeframeManagerLog b;
    if negb (Successful r) then Some (r, None)
    else
      let '(r, l) := DeserializeBudgetKeyTimeframeManagerLog_1_0 (from_option log_body [] l) in
      if negb (Successful r) then Some (r, None)
      else Some (r, (λ l, mkDecoded (operation_type l) (manager_time_group l) (log_1_0_body l)) <$> l);
  read_frame := DeserializeBudgetKeyTimeframeLog_1_0;
  read_batch := DeserializeBatchBudgetKeyTimeframeLog_1_0;
  read_group := DeserializeBudgetKeyTimeframeGroupLog_1_0;
|}.

(** The messages the manager writes: fields that fit their types, no empty
    message, and no more items and bytes than the bounds below. *)
Definition max_body : Z := 2 ^ 24.
Definition max_log_1_0 : Z := 2 ^ 25.
Definition max_log : Z := 2 ^ 26.

Definition valid_frame_log (l : FrameLog) : Prop :=
  is_u64 (log_time_bucket l) ∧ 0 ≤ log_token_count l < 2 ^ 32 ∧ 0 ≤ log_active_token_count l < 2 ^ 32 ∧
  valid_uuid (log_active_transaction_id l).

Definition valid_items (items : list FrameLog) : Prop :=
  items ≠ [] ∧ Z.of_nat (length items) ≤ max_items ∧ Forall valid_frame_log items.

Definition valid_group_log (l : GroupLog) : Prop := is_u64 (log_time_group l) ∧ valid_items (log_items l).
Definition valid_batch_log (l : BatchLog) : Prop := valid_items (batch_items l).
Definition valid_log_1_0 (l : ManagerLog_1_0) : Prop :=
  operation_type l ≠ OPERATION_TYPE_UNKNOWN ∧ is_u64 (manager_time_group l) ∧
  Z.of_nat (length (log_1_0_body l)) ≤ max_body.
Definition valid_log (l : ManagerLog) : Prop :=
  is_u64 (major (log_version l)) ∧ is_u64 (minor (log_version l)) ∧
  Z.of_nat (length (log_body l)) ≤ max_log_1_0.

Lemma valid_frame_frame_log f : valid_frame f → valid_frame_log (frame_log f).
Proof.
  intros (? & ? & ? & ?). unfold valid_frame_log, is_u8 in *; simpl. split_and!; try done; lia.
Qed.

Lemma frames_of_logs fs : Forall valid_frame fs → frame_of_log <$> (frame_log <$> fs) = fs.
Proof.
  induction 1 as [|f fs Hf _ IH]; [done|]. rewrite !fmap_cons. by rewrite frame_of_log_frame_log, IH.
Qed.

(** The items of a group: one for each key, in the order of the keys. *)
Lemma group_items_spec frames g keys :
  valid_group frames g → (∀ b, b ∈ keys → is_Some (budget_key_timeframes g !! b)) →
  ∃ fs, group_items frames (budget_key_timeframes g) keys = (SuccessExecutionResult, frame_log <$> fs) ∧
    Forall valid_frame fs ∧ time_bucket_index <$> fs = keys ∧
    ∀ f, f ∈ fs → group_frames frames g !! time_bucket_index f = Some f.
Proof.
  intros (_ & _ & Hg). induction keys as [|b keys IH]; intros Hk; simpl.
  { exists []. split_and!; [done|constructor|done|set_solver]. }
  destruct (Hk b) as [l Hl]; [by left|]. destruct (Hg b l Hl) as (f & Hf & Hb & Hvf).
  rewrite (ConcurrentMap.Find_Some _ _ _ Hl). simpl. rewrite Hf.
  destruct IH as (fs & -> & Hv & Hidx & Hin); [intros; apply Hk; by right|].
  exists (f :: fs). split_and!; [done|by constructor|by rewrite fmap_cons, Hb, Hidx|].
  intros f' [->|?]%elem_of_cons; [|by apply Hin]. unfold group_frames.
  rewrite Hb. apply lookup_omap_Some. by exists l.
Qed.

Lemma insert_items_lookup fs m b :
  NoDup (time_bucket_index <$> fs) → Forall valid_frame fs →
  insert_items (frame_log <$> fs) m !! b
  = match list_find (λ f, time_bucket_index f = b) fs with Some (_, f) => Some f | None => m !! b end.
Proof.
  intros Hnd Hv. unfold insert_items. revert m. induction Hv as [|f fs Hf _ IH]; intros m; simpl; [done|].
  rewrite fmap_cons in Hnd. apply NoDup_cons in Hnd as [Hnot Hnd]. rewrite IH by done. simpl.
  rewrite frame_of_log_frame_log by done. destruct (decide (time_bucket_index f = b)) as [<-|Hne].
  - destruct (list_find _ fs) as [[i f']|] eqn:Hfind.
    + exfalso. apply list_find_Some in Hfind as (Hi & Heq & _). apply Hnot. rewrite <- Heq.
      apply list_elem_of_fmap_2. by eapply list_elem_of_lookup_2.
    + simpl. by rewrite lookup_insert_eq.
  - rewrite lookup_insert_ne by done. by destruct (list_find _ fs) as [[]|].
Qed.

Section laws.
  Context `{!ProtoMessage FrameLog} `{!ProtoMessage GroupLog} `{!ProtoMessage BatchLog}
    `{!ProtoMessage ManagerLog_1_0} `{!ProtoMessage ManagerLog}.
  Context `{!ProtoMessageLaws FrameLog valid_frame_log max_body}
    `{!ProtoMessageLaws GroupLog valid_group_log max_body}
    `{!ProtoMessageLaws BatchLog valid_batch_log max_body}
    `{!ProtoMessageLaws ManagerLog_1_0 valid_log_1_0 max_log_1_0}
    `{!ProtoMessageLaws ManagerLog valid_log max_log}.
  Context `{!ProtoNotEmpty FrameLog valid_frame_log max_body}
    `{!ProtoNotEmpty GroupLog valid_group_log max_body}
    `{!ProtoNotEmpty BatchLog valid_batch_log max_body}
    `{!ProtoNotEmpty ManagerLog_1_0 valid_log_1_0 max_log_1_0}
    `{!ProtoNotEmpty ManagerLog valid_log max_log}.
  #[local] Set Default Proof Using "Type*".

Lemma wrap_log_spec operation tg body :
  operation ≠ OPERATION_TYPE_UNKNOWN → is_u64 tg → Z.of_nat (length body) ≤ max_body →
  ∃ b, wrap_log operation tg body = Some (SuccessExecutionResult, b) ∧
    read_log b = Some (SuccessExecutionResult, Some (mkDecoded operation tg body)).
Proof.
  intros Hop Htg Hbody. set (l1 := mkManagerLog_1_0 operation tg body).
  assert (valid_log_1_0 l1) as Hv1 by by split_and!.
  unfold wrap_log. unfold SerializeBudgetKeyTimeframeManagerLog_1_0. fold l1.
  destruct (serialize_message_spec valid_log_1_0 max_log_1_0 l1 Hv1) as (b1 & -> & Hb1 & _ & _). simpl.
  rewrite Hb1. set (l := mkManagerLog kCurrentVersion (proto_bytes l1)).
  assert (valid_log l) as Hv.
  { pose proof (proto_size l1 Hv1). pose proof (proto_size_bound l1 Hv1).
    unfold valid_log, is_u64; simpl. lia. }
  unfold SerializeBudgetKeyTimeframeManagerLog.
  destruct (serialize_message_spec valid_log max_log l Hv) as (b & Hb & _).
  exists b. split; [done|]. simpl. unfold DeserializeBudgetKeyTimeframeManagerLog.
  rewrite (DeserializeProtoMessage_written valid_log max_log l b Hv Hb). simpl.
  unfold DeserializeBudgetKeyTimeframeManagerLog_1_0.
  rewrite (DeserializeProtoString_bytes valid_log_1_0 max_log_1_0) by (try done; by apply proto_not_empty).
  done.
Qed.

Lemma wrap_log_stored operation tg body b :
  operation ≠ OPERATION_TYPE_UNKNOWN → is_u64 tg → Z.of_nat (length body) ≤ max_body →
  wrap_log operation tg body = Some (SuccessExecutionResult, b) → BytesBufferOf (BufferContents b) = b.
Proof.
  intros Hop Htg Hbody. set (l1 := mkManagerLog_1_0 operation tg body).
  assert (valid_log_1_0 l1) as Hv1 by by split_and!.
  unfold wrap_log. unfold SerializeBudgetKeyTimeframeManagerLog_1_0. fold l1.
  destruct (serialize_message_spec valid_log_1_0 max_log_1_0 l1 Hv1) as (b1 & -> & Hb1 & _ & _). simpl.
  rewrite Hb1. apply (serialize_message_stored valid_log max_log).
  pose proof (proto_size l1 Hv1). pose proof (proto_size_bound l1 Hv1).
  unfold valid_log, is_u64; simpl. lia.
Qed.

(** A body that serialized can be wrapped. *)
Lemma body_fits {M} `{!ProtoMessage M} (valid : M → Prop) `{!ProtoMessageLaws M valid max_body} (m : M) :
  valid m → Z.of_nat (length (proto_bytes m)) ≤ max_body.
Proof. intros Hm. rewrite <- proto_size by done. by apply proto_size_bound. Qed.

Lemma SerializeBudgetKeyTimeframeLog_spec tg f :
  is_u64 tg → valid_frame f →
  wrote (SerializeBudgetKeyTimeframeLog tg f) UPDATE_TIMEFRAME_RECORD tg
    (λ body, read_frame body = (SuccessExecutionResult, Some f)).
Proof.
  intros Htg Hf. pose proof (valid_frame_frame_log f Hf) as Hl.
  unfold SerializeBudgetKeyTimeframeLog, SerializeBudgetKeyTimeframeLog_1_0.
  destruct (serialize_message_spec valid_frame_log max_body _ Hl) as (b1 & -> & Hb1 & _). simpl. rewrite Hb1.
  destruct (wrap_log_spec UPDATE_TIMEFRAME_RECORD tg (proto_bytes (frame_log f))) as (b & -> & Hread);
    [done|done|by apply (body_fits valid_frame_log)|].
  exists b, (proto_bytes (frame_log f)). split_and!; [done|done|]. simpl.
  unfold DeserializeBudgetKeyTimeframeLog_1_0.
  rewrite (DeserializeProtoString_bytes valid_frame_log max_body) by (try done; by apply proto_not_empty).
  simpl. by rewrite frame_of_log_frame_log.
Qed.

Lemma SerializeBatchBudgetKeyTimeframeLog_spec tg fs :
  is_u64 tg → fs ≠ [] → Z.of_nat (length fs) ≤ max_items → Forall valid_frame fs →
  wrote (SerializeBatchBudgetKeyTimeframeLog tg fs) BATCH_UPDATE_TIMEFRAME_RECORDS_OF_TIMEGROUP tg
    (λ body, read_batch body = (SuccessExecutionResult, fs)).
Proof.
  intros Htg Hne Hmax Hf. set (l := mkBatchLog (frame_log <$> fs)).
  assert (valid_batch_log l) as Hl.
  { split_and!; simpl; [by destruct fs|by rewrite length_fmap|].
    apply Forall_fmap. by eapply Forall_impl, valid_frame_frame_log. }
  unfold SerializeBatchBudgetKeyTimeframeLog, SerializeBatchBudgetKeyTimeframeLog_1_0.
  destruct (Nat.eqb (length fs) 0) eqn:H0; [by destruct fs|]. fold l.
  destruct (serialize_message_spec valid_batch_log max_body _ Hl) as (b1 & -> & Hb1 & _). simpl. rewrite Hb1.
  destruct (wrap_log_spec BATCH_UPDATE_TIMEFRAME_RECORDS_OF_TIMEGROUP tg (proto_bytes l)) as (b & -> & Hread);
    [done|done|by apply (body_fits valid_batch_log)|].
  exists b, (proto_bytes l). split_and!; [done|done|]. simpl.
  unfold DeserializeBatchBudgetKeyTimeframeLog_1_0.
  rewrite (DeserializeProtoString_bytes valid_batch_log max_body) by (try done; by apply proto_not_empty).
  pose proof (proto_not_empty l Hl). destruct (proto_bytes l); [done|]. simpl.
  rewrite length_fmap, H0. by rewrite frames_of_logs.
Qed.

(** The message of a group: its timeframes in the order of the keys. *)
Lemma group_message_spec frames g :
  valid_group frames g → Z.of_nat (size (budget_key_timeframes g)) ≤ max_items →
  ∃ fs, let l := mkGroupLog (time_group g) (frame_log <$> fs) in
    SerializeBudgetKeyTimeframeGroupLog_1_0 frames g = serialize_message l ∧ valid_group_log l ∧
    Forall valid_frame fs ∧ NoDup (time_bucket_index <$> fs) ∧
    (∀ b, b ∈ time_bucket_index <$> fs ↔ is_Some (budget_key_timeframes g !! b)) ∧
    (∀ f, f ∈ fs → group_frames frames g !! time_bucket_index f = Some f).
Proof.
  intros Hg Hmax. pose proof Hg as (Htg & Hne & Hp).
  unfold SerializeBudgetKeyTimeframeGroupLog_1_0. simpl.
  set (keys := (map_to_list (budget_key_timeframes g)).*1).
  assert (∀ b, b ∈ keys ↔ is_Some (budget_key_timeframes g !! b)) as Hkeys.
  { intros b. unfold keys. rewrite list_elem_of_fmap. split.
    - intros ([b' l] & -> & Hin%elem_of_map_to_list). by eexists.
    - intros [l Hl]. exists (b, l). split; [done|]. by apply elem_of_map_to_list. }
  destruct (group_items_spec frames g keys Hg) as (fs & -> & Hv & Hidx & Hin); [by intros; apply Hkeys|].
  simpl. assert (length fs = size (budget_key_timeframes g)) as Hlen.
  { rewrite <- (length_fmap time_bucket_index), Hidx. unfold keys. rewrite length_fmap. apply length_map_to_list. }
  exists fs. split; [done|]. split.
  - split; [done|]. split_and!; simpl.
    + intros Hnil. apply Hne. apply map_size_empty_inv. rewrite <- Hlen. by destruct fs.
    + by rewrite length_fmap, Hlen.
    + apply Forall_fmap. by eapply Forall_impl, valid_frame_frame_log.
  - rewrite Hidx. split_and!; [done|apply NoDup_fst_map_to_list|exact Hkeys|exact Hin].
Qed.

Lemma SerializeBudgetKeyTimeframeGroupLog_spec frames g :
  valid_group frames g → Z.of_nat (size (budget_key_timeframes g)) ≤ max_items →
  wrote (SerializeBudgetKeyTimeframeGroupLog frames g) INSERT_TIMEGROUP_INTO_CACHE (time_group g)
    (λ body, read_group body = (SuccessExecutionResult, Some (time_group g, group_frames frames g))).
Proof.
  intros Hg Hmax. destruct (group_message_spec frames g Hg Hmax) as (fs & Hs & Hl & Hv & Hnd & Hkeys & Hin).
  pose proof Hg as (Htg & _ & _). unfold SerializeBudgetKeyTimeframeGroupLog. rewrite Hs. clear Hs.
  set (l := mkGroupLog (time_group g) (frame_log <$> fs)) in *.
  destruct (serialize_message_spec valid_group_log max_body _ Hl) as (b1 & -> & Hb1 & _). simpl. rewrite Hb1.
  destruct (wrap_log_spec INSERT_TIMEGROUP_INTO_CACHE (time_group g) (proto_bytes l)) as (b & -> & Hread);
    [done|done|by apply (body_fits valid_group_log)|].
  exists b, (proto_bytes l). split_and!; [done|done|]. simpl.
  unfold DeserializeBudgetKeyTimeframeGroupLog_1_0.
  rewrite (DeserializeProtoString_bytes valid_group_log max_body) by (try done; by apply proto_not_empty).
  pose proof (proto_not_empty l Hl). destruct (proto_bytes l); [done|]. simpl. do 3 f_equal.
  apply map_eq. intros b'. rewrite insert_items_lookup;
    [|exact Hnd|done]. rewrite lookup_empty.
  destruct (list_find _ fs) as [[i f]|] eqn:Hfind.
  - apply list_find_Some in Hfind as (Hi & <- & _). symmetry. apply Hin. by eapply list_elem_of_lookup_2.
  - symmetry. apply list_find_None in Hfind. rewrite Forall_forall in Hfind. unfold group_frames.
    rewrite lookup_omap. apply eq_None_not_Some. intros [f0 (l' & Hl' & _)%bind_Some].
    assert (b' ∈ time_bucket_index <$> fs) as Hinb by (apply Hkeys; by eexists).
    apply list_elem_of_fmap in Hinb as (f' & -> & Hf'). by apply (Hfind f' Hf').
Qed.

Lemma SerializeBudgetKeyTimeframeGroupLog_stored frames g b :
  valid_group frames g → Z.of_nat (size (budget_key_timeframes g)) ≤ max_items →
  SerializeBudgetKeyTimeframeGroupLog frames g = Some (SuccessExecutionResult, b) →
  BytesBufferOf (BufferContents b) = b.
Proof.
  intros Hg Hmax. destruct (group_message_spec frames g Hg Hmax) as (fs & Hw & Hl & _).
  unfold SerializeBudgetKeyTimeframeGroupLog. rewrite Hw. clear Hw.
  destruct (serialize_message_spec valid_group_log max_body _ Hl) as (b1 & -> & Hb1 & _). simpl.
  rewrite Hb1. apply wrap_log_stored; [done|apply Hg|by apply (body_fits valid_group_log)].
Qed.

Lemma SerializeBudgetKeyTimeframeGroupRemoval_spec g :
  is_u64 (time_group g) →
  wrote (SerializeBudgetKeyTimeframeGroupRemoval g) REMOVE_TIMEGROUP_FROM_CACHE (time_group g) (λ _, True).
Proof.
  intros Htg. unfold SerializeBudgetKeyTimeframeGroupRemoval.
  destruct (wrap_log_spec REMOVE_TIMEGROUP_FROM_CACHE (time_group g) []) as (b & -> & Hread); [done|done|done|].
  by exists b, [].
Qed.

(** Each log the manager writes (one hour, several hours of a day, a whole
    day, the removal of a day) is read back as the same operation on the same
    day with the same timeframes, whatever the protobuf library's bytes are. *)
Theorem timeframe_logs_roundtrip frames g fs f tg :
  valid_group frames g → Z.of_nat (size (budget_key_timeframes g)) ≤ max_items →
  fs ≠ [] → Z.of_nat (length fs) ≤ max_items → Forall valid_frame fs → valid_frame f → is_u64 tg →
  wrote (SerializeBudgetKeyTimeframeLog tg f) UPDATE_TIMEFRAME_RECORD tg
    (λ body, DeserializeBudgetKeyTimeframeLog_1_0 body = (SuccessExecutionResult, Some f)) ∧
  wrote (SerializeBatchBudgetKeyTimeframeLog tg fs) BATCH_UPDATE_TIMEFRAME_RECORDS_OF_TIMEGROUP tg
    (λ body, DeserializeBatchBudgetKeyTimeframeLog_1_0 body = (SuccessExecutionResult, fs)) ∧
  wrote (SerializeBudgetKeyTimeframeGroupLog frames g) INSERT_TIMEGROUP_INTO_CACHE (time_group g)
    (λ body, DeserializeBudgetKeyTimeframeGroupLog_1_0 body
             = (SuccessExecutionResult, Some (time_group g, group_frames frames g))) ∧
  wrote (SerializeBudgetKeyTimeframeGroupRemoval g) REMOVE_TIMEGROUP_FROM_CACHE (time_group g) (λ _, True).
Proof.
  intros Hg ? ? ? ? ? ?. split_and!.
  - by apply SerializeBudgetKeyTimeframeLog_spec.
  - by apply SerializeBatchBudgetKeyTimeframeLog_spec.
  - by apply SerializeBudgetKeyTimeframeGroupLog_spec.
  - apply SerializeBudgetKeyTimeframeGroupRemoval_spec, Hg.
Qed.

#[export] Instance proto_timeframe_logs_laws : TimeframeLogsLaws.
Proof.
  constructor.
  - apply SerializeBudgetKeyTimeframeLog_spec.
  - apply SerializeBatchBudgetKeyTimeframeLog_spec.
  - apply SerializeBudgetKeyTimeframeGroupLog_spec.
  - apply SerializeBudgetKeyTimeframeGroupRemoval_spec.
  - apply SerializeBudgetKeyTimeframeGroupLog_stored.
Qed.

End laws.

(** ** A concrete wire form

    An instance of the message classes for the examples: a message is the list of
    its fields. *)

Definition fields_of (l : FrameLog) : list Z :=
  [log_time_bucket l; log_token_count l; log_active_token_count l;
   high (log_active_transaction_id l); low (log_active_transaction_id l)].

Fixpoint frames_of_fields (fields : list Z) : option (list FrameLog) :=
  match fields with
  | [] => Some []
  | b :: t :: a :: h :: l :: rest => cons (mkFrameLog b t a (mkUuid h l)) <$> frames_of_fields rest
  | _ => None
  end.

Definition all_fields (items : list FrameLog) : list Z := concat (fields_of <$> items).

Lemma frames_of_all_fields items : frames_of_fields (all_fields items) = Some items.
Proof.
  induction items as [|[b t a [h l]] items IH]; [done|].
  change (cons (mkFrameLog b t a (mkUuid h l)) <$> frames_of_fields (all_fields items)
          = Some (mkFrameLog b t a (mkUuid h l) :: items)).
  by rewrite IH.
Qed.

Lemma length_all_fields items : length (all_fields items) = (5 * length items)%nat.
Proof.
  induction items as [|l items IH]; [done|].
  change (length (fields_of l ++ all_fields items) = (5 * S (length items))%nat).
  rewrite length_app, IH. cbn [fields_of length]. lia.
Qed.

Definition operation_number (o : OperationType) : Z :=
  match o with
  | OPERATION_TYPE_UNKNOWN => 0
  | INSERT_TIMEGROUP_INTO_CACHE => 1
  | REMOVE_TIMEGROUP_FROM_CACHE => 2
  | UPDATE_TIMEFRAME_RECORD => 3
  | BATCH_UPDATE_TIMEFRAME_RECORDS_OF_TIMEGROUP => 4
  end.

Definition operation_of_number (n : Z) : OperationType :=
  if n =? 1 then INSERT_TIMEGROUP_INTO_CACHE
  else if n =? 2 then REMOVE_TIMEGROUP_FROM_CACHE
  else if n =? 3 then UPDATE_TIMEFRAME_RECORD
  else if n =? 4 then BATCH_UPDATE_TIMEFRAME_RECORDS_OF_TIMEGROUP
  else OPERATION_TYPE_UNKNOWN.

Module ExampleProto.

#[export] Instance frame_message : ProtoMessage FrameLog :=
  fields_message (λ l, all_fields [l])
    (λ fields, match frames_of_fields fields with Some [l] => Some l | _ => None end).
#[export] Instance group_message : ProtoMessage GroupLog :=
  fields_message (λ l, log_time_group l :: all_fields (log_items l))
    (λ fields, match fields with tg :: rest => mkGroupLog tg <$> frames_of_fields rest | [] => None end).
#[export] Instance batch_message : ProtoMessage BatchLog :=
  fields_message (λ l, all_fields (batch_items l)) (λ fields, mkBatchLog <$> frames_of_fields fields).
#[export] Instance log_1_0_message : ProtoMessage ManagerLog_1_0 :=
  fields_message (λ l, operation_number (operation_type l) :: manager_time_group l :: log_1_0_body l)
    (λ fields, match fields with
               | o :: tg :: body => Some (mkManagerLog_1_0 (operation_of_number o) tg body)
               | _ => None
               end).
#[export] Instance log_message : ProtoMessage ManagerLog :=
  fields_message (λ l, major (log_version l) :: minor (log_version l) :: log_body l)
    (λ fields, match fields with
               | ma :: mi :: body => Some (mkManagerLog (mkVersion ma mi) body)
               | _ => None
               end).

#[export] Instance frame_laws : ProtoMessageLaws FrameLog valid_frame_log max_body.
Proof. apply fields_message_laws; [by intros [? ? ? []] _|done|by intros [? ? ? []]]. Defined.
#[export] Instance group_laws : ProtoMessageLaws GroupLog valid_group_log max_body.
Proof.
  apply fields_message_laws; [|done|].
  - intros l (_ & _ & Hmax & _). simpl. rewrite length_all_fields.
    unfold max_items, max_body in *. lia.
  - intros [tg items]. simpl. by rewrite frames_of_all_fields.
Defined.
#[export] Instance batch_laws : ProtoMessageLaws BatchLog valid_batch_log max_body.
Proof.
  apply fields_message_laws; [|done|].
  - intros l (_ & Hmax & _). simpl. rewrite length_all_fields.
    unfold max_items, max_body in *. lia.
  - intros [items]. simpl. by rewrite frames_of_all_fields.
Defined.
#[export] Instance log_1_0_laws : ProtoMessageLaws ManagerLog_1_0 valid_log_1_0 max_log_1_0.
Proof.
  apply fields_message_laws; [|done|by intros [[] ? ?]].
  intros l (_ & _ & Hmax). simpl. unfold max_body, max_log_1_0 in *. lia.
Defined.
#[export] Instance log_laws : ProtoMessageLaws ManagerLog valid_log max_log.
Proof.
  apply fields_message_laws; [|done|by intros [[] ?]].
  intros l (_ & _ & Hmax). simpl. unfold max_log_1_0, max_log in *. lia.
Defined.

#[export] Instance frame_not_empty : ProtoNotEmpty FrameLog valid_frame_log max_body.
Proof. by intros [? ? ? []] _. Qed.
#[export] Instance group_not_empty : ProtoNotEmpty GroupLog valid_group_log max_body.
Proof. by intros l _. Qed.
#[export] Instance batch_not_empty : ProtoNotEmpty BatchLog valid_batch_log max_body.
Proof.
  intros [items] (Hne & _) Hb. simpl in *. apply (f_equal length) in Hb. simpl in Hb.
  rewrite length_all_fields in Hb. destruct items; simpl in *; [done|lia].
Qed.
#[export] Instance log_1_0_not_empty : ProtoNotEmpty ManagerLog_1_0 valid_log_1_0 max_log_1_0.
Proof. by intros l _. Qed.
#[export] Instance log_not_empty : ProtoNotEmpty ManagerLog valid_log max_log.
Proof. by intros l _. Qed.

End ExampleProto.

(** ** Examples *)

Section examples.
  Import ExampleProto.

Definition example_frame : BudgetKeyTimeframe := mkFrame 7 1 (mkUuid 1 2) 0.
Definition example_frames : gmap frame_loc BudgetKeyTimeframe := {[ 1%positive := example_frame ]}.
Definition example_group : BudgetKeyTimeframeGroup := mkGroup 19000 {[ 7 := 1%positive ]} true false.

Lemma example_frame_valid : valid_frame example_frame.
Proof. vm_compute. repeat split; congruence. Qed.

Lemma example_group_valid : valid_group example_frames example_group.
Proof.
  split_and!; [vm_compute; split; congruence|done|]. intros b l Hl.
  change (({[ 7 := 1%positive ]} : gmap Z frame_loc) !! b = Some l) in Hl.
  apply lookup_singleton_Some in Hl as [<- <-]. exists example_frame. split_and!; [done|done|].
  apply example_frame_valid.
Qed.

Lemma timeframe_logs_roundtrip_witness :
  wrote (SerializeBudgetKeyTimeframeLog 19000 example_frame) UPDATE_TIMEFRAME_RECORD 19000
    (λ body, DeserializeBudgetKeyTimeframeLog_1_0 body = (SuccessExecutionResult, Some example_frame)) ∧
  wrote (SerializeBatchBudgetKeyTimeframeLog 19000 [example_frame; example_frame])
    BATCH_UPDATE_TIMEFRAME_RECORDS_OF_TIMEGROUP 19000
    (λ body, DeserializeBatchBudgetKeyTimeframeLog_1_0 body
             = (SuccessExecutionResult, [example_frame; example_frame])) ∧
  wrote (SerializeBudgetKeyTimeframeGroupLog example_frames example_group) INSERT_TIMEGROUP_INTO_CACHE 19000
    (λ body, DeserializeBudgetKeyTimeframeGroupLog_1_0 body
             = (SuccessExecutionResult, Some (19000, group_frames example_frames example_group))) ∧
  wrote (SerializeBudgetKeyTimeframeGroupRemoval example_group) REMOVE_TIMEGROUP_FROM_CACHE 19000 (λ _, True).
Proof.
  apply (timeframe_logs_roundtrip example_frames example_group [example_frame; example_frame]
    example_frame 19000 example_group_valid).
  - vm_compute. congruence.
  - discriminate.
  - vm_compute. congruence.
  - repeat constructor; try apply example_frame_valid; vm_compute; congruence.
  - apply example_frame_valid.
  - vm_compute. split; congruence.
Defined.

End examples.
