(* ===== verification/TimeframeManager.v ===== *)
(** * The budget key timeframe manager

    Models [cc/pbs/budget_key_timeframe_manager/src/budget_key_timeframe_manager.cc]:
    the cache of the days of one budget key, each day loaded from the NoSQL
    database, journaled, updated under the journal, unloaded by the garbage
    collector and recovered from logs and checkpoints.

    Groups and timeframes are shared between the cache, the calls in flight and
    the transaction protocols, so they live in two heaps and are referred to by
    location. A handler gives the calls it makes to the outside ([Action]); a
    call with a callback carries what the callback binds, and the callback is a
    handler of its own. [None] is undefined behaviour: a null or dangling
    pointer, an index out of range, or a read of the wrong variant. Metrics and
    logging are not modelled. *)

From S2P Require Import Prelude Text ExecutionResult ErrorCodes NoSQLDatabase Uuid ConcurrentMap Serialization AutoExpiryMap AutoExpiryView TimeframeUtils TimeframeLog.
From stdpp Require Import sorting options.

Local Open Scope Z_scope.

Definition group_loc : Type := positive.

Record BudgetKeyTimeframeManager := mkManager {
  budget_key_timeframe_groups_ : AutoExpiryConcurrentMap (K := Z) (V := group_loc);
  group_heap : gmap group_loc BudgetKeyTimeframeGroup;
  frame_heap : gmap frame_loc BudgetKeyTimeframe;
}.

Definition with_cache c (s : BudgetKeyTimeframeManager) := mkManager c (group_heap s) (frame_heap s).
Definition with_groups gs (s : BudgetKeyTimeframeManager) :=
  mkManager (budget_key_timeframe_groups_ s) gs (frame_heap s).
Definition with_frames fs (s : BudgetKeyTimeframeManager) :=
  mkManager (budget_key_timeframe_groups_ s) (group_heap s) fs.

(** [kBudgetKeyTimeframeManagerCacheLifetimeSeconds], the lifetime extended on
    access, entries blocked while they are evicted. *)
Definition cache_config : Config := mkConfig 120 true true.

(** Writes to fields of a shared group or timeframe. *)
Definition write_needs_loader (b : bool) (g : BudgetKeyTimeframeGroup) :=
  mkGroup (time_group g) (budget_key_timeframes g) (is_loaded g) b.
Definition write_is_loaded (b : bool) (g : BudgetKeyTimeframeGroup) :=
  mkGroup (time_group g) (budget_key_timeframes g) b (needs_loader g).
Definition write_timeframes (m : gmap Z frame_loc) (g : BudgetKeyTimeframeGroup) :=
  mkGroup (time_group g) m (is_loaded g) (needs_loader g).

Definition on_group (f : BudgetKeyTimeframeGroup → BudgetKeyTimeframeGroup) (g : group_loc)
    (s : BudgetKeyTimeframeManager) : BudgetKeyTimeframeManager :=
  with_groups (alter f g (group_heap s)) s.
Definition on_frame (f : BudgetKeyTimeframe → BudgetKeyTimeframe) (l : frame_loc)
    (s : BudgetKeyTimeframeManager) : BudgetKeyTimeframeManager :=
  with_frames (alter f l (frame_heap s)) s.

(** [make_shared]. *)
Definition make_group (g : BudgetKeyTimeframeGroup) (s : BudgetKeyTimeframeManager)
  : group_loc * BudgetKeyTimeframeManager :=
  let l := fresh (dom (group_heap s)) in (l, with_groups (<[l := g]> (group_heap s)) s).
Definition make_frame (f : BudgetKeyTimeframe) (s : BudgetKeyTimeframeManager)
  : frame_loc * BudgetKeyTimeframeManager :=
  let l := fresh (dom (frame_heap s)) in (l, with_frames (<[l := f]> (frame_heap s)) s).

(** ** Requests and calls *)

Record LoadContext := mkLoad {
  load_activity : Uuid;
  reporting_times : list Z;
  budget_key_frames : option (list frame_loc); (* of the response *)
}.

Record BudgetKeyTimeframeUpdateInfo := mkUpdateInfo {
  reporting_time : Z;
  update_transaction_id : Uuid;
  update_active_token_count : Z;
  update_token_count : Z;
}.

Record UpdateContext := mkUpdate {
  update_activity : Uuid;
  timeframes_to_update : list BudgetKeyTimeframeUpdateInfo;
}.

Record DatabaseItemKey := mkItemKey {
  table_name : string;
  partition_key : string * string;
  sort_key : string * string;
}.

Record JournalLogRequest := mkLogRequest {
  component_id : Uuid;
  log_id : Uuid;
  log_data : BytesBuffer;
}.

(** What the callback of a journal log binds. *)
Inductive LogCallback :=
| OnLoadLogged (ctx : LoadContext) (g : group_loc)
| OnUpdateLogged (ctx : UpdateContext) (frames : list frame_loc)
| OnRemovalLogged (element : Z * loc).

Inductive Action :=
| GetDatabaseItem (key : DatabaseItemKey) (ctx : LoadContext) (g : group_loc)
| UpsertDatabaseItem (key : DatabaseItemKey) (new_attributes : list (string * string))
    (tg : Z) (g : group_loc) (element : Z * loc)
| DispatchLog (request : JournalLogRequest) (callback : LogCallback) (* through the dispatcher *)
| JournalLog (request : JournalLogRequest) (callback : LogCallback)
| should_delete_entry (element : Z * loc) (can_delete : bool)
| FinishLoad (ctx : LoadContext) (result : ExecutionResult)
| FinishUpdate (ctx : UpdateContext) (result : ExecutionResult).

(** What the outside answers while a handler runs: the clock, the table name
    the configuration holds, generated ids, and the result with which the
    database or the journal takes an asynchronous call. *)
Record Answers := mkAnswers {
  now : Z;
  key_table : ExecutionResult * string;
  generated : nat → Uuid;
  accepted : ExecutionResult;
}.

Definition kBudgetKeyPartitionKey : string := "Budget_Key".
Definition kTimeframeSortKey : string := "Timeframe".
Definition kToken : string := "TokenCount".
Definition kMaxToken : Z := 1.

(** [execution_result != FailureExecutionResult(SC_CONCURRENT_MAP_ENTRY_DOES_NOT_EXIST)],
    after a call of [Erase]. *)
Definition erase_failed (r : ExecutionResult) : bool :=
  negb (Successful r) &&
  negb (result_eqb r (FailureExecutionResult SC_CONCURRENT_MAP_ENTRY_DOES_NOT_EXIST)).

Section manager.
  Context `{TimeframeLogs}.
  (** The key's name, the manager's id, and boost's split of a text. *)
  Variable budget_key_name_ : string.
  Variable id_ : Uuid.
  Variable split : string → list string.

Definition item_key (table : string) (tg : Z) : DatabaseItemKey :=
  mkItemKey table (kBudgetKeyPartitionKey, budget_key_name_) (kTimeframeSortKey, to_string tg).

Definition log_request (a : Answers) (b : BytesBuffer) : JournalLogRequest :=
  mkLogRequest id_ (generated a 0%nat) b.

(** ** Run and unload *)

Definition Run (a : Answers) (s : BudgetKeyTimeframeManager)
  : ExecutionResult * BudgetKeyTimeframeManager * list (AutoExpiryMap.Action (K := Z) (V := group_loc)) :=
  let '(r, c, actions) :=
    AutoExpiryMap.Run cache_config (now a) (accepted a) (budget_key_timeframe_groups_ s) in
  (r, with_cache c s, actions).

Definition Stop (drained : bool) (s : BudgetKeyTimeframeManager)
  : ExecutionResult * BudgetKeyTimeframeManager :=
  let '(r, c) := AutoExpiryMap.Stop drained (budget_key_timeframe_groups_ s) in (r, with_cache c s).

Definition CanUnload (s : BudgetKeyTimeframeManager) : ExecutionResult :=
  let '(execution_result, keys) := AutoExpiryMap.Keys (budget_key_timeframe_groups_ s) in
  if negb (Successful execution_result) then execution_result
  else if (0 <? length keys)%nat then
    FailureExecutionResult SC_BUDGET_KEY_TIMEFRAME_MANAGER_CANNOT_BE_UNLOADED
  else SuccessExecutionResult.

(** ** Unloading a day *)

(** The first loop: whether no timeframe has an active transaction. *)
Fixpoint no_active_transaction (frames : gmap frame_loc BudgetKeyTimeframe) (timeframes : gmap Z frame_loc)
    (time_buckets : list Z) : option bool :=
  match time_buckets with
  | [] => Some true
  | time_bucket :: rest =>
      let '(execution_result, budget_key_timeframe) := ConcurrentMap.Find timeframes time_bucket in
      if negb (Successful execution_result) then Some false
      else
        f ← budget_key_timeframe ≫= (frames !!.);
        if negb (bool_decide (active_transaction_id f = kZeroUuid)) then Some false
        else no_active_transaction frames timeframes rest
  end.

(** The second loop: the token counts, in the order of the buckets. [Some None]:
    a bucket was not found. *)
Fixpoint collect_tokens (frames : gmap frame_loc BudgetKeyTimeframe) (timeframes : gmap Z frame_loc)
    (time_buckets : list Z) : option (option (list Z)) :=
  match time_buckets with
  | [] => Some (Some [])
  | time_bucket :: rest =>
      let '(execution_result, budget_key_timeframe) := ConcurrentMap.Find timeframes time_bucket in
      if negb (Successful execution_result) then Some None
      else
        f ← budget_key_timeframe ≫= (frames !!.);
        tokens ← collect_tokens frames timeframes rest;
        Some (option_map (cons (token_count f)) tokens)
  end.

Definition OnBeforeGarbageCollection (a : Answers) (s : BudgetKeyTimeframeManager)
    (tg : Z) (g : group_loc) (element : Z * loc) : option (list Action) :=
  let keep := Some [should_delete_entry element false] in
  budget_key_timeframe_group ← group_heap s !! g;
  let timeframes := budget_key_timeframes budget_key_timeframe_group in
  let '(execution_result, time_buckets) := ConcurrentMap.Keys timeframes in
  if negb (Successful execution_result) then keep
  else
    inactive ← no_active_transaction (frame_heap s) timeframes time_buckets;
    if negb inactive then keep
    else
      let '(execution_result, time_buckets) := ConcurrentMap.Keys timeframes in
      if negb (Successful execution_result) then keep
      else
        token_counts ← collect_tokens (frame_heap s) timeframes (merge_sort Z.le time_buckets);
        match token_counts with
        | None => keep
        | Some token_counts =>
            let '(execution_result, serialized_tokens) :=
              SerializeHourTokensInTimeGroup token_counts EmptyString in
            if negb (Successful execution_result) then keep
            else
              let '(execution_result, key_table_name) := key_table a in
              if negb (Successful execution_result) then keep
              else
                let upsert := UpsertDatabaseItem (item_key key_table_name tg)
                  [(kToken, serialized_tokens)] tg g element in
                if negb (Successful (accepted a)) then Some [upsert; should_delete_entry element false]
                else Some [upsert]
        end.

Definition OnStoreTimeframeGroupToDBCallback (a : Answers) (s : BudgetKeyTimeframeManager)
    (result : ExecutionResult) (tg : Z) (g : group_loc) (element : Z * loc) : option (list Action) :=
  let keep := Some [should_delete_entry element false] in
  if negb (result_eqb result SuccessExecutionResult) then keep
  else
    budget_key_timeframe_group ← group_heap s !! g;
    '(execution_result, b) ← write_removal budget_key_timeframe_group;
    if negb (result_eqb execution_result SuccessExecutionResult) then keep
    else
      let log := JournalLog (log_request a b) (OnRemovalLogged element) in
      if negb (Successful (accepted a)) then Some [log; should_delete_entry element false]
      else Some [log].

Definition OnRemoveEntryFromCacheLogged (element : Z * loc) (result : ExecutionResult) : list Action :=
  [should_delete_entry element (Successful result)].

(** ** Loading a day *)

(** The timeframes of the times of a request. *)
Fixpoint find_timeframes (timeframes : gmap Z frame_loc) (times : list Z)
  : ExecutionResult * list frame_loc :=
  match times with
  | [] => (SuccessExecutionResult, [])
  | reporting_time :: rest =>
      let '(execution_result, budget_key_timeframe) :=
        ConcurrentMap.Find timeframes (GetTimeBucket reporting_time) in
      match budget_key_timeframe with
      | Some l => let '(r, ls) := find_timeframes timeframes rest in (r, l :: ls)
      | None => (execution_result, [])
      end
  end.

Definition PopulateLoadBudgetKeyTimeframeResponse (g : BudgetKeyTimeframeGroup) (ctx : LoadContext)
  : ExecutionResult * LoadContext :=
  let '(execution_result, frames) := find_timeframes (budget_key_timeframes g) (reporting_times ctx) in
  if negb (result_eqb execution_result SuccessExecutionResult) then (execution_result, ctx)
  else (SuccessExecutionResult, mkLoad (load_activity ctx) (reporting_times ctx) (Some frames)).

Definition LoadTimeframeGroupFromDB (a : Answers) (s : BudgetKeyTimeframeManager) (ctx : LoadContext)
    (g : group_loc) : option (ExecutionResult * BudgetKeyTimeframeManager * list Action) :=
  budget_key_timeframe_group ← group_heap s !! g;
  let '(execution_result, key_table_name) := key_table a in
  if negb (Successful execution_result) then Some (execution_result, s, [])
  else
    Some (accepted a, s,
          [GetDatabaseItem (item_key key_table_name (time_group budget_key_timeframe_group)) ctx g]).

(** The end of [Load], for the call that loads. *)
Definition start_load (a : Answers) (s : BudgetKeyTimeframeManager) (ctx : LoadContext) (tg : Z)
    (g : group_loc) : option (ExecutionResult * BudgetKeyTimeframeManager * list Action) :=
  let '(execution_result, c) :=
    DisableEviction cache_config (now a) (budget_key_timeframe_groups_ s) tg in
  let s := with_cache c s in
  if negb (Successful execution_result) then
    Some (RetryExecutionResult (status_code execution_result), s, [])
  else LoadTimeframeGroupFromDB a s ctx g.

(** The call found the group of the day in the cache. *)
Definition load_existing (a : Answers) (s : BudgetKeyTimeframeManager) (ctx : LoadContext) (tg : Z)
    (g : group_loc) : option (ExecutionResult * BudgetKeyTimeframeManager * list Action) :=
  budget_key_timeframe_group ← group_heap s !! g;
  if needs_loader budget_key_timeframe_group then
    (* compare_exchange_strong(true, false) *)
    start_load a (on_group (write_needs_loader false) g s) ctx tg g
  else if negb (is_loaded budget_key_timeframe_group) then
    Some (RetryExecutionResult SC_BUDGET_KEY_TIMEFRAME_MANAGER_ENTRY_IS_LOADING, s, [])
  else
    let '(execution_result, ctx) := PopulateLoadBudgetKeyTimeframeResponse budget_key_timeframe_group ctx in
    if negb (Successful execution_result) then Some (execution_result, s, [])
    else Some (SuccessExecutionResult, s, [FinishLoad ctx SuccessExecutionResult]).

(** The checks on the reporting times of a request. *)
Definition check_times (times : list Z) : option ExecutionResult :=
  if (1 <? length times)%nat then
    if negb (Nat.eqb (size (GetUniqueTimeGroups times)) 1) then
      Some (FailureExecutionResult SC_BUDGET_KEY_TIMEFRAME_MANAGER_MULTIPLE_TIMEFRAME_GROUPS)
    else if negb (Nat.eqb (size (GetUniqueTimeBuckets times)) (length times)) then
      Some (FailureExecutionResult SC_BUDGET_KEY_TIMEFRAME_MANAGER_REPEATED_TIMEBUCKETS)
    else None
  else None.

Definition Load (a : Answers) (s : BudgetKeyTimeframeManager) (ctx : LoadContext)
  : option (ExecutionResult * BudgetKeyTimeframeManager * list Action) :=
  match reporting_times ctx with
  | [] => Some (FailureExecutionResult SC_BUDGET_KEY_TIMEFRAME_MANAGER_EMPTY_REQUEST, s, [])
  | front :: _ =>
      match check_times (reporting_times ctx) with
      | Some r => Some (r, s, [])
      | None =>
          let tg := GetTimeGroup front in
          let '(new_group, s) := make_group (NewGroup tg) s in
          let '(execution_result, out_value, c) :=
            AutoExpiryMap.Insert cache_config (now a) (budget_key_timeframe_groups_ s) tg new_group in
          let s := with_cache c s in
          let g := default new_group out_value in
          if negb (Successful execution_result) then
            if negb (status_code execution_result =? SC_AUTO_EXPIRY_CONCURRENT_MAP_ENTRY_BEING_DELETED)
               && negb (status_code execution_result =? SC_CONCURRENT_MAP_ENTRY_ALREADY_EXISTS) then
              Some (execution_result, s, [])
            else if status_code execution_result =? SC_AUTO_EXPIRY_CONCURRENT_MAP_ENTRY_BEING_DELETED then
              Some (RetryExecutionResult (status_code execution_result), s, [])
            else
              load_existing a s ctx tg g
          else start_load a s ctx tg g
      end
  end.

(** A load that fails: another call may load. *)
Definition fail_load (s : BudgetKeyTimeframeManager) (ctx : LoadContext) (g : group_loc)
    (r : ExecutionResult) : option (BudgetKeyTimeframeManager * list Action) :=
  Some (on_group (write_needs_loader true) g s, [FinishLoad ctx r]).

(** The value of the first attribute with the name, when it is a string;
    [get<string>] throws on another type, in a function that is [noexcept]. *)
Fixpoint token_attribute (attributes : list (string * AttributeValue)) : option string :=
  match attributes with
  | [] => Some EmptyString
  | (attribute_name, attribute_value) :: rest =>
      if String.eqb attribute_name kToken then
        match attribute_value with StringValue s => Some s | _ => None end
      else token_attribute rest
  end.

(** The tokens of the answer of the database. *)
Definition answered_tokens (result : ExecutionResult) (attributes : list (string * AttributeValue))
  : option (ExecutionResult * list Z) :=
  if status_code result =? SC_NO_SQL_DATABASE_PROVIDER_RECORD_NOT_FOUND then
    Some (SuccessExecutionResult, replicate kHoursPerDay kMaxToken)
  else
    token_value ← token_attribute attributes;
    if Nat.eqb (String.length token_value) 0 then
      Some (FailureExecutionResult SC_BUDGET_KEY_TIMEFRAME_MANAGER_CORRUPTED_KEY_METADATA, [])
    else Some (DeserializeHourTokensInTimeGroup split token_value []).

(** The loop over the hours of the day. *)
Fixpoint fill_group (s : BudgetKeyTimeframeManager) (g : group_loc) (tokens_per_hour : list Z)
    (hours : list Z) : option (ExecutionResult * BudgetKeyTimeframeManager) :=
  match hours with
  | [] => Some (SuccessExecutionResult, s)
  | i :: rest =>
      let '(l, s) := make_frame (NewFrame i) s in
      budget_key_timeframe_group ← group_heap s !! g;
      let '(execution_result, m) := ConcurrentMap.Erase (budget_key_timeframes budget_key_timeframe_group) i in
      let s := on_group (write_timeframes m) g s in
      if erase_failed execution_result then Some (execution_result, s)
      else
        let '(execution_result, l, m) := ConcurrentMap.Insert m (i, l) in
        let s := on_group (write_timeframes m) g s in
        if negb (Successful execution_result) then Some (execution_result, s)
        else
          token ← tokens_per_hour !! Z.to_nat i;
          fill_group (on_frame (set_frame 0 kZeroUuid token) l s) g tokens_per_hour rest
  end.

Definition hours_of_day : list Z := seqZ 0 (Z.of_nat kHoursPerDay).

Definition OnLoadTimeframeGroupFromDBCallback (a : Answers) (s : BudgetKeyTimeframeManager)
    (ctx : LoadContext) (g : group_loc) (result : ExecutionResult) (attributes : list (string * AttributeValue))
  : option (BudgetKeyTimeframeManager * list Action) :=
  budget_key_timeframe_group ← group_heap s !! g;
  let '(_, c) := EnableEviction cache_config (now a) (budget_key_timeframe_groups_ s)
                   (time_group budget_key_timeframe_group) in
  let s := with_cache c s in
  if negb (Successful result) && negb (status_code result =? SC_NO_SQL_DATABASE_PROVIDER_RECORD_NOT_FOUND)
  then fail_load s ctx g result
  else
    '(execution_result, tokens_per_hour) ← answered_tokens result attributes;
    if negb (Successful execution_result) then fail_load s ctx g execution_result
    else
      '(execution_result, s) ← fill_group s g tokens_per_hour hours_of_day;
      if negb (Successful execution_result) then fail_load s ctx g execution_result
      else
        budget_key_timeframe_group ← group_heap s !! g;
        let '(execution_result, ctx) := PopulateLoadBudgetKeyTimeframeResponse budget_key_timeframe_group ctx in
        if negb (result_eqb execution_result SuccessExecutionResult) then fail_load s ctx g execution_result
        else
          (* Journal must be written *)
          '(execution_result, b) ← write_group (frame_heap s) budget_key_timeframe_group;
          if negb (Successful execution_result) then fail_load s ctx g execution_result
          else Some (s, [DispatchLog (log_request a b) (OnLoadLogged ctx g)]).

Definition OnLogLoadCallback (s : BudgetKeyTimeframeManager) (ctx : LoadContext) (g : group_loc)
    (result : ExecutionResult) : option (BudgetKeyTimeframeManager * list Action) :=
  if negb (Successful result) then fail_load s ctx g result
  else
    Some (on_group (write_is_loaded true) g (on_group (write_needs_loader false) g s),
          [FinishLoad ctx SuccessExecutionResult]).

(** ** Updating timeframes *)

(** The loop over the request: the timeframes to change and what is journaled
    of them. *)
Fixpoint frames_to_journal (timeframes : gmap Z frame_loc) (updates : list BudgetKeyTimeframeUpdateInfo)
  : ExecutionResult * (list frame_loc * list BudgetKeyTimeframe) :=
  match updates with
  | [] => (SuccessExecutionResult, ([], []))
  | u :: rest =>
      let time_bucket := GetTimeBucket (reporting_time u) in
      let '(execution_result, original) := ConcurrentMap.Find timeframes time_bucket in
      match original with
      | None => (execution_result, ([], []))
      | Some l =>
          let modified := set_frame (update_active_token_count u) (update_transaction_id u)
                            (update_token_count u) (NewFrame time_bucket) in
          let '(r, (originals, to_journal)) := frames_to_journal timeframes rest in
          (r, (l :: originals, modified :: to_journal))
      end
  end.

Definition Update (a : Answers) (s : BudgetKeyTimeframeManager) (ctx : UpdateContext)
  : option (ExecutionResult * BudgetKeyTimeframeManager * list Action) :=
  match timeframes_to_update ctx with
  | [] => Some (FailureExecutionResult SC_BUDGET_KEY_TIMEFRAME_MANAGER_EMPTY_REQUEST, s, [])
  | front :: _ =>
      match check_times (reporting_time <$> timeframes_to_update ctx) with
      | Some r => Some (r, s, [])
      | None =>
          let tg := GetTimeGroup (reporting_time front) in
          let '(execution_result, g, c) :=
            AutoExpiryMap.Find cache_config (now a) (budget_key_timeframe_groups_ s) tg in
          let s := with_cache c s in
          if negb (Successful execution_result) then Some (execution_result, s, [])
          else
            budget_key_timeframe_group ← g ≫= (group_heap s !!.);
            let '(execution_result, (originals, to_journal)) :=
              frames_to_journal (budget_key_timeframes budget_key_timeframe_group) (timeframes_to_update ctx) in
            if negb (Successful execution_result) then Some (execution_result, s, [])
            else
              let '(execution_result, c) :=
                DisableEviction cache_config (now a) (budget_key_timeframe_groups_ s) tg in
              let s := with_cache c s in
              if negb (Successful execution_result) then Some (execution_result, s, [])
              else
                '(execution_result, b) ←
                  (if (1 <? length (timeframes_to_update ctx))%nat then write_batch tg to_journal
                   else f ← to_journal !! 0%nat; write_frame tg f);
                if negb (Successful execution_result) then Some (execution_result, s, [])
                else
                  Some (SuccessExecutionResult, s,
                        [DispatchLog (log_request a b) (OnUpdateLogged ctx originals)])
      end
  end.

(** The loop that writes the timeframes: the transaction id last, since it
    releases the lock on the timeframe. *)
Fixpoint apply_updates (s : BudgetKeyTimeframeManager) (frames : list frame_loc)
    (updates : list BudgetKeyTimeframeUpdateInfo) : option BudgetKeyTimeframeManager :=
  match frames with
  | [] => Some s
  | l :: frames =>
      match updates with
      | [] => None
      | u :: updates =>
          apply_updates
            (on_frame (set_frame (update_active_token_count u) (update_transaction_id u) (update_token_count u)) l s)
            frames updates
      end
  end.

Definition OnLogUpdateCallback (a : Answers) (s : BudgetKeyTimeframeManager) (ctx : UpdateContext)
    (frames : list frame_loc) (result : ExecutionResult) : option (BudgetKeyTimeframeManager * list Action) :=
  front ← timeframes_to_update ctx !! 0%nat;
  let '(_, c) := EnableEviction cache_config (now a) (budget_key_timeframe_groups_ s)
                   (GetTimeGroup (reporting_time front)) in
  let s := with_cache c s in
  if negb (Successful result) then Some (s, [FinishUpdate ctx result])
  else
    s ← apply_updates s frames (timeframes_to_update ctx);
    Some (s, [FinishUpdate ctx SuccessExecutionResult]).

(** ** Recovery and checkpoints *)

(** The timeframes of a log become objects. *)
Fixpoint make_frames (items : list (Z * BudgetKeyTimeframe)) (s : BudgetKeyTimeframeManager)
  : gmap Z frame_loc * BudgetKeyTimeframeManager :=
  match items with
  | [] => (∅, s)
  | (time_bucket, f) :: rest =>
      let '(m, s) := make_frames rest s in
      let '(l, s) := make_frame f s in (<[time_bucket := l]> m, s)
  end.

(** A timeframe of a log takes the place of the one of its bucket. *)
Definition replace_frame (s : BudgetKeyTimeframeManager) (g : group_loc) (f : BudgetKeyTimeframe)
  : option (ExecutionResult * BudgetKeyTimeframeManager) :=
  let '(l, s) := make_frame f s in
  budget_key_timeframe_group ← group_heap s !! g;
  let '(execution_result, m) :=
    ConcurrentMap.Erase (budget_key_timeframes budget_key_timeframe_group) (time_bucket_index f) in
  let s := on_group (write_timeframes m) g s in
  if erase_failed execution_result then Some (execution_result, s)
  else
    let '(execution_result, _, m) := ConcurrentMap.Insert m (time_bucket_index f, l) in
    Some (execution_result, on_group (write_timeframes m) g s).

Fixpoint replace_frames (s : BudgetKeyTimeframeManager) (g : group_loc) (frames : list BudgetKeyTimeframe)
  : option (ExecutionResult * BudgetKeyTimeframeManager) :=
  match frames with
  | [] => Some (SuccessExecutionResult, s)
  | f :: rest =>
      '(execution_result, s) ← replace_frame s g f;
      if negb (Successful execution_result) then Some (execution_result, s) else replace_frames s g rest
  end.

(** Erases the day of a log; a day that is not there is no error. *)
Definition erase_day (s : BudgetKeyTimeframeManager) (tg : Z)
  : option ExecutionResult * BudgetKeyTimeframeManager :=
  let '(execution_result, c) := AutoExpiryMap.Erase (budget_key_timeframe_groups_ s) tg in
  let s := with_cache c s in
  if negb (Successful execution_result)
     && negb (status_code execution_result =? SC_CONCURRENT_MAP_ENTRY_DOES_NOT_EXIST)
  then (Some execution_result, s) else (None, s).

Definition recover_insert (a : Answers) (s : BudgetKeyTimeframeManager) (tg : Z) (body : list Z)
  : option (ExecutionResult * BudgetKeyTimeframeManager) :=
  let '(failure, s) := erase_day s tg in
  match failure with
  | Some r => Some (r, s)
  | None =>
      let '(execution_result, decoded) := read_group body in
      if negb (Successful execution_result) then Some (execution_result, s)
      else
        '(log_tg, frames) ← decoded;
        let '(m, s) := make_frames (map_to_list frames) s in
        let '(g, s) := make_group (write_timeframes m (NewGroup log_tg)) s in
        let '(execution_result, out_value, c) :=
          AutoExpiryMap.Insert cache_config (now a) (budget_key_timeframe_groups_ s) tg g in
        let s := with_cache c s in
        let g := default g out_value in
        if negb (Successful execution_result) then Some (execution_result, s)
        else
          Some (SuccessExecutionResult,
                on_group (write_is_loaded true) g (on_group (write_needs_loader false) g s))
  end.

Definition OnJournalServiceRecoverCallback (a : Answers) (s : BudgetKeyTimeframeManager) (b : BytesBuffer)
  : option (ExecutionResult * BudgetKeyTimeframeManager) :=
  '(execution_result, log) ← read_log b;
  if negb (Successful execution_result) then Some (execution_result, s)
  else
    l ← log;
    let tg := decoded_group l in
    match decoded_operation l with
    | INSERT_TIMEGROUP_INTO_CACHE => recover_insert a s tg (decoded_body l)
    | REMOVE_TIMEGROUP_FROM_CACHE =>
        let '(failure, s) := erase_day s tg in Some (default SuccessExecutionResult failure, s)
    | UPDATE_TIMEFRAME_RECORD =>
        let '(execution_result, g, c) :=
          AutoExpiryMap.Find cache_config (now a) (budget_key_timeframe_groups_ s) tg in
        let s := with_cache c s in
        if negb (Successful execution_result) then Some (execution_result, s)
        else
          let '(execution_result, f) := read_frame (decoded_body l) in
          if negb (Successful execution_result) then Some (execution_result, s)
          else g ← g; f ← f; replace_frame s g f
    | BATCH_UPDATE_TIMEFRAME_RECORDS_OF_TIMEGROUP =>
        let '(execution_result, g, c) :=
          AutoExpiryMap.Find cache_config (now a) (budget_key_timeframe_groups_ s) tg in
        let s := with_cache c s in
        if negb (Successful execution_result) then Some (execution_result, s)
        else
          let '(execution_result, frames) := read_batch (decoded_body l) in
          if negb (Successful execution_result) then Some (execution_result, s)
          else if Nat.eqb (length frames) 0 then
            Some (FailureExecutionResult SC_BUDGET_KEY_TIMEFRAME_MANAGER_CORRUPTED_KEY_METADATA, s)
          else g ← g; replace_frames s g frames
    | OPERATION_TYPE_UNKNOWN =>
        Some (FailureExecutionResult SC_BUDGET_KEY_TIMEFRAME_MANAGER_INVALID_LOG, s)
    end.

(** The loop over the days; each is accessed, which extends its life. *)
Fixpoint checkpoint_days (a : Answers) (s : BudgetKeyTimeframeManager) (i : nat) (time_groups : list Z)
  : option (ExecutionResult * BudgetKeyTimeframeManager * list JournalLogRequest) :=
  match time_groups with
  | [] => Some (SuccessExecutionResult, s, [])
  | tg :: rest =>
      let '(execution_result, g, c) :=
        AutoExpiryMap.Find cache_config (now a) (budget_key_timeframe_groups_ s) tg in
      let s := with_cache c s in
      if negb (Successful execution_result) then Some (execution_result, s, [])
      else
        budget_key_timeframe_group ← g ≫= (group_heap s !!.);
        '(execution_result, b) ← write_group (frame_heap s) budget_key_timeframe_group;
        if negb (Successful execution_result) then Some (execution_result, s, [])
        else
          '(r, s, checkpoint_logs) ← checkpoint_days a s (S i) rest;
          Some (r, s, mkLogRequest id_ (generated a i) b :: checkpoint_logs)
  end.

Definition Checkpoint (a : Answers) (s : BudgetKeyTimeframeManager)
  : option (ExecutionResult * BudgetKeyTimeframeManager * list JournalLogRequest) :=
  let '(execution_result, time_groups) := AutoExpiryMap.Keys (budget_key_timeframe_groups_ s) in
  if negb (Successful execution_result) then Some (execution_result, s, [])
  else checkpoint_days a s 0 time_groups.

End manager.
