(* ===== verification/TimeframeCache.v ===== *)
(** * The timeframe manager's cache and heaps

    What the handlers of [TimeframeManager] do to the cache, to groups and to
    timeframes, as lemmas on the day a key maps to and on the values of a
    group. *)

From S2P Require Import Prelude Text ExecutionResult ErrorCodes Uuid ConcurrentMap Serialization AutoExpiryMap AutoExpiryView TimeframeUtils TimeframeLog TimeframeManager.
From stdpp Require Import options.

Local Open Scope Z_scope.

(** ** The cache *)

Section cache.
  Implicit Types c : AutoExpiryConcurrentMap (K := Z) (V := group_loc).
  Variable now : Z.

Lemma Insert_cases c tg g : well_formed_map c →
  ∃ c', well_formed_map c' ∧
    match entries c !! tg with
    | None =>
        AutoExpiryMap.Insert cache_config now c tg g = (SuccessExecutionResult, Some g, c') ∧
        entries c' = <[tg := NewEntry now g 120]> (entries c)
    | Some r =>
        if being_evicted r then
          AutoExpiryMap.Insert cache_config now c tg g
          = (FailureExecutionResult SC_AUTO_EXPIRY_CONCURRENT_MAP_ENTRY_BEING_DELETED, None, c') ∧
          entries c' = entries c
        else
          AutoExpiryMap.Insert cache_config now c tg g
          = (FailureExecutionResult SC_CONCURRENT_MAP_ENTRY_ALREADY_EXISTS, Some (entry r), c') ∧
          entries c' = <[tg := extended cache_config now r]> (entries c)
    end.
Proof. by apply Insert_answers. Qed.

Lemma Find_cases c tg : well_formed_map c →
  ∃ c', well_formed_map c' ∧
    match entries c !! tg with
    | None =>
        AutoExpiryMap.Find cache_config now c tg
        = (FailureExecutionResult SC_CONCURRENT_MAP_ENTRY_DOES_NOT_EXIST, None, c') ∧
        entries c' = entries c
    | Some r =>
        if being_evicted r then
          AutoExpiryMap.Find cache_config now c tg
          = (FailureExecutionResult SC_AUTO_EXPIRY_CONCURRENT_MAP_ENTRY_BEING_DELETED, None, c') ∧
          entries c' = entries c
        else
          AutoExpiryMap.Find cache_config now c tg = (SuccessExecutionResult, Some (entry r), c') ∧
          entries c' = <[tg := extended cache_config now r]> (entries c)
    end.
Proof. by apply Find_answers. Qed.

Lemma write_evictable_cases flag c tg : well_formed_map c →
  ∃ c', well_formed_map c' ∧
    match entries c !! tg with
    | None =>
        write_evictable cache_config flag now c tg
        = (FailureExecutionResult SC_CONCURRENT_MAP_ENTRY_DOES_NOT_EXIST, c') ∧ entries c' = entries c
    | Some r =>
        if being_evicted r then
          write_evictable cache_config flag now c tg
          = (FailureExecutionResult SC_AUTO_EXPIRY_CONCURRENT_MAP_ENTRY_BEING_DELETED, c') ∧
          entries c' = entries c
        else
          write_evictable cache_config flag now c tg = (SuccessExecutionResult, c') ∧
          entries c' = <[tg := set_evictable flag (extended cache_config now r)]> (entries c)
    end.
Proof. by apply write_evictable_answers. Qed.

Lemma Erase_cases c tg : well_formed_map c →
  ∃ c', well_formed_map c' ∧ entries c' = delete tg (entries c) ∧
    AutoExpiryMap.Erase c tg
    = (if entries c !! tg is Some _ then SuccessExecutionResult
       else FailureExecutionResult SC_CONCURRENT_MAP_ENTRY_DOES_NOT_EXIST, c').
Proof. by apply Erase_answers. Qed.

End cache.

(** The group of a day that is not being evicted. *)
Definition cached (s : BudgetKeyTimeframeManager) (tg : Z) (g : group_loc) : Prop :=
  ∃ r, entries (budget_key_timeframe_groups_ s) !! tg = Some r ∧ entry r = g ∧ being_evicted r = false.

(** The timeframes of a group, by bucket. *)
Definition values (s : BudgetKeyTimeframeManager) (g : group_loc) : gmap Z BudgetKeyTimeframe :=
  from_option (group_frames (frame_heap s)) ∅ (group_heap s !! g).

(** The timeframes of a map are there, under their own index. *)
Definition valid_timeframes (frames : gmap frame_loc BudgetKeyTimeframe) (m : gmap Z frame_loc) : Prop :=
  ∀ b l, m !! b = Some l → ∃ f, frames !! l = Some f ∧ time_bucket_index f = b ∧ valid_frame f.

Lemma group_frames_lookup frames g b :
  group_frames frames g !! b = budget_key_timeframes g !! b ≫= (frames !!.).
Proof. unfold group_frames. apply lookup_omap. Qed.

Lemma group_frames_dom frames g : valid_timeframes frames (budget_key_timeframes g) →
  dom (group_frames frames g) = dom (budget_key_timeframes g).
Proof.
  intros V. apply set_eq. intros b. rewrite !elem_of_dom, group_frames_lookup.
  destruct (budget_key_timeframes g !! b) as [l|] eqn:Hl; simpl; [|done].
  destruct (V _ _ Hl) as (f & -> & _). done.
Qed.

(** Writing a flag of a group does not change its timeframes. *)
Lemma values_on_group s g g' f :
  (∀ grp, budget_key_timeframes (f grp) = budget_key_timeframes grp) →
  values (on_group f g s) g' = values s g'.
Proof.
  intros Hf. unfold values, on_group; simpl. destruct (decide (g = g')) as [->|].
  - rewrite lookup_alter_eq. destruct (group_heap s !! g'); simpl; [|done].
    unfold group_frames. by rewrite Hf.
  - by rewrite lookup_alter_ne.
Qed.

Lemma fresh_group s : group_heap s !! fresh (dom (group_heap s)) = None.
Proof. apply not_elem_of_dom, is_fresh. Qed.
Lemma fresh_frame s : frame_heap s !! fresh (dom (frame_heap s)) = None.
Proof. apply not_elem_of_dom, is_fresh. Qed.

(** ** Replacing the timeframe of a bucket *)

(** [Erase] and [Insert] one after the other always set the bucket. *)
Lemma erase_insert (m : gmap Z frame_loc) b (l : frame_loc) :
  ∃ r, ConcurrentMap.Erase m b = (r, delete b m) ∧ erase_failed r = false ∧
    ConcurrentMap.Insert (delete b m) (b, l) = (SuccessExecutionResult, l, <[b := l]> m).
Proof.
  assert (ConcurrentMap.Insert (delete b m) (b, l) = (SuccessExecutionResult, l, <[b := l]> m)) as Hi.
  { rewrite ConcurrentMap.Insert_None by apply lookup_delete_eq. by rewrite insert_delete_eq. }
  destruct (m !! b) as [l'|] eqn:Hb.
  - exists SuccessExecutionResult. by rewrite (ConcurrentMap.Erase_Some _ _ _ Hb).
  - eexists. rewrite (ConcurrentMap.Erase_None _ _ Hb). by rewrite (delete_id m b Hb) in *.
Qed.

(** A group and the timeframes it has in [s'], which are those of [s] but for
    the buckets of [new]; every other group and timeframe of [s] is as it was. *)
Record refilled (s s' : BudgetKeyTimeframeManager) (g : group_loc) (grp : BudgetKeyTimeframeGroup)
    (new : gmap Z BudgetKeyTimeframe) (m' : gmap Z frame_loc) : Prop := {
  refilled_cache : budget_key_timeframe_groups_ s' = budget_key_timeframe_groups_ s;
  refilled_group : group_heap s' = <[g := write_timeframes m' grp]> (group_heap s);
  refilled_old l f : frame_heap s !! l = Some f → frame_heap s' !! l = Some f;
  refilled_new b f : new !! b = Some f →
    ∃ l, m' !! b = Some l ∧ frame_heap s !! l = None ∧ frame_heap s' !! l = Some f;
  refilled_kept b : new !! b = None → m' !! b = budget_key_timeframes grp !! b;
}.

Lemma refilled_values s s' g grp new m' :
  group_heap s !! g = Some grp → valid_timeframes (frame_heap s) (budget_key_timeframes grp) →
  refilled s s' g grp new m' → values s' g = new ∪ values s g.
Proof.
  intros Hg V R. unfold values. rewrite (refilled_group _ _ _ _ _ _ R), lookup_insert_eq, Hg. simpl.
  apply map_eq. intros b. rewrite lookup_union, !group_frames_lookup. simpl.
  destruct (new !! b) as [f|] eqn:Hb.
  - destruct (refilled_new _ _ _ _ _ _ R b f Hb) as (l & -> & _ & Hl). simpl. rewrite Hl.
    by destruct (_ ≫= _).
  - rewrite (refilled_kept _ _ _ _ _ _ R b Hb).
    destruct (budget_key_timeframes grp !! b) as [l|] eqn:Hl; [|done]. simpl.
    destruct (V b l Hl) as (f & Hf & _). rewrite Hf, (refilled_old _ _ _ _ _ _ R l f Hf). done.
Qed.

Lemma refilled_valid s s' g grp new m' :
  valid_timeframes (frame_heap s) (budget_key_timeframes grp) → refilled s s' g grp new m' →
  (∀ b f, new !! b = Some f → time_bucket_index f = b ∧ valid_frame f) →
  valid_timeframes (frame_heap s') m'.
Proof.
  intros V R Hnew b l Hl. destruct (new !! b) as [f|] eqn:Hb.
  - destruct (refilled_new _ _ _ _ _ _ R b f Hb) as (l' & Hl' & _ & Hf). simplify_eq.
    exists f. split; [done|]. by apply Hnew.
  - rewrite (refilled_kept _ _ _ _ _ _ R b Hb) in Hl. destruct (V b l Hl) as (f & Hf & ?).
    exists f. split; [|done]. by apply (refilled_old _ _ _ _ _ _ R).
Qed.

(** Other groups keep their timeframes. *)
Lemma refilled_other s s' g grp new m' g' grp' :
  g' ≠ g → group_heap s !! g' = Some grp' → valid_timeframes (frame_heap s) (budget_key_timeframes grp') →
  refilled s s' g grp new m' → group_heap s' !! g' = Some grp' ∧ values s' g' = values s g'.
Proof.
  intros Hne Hg' V R.
  assert (group_heap s' !! g' = Some grp') as Hs'.
  { rewrite (refilled_group _ _ _ _ _ _ R). by rewrite lookup_insert_ne. }
  split; [done|]. unfold values. rewrite Hs', Hg'. simpl. apply map_eq. intros b.
  rewrite !group_frames_lookup. destruct (budget_key_timeframes grp' !! b) as [l|] eqn:Hl; [|done]. simpl.
  destruct (V b l Hl) as (f & Hf & _). rewrite Hf. by apply (refilled_old _ _ _ _ _ _ R).
Qed.

Lemma refilled_none s g grp :
  group_heap s !! g = Some grp → refilled s s g grp ∅ (budget_key_timeframes grp).
Proof.
  intros Hg. constructor; try done. rewrite insert_id; [done|]. rewrite Hg. by destruct grp.
Qed.

Lemma refilled_trans s1 s2 s3 g grp new1 new2 m1 m2 :
  refilled s1 s2 g grp new1 m1 → refilled s2 s3 g (write_timeframes m1 grp) new2 m2 →
  refilled s1 s3 g grp (new2 ∪ new1) m2.
Proof.
  intros R1 R2. constructor.
  - by rewrite (refilled_cache _ _ _ _ _ _ R2), (refilled_cache _ _ _ _ _ _ R1).
  - rewrite (refilled_group _ _ _ _ _ _ R2), (refilled_group _ _ _ _ _ _ R1). apply insert_insert_eq.
  - intros l f Hl. by apply (refilled_old _ _ _ _ _ _ R2), (refilled_old _ _ _ _ _ _ R1).
  - intros b f Hb. apply lookup_union_Some_raw in Hb as [Hb|[Hn Hb]].
    + destruct (refilled_new _ _ _ _ _ _ R2 b f Hb) as (l & Hm & Hl & Hf). exists l.
      split_and!; [done| |done]. destruct (frame_heap s1 !! l) as [f'|] eqn:Hl1; [|done].
      apply (refilled_old _ _ _ _ _ _ R1) in Hl1. congruence.
    + destruct (refilled_new _ _ _ _ _ _ R1 b f Hb) as (l & Hm & Hl & Hf). exists l.
      split_and!; [|done|by apply (refilled_old _ _ _ _ _ _ R2)].
      by rewrite (refilled_kept _ _ _ _ _ _ R2 b Hn).
  - intros b [H2 H1]%lookup_union_None. rewrite (refilled_kept _ _ _ _ _ _ R2 b H2).
    by apply (refilled_kept _ _ _ _ _ _ R1).
Qed.

(** The step both the loading loop and the recovery make. *)
Lemma refill_one s g grp f b :
  group_heap s !! g = Some grp →
  let l := fresh (dom (frame_heap s)) in
  refilled s (mkManager (budget_key_timeframe_groups_ s)
                (<[g := write_timeframes (<[b := l]> (budget_key_timeframes grp)) grp]> (group_heap s))
                (<[l := f]> (frame_heap s)))
    g grp {[b := f]} (<[b := l]> (budget_key_timeframes grp)).
Proof.
  intros Hg l. pose proof (fresh_frame s) as Hl. constructor; simpl; try done.
  - intros l' f' Hl'. rewrite lookup_insert_ne; [done|]. intros Heq. rewrite <- Heq in Hl'. unfold l in Hl'. congruence.
  - intros b' f' [<- <-]%lookup_singleton_Some. exists l. by rewrite !lookup_insert_eq.
  - intros b' Hb'%lookup_singleton_None. by rewrite lookup_insert_ne.
Qed.

(** ** Filling and replacing *)

(** Timeframes by bucket; of two with one bucket the later one counts. *)
Fixpoint by_bucket (frames : list BudgetKeyTimeframe) : gmap Z BudgetKeyTimeframe :=
  match frames with
  | [] => ∅
  | f :: rest => by_bucket rest ∪ {[ time_bucket_index f := f ]}
  end.

Lemma by_bucket_in frames b f : by_bucket frames !! b = Some f → f ∈ frames ∧ time_bucket_index f = b.
Proof.
  induction frames as [|f' rest IH]; simpl; [by rewrite lookup_empty|].
  intros [Hb|[_ [<- <-]%lookup_singleton_Some]]%lookup_union_Some_raw; [|set_solver].
  destruct (IH Hb). set_solver.
Qed.

Lemma by_bucket_None frames b : by_bucket frames !! b = None ↔ b ∉ time_bucket_index <$> frames.
Proof.
  induction frames as [|f rest IH]; simpl; [by rewrite lookup_empty; set_solver|].
  rewrite lookup_union_None, IH, lookup_singleton_None. set_solver.
Qed.

Lemma by_bucket_NoDup frames f :
  NoDup (time_bucket_index <$> frames) → f ∈ frames → by_bucket frames !! time_bucket_index f = Some f.
Proof.
  induction frames as [|f' rest IH]; [by intros _ ?%elem_of_nil|]. rewrite fmap_cons.
  intros [Hn Hd]%NoDup_cons [->|Hf]%elem_of_cons; simpl.
  - rewrite lookup_union_r by by apply by_bucket_None. apply lookup_singleton_eq.
  - rewrite (lookup_union_Some_l _ _ _ f); [done|]. by apply IH.
Qed.

(** The timeframe of an hour that is read from the database. *)
Definition loaded_frame (tokens_per_hour : list Z) (i : Z) : BudgetKeyTimeframe :=
  mkFrame i (default 0 (tokens_per_hour !! Z.to_nat i)) kZeroUuid 0.

Definition loaded_day (tokens_per_hour : list Z) : gmap Z BudgetKeyTimeframe :=
  by_bucket (loaded_frame tokens_per_hour <$> hours_of_day).

Lemma on_group_twice s g grp m1 m2 : group_heap s !! g = Some grp →
  on_group (write_timeframes m2) g (on_group (write_timeframes m1) g s)
  = with_groups (<[g := write_timeframes m2 grp]> (group_heap s)) s.
Proof.
  intros Hg. unfold on_group; simpl. unfold with_groups; simpl. f_equal. apply map_eq. intros g'.
  destruct (decide (g = g')) as [<-|].
  - by rewrite !lookup_alter_eq, lookup_insert_eq, Hg.
  - by rewrite !lookup_alter_ne, lookup_insert_ne.
Qed.

Lemma replace_frame_refilled s g grp f : group_heap s !! g = Some grp →
  ∃ s' m', replace_frame s g f = Some (SuccessExecutionResult, s') ∧
    refilled s s' g grp {[ time_bucket_index f := f ]} m'.
Proof.
  intros Hg. unfold replace_frame, make_frame. cbn [group_heap with_frames]. rewrite Hg.
  destruct (erase_insert (budget_key_timeframes grp) (time_bucket_index f) (fresh (dom (frame_heap s))))
    as (r & He & Hf & Hi).
  cbn [mbind option_bind]. rewrite He, Hf, Hi. eexists _, _. split; [done|].
  rewrite (on_group_twice _ g grp) by done. exact (refill_one s g grp f (time_bucket_index f) Hg).
Qed.

Lemma replace_frames_refilled frames s g grp : group_heap s !! g = Some grp →
  ∃ s' m', replace_frames s g frames = Some (SuccessExecutionResult, s') ∧
    refilled s s' g grp (by_bucket frames) m'.
Proof.
  revert s grp. induction frames as [|f frames IH]; intros s grp Hg.
  - eexists _, _. split; [done|]. by apply refilled_none.
  - destruct (replace_frame_refilled s g grp f Hg) as (s1 & m1 & Hr & R1). simpl. rewrite Hr. simpl.
    destruct (IH s1 (write_timeframes m1 grp)) as (s2 & m2 & Hr2 & R2).
    { by rewrite (refilled_group _ _ _ _ _ _ R1), lookup_insert_eq. }
    eexists _, _. split; [done|]. by apply (refilled_trans _ s1 _ _ _ _ _ m1).
Qed.

Lemma fill_group_refilled tokens_per_hour hours s g grp :
  group_heap s !! g = Some grp → (∀ i, i ∈ hours → is_Some (tokens_per_hour !! Z.to_nat i)) →
  ∃ s' m', fill_group s g tokens_per_hour hours = Some (SuccessExecutionResult, s') ∧
    refilled s s' g grp (by_bucket (loaded_frame tokens_per_hour <$> hours)) m'.
Proof.
  revert s grp. induction hours as [|i hours IH]; intros s grp Hg Ht.
  - eexists _, _. split; [done|]. by apply refilled_none.
  - destruct (Ht i) as [t Hi]; [set_solver|].
    destruct (erase_insert (budget_key_timeframes grp) i (fresh (dom (frame_heap s)))) as (r & He & Hf & Hins).
    cbn [fill_group]. unfold make_frame. cbn [group_heap with_frames]. rewrite Hg.
    cbn [mbind option_bind]. rewrite He, Hf, Hins. cbn [negb]. rewrite (on_group_twice _ g grp) by done. simpl. rewrite Hi. simpl.
    pose proof (refill_one s g grp (loaded_frame tokens_per_hour i) i Hg) as R1. simpl in R1.
    match goal with |- context [fill_group ?s1 _ _ _] => set (s1' := s1) end.
    assert (s1' = mkManager (budget_key_timeframe_groups_ s)
      (<[g := write_timeframes (<[i := fresh (dom (frame_heap s))]> (budget_key_timeframes grp)) grp]> (group_heap s))
      (<[fresh (dom (frame_heap s)) := loaded_frame tokens_per_hour i]> (frame_heap s))) as Hs1.
    { unfold s1', on_frame, with_groups, with_frames; simpl. f_equal.
      rewrite alter_insert_eq. unfold loaded_frame, set_frame; simpl. by rewrite Hi. }
    rewrite <- Hs1 in R1. clearbody s1'.
    edestruct (IH s1') as (s2 & m2 & Hr2 & R2).
    + rewrite (refilled_group _ _ _ _ _ _ R1). apply lookup_insert_eq.
    + set_solver.
    + eexists _, _. split; [done|]. by eapply refilled_trans.
Qed.

Lemma hours_of_day_spec i : i ∈ hours_of_day ↔ 0 ≤ i < 24.
Proof. unfold hours_of_day. rewrite elem_of_seqZ. unfold kHoursPerDay. lia. Qed.

Lemma loaded_indices tokens (hours : list Z) : time_bucket_index <$> (loaded_frame tokens <$> hours) = hours.
Proof. rewrite <- list_fmap_compose. apply list_fmap_id. Qed.

Lemma loaded_day_lookup tokens i : 0 ≤ i < 24 → loaded_day tokens !! i = Some (loaded_frame tokens i).
Proof.
  intros Hi. unfold loaded_day. change i with (time_bucket_index (loaded_frame tokens i)) at 1.
  apply by_bucket_NoDup.
  - rewrite loaded_indices. apply NoDup_seqZ.
  - apply list_elem_of_fmap. exists i. split; [done|]. by apply hours_of_day_spec.
Qed.

Lemma loaded_day_None tokens i : ¬ 0 ≤ i < 24 → loaded_day tokens !! i = None.
Proof.
  intros Hi. unfold loaded_day. apply by_bucket_None. rewrite loaded_indices. by rewrite hours_of_day_spec.
Qed.

Lemma loaded_day_dom tokens : dom (loaded_day tokens) = list_to_set hours_of_day.
Proof.
  apply set_eq. intros i. rewrite elem_of_dom, elem_of_list_to_set, hours_of_day_spec.
  destruct (decide (0 ≤ i < 24)).
  - rewrite loaded_day_lookup by done. naive_solver.
  - rewrite loaded_day_None by done. split; [by intros [? ?]|done].
Qed.

Lemma loaded_frame_valid tokens i : Forall is_u8 tokens → 0 ≤ i < 24 → valid_frame (loaded_frame tokens i).
Proof.
  intros Ht Hi. unfold loaded_frame, valid_frame; simpl. split_and!.
  - unfold is_u64. lia.
  - destruct (tokens !! Z.to_nat i) as [t|] eqn:Hl; simpl; [|by unfold is_u8].
    by apply (Forall_lookup_1 _ _ _ _ Ht Hl).
  - by unfold is_u8.
  - by vm_compute.
Qed.
