(* ===== verification/TimeframeLoading.v ===== *)
(** * Loading and unloading a day

    The branches of [Load] by what the cache holds, which days the collector
    may unload, and that an unloaded day is loaded again with the tokens it
    had. *)

From S2P Require Import Prelude Text ExecutionResult ErrorCodes NoSQLDatabase Uuid ConcurrentMap Serialization AutoExpiryMap AutoExpiryView TimeframeUtils TimeframeLog TimeframeManager TimeframeCache.
From stdpp Require Import sorting options.

Local Open Scope Z_scope.

(** ** The checks of a request *)

Lemma list_empty_or_elem {A} (l : list A) : l ≠ [] → ∃ x, x ∈ l.
Proof. destruct l as [|x l]; [done|]. exists x. set_solver. Qed.

Lemma all_equal_size (l : list Z) x : x ∈ l →
  size (list_to_set (C := gset Z) l) = 1%nat ↔ ∀ y, y ∈ l → y = x.
Proof.
  intros Hx. split.
  - intros Hs y Hy. apply size_1_elem_of in Hs as [z Hz].
    assert (x = z) as -> by set_solver. set_solver.
  - intros Hall. assert (list_to_set (C := gset Z) l = {[x]}) as -> by set_solver. apply size_singleton.
Qed.

(** The times of a request are of one day, and of different hours. *)
Definition one_day (times : list Z) : Prop :=
  (∀ t1 t2, t1 ∈ times → t2 ∈ times → GetTimeGroup t1 = GetTimeGroup t2) ∧
  NoDup (GetTimeBucket <$> times).

Lemma check_times_cases (times : list Z) : times ≠ [] →
  match check_times times with
  | None => one_day times
  | Some r =>
      r = FailureExecutionResult SC_BUDGET_KEY_TIMEFRAME_MANAGER_MULTIPLE_TIMEFRAME_GROUPS ∧
      (∃ t1 t2, t1 ∈ times ∧ t2 ∈ times ∧ GetTimeGroup t1 ≠ GetTimeGroup t2) ∨
      r = FailureExecutionResult SC_BUDGET_KEY_TIMEFRAME_MANAGER_REPEATED_TIMEBUCKETS ∧
      ¬ NoDup (GetTimeBucket <$> times)
  end.
Proof.
  unfold one_day. intros Hne. destruct (list_empty_or_elem times Hne) as [t Ht].
  unfold check_times.
  pose proof (GetUniqueTimeBuckets_NoDup times) as Hb.
  assert (size (GetUniqueTimeGroups times) = 1%nat ↔ ∀ t', t' ∈ times → GetTimeGroup t' = GetTimeGroup t) as Hg.
  { unfold GetUniqueTimeGroups. rewrite GetUnique_size, (all_equal_size _ (GetTimeGroup t)) by set_solver.
    set_solver. }
  destruct (1 <? length times)%nat eqn:Hl.
  - destruct (Nat.eqb_spec (size (GetUniqueTimeGroups times)) 1) as [H1|H1]; cbn [negb].
    + destruct (Nat.eqb_spec (size (GetUniqueTimeBuckets times)) (length times)) as [H2|H2]; cbn [negb].
      * split; [|by apply Hb]. intros t1 t2 Ht1 Ht2.
        pose proof (proj1 Hg H1) as Hall. by rewrite (Hall t1), (Hall t2).
      * right. split; [done|]. by rewrite <- Hb.
    + left. split; [done|]. destruct (decide (Exists (λ t', GetTimeGroup t' ≠ GetTimeGroup t) times)) as [He|He].
      * apply Exists_exists in He as (t' & Ht' & Hneq). by exists t', t.
      * exfalso. apply H1, Hg. intros t' Ht'. destruct (decide (GetTimeGroup t' = GetTimeGroup t)); [done|].
        exfalso. apply He, Exists_exists. eauto.
  - apply Nat.ltb_ge in Hl. destruct times as [|t' [|]]; simpl in Hl; [done| |lia]. split.
    + intros t1 t2 ->%list_elem_of_singleton ->%list_elem_of_singleton. done.
    + apply NoDup_singleton.
Qed.

Lemma check_times_one_day times : times ≠ [] → check_times times = None ↔ one_day times.
Proof.
  intros Hne. pose proof (check_times_cases times Hne) as Hc.
  destruct (check_times times) as [r|]; [|done]. split; [done|]. intros [Hg Hb].
  destruct Hc as [(_ & t1 & t2 & H1 & H2 & Hneq)|[_ Hn]]; [|done]. by destruct Hneq; apply Hg.
Qed.

Lemma elem_of_map_to_list_fst_dom {A} (m : gmap Z A) b : b ∈ (map_to_list m).*1 ↔ b ∈ dom m.
Proof.
  rewrite elem_of_dom, list_elem_of_fmap. split.
  - intros ([b' x] & -> & Hx%elem_of_map_to_list). by exists x.
  - intros [x Hx]. exists (b, x). split; [done|]. by apply elem_of_map_to_list.
Qed.

Lemma merge_sort_keys (l1 l2 : list Z) : l1 ≡ₚ l2 → merge_sort Z.le l1 = merge_sort Z.le l2.
Proof.
  intros Hp. apply (Sorted_unique Z.le); [apply (Sorted_merge_sort Z.le)..|].
  by rewrite !merge_sort_Permutation.
Qed.

Lemma hours_of_day_sorted (l : list Z) : l ≡ₚ hours_of_day → merge_sort Z.le l = hours_of_day.
Proof.
  intros Hp. apply (Sorted_unique Z.le); [apply (Sorted_merge_sort Z.le)| |by rewrite merge_sort_Permutation].
  vm_compute. repeat constructor; discriminate.
Qed.

(** ** The loops of the unloading *)

(** The values of a group in the order of their buckets. *)
Definition ordered_values (s : BudgetKeyTimeframeManager) (g : group_loc) : list BudgetKeyTimeframe :=
  omap (λ b, values s g !! b) (merge_sort Z.le (map_to_list (values s g)).*1).

Definition inactive (f : BudgetKeyTimeframe) : Prop := active_transaction_id f = kZeroUuid.
#[export] Instance inactive_dec f : Decision (inactive f).
Proof. unfold inactive. apply _. Defined.

(** The text stored for a day. *)
Definition tokens_text (s : BudgetKeyTimeframeManager) (g : group_loc) : string :=
  join_spaces (to_string <$> (token_count <$> ordered_values s g)).

Lemma no_active_transaction_spec frames g buckets :
  valid_timeframes frames (budget_key_timeframes g) →
  (∀ b, b ∈ buckets → is_Some (budget_key_timeframes g !! b)) →
  no_active_transaction frames (budget_key_timeframes g) buckets
  = Some (bool_decide (Forall inactive (omap (λ b, group_frames frames g !! b) buckets))).
Proof.
  intros V. induction buckets as [|b buckets IH]; intros Hb; [done|]. cbn [no_active_transaction omap list_omap].
  destruct (Hb b) as [l Hl]; [set_solver|]. destruct (V _ _ Hl) as (f & Hf & _).
  rewrite (ConcurrentMap.Find_Some _ _ _ Hl), group_frames_lookup, Hl. simpl. rewrite Hf. simpl.
  rewrite IH by set_solver. unfold inactive at 2.
  destruct (decide (active_transaction_id f = kZeroUuid)) as [Hi|Hi].
  - rewrite (bool_decide_true _ Hi). simpl. f_equal. apply bool_decide_ext. rewrite Forall_cons. naive_solver.
  - rewrite (bool_decide_false _ Hi). simpl. symmetry. f_equal. apply bool_decide_false.
    rewrite Forall_cons. naive_solver.
Qed.

Lemma collect_tokens_spec frames g buckets :
  valid_timeframes frames (budget_key_timeframes g) →
  (∀ b, b ∈ buckets → is_Some (budget_key_timeframes g !! b)) →
  collect_tokens frames (budget_key_timeframes g) buckets
  = Some (Some (token_count <$> omap (λ b, group_frames frames g !! b) buckets)).
Proof.
  intros V. induction buckets as [|b buckets IH]; intros Hb; [done|]. cbn [collect_tokens omap list_omap].
  destruct (Hb b) as [l Hl]; [set_solver|]. destruct (V _ _ Hl) as (f & Hf & _).
  rewrite (ConcurrentMap.Find_Some _ _ _ Hl), group_frames_lookup, Hl. simpl. rewrite Hf. simpl.
  rewrite IH by set_solver. done.
Qed.

Lemma keys_of_values frames g : valid_timeframes frames (budget_key_timeframes g) →
  (map_to_list (budget_key_timeframes g)).*1 ≡ₚ (map_to_list (group_frames frames g)).*1.
Proof.
  intros V. apply NoDup_Permutation; [apply NoDup_fst_map_to_list..|]. intros b.
  rewrite !elem_of_map_to_list_fst_dom, group_frames_dom by done. done.
Qed.

Lemma length_omap_keys {A} (m : gmap Z A) (keys : list Z) : (∀ b, b ∈ keys → b ∈ dom m) →
  length (omap (λ b, m !! b) keys) = length keys.
Proof.
  intros Hk.
  induction keys as [|b keys IH]; [done|]. simpl.
  assert (b ∈ dom m) as [x ->]%elem_of_dom by (apply Hk; constructor). simpl.
  f_equal. apply IH. intros b' Hb'. apply Hk. by constructor.
Qed.

Lemma length_ordered_values s g : length (ordered_values s g) = size (values s g).
Proof.
  unfold ordered_values. rewrite (length_omap_keys (values s g)).
  2: { intros b. rewrite merge_sort_Permutation. apply elem_of_map_to_list_fst_dom. }
  rewrite merge_sort_Permutation, length_fmap. apply length_map_to_list.
Qed.

Lemma Forall_inactive (m : gmap Z BudgetKeyTimeframe) (keys : list Z) : (∀ b, b ∈ keys ↔ b ∈ dom m) →
  Forall inactive (omap (λ b, m !! b) keys) ↔ map_Forall (λ _, inactive) m.
Proof.
  intros Hk. rewrite Forall_forall. split.
  - intros Hf b f Hb. apply Hf, list_elem_of_omap. exists b. split; [|done]. apply Hk, elem_of_dom. by exists f.
  - intros Hm f (b & _ & Hb)%list_elem_of_omap. by apply (Hm b).
Qed.

(** The entry of a day and the text are what they should be. *)
Lemma SerializeHourTokens_text (tokens : list Z) (old : string) :
  SerializeHourTokensInTimeGroup tokens old
  = if bool_decide (length tokens = kHoursPerDay)
    then (SuccessExecutionResult, join_spaces (to_string <$> tokens))
    else (FailureExecutionResult SC_BUDGET_KEY_TIMEFRAME_MANAGER_CORRUPTED_KEY_METADATA, old).
Proof.
  unfold SerializeHourTokensInTimeGroup. case_bool_decide as Hl.
  - rewrite Hl, Nat.eqb_refl. simpl. rewrite append_tokens_join by done. done.
  - apply Nat.eqb_neq in Hl. by rewrite Hl.
Qed.

Lemma lookup_omap_total {A B} (f : A → option B) (l : list A) i : (∀ x, x ∈ l → is_Some (f x)) →
  omap f l !! i = l !! i ≫= f.
Proof.
  revert i. induction l as [|x l IH]; intros i Hf; [done|]. simpl.
  destruct (Hf x) as [y Hy]; [by constructor|]. rewrite Hy. destruct i as [|i]; simpl; [done|].
  apply IH. intros x' Hx'. apply Hf. by constructor.
Qed.

(** A group whose 24 buckets are hours has every hour. *)
Lemma full_day (m : gmap Z BudgetKeyTimeframe) : (∀ b, b ∈ dom m → 0 ≤ b < 24) → size m = kHoursPerDay →
  (∀ i, 0 ≤ i < 24 → is_Some (m !! i)) ∧ (map_to_list m).*1 ≡ₚ hours_of_day.
Proof.
  intros Hb Hs. assert (dom m = list_to_set (C := gset Z) hours_of_day) as Hd.
  { apply set_subseteq_size_eq; [|].
    - intros b Hin. apply elem_of_list_to_set, hours_of_day_spec. by apply Hb.
    - rewrite size_dom, Hs, size_list_to_set by apply NoDup_seqZ. done. }
  split.
  - intros i Hi. apply elem_of_dom. rewrite Hd. by apply elem_of_list_to_set, hours_of_day_spec.
  - apply NoDup_Permutation; [apply NoDup_fst_map_to_list|apply NoDup_seqZ|]. intros b.
    rewrite elem_of_map_to_list_fst_dom, Hd. apply elem_of_list_to_set.
Qed.

(** A day as it is after it was stored and read. *)
Definition released (f : BudgetKeyTimeframe) : BudgetKeyTimeframe := set_frame 0 kZeroUuid (token_count f) f.

Lemma loaded_day_of_values (m : gmap Z BudgetKeyTimeframe) :
  (∀ b f, m !! b = Some f → 0 ≤ b < 24 ∧ time_bucket_index f = b) → size m = kHoursPerDay →
  let tokens := token_count <$> omap (λ b, m !! b) (merge_sort Z.le (map_to_list m).*1) in
  length tokens = kHoursPerDay ∧ loaded_day tokens = released <$> m.
Proof.
  intros Hm Hs tokens.
  destruct (full_day m) as [Hall Hkeys]; [intros b [f Hf]%elem_of_dom; by apply (Hm b f)|done|].
  unfold tokens. rewrite (hours_of_day_sorted _ Hkeys). split.
  - rewrite length_fmap, length_omap_keys; [done|]. intros b Hb. apply elem_of_dom, Hall.
    by apply hours_of_day_spec.
  - apply map_eq. intros i. rewrite lookup_fmap. destruct (decide (0 ≤ i < 24)) as [Hi|Hi].
    + rewrite loaded_day_lookup by done. destruct (Hall i Hi) as [f Hf]. rewrite Hf.
      cbn [fmap option_fmap option_map]. apply (f_equal Some).
      unfold loaded_frame, released, set_frame. destruct (Hm i f Hf) as [_ ->].
      enough (default 0 ((token_count <$> omap (λ b, m !! b) hours_of_day) !! Z.to_nat i) = token_count f)
        as -> by done.
      rewrite list_lookup_fmap, lookup_omap_total.
      2: { intros b Hb. by apply Hall, hours_of_day_spec. }
      unfold hours_of_day. rewrite lookup_seqZ_lt by (unfold kHoursPerDay; lia).
      cbn [mbind option_bind]. rewrite Z2Nat.id, Z.add_0_l by lia. by rewrite Hf.
    + rewrite loaded_day_None by done. destruct (m !! i) as [f|] eqn:Hf; [|done].
      by destruct Hi, (Hm i f Hf).
Qed.

(** A group that gets a day's tokens has that day, when it had only hours. *)
Lemma refilled_day s s' g grp tokens m :
  group_heap s !! g = Some grp → valid_timeframes (frame_heap s) (budget_key_timeframes grp) →
  (∀ b, b ∈ dom (budget_key_timeframes grp) → 0 ≤ b < 24) → Forall is_u8 tokens →
  refilled s s' g grp (loaded_day tokens) m →
  group_heap s' !! g = Some (write_timeframes m grp) ∧ values s' g = loaded_day tokens ∧
  valid_timeframes (frame_heap s') m ∧ (∀ i, 0 ≤ i < 24 → is_Some (m !! i)) ∧ size m = kHoursPerDay.
Proof.
  intros Hg V Hhours Hu8 R.
  assert (group_heap s' !! g = Some (write_timeframes m grp)) as Hg'
    by (rewrite (refilled_group _ _ _ _ _ _ R); apply lookup_insert_eq).
  assert (valid_timeframes (frame_heap s') m) as V'.
  { eapply refilled_valid; [done|done|]. intros b f Hb. destruct (decide (0 ≤ b < 24)) as [Hr|Hr].
    - rewrite loaded_day_lookup in Hb by done. injection Hb as <-. split; [done|].
      by apply loaded_frame_valid.
    - by rewrite loaded_day_None in Hb. }
  assert (values s' g = loaded_day tokens) as Hv.
  { rewrite (refilled_values _ _ _ _ _ _ Hg V R). apply map_eq. intros b. rewrite lookup_union.
    destruct (decide (0 ≤ b < 24)) as [Hr|Hr].
    - rewrite loaded_day_lookup by done. by destruct (values s g !! b).
    - rewrite loaded_day_None by done. rewrite (left_id_L None _). apply not_elem_of_dom.
      unfold values. rewrite Hg. simpl. rewrite group_frames_dom by done. naive_solver. }
  assert (dom m = list_to_set (C := gset Z) hours_of_day) as Hd.
  { rewrite <- (loaded_day_dom tokens), <- Hv. unfold values. rewrite Hg'. simpl.
    symmetry. by apply (group_frames_dom _ (write_timeframes m grp)). }
  split_and!; [done|done|done| |].
  - intros i Hi. apply elem_of_dom. rewrite Hd. by apply elem_of_list_to_set, hours_of_day_spec.
  - rewrite <- size_dom, Hd. rewrite size_list_to_set by apply NoDup_seqZ. done.
Qed.

(** ** Load *)

Section loading.
  Context `{TimeframeLogs}.
  Variable budget_key_name_ : string.
  Variable id_ : Uuid.
  Variable split_text : string → list string.
  Implicit Types s : BudgetKeyTimeframeManager.

  #[local] Set Default Proof Using "Type*".
  Local Abbreviation cache := budget_key_timeframe_groups_.

(** The cache's pointers are valid, those to the groups too. *)
Record valid_cache s : Prop := {
  cache_well_formed : well_formed_map (cache s);
  cache_groups tg r : entries (cache s) !! tg = Some r → is_Some (group_heap s !! entry r);
}.

(** A day whose entry may not be evicted. *)
Definition pinned_day s (tg : Z) (g : group_loc) : Prop :=
  ∃ r, entries (cache s) !! tg = Some r ∧ entry r = g ∧ is_evictable r = false ∧ being_evicted r = false.

Lemma find_timeframes_spec (m : gmap Z frame_loc) (times : list Z) :
  match mapM (λ t, m !! GetTimeBucket t) times with
  | Some ls => find_timeframes m times = (SuccessExecutionResult, ls)
  | None => (find_timeframes m times).1 = FailureExecutionResult SC_CONCURRENT_MAP_ENTRY_DOES_NOT_EXIST
  end.
Proof.
  induction times as [|t times IH]; [done|]. cbn [mapM find_timeframes].
  destruct (m !! GetTimeBucket t) as [l|] eqn:Hl; simpl.
  - rewrite (ConcurrentMap.Find_Some _ _ _ Hl).
    destruct (find_timeframes m times) as [r ls]. destruct (mapM _ times); simpl; [by simplify_eq|done].
  - by rewrite (ConcurrentMap.Find_None _ _ Hl).
Qed.

Lemma Populate_spec (g : BudgetKeyTimeframeGroup) (ctx : LoadContext) :
  PopulateLoadBudgetKeyTimeframeResponse g ctx
  = match mapM (λ t, budget_key_timeframes g !! GetTimeBucket t) (reporting_times ctx) with
    | Some ls => (SuccessExecutionResult, mkLoad (load_activity ctx) (reporting_times ctx) (Some ls))
    | None => (FailureExecutionResult SC_CONCURRENT_MAP_ENTRY_DOES_NOT_EXIST, ctx)
    end.
Proof.
  unfold PopulateLoadBudgetKeyTimeframeResponse.
  pose proof (find_timeframes_spec (budget_key_timeframes g) (reporting_times ctx)) as Hf.
  destruct (mapM _ _) as [ls|]; [by rewrite Hf|]. destruct (find_timeframes _ _) as [r ls].
  simpl in Hf. by subst r.
Qed.

(** Starting a load pins the day and asks the database for it. *)
Lemma start_load_spec a s ctx tg g r table : well_formed_map (cache s) →
  entries (cache s) !! tg = Some r → being_evicted r = false → entry r = g →
  is_Some (group_heap s !! g) → key_table a = (SuccessExecutionResult, table) →
  ∃ c' grp, group_heap s !! g = Some grp ∧ well_formed_map c' ∧
    start_load budget_key_name_ a s ctx tg g
    = Some (accepted a, with_cache c' s,
            [GetDatabaseItem (item_key budget_key_name_ table (time_group grp)) ctx g]) ∧
    pinned_day (with_cache c' s) tg g ∧
    (∀ tg' r', entries c' !! tg' = Some r' → ∃ r'', entries (cache s) !! tg' = Some r'' ∧ entry r'' = entry r').
Proof.
  intros W Hr Hb Hg [grp Hgrp] Htable. unfold start_load, DisableEviction.
  destruct (write_evictable_cases (now a) false (cache s) tg W) as (c' & W' & Hc).
  rewrite Hr, Hb in Hc. destruct Hc as [Hw He]. rewrite Hw. cbn [negb Successful].
  exists c', grp. split_and!; [done|done| | |].
  - unfold LoadTimeframeGroupFromDB. simpl. rewrite Hgrp. simpl. by rewrite Htable.
  - exists (set_evictable false (extended cache_config (now a) r)). simpl. rewrite He, lookup_insert_eq.
    destruct (extended_flags (now a) cache_config r) as (Hx & _ & Hy). simpl. by rewrite Hx, Hy.
  - intros tg' r' Hr'. rewrite He in Hr'. apply lookup_insert_Some in Hr' as [[<- <-]|[_ Hr']]; [|eauto].
    exists r. split; [done|]. by destruct (extended_flags (now a) cache_config r) as (_ & _ & Hy).
Qed.

Lemma load_existing_spec a s ctx tg g r grp table : valid_cache s →
  entries (cache s) !! tg = Some r → being_evicted r = false → entry r = g →
  group_heap s !! g = Some grp → key_table a = (SuccessExecutionResult, table) →
  let answer r s' actions := load_existing budget_key_name_ a s ctx tg g = Some (r, s', actions) in
  ∃ s', valid_cache s' ∧ frame_heap s' = frame_heap s ∧
  (∀ g', g' ≠ g → group_heap s' !! g' = group_heap s !! g') ∧
  if needs_loader grp then
    group_heap s' !! g = Some (write_needs_loader false grp) ∧ pinned_day s' tg g ∧
    answer (accepted a) s' [GetDatabaseItem (item_key budget_key_name_ table (time_group grp)) ctx g]
  else
    group_heap s' !! g = Some grp ∧
    if is_loaded grp then
      match mapM (λ t, budget_key_timeframes grp !! GetTimeBucket t) (reporting_times ctx) with
      | Some frames =>
          answer SuccessExecutionResult s'
            [FinishLoad (mkLoad (load_activity ctx) (reporting_times ctx) (Some frames)) SuccessExecutionResult]
      | None => answer (FailureExecutionResult SC_CONCURRENT_MAP_ENTRY_DOES_NOT_EXIST) s' []
      end
    else answer (RetryExecutionResult SC_BUDGET_KEY_TIMEFRAME_MANAGER_ENTRY_IS_LOADING) s' [].
Proof.
  intros [W Hgroups] Hr Hb Hg Hgrp Htable answer. unfold answer, load_existing. rewrite Hgrp.
  cbn [mbind option_bind]. destruct (needs_loader grp) eqn:Hn.
  - set (s1 := on_group (write_needs_loader false) g s).
    assert (group_heap s1 !! g = Some (write_needs_loader false grp)) as Hg1
      by (unfold s1; simpl; by rewrite lookup_alter_eq, Hgrp).
    destruct (start_load_spec a s1 ctx tg g r table W Hr Hb Hg) as (c' & grp' & Hgrp' & W' & Hs & Hp & He);
      [by rewrite Hg1|done|].
    rewrite Hg1 in Hgrp'. injection Hgrp' as <-.
    exists (with_cache c' s1). split_and!; [|done| |done|done|done].
    + constructor; [done|]. intros tg' r' Hr'. destruct (He _ _ Hr') as (r'' & Hr'' & <-).
      simpl. rewrite lookup_alter_is_Some. by apply (Hgroups tg').
    + intros g' Hne. simpl. by rewrite lookup_alter_ne.
  - exists s. split_and!; [done|done|done|done|].
    destruct (is_loaded grp); simpl; [|done]. rewrite Populate_spec. by destruct (mapM _ _).
Qed.

(** A day that is not in the cache. *)
Lemma Load_new_day a s ctx t ts table :
  reporting_times ctx = t :: ts → one_day (t :: ts) → valid_cache s →
  key_table a = (SuccessExecutionResult, table) →
  let tg := GetTimeGroup t in
  entries (cache s) !! tg = None →
  ∃ s', valid_cache s' ∧ frame_heap s' = frame_heap s ∧
  ∃ g, group_heap s !! g = None ∧ group_heap s' = <[g := NewGroup tg]> (group_heap s) ∧
    pinned_day s' tg g ∧
    Load budget_key_name_ a s ctx
    = Some (accepted a, s', [GetDatabaseItem (item_key budget_key_name_ table tg) ctx g]).
Proof.
  intros Htimes Hday [W Hgroups] Htable tg Hr. unfold Load. rewrite Htimes.
  rewrite (proj2 (check_times_one_day (t :: ts) ltac:(done)) Hday). fold tg. unfold make_group.
  pose proof (fresh_group s) as Hfresh. set (g := fresh (dom (group_heap s))) in *.
  set (s1 := with_groups (<[g := NewGroup tg]> (group_heap s)) s).
  assert (∀ g' grp, group_heap s !! g' = Some grp → group_heap s1 !! g' = Some grp) as Hold.
  { intros g' grp Hg'. simpl. rewrite lookup_insert_ne; [done|]. intros <-. congruence. }
  destruct (Insert_cases (now a) (cache s) tg g W) as (c' & W' & Hc).
  change (cache s1) with (cache s). rewrite Hr in Hc.
  destruct Hc as [-> He].
  destruct (start_load_spec a (with_cache c' s1) ctx tg g (NewEntry (now a) g 120) table W') as
    (c'' & grp & Hgrp & W'' & Hs & Hp & He'); [|done|done| |done|].
  { cbn [budget_key_timeframe_groups_ with_cache]. rewrite He. apply lookup_insert_eq. }
  { exists (NewGroup tg). apply lookup_insert_eq. }
  assert (grp = NewGroup tg) as -> by (cbn in Hgrp; rewrite lookup_insert_eq in Hgrp; by injection Hgrp).
  exists (with_cache c'' (with_cache c' s1)). split_and!; [|done|].
  + constructor; [done|]. intros tg' r' Hr'. destruct (He' _ _ Hr') as (r'' & Hr'' & <-).
    cbn [budget_key_timeframe_groups_ with_cache] in Hr''. rewrite He in Hr''.
    apply lookup_insert_Some in Hr'' as [[<- <-]|[_ Hr'']].
    * exists (NewGroup tg). apply lookup_insert_eq.
    * destruct (Hgroups _ _ Hr'') as [grp' Hgrp']. exists grp'. by apply Hold.
  + exists g. split_and!; [done|done|done|exact Hs].
Qed.

(** What [Load] does on a request that passes its checks, by what the cache
    holds for the day. A day that is not there is put there, pinned, and asked
    of the database; one that is being unloaded, or that another call is
    loading, is to be retried; one whose load failed is pinned and asked for
    again by exactly this call, which takes the loader's flag; and for one that
    is loaded the call is finished with the timeframes of the hours asked for. *)
Theorem Load_by_state a s ctx t ts table :
  reporting_times ctx = t :: ts → one_day (t :: ts) → valid_cache s →
  key_table a = (SuccessExecutionResult, table) →
  let tg := GetTimeGroup t in
  let answer r s' actions := Load budget_key_name_ a s ctx = Some (r, s', actions) in
  ∃ s', valid_cache s' ∧ frame_heap s' = frame_heap s ∧
  match entries (cache s) !! tg with
  | None =>
      ∃ g, group_heap s !! g = None ∧ group_heap s' = <[g := NewGroup tg]> (group_heap s) ∧
        pinned_day s' tg g ∧
        answer (accepted a) s' [GetDatabaseItem (item_key budget_key_name_ table tg) ctx g]
  | Some r =>
      (∀ g grp, group_heap s !! g = Some grp → g ≠ entry r → group_heap s' !! g = Some grp) ∧
      ∃ grp, group_heap s !! entry r = Some grp ∧
      if being_evicted r then
        answer (RetryExecutionResult SC_AUTO_EXPIRY_CONCURRENT_MAP_ENTRY_BEING_DELETED) s' []
      else if needs_loader grp then
        group_heap s' !! entry r = Some (write_needs_loader false grp) ∧ pinned_day s' tg (entry r) ∧
        answer (accepted a) s'
          [GetDatabaseItem (item_key budget_key_name_ table (time_group grp)) ctx (entry r)]
      else
        group_heap s' !! entry r = Some grp ∧
        if is_loaded grp then
          match mapM (λ t, budget_key_timeframes grp !! GetTimeBucket t) (t :: ts) with
          | Some frames =>
              answer SuccessExecutionResult s'
                [FinishLoad (mkLoad (load_activity ctx) (t :: ts) (Some frames)) SuccessExecutionResult]
          | None =>
              answer (FailureExecutionResult SC_CONCURRENT_MAP_ENTRY_DOES_NOT_EXIST) s' []
          end
        else answer (RetryExecutionResult SC_BUDGET_KEY_TIMEFRAME_MANAGER_ENTRY_IS_LOADING) s' []
  end.
Proof.
  intros Htimes Hday V Htable tg answer.
  destruct (entries (cache s) !! tg) as [r|] eqn:Hr; [|by apply (Load_new_day a s ctx t ts table)].
  destruct V as [W Hgroups]. unfold answer, Load. rewrite Htimes.
  rewrite (proj2 (check_times_one_day (t :: ts) ltac:(done)) Hday). fold tg. unfold make_group.
  pose proof (fresh_group s) as Hfresh. set (g := fresh (dom (group_heap s))) in *.
  set (s1 := with_groups (<[g := NewGroup tg]> (group_heap s)) s).
  assert (∀ g' grp, group_heap s !! g' = Some grp → group_heap s1 !! g' = Some grp) as Hold.
  { intros g' grp Hg'. simpl. rewrite lookup_insert_ne; [done|]. intros <-. congruence. }
  destruct (Insert_cases (now a) (cache s) tg g W) as (c' & W' & Hc).
  change (cache s1) with (cache s).
  rewrite Hr in Hc. destruct (Hgroups _ _ Hr) as [grp Hgrp]. pose proof (Hold _ _ Hgrp) as Hgrp1.
  destruct (being_evicted r) eqn:Hb; destruct Hc as [-> He].
  + exists (with_cache c' s1). split_and!; [|done| |].
    * constructor; [done|]. simpl. rewrite He. intros tg' r' Hr'.
      destruct (Hgroups _ _ Hr') as [grp' Hgrp']. exists grp'. by apply Hold.
    * intros g' grp' Hg' _. by apply Hold.
    * exists grp. done.
  + destruct (extended_flags (now a) cache_config r) as (Hxb & _ & Hxe). rewrite Hb in Hxb.
    assert (valid_cache (with_cache c' s1)) as V1.
    { constructor; [done|]. intros tg' r' Hr'. cbn [budget_key_timeframe_groups_ with_cache] in Hr'.
      rewrite He in Hr'. apply lookup_insert_Some in Hr' as [[<- <-]|[_ Hr']].
      - exists grp. rewrite Hxe. done.
      - destruct (Hgroups _ _ Hr') as [grp' Hgrp']. exists grp'. by apply Hold. }
    destruct (load_existing_spec a (with_cache c' s1) ctx tg (entry r) (extended cache_config (now a) r)
      grp table V1) as (s' & V' & Hf & Hg' & Hs'); [|done..|].
    { cbn [budget_key_timeframe_groups_ with_cache]. rewrite He. apply lookup_insert_eq. }
    rewrite Htimes in Hs'. exists s'. split_and!; [done|done| |].
    * intros g' grp' Hgrp' Hne. rewrite Hg' by done. by apply Hold.
    * exists grp. split; [done|]. exact Hs'.
Qed.

(** Why a request with these times is refused. *)
Definition refusal (times : list Z) (code : Z) : Prop :=
  (times = [] ∧ code = SC_BUDGET_KEY_TIMEFRAME_MANAGER_EMPTY_REQUEST) ∨
  ((∃ t1 t2, t1 ∈ times ∧ t2 ∈ times ∧ GetTimeGroup t1 ≠ GetTimeGroup t2) ∧
   code = SC_BUDGET_KEY_TIMEFRAME_MANAGER_MULTIPLE_TIMEFRAME_GROUPS) ∨
  (¬ NoDup (GetTimeBucket <$> times) ∧ code = SC_BUDGET_KEY_TIMEFRAME_MANAGER_REPEATED_TIMEBUCKETS).

(** A load or an update whose times are none, are not all of one day, or
    name an hour twice is refused with the code for it, and changes nothing; and
    these are the only requests their checks refuse. *)
Theorem bad_requests_refused a s (times : list Z) :
  ¬ (times ≠ [] ∧ one_day times) →
  ∃ code, refusal times code ∧
    (∀ activity frames,
       Load budget_key_name_ a s (mkLoad activity times frames) = Some (FailureExecutionResult code, s, [])) ∧
    (∀ ctx, reporting_time <$> timeframes_to_update ctx = times →
       Update id_ a s ctx = Some (FailureExecutionResult code, s, [])).
Proof.
  intros Hbad. destruct times as [|t ts].
  - exists SC_BUDGET_KEY_TIMEFRAME_MANAGER_EMPTY_REQUEST. split_and!; [by left|done|].
    intros [act [|u us]] Hus; done.
  - assert (∃ code, check_times (t :: ts) = Some (FailureExecutionResult code) ∧ refusal (t :: ts) code)
      as (code & Hc & Hr).
    { pose proof (check_times_cases (t :: ts) ltac:(done)) as Hc.
      destruct (check_times (t :: ts)) as [r|]; [|by destruct Hbad].
      destruct Hc as [[-> Hd]|[-> Hd]]; eexists; (split; [done|]); [right; left|right; right]; done. }
    exists code. split_and!; [done| |].
    + intros activity frames. unfold Load. simpl. by rewrite Hc.
    + intros ctx Hctx. unfold Update. destruct (timeframes_to_update ctx) as [|u us] eqn:Hu; [done|].
      by rewrite Hctx, Hc.
Qed.

(** ** Unloading *)

Lemma OnBeforeGarbageCollection_spec a s tg g element grp table :
  group_heap s !! g = Some grp → valid_timeframes (frame_heap s) (budget_key_timeframes grp) →
  key_table a = (SuccessExecutionResult, table) →
  OnBeforeGarbageCollection budget_key_name_ a s tg g element
  = Some (
      if bool_decide (map_Forall (λ _, inactive) (values s g) ∧ size (values s g) = kHoursPerDay) then
        let upsert := UpsertDatabaseItem (item_key budget_key_name_ table tg)
                        [(kToken, tokens_text s g)] tg g element in
        if Successful (accepted a) then [upsert] else [upsert; should_delete_entry element false]
      else [should_delete_entry element false]).
Proof.
  intros Hg V Htable. unfold OnBeforeGarbageCollection. rewrite Hg. cbn [mbind option_bind].
  unfold ConcurrentMap.Keys. cbn [tbb_elements gmap_hash_map]. cbn [negb Successful].
  change (negb (Successful SuccessExecutionResult)) with false. cbn iota.
  pose proof (keys_of_values _ _ V) as Hkeys.
  assert (group_frames (frame_heap s) grp = values s g) as Hv by (unfold values; by rewrite Hg).
  rewrite Hv in Hkeys. set (keys := (map_to_list (budget_key_timeframes grp)).*1) in *.
  assert (∀ b, b ∈ keys → is_Some (budget_key_timeframes grp !! b)) as Hin.
  { intros b Hb. apply elem_of_dom. by apply elem_of_map_to_list_fst_dom. }
  rewrite no_active_transaction_spec, Hv by done. cbn [mbind option_bind].
  rewrite (bool_decide_ext _ (map_Forall (λ _, inactive) (values s g))).
  2: { apply Forall_inactive. intros b. rewrite Hkeys. apply elem_of_map_to_list_fst_dom. }
  destruct (bool_decide (map_Forall _ _)) eqn:Hi; cbn [negb].
  - apply bool_decide_eq_true in Hi.
    rewrite collect_tokens_spec, Hv; [|done|].
    2: { intros b. rewrite merge_sort_Permutation. apply Hin. }
    cbn [mbind option_bind]. rewrite (merge_sort_keys _ _ Hkeys). fold (ordered_values s g).
    rewrite SerializeHourTokens_text, length_fmap, length_ordered_values.
    case_bool_decide as Hs.
    + rewrite bool_decide_true by done. change (negb (Successful SuccessExecutionResult)) with false. cbn iota.
      rewrite Htable. change (negb (Successful SuccessExecutionResult)) with false. cbn iota.
      fold (tokens_text s g). by destruct (Successful (accepted a)).
    + rewrite bool_decide_false by (by intros [_ ?]). done.
  - apply bool_decide_eq_false in Hi. rewrite bool_decide_false by (by intros [? _]). done.
Qed.

(** When the collector offers a day, the manager asks the database to store
    it exactly when it has 24 hours and none of them has an active transaction;
    what is stored is the text of the token counts in the order of the hours,
    under the key's name and the day. Before the database and the journal have
    answered, no day is given up. *)
Theorem collector_stores_released_days a s tg g element grp table :
  group_heap s !! g = Some grp → valid_timeframes (frame_heap s) (budget_key_timeframes grp) →
  key_table a = (SuccessExecutionResult, table) →
  ∃ actions, OnBeforeGarbageCollection budget_key_name_ a s tg g element = Some actions ∧
    (UpsertDatabaseItem (item_key budget_key_name_ table tg) [(kToken, tokens_text s g)] tg g element ∈ actions ↔
     map_Forall (λ _, inactive) (values s g) ∧ size (values s g) = kHoursPerDay) ∧
    (∀ action, action ∈ actions → action ≠ should_delete_entry element false →
       action = UpsertDatabaseItem (item_key budget_key_name_ table tg) [(kToken, tokens_text s g)] tg g element).
Proof.
  intros Hg V Htable. rewrite (OnBeforeGarbageCollection_spec _ _ _ _ _ grp table Hg V Htable).
  eexists; split; [done|]. case_bool_decide as Hd.
  - simpl. split; [split; [done|]|].
    + intros _. destruct (Successful (accepted a)); by left.
    + intros action Ha Hne. clear -Ha Hne. destruct (Successful (accepted a)); set_solver.
  - split; [split; [|done]|].
    + intros Ha%list_elem_of_singleton. done.
    + intros action ->%list_elem_of_singleton Hne. done.
Qed.

(** ** Loading from the database *)

Section database.
  Context `{!TimeframeLogsLaws}.
  Implicit Types grp : BudgetKeyTimeframeGroup.

Definition hours_only grp : Prop := ∀ b, b ∈ dom (budget_key_timeframes grp) → 0 ≤ b < 24.

(** A journal log that reads as an operation on a day. *)
Definition journals (b : BytesBuffer) (operation : OperationType) (tg : Z) (P : list Z → Prop) : Prop :=
  wrote (Some (SuccessExecutionResult, b)) operation tg P.

(** What a load gives when the database has answered with a day's tokens: the
    group has the day, the log of the day is sent, and the response holds the
    timeframes of the hours asked for. *)
Definition loads_day a s ctx (g : group_loc) grp (result : ExecutionResult)
    (attributes : list (string * AttributeValue)) (day : gmap Z BudgetKeyTimeframe) : Prop :=
  ∃ s' frames b m,
    OnLoadTimeframeGroupFromDBCallback id_ split_text a s ctx g result attributes
    = Some (s', [DispatchLog (log_request id_ a b)
                   (OnLoadLogged (mkLoad (load_activity ctx) (reporting_times ctx) (Some frames)) g)]) ∧
    values s' g = day ∧ group_heap s' !! g = Some (write_timeframes m grp) ∧
    Forall2 (λ t l, frame_heap s' !! l = day !! GetTimeBucket t) (reporting_times ctx) frames ∧
    journals b INSERT_TIMEGROUP_INTO_CACHE (time_group grp)
      (λ body, read_group body = (SuccessExecutionResult, Some (time_group grp, day))).

Lemma mapM_times (frames : gmap frame_loc BudgetKeyTimeframe) (m : gmap Z frame_loc) day times :
  omap (λ l, frames !! l) m = day → (∀ i, 0 ≤ i < 24 → is_Some (m !! i)) → Forall in_range_time times →
  ∃ ls, mapM (λ t, m !! GetTimeBucket t) times = Some ls ∧
    Forall2 (λ t l, frames !! l = day !! GetTimeBucket t) times ls.
Proof.
  intros Hday Hm. induction 1 as [|t times Ht _ (ls & Hls & Hf)]; [by exists []|].
  destruct (Hm (GetTimeBucket t)) as [l Hl]; [by apply GetTimeBucket_range|].
  exists (l :: ls). simpl. rewrite Hl. simpl. rewrite Hls. split; [done|].
  constructor; [|done]. by rewrite <- Hday, lookup_omap, Hl.
Qed.

Lemma OnLoad_loads_day a s ctx g grp result attributes tokens :
  group_heap s !! g = Some grp → valid_timeframes (frame_heap s) (budget_key_timeframes grp) →
  hours_only grp → is_u64 (time_group grp) →
  Successful result || (status_code result =? SC_NO_SQL_DATABASE_PROVIDER_RECORD_NOT_FOUND) = true →
  answered_tokens split_text result attributes = Some (SuccessExecutionResult, tokens) →
  length tokens = kHoursPerDay → Forall is_u8 tokens → Forall in_range_time (reporting_times ctx) →
  loads_day a s ctx g grp result attributes (loaded_day tokens).
Proof.
  intros Hg V Hhours Htg Hresult Htokens Hlen Hu8 Htimes.
  unfold loads_day, OnLoadTimeframeGroupFromDBCallback. rewrite Hg. cbn [mbind option_bind].
  destruct (EnableEviction _ _ _ _) as [r c]. set (s1 := with_cache c s).
  rewrite <- negb_orb, Hresult. cbn [negb]. rewrite Htokens. cbn [mbind option_bind].
  change (negb (Successful SuccessExecutionResult)) with false. cbn iota.
  change (negb (result_eqb SuccessExecutionResult SuccessExecutionResult)) with false.
  destruct (fill_group_refilled tokens hours_of_day s1 g grp Hg) as (s2 & m & -> & R).
  { intros i Hi%hours_of_day_spec. apply lookup_lt_is_Some. rewrite Hlen. unfold kHoursPerDay. lia. }
  fold (loaded_day tokens) in R. destruct (refilled_day s1 s2 g grp tokens m Hg V Hhours Hu8 R)
    as (Hg2 & Hv & V2 & Hall & Hsize).
  cbn [mbind option_bind]. change (negb (Successful SuccessExecutionResult)) with false. cbn iota.
  rewrite Hg2. cbn [mbind option_bind]. rewrite Populate_spec. change (budget_key_timeframes (write_timeframes m grp)) with m.
  assert (omap (λ l, frame_heap s2 !! l) m = loaded_day tokens) as Hday
    by (rewrite <- Hv; unfold values; by rewrite Hg2).
  destruct (mapM_times (frame_heap s2) m (loaded_day tokens) (reporting_times ctx) Hday Hall Htimes)
    as (frames & -> & Hframes).
  change (negb (result_eqb SuccessExecutionResult SuccessExecutionResult)) with false. cbn iota.
  destruct (write_group_law (frame_heap s2) (write_timeframes m grp)) as (b & body & Hw & Hread & Hbody).
  { split_and!; [done| |exact V2]. destruct (Hall 0) as [l Hl]; [lia|]. intros Hm. simpl in Hm.
    by rewrite Hm, lookup_empty in Hl. }
  { simpl. rewrite Hsize. unfold max_items, kHoursPerDay. lia. }
  rewrite Hw. cbn [mbind option_bind]. change (negb (Successful SuccessExecutionResult)) with false. cbn iota.
  exists s2, frames, b, m. split_and!; [done|done|done|done|].
  exists b, body. split_and!; [done|done|]. rewrite Hbody. do 3 f_equal. exact Hday.
Qed.

(** When the database has no record of the day, the day starts with the full
    budget: a token for each of its 24 hours, none of them held by a
    transaction; the call is answered after the journal took the day. *)
Theorem first_load_full_budget a s ctx g grp result attributes :
  group_heap s !! g = Some grp → valid_timeframes (frame_heap s) (budget_key_timeframes grp) →
  hours_only grp → is_u64 (time_group grp) → Forall in_range_time (reporting_times ctx) →
  status_code result = SC_NO_SQL_DATABASE_PROVIDER_RECORD_NOT_FOUND →
  ∃ day, loads_day a s ctx g grp result attributes day ∧
    ∀ i, day !! i = if bool_decide (0 ≤ i < 24) then Some (mkFrame i kMaxToken kZeroUuid 0) else None.
Proof.
  intros Hg V Hh Htg Htimes Hcode. exists (loaded_day (replicate kHoursPerDay kMaxToken)). split.
  - apply OnLoad_loads_day; try done.
    + rewrite Hcode, Z.eqb_refl. apply orb_true_r.
    + unfold answered_tokens. by rewrite Hcode, Z.eqb_refl.
    + by apply Forall_replicate.
  - intros i. case_bool_decide as Hi; [|by apply loaded_day_None].
    rewrite loaded_day_lookup by done. unfold loaded_frame. rewrite lookup_replicate_2; [done|].
    unfold kHoursPerDay. lia.
Qed.

Lemma answered_stored_tokens (tokens : list Z) attributes result :
  SplitLaw split_text → length tokens = kHoursPerDay → Forall is_u8 tokens →
  status_code result ≠ SC_NO_SQL_DATABASE_PROVIDER_RECORD_NOT_FOUND →
  token_attribute attributes = Some (join_spaces (to_string <$> tokens)) →
  answered_tokens split_text result attributes = Some (SuccessExecutionResult, tokens).
Proof.
  intros Hsplit Hlen Hu8 Hcode Ha. unfold answered_tokens. rewrite (proj2 (Z.eqb_neq _ _) Hcode), Ha.
  cbn [mbind option_bind].
  assert (String.length (join_spaces (to_string <$> tokens)) ≠ 0%nat) as Hne.
  { destruct tokens as [|t1 [|t2 ts]]; [done..|]. cbn [fmap list_fmap join_spaces].
    pose proof (to_string_nonempty t1) as Ht. by destruct (to_string t1). }
  apply Nat.eqb_neq in Hne. rewrite Hne.
  rewrite Deserialize_values; [|done|done|].
  - do 2 f_equal. simpl. clear -Hu8. induction Hu8 as [|t ts Ht _ IH]; [done|]. simpl.
    rewrite u8_id by done. by f_equal.
  - eapply Forall_impl; [done|]. unfold is_u8. lia.
Qed.

(** C16: a day that is unloaded and loaded again is the day it was: whatever the
    manager asked the database to store when the collector offered the day,
    when the database later answers a load with that attribute, the group gets
    the timeframes the day had, with their token counts, and with no transaction
    on them, as it was when the day was unloaded. *)
Theorem unload_load_roundtrip a s tg g element grp actions key stored tg' g' element' :
  SplitLaw split_text →
  group_heap s !! g = Some grp → valid_timeframes (frame_heap s) (budget_key_timeframes grp) →
  hours_only grp → key_table a = (SuccessExecutionResult, table_name key) →
  OnBeforeGarbageCollection budget_key_name_ a s tg g element = Some actions →
  UpsertDatabaseItem key stored tg' g' element' ∈ actions →
  key = item_key budget_key_name_ (table_name key) tg ∧ map_Forall (λ _, inactive) (values s g) ∧
  ∀ a2 s2 ctx2 g2 grp2 attributes,
    token_attribute attributes = token_attribute (prod_map id StringValue <$> stored) →
    group_heap s2 !! g2 = Some grp2 → valid_timeframes (frame_heap s2) (budget_key_timeframes grp2) →
    hours_only grp2 → is_u64 (time_group grp2) → Forall in_range_time (reporting_times ctx2) →
    loads_day a2 s2 ctx2 g2 grp2 SuccessExecutionResult attributes (released <$> values s g).
Proof.
  intros Hsplit Hg V Hh Htable Hgc Hup.
  rewrite (OnBeforeGarbageCollection_spec _ _ _ _ _ grp _ Hg V Htable) in Hgc.
  case_bool_decide as Hd; [|injection Hgc as <-; set_solver]. destruct Hd as [Hi Hs].
  assert (key = item_key budget_key_name_ (table_name key) tg ∧ stored = [(kToken, tokens_text s g)]) as [Hk ->].
  { injection Hgc as <-. destruct (Successful (accepted a));
      apply elem_of_cons in Hup as [Hup|Hup]; try (injection Hup as Hk Hs' _ _ _; by split).
    - by apply elem_of_nil in Hup.
    - by apply list_elem_of_singleton in Hup. }
  split_and!; [done|done|]. intros a2 s2 ctx2 g2 grp2 attributes Hat Hg2 V2 Hh2 Htg2 Htimes2.
  assert (∀ b f, values s g !! b = Some f → 0 ≤ b < 24 ∧ time_bucket_index f = b ∧ valid_frame f) as Hv.
  { intros b f Hf. unfold values in Hf. rewrite Hg in Hf. simpl in Hf. rewrite group_frames_lookup in Hf.
    destruct (budget_key_timeframes grp !! b) as [l|] eqn:Hl; [|done]. simpl in Hf.
    destruct (V b l Hl) as (f' & Hf' & ? & ?). rewrite Hf in Hf'. injection Hf' as <-.
    split; [|done]. apply Hh, elem_of_dom. by exists l. }
  destruct (loaded_day_of_values (values s g)) as [Hlen <-]; [naive_solver|done|].
  fold (ordered_values s g) in Hlen |- *.
  assert (Forall is_u8 (token_count <$> ordered_values s g)) as Hu8.
  { apply Forall_fmap, Forall_forall. intros f (b & _ & Hf)%list_elem_of_omap.
    by destruct (Hv b f Hf) as (_ & _ & _ & ? & _). }
  apply OnLoad_loads_day; try done.
  apply answered_stored_tokens; [done|done|done|done|by rewrite Hat].
Qed.

End database.
End loading.
