(* ===== verification/TimeframeRecovery.v ===== *)
(** * Updates, recovery and checkpoints of days

    An update is journaled before memory changes, and replaying its log does
    what the update did; replaying a checkpoint gives every day back. *)

From S2P Require Import Prelude Text ExecutionResult ErrorCodes Uuid ConcurrentMap Serialization AutoExpiryMap AutoExpiryView TimeframeUtils TimeframeLog TimeframeManager TimeframeCache TimeframeLoading.
From stdpp Require Import options.

Local Open Scope Z_scope.

(** ** The timeframes of an update *)

Definition update_bucket (u : BudgetKeyTimeframeUpdateInfo) : Z := GetTimeBucket (reporting_time u).

(** The timeframe an update leaves. *)
Definition updated_frame (u : BudgetKeyTimeframeUpdateInfo) : BudgetKeyTimeframe :=
  mkFrame (update_bucket u) (update_token_count u) (update_transaction_id u) (update_active_token_count u).

(** An update whose fields fit their types. *)
Definition valid_update (u : BudgetKeyTimeframeUpdateInfo) : Prop :=
  in_range_time (reporting_time u) ∧ is_u8 (update_token_count u) ∧ is_u8 (update_active_token_count u) ∧
  valid_uuid (update_transaction_id u).

Lemma updated_frame_valid u : valid_update u → valid_frame (updated_frame u).
Proof.
  intros (Ht & H1 & H2 & H3). split_and!; simpl; try done.
  pose proof (GetTimeBucket_range _ Ht). unfold is_u64. fold (update_bucket u) in *. lia.
Qed.

(** The timeframes [ls] are those of the buckets of the updates. *)
Definition frames_of_updates (m : gmap Z frame_loc) (us : list BudgetKeyTimeframeUpdateInfo)
    (ls : list frame_loc) : Prop :=
  Forall2 (λ u l, m !! update_bucket u = Some l) us ls.

Lemma frames_to_journal_spec (m : gmap Z frame_loc) (us : list BudgetKeyTimeframeUpdateInfo) :
  (∀ u, u ∈ us → is_Some (m !! update_bucket u)) →
  ∃ ls, frames_to_journal m us = (SuccessExecutionResult, (ls, updated_frame <$> us)) ∧
    frames_of_updates m us ls.
Proof.
  induction us as [|u us IH]; intros Hm; [by exists []; split; [|constructor]|].
  destruct IH as (ls & Hj & Hls); [intros u' Hu'; apply Hm; by constructor|].
  destruct (Hm u) as [l Hl]; [by constructor|]. exists (l :: ls).
  cbn [frames_to_journal]. fold (update_bucket u). rewrite (ConcurrentMap.Find_Some _ _ _ Hl), Hj.
  split; [done|]. by constructor.
Qed.

(** Writing a timeframe of a group changes its bucket only. *)
Lemma values_on_frame s g grp h b l f :
  group_heap s !! g = Some grp → valid_timeframes (frame_heap s) (budget_key_timeframes grp) →
  budget_key_timeframes grp !! b = Some l → frame_heap s !! l = Some f →
  values (on_frame h l s) g = {[ b := h f ]} ∪ values s g.
Proof.
  intros Hg V Hl Hf. unfold values, on_frame; simpl. rewrite Hg. simpl. apply map_eq. intros b'.
  rewrite lookup_union, !group_frames_lookup. destruct (decide (b = b')) as [<-|Hne].
  - rewrite Hl, lookup_singleton_eq. simpl. rewrite lookup_alter_eq, Hf. done.
  - rewrite lookup_singleton_ne, (left_id_L None _) by done.
    destruct (budget_key_timeframes grp !! b') as [l'|] eqn:Hl'; [|done]. simpl.
    rewrite lookup_alter_ne; [done|]. intros <-.
    destruct (V b l Hl) as (f1 & H1 & <- & _), (V b' l Hl') as (f2 & H2 & <- & _). congruence.
Qed.

Lemma apply_updates_values us ls s g grp :
  group_heap s !! g = Some grp → valid_timeframes (frame_heap s) (budget_key_timeframes grp) →
  frames_of_updates (budget_key_timeframes grp) us ls → Forall valid_update us →
  ∃ s', apply_updates s ls us = Some s' ∧
    budget_key_timeframe_groups_ s' = budget_key_timeframe_groups_ s ∧ group_heap s' = group_heap s ∧
    values s' g = by_bucket (updated_frame <$> us) ∪ values s g.
Proof.
  intros Hg V Hls. revert s Hg V. induction Hls as [|u l us ls Hl Hls IH]; intros s Hg V Hus.
  - exists s. split_and!; try done. simpl. by rewrite (left_id_L ∅ (∪)).
  - apply Forall_cons in Hus as [Hu Hus]. cbn [apply_updates].
    set (h := set_frame (update_active_token_count u) (update_transaction_id u) (update_token_count u)).
    destruct (V _ _ Hl) as (f & Hf & Hb & Hvf).
    assert (h f = updated_frame u) as Hh by (unfold h, set_frame, updated_frame; by rewrite Hb).
    destruct (IH (on_frame h l s)) as (s' & Hs' & Hc & Hgs & Hv); [done| |done|].
    + intros b l' Hl'. simpl. destruct (decide (l = l')) as [<-|Hne].
      * rewrite lookup_alter_eq, Hf. simpl. exists (h f). split; [done|]. rewrite Hh.
        destruct (V _ _ Hl') as (f' & Hf' & Hb' & _). assert (f' = f) as -> by congruence.
        split; [simpl; congruence|]. by apply updated_frame_valid.
      * rewrite lookup_alter_ne by done. by apply V.
    + exists s'. split_and!; [done|done|done|]. rewrite Hv.
      rewrite (values_on_frame s g grp h _ l f Hg V Hl Hf), Hh. simpl. by rewrite (assoc_L (∪)).
Qed.

Section recovery.
  Context `{TimeframeLogsLaws}.
  Variable id_ : Uuid.
  #[local] Set Default Proof Using "Type*".
  Local Abbreviation cache := budget_key_timeframe_groups_.

(** A log of updates of a day, of one timeframe or of several. *)
Definition journals_updates (b : BytesBuffer) (tg : Z) (frames : list BudgetKeyTimeframe) : Prop :=
  (∃ f, frames = [f] ∧
     journals b UPDATE_TIMEFRAME_RECORD tg (λ body, read_frame body = (SuccessExecutionResult, Some f))) ∨
  (frames ≠ [] ∧
   journals b BATCH_UPDATE_TIMEFRAME_RECORDS_OF_TIMEGROUP tg
     (λ body, read_batch body = (SuccessExecutionResult, frames))).

Lemma write_updates tg (frames : list BudgetKeyTimeframe) :
  is_u64 tg → frames ≠ [] → Z.of_nat (length frames) ≤ max_items → Forall valid_frame frames →
  ∃ b, (if (1 <? length frames)%nat then write_batch tg frames
        else f ← frames !! 0%nat; write_frame tg f) = Some (SuccessExecutionResult, b) ∧
    journals_updates b tg frames.
Proof.
  intros Htg Hne Hmax Hv. destruct (1 <? length frames)%nat eqn:Hl.
  - destruct (write_batch_law tg frames Htg Hne Hmax Hv) as (b & body & Hw & Hread).
    exists b. split; [done|]. right. split; [done|]. by exists b, body.
  - apply Nat.ltb_ge in Hl. destruct frames as [|f [|]]; simpl in Hl; [done| |lia].
    apply Forall_cons in Hv as [Hv _]. destruct (write_frame_law tg f Htg Hv) as (b & body & Hw & Hread).
    exists b. split; [done|]. left. exists f. split; [done|]. by exists b, body.
Qed.

Lemma Find_cached a s tg g : well_formed_map (cache s) → cached s tg g →
  ∃ c', AutoExpiryMap.Find cache_config (now a) (cache s) tg = (SuccessExecutionResult, Some g, c') ∧
    well_formed_map c' ∧ cached (with_cache c' s) tg g.
Proof.
  intros W (r & Hr & <- & Hb). destruct (Find_cases (now a) (cache s) tg W) as (c' & W' & Hc).
  rewrite Hr, Hb in Hc. destruct Hc as [-> He]. exists c'. split_and!; [done|done|].
  exists (extended cache_config (now a) r). simpl. rewrite He, lookup_insert_eq.
  destruct (extended_flags (now a) cache_config r) as (? & _ & ?). split_and!; congruence.
Qed.

Lemma recover_updates a s tg g grp b frames :
  well_formed_map (cache s) → cached s tg g → group_heap s !! g = Some grp →
  valid_timeframes (frame_heap s) (budget_key_timeframes grp) → journals_updates b tg frames →
  ∃ s', OnJournalServiceRecoverCallback a s b = Some (SuccessExecutionResult, s') ∧
    values s' g = by_bucket frames ∪ values s g.
Proof.
  intros W Hc Hg V Hj. destruct (Find_cached a s tg g W Hc) as (c' & Hf & W' & _).
  assert (group_heap (with_cache c' s) !! g = Some grp) as Hg' by done.
  unfold OnJournalServiceRecoverCallback.
  destruct Hj as [(f & -> & b' & body & [= <-] & -> & Hbody)|(Hne & b' & body & [= <-] & -> & Hbody)];
    cbn [mbind option_bind decoded_operation decoded_group decoded_body];
    change (negb (Successful SuccessExecutionResult)) with false; cbn iota; rewrite Hf;
    change (negb (Successful SuccessExecutionResult)) with false; cbn iota; rewrite Hbody;
    change (negb (Successful SuccessExecutionResult)) with false; cbn iota; cbn [mbind option_bind].
  - destruct (replace_frame_refilled _ g grp f Hg') as (s' & m' & -> & R). exists s'. split; [done|].
    rewrite (refilled_values _ _ _ _ _ _ Hg' V R). simpl. by rewrite (left_id_L ∅ (∪)).
  - destruct frames as [|f frames]; [done|]. cbn [length Nat.eqb].
    destruct (replace_frames_refilled (f :: frames) _ g grp Hg') as (s' & m' & Hr & R).
    rewrite Hr. exists s'. split; [done|]. by rewrite (refilled_values _ _ _ _ _ _ Hg' V R).
Qed.

Lemma one_day_length times : one_day times → Forall in_range_time times → (length times ≤ kHoursPerDay)%nat.
Proof.
  intros [_ Hn] Ht. rewrite <- (length_fmap GetTimeBucket).
  change kHoursPerDay with (length hours_of_day). apply submseteq_length, NoDup_submseteq; [done|].
  intros b (t & -> & Hin)%list_elem_of_fmap. apply hours_of_day_spec, GetTimeBucket_range.
  by apply (Forall_forall in_range_time times).
Qed.

(** C13: an update of a day that is in the cache sends a journal log, pins the
    day, and changes no timeframe. When the journal fails, the timeframes stay
    as they were; when it has taken the log, each timeframe of the request gets
    the token counts and the transaction of its update, and the others stay.
    Replaying the log on another instance that has the day as it was gives the
    day as it is in memory after the update. *)
Theorem Update_journal_replay a s ctx u us g grp :
  timeframes_to_update ctx = u :: us → one_day (reporting_time <$> (u :: us)) → Forall valid_update (u :: us) →
  let tg := GetTimeGroup (reporting_time u) in
  well_formed_map (cache s) → cached s tg g → group_heap s !! g = Some grp →
  valid_timeframes (frame_heap s) (budget_key_timeframes grp) →
  (∀ u', u' ∈ u :: us → is_Some (budget_key_timeframes grp !! update_bucket u')) →
  let day := by_bucket (updated_frame <$> u :: us) ∪ values s g in
  ∃ s1 b originals,
    Update id_ a s ctx
    = Some (SuccessExecutionResult, s1, [DispatchLog (log_request id_ a b) (OnUpdateLogged ctx originals)]) ∧
    values s1 g = values s g ∧ pinned_day s1 tg g ∧
    (∀ a2 r, Successful r = false → ∃ s2,
       OnLogUpdateCallback a2 s1 ctx originals r = Some (s2, [FinishUpdate ctx r]) ∧ values s2 g = values s g) ∧
    (∀ a2, ∃ s2,
       OnLogUpdateCallback a2 s1 ctx originals SuccessExecutionResult
       = Some (s2, [FinishUpdate ctx SuccessExecutionResult]) ∧ values s2 g = day) ∧
    (∀ a3 s3 g3 grp3, well_formed_map (cache s3) → cached s3 tg g3 → group_heap s3 !! g3 = Some grp3 →
       valid_timeframes (frame_heap s3) (budget_key_timeframes grp3) → values s3 g3 = values s g →
       ∃ s4, OnJournalServiceRecoverCallback a3 s3 b = Some (SuccessExecutionResult, s4) ∧
         values s4 g3 = day).
Proof.
  intros Hus Hday Hvalid tg W Hc Hg V Hin day. unfold Update. rewrite Hus.
  rewrite (proj2 (check_times_one_day (reporting_time <$> (u :: us)) ltac:(rewrite fmap_cons; done)) Hday). fold tg.
  destruct (Find_cached a s tg g W Hc) as (c1 & -> & W1 & r & Hr & He & Hb).
  change (negb (Successful SuccessExecutionResult)) with false. cbn iota. cbn [mbind option_bind].
  change (group_heap (with_cache c1 s)) with (group_heap s). rewrite Hg. cbn [mbind option_bind].
  destruct (frames_to_journal_spec _ _ Hin) as (ls & -> & Hls).
  change (negb (Successful SuccessExecutionResult)) with false. cbn iota.
  destruct (write_evictable_cases (now a) false c1 tg W1) as (c2 & W2 & Hw).
  simpl in Hr. rewrite Hr, Hb in Hw. destruct Hw as [Hw He2].
  unfold DisableEviction. change (cache (with_cache c1 s)) with c1. rewrite Hw.
  change (negb (Successful SuccessExecutionResult)) with false. cbn iota.
  destruct (write_updates tg (updated_frame <$> (u :: us))) as (b & Hwrite & Hj).
  { apply u64_range. } { done. }
  { rewrite length_fmap, <- (length_fmap reporting_time).
    pose proof (one_day_length _ Hday) as Hl. unfold kHoursPerDay, max_items in *.
    assert (Forall in_range_time (reporting_time <$> u :: us)) as Ht; [|specialize (Hl Ht); lia].
    apply Forall_fmap. eapply Forall_impl; [done|]. by intros u' (? & _). }
  { apply Forall_fmap. eapply Forall_impl; [done|]. apply updated_frame_valid. }
  rewrite length_fmap in Hwrite. rewrite Hwrite. cbn [mbind option_bind].
  change (negb (Successful SuccessExecutionResult)) with false. cbn iota.
  set (s1 := with_cache c2 (with_cache c1 s)).
  exists s1, b, ls. split; [done|]. split; [done|]. split_and!.
  - exists (set_evictable false (extended cache_config (now a) r)). unfold s1; simpl.
    rewrite He2, lookup_insert_eq. destruct (extended_flags (now a) cache_config r) as (Hxb & _ & Hxe).
    split_and!; simpl; congruence.
  - intros a2 r' Hr'. unfold OnLogUpdateCallback. rewrite Hus. cbn [lookup list_lookup mbind option_bind].
    destruct (EnableEviction _ _ _ _) as [? c3]. rewrite Hr'. by exists (with_cache c3 s1).
  - intros a2. unfold OnLogUpdateCallback. rewrite Hus. cbn [lookup list_lookup mbind option_bind].
    destruct (EnableEviction _ _ _ _) as [? c3].
    change (negb (Successful SuccessExecutionResult)) with false. cbn iota.
    destruct (apply_updates_values (u :: us) ls (with_cache c3 s1) g grp Hg V Hls Hvalid)
      as (s2 & -> & _ & _ & Hv). exists s2. split; [done|]. by rewrite Hv.
  - intros a3 s3 g3 grp3 W3 Hc3 Hg3 V3 Hv3.
    destruct (recover_updates a3 s3 tg g3 grp3 b (updated_frame <$> (u :: us)) W3 Hc3 Hg3 V3 Hj)
      as (s4 & Hrec & Hv4). exists s4. split; [done|]. by rewrite Hv4, Hv3.
Qed.

(** ** Checkpoints *)

(** The days of the cache with their timeframes. *)
Definition snapshot s : gmap Z (gmap Z BudgetKeyTimeframe) := (λ r, values s (entry r)) <$> entries (cache s).

(** Every day of the cache has its group, whose timeframes can be logged. *)
Record valid_manager s : Prop := {
  manager_cache : well_formed_map (cache s);
  manager_groups tg r : entries (cache s) !! tg = Some r →
    ∃ grp, group_heap s !! entry r = Some grp ∧ time_group grp = tg ∧
      valid_group (frame_heap s) grp ∧ Z.of_nat (size (budget_key_timeframes grp)) ≤ max_items;
}.

(** No day is being unloaded. *)
Definition none_evicted s : Prop := ∀ tg r, entries (cache s) !! tg = Some r → being_evicted r = false.

(** A log that holds a whole day. *)
Definition journals_day (b : BytesBuffer) (tg : Z) (day : gmap Z BudgetKeyTimeframe) : Prop :=
  journals b INSERT_TIMEGROUP_INTO_CACHE tg (λ body, read_group body = (SuccessExecutionResult, Some (tg, day))).

(** Replaying logs one after the other; the first failure ends it. *)
Fixpoint recover_logs (a : Answers) s (bs : list BytesBuffer)
  : option (ExecutionResult * BudgetKeyTimeframeManager) :=
  match bs with
  | [] => Some (SuccessExecutionResult, s)
  | b :: bs =>
      '(execution_result, s) ← OnJournalServiceRecoverCallback a s b;
      if negb (Successful execution_result) then Some (execution_result, s) else recover_logs a s bs
  end.

Lemma group_frames_mono (fs fs' : gmap frame_loc BudgetKeyTimeframe) (m : gmap Z frame_loc) :
  (∀ l f, fs !! l = Some f → fs' !! l = Some f) → (∀ b l, m !! b = Some l → is_Some (fs !! l)) →
  omap (λ l, fs' !! l) m = omap (λ l, fs !! l) m.
Proof.
  intros Hmono Hm. apply map_eq. intros b. rewrite !lookup_omap.
  destruct (m !! b) as [l|] eqn:Hl; [|done]. simpl. destruct (Hm _ _ Hl) as [f Hf].
  by rewrite Hf, (Hmono _ _ Hf).
Qed.

Lemma make_frames_spec (items : list (Z * BudgetKeyTimeframe)) s :
  ∃ m s', make_frames items s = (m, s') ∧ cache s' = cache s ∧ group_heap s' = group_heap s ∧
    (∀ l f, frame_heap s !! l = Some f → frame_heap s' !! l = Some f) ∧
    (∀ b l, m !! b = Some l → is_Some (frame_heap s' !! l)) ∧
    omap (λ l, frame_heap s' !! l) m = list_to_map items.
Proof.
  induction items as [|[b f] items (m & s' & Hm & Hc & Hg & Hf & Hv & Ho)].
  - exists ∅, s. by split_and!.
  - cbn [make_frames]. rewrite Hm. unfold make_frame. pose proof (fresh_frame s') as Hl.
    set (l := fresh (dom (frame_heap s'))) in *.
    assert (∀ l' f', frame_heap s' !! l' = Some f' → <[l := f]> (frame_heap s') !! l' = Some f') as Hmono.
    { intros l' f' Hl'. rewrite lookup_insert_ne; [done|]. intros <-. congruence. }
    eexists _, _. split; [done|]. split_and!; [done|done| | |].
    + intros l' f' Hl'. by apply Hmono, Hf.
    + intros b' l' Hb'. apply lookup_insert_Some in Hb' as [[<- <-]|[_ Hb']].
      * simpl. rewrite lookup_insert_eq. done.
      * destruct (Hv _ _ Hb') as [f' Hf']. exists f'. by apply Hmono.
    + simpl. rewrite (omap_insert_Some _ _ _ l f) by apply lookup_insert_eq. f_equal.
      rewrite <- Ho. by apply group_frames_mono.
Qed.

Definition loaded_group (g : BudgetKeyTimeframeGroup) : Prop := is_loaded g = true ∧ needs_loader g = false.

Definition day_loaded s (tg : Z) : Prop :=
  ∃ r grp, entries (cache s) !! tg = Some r ∧ group_heap s !! entry r = Some grp ∧ loaded_group grp.

(** A day is put in the cache of a valid manager. *)
Lemma put_day s s' tg g grp r :
  valid_manager s → group_heap s !! g = None →
  entries (cache s') = <[tg := r]> (delete tg (entries (cache s))) → entry r = g → well_formed_map (cache s') →
  group_heap s' = <[g := grp]> (group_heap s) →
  (∀ l f, frame_heap s !! l = Some f → frame_heap s' !! l = Some f) →
  time_group grp = tg → valid_group (frame_heap s') grp →
  Z.of_nat (size (budget_key_timeframes grp)) ≤ max_items →
  valid_manager s' ∧ snapshot s' = <[tg := group_frames (frame_heap s') grp]> (snapshot s) ∧
  (loaded_group grp → day_loaded s' tg) ∧ (∀ tg', day_loaded s tg' → tg' ≠ tg → day_loaded s' tg') ∧
  (being_evicted r = false → none_evicted s → none_evicted s').
Proof.
  intros M Hfresh He Hr W' Hgs Hmono Htg Hvg Hsize.
  assert (∀ tg' r', entries (cache s') !! tg' = Some r' →
    tg' = tg ∧ r' = r ∨ tg' ≠ tg ∧ entries (cache s) !! tg' = Some r') as Hent.
  { intros tg' r' Hr'. rewrite He, insert_delete_eq in Hr'.
    apply lookup_insert_Some in Hr' as [[<- <-]|[Hne Hr']]; [by left|right]. by split. }
  assert (∀ tg' r', entries (cache s) !! tg' = Some r' → ∃ grp', group_heap s !! entry r' = Some grp' ∧
    group_heap s' !! entry r' = Some grp' ∧ time_group grp' = tg' ∧ valid_group (frame_heap s) grp' ∧
    Z.of_nat (size (budget_key_timeframes grp')) ≤ max_items) as Hold.
  { intros tg' r' Hr'. destruct (manager_groups _ M _ _ Hr') as (grp' & Hg' & ? & ? & ?).
    exists grp'. split_and!; try done. rewrite Hgs, lookup_insert_ne; [done|]. congruence. }
  split_and!.
  - constructor; [done|]. intros tg' r' Hr'. destruct (Hent _ _ Hr') as [[-> ->]|[Hne Hr'']].
    + exists grp. rewrite Hr, Hgs, lookup_insert_eq. by split_and!.
    + destruct (Hold _ _ Hr'') as (grp' & _ & Hg' & Ht & (Hu & Hn & Hv) & Hs). exists grp'.
      split_and!; [done|done| |done]. split; [done|]. split; [done|]. intros b l Hl.
      destruct (Hv b l Hl) as (f & Hf & ?). eauto.
  - apply map_eq. intros tg'. unfold snapshot. rewrite lookup_fmap, He, insert_delete_eq.
    destruct (decide (tg = tg')) as [<-|Hne].
    + rewrite !lookup_insert_eq. simpl. unfold values. by rewrite Hr, Hgs, lookup_insert_eq.
    + rewrite !lookup_insert_ne, lookup_fmap by done.
      destruct (entries (cache s) !! tg') as [r'|] eqn:Hr'; [|done]. simpl. f_equal.
      destruct (Hold _ _ Hr') as (grp' & Hg1 & Hg2 & _ & (_ & _ & Hv) & _).
      unfold values. rewrite Hg1, Hg2. simpl. apply group_frames_mono; [done|].
      intros b l Hl. destruct (Hv b l Hl) as (f & Hf & _). by exists f.
  - intros Hl. exists r, grp. by rewrite He, lookup_insert_eq, Hr, Hgs, lookup_insert_eq.
  - intros tg' (r' & grp' & Hr' & Hg' & Hl) Hne. exists r', grp'.
    rewrite He, insert_delete_eq, lookup_insert_ne by done. split_and!; [done| |done].
    destruct (Hold _ _ Hr') as (grp'' & ? & ? & _). congruence.
  - intros Hb N tg' r' [[-> ->]|[_ Hr']]%Hent; [done|]. by apply (N tg').
Qed.

Lemma erase_day_spec s tg : well_formed_map (cache s) →
  ∃ c', erase_day s tg = (None, with_cache c' s) ∧ well_formed_map c' ∧ entries c' = delete tg (entries (cache s)).
Proof.
  intros W. destruct (Erase_cases (cache s) tg W) as (c' & W' & He & Hr). exists c'. split_and!; [|done|done].
  unfold erase_day. rewrite Hr. by destruct (entries (cache s) !! tg).
Qed.

Lemma valid_day_group (fs : gmap frame_loc BudgetKeyTimeframe) grp :
  is_u64 (time_group grp) → (∀ b l, budget_key_timeframes grp !! b = Some l → is_Some (fs !! l)) →
  group_frames fs grp ≠ ∅ →
  (∀ b f, group_frames fs grp !! b = Some f → time_bucket_index f = b ∧ valid_frame f) →
  valid_group fs grp ∧ size (budget_key_timeframes grp) = size (group_frames fs grp).
Proof.
  intros Htg Hv Hne Hf.
  assert (valid_timeframes fs (budget_key_timeframes grp)) as V.
  { intros b l Hl. destruct (Hv b l Hl) as [f Hl']. exists f. split; [done|]. apply Hf.
    by rewrite group_frames_lookup, Hl. }
  split; [split; [done|]; split; [|done]|].
  - intros Hm. apply Hne. unfold group_frames. by rewrite Hm, omap_empty.
  - by rewrite <- !size_dom, group_frames_dom.
Qed.

(** Replaying a day. *)
Lemma recover_insert_spec a s tg day body :
  valid_manager s → read_group body = (SuccessExecutionResult, Some (tg, day)) →
  is_u64 tg → day ≠ ∅ → (∀ b f, day !! b = Some f → time_bucket_index f = b ∧ valid_frame f) →
  Z.of_nat (size day) ≤ max_items →
  ∃ s', recover_insert a s tg body = Some (SuccessExecutionResult, s') ∧ valid_manager s' ∧
    snapshot s' = <[tg := day]> (snapshot s) ∧
    day_loaded s' tg ∧ (∀ tg', day_loaded s tg' → day_loaded s' tg') ∧ (none_evicted s → none_evicted s').
Proof.
  intros M Hbody Htg Hne Hday Hmax. unfold recover_insert.
  destruct (erase_day_spec s tg (manager_cache _ M)) as (c1 & -> & W1 & He1). rewrite Hbody.
  change (negb (Successful SuccessExecutionResult)) with false. cbn iota. cbn [mbind option_bind].
  destruct (make_frames_spec (map_to_list day) (with_cache c1 s)) as (m & s2 & -> & Hc2 & Hg2 & Hf2 & Hm & Ho).
  rewrite list_to_map_to_list in Ho. unfold make_group.
  assert (group_heap s !! fresh (dom (group_heap s2)) = None) as Hfresh.
  { change (group_heap s) with (group_heap (with_cache c1 s)). rewrite <- Hg2. apply fresh_group. }
  set (g := fresh (dom (group_heap s2))) in *. set (grp := write_timeframes m (NewGroup tg)).
  set (s3 := with_groups (<[g := grp]> (group_heap s2)) s2).
  change (cache s3) with (cache s2). rewrite Hc2. change (cache (with_cache c1 s)) with c1.
  destruct (Insert_cases (now a) c1 tg g W1) as (c' & W' & Hi). rewrite He1, lookup_delete_eq in Hi.
  destruct Hi as [-> He']. change (negb (Successful SuccessExecutionResult)) with false. cbn iota.
  cbn [default from_option].
  set (s' := on_group _ _ _). exists s'. split; [done|].
  set (grp' := write_is_loaded true (write_needs_loader false grp)).
  assert (group_heap s' = <[g := grp']> (group_heap s)) as Hgs.
  { unfold s', s3, on_group; simpl. by rewrite !alter_insert_eq, Hg2. }
  assert (group_frames (frame_heap s') grp' = day) as Hframes by exact Ho.
  destruct (valid_day_group (frame_heap s') grp') as [Hvg Hsize]; try (rewrite Hframes; done); [done|exact Hm|].
  destruct (put_day s s' tg g grp' (NewEntry (now a) g 120)) as (M' & Hs' & Hl & Hl' & HN); try done.
  - rewrite Hsize, Hframes. done.
  - split_and!; [done|by rewrite Hs', Hframes|by apply Hl| |by apply HN].
    intros tg' Htg'. destruct (decide (tg' = tg)) as [->|]; [by apply Hl|by apply Hl'].
Qed.

(** A day that can be logged and read back. *)
Definition good_day (tg : Z) (day : gmap Z BudgetKeyTimeframe) : Prop :=
  is_u64 tg ∧ day ≠ ∅ ∧ (∀ b f, day !! b = Some f → time_bucket_index f = b ∧ valid_frame f) ∧
  Z.of_nat (size day) ≤ max_items.

(** Replaying the log of a day. *)
Lemma recover_day a s tg day b :
  journals_day b tg day → good_day tg day → valid_manager s →
  ∃ s', OnJournalServiceRecoverCallback a s b = Some (SuccessExecutionResult, s') ∧ valid_manager s' ∧
    snapshot s' = <[tg := day]> (snapshot s) ∧
    day_loaded s' tg ∧ (∀ tg', day_loaded s tg' → day_loaded s' tg') ∧ (none_evicted s → none_evicted s').
Proof.
  intros (b' & body & [= <-] & Hread & Hbody) (Hu & Hne & Hfr & Hmax) M.
  destruct (recover_insert_spec a s tg day body M Hbody Hu Hne Hfr Hmax) as (s1 & Hr & M1 & Hs1 & Hl1 & Hl1').
  exists s1. split; [|done]. unfold OnJournalServiceRecoverCallback. rewrite Hread. cbn [mbind option_bind].
  change (negb (Successful SuccessExecutionResult)) with false. cbn iota.
  cbn [mbind option_bind decoded_operation decoded_group decoded_body]. exact Hr.
Qed.

(** Replaying the logs of days puts each of them in the cache, loaded. *)
Lemma recover_logs_days a days bs s :
  Forall2 (λ '(tg, day) b, journals_day b tg day ∧ good_day tg day) days bs →
  NoDup days.*1 → valid_manager s →
  ∃ s', recover_logs a s bs = Some (SuccessExecutionResult, s') ∧ valid_manager s' ∧
    snapshot s' = list_to_map days ∪ snapshot s ∧
    (∀ tg, tg ∈ days.*1 ∨ day_loaded s tg → day_loaded s' tg).
Proof.
  intros Hdays. revert s. induction Hdays as [|[tg day] b days bs [Hj Hd] Hdays IH]; intros s Hn M.
  - exists s. split_and!; [done|done|simpl; by rewrite (left_id_L ∅ (∪))|].
    by intros tg [?%elem_of_nil|?].
  - apply NoDup_cons in Hn as [Hn1 Hn].
    destruct (recover_day a s tg day b Hj Hd M) as (s1 & Hr & M1 & Hs1 & Hl1 & Hl1' & _).
    cbn [recover_logs]. rewrite Hr. cbn [mbind option_bind].
    change (negb (Successful SuccessExecutionResult)) with false. cbn iota.
    destruct (IH s1 Hn M1) as (s2 & Hr2 & M2 & Hs2 & Hl2). exists s2. split_and!; [done|done| |].
    + rewrite Hs2, Hs1. cbn [list_to_map foldr uncurry]. simpl.
      rewrite <- insert_union_r, insert_union_l; [done|]. by apply not_elem_of_list_to_map_1.
    + intros tg' [Htg'|Htg']; apply Hl2.
      * apply elem_of_cons in Htg' as [->|]; [right; exact Hl1|by left].
      * right. by apply Hl1'.
Qed.

(** Accessing a day changes when it expires, and nothing else. *)
Lemma touch_day s c' tg r r' :
  entries (cache s) !! tg = Some r → entries c' = <[tg := r']> (entries (cache s)) → well_formed_map c' →
  entry r' = entry r → being_evicted r' = being_evicted r →
  valid_manager s → none_evicted s →
  valid_manager (with_cache c' s) ∧ none_evicted (with_cache c' s) ∧ snapshot (with_cache c' s) = snapshot s.
Proof.
  intros Hr He W' Hre Hrb M N. split_and!.
  - constructor; [done|]. intros tg' r'' Hr''. cbn [budget_key_timeframe_groups_ with_cache] in Hr''.
    rewrite He in Hr''. apply lookup_insert_Some in Hr'' as [[<- <-]|[_ Hr'']].
    + rewrite Hre. by apply (manager_groups _ M).
    + by apply (manager_groups _ M).
  - intros tg' r'' Hr''. cbn [budget_key_timeframe_groups_ with_cache] in Hr''.
    rewrite He in Hr''. apply lookup_insert_Some in Hr'' as [[<- <-]|[_ Hr'']]; [|by apply (N tg')].
    rewrite Hrb. by apply (N tg).
  - apply map_eq. intros tg'. unfold snapshot; simpl. rewrite !lookup_fmap, He.
    destruct (decide (tg = tg')) as [<-|]; [|by rewrite lookup_insert_ne].
    rewrite lookup_insert_eq, Hr. simpl. by rewrite Hre.
Qed.

Lemma snapshot_good s tg r : valid_manager s → entries (cache s) !! tg = Some r →
  ∃ grp, group_heap s !! entry r = Some grp ∧ time_group grp = tg ∧ valid_group (frame_heap s) grp ∧
    Z.of_nat (size (budget_key_timeframes grp)) ≤ max_items ∧
    snapshot s !! tg = Some (group_frames (frame_heap s) grp) ∧
    good_day tg (group_frames (frame_heap s) grp).
Proof.
  intros M Hr. destruct (manager_groups _ M _ _ Hr) as (grp & Hg & Htg & (Hu & Hn & V) & Hs).
  pose proof (group_frames_dom (frame_heap s) grp V) as Hd.
  exists grp. split_and!; [done|done|by split_and!|done| |].
  - unfold snapshot. rewrite lookup_fmap, Hr. simpl. unfold values. by rewrite Hg.
  - split_and!; [by rewrite <- Htg| | |].
    + intros He. apply Hn, dom_empty_iff_L. rewrite <- Hd, He. apply dom_empty_L.
    + intros b f Hf. rewrite group_frames_lookup in Hf.
      destruct (budget_key_timeframes grp !! b) as [l|] eqn:Hl; [|done]. simpl in Hf.
      destruct (V b l Hl) as (f' & Hf' & ?). by simplify_eq.
    + by rewrite <- size_dom, Hd, size_dom.
Qed.

(** The logs of a checkpoint, in the order of the days. *)
Record checkpoint_of (a : Answers) (i : nat) (days : list (Z * gmap Z BudgetKeyTimeframe))
    (logs : list JournalLogRequest) : Prop := {
  logged_days : Forall2 (λ '(tg, day) b, journals_day b tg day ∧ good_day tg day) days (log_data <$> logs);
  logged_ids : log_id <$> logs = generated a <$> seq i (length logs);
  logged_components : Forall (λ l, component_id l = id_ ∧ BytesBufferOf (BufferContents (log_data l)) = log_data l) logs;
}.

Lemma checkpoint_days_spec a tgs i s :
  valid_manager s → none_evicted s → (∀ tg, tg ∈ tgs → tg ∈ dom (entries (cache s))) →
  ∃ s' logs days, checkpoint_days id_ a s i tgs = Some (SuccessExecutionResult, s', logs) ∧
    valid_manager s' ∧ none_evicted s' ∧ snapshot s' = snapshot s ∧
    days.*1 = tgs ∧ (∀ tg day, (tg, day) ∈ days → snapshot s !! tg = Some day) ∧ checkpoint_of a i days logs.
Proof.
  revert i s. induction tgs as [|tg tgs IH]; intros i s M N Hin.
  - exists s, [], []. split_and!; [done..|by intros ?? ?%elem_of_nil|by constructor].
  - assert (tg ∈ dom (entries (cache s))) as [r Hr]%elem_of_dom by (apply Hin; constructor).
    destruct (Find_cases (now a) (cache s) tg (manager_cache _ M)) as (c' & W' & Hf).
    rewrite Hr, (N _ _ Hr) in Hf. destruct Hf as [Hf He]. cbn [checkpoint_days]. rewrite Hf.
    change (negb (Successful SuccessExecutionResult)) with false. cbn iota. cbn [mbind option_bind].
    destruct (snapshot_good s tg r M Hr) as (grp & Hg & Htg & Hvg & Hs & Hsnap & Hgood).
    change (group_heap (with_cache c' s)) with (group_heap s). rewrite Hg. cbn [mbind option_bind].
    change (frame_heap (with_cache c' s)) with (frame_heap s).
    destruct (write_group_law (frame_heap s) grp Hvg Hs) as (b & body & Hw & Hread & Hbody).
    pose proof (write_group_stored (frame_heap s) grp b Hvg Hs Hw) as Hstored.
    rewrite Hw. cbn [mbind option_bind]. change (negb (Successful SuccessExecutionResult)) with false. cbn iota.
    destruct (extended_flags (now a) cache_config r) as (Hxb & _ & Hxe).
    destruct (touch_day s c' tg r _ Hr He W' Hxe Hxb M N) as (M1 & N1 & Hs1).
    destruct (IH (S i) (with_cache c' s) M1 N1) as (s' & logs & days & Hc & M' & N' & Hs' & Hd1 & Hd2 & [Hd3 Hd4 Hd5]).
    { intros tg' Htg'. simpl. rewrite He, dom_insert_L. apply elem_of_union_r, Hin. by constructor. }
    rewrite Hc. cbn [mbind option_bind]. eexists _, _, ((tg, group_frames (frame_heap s) grp) :: days).
    split; [done|]. split; [done|]. split; [done|]. split; [by rewrite Hs', Hs1|]. split_and!.
    + by rewrite fmap_cons, Hd1.
    + intros tg' day [[= -> ->]|Hday]%elem_of_cons; [done|]. rewrite <- Hs1. by apply Hd2.
    + constructor; simpl.
      * constructor; [|done]. split; [|done]. exists b, body. rewrite <- Htg. by split_and!.
      * f_equal. exact Hd4.
      * by constructor.
Qed.

Lemma Checkpoint_logs a s :
  valid_manager s → none_evicted s →
  ∃ s' logs days, Checkpoint id_ a s = Some (SuccessExecutionResult, s', logs) ∧
    valid_manager s' ∧ none_evicted s' ∧ snapshot s' = snapshot s ∧
    NoDup days.*1 ∧ list_to_map days = snapshot s ∧ checkpoint_of a 0 days logs.
Proof.
  intros M N. unfold Checkpoint. destruct (Keys_implements (cache s) (manager_cache _ M)) as (Hk1 & Hk2 & Hk3).
  destruct (AutoExpiryMap.Keys (cache s)) as [r keys]. simpl in Hk1, Hk2, Hk3. subst r.
  change (negb (Successful SuccessExecutionResult)) with false. cbn iota.
  destruct (checkpoint_days_spec a keys 0 s M N) as (s' & logs & days & -> & M' & N' & Hs' & Hd1 & Hd2 & Hd3).
  { intros tg. by rewrite Hk3. }
  exists s', logs, days. split_and!; try done; [by rewrite Hd1|].
  assert (dom (snapshot s) = dom (entries (cache s))) as Hdom by apply dom_fmap_L.
  apply map_eq. intros tg. destruct (snapshot s !! tg) as [day|] eqn:Hday.
  - assert (tg ∈ days.*1) as Htg by (rewrite Hd1, Hk3, <- Hdom; by apply elem_of_dom).
    apply list_elem_of_fmap in Htg as ([tg' day'] & -> & Hin). simpl in *. rewrite (Hd2 _ _ Hin) in Hday. injection Hday as <-.
    by apply elem_of_list_to_map_1; [rewrite Hd1|].
  - apply not_elem_of_list_to_map_1. rewrite Hd1, Hk3, <- Hdom. by apply not_elem_of_dom.
Qed.

(** C15: a checkpoint of a manager none of whose days is being unloaded succeeds,
    changes no day, and holds every day of the cache: replaying its logs in
    order on any valid manager succeeds, gives each of these days exactly the
    timeframes it had, loaded, and keeps the other days there are. *)
Theorem Checkpoint_recover a s :
  valid_manager s → none_evicted s →
  ∃ s' checkpoint_logs, Checkpoint id_ a s = Some (SuccessExecutionResult, s', checkpoint_logs) ∧
    snapshot s' = snapshot s ∧
    ∀ a0 s0, valid_manager s0 →
      ∃ s1, recover_logs a0 s0 (log_data <$> checkpoint_logs) = Some (SuccessExecutionResult, s1) ∧
        snapshot s1 = snapshot s ∪ snapshot s0 ∧ (∀ tg, tg ∈ dom (snapshot s) → day_loaded s1 tg).
Proof.
  intros M N. destruct (Checkpoint_logs a s M N) as (s' & logs & days & -> & _ & _ & Hs' & Hn & Hdays & [Hl _ _]).
  exists s', logs. split_and!; [done|done|]. intros a0 s0 M0.
  destruct (recover_logs_days a0 days _ s0 Hl Hn M0) as (s1 & Hr & _ & Hs1 & Hload).
  exists s1. split_and!; [done|by rewrite Hs1, Hdays|].
  intros tg Htg. apply Hload. left. by rewrite <- Hdays, dom_list_to_map_L, elem_of_list_to_set in Htg.
Qed.

End recovery.
