(* ===== verification/TimeframeSystem.v ===== *)
(** * The timeframe manager with its database, journal and collector

    The handlers of [TimeframeManager] as a transition system: calls of clients,
    and the answers to the calls in flight, in any order. Two results about
    loading: a day is never loaded by two calls at once, and a load that could
    not be started leaves its day unloadable. *)

From S2P Require Import Prelude Text ExecutionResult ErrorCodes Uuid ConcurrentMap Serialization AutoExpiryMap AutoExpiryView TimeframeUtils TimeframeLog TimeframeManager TimeframeCache TimeframeLoading.
From stdpp Require Import options.

Local Open Scope Z_scope.

Record System := mkSystem {
  manager_state : BudgetKeyTimeframeManager;
  in_flight : list Action;
}.

(** The calls of a handler that will be answered: those the other side took,
    those the dispatcher delivers, and the decision about an element. *)
Definition is_awaited (a : Answers) (action : Action) : bool :=
  match action with
  | GetDatabaseItem _ _ _ | UpsertDatabaseItem _ _ _ _ _ | JournalLog _ _ => Successful (accepted a)
  | DispatchLog _ _ | should_delete_entry _ _ => true
  | FinishLoad _ _ | FinishUpdate _ _ => false
  end.

Definition awaited (a : Answers) (actions : list Action) : list Action :=
  filter (λ action, is_awaited a action = true) actions.

Section system.
  Context `{TimeframeLogs}.
  Variable budget_key_name_ : string.
  Variable id_ : Uuid.
  Variable split_text : string → list string.

(** The manager's part of a round of the collector: it is asked about each
    element in turn. *)
Fixpoint offered (a : Answers) (s : BudgetKeyTimeframeManager)
    (calls : list (AutoExpiryMap.Action (K := Z) (V := group_loc))) : option (list Action) :=
  match calls with
  | [] => Some []
  | OnBeforeElementDeletion tg g element :: rest =>
      actions ← OnBeforeGarbageCollection budget_key_name_ a s tg g element;
      more ← offered a s rest;
      Some (actions ++ more)
  | ScheduleFor _ :: rest => offered a s rest
  end.

Inductive step : System → System → Prop :=
| step_load a s ctx r s' actions fl :
    Load budget_key_name_ a s ctx = Some (r, s', actions) →
    step (mkSystem s fl) (mkSystem s' (fl ++ awaited a actions))
| step_database a s key ctx g result attributes s' actions fl1 fl2 :
    OnLoadTimeframeGroupFromDBCallback id_ split_text a s ctx g result attributes = Some (s', actions) →
    step (mkSystem s (fl1 ++ GetDatabaseItem key ctx g :: fl2))
         (mkSystem s' ((fl1 ++ fl2) ++ awaited a actions))
| step_load_logged s request ctx g result s' actions fl1 fl2 :
    OnLogLoadCallback s ctx g result = Some (s', actions) →
    step (mkSystem s (fl1 ++ DispatchLog request (OnLoadLogged ctx g) :: fl2)) (mkSystem s' (fl1 ++ fl2))
| step_update a s ctx r s' actions fl :
    Update id_ a s ctx = Some (r, s', actions) →
    step (mkSystem s fl) (mkSystem s' (fl ++ awaited a actions))
| step_update_logged a s request ctx frames result s' actions fl1 fl2 :
    OnLogUpdateCallback a s ctx frames result = Some (s', actions) →
    step (mkSystem s (fl1 ++ DispatchLog request (OnUpdateLogged ctx frames) :: fl2)) (mkSystem s' (fl1 ++ fl2))
| step_round a s locked scheduled c calls actions fl :
    RunGarbageCollector cache_config locked (now a) scheduled (budget_key_timeframe_groups_ s) = (c, calls) →
    offered a (with_cache c s) calls = Some actions →
    step (mkSystem s fl) (mkSystem (with_cache c s) (fl ++ awaited a actions))
| step_stored a s key attributes tg g element result actions fl1 fl2 :
    OnStoreTimeframeGroupToDBCallback id_ a s result tg g element = Some actions →
    step (mkSystem s (fl1 ++ UpsertDatabaseItem key attributes tg g element :: fl2))
         (mkSystem s ((fl1 ++ fl2) ++ awaited a actions))
| step_removal_logged a s request element result fl1 fl2 :
    step (mkSystem s (fl1 ++ JournalLog request (OnRemovalLogged element) :: fl2))
         (mkSystem s ((fl1 ++ fl2) ++ awaited a (OnRemoveEntryFromCacheLogged element result)))
| step_answer a s element can_delete scheduled c calls fl1 fl2 :
    AutoExpiryMap.OnRemoveEntryFromCacheLogged cache_config (now a) scheduled
      (budget_key_timeframe_groups_ s) element can_delete = (c, calls) →
    step (mkSystem s (fl1 ++ should_delete_entry element can_delete :: fl2))
         (mkSystem (with_cache c s) (fl1 ++ fl2))
| step_recover a s b r s' fl :
    OnJournalServiceRecoverCallback a s b = Some (r, s') →
    step (mkSystem s fl) (mkSystem s' fl).

End system.

Definition initial_manager : BudgetKeyTimeframeManager := mkManager (mkMap ∅ ∅ 0 true) ∅ ∅.

(** ** The flags of a group *)

(** [needs_loader] and [is_loaded] of a group. *)
Definition flags (s : BudgetKeyTimeframeManager) (g : group_loc) : option (bool * bool) :=
  (λ grp, (needs_loader grp, is_loaded grp)) <$> group_heap s !! g.

(** The group an action loads. *)
Definition loading_group (action : Action) : option group_loc :=
  match action with
  | GetDatabaseItem _ _ g | DispatchLog _ (OnLoadLogged _ g) => Some g
  | _ => None
  end.

Definition loading (fl : list Action) : list group_loc := omap loading_group fl.

(** The group was taken for loading: it is new, or its loader's flag was taken. *)
Definition taken (s s' : BudgetKeyTimeframeManager) (g : group_loc) : Prop :=
  (flags s g = None ∨ ∃ b, flags s g = Some (true, b)) ∧
  flags s' g = Some (false, from_option snd false (flags s g)).

Lemma loading_app fl1 fl2 : loading (fl1 ++ fl2) = loading fl1 ++ loading fl2.
Proof. apply omap_app. Qed.

Lemma loading_awaited a actions : sublist (loading (awaited a actions)) (loading actions).
Proof.
  induction actions as [|action actions IH]; [constructor|]. unfold awaited in *. rewrite filter_cons.
  unfold loading in *. case_decide; simpl; destruct (loading_group action); try done; by constructor.
Qed.

Lemma loading_awaited_nil a actions : loading actions = [] → loading (awaited a actions) = [].
Proof. intros Hn. pose proof (loading_awaited a actions) as Hs. rewrite Hn in Hs. by apply sublist_nil_r. Qed.

Lemma loading_awaited_one a actions g : loading actions = [g] →
  loading (awaited a actions) = [] ∨ loading (awaited a actions) = [g].
Proof.
  intros Hn. pose proof (loading_awaited a actions) as Hs. rewrite Hn in Hs.
  apply sublist_cons_r in Hs as [Hs|(l & -> & Hs)]; apply sublist_nil_r in Hs; subst; auto.
Qed.

Lemma flags_on_group s f g g' :
  flags (on_group f g s) g'
  = (λ grp, let grp' := if decide (g = g') then f grp else grp in (needs_loader grp', is_loaded grp'))
      <$> group_heap s !! g'.
Proof.
  unfold flags, on_group; simpl. destruct (decide (g = g')) as [->|].
  - rewrite lookup_alter_eq. by destruct (group_heap s !! g').
  - by rewrite lookup_alter_ne.
Qed.

Lemma flags_write_timeframes s m g g' : flags (on_group (write_timeframes m) g s) g' = flags s g'.
Proof. rewrite flags_on_group. unfold flags. destruct (group_heap s !! g'); [|done]. simpl. by case_decide. Qed.

Lemma flags_make_group s grp l s' g' : make_group grp s = (l, s') →
  flags s l = None ∧
  flags s' g' = if decide (g' = l) then Some (needs_loader grp, is_loaded grp) else flags s g'.
Proof.
  intros [= <- <-]. pose proof (fresh_group s) as Hf. unfold flags. rewrite Hf. split; [done|]. simpl.
  destruct (decide (g' = fresh (dom (group_heap s)))) as [->|]; [by rewrite lookup_insert_eq|].
  by rewrite lookup_insert_ne.
Qed.

Lemma flags_make_frames items s m s' : make_frames items s = (m, s') → ∀ g, flags s' g = flags s g.
Proof.
  revert m s'. induction items as [|[b f] items IH]; simpl; intros m s' Hm g; [by simplify_eq|].
  destruct (make_frames items s) as [m1 s1] eqn:H1. unfold make_frame in Hm. simplify_eq.
  by rewrite <- (IH _ _ eq_refl g).
Qed.

Lemma flags_replace_frame s g f r s' : replace_frame s g f = Some (r, s') → ∀ g', flags s' g' = flags s g'.
Proof.
  unfold replace_frame, make_frame. intros Hr g'. cbn [group_heap with_frames] in Hr.
  destruct (group_heap s !! g) as [grp|]; [|done]. cbn [mbind option_bind] in Hr.
  destruct (ConcurrentMap.Erase _ _) as [r1 m1]. destruct (erase_failed r1).
  - injection Hr as _ <-. by rewrite flags_write_timeframes.
  - destruct (ConcurrentMap.Insert _ _) as [[r2 l2] m2]. injection Hr as _ <-.
    by rewrite !flags_write_timeframes.
Qed.

Lemma flags_replace_frames frames s g r s' :
  replace_frames s g frames = Some (r, s') → ∀ g', flags s' g' = flags s g'.
Proof.
  revert s. induction frames as [|f frames IH]; simpl; intros s Hr g'; [by simplify_eq|].
  destruct (replace_frame s g f) as [[r1 s1]|] eqn:H1; [|done]. simpl in Hr.
  rewrite <- (flags_replace_frame _ _ _ _ _ H1). destruct (negb (Successful r1)); [by simplify_eq|].
  by apply IH.
Qed.

Lemma flags_fill_group hours s g tokens r s' :
  fill_group s g tokens hours = Some (r, s') → ∀ g', flags s' g' = flags s g'.
Proof.
  revert s. induction hours as [|i hours IH]; intros s Hr g'; cbn [fill_group] in Hr; [by simplify_eq|].
  unfold make_frame in Hr. cbn [group_heap with_frames] in Hr.
  destruct (group_heap s !! g) as [grp|]; [|done]. cbn [mbind option_bind] in Hr.
  destruct (ConcurrentMap.Erase _ _) as [r1 m1]. destruct (erase_failed r1).
  { injection Hr as _ <-. by rewrite flags_write_timeframes. }
  destruct (ConcurrentMap.Insert _ _) as [[r2 l2] m2]. destruct (negb (Successful r2)).
  { injection Hr as _ <-. by rewrite !flags_write_timeframes. }
  destruct (tokens !! Z.to_nat i) as [t|]; [|done]. cbn [mbind option_bind] in Hr.
  rewrite (IH _ Hr). change (flags (on_frame ?h ?l ?s1) g') with (flags s1 g').
  by rewrite !flags_write_timeframes.
Qed.

Lemma Insert_success cfg t (c : AutoExpiryConcurrentMap (K := Z) (V := group_loc)) tg g r out c' :
  AutoExpiryMap.Insert cfg t c tg g = (r, out, c') → Successful r = true → out = Some g.
Proof.
  unfold AutoExpiryMap.Insert. cbn [concurrent_map_ with_records].
  destruct (concurrent_map_ c !! tg) as [l|] eqn:Hl.
  - rewrite (ConcurrentMap.Insert_Some _ _ _ _ Hl). intros Hi Hr. cbn [records with_map with_records] in Hi.
    destruct (_ !! l) as [x|]; [|by simplify_eq].
    change (negb (Successful (FailureExecutionResult _))) with true in Hi. cbn iota in Hi.
    change (negb (result_eqb _ _)) with false in Hi. cbn iota in Hi.
    destruct (access _ _ _); by simplify_eq.
  - rewrite (ConcurrentMap.Insert_None _ _ _ Hl). cbn [records with_map with_records].
    rewrite lookup_insert_eq. change (negb (Successful SuccessExecutionResult)) with false.
    intros [= _ <- _] _. done.
Qed.

(** ** What each handler does to the flags *)

Section effects.
  Context `{TimeframeLogs}.
  Variable budget_key_name_ : string.
  Variable id_ : Uuid.
  Variable split_text : string → list string.
  #[local] Set Default Proof Using "Type*".

Lemma start_load_effect a s ctx tg g r s' actions :
  start_load budget_key_name_ a s ctx tg g = Some (r, s', actions) →
  (∀ g', flags s' g' = flags s g') ∧ (loading actions = [] ∨ loading actions = [g]).
Proof.
  unfold start_load. destruct (DisableEviction _ _ _ _) as [r1 c]. intros Hs.
  destruct (negb (Successful r1)); [simplify_eq; split; [done|by left]|].
  unfold LoadTimeframeGroupFromDB in Hs. cbn [group_heap with_cache] in Hs.
  destruct (group_heap s !! g) as [grp|]; [|done]. cbn [mbind option_bind] in Hs.
  destruct (key_table a) as [r2 table]. destruct (negb (Successful r2)); simplify_eq; (split; [done|]); auto.
Qed.

Lemma load_existing_effect a s ctx tg g r s' actions :
  load_existing budget_key_name_ a s ctx tg g = Some (r, s', actions) →
  ((∀ g', flags s' g' = flags s g') ∧ loading actions = []) ∨
  ((∃ b, flags s g = Some (true, b) ∧ flags s' g = Some (false, b)) ∧ (∀ g', g' ≠ g → flags s' g' = flags s g') ∧
   (loading actions = [] ∨ loading actions = [g])).
Proof.
  unfold load_existing. destruct (group_heap s !! g) as [grp|] eqn:Hg; [|done]. cbn [mbind option_bind].
  destruct (needs_loader grp) eqn:Hn.
  - intros [Hf Hl]%start_load_effect. right. split_and!; [| |done].
    + exists (is_loaded grp). rewrite Hf, flags_on_group, Hg. unfold flags. rewrite Hg. simpl.
      rewrite decide_True by done. by rewrite Hn.
    + intros g' Hne. rewrite Hf, flags_on_group. unfold flags. destruct (group_heap s !! g'); [|done]. simpl.
      by rewrite decide_False.
  - intros Hs. left. destruct (negb (is_loaded grp)); [by simplify_eq|].
    destruct (PopulateLoadBudgetKeyTimeframeResponse grp ctx) as [r1 ctx1].
    by destruct (negb (Successful r1)); simplify_eq.
Qed.

Lemma Load_effect a s ctx r s' actions :
  Load budget_key_name_ a s ctx = Some (r, s', actions) →
  (∀ g, flags s' g = flags s g ∨ taken s s' g) ∧
  (loading actions = [] ∨ ∃ g, loading actions = [g] ∧ taken s s' g).
Proof.
  unfold Load. intros Hs. destruct (reporting_times ctx) as [|t ts]; [simplify_eq; split; by left|].
  destruct (check_times (t :: ts)) as [r0|]; [simplify_eq; split; by left|].
  destruct (make_group (NewGroup (GetTimeGroup t)) s) as [l s1] eqn:Hm.
  pose proof (λ g, flags_make_group _ _ _ _ g Hm) as Hfl.
  destruct (AutoExpiryMap.Insert _ _ _ _ _) as [[r1 out] c] eqn:HI.
  assert (∀ g s2, (∀ g', flags s2 g' = flags s1 g') → flags s2 g = flags s g ∨ taken s s2 g) as Hnew.
  { intros g s2 H2. destruct (Hfl g) as [Hnone Hg]. rewrite <- H2 in Hg. case_decide as Hd; [|by left].
    subst g. right. split; [by left|]. by rewrite Hg, Hnone. }
  assert (∀ s2, (∀ g', flags s2 g' = flags s1 g') → taken s s2 l) as Hl.
  { intros s2 H2. destruct (Hfl l) as [Hnone Hg]. rewrite <- H2, decide_True in Hg by done.
    split; [by left|]. by rewrite Hg, Hnone. }
  destruct (negb (Successful r1)) eqn:Hr1.
  - destruct (_ && _); [simplify_eq; split; [intros g; by apply Hnew|by left]|].
    destruct (_ =? _); [simplify_eq; split; [intros g; by apply Hnew|by left]|].
    apply load_existing_effect in Hs as [[Hf Hn]|((b & Hb1 & Hb2) & Hf & Hn)].
    + split; [intros g; by apply Hnew|by left].
    + set (g := default l out) in *. change (flags (with_cache c s1) ?x) with (flags s1 x) in *.
      assert (taken s s' g) as Ht.
      { destruct (Hfl g) as [_ Hg]. case_decide as Hd; [rewrite Hg in Hb1; by simplify_eq|].
        rewrite Hg in Hb1. split; [right; by exists b|]. by rewrite Hb2, Hb1. }
      split; [|destruct Hn; [by left|right; by exists g]].
      intros g'. destruct (decide (g' = g)) as [->|Hne]; [by right|]. specialize (Hf g' Hne).
      change (flags (with_cache c s1) g') with (flags s1 g') in Hf.
      destruct (Hfl g') as [Hnone Hg']. case_decide as Hd; [|left; by rewrite Hf].
      subst g'. right. split; [by left|]. by rewrite Hf, Hg', Hnone.
  - apply start_load_effect in Hs as [Hf Hn]. split; [intros g; by apply Hnew|].
    destruct Hn as [Hn|Hn]; [by left|right]. exists l. split; [|by apply Hl].
    apply negb_false_iff in Hr1. by rewrite (Insert_success _ _ _ _ _ _ _ _ HI Hr1) in Hn.
Qed.

Lemma fail_load_effect s ctx g r s' actions : fail_load s ctx g r = Some (s', actions) →
  loading actions = [] ∧ (∀ g', g' ≠ g → flags s' g' = flags s g') ∧
  flags s' g = (λ '(_, b), (true, b)) <$> flags s g.
Proof.
  intros [= <- <-]. split_and!; [done| |].
  - intros g' Hne. rewrite flags_on_group. unfold flags. destruct (group_heap s !! g'); [|done]. simpl.
    by rewrite decide_False.
  - rewrite flags_on_group. unfold flags. destruct (group_heap s !! g); [|done]. simpl. by rewrite decide_True.
Qed.

Lemma OnLoad_effect a s ctx g result attributes s' actions :
  OnLoadTimeframeGroupFromDBCallback id_ split_text a s ctx g result attributes = Some (s', actions) →
  (∀ g', g' ≠ g → flags s' g' = flags s g') ∧
  (flags s' g = flags s g ∧ loading actions = [g] ∧ awaited a actions = actions ∨
   flags s' g = (λ '(_, b), (true, b)) <$> flags s g ∧ loading actions = []).
Proof.
  unfold OnLoadTimeframeGroupFromDBCallback. intros Hs.
  destruct (group_heap s !! g) as [grp|]; [|done]. cbn [mbind option_bind] in Hs.
  destruct (EnableEviction _ _ _ _) as [r0 c].
  assert (∀ s1 ctx1 r1, (∀ g', flags s1 g' = flags s g') → fail_load s1 ctx1 g r1 = Some (s', actions) →
    (∀ g', g' ≠ g → flags s' g' = flags s g') ∧
    (flags s' g = flags s g ∧ loading actions = [g] ∧ awaited a actions = actions ∨
     flags s' g = (λ '(_, b), (true, b)) <$> flags s g ∧ loading actions = [])) as Hfail.
  { intros s1 ctx1 r1 H1 (Hn & Hf & Hg)%fail_load_effect. split; [intros; by rewrite Hf|].
    right. by rewrite Hg, H1. }
  destruct (negb (Successful result) && _); [by eapply Hfail, Hs|].
  destruct (answered_tokens _ _ _) as [[r1 tokens]|]; [|done]. cbn [mbind option_bind] in Hs.
  destruct (negb (Successful r1)); [by eapply Hfail, Hs|].
  destruct (fill_group _ _ _ _) as [[r2 s2]|] eqn:H2; [|done]. cbn [mbind option_bind] in Hs.
  pose proof (flags_fill_group _ _ _ _ _ _ H2) as Hf2.
  change (∀ g', flags s2 g' = flags s g') in Hf2.
  destruct (negb (Successful r2)); [by eapply Hfail, Hs|].
  destruct (group_heap s2 !! g) as [grp2|]; [|done]. cbn [mbind option_bind] in Hs.
  destruct (PopulateLoadBudgetKeyTimeframeResponse _ _) as [r3 ctx3].
  destruct (negb (result_eqb _ _)); [by eapply Hfail, Hs|].
  destruct (write_group _ _) as [[r4 b]|]; [|done]. cbn [mbind option_bind] in Hs.
  destruct (negb (Successful r4)); [by eapply Hfail, Hs|].
  injection Hs as <- <-. split; [by intros; apply Hf2|]. left. by split_and!.
Qed.

Lemma OnLogLoad_effect s ctx g result s' actions :
  OnLogLoadCallback s ctx g result = Some (s', actions) →
  (∀ g', g' ≠ g → flags s' g' = flags s g') ∧
  (flags s' g = (λ '(_, b), (true, b)) <$> flags s g ∨ flags s' g = (λ _, (false, true)) <$> flags s g).
Proof.
  unfold OnLogLoadCallback. intros Hs. destruct (negb (Successful result)).
  - apply fail_load_effect in Hs as (_ & Hf & Hg). split; [done|by left].
  - injection Hs as <- <-. split.
    + intros g' Hne. rewrite !flags_on_group. unfold flags. simpl. rewrite lookup_alter_ne by done.
      destruct (group_heap s !! g'); [|done]. simpl. by rewrite decide_False.
    + right. rewrite flags_on_group. unfold flags. simpl. rewrite lookup_alter_eq.
      destruct (group_heap s !! g); [|done]. simpl. by rewrite decide_True.
Qed.

Lemma Update_effect a s ctx r s' actions :
  Update id_ a s ctx = Some (r, s', actions) → (∀ g, flags s' g = flags s g) ∧ loading actions = [].
Proof.
  unfold Update. intros Hs. destruct (timeframes_to_update ctx) as [|u us]; [by simplify_eq|].
  destruct (check_times _) as [r0|]; [by simplify_eq|].
  destruct (AutoExpiryMap.Find _ _ _ _) as [[r1 out] c].
  destruct (negb (Successful r1)); [by simplify_eq|].
  destruct (out ≫= _) as [grp|]; [|done]. cbn [mbind option_bind] in Hs.
  destruct (frames_to_journal _ _) as [r2 [os js]]. destruct (negb (Successful r2)); [by simplify_eq|].
  destruct (DisableEviction _ _ _ _) as [r3 c3]. destruct (negb (Successful r3)); [by simplify_eq|].
  destruct (if (_ <? _)%nat then _ else _) as [[r4 b]|]; [|done]. cbn [mbind option_bind] in Hs.
  by destruct (negb (Successful r4)); simplify_eq.
Qed.

Lemma apply_updates_groups us ls s s' :
  apply_updates s ls us = Some s' → group_heap s' = group_heap s.
Proof.
  revert us s. induction ls as [|l ls IH]; intros [|u us] s Hs; simpl in Hs; simplify_eq; try done.
  by rewrite (IH _ _ Hs).
Qed.

Lemma OnLogUpdate_effect a s ctx frames result s' actions :
  OnLogUpdateCallback a s ctx frames result = Some (s', actions) → ∀ g, flags s' g = flags s g.
Proof.
  unfold OnLogUpdateCallback. intros Hs g. destruct (timeframes_to_update ctx !! 0%nat); [|done].
  cbn [mbind option_bind] in Hs. destruct (EnableEviction _ _ _ _) as [r0 c].
  destruct (negb (Successful result)); [by simplify_eq|].
  destruct (apply_updates _ _ _) as [s1|] eqn:H1; [|done]. cbn [mbind option_bind] in Hs. simplify_eq.
  unfold flags. by rewrite (apply_updates_groups _ _ _ _ H1).
Qed.

Lemma offered_effect a s calls actions :
  offered budget_key_name_ a s calls = Some actions → loading actions = [].
Proof.
  revert actions. induction calls as [|[t|tg g element] calls IH]; intros actions Ho; simpl in Ho;
    [by simplify_eq|by apply IH|].
  destruct (OnBeforeGarbageCollection _ _ _ _ _ _) as [acts|] eqn:Hb; [|done]. simpl in Ho.
  destruct (offered _ _ _ calls) as [more|]; [|done]. simpl in Ho. simplify_eq.
  rewrite loading_app, (IH more) by done. rewrite app_nil_r. clear IH.
  unfold OnBeforeGarbageCollection in Hb. destruct (group_heap s !! g) as [grp|]; [|done].
  cbn [mbind option_bind] in Hb. destruct (ConcurrentMap.Keys _) as [r1 keys].
  destruct (negb (Successful r1)); [by simplify_eq|].
  destruct (no_active_transaction _ _ _) as [b|]; [|done]. cbn [mbind option_bind] in Hb.
  destruct (negb b); [by simplify_eq|]. 
  destruct (collect_tokens _ _ _) as [[tokens|]|]; [| |done]; cbn [mbind option_bind] in Hb; [|by simplify_eq].
  destruct (SerializeHourTokensInTimeGroup _ _) as [r2 text]. destruct (negb (Successful r2)); [by simplify_eq|].
  destruct (key_table a) as [r3 table]. destruct (negb (Successful r3)); [by simplify_eq|].
  by destruct (negb (Successful (accepted a))); simplify_eq.
Qed.

Lemma OnStore_effect a s result tg g element actions :
  OnStoreTimeframeGroupToDBCallback id_ a s result tg g element = Some actions → loading actions = [].
Proof.
  unfold OnStoreTimeframeGroupToDBCallback. intros Hs.
  destruct (negb (result_eqb _ _)); [by simplify_eq|].
  destruct (group_heap s !! g) as [grp|]; [|done]. cbn [mbind option_bind] in Hs.
  destruct (write_removal grp) as [[r b]|]; [|done]. cbn [mbind option_bind] in Hs.
  destruct (negb (result_eqb _ _)); [by simplify_eq|].
  by destruct (negb (Successful (accepted a))); simplify_eq.
Qed.

Lemma erase_day_effect s tg failure s' : erase_day s tg = (failure, s') → ∀ g, flags s' g = flags s g.
Proof.
  unfold erase_day. destruct (AutoExpiryMap.Erase _ _) as [r c]. intros Hs g.
  by destruct (_ && _); simplify_eq.
Qed.

(** Recovery makes new groups only. *)
Lemma Recover_effect a s b r s' :
  OnJournalServiceRecoverCallback a s b = Some (r, s') →
  ∀ g, flags s' g = flags s g ∨ flags s g = None ∧ ∃ loaded, flags s' g = Some (false, loaded).
Proof.
  unfold OnJournalServiceRecoverCallback. intros Hs g.
  destruct (read_log b) as [[r0 l]|]; [|done]. cbn [mbind option_bind] in Hs.
  destruct (negb (Successful r0)); [simplify_eq; by left|].
  destruct l as [l|]; [|done]. cbn [mbind option_bind] in Hs. destruct (decoded_operation l).
  - simplify_eq. by left.
  - unfold recover_insert in Hs. destruct (erase_day s (decoded_group l)) as [[f|] s1] eqn:He;
      pose proof (erase_day_effect _ _ _ _ He) as Hf1; [simplify_eq; left; by apply Hf1|].
    destruct (read_group _) as [r2 decoded]. destruct (negb (Successful r2)); [simplify_eq; left; by apply Hf1|].
    destruct decoded as [[log_tg frames]|]; [|done]. cbn [mbind option_bind] in Hs.
    destruct (make_frames _ s1) as [m s2] eqn:Hm. pose proof (flags_make_frames _ _ _ _ Hm) as Hf2.
    destruct (make_group _ s2) as [l3 s3] eqn:Hg. pose proof (λ g, flags_make_group _ _ _ _ g Hg) as Hf3.
    destruct (AutoExpiryMap.Insert _ _ _ _ _) as [[r4 out] c] eqn:HI.
    assert (flags s l3 = None) as Hnone by (rewrite <- Hf1, <- Hf2; apply (Hf3 l3)).
    destruct (Hf3 g) as [_ Hg3]. rewrite Hf2, Hf1 in Hg3.
    destruct (negb (Successful r4)) eqn:Hr4; simplify_eq.
    + change (flags (with_cache c s3) g) with (flags s3 g). rewrite Hg3.
      case_decide; [subst; right; split; [done|by exists false]|by left].
    + apply negb_false_iff in Hr4. rewrite (Insert_success _ _ _ _ _ _ _ _ HI Hr4). cbn [default from_option].
      rewrite !flags_on_group. simpl.
      destruct (decide (l3 = g)) as [->|Hne].
      * right. split; [done|]. exists true. rewrite lookup_alter_eq. rewrite decide_True in Hg3 by done.
        unfold flags in Hg3. destruct (group_heap s3 !! g); [done|done].
      * left. rewrite lookup_alter_ne by done. rewrite decide_False in Hg3 by done. rewrite <- Hg3.
        by unfold flags.
  - destruct (erase_day s _) as [f s1] eqn:He. simplify_eq. left. by apply (erase_day_effect _ _ _ _ He).
  - destruct (AutoExpiryMap.Find _ _ _ _) as [[r1 out] c]. destruct (negb (Successful r1)); [simplify_eq; by left|].
    destruct (read_frame _) as [r2 f]. destruct (negb (Successful r2)); [simplify_eq; by left|].
    destruct out as [g0|]; [|done]. destruct f as [f|]; [|done]. cbn [mbind option_bind] in Hs.
    left. by rewrite (flags_replace_frame _ _ _ _ _ Hs).
  - destruct (AutoExpiryMap.Find _ _ _ _) as [[r1 out] c]. destruct (negb (Successful r1)); [simplify_eq; by left|].
    destruct (read_batch _) as [r2 fs]. destruct (negb (Successful r2)); [simplify_eq; by left|].
    destruct (Nat.eqb _ _); [simplify_eq; by left|]. destruct out as [g0|]; [|done]. cbn [mbind option_bind] in Hs.
    left. by rewrite (flags_replace_frames _ _ _ _ _ Hs).
Qed.

End effects.

(** ** The life of a group *)

(** A group that does not exist yet; one that is neither loaded nor asked for;
    one that a call loads; one whose load failed; one that is loaded. *)
Inductive Phase := Absent | Abandoned | Loading | WaitingForLoader | Loaded.

Inductive life_step : Phase → Phase → Prop :=
| life_start : life_step Absent Loading
| life_retry : life_step WaitingForLoader Loading
| life_fail : life_step Loading WaitingForLoader
| life_finish : life_step Loading Loaded
| life_recover : life_step Absent Loaded
| life_not_started : life_step Absent Abandoned
| life_not_retried : life_step WaitingForLoader Abandoned.

Definition phase_flags (p : Phase) : option (bool * bool) :=
  match p with
  | Absent => None
  | Abandoned | Loading => Some (false, false)
  | WaitingForLoader => Some (true, false)
  | Loaded => Some (false, true)
  end.

Definition phase_loads (p : Phase) : nat := if p is Loading then 1 else 0.

(** A step of the lifecycle, or none. *)
Definition moves (p p' : Phase) : Prop := p = p' ∨ life_step p p'.

(** The loads of a group in flight. *)
Definition loads (fl : list Action) (g : group_loc) : nat := length (filter (λ g', g' = g) (loading fl)).

Definition in_phase (σ : System) (g : group_loc) (p : Phase) : Prop :=
  flags (manager_state σ) g = phase_flags p ∧ loads (in_flight σ) g = phase_loads p.

Lemma loads_app fl1 fl2 g : loads (fl1 ++ fl2) g = (loads fl1 g + loads fl2 g)%nat.
Proof. unfold loads. by rewrite loading_app, filter_app, length_app. Qed.

Lemma loads_cons action fl g :
  loads (action :: fl) g
  = ((if decide (loading_group action = Some g) then 1 else 0) + loads fl g)%nat.
Proof.
  unfold loads, loading. simpl. destruct (loading_group action) as [g'|]; [|by rewrite decide_False].
  rewrite filter_cons. destruct (decide (g' = g)) as [->|Hne].
  - by rewrite decide_True.
  - rewrite decide_False; [done|congruence].
Qed.

Lemma loads_nil fl g : loading fl = [] → loads fl g = 0%nat.
Proof. unfold loads. by intros ->. Qed.

Lemma loads_one fl g g' : loading fl = [g] → loads fl g' = if decide (g = g') then 1%nat else 0%nat.
Proof. unfold loads. intros ->. rewrite filter_cons. by case_decide. Qed.

(** A group that keeps its flags and its loads keeps its phase. *)
Lemma phase_kept σ σ' g p : in_phase σ g p →
  flags (manager_state σ') g = flags (manager_state σ) g → loads (in_flight σ') g = loads (in_flight σ) g →
  ∃ p', in_phase σ' g p' ∧ moves p p'.
Proof. intros [Hf Hl] Hf' Hl'. exists p. split; [split; congruence|by left]. Qed.

(** A group that was not there, or whose load had failed, is taken. *)
Lemma phase_taken σ σ' g p n : in_phase σ g p → taken (manager_state σ) (manager_state σ') g →
  loads (in_flight σ') g = (loads (in_flight σ) g + n)%nat → (n ≤ 1)%nat →
  ∃ p', in_phase σ' g p' ∧ moves p p'.
Proof.
  intros [Hf Hl] [Ht Hf'] Hl' Hn. rewrite Hf in Ht, Hf'.
  assert (p = Absent ∨ p = WaitingForLoader) as Hp.
  { destruct Ht as [Ht|[b Ht]]; destruct p; simpl in Ht; simplify_eq; auto. }
  assert (phase_loads p = 0%nat ∧ flags (manager_state σ') g = Some (false, false)) as [H0 Hff].
  { by destruct Hp as [-> | ->]. }
  rewrite H0 in Hl. rewrite Hl in Hl'. destruct n as [|[|]]; [| |lia].
  - exists Abandoned. split; [by split|]. destruct Hp as [-> | ->]; right; constructor.
  - exists Loading. split; [by split|]. destruct Hp as [-> | ->]; right; constructor.
Qed.

(** A load of the group ends. *)
Lemma phase_ended σ σ' g p : in_phase σ g p → loads (in_flight σ) g = S (loads (in_flight σ') g) →
  flags (manager_state σ') g = (λ '(_, b), (true, b)) <$> flags (manager_state σ) g ∨
  flags (manager_state σ') g = (λ _, (false, true)) <$> flags (manager_state σ) g →
  ∃ p', in_phase σ' g p' ∧ moves p p'.
Proof.
  intros [Hf Hl] Hl' Hf'. rewrite Hl' in Hl. destruct p; try done. simpl in Hl. injection Hl as Hl.
  rewrite Hf in Hf'. simpl in Hf'. destruct Hf' as [Hf'|Hf'].
  - exists WaitingForLoader. split; [by split|]. right. constructor.
  - exists Loaded. split; [by split|]. right. constructor.
Qed.

Section lifecycle.
  Context `{TimeframeLogs}.
  Variable budget_key_name_ : string.
  Variable id_ : Uuid.
  Variable split_text : string → list string.
  #[local] Set Default Proof Using "Type*".

  Local Abbreviation step := (step budget_key_name_ id_ split_text).

Lemma loads_middle fl1 fl2 action g :
  loads (fl1 ++ action :: fl2) g
  = ((if decide (loading_group action = Some g) then 1 else 0) + loads (fl1 ++ fl2) g)%nat.
Proof. rewrite !loads_app, loads_cons. lia. Qed.

Lemma step_phase σ σ' g p : step σ σ' → in_phase σ g p → ∃ p', in_phase σ' g p' ∧ moves p p'.
Proof.
  intros Hs Hp. destruct Hs as
    [a s ctx r s' actions fl Hs|a s key ctx g0 result attributes s' actions fl1 fl2 Hs
    |s request ctx g0 result s' actions fl1 fl2 Hs|a s ctx r s' actions fl Hs
    |a s request ctx frames result s' actions fl1 fl2 Hs|a s locked scheduled c calls actions fl _ Hs
    |a s key attributes tg g0 element result actions fl1 fl2 Hs|a s request element result fl1 fl2
    |a s element can_delete scheduled c calls fl1 fl2 _|a s b r s' fl Hs].
  - apply Load_effect in Hs as [Hf Hl].
    assert (loads (fl ++ awaited a actions) g = loads fl g ∨
      loads (fl ++ awaited a actions) g = (loads fl g + 1)%nat ∧ taken s s' g) as Hloads.
    { rewrite loads_app. destruct Hl as [Hl|(g0 & Hl & Ht)].
      - left. rewrite (loads_nil (awaited a actions)) by by apply loading_awaited_nil. lia.
      - destruct (loading_awaited_one a _ _ Hl) as [Hw|Hw].
        + left. rewrite (loads_nil (awaited a actions)) by done. lia.
        + rewrite (loads_one _ _ _ Hw). case_decide; [subst; by right|left; lia]. }
    destruct Hloads as [Hn|[Hn Ht]]; [|by apply (phase_taken _ (mkSystem s' _) g p 1 Hp)].
    destruct (Hf g) as [Hg|Ht]; [by apply (phase_kept _ (mkSystem s' _) g p Hp)|].
    apply (phase_taken _ (mkSystem s' _) g p 0 Hp Ht); simpl; lia.
  - apply OnLoad_effect in Hs as [Hf Hg]. simpl in Hp.
    destruct (decide (g = g0)) as [->|Hne].
    + destruct Hg as [(Hg & Hl & Ha)|[Hg Hl]].
      * apply (phase_kept _ (mkSystem s' _) g0 p Hp); [done|]. simpl.
        rewrite loads_middle, (loads_app (fl1 ++ fl2)), Ha, (loads_one _ _ _ Hl). simpl.
        rewrite !decide_True by done. lia.
      * apply (phase_ended _ (mkSystem s' _) g0 p Hp); [|by left]. simpl.
        rewrite loads_middle, (loads_app (fl1 ++ fl2)), (loads_nil (awaited a actions)) by by apply loading_awaited_nil. simpl.
        rewrite decide_True by done. lia.
    + apply (phase_kept _ (mkSystem s' _) g p Hp); [by apply Hf|]. simpl.
      rewrite loads_middle, (loads_app (fl1 ++ fl2)). simpl. rewrite decide_False by congruence.
      destruct Hg as [(_ & Hl & Ha)|[_ Hl]].
      * rewrite Ha, (loads_one _ _ _ Hl), decide_False by done. lia.
      * rewrite (loads_nil (awaited a actions)) by by apply loading_awaited_nil. lia.
  - apply OnLogLoad_effect in Hs as [Hf Hg]. destruct (decide (g = g0)) as [->|Hne].
    + apply (phase_ended _ (mkSystem s' _) g0 p Hp); [|done]. simpl. rewrite loads_middle. simpl.
      by rewrite decide_True.
    + apply (phase_kept _ (mkSystem s' _) g p Hp); [by apply Hf|]. simpl. rewrite loads_middle. simpl.
      rewrite decide_False by congruence. done.
  - apply Update_effect in Hs as [Hf Hl]. apply (phase_kept _ (mkSystem s' _) g p Hp); [by apply Hf|]. simpl.
    rewrite loads_app, (loads_nil (awaited a actions)) by by apply loading_awaited_nil. lia.
  - pose proof (OnLogUpdate_effect _ _ _ _ _ _ _ Hs) as Hf.
    apply (phase_kept _ (mkSystem s' _) g p Hp); [by apply Hf|]. simpl. rewrite loads_middle. simpl. done.
  - apply offered_effect in Hs. apply (phase_kept _ (mkSystem (with_cache c s) _) g p Hp); [done|]. simpl.
    rewrite loads_app, (loads_nil (awaited a actions)) by by apply loading_awaited_nil. lia.
  - apply OnStore_effect in Hs. apply (phase_kept _ (mkSystem s _) g p Hp); [done|]. simpl.
    rewrite loads_middle, (loads_app (fl1 ++ fl2)). simpl.
    rewrite (loads_nil (awaited a actions)) by by apply loading_awaited_nil. lia.
  - apply (phase_kept _ (mkSystem s _) g p Hp); [done|]. simpl.
    rewrite loads_middle, (loads_app (fl1 ++ fl2)). simpl. unfold loads at 2. simpl. lia.
  - apply (phase_kept _ (mkSystem (with_cache c s) _) g p Hp); [done|]. simpl. by rewrite loads_middle.
  - destruct (Recover_effect _ _ _ _ _ Hs g) as [Hg|(Hn & loaded & Hg)].
    + by apply (phase_kept _ (mkSystem s' _) g p Hp).
    + destruct Hp as [Hpf Hpl]. simpl in *. rewrite Hn in Hpf. destruct p; try done.
      destruct loaded; [exists Loaded|exists Abandoned]; (split; [by split|right; constructor]).
Qed.

(** C12: in every state that client calls, database and journal answers, rounds
    of the collector and recoveries can lead to, each group of the manager is in
    one phase of its life, and each step moves it along a transition of the
    lifecycle or leaves it: a group is absent, loaded by exactly one call, waiting
    for a call to load it, loaded, or abandoned. No group is ever loaded by two
    calls at once, and none that is loaded is loaded again. *)
Theorem lifecycle_refines σ :
  rtc step (mkSystem initial_manager []) σ →
  (∀ g, ∃ p, in_phase σ g p) ∧
  (∀ σ' g p, step σ σ' → in_phase σ g p → ∃ p', in_phase σ' g p' ∧ moves p p') ∧
  (∀ g, (loads (in_flight σ) g ≤ 1)%nat).
Proof.
  intros Hr. assert (∀ g, ∃ p, in_phase σ g p) as Hphase.
  { intros g. assert (∃ p, in_phase (mkSystem initial_manager []) g p) as Hp by (by exists Absent).
    induction Hr as [|σ1 σ2 σ3 Hs _ IH]; [done|]. apply IH. destruct Hp as [p Hp].
    destruct (step_phase _ _ _ _ Hs Hp) as (p' & Hp' & _). by exists p'. }
  split_and!; [done|intros σ' g p; apply step_phase|].
  intros g. destruct (Hphase g) as (p & _ & ->). destruct p; simpl; lia.
Qed.

(** ** A load that could not be started *)

Lemma lifecycle_phases σ σ' : (∀ g, ∃ p, in_phase σ g p) → rtc step σ σ' →
  (∀ g, ∃ p, in_phase σ' g p) ∧ (∀ g, in_phase σ g Abandoned → in_phase σ' g Abandoned).
Proof.
  intros Hp Hr. induction Hr as [|σ1 σ2 σ3 Hs _ IH]; [done|].
  destruct IH as [Hp3 Ha3].
  - intros g. destruct (Hp g) as [p Hg]. destruct (step_phase _ _ _ _ Hs Hg) as (p' & Hp' & _). by exists p'.
  - split; [done|]. intros g Ha. apply Ha3. destruct (step_phase _ _ _ _ Hs Ha) as (p' & Hp' & [<-|Hm]); [done|].
    inversion Hm.
Qed.

Lemma Load_abandoned a s ctx t ts tg g :
  reporting_times ctx = t :: ts → one_day (t :: ts) → GetTimeGroup t = tg → well_formed_map (budget_key_timeframe_groups_ s) →
  cached s tg g → flags s g = Some (false, false) →
  ∃ s', Load budget_key_name_ a s ctx
        = Some (RetryExecutionResult SC_BUDGET_KEY_TIMEFRAME_MANAGER_ENTRY_IS_LOADING, s', []).
Proof.
  intros Htimes Hday <- W (r & Hr & He & Hb) Hf. unfold Load. rewrite Htimes.
  rewrite (proj2 (check_times_one_day (t :: ts) ltac:(done)) Hday). unfold make_group.
  set (l := fresh (dom (group_heap s))). set (s1 := with_groups _ s).
  change (budget_key_timeframe_groups_ s1) with (budget_key_timeframe_groups_ s).
  destruct (Insert_cases (now a) _ (GetTimeGroup t) l W) as (c' & _ & Hc). rewrite Hr, Hb in Hc.
  destruct Hc as [-> _]. change (negb (Successful (FailureExecutionResult _))) with true. cbn iota.
  change (_ && _) with false. cbn iota. change (_ =? _) with false. cbn iota. cbn [default from_option].
  unfold load_existing, id. rewrite He. unfold flags in Hf.
  destruct (group_heap s !! g) as [grp|] eqn:Hg; [|done]. simpl in Hf. injection Hf as Hn Hl.
  assert (group_heap (with_cache c' s1) !! g = Some grp) as ->.
  { simpl. rewrite lookup_insert_ne; [done|]. intros <-. unfold l in Hg. by rewrite fresh_group in Hg. }
  cbn [mbind option_bind]. rewrite Hn, Hl. by exists (with_cache c' s1).
Qed.

(** C38: when the first load of a day cannot be started, because the
    configuration has no table or the database does not take the request, the
    call fails, and the day is in the cache, pinned, with a group that no call
    loads and that asks for no loader. From then on, whatever happens, as long
    as the day has this group every load of the day is told to retry because the
    day is being loaded; nothing loads it. *)
Theorem failed_start_blocks_day a s fl ctx t ts table :
  reporting_times ctx = t :: ts → one_day (t :: ts) → valid_cache s →
  (∀ g, ∃ p, in_phase (mkSystem s fl) g p) →
  entries (budget_key_timeframe_groups_ s) !! GetTimeGroup t = None →
  key_table a = (SuccessExecutionResult, table) → Successful (accepted a) = false →
  ∃ s' actions g,
    Load budget_key_name_ a s ctx = Some (accepted a, s', actions) ∧
    valid_cache s' ∧ pinned_day s' (GetTimeGroup t) g ∧
    ∀ σ, rtc step (mkSystem s' (fl ++ awaited a actions)) σ →
      loads (in_flight σ) g = 0%nat ∧
      (well_formed_map (budget_key_timeframe_groups_ (manager_state σ)) → cached (manager_state σ) (GetTimeGroup t) g →
       ∀ a2 ctx2 t2 ts2, reporting_times ctx2 = t2 :: ts2 → one_day (t2 :: ts2) →
         GetTimeGroup t2 = GetTimeGroup t →
         ∃ s2, Load budget_key_name_ a2 (manager_state σ) ctx2
               = Some (RetryExecutionResult SC_BUDGET_KEY_TIMEFRAME_MANAGER_ENTRY_IS_LOADING, s2, [])).
Proof.
  intros Htimes Hday V Hphase Hnone Htable Hacc.
  destruct (Load_new_day budget_key_name_ a s ctx t ts table Htimes Hday V Htable Hnone)
    as (s' & V' & _ & g & Hg & Hgs & Hpin & Hload).
  eexists s', _, g. split_and!; [exact Hload|done|done|]. intros σ Hr.
  set (σ1 := mkSystem _ _) in Hr.
  assert (in_phase σ1 g Abandoned) as Ha.
  { destruct (Hphase g) as (p & Hf & Hl). split; simpl.
    - unfold flags. by rewrite Hgs, lookup_insert_eq.
    - rewrite loads_app. unfold awaited. rewrite filter_cons. simpl. rewrite Hacc. simpl.
      unfold flags in Hf. simpl in Hf. rewrite Hg in Hf. simpl in *. destruct p; try done. simpl in Hl. rewrite Hl.
      done. }
  assert (∀ g, ∃ p, in_phase σ1 g p) as Hphase1.
  { intros g'. destruct (Hphase g') as [p Hp].
    destruct (step_phase (mkSystem s fl) σ1 g' p) as (p' & Hp' & _); [|done|by exists p'].
    by eapply step_load. }
  destruct (lifecycle_phases σ1 σ Hphase1 Hr) as [_ Hab]. destruct (Hab g Ha) as [Hf Hl].
  split; [done|]. intros W Hc a2 ctx2 t2 ts2 Ht2 Hd2 Hsame.
  by apply (Load_abandoned a2 _ ctx2 t2 ts2 (GetTimeGroup t) g).
Qed.

End lifecycle.
