(* ===== verification/TimeframeExamples.v ===== *)
(** * Examples of the timeframe manager

    A manager with one loaded day, and the theorems about the manager applied
    to it. *)

From S2P Require Import Prelude Text ExecutionResult ErrorCodes NoSQLDatabase Uuid ConcurrentMap Serialization AutoExpiryMap AutoExpiryView TimeframeUtils TimeframeLog TimeframeManager TimeframeCache TimeframeLoading TimeframeRecovery TimeframeSystem.
From stdpp Require Import options.
Import ExampleProto.

Local Open Scope Z_scope.

(** ** A manager with one day *)

Definition example_time : Z := 1700000000000000000.
Definition example_day : Z := 19675.

Definition example_frames : gmap frame_loc BudgetKeyTimeframe :=
  list_to_map ((λ i, (Pos.of_nat (S i), mkFrame (Z.of_nat i) 1 kZeroUuid 0)) <$> seq 0 24).
Definition example_timeframes : gmap Z frame_loc :=
  list_to_map ((λ i, (Z.of_nat i, Pos.of_nat (S i))) <$> seq 0 24).
Definition example_group : BudgetKeyTimeframeGroup := mkGroup example_day example_timeframes true false.
Definition example_entry : AutoExpiryConcurrentMapEntry := mkEntry 1%positive false true 0.
Definition example_cache : AutoExpiryConcurrentMap (K := Z) (V := group_loc) :=
  mkMap {[ example_day := 1%positive ]} {[ 1%positive := example_entry ]} 0 true.
Definition example_manager : BudgetKeyTimeframeManager :=
  mkManager example_cache {[ 1%positive := example_group ]} example_frames.

Definition example_answers : Answers :=
  mkAnswers 5 (SuccessExecutionResult, "budget") (λ _, mkUuid 3 4) SuccessExecutionResult.
(** The database's executor is full. *)
Definition example_refusing : Answers :=
  mkAnswers 5 (SuccessExecutionResult, "budget") (λ _, mkUuid 3 4) (RetryExecutionResult 7).

Definition example_load : LoadContext := mkLoad (mkUuid 1 1) [example_time] None.
Definition example_update : UpdateContext :=
  mkUpdate (mkUuid 1 1) [mkUpdateInfo example_time (mkUuid 8 9) 0 1].

(** The timeframes by the number of the hour. *)
Lemma example_timeframes_lookup b l : example_timeframes !! b = Some l →
  ∃ i, (i < 24)%nat ∧ b = Z.of_nat i ∧ l = Pos.of_nat (S i).
Proof.
  intros (i & [= -> ->] & Hi%elem_of_seq)%elem_of_list_to_map_2%list_elem_of_fmap. exists i. split; [lia|done].
Qed.

Lemma example_frames_lookup i : (i < 24)%nat →
  example_frames !! Pos.of_nat (S i) = Some (mkFrame (Z.of_nat i) 1 kZeroUuid 0).
Proof. intros Hi. do 24 (destruct i as [|i]; [by vm_compute|]). lia. Qed.

Lemma example_timeframes_valid : valid_timeframes example_frames example_timeframes.
Proof.
  intros b l (i & Hi & -> & ->)%example_timeframes_lookup. rewrite example_frames_lookup by done.
  eexists. split; [done|]. split; [done|]. unfold valid_frame, is_u64, is_u8; simpl.
  split_and!; try lia. by vm_compute.
Qed.

Lemma example_hours_only : hours_only example_group.
Proof. intros b [l (i & Hi & -> & _)%example_timeframes_lookup]%elem_of_dom. lia. Qed.

Lemma example_values b f : values example_manager 1%positive !! b = Some f →
  ∃ i, (i < 24)%nat ∧ f = mkFrame (Z.of_nat i) 1 kZeroUuid 0.
Proof.
  change (values example_manager 1%positive) with (group_frames example_frames example_group).
  rewrite group_frames_lookup. change (budget_key_timeframes example_group) with example_timeframes.
  destruct (example_timeframes !! b) as [l|] eqn:Hl; [|done].
  apply example_timeframes_lookup in Hl as (i & Hi & -> & ->). simpl. rewrite example_frames_lookup by done.
  intros [= <-]. by exists i.
Qed.

Lemma example_pointers key l : concurrent_map_ example_cache !! key = Some l → key = example_day ∧ l = 1%positive.
Proof.
  change (concurrent_map_ example_cache) with ({[ example_day := 1%positive ]} : gmap Z loc).
  by intros [<- <-]%lookup_singleton_Some.
Qed.

Lemma example_cache_well_formed : well_formed_map example_cache.
Proof.
  constructor.
  - intros key l [_ ->]%example_pointers. by exists example_entry.
  - by intros k1 k2 l [-> _]%example_pointers [-> _]%example_pointers.
Qed.

Lemma example_entries tg r : entries example_cache !! tg = Some r → tg = example_day ∧ r = example_entry.
Proof. intros (l & [-> ->]%example_pointers & Hr)%entries_Some. by injection Hr as <-. Qed.

Lemma example_valid_cache : valid_cache example_manager.
Proof.
  constructor; [apply example_cache_well_formed|]. intros tg r [_ ->]%example_entries. by exists example_group.
Qed.

Lemma example_one_day : one_day [example_time].
Proof. by apply check_times_one_day. Qed.

Lemma example_in_range : Forall in_range_time [example_time].
Proof. repeat constructor; vm_compute; congruence. Qed.

Lemma example_cached : cached example_manager example_day 1%positive.
Proof. by exists example_entry. Qed.

Lemma example_valid_manager : valid_manager example_manager.
Proof.
  constructor; [apply example_cache_well_formed|]. intros tg r [-> ->]%example_entries.
  exists example_group. split_and!; [done|done| |by vm_compute].
  split; [by vm_compute|]. split; [|apply example_timeframes_valid].
  intros He. apply (f_equal (λ m : gmap Z frame_loc, m !! 0)) in He. by vm_compute in He.
Qed.

Lemma example_none_evicted : none_evicted example_manager.
Proof. intros tg r [_ ->]%example_entries. done. Qed.

Lemma initial_valid_cache : valid_cache initial_manager.
Proof. constructor; [apply empty_map_well_formed|]. intros tg r (l & Hl & _)%entries_Some. done. Qed.

(** ** The theorems at these inputs *)

Lemma Load_by_state_witness :
  ∃ s' frames, Load "key" example_answers example_manager example_load
    = Some (SuccessExecutionResult, s',
            [FinishLoad (mkLoad (mkUuid 1 1) [example_time] (Some frames)) SuccessExecutionResult]).
Proof.
  destruct (Load_by_state "key" example_answers example_manager example_load example_time [] "budget"
    eq_refl example_one_day example_valid_cache eq_refl) as (s' & _ & _ & _ & grp & [= <-] & _ & Hl).
  eexists s', _. exact Hl.
Defined.

Lemma bad_requests_refused_witness :
  ∃ code, refusal [example_time; example_time] code ∧
    Load "key" example_answers example_manager (mkLoad kZeroUuid [example_time; example_time] None)
    = Some (FailureExecutionResult code, example_manager, []).
Proof.
  destruct (bad_requests_refused "key" kZeroUuid example_answers example_manager [example_time; example_time])
    as (code & Hr & Hl & _).
  - intros [_ [_ Hn%NoDup_cons]]. apply (proj1 Hn). left.
  - exists code. split; [exact Hr|apply Hl].
Defined.

Lemma collector_stores_released_days_witness :
  ∃ actions, OnBeforeGarbageCollection "key" example_answers example_manager example_day 1%positive
               (example_day, 1%positive) = Some actions ∧
    UpsertDatabaseItem (item_key "key" "budget" example_day) [(kToken, tokens_text example_manager 1%positive)]
      example_day 1%positive (example_day, 1%positive) ∈ actions.
Proof.
  destruct (collector_stores_released_days "key" example_answers example_manager example_day 1%positive
    (example_day, 1%positive) example_group "budget" eq_refl example_timeframes_valid eq_refl)
    as (actions & Ha & Hu & _).
  exists actions. split; [exact Ha|]. apply Hu. split; [|by vm_compute].
  by intros b f (i & _ & ->)%example_values.
Defined.

Lemma first_load_full_budget_witness :
  ∃ day, loads_day (mkUuid 5 6) split_spaces example_answers example_manager example_load 1%positive example_group
           (FailureExecutionResult SC_NO_SQL_DATABASE_PROVIDER_RECORD_NOT_FOUND) [] day ∧
    ∀ i, day !! i = if bool_decide (0 ≤ i < 24) then Some (mkFrame i kMaxToken kZeroUuid 0) else None.
Proof.
  apply (first_load_full_budget (mkUuid 5 6) split_spaces); try done.
  - apply example_timeframes_valid.
  - apply example_hours_only.
  - apply example_in_range.
Defined.

Lemma unload_load_roundtrip_witness :
  loads_day (mkUuid 5 6) split_spaces example_answers example_manager example_load 1%positive example_group
    SuccessExecutionResult [(kToken, StringValue (tokens_text example_manager 1%positive))]
    (released <$> values example_manager 1%positive).
Proof.
  eapply (unload_load_roundtrip "key" (mkUuid 5 6) split_spaces example_answers example_manager example_day
    1%positive (example_day, 1%positive) example_group
    [UpsertDatabaseItem (item_key "key" "budget" example_day) [(kToken, tokens_text example_manager 1%positive)]
       example_day 1%positive (example_day, 1%positive)]
    (item_key "key" "budget" example_day) [(kToken, tokens_text example_manager 1%positive)]);
    [apply split_spaces_law|done|apply example_timeframes_valid|apply example_hours_only|done
    |by vm_compute|by left|done|done|apply example_timeframes_valid|apply example_hours_only|done
    |apply example_in_range].
Defined.

Lemma example_update_frames u : u ∈ timeframes_to_update example_update →
  is_Some (example_timeframes !! update_bucket u).
Proof. intros ->%list_elem_of_singleton. by eexists. Qed.

Lemma Update_journal_replay_witness :
  ∃ s1 b originals,
    Update (mkUuid 5 6) example_answers example_manager example_update
    = Some (SuccessExecutionResult, s1,
        [DispatchLog (log_request (mkUuid 5 6) example_answers b) (OnUpdateLogged example_update originals)]) ∧
    ∃ s4, OnJournalServiceRecoverCallback example_answers example_manager b = Some (SuccessExecutionResult, s4) ∧
      values s4 1%positive
      = by_bucket (updated_frame <$> timeframes_to_update example_update) ∪ values example_manager 1%positive.
Proof.
  destruct (Update_journal_replay (mkUuid 5 6) example_answers example_manager example_update
    (mkUpdateInfo example_time (mkUuid 8 9) 0 1) [] 1%positive example_group eq_refl example_one_day)
    as (s1 & b & originals & Hu & _ & _ & _ & _ & Hr).
  - constructor; [|constructor]. split_and!; vm_compute; repeat split; congruence.
  - apply example_cache_well_formed.
  - apply example_cached.
  - done.
  - apply example_timeframes_valid.
  - apply example_update_frames.
  - exists s1, b, originals. split; [exact Hu|].
    apply (Hr example_answers example_manager 1%positive example_group);
      [apply example_cache_well_formed|apply example_cached|done|apply example_timeframes_valid|done].
Defined.

Lemma Checkpoint_recover_witness :
  ∃ s' checkpoint_logs s1,
    Checkpoint (mkUuid 5 6) example_answers example_manager = Some (SuccessExecutionResult, s', checkpoint_logs) ∧
    recover_logs example_answers example_manager (log_data <$> checkpoint_logs)
    = Some (SuccessExecutionResult, s1) ∧
    snapshot s1 = snapshot example_manager ∪ snapshot example_manager.
Proof.
  destruct (Checkpoint_recover (mkUuid 5 6) example_answers example_manager example_valid_manager
    example_none_evicted) as (s' & logs & Hc & _ & Hr).
  destruct (Hr example_answers example_manager example_valid_manager) as (s1 & Hs1 & Hsnap & _).
  exists s', logs, s1. split; [exact Hc|]. split; [exact Hs1|exact Hsnap].
Defined.

(** The initial manager after a first load whose database request was taken. *)
Definition loading_system : option System :=
  '(_, s, actions) ← Load "key" example_answers initial_manager example_load;
  Some (mkSystem s ([] ++ awaited example_answers actions)).

Lemma lifecycle_refines_witness :
  ∃ σ, loading_system = Some σ ∧ (∀ g, (loads (in_flight σ) g ≤ 1)%nat) ∧ ∃ g p, in_phase σ g p.
Proof.
  eexists. split; [done|].
  match goal with |- (∀ g, (loads (in_flight ?σ) g ≤ 1)%nat) ∧ _ =>
    destruct (lifecycle_refines "key" (mkUuid 5 6) split_spaces σ) as (Hp & _ & Hl) end.
  - apply rtc_once. eapply (step_load _ _ _ example_answers initial_manager example_load). done.
  - split; [exact Hl|]. destruct (Hp 1%positive) as [p Hp1]. by exists 1%positive, p.
Defined.

Lemma failed_start_blocks_day_witness :
  ∃ s' actions g,
    Load "key" example_refusing initial_manager example_load = Some (RetryExecutionResult 7, s', actions) ∧
    pinned_day s' example_day g ∧
    ∃ s2, Load "key" example_answers s' example_load
          = Some (RetryExecutionResult SC_BUDGET_KEY_TIMEFRAME_MANAGER_ENTRY_IS_LOADING, s2, []).
Proof.
  destruct (failed_start_blocks_day "key" (mkUuid 5 6) split_spaces example_refusing initial_manager []
    example_load example_time [] "budget" eq_refl example_one_day initial_valid_cache)
    as (s' & actions & g & Hload & V' & Hpin & Hlater); [by exists Absent|done|done|done|].
  exists s', actions, g. split; [exact Hload|]. split; [exact Hpin|].
  destruct (Hlater _ (rtc_refl _ _)) as [_ Hblocked].
  apply (Hblocked (cache_well_formed _ V')) with (t2 := example_time) (ts2 := []);
    [|done|apply example_one_day|done].
  destruct Hpin as (r & Hr & Hg & _ & Hb). exists r. split; [exact Hr|]. by split.
Defined.
