(* ===== verification/TransactionPhases.v ===== *)
(** * Transaction phases

    Models [cc/core/transaction_manager/interface/transaction_phase_manager_interface.h]
    and [src/transaction_phase_manager.cc], the state machine a transaction
    goes through, and the functions of [src/transaction_engine.cc] that convert
    phases: to and from the phases a client asks for ([TransactionExecutionPhase]
    of [cc/core/interface/transaction_manager_interface.h]), to and from the
    phases the journal stores, and to strings; with the tests the engine makes
    on two phases. *)

From S2P Require Import Prelude ExecutionResult.
From stdpp Require Import options.

Local Open Scope Z_scope.

(** ** The phases *)

Module TransactionPhase.

Inductive t :=
| NotStarted
| Begin
| Prepare
| Commit
| CommitNotify
| Committed
| AbortNotify
| Aborted
| End
| Unknown.

#[export] Instance eq_dec : EqDecision t.
Proof. solve_decision. Defined.

(** The values of the enumeration, which order the phases. *)
Definition number (p : t) : Z :=
  match p with
  | NotStarted => 0
  | Begin => 1
  | Prepare => 2
  | Commit => 3
  | CommitNotify => 4
  | Committed => 5
  | AbortNotify => 6
  | Aborted => 7
  | End => 8
  | Unknown => 1000
  end.

Definition ltb (p q : t) : bool := number p <? number q.
Definition eqb (p q : t) : bool := number p =? number q.

Lemma number_inj p q : number p = number q → p = q.
Proof. by destruct p, q. Qed.

Lemma eqb_spec p q : eqb p q = true ↔ p = q.
Proof. unfold eqb. rewrite Z.eqb_eq. split; [apply number_inj|by intros ->]. Qed.

Lemma eqb_refl p : eqb p p = true.
Proof. by apply eqb_spec. Qed.

Lemma eqb_false p q : eqb p q = false ↔ p ≠ q.
Proof. rewrite <- eqb_spec. by destruct (eqb p q). Qed.

End TransactionPhase.
Export (hints) TransactionPhase.

Abbreviation TransactionPhase := TransactionPhase.t.

(** What a client may ask for. *)
Module TransactionExecutionPhase.

Inductive t :=
| Begin
| Prepare
| Commit
| Notify
| Abort
| End
| Unknown.

#[export] Instance eq_dec : EqDecision t.
Proof. solve_decision. Defined.

Definition eqb (p q : t) : bool := bool_decide (p = q).

End TransactionExecutionPhase.
Export (hints) TransactionExecutionPhase.

Abbreviation TransactionExecutionPhase := TransactionExecutionPhase.t.

(** The phases of the journal; [TRANSACTION_PHASE_TYPE_UNKNOWN] stands for
    every number the enumeration does not hold. *)
Module ProtoPhase.

Inductive t :=
| TRANSACTION_PHASE_TYPE_UNKNOWN
| NOT_STARTED
| BEGIN
| PREPARE
| COMMIT
| COMMIT_NOTIFY
| COMMITTED
| ABORT_NOTIFY
| ABORTED
| END.

#[export] Instance eq_dec : EqDecision t.
Proof. solve_decision. Defined.

End ProtoPhase.
Export (hints) ProtoPhase.

Abbreviation ProtoPhase := ProtoPhase.t.

(** ** The phase manager *)

Module TransactionPhaseManager.
Import TransactionPhase.

Definition ProceedToNextPhaseInternal (current_phase : TransactionPhase) (current_phase_succeeded : bool)
  : TransactionPhase :=
  match current_phase with
  | NotStarted => if current_phase_succeeded then Begin else End
  | Begin => if current_phase_succeeded then Prepare else Aborted
  | Prepare => if current_phase_succeeded then Commit else Aborted
  | Commit => if current_phase_succeeded then CommitNotify else AbortNotify
  | CommitNotify => if current_phase_succeeded then Committed else Unknown
  | Committed => if current_phase_succeeded then End else Unknown
  | AbortNotify => if current_phase_succeeded then Aborted else Unknown
  | Aborted => if current_phase_succeeded then End else Unknown
  | _ => Unknown
  end.

Definition ProceedToNextPhase (current_phase : TransactionPhase) (current_phase_result : ExecutionResult)
  : TransactionPhase :=
  if eqb current_phase Unknown then Aborted
  else if result_eqb current_phase_result (RetryExecutionResult (status_code current_phase_result)) then
    current_phase
  else
    let current_phase_succeeded :=
      if result_eqb current_phase_result (FailureExecutionResult (status_code current_phase_result))
      then false else true in
    ProceedToNextPhaseInternal current_phase current_phase_succeeded.

Definition CanProceedToAbortAtPhase (transaction_phase : TransactionPhase) : bool :=
  eqb transaction_phase Begin || eqb transaction_phase Prepare || eqb transaction_phase Commit ||
  eqb transaction_phase CommitNotify || eqb transaction_phase AbortNotify.

Definition CanProceedToEndAtPhase (transaction_phase : TransactionPhase) : bool :=
  eqb transaction_phase Begin || eqb transaction_phase Prepare || eqb transaction_phase Aborted ||
  eqb transaction_phase Committed || eqb transaction_phase End.

End TransactionPhaseManager.

(** ** Conversions *)

Definition ConvertProtoPhaseToPhase (phase : ProtoPhase) : TransactionPhase :=
  match phase with
  | ProtoPhase.NOT_STARTED => TransactionPhase.NotStarted
  | ProtoPhase.BEGIN => TransactionPhase.Begin
  | ProtoPhase.PREPARE => TransactionPhase.Prepare
  | ProtoPhase.COMMIT => TransactionPhase.Commit
  | ProtoPhase.COMMIT_NOTIFY => TransactionPhase.CommitNotify
  | ProtoPhase.COMMITTED => TransactionPhase.Committed
  | ProtoPhase.ABORT_NOTIFY => TransactionPhase.AbortNotify
  | ProtoPhase.ABORTED => TransactionPhase.Aborted
  | ProtoPhase.END => TransactionPhase.End
  | ProtoPhase.TRANSACTION_PHASE_TYPE_UNKNOWN => TransactionPhase.Unknown
  end.

Definition ConvertPhaseToProtoPhase (phase : TransactionPhase) : ProtoPhase :=
  match phase with
  | TransactionPhase.NotStarted => ProtoPhase.NOT_STARTED
  | TransactionPhase.Begin => ProtoPhase.BEGIN
  | TransactionPhase.Prepare => ProtoPhase.PREPARE
  | TransactionPhase.Commit => ProtoPhase.COMMIT
  | TransactionPhase.CommitNotify => ProtoPhase.COMMIT_NOTIFY
  | TransactionPhase.Committed => ProtoPhase.COMMITTED
  | TransactionPhase.AbortNotify => ProtoPhase.ABORT_NOTIFY
  | TransactionPhase.Aborted => ProtoPhase.ABORTED
  | TransactionPhase.End => ProtoPhase.END
  | TransactionPhase.Unknown => ProtoPhase.TRANSACTION_PHASE_TYPE_UNKNOWN
  end.

Definition TransactionPhaseToString (phase : TransactionPhase) : string :=
  match phase with
  | TransactionPhase.NotStarted => "NOT_STARTED"
  | TransactionPhase.Begin => "BEGIN"
  | TransactionPhase.Prepare => "PREPARE"
  | TransactionPhase.Commit => "COMMIT"
  | TransactionPhase.CommitNotify => "COMMIT_NOTIFY"
  | TransactionPhase.Committed => "COMMITTED"
  | TransactionPhase.AbortNotify => "ABORT_NOTIFY"
  | TransactionPhase.Aborted => "ABORTED"
  | TransactionPhase.End => "END"
  | TransactionPhase.Unknown => "UNKNOWN"
  end.

Definition TransactionExecutionPhaseToString (phase : TransactionExecutionPhase) : string :=
  match phase with
  | TransactionExecutionPhase.Begin => "BEGIN"
  | TransactionExecutionPhase.Prepare => "PREPARE"
  | TransactionExecutionPhase.Commit => "COMMIT"
  | TransactionExecutionPhase.Notify => "COMMIT_NOTIFY"
  | TransactionExecutionPhase.Abort => "ABORT_NOTIFY"
  | TransactionExecutionPhase.End => "END"
  | TransactionExecutionPhase.Unknown => "UNKNOWN"
  end.

Definition ToTransactionExecutionPhase (phase : TransactionPhase) : TransactionExecutionPhase :=
  match phase with
  | TransactionPhase.NotStarted => TransactionExecutionPhase.Begin
  | TransactionPhase.Begin => TransactionExecutionPhase.Begin
  | TransactionPhase.Prepare => TransactionExecutionPhase.Prepare
  | TransactionPhase.Commit => TransactionExecutionPhase.Commit
  | TransactionPhase.CommitNotify => TransactionExecutionPhase.Notify
  | TransactionPhase.Committed => TransactionExecutionPhase.End
  | TransactionPhase.AbortNotify => TransactionExecutionPhase.Abort
  | TransactionPhase.Aborted => TransactionExecutionPhase.End
  | TransactionPhase.End => TransactionExecutionPhase.End
  | TransactionPhase.Unknown => TransactionExecutionPhase.Unknown
  end.

Definition ToTransactionPhase (phase : TransactionExecutionPhase) : TransactionPhase :=
  match phase with
  | TransactionExecutionPhase.Begin => TransactionPhase.Begin
  | TransactionExecutionPhase.Prepare => TransactionPhase.Prepare
  | TransactionExecutionPhase.Commit => TransactionPhase.Commit
  | TransactionExecutionPhase.Notify => TransactionPhase.CommitNotify
  | TransactionExecutionPhase.Abort => TransactionPhase.AbortNotify
  | TransactionExecutionPhase.End => TransactionPhase.End
  | TransactionExecutionPhase.Unknown => TransactionPhase.Unknown
  end.

(** ** Two phases *)

Section two_phases.
Import TransactionPhase.

(** The phases in which two participants may find each other: one is ahead of
    the other, or they are in the same phase. *)
Definition LocalAndRemoteTransactionsInSync (transaction_phase remote_transaction_phase : TransactionPhase)
  : bool :=
  let remote := eqb remote_transaction_phase in
  (eqb transaction_phase Begin &&
     (remote NotStarted || remote Begin || remote Prepare || remote AbortNotify)) ||
  (eqb transaction_phase Prepare &&
     (remote Begin || remote Prepare || remote Commit || remote AbortNotify)) ||
  (eqb transaction_phase Commit &&
     (remote Prepare || remote Commit || remote CommitNotify || remote AbortNotify)) ||
  (eqb transaction_phase CommitNotify &&
     (remote Commit || remote CommitNotify || remote AbortNotify || remote Committed || remote End)) ||
  (eqb transaction_phase AbortNotify &&
     (remote Commit || remote CommitNotify || remote AbortNotify || remote Aborted || remote End)) ||
  (eqb transaction_phase Committed && (remote CommitNotify || remote Committed || remote End)) ||
  (eqb transaction_phase Aborted && (remote AbortNotify || remote Aborted || remote End)) ||
  (eqb transaction_phase End && (remote Committed || remote Aborted || remote End)).

Definition CanCancel (current_phase : TransactionPhase) : bool :=
  negb (eqb current_phase Committed || eqb current_phase AbortNotify || eqb current_phase Aborted ||
        eqb current_phase End || eqb current_phase Unknown).

End two_phases.

(** ** Lemmas *)

Lemma ConvertProtoPhase_roundtrip p : ConvertProtoPhaseToPhase (ConvertPhaseToProtoPhase p) = p.
Proof. by destruct p. Qed.

(** What the manager does with a result, by its status. *)
Lemma ProceedToNextPhase_status p r : p ≠ TransactionPhase.Unknown →
  TransactionPhaseManager.ProceedToNextPhase p r =
    match status r with
    | Retry => p
    | Success => TransactionPhaseManager.ProceedToNextPhaseInternal p true
    | Failure => TransactionPhaseManager.ProceedToNextPhaseInternal p false
    end.
Proof.
  intros Hp. unfold TransactionPhaseManager.ProceedToNextPhase.
  rewrite (proj2 (TransactionPhase.eqb_false _ _)) by done.
  destruct r as [[] c]; unfold result_eqb; simpl; by rewrite ?Z.eqb_refl.
Qed.

(** The manager never goes back, except from the unknown phase. *)
Lemma ProceedToNextPhase_forward p r : p ≠ TransactionPhase.Unknown →
  TransactionPhase.number p ≤ TransactionPhase.number (TransactionPhaseManager.ProceedToNextPhase p r).
Proof. intros Hp. rewrite ProceedToNextPhase_status by done. by destruct (status r), p. Qed.

Create HintDb phases.
Create Rewrite HintDb phases.
#[export] Hint Rewrite TransactionPhase.eqb_refl ConvertProtoPhase_roundtrip : phases.
