(* ===== verification/TransactionLog.v ===== *)
(** * Transactions and their journal logs

    Models the data of [cc/core/interface/transaction_manager_interface.h], the
    [Transaction] of [cc/core/transaction_manager/src/transaction_engine.h], and
    the logs of [transaction_engine.cc] ([SerializeTransaction],
    [SerializeState] and the reading part of [OnJournalServiceRecoverCallback]).
    A log is a message with a version and a body, whose body is a message with a
    type and a body, whose body is a transaction or its phase. A command is a
    parameter, with the serializer the engine is given
    ([TransactionCommandSerializerInterface]). *)

From S2P Require Import Prelude Text ExecutionResult ErrorCodes Uuid Serialization TransactionPhases.
From stdpp Require Import options.

Local Open Scope Z_scope.

(** ** Contexts *)

(** Who is told when a context finishes: nobody (a context that was never
    given a callback), a callback that does nothing, the caller of a public
    operation, or the callback [Run] wraps around another one, which also counts
    a recovered transaction down. *)
Inductive Callback :=
| NoCallback
| IgnoreCallback
| CallerCallback (caller : positive)
| RunCallback (original : Callback).

Record AsyncContext (Rq Rs : Type) := mkAsync {
  request : Rq;
  response : option Rs;
  result : ExecutionResult;
  callback : Callback;
}.
Arguments mkAsync {Rq Rs} _ _ _ _.
Arguments request {Rq Rs} _.
Arguments response {Rq Rs} _.
Arguments result {Rq Rs} _.
Arguments callback {Rq Rs} _.

(** A new context: no response, and the result it starts with. *)
Definition NewContext {Rq Rs} (rq : Rq) (cb : Callback) : AsyncContext Rq Rs :=
  mkAsync rq None (FailureExecutionResult SC_UNKNOWN) cb.

Section data.
  Context {Command : Type}.

Record TransactionRequest := mkTransactionRequest {
  request_transaction_id : Uuid;
  commands : list Command;
  timeout_time : Z;
  request_is_coordinated_remotely : bool;
  request_transaction_secret : option string;
  request_transaction_origin : option string;
  is_journal_recovery : bool;
}.

Record TransactionResponse := mkTransactionResponse {
  response_transaction_id : Uuid;
  response_last_execution_timestamp : Z;
  response_failed_commands_indices : list nat;
  response_failed_commands : list Command;
}.

Record TransactionPhaseRequest := mkPhaseRequest {
  phase_transaction_id : Uuid;
  transaction_execution_phase : TransactionExecutionPhase;
  phase_transaction_secret : option string;
  phase_transaction_origin : option string;
  phase_last_execution_timestamp : Z;
}.

Record TransactionPhaseResponse := mkPhaseResponse {
  phase_response_last_execution_timestamp : Z;
  phase_failed_commands_indices : list nat;
  phase_failed_commands : list Command;
}.

Record GetTransactionStatusRequest := mkStatusRequest {
  status_transaction_id : Uuid;
  status_transaction_secret : option string;
  status_transaction_origin : option string;
}.

Record GetTransactionStatusResponse := mkStatusResponse {
  status_transaction_execution_phase : TransactionExecutionPhase;
  status_last_execution_timestamp : Z;
  is_expired : bool;
  has_failure : bool;
}.

Abbreviation TransactionContext := (AsyncContext TransactionRequest TransactionResponse).
Abbreviation PhaseContext := (AsyncContext TransactionPhaseRequest TransactionPhaseResponse).
Abbreviation StatusContext := (AsyncContext GetTransactionStatusRequest GetTransactionStatusResponse).

(** ** Transactions *)

Record Transaction := mkTransaction {
  id : Uuid;
  context : TransactionContext;
  current_phase : TransactionPhase;
  current_phase_execution_result : ExecutionResult;
  transaction_execution_result : ExecutionResult;
  pending_callbacks : Z;
  transaction_failed : bool;
  current_phase_failed : bool;
  current_phase_failed_command_indices : list nat;
  last_execution_timestamp : Z;
  is_coordinated_remotely : bool;
  is_waiting_for_remote : bool;
  remote_phase_context : PhaseContext;
  transaction_secret : option string;
  transaction_origin : option string;
  expiration_time : Z;
  blocked : bool;
  is_loaded : bool;
}.

(** [IsExpired]: the clock is the steady clock, in nanoseconds. *)
Definition IsExpired (current_time : Z) (t : Transaction) : bool := expiration_time t <? u64 current_time.

End data.

Arguments TransactionRequest : clear implicits.
Arguments TransactionResponse : clear implicits.
Arguments TransactionPhaseResponse : clear implicits.
Arguments Transaction : clear implicits.

Abbreviation TransactionContext C := (AsyncContext (TransactionRequest C) (TransactionResponse C)).
Abbreviation PhaseContext C := (AsyncContext TransactionPhaseRequest (TransactionPhaseResponse C)).
Abbreviation StatusContext := (AsyncContext GetTransactionStatusRequest GetTransactionStatusResponse).

(** ** Messages *)

Inductive TransactionLogType :=
| TRANSACTION_LOG_TYPE_UNKNOWN
| TRANSACTION_LOG
| TRANSACTION_PHASE_LOG.

#[export] Instance TransactionLogType_eq_dec : EqDecision TransactionLogType.
Proof. solve_decision. Defined.

Record TransactionPhaseLog_1_0 := mkPhaseLog {
  phase_log_id : Uuid;
  phase_log_phase : ProtoPhase;
  phase_log_failed : bool;
  phase_log_result : ProtoExecutionResult;
}.

Record TransactionLog_1_0 := mkTransactionLog {
  log_id : Uuid;
  log_timeout : Z;
  log_is_coordinated_remotely : bool;
  log_transaction_secret : string;
  log_transaction_origin : string;
  log_commands : list (list Z);
}.

Record TransactionEngineLog_1_0 := mkEngineLog_1_0 {
  engine_log_type : TransactionLogType;
  engine_log_1_0_body : list Z;
}.

Record TransactionEngineLog := mkEngineLog {
  engine_log_version : Version;
  engine_log_body : list Z;
}.

Definition kCurrentVersion : Version := mkVersion 1 0.

(** The serializer of commands; [storable_command]: the commands of a
    transaction it promises to read back. *)
Class TransactionCommandSerializerInterface (Command : Type) := {
  SerializeCommand : Uuid → Command → ExecutionResult * BytesBuffer;
  DeserializeCommand : Uuid → BytesBuffer → ExecutionResult * option Command;
  storable_command : Uuid → Command → Prop;
}.

(** Such a command that was serialized is read back. *)
Class TransactionCommandSerializerLaws (Command : Type) `{TransactionCommandSerializerInterface Command} : Prop :=
  command_roundtrip transaction_id c b :
    storable_command transaction_id c →
    SerializeCommand transaction_id c = (SuccessExecutionResult, b) →
    DeserializeCommand transaction_id (BytesBufferOf (BufferContents b)) = (SuccessExecutionResult, Some c).

Section logs.
  Context `{!ProtoMessage TransactionPhaseLog_1_0} `{!ProtoMessage TransactionLog_1_0}
    `{!ProtoMessage TransactionEngineLog_1_0} `{!ProtoMessage TransactionEngineLog}.
  Context {Command : Type} `{!TransactionCommandSerializerInterface Command}.
  Implicit Types transaction : Transaction Command.

(** The two outer messages around a body. *)
Definition wrap_engine_log (type : TransactionLogType) (body : list Z)
  : option (ExecutionResult * BytesBuffer) :=
  '(execution_result, transaction_engine_log_1_0_bytes_buffer) ←
    serialize_message (mkEngineLog_1_0 type body);
  if negb (Successful execution_result) then
    Some (execution_result, transaction_engine_log_1_0_bytes_buffer)
  else
    serialize_message
      (mkEngineLog kCurrentVersion (BufferContents transaction_engine_log_1_0_bytes_buffer)).

(** The loop over the commands: it stops at the first that does not serialize. *)
Fixpoint serialize_commands (transaction_id : Uuid) (cs : list Command)
  : ExecutionResult * list (list Z) :=
  match cs with
  | [] => (SuccessExecutionResult, [])
  | current_command :: cs =>
      let '(execution_result, bytes_buffer) := SerializeCommand transaction_id current_command in
      if negb (Successful execution_result) then (execution_result, [])
      else
        let '(r, bodies) := serialize_commands transaction_id cs in
        (r, BufferContents bytes_buffer :: bodies)
  end.

(** The secret and the origin are written for a transaction that is coordinated
    remotely; [None]: the request has none (a null pointer). *)
Definition transaction_log_of (transaction_id : Uuid) (rq : TransactionRequest Command)
    (bodies : list (list Z)) : option TransactionLog_1_0 :=
  if request_is_coordinated_remotely rq then
    secret ← request_transaction_secret rq;
    origin ← request_transaction_origin rq;
    Some (mkTransactionLog transaction_id (timeout_time rq) true secret origin bodies)
  else Some (mkTransactionLog transaction_id (timeout_time rq) false "" "" bodies).

Definition SerializeTransaction transaction : option (ExecutionResult * BytesBuffer) :=
  let rq := request (context transaction) in
  let '(execution_result, bodies) := serialize_commands (id transaction) (commands rq) in
  transaction_log_1_0 ← transaction_log_of (id transaction) rq bodies;
  if negb (Successful execution_result) then Some (execution_result, NewBytesBuffer 0)
  else
    '(execution_result, transaction_log_1_0_bytes_buffer) ← serialize_message transaction_log_1_0;
    if negb (Successful execution_result) then Some (execution_result, NewBytesBuffer 0)
    else wrap_engine_log TRANSACTION_LOG (BufferContents transaction_log_1_0_bytes_buffer).

Definition phase_log_of transaction : TransactionPhaseLog_1_0 :=
  mkPhaseLog (id transaction) (ConvertPhaseToProtoPhase (current_phase transaction))
    (transaction_failed transaction) (ToProto (transaction_execution_result transaction)).

Definition SerializeState transaction : option (ExecutionResult * BytesBuffer) :=
  '(execution_result, transaction_phase_log_1_0_bytes_buffer) ←
    serialize_message (phase_log_of transaction);
  if negb (Successful execution_result) then Some (execution_result, NewBytesBuffer 0)
  else wrap_engine_log TRANSACTION_PHASE_LOG (BufferContents transaction_phase_log_1_0_bytes_buffer).

(** ** Reading *)

(** What a log says. *)
Inductive EngineEntry :=
| TransactionEntry (l : TransactionLog_1_0)
| PhaseEntry (l : TransactionPhaseLog_1_0).

(** The reading part of the recovery: the messages are unwrapped one after the
    other, and the first that does not parse ends it. *)
Definition ReadEngineLog (bytes_buffer : BytesBuffer) : option (ExecutionResult * option EngineEntry) :=
  '(execution_result, transaction_engine_log) ←
    DeserializeProtoMessage (M := TransactionEngineLog) bytes_buffer 0 (buffer_length bytes_buffer);
  match transaction_engine_log with
  | None => Some (execution_result, None)
  | Some transaction_engine_log =>
      let execution_result := ValidateVersion (engine_log_version transaction_engine_log) kCurrentVersion in
      if negb (Successful execution_result) then Some (execution_result, None)
      else
        match DeserializeProtoString (M := TransactionEngineLog_1_0)
                (engine_log_body transaction_engine_log) with
        | (execution_result, None) => Some (execution_result, None)
        | (_, Some transaction_engine_log_1_0) =>
            let body := engine_log_1_0_body transaction_engine_log_1_0 in
            match engine_log_type transaction_engine_log_1_0 with
            | TRANSACTION_LOG =>
                let '(execution_result, l) := DeserializeProtoString (M := TransactionLog_1_0) body in
                Some (execution_result, TransactionEntry <$> l)
            | TRANSACTION_PHASE_LOG =>
                let '(execution_result, l) := DeserializeProtoString (M := TransactionPhaseLog_1_0) body in
                Some (execution_result, PhaseEntry <$> l)
            | TRANSACTION_LOG_TYPE_UNKNOWN =>
                Some (FailureExecutionResult SC_TRANSACTION_MANAGER_INVALID_TRANSACTION_LOG, None)
            end
        end
  end.

(** The loop over the commands of a log. *)
Fixpoint deserialize_commands (transaction_id : Uuid) (bodies : list (list Z))
  : ExecutionResult * list Command :=
  match bodies with
  | [] => (SuccessExecutionResult, [])
  | body :: bodies =>
      let '(execution_result, transaction_command) :=
        DeserializeCommand transaction_id (BytesBufferOf body) in
      if negb (Successful execution_result) then (execution_result, [])
      else
        match transaction_command with
        | None => (execution_result, []) (* unreachable: a command that was read is there *)
        | Some c => let '(r, cs) := deserialize_commands transaction_id bodies in (r, c :: cs)
        end
  end.

(** The request of the transaction a log speaks of. *)
Definition recovered_request (l : TransactionLog_1_0) (cs : list Command) : TransactionRequest Command :=
  mkTransactionRequest (log_id l) cs (log_timeout l) (log_is_coordinated_remotely l)
    (Some (log_transaction_secret l)) (Some (log_transaction_origin l)) true.

End logs.

(** ** The messages the engine writes *)

(** Fields that fit their types, with UTF-8 in the strings, and no more bytes
    than the bounds below. *)
Definition max_body : Z := 2 ^ 24.
Definition max_log_1_0 : Z := 2 ^ 25.
Definition max_log : Z := 2 ^ 26.

Definition valid_phase_log (l : TransactionPhaseLog_1_0) : Prop :=
  valid_uuid (phase_log_id l) ∧ is_u64 (proto_status_code (phase_log_result l)).
Definition valid_transaction_log `{!ProtoMessage TransactionLog_1_0} (l : TransactionLog_1_0) : Prop :=
  valid_uuid (log_id l) ∧ is_u64 (log_timeout l) ∧
  is_utf8 (log_transaction_secret l) = true ∧ is_utf8 (log_transaction_origin l) = true ∧ ByteSizeLong l ≤ max_body.
Definition valid_engine_log_1_0 (l : TransactionEngineLog_1_0) : Prop :=
  engine_log_type l ≠ TRANSACTION_LOG_TYPE_UNKNOWN ∧ Z.of_nat (length (engine_log_1_0_body l)) ≤ max_body.
Definition valid_engine_log (l : TransactionEngineLog) : Prop :=
  is_u64 (major (engine_log_version l)) ∧ is_u64 (minor (engine_log_version l)) ∧
  Z.of_nat (length (engine_log_body l)) ≤ max_log_1_0.

(** A request whose transaction log can be written. *)
Definition valid_request {Command} `{!TransactionCommandSerializerInterface Command}
    `{!ProtoMessage TransactionLog_1_0} (rq : TransactionRequest Command) : Prop :=
  ∃ bodies l, serialize_commands (request_transaction_id rq) (commands rq) = (SuccessExecutionResult, bodies) ∧
    transaction_log_of (request_transaction_id rq) rq bodies = Some l ∧ valid_transaction_log l ∧
    Z.of_nat (length (commands rq)) < 2 ^ 31 ∧ Forall (storable_command (request_transaction_id rq)) (commands rq).

(** The wire form of the engine's logs, with the laws the library documents. *)
Class EngineLogMessages := {
  #[global] phase_log_message :: ProtoMessage TransactionPhaseLog_1_0;
  #[global] transaction_log_message :: ProtoMessage TransactionLog_1_0;
  #[global] engine_log_1_0_message :: ProtoMessage TransactionEngineLog_1_0;
  #[global] engine_log_message :: ProtoMessage TransactionEngineLog;
}.

Class EngineLogLaws `{EngineLogMessages} := {
  #[global] phase_log_laws :: ProtoMessageLaws TransactionPhaseLog_1_0 valid_phase_log max_body;
  #[global] transaction_log_laws :: ProtoMessageLaws TransactionLog_1_0 valid_transaction_log max_body;
  #[global] engine_log_1_0_laws :: ProtoMessageLaws TransactionEngineLog_1_0 valid_engine_log_1_0 max_log_1_0;
  #[global] engine_log_laws :: ProtoMessageLaws TransactionEngineLog valid_engine_log max_log;
  #[global] phase_log_not_empty :: ProtoNotEmpty TransactionPhaseLog_1_0 valid_phase_log max_body;
  #[global] transaction_log_not_empty :: ProtoNotEmpty TransactionLog_1_0 valid_transaction_log max_body;
  #[global] engine_log_1_0_not_empty :: ProtoNotEmpty TransactionEngineLog_1_0 valid_engine_log_1_0 max_log_1_0;
  #[global] engine_log_not_empty :: ProtoNotEmpty TransactionEngineLog valid_engine_log max_log;
}.

Section written.
  Context `{!EngineLogMessages} `{!EngineLogLaws}.
  Context {Command : Type} `{!TransactionCommandSerializerInterface Command}
    `{!TransactionCommandSerializerLaws Command}.
  Implicit Types T : Transaction Command.
  #[local] Set Default Proof Using "Type*".

(** A log around the bytes of a message reads as that message. *)
Lemma wrap_engine_log_written type body :
  type ≠ TRANSACTION_LOG_TYPE_UNKNOWN → Z.of_nat (length body) ≤ max_body →
  ∃ d, wrap_engine_log type body = Some (SuccessExecutionResult, d) ∧
    ReadEngineLog d =
      match type with
      | TRANSACTION_LOG =>
          let '(r, l) := DeserializeProtoString (M := TransactionLog_1_0) body in
          Some (r, TransactionEntry <$> l)
      | TRANSACTION_PHASE_LOG =>
          let '(r, l) := DeserializeProtoString (M := TransactionPhaseLog_1_0) body in
          Some (r, PhaseEntry <$> l)
      | TRANSACTION_LOG_TYPE_UNKNOWN => None
      end.
Proof.
  intros Htype Hbody. unfold wrap_engine_log. set (l1 := mkEngineLog_1_0 type body).
  assert (valid_engine_log_1_0 l1) as Hv1 by done.
  destruct (serialize_message_spec valid_engine_log_1_0 max_log_1_0 l1 Hv1) as (b1 & -> & Hb1 & _ & _).
  cbn [mbind option_bind]. change (negb (Successful SuccessExecutionResult)) with false. cbn iota.
  rewrite Hb1. set (l := mkEngineLog kCurrentVersion (proto_bytes l1)).
  assert (valid_engine_log l) as Hv.
  { pose proof (proto_size l1 Hv1). pose proof (proto_size_bound l1 Hv1).
    unfold valid_engine_log, is_u64; simpl. lia. }
  destruct (serialize_message_spec valid_engine_log max_log l Hv) as (d & Hd & _).
  exists d. split; [done|]. unfold ReadEngineLog.
  rewrite (DeserializeProtoMessage_written valid_engine_log max_log l d Hv Hd). simpl.
  rewrite (DeserializeProtoString_bytes valid_engine_log_1_0 max_log_1_0) by (try done; by apply proto_not_empty).
  simpl. by destruct type.
Qed.

Lemma SerializeState_written T :
  valid_uuid (id T) → is_u64 (status_code (transaction_execution_result T)) →
  ∃ d, SerializeState T = Some (SuccessExecutionResult, d) ∧
    ReadEngineLog d = Some (SuccessExecutionResult, Some (PhaseEntry (phase_log_of T))).
Proof.
  intros Hid Hcode. unfold SerializeState.
  assert (valid_phase_log (phase_log_of T)) as Hv by done.
  destruct (serialize_message_spec valid_phase_log max_body _ Hv) as (b & -> & Hb & _).
  cbn [mbind option_bind]. change (negb (Successful SuccessExecutionResult)) with false. cbn iota. rewrite Hb.
  destruct (wrap_engine_log_written TRANSACTION_PHASE_LOG (proto_bytes (phase_log_of T))) as (d & -> & Hread);
    [done|rewrite <- proto_size by done; by apply proto_size_bound|].
  exists d. split; [done|]. rewrite Hread.
  by rewrite (DeserializeProtoString_bytes valid_phase_log max_body) by (try done; by apply proto_not_empty).
Qed.

Lemma deserialize_commands_written transaction_id cs bodies :
  Forall (storable_command transaction_id) cs →
  serialize_commands transaction_id cs = (SuccessExecutionResult, bodies) →
  deserialize_commands transaction_id bodies = (SuccessExecutionResult, cs).
Proof.
  intros Hcs. revert bodies. induction Hcs as [|c cs Hstore _ IH]; intros bodies; simpl; [by intros [= <-]|].
  destruct (SerializeCommand transaction_id c) as [r b] eqn:Hc.
  destruct (Successful r) eqn:Hs; simpl.
  2:{ intros [= -> _]. by rewrite (proj2 (Successful_spec _)) in Hs. }
  apply Successful_true in Hs as ->.
  destruct (serialize_commands transaction_id cs) as [r' bodies'] eqn:Hcs. intros [= -> <-]. simpl.
  rewrite (command_roundtrip _ _ _ Hstore Hc). simpl. by rewrite (IH bodies').
Qed.

Lemma SerializeTransaction_written T :
  id T = request_transaction_id (request (context T)) → valid_request (request (context T)) →
  ∃ d l, SerializeTransaction T = Some (SuccessExecutionResult, d) ∧
    ReadEngineLog d = Some (SuccessExecutionResult, Some (TransactionEntry l)) ∧ log_id l = id T ∧
    log_is_coordinated_remotely l = request_is_coordinated_remotely (request (context T)) ∧
    (request_is_coordinated_remotely (request (context T)) = true →
     Some (log_transaction_secret l) = request_transaction_secret (request (context T)) ∧
     Some (log_transaction_origin l) = request_transaction_origin (request (context T))) ∧
    log_timeout l = timeout_time (request (context T)) ∧
    deserialize_commands (log_id l) (log_commands l) = (SuccessExecutionResult, commands (request (context T))).
Proof.
  intros Hid (bodies & l & Hcs & Hl & Hv & _ & Hstore). unfold SerializeTransaction. rewrite Hid, Hcs.
  cbn zeta. rewrite Hl. cbn [mbind option_bind].
  change (negb (Successful SuccessExecutionResult)) with false. cbn iota.
  destruct (serialize_message_spec valid_transaction_log max_body l Hv) as (b & -> & Hb & _).
  cbn [mbind option_bind]. change (negb (Successful SuccessExecutionResult)) with false. cbn iota. rewrite Hb.
  destruct (wrap_engine_log_written TRANSACTION_LOG (proto_bytes l)) as (d & -> & Hread);
    [done|rewrite <- proto_size by done; by apply proto_size_bound|].
  exists d, l. split; [done|]. rewrite Hread.
  rewrite (DeserializeProtoString_bytes valid_transaction_log max_body) by (try done; by apply proto_not_empty).
  split; [done|]. apply (deserialize_commands_written _ _ _ Hstore) in Hcs. unfold transaction_log_of in Hl.
  destruct (request_is_coordinated_remotely _); [|by simplify_eq/=].
  destruct (request_transaction_secret _) as [secret|]; [|done].
  destruct (request_transaction_origin _) as [origin|]; [|done]. by simplify_eq/=.
Qed.

End written.
