(* ===== verification/StateMonad.v ===== *)
(** * A state monad with undefined behaviour

    The handlers of the transaction engine call one another and change the same
    objects; they are written in this monad. A computation gives [None] when the
    code dereferences a null pointer or indexes out of range. [wp] is total: it
    says that the computation is defined and what holds after it. *)

From S2P Require Import Prelude.
From stdpp Require Import options.

Definition State (S A : Type) : Type := S → option (A * S).

#[export] Instance State_ret {S} : MRet (State S) := λ A a s, Some (a, s).
#[export] Instance State_bind {S} : MBind (State S) := λ A B f m s,
  match m s with
  | Some (a, s') => f a s'
  | None => None
  end.

Definition gets {S A} (f : S → A) : State S A := λ s, Some (f s, s).
Definition modify {S} (f : S → S) : State S () := λ s, Some ((), f s).
(** A value that has to be there. *)
Definition from_some {S A} (o : option A) : State S A := λ s, (λ a, (a, s)) <$> o.

(** [m] is defined in [s] and its result and final state satisfy [Q]. *)
Definition wp {S A} (m : State S A) (Q : A → S → Prop) (s : S) : Prop :=
  ∃ a s', m s = Some (a, s') ∧ Q a s'.

Section wp.
  Context {S A B : Type}.
  Implicit Types (m : State S A) (s : S).

Lemma wp_ret (a : A) (Q : A → S → Prop) s : Q a s → wp (mret a) Q s.
Proof. intros H. by exists a, s. Qed.

Lemma wp_bind m (f : A → State S B) (Q : B → S → Prop) s :
  wp m (λ a, wp (f a) Q) s → wp (m ≫= f) Q s.
Proof.
  intros (a & s' & Hm & b & s'' & Hf & HQ). exists b, s''. split; [|done].
  unfold mbind, State_bind. by rewrite Hm.
Qed.

Lemma wp_gets (f : S → A) (Q : A → S → Prop) s : Q (f s) s → wp (gets f) Q s.
Proof. intros H. by exists (f s), s. Qed.

Lemma wp_modify (f : S → S) (Q : () → S → Prop) s : Q () (f s) → wp (modify f) Q s.
Proof. intros H. by exists (), (f s). Qed.

Lemma wp_from_some (o : option A) a (Q : A → S → Prop) s :
  o = Some a → Q a s → wp (from_some o) Q s.
Proof. intros -> H. by exists a, s. Qed.

Lemma wp_mono m (Q Q' : A → S → Prop) s :
  wp m Q s → (∀ a s', Q a s' → Q' a s') → wp m Q' s.
Proof. intros (a & s' & Hm & HQ) H. exists a, s'. split; [done|]. by apply H. Qed.

(** What [wp] says of a computation that is known to give a result. *)
Lemma wp_inv m (Q : A → S → Prop) s a s' : wp m Q s → m s = Some (a, s') → Q a s'.
Proof. intros (? & ? & Hm & HQ) Heq. rewrite Hm in Heq. by simplify_eq. Qed.

Lemma wp_of m s a s' (Q : A → S → Prop) : m s = Some (a, s') → Q a s' → wp m Q s.
Proof. intros ??. by exists a, s'. Qed.

End wp.

Create HintDb wp.
#[export] Hint Resolve wp_ret wp_gets wp_modify : wp.

(** One step of a computation: the primitive in front is run. *)
Ltac wp_step :=
  lazymatch goal with
  | |- wp (_ ≫= _) _ _ => apply wp_bind
  | |- wp (mret _) _ _ => apply wp_ret
  | |- wp (gets _) _ _ => apply wp_gets
  | |- wp (modify _) _ _ => apply wp_modify
  end.
