(* ===== verification/TransactionEngine.v ===== *)
(** * The transaction engine

    Models [cc/core/transaction_manager/src/transaction_engine.cc]: the handlers
    that move a transaction through its phases. Transactions are objects the
    map of active transactions, the callbacks in flight and the handlers share:
    they live in a store and are referred to by location. A handler runs at an
    instant ([now]) and gives the calls it makes to the outside in order
    ([Action]). The answers of the commands' phase functions come from a list
    that stands for the commands; a call the list does not answer succeeds.

    Handlers are atomic: two threads that run handlers of one transaction are
    taken to run them one after the other. *)

From S2P Require Import Prelude ExecutionResult ErrorCodes Uuid Serialization.
From S2P Require Import AutoExpiryMap StateMonad TransactionPhases TransactionLog.
From stdpp Require Import options.

Local Open Scope Z_scope.

Definition txn_loc : Type := positive.

(** ** Changes to a transaction *)

Section setters.
  Context {Command : Type}.
  Implicit Types t : Transaction Command.

Definition set_context v t := mkTransaction (id t) v (current_phase t) (current_phase_execution_result t)
  (transaction_execution_result t) (pending_callbacks t) (transaction_failed t) (current_phase_failed t)
  (current_phase_failed_command_indices t) (last_execution_timestamp t) (is_coordinated_remotely t)
  (is_waiting_for_remote t) (remote_phase_context t) (transaction_secret t) (transaction_origin t)
  (expiration_time t) (blocked t) (is_loaded t).

Definition set_current_phase v t := mkTransaction (id t) (context t) v (current_phase_execution_result t)
  (transaction_execution_result t) (pending_callbacks t) (transaction_failed t) (current_phase_failed t)
  (current_phase_failed_command_indices t) (last_execution_timestamp t) (is_coordinated_remotely t)
  (is_waiting_for_remote t) (remote_phase_context t) (transaction_secret t) (transaction_origin t)
  (expiration_time t) (blocked t) (is_loaded t).

(** [current_phase_failed] and [current_phase_execution_result]. *)
Definition set_phase_outcome failed r t := mkTransaction (id t) (context t) (current_phase t) r
  (transaction_execution_result t) (pending_callbacks t) (transaction_failed t) failed
  (current_phase_failed_command_indices t) (last_execution_timestamp t) (is_coordinated_remotely t)
  (is_waiting_for_remote t) (remote_phase_context t) (transaction_secret t) (transaction_origin t)
  (expiration_time t) (blocked t) (is_loaded t).

(** [transaction_failed] and [transaction_execution_result]. *)
Definition set_outcome failed r t := mkTransaction (id t) (context t) (current_phase t)
  (current_phase_execution_result t) r (pending_callbacks t) failed (current_phase_failed t)
  (current_phase_failed_command_indices t) (last_execution_timestamp t) (is_coordinated_remotely t)
  (is_waiting_for_remote t) (remote_phase_context t) (transaction_secret t) (transaction_origin t)
  (expiration_time t) (blocked t) (is_loaded t).

Definition set_pending v t := mkTransaction (id t) (context t) (current_phase t)
  (current_phase_execution_result t) (transaction_execution_result t) v (transaction_failed t)
  (current_phase_failed t) (current_phase_failed_command_indices t) (last_execution_timestamp t)
  (is_coordinated_remotely t) (is_waiting_for_remote t) (remote_phase_context t) (transaction_secret t)
  (transaction_origin t) (expiration_time t) (blocked t) (is_loaded t).

Definition set_failed_indices v t := mkTransaction (id t) (context t) (current_phase t)
  (current_phase_execution_result t) (transaction_execution_result t) (pending_callbacks t)
  (transaction_failed t) (current_phase_failed t) v (last_execution_timestamp t)
  (is_coordinated_remotely t) (is_waiting_for_remote t) (remote_phase_context t) (transaction_secret t)
  (transaction_origin t) (expiration_time t) (blocked t) (is_loaded t).

Definition set_last_execution_timestamp v t := mkTransaction (id t) (context t) (current_phase t)
  (current_phase_execution_result t) (transaction_execution_result t) (pending_callbacks t)
  (transaction_failed t) (current_phase_failed t) (current_phase_failed_command_indices t) v
  (is_coordinated_remotely t) (is_waiting_for_remote t) (remote_phase_context t) (transaction_secret t)
  (transaction_origin t) (expiration_time t) (blocked t) (is_loaded t).

Definition set_waiting v t := mkTransaction (id t) (context t) (current_phase t)
  (current_phase_execution_result t) (transaction_execution_result t) (pending_callbacks t)
  (transaction_failed t) (current_phase_failed t) (current_phase_failed_command_indices t)
  (last_execution_timestamp t) (is_coordinated_remotely t) v (remote_phase_context t)
  (transaction_secret t) (transaction_origin t) (expiration_time t) (blocked t) (is_loaded t).

Definition set_remote_phase_context v t := mkTransaction (id t) (context t) (current_phase t)
  (current_phase_execution_result t) (transaction_execution_result t) (pending_callbacks t)
  (transaction_failed t) (current_phase_failed t) (current_phase_failed_command_indices t)
  (last_execution_timestamp t) (is_coordinated_remotely t) (is_waiting_for_remote t) v
  (transaction_secret t) (transaction_origin t) (expiration_time t) (blocked t) (is_loaded t).

Definition set_blocked v t := mkTransaction (id t) (context t) (current_phase t)
  (current_phase_execution_result t) (transaction_execution_result t) (pending_callbacks t)
  (transaction_failed t) (current_phase_failed t) (current_phase_failed_command_indices t)
  (last_execution_timestamp t) (is_coordinated_remotely t) (is_waiting_for_remote t)
  (remote_phase_context t) (transaction_secret t) (transaction_origin t) (expiration_time t) v
  (is_loaded t).

(** A context's result and response are set before it finishes. *)
Definition answer {Rq Rs} (r : ExecutionResult) (rs : Rs) (c : AsyncContext Rq Rs) : AsyncContext Rq Rs :=
  mkAsync (request c) (Some rs) r (callback c).

End setters.

(** ** The machine *)

(** The callback of a log. *)
Inductive LogCallback :=
| OnLogTransaction (current_phase : TransactionPhase) (transaction : txn_loc)
| OnLogStateAndProceedToNextPhase (current_phase : TransactionPhase) (transaction : txn_loc)
| OnLogStateAndExecuteDistributedPhase (current_phase : TransactionPhase) (transaction : txn_loc).

Section engine.
  Context {Command : Type}.

(** Calls to the outside: a log is dispatched to the journal, a command's phase
    function is called (and has answered), a context is finished, the remote
    coordinator is asked for a transaction's status or told to run a phase. *)
Inductive Action :=
| DispatchLog (data : BytesBuffer) (cb : LogCallback)
| CallCommand (transaction : txn_loc) (command_index : nat) (phase : TransactionPhase)
    (command : Command) (answered : ExecutionResult)
| FinishTransaction (c : TransactionContext Command)
| FinishPhase (c : PhaseContext Command)
| FinishStatus (c : StatusContext)
| DispatchGetTransactionStatus (transaction : txn_loc) (rq : GetTransactionStatusRequest)
| DispatchExecutePhase (transaction : txn_loc) (rq : TransactionPhaseRequest).

Record Machine := mkMachine {
  transactions : gmap txn_loc (Transaction Command);
  active_transactions_map_ : AutoExpiryConcurrentMap (K := Uuid) (V := txn_loc);
  answers : list ExecutionResult;
  actions : list Action;
}.

Definition with_transactions v m := mkMachine v (active_transactions_map_ m) (answers m) (actions m).
Definition with_active v m := mkMachine (transactions m) v (answers m) (actions m).
Definition with_answers v m := mkMachine (transactions m) (active_transactions_map_ m) v (actions m).
Definition with_actions v m := mkMachine (transactions m) (active_transactions_map_ m) (answers m) v.

Record Settings := mkSettings {
  skip_log_recovery_failures_ : bool;
  skip_duplicate_transaction_in_recovery_ : bool;
  transaction_timeout_in_seconds_ : Z;
  transaction_resolution_with_remote_enabled_ : bool;
  transaction_engine_cache_lifetime_seconds_ : Z;
}.

(** The steady and the wall clock. *)
Record Clock := mkClock { steady_now : Z; wall_now : Z }.

Abbreviation Engine := (State Machine).

(** *** Primitives *)

Definition deref (transaction : txn_loc) : Engine (Transaction Command) :=
  λ m, (λ t, (t, m)) <$> transactions m !! transaction.

Definition update (transaction : txn_loc) (f : Transaction Command → Transaction Command) : Engine () :=
  modify (λ m, with_transactions (alter f transaction (transactions m)) m).

Definition emit (a : Action) : Engine () := modify (λ m, with_actions (actions m ++ [a]) m).

(** The next command that is called answers. *)
Definition next_answer : Engine ExecutionResult := λ m,
  match answers m with
  | [] => Some (SuccessExecutionResult, m)
  | r :: rs => Some (r, with_answers rs m)
  end.

(** [context.Finish()]: nothing happens without a callback. *)
Definition finish {Rq Rs} (to : AsyncContext Rq Rs → Action) (c : AsyncContext Rq Rs) : Engine () :=
  match callback c with
  | NoCallback => mret ()
  | _ => emit (to c)
  end.

  Variable settings : Settings.
  Variable now : Clock.

(** The map neither extends the life of an entry that is looked up nor refuses
    one that is being evicted. *)
Definition map_config : Config := mkConfig (transaction_engine_cache_lifetime_seconds_ settings) false false.

Definition map_find (transaction_id : Uuid) : Engine (ExecutionResult * option txn_loc) := λ m,
  let '(r, v, a) := Find map_config (steady_now now) (active_transactions_map_ m) transaction_id in
  Some ((r, v), with_active a m).

Definition map_insert (transaction_id : Uuid) (transaction : txn_loc)
  : Engine (ExecutionResult * option txn_loc) := λ m,
  let '(r, v, a) := Insert map_config (steady_now now) (active_transactions_map_ m) transaction_id transaction in
  Some ((r, v), with_active a m).

Definition map_erase (transaction_id : Uuid) : Engine ExecutionResult := λ m,
  let '(r, a) := Erase (active_transactions_map_ m) transaction_id in Some (r, with_active a m).

(** *** The lock *)

Definition LockRemotelyCoordinatedTransaction (transaction : txn_loc) : Engine ExecutionResult :=
  t ← deref transaction;
  if negb (is_coordinated_remotely t) then
    mret (FailureExecutionResult SC_TRANSACTION_MANAGER_TRANSACTION_NOT_COORDINATED_REMOTELY)
  else if negb (is_waiting_for_remote t) then
    mret (FailureExecutionResult SC_TRANSACTION_MANAGER_TRANSACTION_CANNOT_BE_LOCKED)
  else update transaction (set_waiting false);; mret SuccessExecutionResult.

Definition UnlockRemotelyCoordinatedTransaction (transaction : txn_loc) : Engine ExecutionResult :=
  t ← deref transaction;
  if negb (is_coordinated_remotely t) then
    mret (FailureExecutionResult SC_TRANSACTION_MANAGER_TRANSACTION_NOT_COORDINATED_REMOTELY)
  else if is_waiting_for_remote t then
    mret (FailureExecutionResult SC_TRANSACTION_MANAGER_TRANSACTION_CANNOT_BE_UNLOCKED)
  else update transaction (set_waiting true);; mret SuccessExecutionResult.

(** *** Logs *)

Section phases.
  Context `{!ProtoMessage TransactionPhaseLog_1_0} `{!ProtoMessage TransactionLog_1_0}
    `{!ProtoMessage TransactionEngineLog_1_0} `{!ProtoMessage TransactionEngineLog}
    `{!TransactionCommandSerializerInterface Command}.

Definition LogState (transaction : txn_loc) (cb : LogCallback) : Engine ExecutionResult :=
  t ← deref transaction;
  '(execution_result, transaction_engine_log_bytes_buffer) ← from_some (SerializeState t);
  if negb (Successful execution_result) then mret execution_result
  else emit (DispatchLog transaction_engine_log_bytes_buffer cb);; mret SuccessExecutionResult.

Definition LogStateAndProceedToNextPhase (current_phase : TransactionPhase) (transaction : txn_loc) :=
  LogState transaction (OnLogStateAndProceedToNextPhase current_phase transaction).

Definition LogStateAndExecuteDistributedPhase (current_phase : TransactionPhase) (transaction : txn_loc) :=
  LogState transaction (OnLogStateAndExecuteDistributedPhase current_phase transaction).

Definition LogTransactionAndProceedToNextPhase (current_phase : TransactionPhase) (transaction : txn_loc)
  : Engine ExecutionResult :=
  t ← deref transaction;
  '(execution_result, transaction_engine_log_bytes_buffer) ← from_some (SerializeTransaction t);
  if negb (Successful execution_result) then mret execution_result
  else
    emit (DispatchLog transaction_engine_log_bytes_buffer (OnLogTransaction current_phase transaction));;
    mret SuccessExecutionResult.

(** *** Calling the commands *)

(** [TryEnqueue] on the queue of failed commands, which holds [INT32_MAX]. *)
Definition enqueue_failed_index (i : nat) (t : Transaction Command) : Transaction Command :=
  let indices := current_phase_failed_command_indices t in
  if Z.of_nat (length indices) <? 2 ^ 31 - 1 then set_failed_indices (indices ++ [i]) t else t.

(** Only the first failure of a phase is its result. *)
Definition fail_phase (r : ExecutionResult) (t : Transaction Command) : Transaction Command :=
  if current_phase_failed t then t else set_phase_outcome true r t.

Definition DispatchDistributedCommand (command_index : nat) (current_phase : TransactionPhase)
    (command : Command) (transaction : txn_loc) : Engine ExecutionResult :=
  match current_phase with
  | TransactionPhase.Begin | TransactionPhase.Prepare | TransactionPhase.Commit
  | TransactionPhase.CommitNotify | TransactionPhase.AbortNotify | TransactionPhase.End =>
      execution_result ← next_answer;
      emit (CallCommand transaction command_index current_phase command execution_result);;
      mret execution_result
  | _ => mret (FailureExecutionResult SC_TRANSACTION_ENGINE_INVALID_DISTRIBUTED_COMMAND)
  end.

(** The loop over the commands from index [i]; gives [failed_operations]. *)
Fixpoint dispatch_commands (i : nat) (current_phase : TransactionPhase) (cs : list Command)
    (transaction : txn_loc) : Engine Z :=
  match cs with
  | [] => mret 0
  | command :: cs =>
      execution_result ← DispatchDistributedCommand i current_phase command transaction;
      if negb (Successful execution_result) then
        (if bool_decide (status execution_result = Failure)
         then update transaction (enqueue_failed_index i) else mret ());;
        update transaction (fail_phase execution_result);;
        failed_operations ← dispatch_commands (S i) current_phase cs transaction;
        mret (1 + failed_operations)
      else dispatch_commands (S i) current_phase cs transaction
  end.

(** [proceed] is [ProceedToNextPhase]. *)
Definition ExecuteDistributedPhase (proceed : TransactionPhase → txn_loc → Engine ())
    (current_phase : TransactionPhase) (transaction : txn_loc) : Engine () :=
  t ← deref transaction;
  let cs := commands (request (context t)) in
  update transaction (set_pending (u64 (Z.of_nat (length cs))));;
  failed_operations ← dispatch_commands 0 current_phase cs transaction;
  if 0 <? failed_operations then
    t ← deref transaction;
    update transaction (set_pending (u64 (pending_callbacks t - failed_operations)));;
    if pending_callbacks t =? failed_operations then proceed current_phase transaction else mret ()
  else mret ().

(** *** The phases *)

Definition BeginTransaction (proceed : TransactionPhase → txn_loc → Engine ()) (transaction : txn_loc)
  : Engine () := ExecuteDistributedPhase proceed TransactionPhase.Begin transaction.

(** The result of writing the log is ignored. *)
Definition PrepareTransaction (transaction : txn_loc) : Engine () :=
  LogStateAndExecuteDistributedPhase TransactionPhase.Prepare transaction;; mret ().
Definition CommitTransaction (transaction : txn_loc) : Engine () :=
  LogStateAndExecuteDistributedPhase TransactionPhase.Commit transaction;; mret ().
Definition CommitNotifyTransaction (transaction : txn_loc) : Engine () :=
  LogStateAndExecuteDistributedPhase TransactionPhase.CommitNotify transaction;; mret ().
Definition CommittedTransaction (transaction : txn_loc) : Engine () :=
  LogStateAndProceedToNextPhase TransactionPhase.Committed transaction;; mret ().
Definition AbortNotifyTransaction (transaction : txn_loc) : Engine () :=
  LogStateAndExecuteDistributedPhase TransactionPhase.AbortNotify transaction;; mret ().
Definition AbortedTransaction (transaction : txn_loc) : Engine () :=
  LogStateAndProceedToNextPhase TransactionPhase.Aborted transaction;; mret ().
Definition EndTransaction (transaction : txn_loc) : Engine () :=
  LogStateAndExecuteDistributedPhase TransactionPhase.End transaction;; mret ().
(** An alert. *)
Definition UnknownStateTransaction (transaction : txn_loc) : Engine () := mret ().

Definition ExecuteCurrentPhase (proceed : TransactionPhase → txn_loc → Engine ()) (transaction : txn_loc)
  : Engine () :=
  t ← deref transaction;
  match current_phase t with
  | TransactionPhase.Begin => BeginTransaction proceed transaction
  | TransactionPhase.Prepare => PrepareTransaction transaction
  | TransactionPhase.Commit => CommitTransaction transaction
  | TransactionPhase.CommitNotify => CommitNotifyTransaction transaction
  | TransactionPhase.Committed => CommittedTransaction transaction
  | TransactionPhase.AbortNotify => AbortNotifyTransaction transaction
  | TransactionPhase.Aborted => AbortedTransaction transaction
  | TransactionPhase.End => EndTransaction transaction
  | _ => UnknownStateTransaction transaction
  end.

(** *** Proceeding *)

(** The end of a transaction: its coordinator is answered, and the transaction
    is forgotten when the answer is a success. *)
Definition finish_transaction (transaction : txn_loc) : Engine () :=
  update transaction (set_last_execution_timestamp (wall_now now));;
  t ← deref transaction;
  delete_transaction ←
    (if is_coordinated_remotely t then
       let c := answer (current_phase_execution_result t)
                  (mkPhaseResponse (last_execution_timestamp t) [] []) (remote_phase_context t) in
       update transaction (set_remote_phase_context c);;
       finish FinishPhase c;;
       mret (result_eqb (result c) SuccessExecutionResult)
     else
       let c := answer (if transaction_failed t then transaction_execution_result t
                        else SuccessExecutionResult)
                  (mkTransactionResponse (id t) (last_execution_timestamp t) [] []) (context t) in
       update transaction (set_context c);;
       finish FinishTransaction c;;
       mret (Successful (result c)));
  if (delete_transaction : bool) then map_erase (id t);; mret () else mret ().

(** The failed commands of the phase, and its result. A failed phase fails the
    transaction, when none before it did, and is forgotten. *)
Definition take_phase_outcome (transaction : txn_loc) : Engine (list nat * ExecutionResult) :=
  t ← deref transaction;
  let r := current_phase_execution_result t in
  if current_phase_failed t then
    update transaction (λ t, set_phase_outcome false SuccessExecutionResult
      (let t := set_failed_indices [] t in
       if transaction_failed t then t else set_outcome true r t));;
    mret (current_phase_failed_command_indices t, r)
  else mret ([], r).

(** The coordinator is told the outcome of the phase and may ask for the next
    one. *)
Definition answer_coordinator (transaction : txn_loc) (failed_indices : list nat) (r : ExecutionResult)
  : Engine () :=
  t ← deref transaction;
  failed_commands ← from_some (mapM (λ i, commands (request (context t)) !! i) failed_indices);
  if TransactionPhase.eqb (current_phase t) TransactionPhase.Begin then
    let c := answer r (mkTransactionResponse (id t) (last_execution_timestamp t)
                         failed_indices failed_commands) (context t) in
    update transaction (set_context c);;
    UnlockRemotelyCoordinatedTransaction transaction;;
    finish FinishTransaction c
  else
    let c := answer r (mkPhaseResponse (last_execution_timestamp t) failed_indices failed_commands)
               (remote_phase_context t) in
    update transaction (set_remote_phase_context c);;
    finish FinishPhase c;;
    UnlockRemotelyCoordinatedTransaction transaction;; mret ().

Definition proceed_once (proceed : TransactionPhase → txn_loc → Engine ())
    (current_phase : TransactionPhase) (transaction : txn_loc) : Engine () :=
  if TransactionPhase.eqb current_phase TransactionPhase.End then finish_transaction transaction
  else
    t ← deref transaction;
    let next_phase := TransactionPhaseManager.ProceedToNextPhase current_phase
                        (current_phase_execution_result t) in
    '(failed_indices, current_phase_execution_result) ← take_phase_outcome transaction;
    t ← deref transaction;
    (* A dangling callback: the phase has changed since. *)
    if negb (TransactionPhase.eqb (TransactionLog.current_phase t) current_phase) then mret ()
    else
      update transaction (λ t, set_last_execution_timestamp (wall_now now)
                                 (set_current_phase next_phase t));;
      if is_coordinated_remotely t then
        answer_coordinator transaction failed_indices current_phase_execution_result
      else ExecuteCurrentPhase proceed transaction.

(** A transaction that is coordinated here may run its begin phase again and
    again within one handler, as long as a command asks for a retry: each time
    at least one call of [answers] is used up, so the fuel below is enough. *)
Fixpoint proceed_fuel (fuel : nat) (current_phase : TransactionPhase) (transaction : txn_loc) : Engine () :=
  match fuel with
  | O => λ _, None
  | S fuel => proceed_once (proceed_fuel fuel) current_phase transaction
  end.

Definition ProceedToNextPhase (current_phase : TransactionPhase) (transaction : txn_loc) : Engine () :=
  λ m, proceed_fuel (S (length (answers m))) current_phase transaction m.

(** *** Callbacks *)

Definition OnPhaseCallback (command_index : nat) (current_phase : TransactionPhase)
    (execution_result : ExecutionResult) (transaction : txn_loc) : Engine () :=
  match status execution_result with
  | Retry => mret () (* an alert: the transaction is stuck *)
  | s =>
      (if bool_decide (s = Failure) then
         update transaction (enqueue_failed_index command_index);;
         update transaction (fail_phase execution_result)
       else mret ());;
      t ← deref transaction;
      update transaction (set_pending (u64 (pending_callbacks t - 1)));;
      if pending_callbacks t =? 1 then ProceedToNextPhase current_phase transaction else mret ()
  end.

(** The three callbacks of a log: a log that failed is dispatched again. *)
Definition OnLogCallback (data : BytesBuffer) (cb : LogCallback) (execution_result : ExecutionResult)
  : Engine () :=
  if negb (Successful execution_result) then emit (DispatchLog data cb)
  else
    match cb with
    | OnLogTransaction current_phase transaction
    | OnLogStateAndProceedToNextPhase current_phase transaction =>
        ProceedToNextPhase current_phase transaction
    | OnLogStateAndExecuteDistributedPhase current_phase transaction =>
        ExecuteDistributedPhase ProceedToNextPhase current_phase transaction
    end.

(** *** Starting a transaction *)

Definition null_or_empty (s : option string) : bool :=
  match s with None => true | Some s => Nat.eqb (String.length s) 0 end.

(** The request of a phase context that was never set: a null pointer, which is
    never read. *)
Definition no_phase_request : TransactionPhaseRequest :=
  mkPhaseRequest kZeroUuid TransactionExecutionPhase.Unknown None None 0.

Definition new_transaction (transaction_context : TransactionContext Command) : Transaction Command :=
  let rq := request transaction_context in
  mkTransaction (request_transaction_id rq) transaction_context TransactionPhase.NotStarted
    SuccessExecutionResult (FailureExecutionResult SC_TRANSACTION_MANAGER_NOT_FINISHED) 0 false false []
    (wall_now now) (request_is_coordinated_remotely rq) false (NewContext no_phase_request IgnoreCallback)
    (request_transaction_secret rq) (request_transaction_origin rq)
    (expiration_after (steady_now now) (transaction_timeout_in_seconds_ settings)) false true.

(** Gives the transaction the map holds, when it holds one. *)
Definition InitializeTransaction (transaction_context : TransactionContext Command)
  : Engine (ExecutionResult * txn_loc) :=
  let rq := request transaction_context in
  transaction ← gets (λ m, fresh (dom (transactions m)));
  if request_is_coordinated_remotely rq &&
     (null_or_empty (request_transaction_secret rq) || null_or_empty (request_transaction_origin rq)) then
    mret (FailureExecutionResult SC_TRANSACTION_ENGINE_INVALID_TRANSACTION_REQUEST, transaction)
  else
    modify (λ m, with_transactions (<[transaction := new_transaction transaction_context]> (transactions m)) m);;
    '(execution_result, found) ← map_insert (request_transaction_id rq) transaction;
    let transaction := default transaction found in
    if negb (Successful execution_result) then
      if status_code execution_result =? SC_CONCURRENT_MAP_ENTRY_ALREADY_EXISTS then
        mret (if skip_duplicate_transaction_in_recovery_ settings && is_journal_recovery rq
              then SuccessExecutionResult
              else FailureExecutionResult SC_TRANSACTION_MANAGER_TRANSACTION_ALREADY_EXISTS, transaction)
      else mret (execution_result, transaction)
    else mret (execution_result, transaction).

Definition Execute (transaction_context : TransactionContext Command) : Engine ExecutionResult :=
  '(execution_result, transaction) ← InitializeTransaction transaction_context;
  if negb (Successful execution_result) then mret execution_result
  else LogTransactionAndProceedToNextPhase TransactionPhase.NotStarted transaction.

(** *** Running a phase for a remote coordinator *)

(** The phase a client may ask for in a phase. *)
Definition phase_accepts (requested_phase : TransactionExecutionPhase) (current_phase : TransactionPhase)
  : bool :=
  let current := TransactionPhase.eqb current_phase in
  negb (current TransactionPhase.Unknown) &&
  match requested_phase with
  | TransactionExecutionPhase.Unknown => false
  | TransactionExecutionPhase.Begin => current TransactionPhase.Begin
  | TransactionExecutionPhase.Prepare => current TransactionPhase.Prepare
  | TransactionExecutionPhase.Commit => current TransactionPhase.Commit
  | TransactionExecutionPhase.Notify => current TransactionPhase.CommitNotify
  | TransactionExecutionPhase.Abort => TransactionPhaseManager.CanProceedToAbortAtPhase current_phase
  | TransactionExecutionPhase.End => TransactionPhaseManager.CanProceedToEndAtPhase current_phase
  end.

(** An abort or an end moves the transaction before it is logged. *)
Definition requested_phase_of (requested_phase : TransactionExecutionPhase) (current_phase : TransactionPhase)
  : TransactionPhase :=
  match requested_phase with
  | TransactionExecutionPhase.Abort => TransactionPhase.AbortNotify
  | TransactionExecutionPhase.End => TransactionPhase.End
  | _ => current_phase
  end.

(** The switch. *)
Definition run_requested_phase (requested_phase : TransactionExecutionPhase) (transaction : txn_loc)
  : Engine ExecutionResult :=
  match requested_phase with
  | TransactionExecutionPhase.Begin =>
      BeginTransaction ProceedToNextPhase transaction;; mret SuccessExecutionResult
  | TransactionExecutionPhase.Prepare => PrepareTransaction transaction;; mret SuccessExecutionResult
  | TransactionExecutionPhase.Commit => CommitTransaction transaction;; mret SuccessExecutionResult
  | TransactionExecutionPhase.Notify => CommitNotifyTransaction transaction;; mret SuccessExecutionResult
  | TransactionExecutionPhase.Abort =>
      update transaction (set_outcome true
        (FailureExecutionResult SC_TRANSACTION_MANAGER_TRANSACTION_IS_ABORTED));;
      update transaction (set_phase_outcome false SuccessExecutionResult);;
      AbortNotifyTransaction transaction;; mret SuccessExecutionResult
  | TransactionExecutionPhase.End => EndTransaction transaction;; mret SuccessExecutionResult
  | TransactionExecutionPhase.Unknown =>
      mret (FailureExecutionResult SC_TRANSACTION_MANAGER_INVALID_TRANSACTION_PHASE)
  end.

(** Gives the transaction the map holds too: the caller's pointer is set to it. *)
Definition ExecutePhaseInternal (transaction : txn_loc) (transaction_phase_context : PhaseContext Command)
  : Engine (ExecutionResult * txn_loc) :=
  t ← deref transaction;
  if is_waiting_for_remote t || negb (is_coordinated_remotely t) then
    mret (FailureExecutionResult SC_TRANSACTION_MANAGER_TRANSACTION_IS_NOT_LOCKED, transaction)
  else
    '(execution_result, found) ← map_find (id t);
    let transaction := default transaction found in
    if negb (Successful execution_result) then
      mret (FailureExecutionResult SC_TRANSACTION_MANAGER_TRANSACTION_NOT_FOUND, transaction)
    else
      t ← deref transaction;
      let rq := request transaction_phase_context in
      let requested_phase := transaction_execution_phase rq in
      if negb (last_execution_timestamp t =? phase_last_execution_timestamp rq) then
        mret (FailureExecutionResult SC_TRANSACTION_MANAGER_LAST_EXECUTION_TIMESTAMP_NOT_MATCHING, transaction)
      else if negb (phase_accepts requested_phase (current_phase t)) then
        mret (FailureExecutionResult SC_TRANSACTION_MANAGER_INVALID_TRANSACTION_PHASE, transaction)
      else
        update transaction (λ t, set_remote_phase_context transaction_phase_context
          (set_current_phase (requested_phase_of requested_phase (current_phase t)) t));;
        r ← run_requested_phase requested_phase transaction;
        mret (r, transaction).

(** The lock is given back when the phase was refused. *)
Definition execute_or_unlock (transaction : txn_loc) (transaction_phase_context : PhaseContext Command)
  : Engine ExecutionResult :=
  '(execution_result, transaction) ← ExecutePhaseInternal transaction transaction_phase_context;
  (if negb (Successful execution_result)
   then UnlockRemotelyCoordinatedTransaction transaction;; mret () else mret ());;
  mret execution_result.

Definition ExecutePhase (transaction_phase_context : PhaseContext Command) : Engine ExecutionResult :=
  let rq := request transaction_phase_context in
  '(execution_result, found) ← map_find (phase_transaction_id rq);
  if negb (Successful execution_result) then
    mret (FailureExecutionResult SC_TRANSACTION_MANAGER_TRANSACTION_NOT_FOUND)
  else
    transaction ← from_some found;
    t ← deref transaction;
    if negb (is_coordinated_remotely t) then
      mret (FailureExecutionResult SC_TRANSACTION_MANAGER_TRANSACTION_NOT_COORDINATED_REMOTELY)
    else
      secret_matches ← from_some
        (match transaction_secret t with
         | None => Some false
         | Some secret => (λ s, bool_decide (secret = s)) <$> phase_transaction_secret rq
         end);
      if negb secret_matches then
        mret (FailureExecutionResult SC_TRANSACTION_MANAGER_TRANSACTION_SECRET_IS_NOT_VALID)
      else
        origin_matches ← from_some
          (if IsExpired (steady_now now) t then Some true
           else match transaction_origin t with
                | None => Some false
                | Some origin => (λ s, bool_decide (origin = s)) <$> phase_transaction_origin rq
                end);
        if negb origin_matches then
          mret (FailureExecutionResult SC_TRANSACTION_MANAGER_TRANSACTION_ORIGIN_IS_NOT_VALID)
        else
          execution_result ← LockRemotelyCoordinatedTransaction transaction;
          if negb (Successful execution_result) then
            mret (FailureExecutionResult SC_TRANSACTION_MANAGER_CURRENT_TRANSACTION_IS_RUNNING)
          else execute_or_unlock transaction transaction_phase_context.

Definition GetTransactionStatus (get_transaction_status_context : StatusContext) : Engine ExecutionResult :=
  let rq := request get_transaction_status_context in
  '(execution_result, found) ← map_find (status_transaction_id rq);
  if negb (Successful execution_result) then
    mret (FailureExecutionResult SC_TRANSACTION_MANAGER_TRANSACTION_NOT_FOUND)
  else
    transaction ← from_some found;
    t ← deref transaction;
    if negb (is_coordinated_remotely t) then
      mret (FailureExecutionResult SC_TRANSACTION_MANAGER_TRANSACTION_NOT_COORDINATED_REMOTELY)
    else
      secret_matches ← from_some
        (match status_transaction_secret rq with
         | None => Some false
         | Some s => (λ secret, bool_decide (secret = s)) <$> transaction_secret t
         end);
      if negb secret_matches then
        mret (FailureExecutionResult SC_TRANSACTION_MANAGER_TRANSACTION_SECRET_IS_NOT_VALID)
      else
        finish FinishStatus (answer SuccessExecutionResult
          (mkStatusResponse (ToTransactionExecutionPhase (current_phase t)) (last_execution_timestamp t)
             (IsExpired (steady_now now) t) (transaction_failed t || current_phase_failed t))
          get_transaction_status_context);;
        mret SuccessExecutionResult.
End phases.
End engine.
