(* ===== verification/TransactionRemote.v ===== *)
(** * Remotely coordinated transactions

    The handlers of [TransactionEngine] on a transaction that is coordinated
    remotely, as functions on that transaction: every handler changes one
    transaction, appends calls to the outside, and at the end of the
    transaction erases it from the map. The lemmas of this file give these
    functions, and that the handlers are defined. *)

From S2P Require Import Prelude ExecutionResult ErrorCodes Uuid Serialization ConcurrentMap.
From S2P Require Import AutoExpiryMap AutoExpiryView StateMonad TransactionPhases TransactionLog TransactionEngine.
From stdpp Require Import options.

Local Open Scope Z_scope.

(** ** Running the primitives *)

Section running.
  Context {Command : Type}.
  Implicit Types (m : Machine (Command := Command)) (T : Transaction Command) (t : txn_loc).

(** The machine [m] with [T] at [t]. *)
Definition at_txn t T m : Machine :=
  mkMachine (<[t := T]> (transactions m)) (active_transactions_map_ m) (answers m) (actions m).

Definition emitting (acts : list Action) m : Machine := with_actions (actions m ++ acts) m.

Lemma at_txn_id t T m : transactions m !! t = Some T → at_txn t T m = m.
Proof. intros H. destruct m; unfold at_txn; simpl in *. by rewrite insert_id. Qed.

Lemma emitting_nil m : emitting [] m = m.
Proof. destruct m; unfold emitting, with_actions; simpl. by rewrite app_nil_r. Qed.

Lemma emitting_emitting A1 A2 m : emitting A2 (emitting A1 m) = emitting (A1 ++ A2) m.
Proof. unfold emitting, with_actions; simpl. by rewrite app_assoc. Qed.

Lemma bind_run {A B} (x : State Machine A) (f : A → State Machine B) m a m' :
  x m = Some (a, m') → (x ≫= f) m = f a m'.
Proof. intros H. unfold mbind, State_bind. by rewrite H. Qed.

Lemma bind_assoc_run {A B C} (x : State Machine A) (f : A → State Machine B) (g : B → State Machine C) m :
  ((x ≫= f) ≫= g) m = (x ≫= λ a, f a ≫= g) m.
Proof. unfold mbind, State_bind. by destruct (x m) as [[]|]. Qed.

Lemma deref_run t T m : deref t (at_txn t T m) = Some (T, at_txn t T m).
Proof. unfold deref, at_txn; simpl. by rewrite lookup_insert_eq. Qed.

Lemma update_run t T f m : update t f (at_txn t T m) = Some ((), at_txn t (f T) m).
Proof.
  unfold update, modify, at_txn, with_transactions; simpl.
  by rewrite alter_insert_eq.
Qed.

Lemma emit_run t T a m : emit a (at_txn t T m) = Some ((), at_txn t T (emitting [a] m)).
Proof. done. Qed.

Definition finish_actions {Rq Rs} (to : AsyncContext Rq Rs → Action (Command := Command)) (c : AsyncContext Rq Rs) : list Action :=
  match callback c with NoCallback => [] | _ => [to c] end.

Lemma finish_run {Rq Rs} (to : AsyncContext Rq Rs → Action) c t T m :
  finish to c (at_txn t T m) = Some ((), at_txn t T (emitting (finish_actions to c) m)).
Proof. unfold finish, finish_actions. destruct (callback c); try done. by rewrite emitting_nil. Qed.

Lemma ret_run {A} (a : A) m : (mret a : State Machine A) m = Some (a, m).
Proof. done. Qed.

Lemma from_some_run {A} (o : option A) a m : o = Some a → from_some o m = Some (a, m).
Proof. by intros ->. Qed.

Lemma next_answer_run t T m :
  next_answer (at_txn t T m)
  = Some (default SuccessExecutionResult (head (answers m)),
          at_txn t T (with_answers (tail (answers m)) m)).
Proof. unfold next_answer, at_txn; simpl. by destruct (answers m). Qed.

(** ** The map of active transactions *)

Definition active m : gmap Uuid txn_loc := entry <$> entries (active_transactions_map_ m).

Definition machine_ok m : Prop := well_formed_map (active_transactions_map_ m).

Lemma active_Some m i t : machine_ok m → active m !! i = Some t ↔
  ∃ r, entries (active_transactions_map_ m) !! i = Some r ∧ entry r = t.
Proof.
  intros _. unfold active. rewrite lookup_fmap, fmap_Some.
  split; intros (r & ? & ?); exists r; split; congruence.
Qed.

  Variable settings : Settings.
  Variable now : Clock.

Lemma map_find_run m i :
  machine_ok m →
  map_find settings now i m =
    Some (match active m !! i with
          | Some t => (SuccessExecutionResult, Some t)
          | None => (FailureExecutionResult SC_CONCURRENT_MAP_ENTRY_DOES_NOT_EXIST, None)
          end, m).
Proof.
  intros W. unfold map_find, Find, active. rewrite lookup_fmap.
  set (s := active_transactions_map_ m) in *. unfold machine_ok in W. fold s in W.
  destruct (concurrent_map_ s !! i) as [l|] eqn:Hk.
  - rewrite (ConcurrentMap.Find_Some _ _ _ Hk). simpl.
    destruct (pointers_valid _ W _ _ Hk) as [r Hr]. rewrite Hr, (entries_lookup _ _ _ _ Hk Hr). simpl.
    unfold access; simpl. rewrite insert_id by done. destruct m as [? [] ? ?]; done.
  - rewrite (ConcurrentMap.Find_None _ _ Hk). simpl.
    assert (entries s !! i = None) as -> by by apply entries_None. by destruct m.
Qed.

Definition erased i m : Machine := with_active (Erase (active_transactions_map_ m) i).2 m.

Lemma map_erase_run m i : machine_ok m →
  map_erase i m = Some (if active m !! i is Some _ then SuccessExecutionResult
                        else FailureExecutionResult SC_CONCURRENT_MAP_ENTRY_DOES_NOT_EXIST, erased i m).
Proof.
  intros W. unfold map_erase, erased.
  destruct (Erase_implements (active_transactions_map_ m) i W) as (Hr & _ & _).
  destruct (Erase (active_transactions_map_ m) i) as [r a]. simpl in *. rewrite Hr.
  unfold entry_erase, active. rewrite lookup_fmap. by destruct (entries _ !! i).
Qed.

Lemma erased_ok i m : machine_ok m → machine_ok (erased i m).
Proof. intros W. unfold machine_ok, erased; simpl. by apply Erase_implements. Qed.

Lemma active_erased i m : machine_ok m → active (erased i m) = delete i (active m).
Proof.
  intros W. unfold active, erased; cbn [active_transactions_map_ with_active].
  destruct (Erase_implements (active_transactions_map_ m) i W) as (_ & -> & _). unfold entry_erase.
  destruct (entries (active_transactions_map_ m) !! i) eqn:Hi; simpl; [by rewrite fmap_delete|].
  by rewrite delete_id by (by rewrite lookup_fmap, Hi).
Qed.

Lemma map_insert_run m i t :
  machine_ok m →
  ∃ m', map_insert settings now i t m =
    Some (match active m !! i with
          | Some t' => (FailureExecutionResult SC_CONCURRENT_MAP_ENTRY_ALREADY_EXISTS, Some t')
          | None => (SuccessExecutionResult, Some t)
          end, m') ∧
    m' = with_active (active_transactions_map_ m') m ∧ machine_ok m' ∧
    active m' = match active m !! i with Some _ => active m | None => <[i := t]> (active m) end.
Proof.
  intros W. unfold map_insert.
  destruct (Insert_implements (map_config settings) (steady_now now) (active_transactions_map_ m) i t W)
    as (Hr & He & W').
  destruct (Insert _ _ _ _ _) as [[r v] a]. cbn [fst snd] in *. exists (with_active a m).
  unfold entry_insert in Hr, He. unfold active, machine_ok, with_active; cbn [active_transactions_map_].
  rewrite He, !lookup_fmap. destruct (entries (active_transactions_map_ m) !! i) as [e|] eqn:Hi; simpl in *.
  - simplify_eq. split_and!; [done|done|done|]. by rewrite insert_id.
  - simplify_eq. split_and!; [done|done|done|]. by rewrite fmap_insert.
Qed.

End running.

(** ** The handlers as functions on the transaction *)

Section functions.
  Context {Command : Type}.
  Implicit Types (T : Transaction Command).
  Variable now : Clock.

(** The number of commands. *)
Definition txn_commands T : list Command := commands (request (context T)).

(** What the next [n] calls answer. *)
Fixpoint take_answers (n : nat) (rs : list ExecutionResult) : list ExecutionResult :=
  match n with
  | O => []
  | S n => default SuccessExecutionResult (head rs) :: take_answers n (tail rs)
  end.

Definition refused (i : nat) (r : ExecutionResult) T : Transaction Command :=
  fail_phase r (if bool_decide (status r = Failure) then enqueue_failed_index i T else T).

(** The commands from index [i] answer [rs]. *)
Fixpoint commands_answered (i : nat) (rs : list ExecutionResult) T : Transaction Command :=
  match rs with
  | [] => T
  | r :: rs => commands_answered (S i) rs (if Successful r then T else refused i r T)
  end.

Fixpoint command_calls (t : txn_loc) (i : nat) (p : TransactionPhase) (cs : list Command)
    (rs : list ExecutionResult) : list Action :=
  match cs, rs with
  | c :: cs, r :: rs => CallCommand t i p c r :: command_calls t (S i) p cs rs
  | _, _ => []
  end.

Fixpoint refusals (rs : list ExecutionResult) : Z :=
  match rs with
  | [] => 0
  | r :: rs => if Successful r then refusals rs else 1 + refusals rs
  end.

(** The phases that call the commands. *)
Definition calls_commands (p : TransactionPhase) : bool :=
  match p with
  | TransactionPhase.Begin | TransactionPhase.Prepare | TransactionPhase.Commit
  | TransactionPhase.CommitNotify | TransactionPhase.AbortNotify | TransactionPhase.End => true
  | _ => false
  end.

(** [take_phase_outcome] on the transaction. *)
Definition outcome_taken T : Transaction Command :=
  if current_phase_failed T then
    set_phase_outcome false SuccessExecutionResult
      (let T := set_failed_indices [] T in
       if transaction_failed T then T else set_outcome true (current_phase_execution_result T) T)
  else T.

Definition failed_indices T : list nat :=
  if current_phase_failed T then current_phase_failed_command_indices T else [].

(** The end of the transaction: the transaction, the calls, and whether it is
    erased. *)
Definition ended T : Transaction Command * list Action * bool :=
  let T := set_last_execution_timestamp (wall_now now) T in
  let c := answer (current_phase_execution_result T)
             (mkPhaseResponse (last_execution_timestamp T) [] []) (remote_phase_context T) in
  (set_remote_phase_context c T, finish_actions FinishPhase c,
   Successful (current_phase_execution_result T)).

(** The coordinator is told the result of a phase and gets the lock back. *)
Definition coordinator_answered (indices : list nat) (r : ExecutionResult) T
  : Transaction Command * list Action :=
  let failed_commands := omap (λ i, txn_commands T !! i) indices in
  if TransactionPhase.eqb (current_phase T) TransactionPhase.Begin then
    let c := answer r (mkTransactionResponse (id T) (last_execution_timestamp T) indices failed_commands)
               (context T) in
    (set_waiting true (set_context c T), finish_actions FinishTransaction c)
  else
    let c := answer r (mkPhaseResponse (last_execution_timestamp T) indices failed_commands)
               (remote_phase_context T) in
    (set_waiting true (set_remote_phase_context c T), finish_actions FinishPhase c).

(** The end of another phase. *)
Definition advanced (p : TransactionPhase) T : Transaction Command * list Action :=
  let r := current_phase_execution_result T in
  coordinator_answered (failed_indices T) r
    (set_last_execution_timestamp (wall_now now)
       (set_current_phase (TransactionPhaseManager.ProceedToNextPhase p r) (outcome_taken T))).

Definition proceeded (p : TransactionPhase) T : Transaction Command * list Action * bool :=
  if TransactionPhase.eqb p TransactionPhase.End then ended T
  else (advanced p T, false).

(** The commands are called and answer [rs]: the phase is over when none
    accepted. *)
Definition commands_called (t : txn_loc) (p : TransactionPhase) (rs : list ExecutionResult) T
  : Transaction Command * list Action * bool :=
  let n := u64 (Z.of_nat (length (txn_commands T))) in
  let calls := command_calls t 0 p (txn_commands T) rs in
  let T := commands_answered 0 rs (set_pending n T) in
  if 0 <? refusals rs then
    let T' := set_pending (u64 (n - refusals rs)) T in
    if n =? refusals rs then
      let '(T', acts, gone) := proceeded p T' in (T', calls ++ acts, gone)
    else (T', calls, false)
  else (T, calls, false).

(** A command that was called answers later. *)
Definition command_finished (i : nat) (p : TransactionPhase) (r : ExecutionResult) T
  : Transaction Command * list Action * bool :=
  match status r with
  | Retry => (T, [], false)
  | s =>
      let T := if bool_decide (s = Failure) then fail_phase r (enqueue_failed_index i T) else T in
      let n := pending_callbacks T in
      let T := set_pending (u64 (n - 1)) T in
      if n =? 1 then proceeded p T else (T, [], false)
  end.

(** The transaction is locked for a handler that runs phase [p]. *)
Record locked_at (p : TransactionPhase) T : Prop := {
  locked_remote : is_coordinated_remotely T = true;
  locked_waiting : is_waiting_for_remote T = false;
  locked_phase : current_phase T = p;
  locked_indices : Forall (λ i, i < length (txn_commands T))%nat (current_phase_failed_command_indices T);
}.

(** ** Fields the functions keep *)

Lemma commands_answered_fixed i rs T :
  id (commands_answered i rs T) = id T ∧ context (commands_answered i rs T) = context T ∧
  current_phase (commands_answered i rs T) = current_phase T ∧
  is_coordinated_remotely (commands_answered i rs T) = is_coordinated_remotely T ∧
  is_waiting_for_remote (commands_answered i rs T) = is_waiting_for_remote T ∧
  pending_callbacks (commands_answered i rs T) = pending_callbacks T.
Proof.
  revert i T. induction rs as [|r rs IH]; intros i T; [done|]. simpl.
  destruct (IH (S i) (if Successful r then T else refused i r T)) as (-> & -> & -> & -> & -> & ->).
  destruct (Successful r); [done|]. unfold refused, fail_phase, enqueue_failed_index.
  destruct (bool_decide (status r = Failure)), (current_phase_failed T) eqn:?; repeat case_match; by simplify_eq/=.
Qed.

Lemma take_answers_length n rs : length (take_answers n rs) = n.
Proof. revert rs. induction n as [|n IH]; intros rs; simpl; [done|]. by rewrite IH. Qed.

End functions.

Arguments map_find : simpl never.

Ltac run_step :=
  first
    [ rewrite bind_assoc_run
    | erewrite bind_run;
      [|first [ apply deref_run | apply update_run | apply emit_run | apply finish_run
              | apply next_answer_run | apply ret_run | (apply from_some_run; eassumption) ]]
    | progress cbv beta iota zeta | progress cbn [negb andb orb] ].

(** ** The handlers are these functions *)

Section handlers.
  Context {Command : Type}.
  Context `{!ProtoMessage TransactionPhaseLog_1_0} `{!ProtoMessage TransactionLog_1_0}
    `{!ProtoMessage TransactionEngineLog_1_0} `{!ProtoMessage TransactionEngineLog}.
  Implicit Types (m : Machine (Command := Command)) (T : Transaction Command) (t : txn_loc).
  Variable now : Clock.

(** The machine after a handler on the transaction at [t]. *)
Definition after_handler t (outcome : Transaction Command * list Action * bool) m : Machine :=
  let '(T, acts, gone) := outcome in
  let m' := at_txn t T (emitting acts m) in
  if (gone : bool) then erased (id T) m' else m'.

Lemma lock_run t T m :
  is_coordinated_remotely T = true → is_waiting_for_remote T = true →
  LockRemotelyCoordinatedTransaction t (at_txn t T m)
  = Some (SuccessExecutionResult, at_txn t (set_waiting false T) m).
Proof. intros Hr Hw. unfold LockRemotelyCoordinatedTransaction. run_step. rewrite Hr, Hw. by repeat run_step. Qed.

Lemma unlock_run t T m :
  is_coordinated_remotely T = true → is_waiting_for_remote T = false →
  UnlockRemotelyCoordinatedTransaction t (at_txn t T m)
  = Some (SuccessExecutionResult, at_txn t (set_waiting true T) m).
Proof. intros Hr Hw. unfold UnlockRemotelyCoordinatedTransaction. run_step. rewrite Hr, Hw. by repeat run_step. Qed.

Lemma dispatch_commands_run t p cs : calls_commands p = true → ∀ i T m,
  dispatch_commands i p cs t (at_txn t T m) =
  let rs := take_answers (length cs) (answers m) in
  Some (refusals rs, at_txn t (commands_answered i rs T)
    (emitting (command_calls t i p cs rs) (with_answers (drop (length cs) (answers m)) m))).
Proof.
  intros Hp. induction cs as [|c cs IH]; intros i T m; cbn zeta.
  { simpl. rewrite drop_0, emitting_nil. by destruct m. }
  cbn [dispatch_commands length take_answers command_calls commands_answered refusals].
  set (r := default SuccessExecutionResult (head (answers m))).
  set (m1 := emitting [CallCommand t i p c r] (with_answers (tail (answers m)) m)).
  assert (DispatchDistributedCommand i p c t (at_txn t T m) = Some (r, at_txn t T m1)) as Hd.
  { unfold DispatchDistributedCommand. destruct p; try done; by repeat run_step. }
  rewrite (bind_run _ _ _ _ _ Hd). cbv beta.
  assert (∀ T', dispatch_commands (S i) p cs t (at_txn t T' m1) =
    Some (refusals (take_answers (length cs) (tail (answers m))),
      at_txn t (commands_answered (S i) (take_answers (length cs) (tail (answers m))) T')
        (emitting (CallCommand t i p c r :: command_calls t (S i) p cs
                     (take_answers (length cs) (tail (answers m))))
           (with_answers (drop (S (length cs)) (answers m)) m)))) as Hrest.
  { intros T'. rewrite IH. cbn zeta. subst m1. cbn [answers emitting with_answers with_actions].
    do 3 f_equal. unfold emitting, with_answers, with_actions; simpl. rewrite <- app_assoc.
    f_equal. by destruct (answers m) as [|? []], cs. }
  destruct (Successful r) eqn:Hs; simpl; [by rewrite Hrest|].
  unfold refused. destruct (bool_decide (status r = Failure)); repeat run_step; simpl.
  - by rewrite (bind_run _ _ _ _ _ (Hrest _)).
  - by rewrite (bind_run _ _ _ _ _ (Hrest _)).
Qed.

Lemma failed_commands_run T indices :
  Forall (λ i, i < length (txn_commands T))%nat indices →
  mapM (λ i, txn_commands T !! i) indices = Some (omap (λ i, txn_commands T !! i) indices).
Proof.
  induction 1 as [|i indices Hi _ IH]; [done|]. simpl.
  apply lookup_lt_is_Some in Hi as [c Hc]. rewrite Hc. simpl. by rewrite IH.
Qed.

Lemma outcome_taken_fixed T :
  id (outcome_taken T) = id T ∧ context (outcome_taken T) = context T ∧
  current_phase (outcome_taken T) = current_phase T ∧
  is_coordinated_remotely (outcome_taken T) = is_coordinated_remotely T ∧
  is_waiting_for_remote (outcome_taken T) = is_waiting_for_remote T ∧
  remote_phase_context (outcome_taken T) = remote_phase_context T.
Proof.
  unfold outcome_taken. destruct (current_phase_failed T); [|done].
  cbn [transaction_failed set_failed_indices]. by destruct (transaction_failed T).
Qed.

Lemma take_phase_outcome_run t T m :
  take_phase_outcome t (at_txn t T m)
  = Some ((failed_indices T, current_phase_execution_result T), at_txn t (outcome_taken T) m).
Proof.
  unfold take_phase_outcome, failed_indices, outcome_taken. repeat run_step.
  destruct (current_phase_failed T) eqn:Hf; [|done]. by repeat run_step.
Qed.

Lemma answer_coordinator_run t indices r T m :
  is_coordinated_remotely T = true → is_waiting_for_remote T = false →
  Forall (λ i, i < length (txn_commands T))%nat indices →
  answer_coordinator t indices r (at_txn t T m)
  = Some ((), at_txn t (coordinator_answered indices r T).1
                (emitting (coordinator_answered indices r T).2 m)).
Proof.
  intros Hr Hw Hi. unfold answer_coordinator, coordinator_answered. run_step.
  erewrite bind_run; [|apply from_some_run; by apply failed_commands_run]. cbv beta zeta.
  destruct (TransactionPhase.eqb (current_phase T) TransactionPhase.Begin).
  - run_step. erewrite bind_run; [|by apply unlock_run]. cbv beta. by rewrite finish_run.
  - repeat run_step. erewrite bind_run; [|by apply unlock_run]. done.
Qed.

(** The end of a phase, on a transaction the handler has locked. *)
Lemma proceed_once_run proceed p t T m :
  locked_at p T → machine_ok m →
  proceed_once now proceed p t (at_txn t T m) = Some ((), after_handler t (proceeded now p T) m).
Proof.
  intros [Hr Hw Hp Hi] Hok. unfold proceed_once, proceeded.
  destruct (TransactionPhase.eqb p TransactionPhase.End) eqn:Hend.
  { unfold finish_transaction, ended. repeat run_step.
    change (is_coordinated_remotely (set_last_execution_timestamp (wall_now now) T))
      with (is_coordinated_remotely T). rewrite Hr.
    repeat run_step. cbn [result answer].
    destruct (result_eqb (current_phase_execution_result (set_last_execution_timestamp (wall_now now) T))
                SuccessExecutionResult) eqn:Hs.
    - erewrite bind_run; [|apply map_erase_run; exact Hok]. cbv beta. rewrite ret_run.
      unfold after_handler. do 2 f_equal.
      change (Successful (current_phase_execution_result (set_last_execution_timestamp (wall_now now) T)))
        with (result_eqb (current_phase_execution_result (set_last_execution_timestamp (wall_now now) T))
                SuccessExecutionResult). by rewrite Hs.
    - rewrite ret_run. unfold after_handler. do 2 f_equal.
      change (Successful (current_phase_execution_result (set_last_execution_timestamp (wall_now now) T)))
        with (result_eqb (current_phase_execution_result (set_last_execution_timestamp (wall_now now) T))
                SuccessExecutionResult). by rewrite Hs. }
  run_step. erewrite bind_run; [|apply take_phase_outcome_run]. repeat run_step.
  destruct (outcome_taken_fixed T) as (Hid & Hctx & Hph & Hr' & Hw' & Hrc).
  rewrite Hph, Hp, TransactionPhase.eqb_refl. repeat run_step. rewrite Hr', Hr.
  rewrite answer_coordinator_run; [|exact (eq_trans Hr' Hr)|exact (eq_trans Hw' Hw)|].
  - unfold after_handler, advanced. by destruct (coordinator_answered _ _ _).
  - unfold failed_indices. destruct (current_phase_failed T); [|constructor].
    unfold txn_commands in *. cbn [context set_last_execution_timestamp set_current_phase]. by rewrite Hctx.
Qed.

Lemma ProceedToNextPhase_run p t T m :
  locked_at p T → machine_ok m →
  ProceedToNextPhase now p t (at_txn t T m) = Some ((), after_handler t (proceeded now p T) m).
Proof. apply proceed_once_run. Qed.

(** *** Handlers *)

Lemma commands_answered_indices i rs T :
  (i + length rs ≤ length (txn_commands T))%nat →
  Forall (λ i, i < length (txn_commands T))%nat (current_phase_failed_command_indices T) →
  Forall (λ i, i < length (txn_commands T))%nat
    (current_phase_failed_command_indices (commands_answered i rs T)).
Proof.
  revert i T. induction rs as [|r rs IH]; intros i T Hlen Hf; [done|]. simpl in *.
  assert (txn_commands (if Successful r then T else refused i r T) = txn_commands T) as Hc.
  { destruct (Successful r); [done|]. unfold txn_commands, refused, fail_phase, enqueue_failed_index.
    repeat case_match; by simplify_eq/=. }
  rewrite <- Hc. apply IH; rewrite Hc; [lia|]. destruct (Successful r); [done|].
  unfold refused, fail_phase, enqueue_failed_index.
  assert (i < length (txn_commands T))%nat by lia.
  repeat case_match; simpl; try done; by apply Forall_app_2; [|constructor].
Qed.

Lemma locked_pending p n T : locked_at p T → locked_at p (set_pending n T).
Proof. by intros []. Qed.

Lemma locked_answered p i rs T :
  (i + length rs ≤ length (txn_commands T))%nat → locked_at p T → locked_at p (commands_answered i rs T).
Proof.
  intros Hlen [Hr Hw Hp Hi]. destruct (commands_answered_fixed i rs T) as (_ & Hc & Hp' & Hr' & Hw' & _).
  constructor; [by rewrite Hr'|by rewrite Hw'|by rewrite Hp'|]. unfold txn_commands. rewrite Hc.
  by apply commands_answered_indices.
Qed.

Lemma ExecuteDistributedPhase_run p t T m :
  calls_commands p = true → locked_at p T → machine_ok m →
  let rs := take_answers (length (txn_commands T)) (answers m) in
  ∃ rest, ExecuteDistributedPhase (ProceedToNextPhase now) p t (at_txn t T m)
    = Some ((), after_handler t (commands_called now t p rs T) (with_answers rest m)).
Proof.
  intros Hp HT Hok rs. unfold ExecuteDistributedPhase, commands_called. repeat run_step.
  set (n := u64 (Z.of_nat (length (txn_commands T)))). fold (txn_commands T).
  erewrite bind_run; [|by apply dispatch_commands_run]. cbv beta zeta.
  change (answers m) with (answers m) in *. fold rs.
  set (T1 := commands_answered 0 rs (set_pending n T)).
  destruct (commands_answered_fixed 0 rs (set_pending n T)) as (_ & _ & _ & _ & _ & Hpend).
  exists (drop (length (txn_commands T)) (answers m)). destruct (0 <? refusals rs); [|done].
  fold n T1. repeat run_step. change (pending_callbacks T1 = n) in Hpend. rewrite Hpend.
  destruct (n =? refusals rs); [|done].
  rewrite ProceedToNextPhase_run; [| |exact Hok].
  - destruct (proceeded now p _) as [[T' acts] gone]. unfold after_handler.
    by rewrite emitting_emitting.
  - apply locked_pending, locked_answered; [|by apply locked_pending].
    subst rs. rewrite take_answers_length. done.
Qed.

Lemma OnPhaseCallback_run i p r t T m :
  locked_at p T → (i < length (txn_commands T))%nat → machine_ok m →
  OnPhaseCallback now i p r t (at_txn t T m)
  = Some ((), after_handler t (command_finished now i p r T) m).
Proof.
  intros HT Hi Hok. unfold OnPhaseCallback, command_finished.
  assert (∀ T', locked_at p T' → (if pending_callbacks T' =? 1 then ProceedToNextPhase now p t else mret ())
      (at_txn t (set_pending (u64 (pending_callbacks T' - 1)) T') m) = Some ((), after_handler t
        (if pending_callbacks T' =? 1
         then proceeded now p (set_pending (u64 (pending_callbacks T' - 1)) T')
         else (set_pending (u64 (pending_callbacks T' - 1)) T', [], false)) m)) as Hrest.
  { intros T' HT'. destruct (pending_callbacks T' =? 1).
    - by apply ProceedToNextPhase_run; [apply locked_pending|].
    - unfold after_handler. by rewrite emitting_nil. }
  assert (locked_at p (fail_phase r (enqueue_failed_index i T))) as HT'.
  { destruct HT as [Hr Hw Hp Hf]. unfold fail_phase, enqueue_failed_index.
    constructor; repeat case_match; simpl in *; try done; by apply Forall_app_2; [|constructor]. }
  destruct (status r); cbn [bool_decide decide_rel].
  - rewrite bool_decide_false by done. repeat run_step. by apply Hrest.
  - rewrite bool_decide_true by done. repeat run_step. by apply Hrest.
  - unfold after_handler. by rewrite emitting_nil, ret_run.
Qed.

End handlers.

(** *** Phases asked for *)

Section requests.
  Context `{!EngineLogMessages} `{!EngineLogLaws}.
  Context {Command : Type} `{!TransactionCommandSerializerInterface Command}
    `{!TransactionCommandSerializerLaws Command}.
  Implicit Types (m : Machine (Command := Command)) (T : Transaction Command) (t : txn_loc).
  Variable settings : Settings.
  Variable now : Clock.
  #[local] Set Default Proof Using "Type*".

(** The state of the transaction can be written to the journal. *)
Definition loggable T : Prop :=
  valid_uuid (id T) ∧ is_u64 (status_code (transaction_execution_result T)).

(** The state of a transaction is logged. *)
Lemma LogState_run t cb T m d :
  SerializeState T = Some (SuccessExecutionResult, d) →
  LogState t cb (at_txn t T m) = Some (SuccessExecutionResult, at_txn t T (emitting [DispatchLog d cb] m)).
Proof. intros Hd. unfold LogState. repeat run_step. done. Qed.

(** The log a phase other than the first starts with, and its callback. *)
Definition phase_log_callback (p : TransactionPhase) (t : txn_loc) : LogCallback :=
  match p with
  | TransactionPhase.Committed | TransactionPhase.Aborted => OnLogStateAndProceedToNextPhase p t
  | _ => OnLogStateAndExecuteDistributedPhase p t
  end.

(** What a request does to a locked transaction. *)
Definition phase_accepted (rq : TransactionPhaseRequest) T : bool :=
  (last_execution_timestamp T =? phase_last_execution_timestamp rq) &&
  phase_accepts (transaction_execution_phase rq) (current_phase T).

Definition phase_requested (c : PhaseContext Command) T : Transaction Command :=
  let requested_phase := transaction_execution_phase (request c) in
  let T := set_remote_phase_context c
             (set_current_phase (requested_phase_of requested_phase (current_phase T)) T) in
  match requested_phase with
  | TransactionExecutionPhase.Abort =>
      set_phase_outcome false SuccessExecutionResult
        (set_outcome true (FailureExecutionResult SC_TRANSACTION_MANAGER_TRANSACTION_IS_ABORTED) T)
  | _ => T
  end.

Inductive phase_run (c : PhaseContext Command) (t : txn_loc) T (as_ : list ExecutionResult)
  : ExecutionResult → Transaction Command * list Action * bool → Prop :=
| phase_refused r :
    phase_accepted (request c) T = false → Successful r = false →
    phase_run c t T as_ r (set_waiting true T, [], false)
| phase_begun :
    phase_accepted (request c) T = true → current_phase T = TransactionPhase.Begin →
    transaction_execution_phase (request c) = TransactionExecutionPhase.Begin →
    phase_run c t T as_ SuccessExecutionResult
      (commands_called now t TransactionPhase.Begin (take_answers (length (txn_commands T)) as_)
         (phase_requested c T))
| phase_logged d :
    phase_accepted (request c) T = true →
    transaction_execution_phase (request c) ≠ TransactionExecutionPhase.Begin →
    SerializeState (phase_requested c T) = Some (SuccessExecutionResult, d) →
    phase_run c t T as_ SuccessExecutionResult
      (phase_requested c T,
       [DispatchLog d (OnLogStateAndExecuteDistributedPhase (current_phase (phase_requested c T)) t)], false).

Definition moved (c : PhaseContext Command) T : Transaction Command :=
  set_remote_phase_context c (set_current_phase
    (requested_phase_of (transaction_execution_phase (request c)) (current_phase T)) T).

Lemma run_requested_phase_run c t T m p :
  locked_at p T → machine_ok m → phase_accepted (request c) T = true → loggable T →
  ∃ outcome rest,
    run_requested_phase now (transaction_execution_phase (request c)) t (at_txn t (moved c T) m)
      = Some (SuccessExecutionResult, after_handler t outcome (with_answers rest m)) ∧
    phase_run c t T (answers m) SuccessExecutionResult outcome.
Proof.
  intros [Hr Hw Hp Hi] Hok Hacc [Hid Hcode]. pose proof Hacc as [_ Hph]%andb_prop.
  assert (∃ d, SerializeState (phase_requested c T) = Some (SuccessExecutionResult, d)) as [d Hd].
  { destruct (SerializeState_written (phase_requested c T)) as (d & Hd & _); [| |by exists d];
      unfold phase_requested; by destruct (transaction_execution_phase (request c)). }
  unfold phase_accepts in Hph. apply andb_prop in Hph as [_ Hph].
  pose proof (phase_logged c t T (answers m) d Hacc) as Hlogged. unfold phase_requested in Hd, Hlogged.
  assert (∀ T' (x : State Machine ()) cb,
    x = (LogState t cb;; mret ()) → SerializeState T' = Some (SuccessExecutionResult, d) →
    (x;; mret SuccessExecutionResult) (at_txn t T' m) =
      Some (SuccessExecutionResult, after_handler t (T', [DispatchLog d cb], false)
                                      (with_answers (answers m) m))) as Hlog.
  { intros T' x cb -> Hser. run_step. erewrite bind_run; [|by apply LogState_run].
    repeat run_step. by destruct m. }
  destruct (transaction_execution_phase (request c)) eqn:Hreq; cbn [run_requested_phase]; try done.
  1:{ apply TransactionPhase.eqb_spec in Hph. unfold BeginTransaction.
      destruct (ExecuteDistributedPhase_run now TransactionPhase.Begin t (moved c T) m) as [rest Hrun];
        [done|constructor; try done; unfold moved; by rewrite Hreq|done|].
      eexists _, rest. split; [by erewrite bind_run; [|exact Hrun]|].
      replace (moved c T) with (phase_requested c T) by (unfold phase_requested, moved; by rewrite Hreq).
      replace (txn_commands (phase_requested c T)) with (txn_commands T)
        by (unfold phase_requested; by rewrite Hreq).
      by apply phase_begun. }
  all: try (apply TransactionPhase.eqb_spec in Hph).
  all: eexists _, (answers m); split; [|apply Hlogged; done].
  all: unfold moved; rewrite Hreq; repeat run_step; apply Hlog; [|done].
  all: cbn [current_phase requested_phase_of set_remote_phase_context set_current_phase set_outcome
            set_phase_outcome]; by rewrite ?Hph.
Qed.

Lemma execute_or_unlock_run c t T m p :
  locked_at p T → machine_ok m → active m !! id T = Some t → loggable T →
  ∃ r outcome rest,
    execute_or_unlock settings now t c (at_txn t T m)
      = Some (r, after_handler t outcome (with_answers rest m)) ∧
    phase_run c t T (answers m) r outcome ∧ (phase_accepted (request c) T = false → rest = answers m).
Proof.
  intros HT Hok Hact Hlog. pose proof HT as [Hr Hw Hp Hi].
  unfold execute_or_unlock, ExecutePhaseInternal. repeat run_step. rewrite Hw, Hr. repeat run_step.
  erewrite bind_run; [|apply map_find_run; exact Hok]. cbv beta.
  change (active (at_txn t T m)) with (active m). rewrite Hact. repeat run_step.
  change (default t (Some t)) with t. cbn [Successful negb].
  change (negb (Successful SuccessExecutionResult)) with false. repeat run_step.
  destruct (phase_accepted (request c) T) eqn:Hacc.
  2:{ assert (∀ r, Successful r = false → ∃ r' outcome rest,
        ((if negb (Successful r) then UnlockRemotelyCoordinatedTransaction t;; mret () else mret ());; mret r)
          (at_txn t T m) = Some (r', after_handler t outcome (with_answers rest m)) ∧
        phase_run c t T (answers m) r' outcome ∧ (false = false → rest = answers m)) as Hrefuse.
      { intros r Hs. exists r, (set_waiting true T, [], false), (answers m). split; [|split; [by constructor|done]].
        rewrite Hs. repeat run_step. erewrite bind_run; [|by apply unlock_run]. repeat run_step.
        unfold after_handler. rewrite emitting_nil. by destruct m. }
      unfold phase_accepted in Hacc.
      destruct (last_execution_timestamp T =? phase_last_execution_timestamp (request c));
        simpl in Hacc; rewrite ?Hacc; repeat run_step; by apply Hrefuse. }
  pose proof Hacc as [Hts Hph]%andb_prop. rewrite Hts. cbn [negb]. rewrite Hph. repeat run_step.
  destruct (run_requested_phase_run c t T m p HT Hok Hacc Hlog) as (outcome & rest & Hrun & HP).
  exists SuccessExecutionResult, outcome, rest. split; [|done].
  erewrite bind_run; [|exact Hrun]. repeat run_step. done.
Qed.

(** A transaction is started: it is new, or the map holds one. *)
Lemma InitializeTransaction_run c m :
  machine_ok m →
  request_is_coordinated_remotely (request c) &&
    (null_or_empty (request_transaction_secret (request c)) ||
     null_or_empty (request_transaction_origin (request c))) = false →
  let t := fresh (dom (transactions m)) in
  let i := request_transaction_id (request c) in
  ∃ m', InitializeTransaction settings now c m =
    Some (match active m !! i with
          | None => (SuccessExecutionResult, t)
          | Some t' =>
              (if skip_duplicate_transaction_in_recovery_ settings && is_journal_recovery (request c)
               then SuccessExecutionResult
               else FailureExecutionResult SC_TRANSACTION_MANAGER_TRANSACTION_ALREADY_EXISTS, t')
          end, m') ∧
    transactions m' = <[t := new_transaction settings now c]> (transactions m) ∧
    answers m' = answers m ∧ actions m' = actions m ∧ machine_ok m' ∧
    active m' = match active m !! i with Some _ => active m | None => <[i := t]> (active m) end.
Proof using settings now.
  intros Hok Hrq t i. unfold InitializeTransaction. rewrite Hrq.
  set (m1 := with_transactions (<[t := new_transaction settings now c]> (transactions m)) m).
  destruct (map_insert_run settings now m1 i t Hok) as (m' & Hins & Hm' & Hok' & Hact').
  change (active m1) with (active m) in *. exists m'.
  erewrite (bind_run _ _ m t m) by done. cbv beta.
  erewrite (bind_run _ _ m () m1) by done. cbv beta.
  erewrite bind_run; [|exact Hins]. rewrite Hm'.
  split; [by destruct (active m !! i)|]. rewrite <- Hm'. split_and!; [..|done|done]; by rewrite Hm'.
Qed.

End requests.
