(* ===== verification/TransactionRecovery.v ===== *)
(** * Resolving expired transactions

    Models the part of [cc/core/transaction_manager/src/transaction_engine.cc]
    that the collector of the active transactions starts: an expired transaction
    that is coordinated here is cancelled when it can be, and one that is
    coordinated remotely is brought to the phase of its remote participant, or
    both are moved on. *)

From S2P Require Import Prelude ExecutionResult ErrorCodes Uuid AutoExpiryMap Serialization TransactionPhases.
From S2P Require Import TransactionLog StateMonad TransactionEngine.
From stdpp Require Import options.

Local Open Scope Z_scope.

Section resolution.
  Context {Command : Type}.
  Context `{!ProtoMessage TransactionPhaseLog_1_0} `{!ProtoMessage TransactionLog_1_0}
    `{!ProtoMessage TransactionEngineLog_1_0} `{!ProtoMessage TransactionEngineLog}.
  Variable settings : Settings.
  Variable now : Clock.

Abbreviation Engine := (State (Machine (Command := Command))).

(** A request for a phase of [t], made by the engine itself. *)
Definition phase_request (t : Transaction Command) (phase : TransactionExecutionPhase) (timestamp : Z)
  : TransactionPhaseRequest :=
  mkPhaseRequest (id t) phase (transaction_secret t) (transaction_origin t) timestamp.

Definition phase_context (rq : TransactionPhaseRequest) : PhaseContext Command :=
  NewContext rq IgnoreCallback.

(** ** The remote participant does not know the transaction *)

Definition OnRemoteTransactionNotFound (transaction : txn_loc) : Engine () :=
  t ← deref transaction;
  let current := TransactionPhase.eqb (current_phase t) in
  if negb (current TransactionPhase.Begin || current TransactionPhase.Prepare ||
           current TransactionPhase.Aborted || current TransactionPhase.Committed ||
           current TransactionPhase.End) then
    update transaction (set_blocked true);;
    UnlockRemotelyCoordinatedTransaction transaction;; mret ()
  else
    execute_or_unlock settings now transaction
      (phase_context (phase_request t TransactionExecutionPhase.End (last_execution_timestamp t)));;
    mret ().

(** ** The remote participant is ahead *)

(** The phase to run here: the current one, or an abort when the participant
    aborted. *)
Definition roll_forward_phase (current_phase : TransactionPhase) (next_phase : TransactionExecutionPhase)
    (next_phase_has_failure : bool) : TransactionExecutionPhase :=
  let transaction_execution_phase := ToTransactionExecutionPhase current_phase in
  if negb (TransactionExecutionPhase.eqb transaction_execution_phase TransactionExecutionPhase.End) then
    if TransactionExecutionPhase.eqb next_phase TransactionExecutionPhase.Abort ||
       (TransactionExecutionPhase.eqb next_phase TransactionExecutionPhase.End && next_phase_has_failure)
    then TransactionExecutionPhase.Abort
    else transaction_execution_phase
  else transaction_execution_phase.

Definition RollForwardLocalTransaction (transaction : txn_loc) (next_phase : TransactionExecutionPhase)
    (next_phase_has_failure : bool) : Engine ExecutionResult :=
  t ← deref transaction;
  execute_or_unlock settings now transaction
    (phase_context (phase_request t
       (roll_forward_phase (current_phase t) next_phase next_phase_has_failure)
       (last_execution_timestamp t))).

(** ** Both are in the same phase *)

Definition RollForwardLocalAndRemoteTransactions (transaction : txn_loc)
    (last_execution_timestamp_remote : Z) : Engine ExecutionResult :=
  t ← deref transaction;
  let phase := if CanCancel (current_phase t) then TransactionExecutionPhase.Abort
               else ToTransactionExecutionPhase (current_phase t) in
  emit (DispatchExecutePhase transaction (phase_request t phase last_execution_timestamp_remote));;
  mret SuccessExecutionResult.

Definition OnRollForwardRemoteTransactionCallback (transaction : txn_loc)
    (rq : TransactionPhaseRequest) (execution_result : ExecutionResult) : Engine () :=
  if negb (Successful execution_result) then
    UnlockRemotelyCoordinatedTransaction transaction;; mret ()
  else
    t ← deref transaction;
    execute_or_unlock settings now transaction
      (phase_context (phase_request t (transaction_execution_phase rq) (last_execution_timestamp t)));;
    mret ().

(** ** The status of the remote participant *)

(** The answer to [GetTransactionStatus]; the response is there when the result
    is a success. *)
Definition OnGetRemoteTransactionStatusCallback (transaction : txn_loc)
    (execution_result : ExecutionResult) (response : option GetTransactionStatusResponse) : Engine () :=
  let unlock := UnlockRemotelyCoordinatedTransaction transaction;; mret () in
  if negb (Successful execution_result) then
    if result_eqb execution_result (FailureExecutionResult SC_TRANSACTION_MANAGER_TRANSACTION_NOT_FOUND) ||
       result_eqb execution_result (FailureExecutionResult SC_HTTP2_CLIENT_HTTP_STATUS_NOT_FOUND) then
      OnRemoteTransactionNotFound transaction
    else unlock
  else
    rs ← from_some response;
    if negb (is_expired rs) then unlock
    else
      let remote_transaction_phase := ToTransactionPhase (status_transaction_execution_phase rs) in
      t ← deref transaction;
      if negb (LocalAndRemoteTransactionsInSync (current_phase t) remote_transaction_phase) then
        update transaction (set_blocked true);; unlock
      else if TransactionPhase.ltb remote_transaction_phase (current_phase t) then unlock
      else if current_phase_failed t then unlock
      else if TransactionPhase.ltb (current_phase t) remote_transaction_phase then
        RollForwardLocalTransaction transaction (status_transaction_execution_phase rs) (has_failure rs);;
        mret ()
      else if TransactionPhase.eqb (current_phase t) remote_transaction_phase then
        RollForwardLocalAndRemoteTransactions transaction (status_last_execution_timestamp rs);; mret ()
      else mret ().

(** ** The collector *)

Definition ResolveTransaction (transaction : txn_loc) : Engine ExecutionResult :=
  t ← deref transaction;
  if negb (IsExpired (steady_now now) t) || blocked t ||
     negb (transaction_resolution_with_remote_enabled_ settings) then mret SuccessExecutionResult
  else if negb (is_coordinated_remotely t) then
    (if CanCancel (current_phase t) then
       update transaction (set_phase_outcome true
         (FailureExecutionResult SC_TRANSACTION_MANAGER_TRANSACTION_TIMEOUT))
     else mret ());;
    ProceedToNextPhase now (current_phase t) transaction;;
    mret SuccessExecutionResult
  else if 0 <? pending_callbacks t then
    mret (FailureExecutionResult SC_TRANSACTION_MANAGER_TRANSACTION_HAS_PENDING_CALLBACKS)
  else
    execution_result ← LockRemotelyCoordinatedTransaction transaction;
    if negb (Successful execution_result) then mret execution_result
    else
      emit (DispatchGetTransactionStatus transaction
              (mkStatusRequest (id t) (transaction_secret t) (transaction_origin t)));;
      mret SuccessExecutionResult.

(** The answer to the collector, which never removes an entry, then the
    resolution. *)
Definition OnBeforeGarbageCollection (transaction : txn_loc) : Engine bool :=
  ResolveTransaction transaction;; mret false.

End resolution.

(** ** Recovery of the transaction engine

    Models the part of [cc/core/transaction_manager/src/transaction_engine.cc]
    that restores the active transactions: the callback the journal calls with
    each log ([OnJournalServiceRecoverCallback]), the checkpoint, and the part of
    [Run] that resumes the transactions that were recovered. *)

(** [config_provider_->Get]: a setting that is not there has a default. *)
Definition config_or {A} (read : ExecutionResult * A) (default : A) : A :=
  if negb (Successful read.1) then default else read.2.

(** What [Init] reads. *)
Definition InitSettings (skip_failed_logs skip_duplicates : ExecutionResult * bool)
    (timeout : ExecutionResult * Z) (resolution : ExecutionResult * bool) (cache_lifetime : Z) : Settings :=
  mkSettings (config_or skip_failed_logs false) (config_or skip_duplicates false)
    (config_or timeout 300) (config_or resolution true) cache_lifetime.

Section recovery.
  Context {Command : Type}.
  Context `{!ProtoMessage TransactionPhaseLog_1_0} `{!ProtoMessage TransactionLog_1_0}
    `{!ProtoMessage TransactionEngineLog_1_0} `{!ProtoMessage TransactionEngineLog}
    `{!TransactionCommandSerializerInterface Command}.
  Variable settings : Settings.
  Variable now : Clock.

Abbreviation Engine := (State (Machine (Command := Command))).

(** ** The journal's logs *)

Definition recover_transaction_log (l : TransactionLog_1_0) : Engine ExecutionResult :=
  let '(execution_result, cs) := deserialize_commands (Command := Command) (log_id l) (log_commands l) in
  if negb (Successful execution_result) then mret execution_result
  else
    '(r, _) ← InitializeTransaction settings now (NewContext (recovered_request l cs) IgnoreCallback);
    mret r.

Definition recover_phase_log (l : TransactionPhaseLog_1_0) : Engine ExecutionResult :=
  let transaction_id := phase_log_id l in
  let target_transaction_phase := ConvertProtoPhaseToPhase (phase_log_phase l) in
  '(execution_result, found) ← map_find settings now transaction_id;
  if negb (Successful execution_result) then
    if TransactionPhase.eqb target_transaction_phase TransactionPhase.End || skip_log_recovery_failures_ settings
    then mret SuccessExecutionResult
    else mret (FailureExecutionResult SC_TRANSACTION_MANAGER_TRANSACTION_NOT_FOUND)
  else
    transaction ← from_some found;
    t ← deref transaction;
    if TransactionPhase.ltb target_transaction_phase (current_phase t) then
      if skip_log_recovery_failures_ settings then mret SuccessExecutionResult
      else mret (FailureExecutionResult SC_TRANSACTION_MANAGER_INVALID_TRANSACTION_LOG)
    else
      update transaction (λ t, set_outcome (phase_log_failed l) (FromProto (phase_log_result l))
                                 (set_current_phase target_transaction_phase t));;
      if TransactionPhase.eqb target_transaction_phase TransactionPhase.End then map_erase transaction_id
      else mret SuccessExecutionResult.

Definition OnJournalServiceRecoverCallback (bytes_buffer : BytesBuffer) : Engine ExecutionResult :=
  '(execution_result, entry) ← from_some (ReadEngineLog bytes_buffer);
  match entry with
  | None => mret execution_result
  | Some (TransactionEntry l) => recover_transaction_log l
  | Some (PhaseEntry l) => recover_phase_log l
  end.

(** The journal service calls the callback with each log, in order, and stops
    at the first that fails. *)
Fixpoint recover_logs (logs : list BytesBuffer) : Engine ExecutionResult :=
  match logs with
  | [] => mret SuccessExecutionResult
  | log :: logs =>
      r ← OnJournalServiceRecoverCallback log;
      if negb (Successful r) then mret r else recover_logs logs
  end.

(** ** The checkpoint *)

(** The loop over the keys: two logs for each transaction. *)
Fixpoint checkpoint_transactions (active_transactions : list Uuid)
  : Engine (ExecutionResult * list BytesBuffer) :=
  match active_transactions with
  | [] => mret (SuccessExecutionResult, [])
  | active_transaction :: rest =>
      '(execution_result, found) ← map_find settings now active_transaction;
      if negb (Successful execution_result) then mret (execution_result, [])
      else
        transaction ← from_some found;
        t ← deref transaction;
        '(execution_result, transaction_checkpoint_log) ← from_some (SerializeTransaction t);
        if negb (Successful execution_result) then mret (execution_result, [])
        else
          '(execution_result, state_metadata) ← from_some (SerializeState t);
          if negb (Successful execution_result) then mret (execution_result, [])
          else
            '(r, checkpoint_logs) ← checkpoint_transactions rest;
            mret (r, transaction_checkpoint_log :: state_metadata :: checkpoint_logs)
  end.

Definition Checkpoint : Engine (ExecutionResult * list BytesBuffer) :=
  '(execution_result, active_transactions) ← gets (λ m, Keys (active_transactions_map_ m));
  if negb (Successful execution_result) then mret (execution_result, [])
  else checkpoint_transactions active_transactions.

(** ** Resuming *)

Definition ProceedToNextPhaseAfterRecovery (transaction : txn_loc) : Engine () :=
  t ← deref transaction;
  match current_phase t with
  | TransactionPhase.NotStarted | TransactionPhase.Begin =>
      update transaction (set_current_phase TransactionPhase.Begin);;
      BeginTransaction (ProceedToNextPhase now) transaction
  | TransactionPhase.Prepare => PrepareTransaction transaction
  | TransactionPhase.Commit => CommitTransaction transaction
  | TransactionPhase.CommitNotify => CommitNotifyTransaction transaction
  | TransactionPhase.Committed => CommittedTransaction transaction
  | TransactionPhase.AbortNotify => AbortNotifyTransaction transaction
  | TransactionPhase.Aborted => AbortedTransaction transaction
  | TransactionPhase.End => EndTransaction transaction
  | TransactionPhase.Unknown => UnknownStateTransaction transaction
  end.

(** [Run] counts down when the context it waits for finishes. *)
Definition run_callback (original : Callback) : Callback :=
  RunCallback (match original with NoCallback => IgnoreCallback | cb => cb end).

Definition set_callback {Rq Rs} (cb : Callback) (c : AsyncContext Rq Rs) : AsyncContext Rq Rs :=
  mkAsync (request c) (response c) (result c) cb.

(** The loop of [Run] over the keys: gives the transactions to resume, whose
    number is [pending_calls]. The executor accepts the work. *)
Fixpoint run_transactions (active_transaction_ids : list Uuid)
  : Engine (ExecutionResult * list txn_loc) :=
  match active_transaction_ids with
  | [] => mret (SuccessExecutionResult, [])
  | active_transaction_id :: rest =>
      '(execution_result, found) ← map_find settings now active_transaction_id;
      if negb (Successful execution_result) then mret (execution_result, [])
      else
        transaction ← from_some found;
        t ← deref transaction;
        if TransactionPhase.eqb (current_phase t) TransactionPhase.End then run_transactions rest
        else
          (if is_coordinated_remotely t then
             update transaction (λ t, set_remote_phase_context
               (set_callback (run_callback (callback (remote_phase_context t))) (remote_phase_context t)) t)
           else mret ());;
          '(r, scheduled) ← run_transactions rest;
          mret (r, transaction :: scheduled)
  end.

Definition Run : Engine (ExecutionResult * list txn_loc) :=
  '(execution_result, active_transaction_ids) ← gets (λ m, Keys (active_transactions_map_ m));
  if negb (Successful execution_result) then mret (execution_result, [])
  else run_transactions active_transaction_ids.

Definition GetPendingTransactionCount : Engine nat := gets (λ m, Size (active_transactions_map_ m)).

End recovery.
