(* ===== verification/TransactionReplay.v ===== *)
(** * What the engine's journal says

    The abstract content of a journal: for each transaction that has not ended,
    the phase it reached, its request and its outcome ([replay]). Recovering from
    the journal, log by log, gives an engine whose active transactions are these
    ([recover_logs_replay]). *)

From S2P Require Import Prelude ExecutionResult ErrorCodes Uuid Serialization.
From S2P Require Import AutoExpiryMap AutoExpiryView StateMonad TransactionPhases TransactionLog TransactionEngine.
From S2P Require Import TransactionRemote TransactionRecovery.
From stdpp Require Import options.

Local Open Scope Z_scope.

Section replay.
  Context {Command : Type}.
  Context `{!EngineLogMessages} `{!TransactionCommandSerializerInterface Command}.
  Implicit Types (m : Machine (Command := Command)) (T : Transaction Command) (t : txn_loc).

Record Recovered := mkRecovered {
  rec_phase : TransactionPhase;
  rec_request : TransactionRequest Command;
  rec_failed : bool;
  rec_result : ExecutionResult;
}.

Implicit Types (M : gmap Uuid Recovered) (r : Recovered).

Definition entry_of (d : BytesBuffer) : option EngineEntry :=
  match ReadEngineLog d with
  | Some (_, e) => e
  | None => None
  end.

(** The transaction log of a transaction that is known already says nothing
    new; a phase log never goes back, and one of a transaction that is not there
    can only be that of its end. *)
Definition replay_entry (e : EngineEntry) M : option (gmap Uuid Recovered) :=
  match e with
  | TransactionEntry l =>
      let '(execution_result, cs) := deserialize_commands (Command := Command) (log_id l) (log_commands l) in
      if negb (Successful execution_result) then None
      else if log_is_coordinated_remotely l &&
              (null_or_empty (Some (log_transaction_secret l)) || null_or_empty (Some (log_transaction_origin l)))
      then None
      else
        match M !! log_id l with
        | Some _ => Some M
        | None =>
            Some (<[log_id l := mkRecovered TransactionPhase.NotStarted (recovered_request l cs) false
                     (FailureExecutionResult SC_TRANSACTION_MANAGER_NOT_FINISHED)]> M)
        end
  | PhaseEntry l =>
      let target := ConvertProtoPhaseToPhase (phase_log_phase l) in
      match M !! phase_log_id l with
      | None => if TransactionPhase.eqb target TransactionPhase.End then Some M else None
      | Some r =>
          if TransactionPhase.ltb target (rec_phase r) then None
          else if TransactionPhase.eqb target TransactionPhase.End then Some (delete (phase_log_id l) M)
          else Some (<[phase_log_id l := mkRecovered target (rec_request r) (phase_log_failed l)
                         (FromProto (phase_log_result l))]> M)
      end
  end.

Fixpoint replay_from (logs : list BytesBuffer) M : option (gmap Uuid Recovered) :=
  match logs with
  | [] => Some M
  | d :: logs =>
      e ← entry_of d;
      M ← replay_entry e M;
      replay_from logs M
  end.

Definition replay (logs : list BytesBuffer) : option (gmap Uuid Recovered) := replay_from logs ∅.

Lemma replay_from_app l1 l2 M : replay_from (l1 ++ l2) M = replay_from l1 M ≫= replay_from l2.
Proof.
  revert M. induction l1 as [|d l1 IH]; intros M; [done|]. simpl.
  destruct (entry_of d) as [e|]; simpl; [|done]. by destruct (replay_entry e M); simpl.
Qed.

(** ** The engine after recovery *)

(** A transaction that was restored from [r]. *)
Record restored (i : Uuid) T r : Prop := {
  restored_id : id T = i;
  restored_phase : current_phase T = rec_phase r;
  restored_request : request (context T) = rec_request r;
  restored_failed : transaction_failed T = rec_failed r;
  restored_result : transaction_execution_result T = rec_result r;
  restored_remote : is_coordinated_remotely T = request_is_coordinated_remotely (rec_request r);
  restored_secret : transaction_secret T = request_transaction_secret (rec_request r);
  restored_origin : transaction_origin T = request_transaction_origin (rec_request r);
  restored_waiting : is_waiting_for_remote T = false;
  restored_phase_failed : current_phase_failed T = false;
  restored_phase_result : current_phase_execution_result T = SuccessExecutionResult;
  restored_indices : current_phase_failed_command_indices T = [];
  restored_pending : pending_callbacks T = 0;
}.

Record represents m M : Prop := {
  represents_ok : machine_ok m;
  represents_None i : M !! i = None ↔ active m !! i = None;
  represents_Some i t : active m !! i = Some t →
    ∃ T r, transactions m !! t = Some T ∧ M !! i = Some r ∧ restored i T r;
}.

Lemma represents_lookup m M i r : represents m M → M !! i = Some r →
  ∃ t T, active m !! i = Some t ∧ transactions m !! t = Some T ∧ restored i T r.
Proof.
  intros R Hr. destruct (active m !! i) as [t|] eqn:Ht.
  - destruct (represents_Some m M R i t Ht) as (T & r' & HT & Hr' & Hres). simplify_eq. eauto.
  - apply (represents_None m M R) in Ht. congruence.
Qed.

(** Two active ids are two objects. *)
Lemma represents_distinct m M i j t : represents m M →
  active m !! i = Some t → active m !! j = Some t → i = j.
Proof.
  intros R Hi Hj. destruct (represents_Some m M R i t Hi) as (T & r & HT & _ & Hres).
  destruct (represents_Some m M R j t Hj) as (T' & r' & HT' & _ & Hres'). simplify_eq.
  by rewrite <- (restored_id i T r Hres), (restored_id j T r' Hres').
Qed.

(** A restored transaction changes. *)
Lemma represents_update m M i t T r :
  represents m M → active m !! i = Some t → restored i T r → represents (at_txn t T m) (<[i := r]> M).
Proof.
  intros R Ht Hres. constructor; [by apply R| |].
  - intros j. rewrite lookup_insert_None, (represents_None m M R).
    change (active (at_txn t T m)) with (active m). split; [by intros []|].
    intros Hj. split; [done|]. intros ->. congruence.
  - intros j t' Hj. change (active (at_txn t T m)) with (active m) in Hj. simpl.
    destruct (decide (j = i)) as [->|Hne].
    + simplify_eq. exists T, r. by rewrite !lookup_insert_eq.
    + destruct (represents_Some m M R j t' Hj) as (T' & r' & HT' & Hr' & Hres').
      assert (t ≠ t') by (intros ->; apply Hne; by apply (represents_distinct m M j i t')).
      exists T', r'. by rewrite !lookup_insert_ne.
Qed.

(** A restored transaction is erased. *)
Lemma represents_erase m M i t T :
  represents m M → active m !! i = Some t → represents (erased i (at_txn t T m)) (delete i M).
Proof.
  intros R Ht. assert (machine_ok (at_txn t T m)) as Hok by apply R. constructor; [by apply erased_ok| |].
  - intros j. rewrite active_erased by done. change (active (at_txn t T m)) with (active m).
    rewrite !lookup_delete_None. by rewrite (represents_None m M R).
  - intros j t'. rewrite active_erased by done. change (active (at_txn t T m)) with (active m).
    intros [Hne Hj]%lookup_delete_Some. simpl.
    destruct (represents_Some m M R j t' Hj) as (T' & r' & HT' & Hr' & Hres').
    assert (t ≠ t') by (intros ->; apply Hne; by apply (represents_distinct m M i j t')).
    exists T', r'. by rewrite lookup_insert_ne, lookup_delete_ne.
Qed.

  Variable settings : Settings.
  Variable now : Clock.

Lemma recover_phase_log_replay l m M M' :
  represents m M → replay_entry (PhaseEntry l) M = Some M' →
  ∃ m', recover_phase_log settings now l m = Some (SuccessExecutionResult, m') ∧ represents m' M'.
Proof.
  intros R HM. unfold recover_phase_log, replay_entry in *.
  erewrite bind_run; [|apply map_find_run; by apply R]. cbv beta.
  set (target := ConvertProtoPhaseToPhase (phase_log_phase l)) in *.
  destruct (M !! phase_log_id l) as [r|] eqn:Hr.
  2:{ rewrite (proj1 (represents_None m M R _)) by done.
      change (negb (Successful (FailureExecutionResult _))) with true. cbn iota.
      destruct (TransactionPhase.eqb target TransactionPhase.End); [|done]. simplify_eq. by exists m. }
  destruct (represents_lookup m M _ r R Hr) as (t & T & Ht & HT & Hres). rewrite Ht.
  change (negb (Successful SuccessExecutionResult)) with false. cbn iota. run_step.
  rewrite <- (at_txn_id t T m HT). run_step. rewrite (restored_phase _ _ _ Hres).
  destruct (TransactionPhase.ltb target (rec_phase r)); [done|]. run_step.
  destruct (TransactionPhase.eqb target TransactionPhase.End) eqn:Hend; simplify_eq.
  - eexists. split; [|by apply represents_erase]. rewrite map_erase_run by apply R.
    change (active (at_txn t _ m)) with (active m). by rewrite Ht.
  - eexists. split; [done|]. apply represents_update; [done..|]. by destruct Hres.
Qed.

(** The only log that may fail is a duplicate, when duplicates are not to be
    skipped. *)
Lemma recover_transaction_log_replay l m M M' :
  represents m M → replay_entry (TransactionEntry l) M = Some M' →
  ∃ e m', recover_transaction_log (Command := Command) settings now l m = Some (e, m') ∧
    if skip_duplicate_transaction_in_recovery_ settings || bool_decide (M !! log_id l = None)
    then e = SuccessExecutionResult ∧ represents m' M'
    else e = FailureExecutionResult SC_TRANSACTION_MANAGER_TRANSACTION_ALREADY_EXISTS.
Proof.
  intros R HM. unfold recover_transaction_log, replay_entry in *.
  destruct (deserialize_commands (log_id l) (log_commands l)) as [r cs].
  destruct (negb (Successful r)); [done|].
  destruct (log_is_coordinated_remotely l && _) eqn:Hrq; [done|].
  destruct (InitializeTransaction_run settings now (NewContext (recovered_request l cs) IgnoreCallback) m)
    as (m' & Hrun & Htx & _ & _ & Hok' & Hact'); [by apply R|exact Hrq|].
  set (t := fresh (dom (transactions m))) in *.
  change (request_transaction_id (request (NewContext (recovered_request l cs) IgnoreCallback)))
    with (log_id l) in *.
  change (is_journal_recovery (request (NewContext (recovered_request l cs) IgnoreCallback))) with true in *.
  assert (∀ j t', active m !! j = Some t' → t ≠ t') as Hfresh.
  { intros j t' Hj Heq. destruct (represents_Some m M R j t' Hj) as (T' & _ & HT' & _).
    apply (is_fresh (dom (transactions m))), elem_of_dom. exists T'. by rewrite <- HT', <- Heq. }
  cbn [negb]. erewrite bind_run; [|exact Hrun]. rewrite andb_true_r.
  destruct (M !! log_id l) as [r0|] eqn:Hr; simplify_eq.
  - destruct (represents_lookup m M' _ r0 R Hr) as (t0 & T0 & Ht0 & _). rewrite Ht0 in *.
    rewrite bool_decide_false, orb_false_r by done.
    destruct (skip_duplicate_transaction_in_recovery_ settings); [|by eexists _, _].
    eexists _, _. split; [done|]. split; [done|]. constructor; [done| |]; rewrite Hact'; [by apply R|].
    intros j t' Hj. destruct (represents_Some m M' R j t' Hj) as (T' & r' & HT' & Hr' & Hres').
    exists T', r'. rewrite Htx, lookup_insert_ne by (by apply (Hfresh j)). done.
  - rewrite (proj1 (represents_None m M R _)) in * by done.
    rewrite bool_decide_true, orb_true_r by done. eexists _, _. split; [done|]. split; [done|].
    constructor; [done| |]; rewrite Hact'.
    + intros j. rewrite !lookup_insert_None. by rewrite (represents_None m M R).
    + intros j t' [[<- <-]|[Hne Hj]]%lookup_insert_Some.
      * eexists _, _. rewrite Htx, !lookup_insert_eq. split; [done|]. by split.
      * destruct (represents_Some m M R j t' Hj) as (T' & r' & HT' & Hr' & Hres').
        exists T', r'. rewrite Htx, !lookup_insert_ne; [done..|]. by apply (Hfresh j).
Qed.

Lemma recover_log_replay d e m M M' :
  represents m M → ReadEngineLog d = Some (SuccessExecutionResult, Some e) → replay_entry e M = Some M' →
  ∃ x m', OnJournalServiceRecoverCallback settings now d m = Some (x, m') ∧
    (x = SuccessExecutionResult ∧ represents m' M' ∨
     x = FailureExecutionResult SC_TRANSACTION_MANAGER_TRANSACTION_ALREADY_EXISTS ∧
     skip_duplicate_transaction_in_recovery_ settings = false).
Proof.
  intros R Hd HM. unfold OnJournalServiceRecoverCallback. rewrite Hd. cbn [from_some fmap option_fmap].
  erewrite bind_run; [|by apply from_some_run]. cbv beta iota. destruct e as [l|l].
  - destruct (recover_transaction_log_replay l m M M' R HM) as (e & m' & -> & He).
    exists e, m'. split; [done|].
    destruct (skip_duplicate_transaction_in_recovery_ settings); [left; by apply He|].
    cbn [orb] in He. case_bool_decide; [by left|by right].
  - destruct (recover_phase_log_replay l m M M' R HM) as (m' & -> & HR).
    eexists _, _. split; [done|]. by left.
Qed.

(** The logs read: the journal holds nothing that cannot be read. *)
Definition readable (d : BytesBuffer) : Prop :=
  ∃ e, ReadEngineLog d = Some (SuccessExecutionResult, Some e).

Lemma recover_logs_replay logs m M M' :
  represents m M → Forall readable logs → replay_from logs M = Some M' →
  ∃ x m', recover_logs settings now logs m = Some (x, m') ∧
    (x = SuccessExecutionResult ∧ represents m' M' ∨
     x = FailureExecutionResult SC_TRANSACTION_MANAGER_TRANSACTION_ALREADY_EXISTS ∧
     skip_duplicate_transaction_in_recovery_ settings = false).
Proof.
  intros R Hread. revert m M R. induction Hread as [|d logs (e & Hd) _ IH]; intros m M R HM.
  { simpl in HM. simplify_eq. exists SuccessExecutionResult, m. split; [done|]. by left. }
  cbn [replay_from] in HM. unfold entry_of in HM. rewrite Hd in HM. cbn [mbind option_bind] in HM.
  destruct (replay_entry e M) as [M1|] eqn:He; [|done]. cbn [mbind option_bind] in HM.
  destruct (recover_log_replay d e m M M1 R Hd He) as (r & m1 & Hrun & [[-> R1]|[-> Hskip]]);
    cbn [recover_logs]; erewrite bind_run; [|exact Hrun| |exact Hrun].
  - by apply IH with M1.
  - eexists _, _. split; [done|]. by right.
Qed.

End replay.
