(* ===== verification/TransactionSystem.v ===== *)
(** * The transaction engine in its environment

    A run of the engine on remotely coordinated transactions, as the front end
    starts them: clients and the remote coordinator call the public operations,
    the journal persists and acknowledges logs, commands answer when they like,
    the collector resolves transactions, and the service may crash and recover
    from its journal at any time. *)

From S2P Require Import Prelude ExecutionResult ErrorCodes Uuid AutoExpiryMap AutoExpiryView Serialization.
From S2P Require Import TransactionPhases TransactionLog StateMonad TransactionEngine TransactionRemote.
From S2P Require Import TransactionRecovery TransactionReplay.
From stdpp Require Import options.

Local Open Scope Z_scope.

(** ** Work in flight *)

(** A log is at the journal ([persisted] once it is stored), a command was
    called, the remote participant was asked or told something, or a recovered
    transaction waits to be resumed. *)
Inductive Task :=
| TaskLog (data : BytesBuffer) (cb : LogCallback) (persisted : bool)
| TaskCommand (transaction : txn_loc) (command_index : nat) (phase : TransactionPhase)
| TaskStatus (transaction : txn_loc)
| TaskPhase (transaction : txn_loc) (rq : TransactionPhaseRequest)
| TaskResume (transaction : txn_loc).

Definition log_txn (cb : LogCallback) : txn_loc :=
  match cb with
  | OnLogTransaction _ t | OnLogStateAndProceedToNextPhase _ t | OnLogStateAndExecuteDistributedPhase _ t => t
  end.

Definition task_txn (k : Task) : txn_loc :=
  match k with
  | TaskLog _ cb _ => log_txn cb
  | TaskCommand t _ _ | TaskStatus t | TaskPhase t _ | TaskResume t => t
  end.

(** What happened to the commands of a transaction. *)
Inductive Event :=
| Called (phase : TransactionPhase) (command_index : nat)
| Completed (phase : TransactionPhase) (command_index : nat) (r : ExecutionResult).

Section system.
  Context {Command : Type}.
  Context `{!EngineLogMessages} `{!TransactionCommandSerializerInterface Command}.
  Implicit Types (m : Machine (Command := Command)) (t : txn_loc).

(** The work a call to the outside starts; a command that refuses a call never
    calls back. *)
Definition action_tasks (a : Action (Command := Command)) : list Task :=
  match a with
  | DispatchLog d cb => [TaskLog d cb false]
  | CallCommand t i p _ r => if Successful r then [TaskCommand t i p] else []
  | DispatchGetTransactionStatus t _ => [TaskStatus t]
  | DispatchExecutePhase t rq => [TaskPhase t rq]
  | FinishTransaction _ | FinishPhase _ | FinishStatus _ => []
  end.

Definition action_events (a : Action (Command := Command)) : option (txn_loc * list Event) :=
  match a with
  | CallCommand t i p _ r => Some (t, Called p i :: if Successful r then [] else [Completed p i r])
  | _ => None
  end.

Definition tasks_of (acts : list (Action (Command := Command))) : list Task := acts ≫= action_tasks.

(** ** The system *)

Abbreviation History := (gmap Uuid (list Event)).

Record System := mkSystem {
  machine : Machine (Command := Command);
  journal : list BytesBuffer;
  tasks : list Task;
  history : History;
}.

Definition record (transaction_id : Uuid) (es : list Event) (h : History) : History :=
  <[transaction_id := h !!! transaction_id ++ es]> h.

(** The events of a handler, each under the id of its transaction. *)
Fixpoint record_actions m (acts : list (Action (Command := Command))) (h : History) : History :=
  match acts with
  | [] => h
  | a :: acts =>
      let h := match action_events a with
               | Some (t, es) =>
                   match transactions m !! t with Some T => record (id T) es h | None => h end
               | None => h
               end in
      record_actions m acts h
  end.

(** A handler runs, and the commands it calls answer [as]. *)
Definition handled {A} (as_ : list ExecutionResult) (handler : State Machine A) m : option (A * Machine) :=
  handler (with_answers as_ (with_actions [] m)).

(** The system after a handler that left [m']. *)
Definition settle m' (j : list BytesBuffer) (ks : list Task) (h : History) : System :=
  mkSystem m' j (ks ++ tasks_of (actions m')) (record_actions m' (actions m') h).

Definition empty_machine : Machine (Command := Command) := mkMachine ∅ (mkMap ∅ ∅ 0 false) [] [].
Definition initial_system : System := mkSystem empty_machine [] [] ∅.

(** The status code fits its type, and a success has no other code. *)
Definition valid_result (r : ExecutionResult) : Prop :=
  is_u64 (status_code r) ∧ (status r = Success → r = SuccessExecutionResult).

Lemma Forall_take_answers n as_ : Forall valid_result as_ → Forall valid_result (take_answers n as_).
Proof.
  intros Has. induction n as [|n IH] in as_, Has |- *; [constructor|]. simpl. constructor.
  - destruct Has; simpl; [|done]. split; [done|]. by intros.
  - apply IH. by destruct Has.
Qed.

  Variable settings : Settings.
  (** The answers a call of a command may give. *)
  Variable answer_ok : ExecutionResult → Prop.

(** A new transaction under an id has no history. *)
Definition forget m (transaction_id : Uuid) (h : History) : History :=
  match active m !! transaction_id with
  | None => delete transaction_id h
  | Some _ => h
  end.

Inductive step : System → System → Prop :=
| step_Execute now as_ rq cb r m j ks h m' :
    Forall answer_ok as_ →
    valid_uuid (request_transaction_id rq) → valid_request rq → request_is_coordinated_remotely rq = true → is_journal_recovery rq = false →
    handled as_ (Execute settings now (NewContext rq cb)) m = Some (r, m') →
    step (mkSystem m j ks h) (settle m' j ks (forget m (request_transaction_id rq) h))
| step_ExecutePhase now as_ c r m j ks h m' :
    Forall answer_ok as_ →
    handled as_ (ExecutePhase settings now c) m = Some (r, m') →
    step (mkSystem m j ks h) (settle m' j ks h)
| step_GetTransactionStatus now c r m j ks h m' :
    handled [] (GetTransactionStatus settings now c) m = Some (r, m') →
    step (mkSystem m j ks h) (settle m' j ks h)
| step_resolve now as_ i t r m j ks h m' :
    Forall answer_ok as_ → active m !! i = Some t →
    handled as_ (OnBeforeGarbageCollection settings now t) m = Some (r, m') →
    step (mkSystem m j ks h) (settle m' j ks h)
| step_persist d cb m j k1 k2 h :
    step (mkSystem m j (k1 ++ TaskLog d cb false :: k2) h)
      (mkSystem m (j ++ [d]) (k1 ++ TaskLog d cb true :: k2) h)
| step_logged now as_ d cb persisted e r m j k1 k2 h m' :
    Forall answer_ok as_ → (Successful e = true → persisted = true) →
    handled as_ (OnLogCallback now d cb e) m = Some (r, m') →
    step (mkSystem m j (k1 ++ TaskLog d cb persisted :: k2) h) (settle m' j (k1 ++ k2) h)
| step_command now as_ t i p e r T m j k1 k2 h m' :
    Forall answer_ok as_ → valid_result e → transactions m !! t = Some T →
    handled as_ (OnPhaseCallback now i p e t) m = Some (r, m') →
    step (mkSystem m j (k1 ++ TaskCommand t i p :: k2) h)
      (settle m' j (k1 ++ k2) (record (id T) [Completed p i e] h))
| step_status now as_ t e rs r m j k1 k2 h m' :
    Forall answer_ok as_ →
    handled as_ (OnGetRemoteTransactionStatusCallback settings now t e rs) m = Some (r, m') →
    step (mkSystem m j (k1 ++ TaskStatus t :: k2) h) (settle m' j (k1 ++ k2) h)
| step_phase now as_ t rq e r m j k1 k2 h m' :
    Forall answer_ok as_ →
    handled as_ (OnRollForwardRemoteTransactionCallback settings now t rq e) m = Some (r, m') →
    step (mkSystem m j (k1 ++ TaskPhase t rq :: k2) h) (settle m' j (k1 ++ k2) h)
| step_resume now as_ t r m j k1 k2 h m' :
    Forall answer_ok as_ →
    handled as_ (ProceedToNextPhaseAfterRecovery now t) m = Some (r, m') →
    step (mkSystem m j (k1 ++ TaskResume t :: k2) h) (settle m' j (k1 ++ k2) h)
| step_crash now m1 m2 ts m j ks h :
    recover_logs settings now j empty_machine = Some (SuccessExecutionResult, m1) →
    Run settings now m1 = Some ((SuccessExecutionResult, ts), m2) →
    step (mkSystem m j ks h) (mkSystem m2 j (TaskResume <$> ts) h).

Inductive reachable : System → Prop :=
| reachable_initial : reachable initial_system
| reachable_step σ σ' : reachable σ → step σ σ' → reachable σ'.

End system.

(** ** The invariant of the transaction engine

    What holds of every active transaction in every state the system of
    [TransactionSystem] reaches: it is either free for its coordinator or one
    activity is in flight for it; its phase is that of the journal or a later
    one; and it is past its commit phase only when every command committed. *)

(** The work in flight for a transaction. *)
Definition mine (t : txn_loc) (ks : list Task) : list Task := filter (λ k, task_txn k = t) ks.

Lemma mine_app t k1 k2 : mine t (k1 ++ k2) = mine t k1 ++ mine t k2.
Proof. apply filter_app. Qed.

Lemma mine_all t ks : (∀ k, k ∈ ks → task_txn k = t) → mine t ks = ks.
Proof.
  induction ks as [|k ks IH]; intros H; [done|]. unfold mine in *. rewrite filter_cons_True.
  - f_equal. apply IH. intros k' Hk'. apply H. by right.
  - apply H. by left.
Qed.

Lemma mine_none t ks : (∀ k, k ∈ ks → task_txn k ≠ t) → mine t ks = [].
Proof.
  induction ks as [|k ks IH]; intros H; [done|]. unfold mine in *. rewrite filter_cons_False.
  - apply IH. intros k' Hk'. apply H. by right.
  - apply H. by left.
Qed.

Lemma elem_of_mine t k ks : k ∈ mine t ks ↔ task_txn k = t ∧ k ∈ ks.
Proof. unfold mine. by rewrite list_elem_of_filter. Qed.

(** ** Phases *)

(** The phases after the decision to commit. *)
Definition committed_phase (p : TransactionPhase) : bool :=
  match p with TransactionPhase.CommitNotify | TransactionPhase.Committed => true | _ => false end.

(** The phases that begin with a log. *)
Definition logs_first (p : TransactionPhase) : bool :=
  match p with
  | TransactionPhase.NotStarted | TransactionPhase.Begin | TransactionPhase.Unknown => false
  | _ => true
  end.

(** Every command's commit was completed. *)
Definition all_committed (n : nat) (es : list Event) : Prop :=
  ∀ i, (i < n)%nat → Completed TransactionPhase.Commit i SuccessExecutionResult ∈ es.

Definition notified (es : list Event) : Prop := ∃ i, Called TransactionPhase.CommitNotify i ∈ es.

Lemma all_committed_app n es1 es2 : all_committed n es1 → all_committed n (es1 ++ es2).
Proof. intros H i Hi. apply elem_of_app. left. by apply H. Qed.

Section invariant.
  Context `{!EngineLogMessages} `{!EngineLogLaws}.
  Context {Command : Type} `{!TransactionCommandSerializerInterface Command}
    `{!TransactionCommandSerializerLaws Command}.
  Implicit Types (m : Machine (Command := Command)) (T : Transaction Command) (t : txn_loc)
    (r : Recovered (Command := Command)) (rec : option (Recovered (Command := Command))).
  #[local] Set Default Proof Using "Type*".

(** ** Logs *)

Definition reads_phase (d : BytesBuffer) (i : Uuid) (p : TransactionPhase) : Prop :=
  ∃ l, ReadEngineLog d = Some (SuccessExecutionResult, Some (PhaseEntry l)) ∧ phase_log_id l = i ∧
    ConvertProtoPhaseToPhase (phase_log_phase l) = p ∧ is_u64 (proto_status_code (phase_log_result l)).

Definition reads_transaction (d : BytesBuffer) T : Prop :=
  ∃ l, ReadEngineLog d = Some (SuccessExecutionResult, Some (TransactionEntry l)) ∧ log_id l = id T ∧
    log_is_coordinated_remotely l = true ∧
    null_or_empty (Some (log_transaction_secret l)) = false ∧
    null_or_empty (Some (log_transaction_origin l)) = false ∧
    deserialize_commands (log_id l) (log_commands l) = (SuccessExecutionResult, txn_commands T).

(** The journal says that a transaction is in a phase. *)
Definition logged (j : list BytesBuffer) (i : Uuid) (p : TransactionPhase) : Prop :=
  ∃ d, d ∈ j ∧ reads_phase d i p.

(** ** One transaction *)

(** What does not depend on what is in flight. *)
Record well_formed T : Prop := {
  wf_remote : is_coordinated_remotely T = true;
  wf_id : valid_uuid (id T);
  wf_result : is_u64 (status_code (transaction_execution_result T));
  wf_phase_result : is_u64 (status_code (current_phase_execution_result T));
  wf_indices : Forall (λ i, i < length (txn_commands T))%nat (current_phase_failed_command_indices T);
  wf_pending : is_u64 (pending_callbacks T);
  wf_commands : Z.of_nat (length (txn_commands T)) < 2 ^ 31;
  wf_failed : current_phase_failed T = true → status (current_phase_execution_result T) ≠ Success;
}.

(** While the commit phase runs, a command has committed, or has not answered
    yet, or the phase has failed, or an answer will never come. *)
Definition commit_progress T (waiting_for : list nat) (es : list Event) : Prop :=
  current_phase T = TransactionPhase.Commit →
  ∀ i, (i < length (txn_commands T))%nat →
    i ∈ waiting_for ∨ Completed TransactionPhase.Commit i SuccessExecutionResult ∈ es ∨
    status (current_phase_execution_result T) ≠ Success ∨
    Z.of_nat (length waiting_for) < pending_callbacks T.

(** The activity in flight for a transaction. *)
Inductive control (t : txn_loc) T (es : list Event) : list Task → Prop :=
| control_waiting :
    is_waiting_for_remote T = true → current_phase T ≠ TransactionPhase.NotStarted → control t T es []
| control_starting d b :
    is_waiting_for_remote T = false → current_phase T = TransactionPhase.NotStarted →
    reads_transaction d T → current_phase_execution_result T = SuccessExecutionResult →
    control t T es [TaskLog d (OnLogTransaction TransactionPhase.NotStarted t) b]
| control_logging d b :
    is_waiting_for_remote T = false → logs_first (current_phase T) = true →
    reads_phase d (id T) (current_phase T) →
    control t T es [TaskLog d (phase_log_callback (current_phase T) t) b]
| control_running waiting_for :
    is_waiting_for_remote T = false → calls_commands (current_phase T) = true →
    NoDup waiting_for → Forall (λ i, i < length (txn_commands T))%nat waiting_for →
    Z.of_nat (length waiting_for) ≤ pending_callbacks T →
    commit_progress T waiting_for es →
    control t T es ((λ i, TaskCommand t i (current_phase T)) <$> waiting_for)
| control_asking k :
    is_waiting_for_remote T = false → current_phase T ≠ TransactionPhase.NotStarted →
    k = TaskStatus t ∨ (∃ rq, k = TaskPhase t rq) → control t T es [k]
| control_resuming :
    is_waiting_for_remote T = false → control t T es [TaskResume t].

(** The journal is behind the transaction. *)
Definition recorded T rec : Prop :=
  match rec with
  | None => current_phase T = TransactionPhase.NotStarted ∨ current_phase T = TransactionPhase.End
  | Some r =>
      TransactionPhase.number (rec_phase r) ≤ TransactionPhase.number (current_phase T) ∧
      rec_phase r ≠ TransactionPhase.Unknown ∧ rec_phase r ≠ TransactionPhase.End ∧
      commands (rec_request r) = txn_commands T ∧ request_is_coordinated_remotely (rec_request r) = true ∧
      is_u64 (status_code (rec_result r))
  end.

(** The journal is at a phase: a transaction that has ended is not there. *)
Definition recorded_at (p : TransactionPhase) rec : Prop :=
  match rec with
  | None => p = TransactionPhase.End
  | Some r => rec_phase r = p
  end.

(** The commit decision: it is taken when every command committed, and only
    then are the commands notified. *)
Record decided T rec (es : list Event) : Prop := {
  decided_phase : committed_phase (current_phase T) = true → all_committed (length (txn_commands T)) es;
  decided_journal r : rec = Some r → committed_phase (rec_phase r) = true →
    all_committed (length (txn_commands T)) es;
  decided_notified : notified es → all_committed (length (txn_commands T)) es;
}.

Record txn_ok (j : list BytesBuffer) t T (ks : list Task) rec (es : list Event) : Prop := {
  ok_wf : well_formed T;
  ok_control : control t T es ks;
  ok_recorded : recorded T rec;
  ok_persisted d cb : TaskLog d cb true ∈ ks → d ∈ j ∧ recorded_at (current_phase T) rec;
  ok_running i p : TaskCommand t i p ∈ ks → p ≠ TransactionPhase.Begin → recorded_at p rec;
  ok_resuming : TaskResume t ∈ ks → recorded_at (current_phase T) rec;
  ok_decided : decided T rec es;
}.

(** ** The system *)

Record inv (σ : System (Command := Command)) : Prop := {
  inv_machine : machine_ok (machine σ);
  inv_active i t : active (machine σ) !! i = Some t →
    ∃ T, transactions (machine σ) !! t = Some T ∧ id T = i;
  inv_tasks k : k ∈ tasks σ → ∃ i, active (machine σ) !! i = Some (task_txn k);
  inv_readable : Forall readable (journal σ);
  inv_replay : ∃ M, replay (Command := Command) (journal σ) = Some M ∧
    (∀ i, active (machine σ) !! i = None → M !! i = None) ∧
    ∀ i t T, active (machine σ) !! i = Some t → transactions (machine σ) !! t = Some T →
      txn_ok (journal σ) t T (mine t (tasks σ)) (M !! i) (history σ !!! i);
  inv_logged i p k : Called p k ∈ history σ !!! i → p = TransactionPhase.Begin ∨ logged (journal σ) i p;
}.

End invariant.
