(* ===== verification/TransactionSteps.v ===== *)
(** * The handlers keep the invariant

    Each function of [TransactionRemote] leads a transaction that satisfies the
    invariant to one that does, with the work its calls start
    ([outcome_ok]). *)

From S2P Require Import Prelude ExecutionResult ErrorCodes Uuid Serialization.
From S2P Require Import AutoExpiryMap AutoExpiryView StateMonad TransactionPhases TransactionLog TransactionEngine.
From S2P Require Import TransactionRemote TransactionRecovery TransactionReplay TransactionSystem.
From stdpp Require Import options.

Local Open Scope Z_scope.

Section steps.
  Context {msgs : EngineLogMessages} {laws : EngineLogLaws}.
  Context {Command : Type} `{!TransactionCommandSerializerInterface Command}
    `{!TransactionCommandSerializerLaws Command}.
  Implicit Types (m : Machine (Command := Command)) (T : Transaction Command) (t : txn_loc)
    (r : Recovered (Command := Command)) (rec : option (Recovered (Command := Command)))
    (acts : list (Action (Command := Command))).
  Variable now : Clock.
  #[local] Set Default Proof Using "Type*".

(** ** What calls start *)

Definition events_of acts : list Event := acts ≫= λ a, from_option snd [] (action_events a).

(** The calls of a handler on [t] are about [t]. *)
Definition about t acts : Prop :=
  ∀ a, a ∈ acts → (∀ k, k ∈ action_tasks a → task_txn k = t) ∧
    (∀ t' es, action_events a = Some (t', es) → t' = t).

Lemma tasks_of_app a1 a2 : tasks_of (a1 ++ a2) = tasks_of a1 ++ tasks_of (Command := Command) a2.
Proof. apply bind_app. Qed.

Lemma events_of_app a1 a2 : events_of (a1 ++ a2) = events_of a1 ++ events_of a2.
Proof. apply bind_app. Qed.

Lemma about_app t a1 a2 : about t a1 → about t a2 → about t (a1 ++ a2).
Proof. intros H1 H2 a [Ha|Ha]%elem_of_app; [by apply H1|by apply H2]. Qed.

Lemma about_nil t : about t [].
Proof. by intros a Ha%elem_of_nil. Qed.

Lemma about_tasks t acts k : about t acts → k ∈ tasks_of acts → task_txn k = t.
Proof. intros H (a & Hk & Ha)%list_elem_of_bind. by apply (H a Ha). Qed.

(** Answers to a coordinator start nothing. *)
Lemma finish_actions_quiet {Rq Rs} (to : AsyncContext Rq Rs → Action (Command := Command)) c t :
  (∀ c, action_tasks (to c) = [] ∧ action_events (to c) = None) →
  tasks_of (finish_actions to c) = [] ∧ events_of (finish_actions to c) = [] ∧ about t (finish_actions to c).
Proof.
  intros H. destruct (H c) as [Ht He]. unfold finish_actions, tasks_of, events_of.
  destruct (callback c); simpl; try rewrite Ht, He; (split; [done|]); (split; [done|]);
    first [apply about_nil | intros a ->%list_elem_of_singleton; rewrite Ht, He; split;
             [by intros k Hk%elem_of_nil|done]].
Qed.

(** ** One transaction *)

(** Nothing is in flight. *)
Lemma idle_ok j t T rec es :
  well_formed T → control t T es [] → recorded T rec → decided T rec es → txn_ok j t T [] rec es.
Proof. constructor; try done; by intros; exfalso; eapply not_elem_of_nil. Qed.

(** One task is in flight that does not depend on the journal. *)
Definition independent (k : Task) : Prop :=
  match k with
  | TaskLog _ _ persisted => persisted = false
  | TaskStatus _ | TaskPhase _ _ => True
  | TaskCommand _ _ _ | TaskResume _ => False
  end.

Lemma one_task_ok j t T k rec es :
  independent k → well_formed T → control t T es [k] → recorded T rec → decided T rec es →
  txn_ok j t T [k] rec es.
Proof.
  intros Hk ????. constructor; try done.
  - intros d cb Hq%list_elem_of_singleton. by subst k.
  - intros i p Hq%list_elem_of_singleton. by subst k.
  - intros Hq%list_elem_of_singleton. by subst k.
Qed.

(** ** Outcomes *)

(** What is left to show of a handler on [T] at [t], with [ks] still in flight:
    its transaction satisfies the invariant, or has ended. *)
Definition outcome_ok (j : list BytesBuffer) t T (ks : list Task) rec (es : list Event)
    (outcome : Transaction Command * list (Action (Command := Command)) * bool) : Prop :=
  let '(T', acts, gone) := outcome in
  id T' = id T ∧ about t acts ∧
  (∀ p i, Called p i ∈ events_of acts → p = TransactionPhase.Begin ∨ logged j (id T) p) ∧
  if (gone : bool) then ks = [] ∧ tasks_of acts = [] ∧ rec = None
  else txn_ok j t T' (ks ++ tasks_of acts) rec (es ++ events_of acts).

(** Nothing is in flight for the transaction, which is locked, and its phase [p]
    is over. *)
Record phase_over (p : TransactionPhase) T rec (es : list Event) : Prop := {
  over_wf : well_formed T;
  over_waiting : is_waiting_for_remote T = false;
  over_phase : current_phase T = p;
  over_known : p ≠ TransactionPhase.Unknown;
  over_recorded : recorded T rec;
  over_persisted : p ≠ TransactionPhase.Begin → recorded_at p rec;
  over_decided : decided T rec es;
  over_commit : p = TransactionPhase.Commit → status (current_phase_execution_result T) = Success →
    all_committed (length (txn_commands T)) es;
  over_started : p = TransactionPhase.NotStarted → status (current_phase_execution_result T) = Success;
}.

(** The phase the manager gives is decided when the one before is. *)
Lemma next_phase_decided p x n es :
  p ≠ TransactionPhase.Unknown →
  (committed_phase p = true → all_committed n es) →
  (p = TransactionPhase.Commit → status x = Success → all_committed n es) →
  committed_phase (TransactionPhaseManager.ProceedToNextPhase p x) = true → all_committed n es.
Proof.
  intros Hp Hd Hc. rewrite ProceedToNextPhase_status by done.
  destruct (status x); destruct p; simpl in *; intros Hn; try done; auto.
Qed.

Lemma next_phase_started p x : p ≠ TransactionPhase.Unknown →
  (p = TransactionPhase.NotStarted → status x = Success) →
  TransactionPhaseManager.ProceedToNextPhase p x ≠ TransactionPhase.NotStarted.
Proof.
  intros Hp Hn. rewrite ProceedToNextPhase_status by done. destruct p; try by destruct (status x).
  by rewrite Hn.
Qed.

Lemma coordinator_answered_fields indices x T :
  let T' := (coordinator_answered indices x T).1 in
  id T' = id T ∧ txn_commands T' = txn_commands T ∧ current_phase T' = current_phase T ∧
  is_waiting_for_remote T' = true ∧ (well_formed T → well_formed T').
Proof.
  unfold coordinator_answered. destruct (TransactionPhase.eqb _ _); (do 4 (split; [done|])); intros []; by constructor.
Qed.

Lemma coordinator_answered_quiet indices x T t :
  let acts := (coordinator_answered indices x T).2 in tasks_of acts = [] ∧ events_of acts = [] ∧ about t acts.
Proof.
  unfold coordinator_answered. destruct (TransactionPhase.eqb _ _); by apply finish_actions_quiet.
Qed.

Lemma outcome_taken_well_formed T : well_formed T → well_formed (outcome_taken T).
Proof.
  intros []. unfold outcome_taken. destruct (current_phase_failed T) eqn:Hf; [|by constructor; rewrite ?Hf].
  destruct (transaction_failed T) eqn:Ht; constructor; simpl; rewrite ?Ht; try done; by constructor.
Qed.

Lemma outcome_taken_commands T : txn_commands (outcome_taken T) = txn_commands T.
Proof. unfold txn_commands. by destruct (outcome_taken_fixed T) as (_ & -> & _). Qed.

(** Nothing is in flight for a transaction that is locked. *)
Lemma control_stuck t T es :
  is_waiting_for_remote T = false → calls_commands (current_phase T) = true → is_u64 (pending_callbacks T) →
  (current_phase T = TransactionPhase.Commit → commit_progress T [] es) → control t T es [].
Proof.
  intros Hw Hc [Hpend _] Hcom. apply (control_running t T es []); try done.
  - by apply NoDup_nil.
  - intros Hp. by apply Hcom.
Qed.

(** The end of a transaction. *)
Lemma ended_ok j t T rec es :
  phase_over TransactionPhase.End T rec es → outcome_ok j t T [] rec es (ended now T).
Proof.
  intros [[] Hw Hp _ Hrec Hper [Hd1 Hd2 Hd3] _ _]. unfold ended, outcome_ok.
  set (c := answer _ _ _). edestruct (finish_actions_quiet FinishPhase c t) as (Htasks & Hevents & Habout); [done|].
  rewrite Htasks, Hevents. split; [done|]. split; [done|]. split; [by intros p i Hi%elem_of_nil|].
  specialize (Hper ltac:(done)).
  change (current_phase_execution_result (set_last_execution_timestamp (wall_now now) T))
    with (current_phase_execution_result T). destruct (Successful (current_phase_execution_result T)).
  - split; [done|]. split; [done|]. destruct rec as [r|]; [|done]. simpl in *. naive_solver.
  - rewrite !app_nil_r. apply idle_ok; [by constructor| |done|by constructor].
    apply control_stuck; try done; simpl; rewrite Hp; [done|]. by intros Hc.
Qed.

(** A phase that is over leads to the next one, or the transaction ends. *)
Lemma proceeded_ok j t p T rec es : phase_over p T rec es → outcome_ok j t T [] rec es (proceeded now p T).
Proof.
  intros Hover. unfold proceeded. destruct (TransactionPhase.eqb p TransactionPhase.End) eqn:Hend.
  { apply TransactionPhase.eqb_spec in Hend as ->. by apply ended_ok. }
  apply TransactionPhase.eqb_false in Hend. destruct Hover as [Hwf Hw Hp Hk Hrec Hper [Hd1 Hd2 Hd3] Hc Hs].
  unfold advanced, outcome_ok.
  set (next := TransactionPhaseManager.ProceedToNextPhase p (current_phase_execution_result T)).
  set (T1 := set_last_execution_timestamp _ _).
  destruct (coordinator_answered_fields (failed_indices T) (current_phase_execution_result T) T1)
    as (Hid & Hcs & Hph & Hw' & Hwf').
  destruct (coordinator_answered_quiet (failed_indices T) (current_phase_execution_result T) T1 t)
    as (Htasks & Hevents & Habout).
  destruct (coordinator_answered _ _ _) as [T' acts]. cbn [fst snd] in *. rewrite Htasks, Hevents.
  destruct (outcome_taken_fixed T) as (Hid1 & _).
  split; [by rewrite Hid; cbn; rewrite Hid1|]. split; [done|]. split; [by intros q i Hq%elem_of_nil|].
  assert (txn_commands T' = txn_commands T) as HcT.
  { rewrite Hcs. change (txn_commands T1) with (txn_commands (outcome_taken T)). apply outcome_taken_commands. }
  assert (current_phase T' = next) as Hnext by by rewrite Hph.
  pose proof (ProceedToNextPhase_forward p (current_phase_execution_result T) Hk) as Hfwd. fold next in Hfwd.
  rewrite !app_nil_r. apply idle_ok.
  - apply Hwf'. pose proof (outcome_taken_well_formed T Hwf) as []. by constructor.
  - apply control_waiting; [done|]. rewrite Hnext. by apply next_phase_started.
  - destruct rec as [r|]; simpl in *.
    + rewrite Hnext, HcT. rewrite Hp in Hrec. destruct Hrec as (? & ? & ? & ? & ? & ?). split_and!; try done. lia.
    + destruct Hrec as [Hrec|Hrec]; [|congruence]. rewrite Hp in Hrec. exfalso. rewrite Hrec in Hper. by discriminate Hper.
  - constructor; rewrite ?HcT; [|done|done]. rewrite Hnext. rewrite Hp in Hd1. by apply next_phase_decided.
Qed.

(** ** The commands are called *)

(** The indices of the commands that accept the call. *)
Fixpoint accepted (i : nat) (rs : list ExecutionResult) : list nat :=
  match rs with
  | [] => []
  | x :: rs => if Successful x then i :: accepted (S i) rs else accepted (S i) rs
  end.

Lemma elem_of_accepted i rs k :
  k ∈ accepted i rs ↔ (i ≤ k)%nat ∧ ∃ x, rs !! (k - i)%nat = Some x ∧ Successful x = true.
Proof.
  revert i. induction rs as [|x rs IH]; intros i; simpl.
  { split; [by intros ?%elem_of_nil|]. by intros (_ & y & Hy & _). }
  destruct (decide (k = i)) as [->|Hne].
  - rewrite Nat.sub_diag. simpl. destruct (Successful x) eqn:Hx.
    + split; [intros _; split; [lia|eauto]|intros _; by left].
    + rewrite IH. split; [lia|]. intros (_ & y & [= <-] & Hy). congruence.
  - assert (k ∈ accepted (S i) rs ↔
      (i ≤ k)%nat ∧ ∃ y, (x :: rs) !! (k - i)%nat = Some y ∧ Successful y = true) as <-.
    { rewrite IH. split; intros (Hle & y & Hy & Hs); (split; [lia|]); exists y; (split; [|done]).
      - by replace (k - i)%nat with (S (k - S i)) by lia.
      - by replace (k - i)%nat with (S (k - S i)) in Hy by lia. }
    destruct (Successful x); [|done]. rewrite elem_of_cons. naive_solver.
Qed.

Lemma accepted_NoDup i rs : NoDup (accepted i rs).
Proof.
  revert i. induction rs as [|x rs IH]; intros i; simpl; [by apply NoDup_nil|].
  destruct (Successful x); [|done]. apply NoDup_cons. split; [|done].
  intros [Hle _]%elem_of_accepted. lia.
Qed.

Lemma accepted_length i rs : Z.of_nat (length (accepted i rs)) = Z.of_nat (length rs) - refusals rs.
Proof.
  revert i. induction rs as [|x rs IH]; intros i; [done|]. cbn [accepted refusals length].
  destruct (Successful x); cbn [length]; rewrite ?Nat2Z.inj_succ, IH; lia.
Qed.

Lemma refusals_range rs : 0 ≤ refusals rs ≤ Z.of_nat (length rs).
Proof.
  induction rs as [|x rs IH]; [done|]. cbn [refusals length]. destruct (Successful x); lia.
Qed.

Lemma tasks_of_calls t i p cs rs : length rs = length cs →
  tasks_of (command_calls (Command := Command) t i p cs rs) = (λ k, TaskCommand t k p) <$> accepted i rs.
Proof.
  revert i rs. induction cs as [|c cs IH]; intros i [|x rs]; intros [=]; [done|].
  simpl. unfold tasks_of in *. simpl. rewrite IH by done. by destruct (Successful x).
Qed.

Lemma calls_about t i p cs rs : about t (command_calls (Command := Command) t i p cs rs).
Proof.
  revert i rs. induction cs as [|c cs IH]; intros i [|x rs]; simpl; try apply about_nil.
  intros a [->|Ha]%elem_of_cons; [|by apply (IH (S i) rs)]. split; [|by intros ?? [= ? _]].
  simpl. destruct (Successful x); [by intros k ->%list_elem_of_singleton|by intros k ?%elem_of_nil].
Qed.

Lemma called_of_calls t i p cs rs q k :
  Called q k ∈ events_of (command_calls (Command := Command) t i p cs rs) → q = p.
Proof.
  revert i rs. induction cs as [|c cs IH]; intros i [|x rs]; simpl; try by intros ?%elem_of_nil.
  unfold events_of in *. simpl. intros [[= -> _]|Hk]%elem_of_cons; [done|].
  apply elem_of_app in Hk as [Hk|Hk]; [|by apply (IH (S i) rs)].
  destruct (Successful x); [by apply elem_of_nil in Hk|]. by apply list_elem_of_singleton in Hk.
Qed.

(** *** What the refusals do *)

Lemma valid_refusal x : valid_result x → Successful x = false → status x ≠ Success.
Proof. intros [_ H] Hs Hx. apply Successful_false in Hs. auto. Qed.

Lemma refused_well_formed i x T :
  well_formed T → (i < length (txn_commands T))%nat → is_u64 (status_code x) → status x ≠ Success →
  well_formed (refused i x T) ∧ current_phase_failed (refused i x T) = true.
Proof.
  intros [] Hi Hx Hs. unfold refused, fail_phase, enqueue_failed_index.
  destruct (current_phase_failed T) eqn:Hf; repeat case_match; simplify_eq/=; (split; [|done]);
    constructor; simpl; first [done | congruence | by apply Forall_app_2; [|constructor] | by intros _; auto].
Qed.

Lemma commands_answered_well_formed i rs T :
  well_formed T → (i + length rs ≤ length (txn_commands T))%nat → Forall valid_result rs →
  well_formed (commands_answered i rs T) ∧
  (current_phase_failed T = true ∨ 0 < refusals rs → current_phase_failed (commands_answered i rs T) = true).
Proof.
  intros Hwf Hlen Hrs. revert i T Hwf Hlen.
  induction Hrs as [|x rs Hx Hrs IH]; intros i T Hwf Hlen; cbn [commands_answered refusals length] in *.
  { split; [done|]. intros [H|H]; [done|lia]. }
  destruct (Successful x) eqn:Hs.
  { apply IH; [done|lia]. }
  destruct (refused_well_formed i x T) as [Hwf' Hf']; [done|lia|by apply Hx|by apply valid_refusal|].
  destruct (IH (S i) (refused i x T)) as [Hwf'' Hf'']; [done| |].
  - assert (txn_commands (refused i x T) = txn_commands T) as ->; [|lia].
    unfold txn_commands, refused, fail_phase, enqueue_failed_index. by repeat case_match.
  - split; [done|]. intros _. apply Hf''. by left.
Qed.

(** A locked transaction whose phase [p] is about to call the commands. *)
Record phase_ready (j : list BytesBuffer) (p : TransactionPhase) T rec (es : list Event) : Prop := {
  ready_wf : well_formed T;
  ready_waiting : is_waiting_for_remote T = false;
  ready_phase : current_phase T = p;
  ready_calls : calls_commands p = true;
  ready_recorded : recorded T rec;
  ready_persisted : p ≠ TransactionPhase.Begin → recorded_at p rec ∧ logged j (id T) p;
  ready_decided : decided T rec es;
}.

Lemma calls_known p : calls_commands p = true → p ≠ TransactionPhase.Unknown ∧ p ≠ TransactionPhase.NotStarted.
Proof. by destruct p. Qed.

Lemma recorded_same T T' rec :
  current_phase T' = current_phase T → txn_commands T' = txn_commands T → recorded T rec → recorded T' rec.
Proof. unfold recorded. by intros -> ->. Qed.

Lemma decided_same T T' rec es :
  current_phase T' = current_phase T → txn_commands T' = txn_commands T → decided T rec es → decided T' rec es.
Proof. intros Hp Hc []. constructor; rewrite ?Hp, Hc; done. Qed.

(** Calls of a phase keep the decision. *)
Lemma decided_called t p T T' rec es rs :
  decided T rec es → current_phase T = p → current_phase T' = p → txn_commands T' = txn_commands T →
  decided T' rec (es ++ events_of (command_calls (Command := Command) t 0 p (txn_commands T) rs)).
Proof.
  intros [Hd1 Hd2 Hd3] Hp Hp' Hc. constructor; rewrite Hc.
  - rewrite Hp', <- Hp. intros H. by apply all_committed_app, Hd1.
  - intros r Hr H. by eapply all_committed_app, Hd2.
  - intros [i [Hi|Hi]%elem_of_app]; apply all_committed_app; [by apply Hd3; exists i|].
    apply called_of_calls in Hi. apply Hd1. by rewrite Hp, <- Hi.
Qed.

(** The outcome of a handler that first made calls. *)
Lemma outcome_ok_calls j t p T T1 rec es rs :
  id T1 = id T →
  (p = TransactionPhase.Begin ∨ logged j (id T) p) →
  let calls := command_calls (Command := Command) t 0 p (txn_commands T) rs in
  tasks_of calls = [] →
  ∀ T' acts gone, outcome_ok j t T1 [] rec (es ++ events_of calls) (T', acts, gone) →
  outcome_ok j t T [] rec es (T', calls ++ acts, gone).
Proof.
  intros Hid Hlog calls Hnone T' acts gone (Hid' & Habout & Hcalled & Hok). unfold outcome_ok.
  rewrite Hid in *. split; [done|]. split; [apply about_app; [apply calls_about|done]|].
  rewrite events_of_app, tasks_of_app, Hnone, (app_assoc es). split; [|done].
  intros q k [Hk|Hk]%elem_of_app; [|by apply (Hcalled q k)].
  apply called_of_calls in Hk as ->. done.
Qed.

(** Some of the commands will call back. *)
Lemma called_running_ok j t p T T2 rec es rs :
  phase_ready j p T rec es → length rs = length (txn_commands T) →
  well_formed T2 → id T2 = id T → txn_commands T2 = txn_commands T → current_phase T2 = p →
  is_waiting_for_remote T2 = false →
  pending_callbacks T2 = Z.of_nat (length (txn_commands T)) - refusals rs →
  (0 < refusals rs → status (current_phase_execution_result T2) ≠ Success) →
  outcome_ok j t T [] rec es (T2, command_calls t 0 p (txn_commands T) rs, false).
Proof.
  intros [Hwf Hw Hp Hcalls Hrec Hper Hdec] Hlen Hwf2 Hid Hc Hp2 Hw2 Hpend Hfail.
  destruct (calls_known p Hcalls) as [Hk Hns]. unfold outcome_ok. rewrite Hid.
  assert (p = TransactionPhase.Begin ∨ logged j (id T) p) as Hlog.
  { destruct (decide (p = TransactionPhase.Begin)); [by left|]. right. by apply Hper. }
  split; [done|]. split; [apply calls_about|]. split.
  { intros q k Hq. apply called_of_calls in Hq as ->. done. }
  rewrite tasks_of_calls by done. cbn [app]. constructor.
  - done.
  - rewrite <- Hp2. apply control_running; rewrite ?Hp2; try done.
    + apply accepted_NoDup.
    + apply Forall_forall. intros k (Hle & x & Hx & _)%elem_of_accepted.
      rewrite Hc, <- Hlen. apply lookup_lt_Some in Hx. lia.
    + rewrite accepted_length, Hpend, Hlen. lia.
    + intros Hcommit k Hkn. rewrite Hc, <- Hlen in Hkn. apply lookup_lt_is_Some in Hkn as [x Hx].
      destruct (Successful x) eqn:Hs.
      * left. apply elem_of_accepted. split; [lia|]. exists x. by rewrite Nat.sub_0_r.
      * right; right; left. apply Hfail. clear -Hx Hs. revert k Hx.
        induction rs as [|y rs IH]; intros k Hx; [done|]. cbn [refusals].
        pose proof (refusals_range rs). destruct k; simplify_eq/=; [rewrite Hs; lia|].
        specialize (IH _ Hx). destruct (Successful y); lia.
  - apply (recorded_same T); [by rewrite Hp2, Hp|done..].
  - intros d cb (k & [=] & _)%list_elem_of_fmap.
  - intros i q (k & [= -> ->] & _)%list_elem_of_fmap Hq. by apply Hper.
  - by intros (k & [=] & _)%list_elem_of_fmap.
  - by apply (decided_called t p T T2).
Qed.

Lemma commands_called_ok j t p T rec es rs :
  phase_ready j p T rec es → Forall valid_result rs → length rs = length (txn_commands T) →
  outcome_ok j t T [] rec es (commands_called now t p rs T).
Proof.
  intros [Hwf Hw Hp Hcalls Hrec Hper Hdec] Hrs Hlen. pose proof (wf_commands T Hwf) as Hmax.
  destruct (calls_known p Hcalls) as [Hk Hns]. unfold commands_called.
  set (n := Z.of_nat (length (txn_commands T))).
  assert (is_u64 n) as Hn by (unfold is_u64, n; lia). rewrite u64_id by done.
  assert (well_formed (set_pending n T)) as Hwf0 by by destruct Hwf.
  destruct (commands_answered_well_formed 0 rs (set_pending n T)) as [Hwf1 Hfail]; [done| |done|].
  { change (txn_commands (set_pending n T)) with (txn_commands T). lia. }
  destruct (commands_answered_fixed 0 rs (set_pending n T)) as (Hid & Hctx & Hph & _ & Hw1 & Hpend).
  set (T1 := commands_answered 0 rs (set_pending n T)) in *.
  assert (txn_commands T1 = txn_commands T) as Hc1 by (unfold txn_commands; by rewrite Hctx).
  pose proof (refusals_range rs) as Href. rewrite Hlen in Href. fold n in Href.
  assert (∀ k, is_u64 k → well_formed (set_pending k T1)) as Hwfk by (intros k Hk'; by destruct Hwf1).
  destruct (Z.ltb_spec 0 (refusals rs)) as [Hpos|Hzero].
  2:{ apply called_running_ok; try done; [by rewrite Hph|by rewrite Hw1| |lia].
      rewrite Hpend. cbn [pending_callbacks set_pending]. fold n. lia. }
  rewrite u64_id by (unfold is_u64 in *; lia).
  destruct (Z.eqb_spec n (refusals rs)) as [Hall|Hsome].
  2:{ apply called_running_ok; try done; [|by rewrite <- Hp|by rewrite <- Hw|].
      - apply Hwfk. unfold is_u64 in *. lia.
      - intros _. apply (wf_failed T1 Hwf1). by apply Hfail; right. }
  destruct (proceeded now p (set_pending (n - refusals rs) T1)) as [[T' acts] gone] eqn:Hproc.
  eapply outcome_ok_calls with (T1 := set_pending (n - refusals rs) T1); [done| | |].
  - destruct (decide (p = TransactionPhase.Begin)); [by left|]. right. by apply Hper.
  - rewrite tasks_of_calls by done. assert (length (accepted 0 rs) = 0%nat) as Hno.
    { pose proof (accepted_length 0 rs). lia. }
    by destruct (accepted 0 rs).
  - rewrite <- Hproc. apply proceeded_ok. constructor; try done.
    + apply Hwfk. unfold is_u64 in *. lia.
    + by rewrite <- Hw.
    + by rewrite <- Hp.
    + by apply (recorded_same T).
    + intros Hb. by apply Hper.
    + apply (decided_called t p T); try done; by rewrite <- Hp.
    + intros _ Hs. exfalso. revert Hs. apply (wf_failed T1 Hwf1). by apply Hfail; right.
Qed.

(** ** A command calls back *)

Lemma control_command t T es k1 k2 i p :
  control t T es (k1 ++ TaskCommand t i p :: k2) →
  p = current_phase T ∧ is_waiting_for_remote T = false ∧ calls_commands p = true ∧
  ∃ w1 w2, k1 = (λ i, TaskCommand t i p) <$> w1 ∧ k2 = (λ i, TaskCommand t i p) <$> w2 ∧
    NoDup (w1 ++ i :: w2) ∧ Forall (λ i, i < length (txn_commands T))%nat (w1 ++ i :: w2) ∧
    Z.of_nat (length (w1 ++ i :: w2)) ≤ pending_callbacks T ∧ commit_progress T (w1 ++ i :: w2) es.
Proof.
  inversion 1 as [Hw Hn Heq|d b Hw Hp Hd Hs Heq|d b Hw Hp Hd Heq|w Hw Hc Hnd Hf Hl Hprog Heq
                 |k Hw Hn Hk Heq|Hw Heq].
  - by destruct k1.
  - by destruct k1 as [|? []].
  - by destruct k1 as [|? []].
  - apply fmap_app_inv in Heq as (w1 & w2' & -> & H2 & ->).
    symmetry in H2. apply fmap_cons_inv in H2 as (i' & w2 & [= <- ->] & -> & ->).
    split; [done|]. split; [done|]. split; [done|]. by exists w1, w2.
  - destruct k1 as [|? []]; simplify_eq/=; destruct Hk as [?|[??]]; congruence.
  - by destruct k1 as [|? []].
Qed.

Lemma failed_well_formed i x T :
  well_formed T → (i < length (txn_commands T))%nat → valid_result x → status x = Failure →
  well_formed (fail_phase x (enqueue_failed_index i T)) ∧
  current_phase_failed (fail_phase x (enqueue_failed_index i T)) = true.
Proof.
  intros Hwf Hi [Hx _] Hs. destruct (refused_well_formed i x T) as [H1 H2]; try done; [by rewrite Hs|].
  unfold refused in *. by rewrite bool_decide_true in * by done.
Qed.

Lemma fail_phase_fixed i x T :
  let T' := fail_phase x (enqueue_failed_index i T) in
  id T' = id T ∧ txn_commands T' = txn_commands T ∧ current_phase T' = current_phase T ∧
  is_waiting_for_remote T' = is_waiting_for_remote T ∧ pending_callbacks T' = pending_callbacks T.
Proof. unfold fail_phase, enqueue_failed_index, txn_commands. by repeat case_match. Qed.

(** The transaction after a command has called back, with the others still in
    flight. *)
Lemma still_running_ok j t T T2 w1 w2 rec es i x :
  let p := current_phase T in
  well_formed T2 → calls_commands p = true → NoDup (w1 ++ i :: w2) →
  Forall (λ i, i < length (txn_commands T))%nat (w1 ++ w2) →
  Z.of_nat (length (w1 ++ w2)) ≤ pending_callbacks T2 →
  recorded T rec → decided T rec es → (p ≠ TransactionPhase.Begin → recorded_at p rec) →
  id T2 = id T → txn_commands T2 = txn_commands T → current_phase T2 = p →
  is_waiting_for_remote T2 = false →
  commit_progress T2 (w1 ++ w2) (es ++ [Completed p i x]) →
  outcome_ok j t T (((λ i, TaskCommand t i p) <$> w1) ++ ((λ i, TaskCommand t i p) <$> w2)) rec
    (es ++ [Completed p i x]) (T2, [], false).
Proof.
  intros p Hwf Hcalls Hnd Hf Hl Hrec Hdec Hper Hid Hc Hp Hw Hprog. unfold outcome_ok.
  split; [done|]. split; [apply about_nil|]. split; [by intros q k Hq%elem_of_nil|].
  change (tasks_of []) with (@nil Task). change (events_of []) with (@nil Event).
  rewrite !app_nil_r, <- fmap_app. constructor.
  - done.
  - rewrite <- Hp. apply control_running; rewrite ?Hp, ?Hc; try done.
    apply NoDup_app in Hnd as (? & Hn & [? ?]%NoDup_cons). apply NoDup_app. split_and!; [done| |done].
    intros k Hk1 Hk2. apply (Hn k Hk1). by right.
  - by apply (recorded_same T).
  - intros d cb (k & [=] & _)%list_elem_of_fmap.
  - intros k q (k' & [= -> ->] & _)%list_elem_of_fmap Hq. by apply Hper.
  - by intros (k' & [=] & _)%list_elem_of_fmap.
  - destruct Hdec as [Hd1 Hd2 Hd3]. constructor; rewrite Hc, ?Hp.
    + intros H. by apply all_committed_app, Hd1.
    + intros r Hr H. by eapply all_committed_app, Hd2.
    + intros [k [Hk|Hk]%elem_of_app]; apply all_committed_app, Hd3; [by exists k|].
      by apply list_elem_of_singleton in Hk.
Qed.

Lemma command_finished_ok j t T k1 k2 rec es i p x :
  txn_ok j t T (k1 ++ TaskCommand t i p :: k2) rec es → valid_result x →
  outcome_ok j t T (k1 ++ k2) rec (es ++ [Completed p i x]) (command_finished now i p x T).
Proof.
  intros [Hwf Hcontrol Hrec Hlogs Hrun _ Hdec] Hx.
  apply control_command in Hcontrol as (-> & Hw & Hcalls & w1 & w2 & -> & -> & Hnd & Hf & Hl & Hprog).
  set (p := current_phase T) in *. destruct (calls_known p Hcalls) as [Hk Hns].
  apply Forall_app in Hf as [Hf1 [Hi Hf2]%Forall_cons]. rewrite length_app in Hl. cbn [length] in Hl.
  assert (p ≠ TransactionPhase.Begin → recorded_at p rec) as Hper.
  { intros Hb. apply (Hrun i); [|done]. apply elem_of_app. right. by left. }
  assert (∀ T1, well_formed T1 → id T1 = id T → txn_commands T1 = txn_commands T → current_phase T1 = p →
    is_waiting_for_remote T1 = false → pending_callbacks T1 = pending_callbacks T →
    (status (current_phase_execution_result T) ≠ Success → status (current_phase_execution_result T1) ≠ Success) →
    x = SuccessExecutionResult ∨ status (current_phase_execution_result T1) ≠ Success →
    outcome_ok j t T (((λ i, TaskCommand t i p) <$> w1) ++ ((λ i, TaskCommand t i p) <$> w2)) rec
      (es ++ [Completed p i x])
      (if pending_callbacks T1 =? 1 then proceeded now p (set_pending (u64 (pending_callbacks T1 - 1)) T1)
       else (set_pending (u64 (pending_callbacks T1 - 1)) T1, [], false))) as Hgen.
  { intros T1 Hwf1 Hid Hc Hp Hw1 Hpend Hmono Hans. pose proof (wf_pending T1 Hwf1) as Hu.
    rewrite u64_id by (unfold is_u64 in *; lia).
    assert (well_formed (set_pending (pending_callbacks T1 - 1) T1)) as Hwf2.
    { destruct Hwf1. constructor; try done. unfold is_u64 in *. simpl. lia. }
    assert (commit_progress (set_pending (pending_callbacks T1 - 1) T1) (w1 ++ w2) (es ++ [Completed p i x]))
      as Hprog1.
    { intros Hcom k Hkn. change (current_phase T1 = TransactionPhase.Commit) in Hcom.
      assert (p = TransactionPhase.Commit) as Hpc by congruence.
      change (k < length (txn_commands T1))%nat in Hkn. rewrite Hc in Hkn.
      destruct (Hprog Hpc k Hkn) as [Hin|[Hdone|[Hfail|Hlt]]].
      - apply elem_of_app in Hin as [Hin|[->|Hin]%elem_of_cons];
          [left; apply elem_of_app; by left| |left; apply elem_of_app; by right].
        right. destruct Hans as [->|Hans]; [left|by right; left].
        rewrite Hpc. apply elem_of_app. right. by left.
      - right; left. apply elem_of_app. by left.
      - right; right; left. by apply Hmono.
      - right; right; right. simpl. rewrite Hpend. rewrite !length_app in *. cbn [length] in *. lia. }
    destruct (Z.eqb_spec (pending_callbacks T1) 1) as [Hone|Hmore].
    - destruct w1 as [|? w1]; [|simpl in Hl; lia]. destruct w2 as [|? w2]; [|simpl in Hl; lia].
      cbn [fmap list_fmap app]. pose proof (proceeded_ok j t p (set_pending (pending_callbacks T1 - 1) T1) rec
        (es ++ [Completed p i x])) as Hok.
      destruct (proceeded now p _) as [[T' acts] gone]. unfold outcome_ok in *.
      change (id (set_pending (pending_callbacks T1 - 1) T1)) with (id T1) in Hok. rewrite Hid in Hok.
      apply Hok. constructor; try done.
      + by apply (recorded_same T).
      + destruct Hdec as [Hd1 Hd2 Hd3]. constructor; rewrite ?Hc.
        * change (current_phase (set_pending (pending_callbacks T1 - 1) T1)) with (current_phase T1).
          change (txn_commands (set_pending (pending_callbacks T1 - 1) T1)) with (txn_commands T1).
          rewrite Hp, Hc. intros H. by apply all_committed_app, Hd1.
        * change (txn_commands (set_pending (pending_callbacks T1 - 1) T1)) with (txn_commands T1).
          rewrite Hc. intros r Hr H. by eapply all_committed_app, Hd2.
        * change (txn_commands (set_pending (pending_callbacks T1 - 1) T1)) with (txn_commands T1).
          rewrite Hc. intros [k [Hk'|Hk']%elem_of_app]; apply all_committed_app, Hd3; [by exists k|].
          by apply list_elem_of_singleton in Hk'.
      + intros Hpc Hsucc k Hkn. destruct (Hprog1 (eq_trans Hp Hpc) k Hkn) as [Hin|[?|[?|Hlt]]]; try done.
        * by apply elem_of_nil in Hin.
        * simpl in Hlt. lia.
    - apply still_running_ok; try done; [by apply Forall_app_2|].
      rewrite length_app. simpl. rewrite Hpend. lia. }
  unfold command_finished. destruct (fail_phase_fixed i x T) as (F1 & F2 & F3 & F4 & F5).
  destruct (status x) eqn:Hs.
  - rewrite bool_decide_false by done. apply Hgen; try done. left. by apply Hx.
  - rewrite bool_decide_true by done. destruct (failed_well_formed i x T) as [Hwf1 Hf]; [done..|].
    pose proof (wf_failed _ Hwf1 Hf) as Hns1. apply Hgen; try done; [by rewrite F4|by right].
  - apply still_running_ok; try done; [by apply Forall_app_2|rewrite length_app; lia|].
    intros Hpc k Hkn. destruct (Hprog Hpc k Hkn) as [Hin|[Hdone|[Hfail|Hlt]]].
    + apply elem_of_app in Hin as [Hin|[->|Hin]%elem_of_cons];
        [left; apply elem_of_app; by left| |left; apply elem_of_app; by right].
      right; right; right. rewrite length_app. lia.
    + right; left. apply elem_of_app. by left.
    + by right; right; left.
    + right; right; right. rewrite !length_app in *. cbn [length] in *. lia.
Qed.

(** ** A phase is asked for *)

(** A transaction that a handler has locked, with nothing else in flight. *)
Record phase_asked T rec (es : list Event) : Prop := {
  asked_wf : well_formed T;
  asked_waiting : is_waiting_for_remote T = false;
  asked_phase : current_phase T ≠ TransactionPhase.NotStarted;
  asked_recorded : recorded T rec;
  asked_decided : decided T rec es;
}.

Lemma reads_written T d : loggable T → SerializeState T = Some (SuccessExecutionResult, d) →
  reads_phase d (id T) (current_phase T).
Proof.
  intros [Hid Hx] Hd. destruct (SerializeState_written T Hid Hx) as (d' & Hd' & Hread).
  assert (d' = d) as -> by congruence. exists (phase_log_of T). split; [done|]. split; [done|].
  unfold phase_log_of; simpl. by rewrite ConvertProtoPhase_roundtrip.
Qed.

Lemma well_formed_loggable T : well_formed T → loggable T.
Proof. by intros []. Qed.

Lemma phase_requested_fields c T :
  id (phase_requested c T) = id T ∧ txn_commands (phase_requested c T) = txn_commands T ∧
  current_phase (phase_requested c T) =
    requested_phase_of (transaction_execution_phase (request c)) (current_phase T) ∧
  is_waiting_for_remote (phase_requested c T) = is_waiting_for_remote T ∧
  (well_formed T → well_formed (phase_requested c T)).
Proof.
  unfold phase_requested. destruct (transaction_execution_phase (request c));
    (do 4 (split; [done|])); intros []; by constructor.
Qed.

(** An accepted request never moves a transaction back, nor past a decision. *)
Lemma accepted_phase rq p :
  phase_accepts rq p = true →
  TransactionPhase.number p ≤ TransactionPhase.number (requested_phase_of rq p) ∧
  (committed_phase (requested_phase_of rq p) = true → requested_phase_of rq p = p) ∧
  (rq ≠ TransactionExecutionPhase.Begin → logs_first (requested_phase_of rq p) = true ∧
     calls_commands (requested_phase_of rq p) = true) ∧
  (p = TransactionPhase.End → requested_phase_of rq p = TransactionPhase.End).
Proof. by destruct rq, p. Qed.

Lemma phase_run_ok j t T as_ rec es c x outcome :
  phase_asked T rec es → Forall valid_result as_ → phase_run now c t T as_ x outcome →
  outcome_ok j t T [] rec es outcome.
Proof.
  intros [Hwf Hw Hn Hrec Hdec] Has Hrun.
  destruct (phase_requested_fields c T) as (Hid & Hc & Hp & Hw' & Hwf').
  assert (phase_accepted (request c) T = true → recorded (phase_requested c T) rec ∧
    decided (phase_requested c T) rec es) as Hmoved.
  { intros [_ (Hfwd & Hcom & _ & Hend)%accepted_phase]%andb_prop. split.
    - destruct rec as [r|]; simpl in *.
      + rewrite Hc, Hp. destruct Hrec as (? & ? & ? & ? & ? & ?). split_and!; try done. lia.
      + destruct Hrec as [?|Hrec]; [done|]. right. rewrite Hp. auto.
    - destruct Hdec as [Hd1 Hd2 Hd3]. constructor; rewrite Hc; [|done..]. rewrite Hp. intros H.
      apply Hd1. by rewrite <- (Hcom H). }
  destruct Hrun as [y Hacc Hy|Hacc Hbegin Hreq|d Hacc Hreq Hd].
  - unfold outcome_ok. split; [done|]. split; [apply about_nil|]. split; [by intros q k Hq%elem_of_nil|].
    change (events_of []) with (@nil Event). rewrite !app_nil_r. apply idle_ok; try done.
    + by destruct Hwf.
    + by apply control_waiting.
    + by apply (decided_same T).
  - destruct (Hmoved Hacc) as [Hrec' Hdec'].
    assert (phase_ready j TransactionPhase.Begin (phase_requested c T) rec es) as Hready.
    { constructor; try done; [by apply Hwf'|by rewrite Hw'|by rewrite Hp, Hreq, Hbegin]. }
    pose proof (commands_called_ok j t TransactionPhase.Begin (phase_requested c T) rec es
      (take_answers (length (txn_commands T)) as_) Hready) as Hok.
    destruct (commands_called _ _ _ _ _) as [[T' acts] gone]. unfold outcome_ok in *. rewrite <- Hid.
    apply Hok; [|by rewrite take_answers_length, Hc].
    by apply Forall_take_answers.
  - destruct (Hmoved Hacc) as [Hrec' Hdec']. pose proof Hacc as [_ (_ & _ & Hlog & _)%accepted_phase]%andb_prop.
    destruct (Hlog Hreq) as [Hlf Hcalls]. unfold outcome_ok. rewrite Hid. split; [done|]. split.
    { intros a ->%list_elem_of_singleton. split; [|done]. by intros k ->%list_elem_of_singleton. }
    split; [by intros q k Hq%elem_of_nil|].
    change (events_of [DispatchLog d _]) with (@nil Event). rewrite app_nil_r. cbn [app].
    change (tasks_of [DispatchLog d ?cb]) with [TaskLog d cb false].
    rewrite <- Hp in Hlf, Hcalls. apply one_task_ok; try done.
    + by apply Hwf'.
    + replace (OnLogStateAndExecuteDistributedPhase (current_phase (phase_requested c T)) t)
        with (phase_log_callback (current_phase (phase_requested c T)) t)
        by (revert Hcalls; by destruct (current_phase (phase_requested c T))).
      apply control_logging; [by rewrite Hw'|done|].
      apply reads_written; [by apply well_formed_loggable, Hwf'|done].
Qed.

End steps.
