(* ===== verification/TransactionSafety.v ===== *)
(** * The transaction engine keeps its invariant

    Every step of the system of [TransactionSystem] keeps the invariant of
    [TransactionSystem], a crash and the recovery from the journal included. *)

From S2P Require Import Prelude ExecutionResult ErrorCodes Uuid Serialization.
From S2P Require Import AutoExpiryMap AutoExpiryView StateMonad TransactionPhases TransactionLog TransactionEngine.
From S2P Require Import TransactionRemote TransactionRecovery TransactionReplay TransactionSystem.
From S2P Require Import TransactionSteps.
From stdpp Require Import options.

Local Open Scope Z_scope.

Section safety.
  Context {msgs : EngineLogMessages} {laws : EngineLogLaws}.
  Context {Command : Type} `{!TransactionCommandSerializerInterface Command}
    `{!TransactionCommandSerializerLaws Command}.
  Implicit Types (m : Machine (Command := Command)) (T : Transaction Command) (t : txn_loc)
    (r : Recovered (Command := Command)) (rec : option (Recovered (Command := Command)))
    (acts : list (Action (Command := Command))).
  #[local] Set Default Proof Using "Type*".

(** ** The machine a handler starts from *)

Definition started (as_ : list ExecutionResult) m : Machine := with_answers as_ (with_actions [] m).

Lemma with_answers_id m : with_answers (answers m) m = m.
Proof. by destruct m. Qed.

Lemma started_active as_ m : active (started as_ m) = active m.
Proof. done. Qed.

Lemma started_ok as_ m : machine_ok m → machine_ok (started as_ m).
Proof. done. Qed.

(** ** Histories *)

Lemma record_lookup i es h i' :
  record i es h !!! i' = if decide (i' = i) then h !!! i ++ es else h !!! i'.
Proof.
  unfold record. destruct (decide (i' = i)) as [->|Hne]; [by rewrite lookup_total_insert_eq|].
  by rewrite lookup_total_insert_ne.
Qed.

Lemma record_actions_lookup m acts t T h i' :
  about t acts → transactions m !! t = Some T →
  record_actions m acts h !!! i' = if decide (i' = id T) then h !!! id T ++ events_of acts else h !!! i'.
Proof.
  intros Habout HT. revert h. induction acts as [|a acts IH]; intros h.
  { simpl. unfold events_of. simpl. rewrite app_nil_r. case_decide; congruence. }
  assert (about t acts) as Habout' by (intros b Hb; apply Habout; by right).
  destruct (Habout a) as [_ Ha]; [by left|]. cbn [record_actions].
  unfold events_of in *. simpl. destruct (action_events a) as [[t' es]|] eqn:Hev; simpl; [|by apply IH].
  rewrite (Ha t' es eq_refl), HT. rewrite IH, !record_lookup by done.
  destruct (decide (i' = id T)) as [->|Hne]; [|done].
  by rewrite decide_True, <- app_assoc.
Qed.

(** ** The frame of a handler *)

Lemma txn_ok_mine j t T ks ks' rec es es' :
  txn_ok j t T ks rec es → ks = ks' → es = es' → txn_ok j t T ks' rec es'.
Proof. by intros ? <- <-. Qed.

Lemma handler_inv m j ks h i t T ks' h0 outcome as_ :
  inv (mkSystem m j ks h) → active m !! i = Some t → transactions m !! t = Some T →
  (∀ k, k ∈ ks' → k ∈ ks) → (∀ t', t' ≠ t → mine t' ks' = mine t' ks) →
  (∀ i', i' ≠ i → h0 !!! i' = h !!! i') →
  (∀ p k, Called p k ∈ h0 !!! i → p = TransactionPhase.Begin ∨ logged j i p) →
  (∀ rec, txn_ok j t T (mine t ks) rec (h !!! i) → outcome_ok j t T (mine t ks') rec (h0 !!! i) outcome) →
  inv (settle (after_handler t outcome (started as_ m)) j ks' h0).
Proof.
  intros [Hok Hact Htasks Hread (M & HM & Hnone & Htxn) Hlog] Hi HT Hsub Hothers Hh Hcalled Hout.
  cbn [machine journal tasks history] in *. destruct (Hact i t Hi) as (T0 & HT0 & Hid). simplify_eq.
  specialize (Hout _ (Htxn _ t T Hi HT)). destruct outcome as [[T' acts] gone].
  destruct Hout as (Hid' & Habout & Hcalls & Hres). unfold settle, after_handler.
  set (m1 := at_txn t T' (emitting acts (started as_ m))). set (m' := if gone then erased (id T') m1 else m1).
  assert (machine_ok m1) as Hok1 by exact Hok.
  assert (transactions m' = <[t := T']> (transactions m)) as Htx by (subst m'; by destruct gone).
  assert (actions m' = acts) as Hacts by (subst m'; by destruct gone).
  assert (active m' = if gone then delete (id T) (active m) else active m) as Hactive.
  { subst m'. destruct gone; [|done]. by rewrite active_erased, Hid'. }
  assert (∀ i', active m' !! i' = Some t → i' = id T) as Honly.
  { intros i' Hi'. assert (active m !! i' = Some t) as Hi''.
    { rewrite Hactive in Hi'. destruct gone; [by apply lookup_delete_Some in Hi' as [_ ?]|done]. }
    destruct (Hact i' t Hi'') as (T0 & HT0 & <-). by simplify_eq. }
  assert (∀ i' t', active m' !! i' = Some t' → i' ≠ id T → active m !! i' = Some t' ∧ t' ≠ t) as Hother.
  { intros i' t' Hi' Hne. split; [|intros ->; by apply Hne, Honly].
    rewrite Hactive in Hi'. destruct gone; [by apply lookup_delete_Some in Hi' as [_ ?]|done]. }
  rewrite Hacts. constructor; cbn [machine journal tasks history].
  - subst m'. destruct gone; [by apply erased_ok|done].
  - intros i' t' Hi'. rewrite Htx. destruct (decide (i' = id T)) as [->|Hne].
    + rewrite Hactive in Hi'. destruct gone; [by rewrite lookup_delete_eq in Hi'|].
      simplify_eq. exists T'. by rewrite lookup_insert_eq.
    + destruct (Hother i' t' Hi' Hne) as [Hi'' Ht']. rewrite lookup_insert_ne by done. by apply Hact.
  - intros k [Hk|Hk]%elem_of_app.
    + destruct (Htasks k (Hsub k Hk)) as [i' Hi']. destruct (decide (task_txn k = t)) as [Heq|Hne].
      * destruct gone; [|rewrite Hactive; by exists i']. exfalso. destruct Hres as (Hmine & _).
        apply (not_elem_of_nil k). rewrite <- Hmine. by apply elem_of_mine.
      * exists i'. rewrite Hactive. destruct gone; [|done]. rewrite lookup_delete_ne; [done|].
        intros <-. congruence.
    + rewrite (about_tasks t acts k Habout Hk). exists (id T). rewrite Hactive. destruct gone; [|done].
      destruct Hres as (_ & Hnil & _). rewrite Hnil in Hk. by apply elem_of_nil in Hk.
  - done.
  - exists M. split; [done|]. split.
    + intros i' Hi'. rewrite Hactive in Hi'. destruct gone; [|by apply Hnone].
      apply lookup_delete_None in Hi' as [<-|Hi']; [by apply Hres|by apply Hnone].
    + intros i' t' T0 Hi' HT0. rewrite Htx in HT0.
      rewrite (record_actions_lookup m' acts t T') by (done || by rewrite Htx, lookup_insert_eq).
      rewrite mine_app. destruct (decide (i' = id T)) as [->|Hne].
      * rewrite Hactive in Hi'. destruct gone; [by rewrite lookup_delete_eq in Hi'|].
        assert (t' = t) as -> by congruence. rewrite lookup_insert_eq in HT0.
        assert (T0 = T') as -> by congruence.
        rewrite decide_True by done. rewrite Hid'. rewrite (mine_all t (tasks_of acts));
          [done|intros k; by apply about_tasks].
      * destruct (Hother i' t' Hi' Hne) as [Hi'' Ht']. rewrite lookup_insert_ne in HT0 by done.
        rewrite decide_False by (by rewrite Hid'). rewrite Hothers, Hh by done.
        rewrite (mine_none t' (tasks_of acts)), app_nil_r; [by apply Htxn|].
        intros k Hk. by rewrite (about_tasks t acts k Habout Hk).
  - intros i' p k. rewrite (record_actions_lookup m' acts t T') by (done || by rewrite Htx, lookup_insert_eq).
    rewrite Hid'. destruct (decide (i' = id T)) as [->|Hne].
    + intros [Hk|Hk]%elem_of_app; [by apply Hcalled with k|by apply Hcalls with k].
    + rewrite Hh by done. by apply Hlog.
Qed.

(** ** Work in flight *)

Lemma mine_middle k1 k k2 : mine (task_txn k) (k1 ++ k :: k2) = mine (task_txn k) k1 ++ k :: mine (task_txn k) k2.
Proof. rewrite mine_app. unfold mine. by rewrite filter_cons_True. Qed.

Lemma mine_other t k1 k k2 : t ≠ task_txn k → mine t (k1 ++ k2) = mine t (k1 ++ k :: k2).
Proof. intros Hne. rewrite !mine_app. unfold mine. by rewrite filter_cons_False. Qed.

Lemma elem_of_middle {A} (k1 : list A) k k2 x : x ∈ k1 ++ k2 → x ∈ k1 ++ k :: k2.
Proof. rewrite !elem_of_app, elem_of_cons. tauto. Qed.

(** The transaction of a task. *)
Lemma inv_task m j k1 k k2 h : inv (mkSystem m j (k1 ++ k :: k2) h) →
  ∃ T, active m !! id T = Some (task_txn k) ∧ transactions m !! task_txn k = Some T.
Proof.
  intros I. destruct (inv_tasks _ I k) as [i Hi]; [apply elem_of_app; right; by left|].
  destruct (inv_active _ I i _ Hi) as (T & HT & <-). by exists T.
Qed.

Lemma inv_txn m j ks h i t T : inv (mkSystem m j ks h) → active m !! i = Some t → transactions m !! t = Some T →
  id T = i ∧ ∃ rec, txn_ok j t T (mine t ks) rec (h !!! i).
Proof.
  intros I Hi HT. destruct (inv_active _ I i t Hi) as (T0 & HT0 & <-). cbn [machine] in *. simplify_eq.
  split; [done|]. destruct (inv_replay _ I) as (M & _ & _ & Htxn). eexists. by apply Htxn.
Qed.

(** A handler takes a task of its transaction. *)
Lemma task_handler_inv m j k1 k k2 h T h0 outcome as_ m' :
  inv (mkSystem m j (k1 ++ k :: k2) h) →
  active m !! id T = Some (task_txn k) → transactions m !! task_txn k = Some T →
  (∀ i', i' ≠ id T → h0 !!! i' = h !!! i') →
  (∀ p c, Called p c ∈ h0 !!! id T → Called p c ∈ h !!! id T) →
  m' = after_handler (task_txn k) outcome (started as_ m) →
  (∀ rec, txn_ok j (task_txn k) T (mine (task_txn k) k1 ++ k :: mine (task_txn k) k2) rec (h !!! id T) →
     outcome_ok j (task_txn k) T (mine (task_txn k) k1 ++ mine (task_txn k) k2) rec (h0 !!! id T) outcome) →
  inv (settle m' j (k1 ++ k2) h0).
Proof.
  intros I Hi HT Hh Hc -> Hout. apply (handler_inv m j (k1 ++ k :: k2) h (id T) (task_txn k) T); try done.
  - intros x. apply elem_of_middle.
  - intros t' Hne. by apply mine_other.
  - intros p c Hp. apply (inv_logged _ I (id T) p c). by apply Hc.
  - intros rec. rewrite mine_middle, mine_app. apply Hout.
Qed.

Lemma after_handler_started t outcome as_ rest m :
  after_handler t outcome (with_answers rest (started as_ m)) = after_handler t outcome (started rest m).
Proof. by destruct outcome as [[T acts] gone]. Qed.

(** ** A log is acknowledged *)

Lemma control_log t T es k1 k2 d cb b :
  control t T es (k1 ++ TaskLog d cb b :: k2) →
  k1 = [] ∧ k2 = [] ∧ is_waiting_for_remote T = false ∧
  (current_phase T = TransactionPhase.NotStarted ∧ cb = OnLogTransaction TransactionPhase.NotStarted t ∧
     reads_transaction d T ∧ current_phase_execution_result T = SuccessExecutionResult ∨
   logs_first (current_phase T) = true ∧ cb = phase_log_callback (current_phase T) t ∧
     reads_phase d (id T) (current_phase T)).
Proof.
  inversion 1 as [Hw Hn Heq|d' b' Hw Hp Hd Hs Heq|d' b' Hw Hp Hd Heq|w Hw Hc Hnd Hf Hl Hprog Heq
                 |k Hw Hn Hk Heq|Hw Heq].
  - by destruct k1.
  - destruct k1 as [|? []]; simplify_eq/=. split_and!; try done. by left.
  - destruct k1 as [|? []]; simplify_eq/=. split_and!; try done. by right.
  - apply fmap_app_inv in Heq as (w1 & w2' & _ & H2 & _).
    symmetry in H2. by apply fmap_cons_inv in H2 as (i' & w2 & ? & _).
  - destruct k1 as [|? []]; simplify_eq/=; destruct Hk as [?|[??]]; congruence.
  - by destruct k1 as [|? []].
Qed.

(** A log that failed is dispatched again. *)
Lemma redispatched_ok j t T k1 k2 d cb b rec es :
  txn_ok j t T (k1 ++ TaskLog d cb b :: k2) rec es →
  outcome_ok j t T (k1 ++ k2) rec es (T, [DispatchLog d cb], false).
Proof.
  intros [Hwf Hcontrol Hrec Hlogs Hrun _ Hdec].
  apply control_log in Hcontrol as (-> & -> & Hw & Hcases).
  assert (log_txn cb = t) as Hcb.
  { destruct Hcases as [(_ & -> & _)|(_ & -> & _)]; [done|]. by destruct (current_phase T). }
  unfold outcome_ok. split; [done|]. split.
  { intros a ->%list_elem_of_singleton. split; [|done]. by intros k ->%list_elem_of_singleton. }
  split; [by intros q k Hq%elem_of_nil|].
  change (events_of [DispatchLog d cb]) with (@nil Event). rewrite (app_nil_r es). cbn [app].
  change (tasks_of [DispatchLog d cb]) with [TaskLog d cb false]. apply one_task_ok; try done.
  destruct Hcases as [(Hp & -> & Hd & Hs)|(Hp & -> & Hd)]; [by apply control_starting|by apply control_logging].
Qed.

  Variable settings : Settings.
  Variable now : Clock.

Lemma well_formed_locked T p :
  well_formed T → is_waiting_for_remote T = false → current_phase T = p → locked_at p T.
Proof. by intros []. Qed.

(** The phase that begins with the log is run, or the transaction proceeds. *)
Lemma acknowledged_run t T d cb b k1 k2 es m :
  machine_ok m → transactions m !! t = Some T → well_formed T → control t T es (k1 ++ TaskLog d cb b :: k2) →
  ∃ outcome rest,
    OnLogCallback now d cb SuccessExecutionResult m = Some ((), after_handler t outcome (with_answers rest m)) ∧
    ∀ j rec es', Forall valid_result (answers m) → b = true → txn_ok j t T (k1 ++ TaskLog d cb b :: k2) rec es' →
      outcome_ok j t T (k1 ++ k2) rec es' outcome.
Proof.
  intros Hok HT Hwf Hc. apply control_log in Hc as (-> & -> & Hw & Hcases).
  pose proof (at_txn_id t T m HT) as Hm.
  assert (OnLogCallback now d cb SuccessExecutionResult m = OnLogCallback now d cb SuccessExecutionResult (at_txn t T m))
    as -> by by rewrite Hm.
  assert (OnLogCallback now d cb SuccessExecutionResult (at_txn t T m) =
            ProceedToNextPhase now (current_phase T) t (at_txn t T m) ∧
          current_phase T ≠ TransactionPhase.Unknown ∧ calls_commands (current_phase T) = false ∧
          (current_phase T = TransactionPhase.NotStarted → current_phase_execution_result T = SuccessExecutionResult) ∨
          OnLogCallback now d cb SuccessExecutionResult (at_txn t T m) =
            ExecuteDistributedPhase (ProceedToNextPhase now) (current_phase T) t (at_txn t T m) ∧
          calls_commands (current_phase T) = true ∧ reads_phase d (id T) (current_phase T))
    as [(-> & Hk & Hcalls & Hs)|(-> & Hcalls & Hd)].
  { destruct Hcases as [(Hp & -> & _ & Hs)|(Hp & -> & Hd)]; [left; by rewrite Hp|].
    destruct (current_phase T) eqn:Hp'; try done; [right|right|right|left|right|left|right]; split_and!; try done. }
  - exists (proceeded now (current_phase T) T), (answers m). split.
    { rewrite with_answers_id, ProceedToNextPhase_run; [done|by apply well_formed_locked|done]. }
    intros j rec es' _ -> [_ _ Hrec Hlogs _ _ Hdec]. cbn [app] in *. apply proceeded_ok. constructor; try done.
    + intros _. apply (Hlogs d cb). by left.
    + intros Hp. by rewrite Hp in Hcalls.
    + intros Hp. by rewrite Hs.
  - destruct (ExecuteDistributedPhase_run now (current_phase T) t T m) as [rest ->];
      [done|by apply well_formed_locked|done|].
    eexists _, rest. split; [done|]. intros j rec es' Has -> [_ _ Hrec Hlogs _ _ Hdec]. cbn [app] in *.
    destruct (Hlogs d cb) as [Hdj Hat]; [by left|].
    apply commands_called_ok; [|by apply Forall_take_answers|by rewrite take_answers_length].
    constructor; try done. intros _. split; [done|]. by exists d.
Qed.

Lemma logged_inv m j k1 k2 h d cb b as_ e x m' :
  inv (mkSystem m j (k1 ++ TaskLog d cb b :: k2) h) → Forall valid_result as_ → (Successful e = true → b = true) →
  handled as_ (OnLogCallback now d cb e) m = Some (x, m') → inv (settle m' j (k1 ++ k2) h).
Proof.
  intros I Has Hb Hrun. unfold handled in Hrun. fold (started as_ m) in Hrun.
  destruct (inv_task _ _ _ _ _ _ I) as (T & Hi & HT).
  destruct (inv_txn _ _ _ _ _ _ _ I Hi HT) as (_ & rec0 & Hok0). rewrite mine_middle in Hok0.
  assert (machine_ok (started as_ m)) as Hok by exact (inv_machine _ I).
  destruct (Successful e) eqn:He.
  - apply Successful_true in He as ->. cbn [task_txn] in *.
    destruct (acknowledged_run (log_txn cb) T d cb b _ _ _ (started as_ m) Hok HT
                (ok_wf _ _ _ _ _ _ Hok0) (ok_control _ _ _ _ _ _ Hok0)) as (outcome & rest & Hrun' & Hout).
    rewrite Hrun' in Hrun. simplify_eq. rewrite after_handler_started.
    apply (task_handler_inv m j k1 (TaskLog d cb b) k2 h T h outcome rest); try done.
    intros rec. apply Hout; [done|by apply Hb].
  - unfold OnLogCallback in Hrun. rewrite He in Hrun.
    apply (task_handler_inv m j k1 (TaskLog d cb b) k2 h T h (T, [DispatchLog d cb], false) as_); try done.
    + unfold after_handler. rewrite at_txn_id by done. by injection Hrun as <- <-.
    + intros rec. apply redispatched_ok.
Qed.

(** ** A command calls back *)

Lemma command_inv m j k1 k2 h t i p as_ e x T m' :
  inv (mkSystem m j (k1 ++ TaskCommand t i p :: k2) h) → valid_result e → transactions m !! t = Some T →
  handled as_ (OnPhaseCallback now i p e t) m = Some (x, m') →
  inv (settle m' j (k1 ++ k2) (record (id T) [Completed p i e] h)).
Proof.
  intros I He HT Hrun. unfold handled in Hrun. fold (started as_ m) in Hrun.
  destruct (inv_task _ _ _ _ _ _ I) as (T0 & Hi & HT0). cbn [task_txn] in *. simplify_eq.
  destruct (inv_txn _ _ _ _ _ _ _ I Hi HT) as (_ & rec0 & Hok0). pose proof (mine_middle k1 (TaskCommand t i p) k2) as Hmine.
  cbn [task_txn] in Hmine. rewrite Hmine in Hok0.
  destruct (control_command _ _ _ _ _ _ _ (ok_control _ _ _ _ _ _ Hok0))
    as (Hp & Hw & _ & w1 & w2 & _ & _ & _ & [_ [Hin _]%Forall_cons]%Forall_app & _).
  rewrite <- (at_txn_id t T (started as_ m) HT) in Hrun.
  rewrite OnPhaseCallback_run in Hrun;
    [|by apply well_formed_locked; [apply Hok0| |]|done|exact (inv_machine _ I)].
  simplify_eq.
  eapply (task_handler_inv m j k1 (TaskCommand t i (current_phase T)) k2 h T _ _ as_); try done.
  - intros i' Hne. by rewrite record_lookup, decide_False.
  - intros q c. rewrite record_lookup, decide_True by done. rewrite elem_of_app, list_elem_of_singleton. naive_solver.
  - intros rec Hrec. rewrite record_lookup, decide_True by done. by apply command_finished_ok.
Qed.

End safety.
