(* ===== verification/TransactionRequests.v ===== *)
(** * Public operations and resolution keep the engine's invariant

    The steps of the system of [TransactionSystem] that clients, the remote
    coordinator and the collector cause: a phase is asked for, the status is read,
    an expired transaction is resolved, a new transaction is started. *)

From S2P Require Import Prelude ExecutionResult ErrorCodes Uuid Serialization.
From S2P Require Import AutoExpiryMap AutoExpiryView StateMonad TransactionPhases TransactionLog TransactionEngine.
From S2P Require Import TransactionRemote TransactionRecovery TransactionReplay TransactionSystem.
From S2P Require Import TransactionSteps TransactionSafety.
From stdpp Require Import options.

Local Open Scope Z_scope.

Section requests.
  Context {msgs : EngineLogMessages} {laws : EngineLogLaws}.
  Context {Command : Type} `{!TransactionCommandSerializerInterface Command}
    `{!TransactionCommandSerializerLaws Command}.
  Implicit Types (m : Machine (Command := Command)) (T : Transaction Command) (t : txn_loc)
    (rec : option (Recovered (Command := Command))) (acts : list (Action (Command := Command))).
  #[local] Set Default Proof Using "Type*".
  Variable settings : Settings.
  Variable now : Clock.

(** ** Handlers that change no transaction *)

Lemma record_actions_quiet m acts h : (∀ a, a ∈ acts → action_events a = None) → record_actions m acts h = h.
Proof.
  revert h. induction acts as [|a acts IH]; intros h Hq; [done|]. simpl. rewrite (Hq a) by by left.
  apply IH. intros b Hb. apply Hq. by right.
Qed.

Lemma quiet_inv m j ks h m' :
  inv (mkSystem m j ks h) →
  (∀ t T, transactions m !! t = Some T → transactions m' !! t = Some T) →
  active m' = active m → machine_ok m' →
  (∀ a, a ∈ actions m' → action_tasks a = [] ∧ action_events a = None) →
  inv (settle m' j ks h).
Proof.
  intros [Hok Hact Htasks Hread (M & HM & Hnone & Htxn) Hlog] Htx Ha Hok' Hq.
  cbn [machine journal tasks history] in *. unfold settle.
  rewrite record_actions_quiet by (intros a Hin; by apply Hq).
  assert (tasks_of (actions m') = []) as ->.
  { apply elem_of_nil_inv. intros k (a & Hk & Hin)%list_elem_of_bind. destruct (Hq a Hin) as [Hnil _].
    rewrite Hnil in Hk. by apply elem_of_nil in Hk. }
  rewrite app_nil_r. constructor; cbn [machine journal tasks history]; rewrite ?Ha; try done.
  - intros i t Hi. destruct (Hact i t Hi) as (T & HT & Hid). exists T. split; [by apply Htx|done].
  - exists M. split; [done|]. split; [done|]. intros i t T Hi HT. apply Htxn; [done|].
    destruct (Hact i t Hi) as (T0 & HT0 & _). pose proof (Htx _ _ HT0). congruence.
Qed.

Lemma unchanged_inv m j ks h as_ : inv (mkSystem m j ks h) → inv (settle (started as_ m) j ks h).
Proof.
  intros I. apply (quiet_inv m j ks h); try done; [by apply (inv_machine _ I)|].
  by intros a Ha%elem_of_nil.
Qed.

(** ** A transaction that nobody works on *)

Lemma control_free t T es ks :
  control t T es ks → is_waiting_for_remote T = true → ks = [] ∧ current_phase T ≠ TransactionPhase.NotStarted.
Proof. by inversion 1; intros; try congruence. Qed.

Lemma free_asked j t T ks rec es : txn_ok j t T ks rec es → is_waiting_for_remote T = true →
  ks = [] ∧ phase_asked (set_waiting false T) rec es.
Proof.
  intros [Hwf Hc Hrec _ _ _ Hdec] Hw. destruct (control_free _ _ _ _ Hc Hw) as [-> Hn]. split; [done|].
  constructor; try done; [by destruct Hwf|by apply (decided_same T)].
Qed.

(** A handler takes a transaction that is free. *)
Lemma free_handler_inv m j ks h i t T outcome as_ m' :
  inv (mkSystem m j ks h) → active m !! i = Some t → transactions m !! t = Some T →
  is_waiting_for_remote T = true → m' = after_handler t outcome (started as_ m) →
  (∀ rec, phase_asked (set_waiting false T) rec (h !!! i) → outcome_ok j t T [] rec (h !!! i) outcome) →
  inv (settle m' j ks h).
Proof.
  intros I Hi HT Hw -> Hout. apply (handler_inv m j ks h i t T ks); try done.
  - apply (inv_logged _ I).
  - intros rec Hok. destruct (free_asked _ _ _ _ _ _ Hok Hw) as [-> Hasked]. by apply Hout.
Qed.

(** What a handler may do with a transaction that has been locked. *)
Definition asked_effect t T m m' : Prop :=
  ∃ outcome rest, m' = after_handler t outcome (with_answers rest m) ∧
    ∀ j rec es, Forall valid_result (answers m) → phase_asked T rec es → outcome_ok j t T [] rec es outcome.

(** The transaction has been locked and a phase is run. *)
Lemma asked_run m c t T (x : ExecutionResult) m' :
  machine_ok m → active m !! id T = Some t → well_formed T → is_waiting_for_remote T = false →
  execute_or_unlock settings now t c (at_txn t T m) = Some (x, m') →
  asked_effect t T m m'.
Proof.
  intros Hok Hi Hwf Hw Hrun.
  destruct (execute_or_unlock_run settings now c t T m (current_phase T)) as (y & outcome & rest & Hrun' & HP & _);
    [by apply well_formed_locked|done..|by apply well_formed_loggable|].
  rewrite Hrun' in Hrun. simplify_eq. exists outcome, rest. split; [done|].
  intros j rec es Has Hasked. by apply (phase_run_ok now j t T (answers m) rec es c x).
Qed.

Lemma set_waiting_well_formed b T : well_formed T → well_formed (set_waiting b T).
Proof. by intros []. Qed.

(** ** A phase is asked for *)

Lemma ExecutePhase_effect c m (x : ExecutionResult) m' :
  machine_ok m → (∀ i t, active m !! i = Some t → ∃ T, transactions m !! t = Some T ∧ id T = i) →
  ExecutePhase settings now c m = Some (x, m') →
  m' = m ∨ ∃ t T, active m !! id T = Some t ∧ transactions m !! t = Some T ∧ is_waiting_for_remote T = true ∧
    execute_or_unlock settings now t c (at_txn t (set_waiting false T) m) = Some (x, m').
Proof.
  intros Hok Hact Hrun. unfold ExecutePhase in Hrun.
  erewrite bind_run in Hrun; [|by apply map_find_run]. cbv beta iota in Hrun.
  destruct (active m !! phase_transaction_id (request c)) as [t|] eqn:Hi; [|left; by injection Hrun].
  destruct (Hact _ _ Hi) as (T & HT & Hid).
  change (negb (Successful SuccessExecutionResult)) with false in Hrun. cbn iota in Hrun.
  assert (at_txn t T m = m) as Hm by by apply at_txn_id. rewrite <- Hm in Hrun.
  erewrite bind_run in Hrun; [|by apply from_some_run]. cbv beta in Hrun.
  erewrite bind_run in Hrun; [|by apply deref_run]. cbv beta in Hrun.
  destruct (is_coordinated_remotely T) eqn:Hr; cbn [negb] in Hrun; [|left; injection Hrun; congruence].
  set (secret := match transaction_secret T with None => _ | Some _ => _ end) in Hrun.
  destruct secret as [[]|]; [| |done];
    (erewrite bind_run in Hrun; [|by apply from_some_run]); cbv beta in Hrun; cbn [negb] in Hrun;
    [|left; injection Hrun; congruence].
  set (origin := if IsExpired _ _ then _ else _) in Hrun.
  destruct origin as [[]|]; [| |done];
    (erewrite bind_run in Hrun; [|by apply from_some_run]); cbv beta in Hrun; cbn [negb] in Hrun;
    [|left; injection Hrun; congruence].
  destruct (is_waiting_for_remote T) eqn:Hw.
  - right. exists t, T. split; [by rewrite Hid|]. split; [done|]. split; [done|].
    erewrite bind_run in Hrun; [|by apply lock_run]. cbv beta in Hrun.
    by change (negb (Successful SuccessExecutionResult)) with false in Hrun.
  - left. unfold LockRemotelyCoordinatedTransaction in Hrun. rewrite bind_assoc_run in Hrun.
    erewrite bind_run in Hrun; [|by apply deref_run]. cbv beta in Hrun. rewrite Hr, Hw in Hrun.
    cbn [negb] in Hrun. erewrite bind_run in Hrun; [|by apply ret_run]. cbv beta in Hrun.
    change (negb (Successful (FailureExecutionResult _))) with true in Hrun. injection Hrun. congruence.
Qed.

Lemma phase_inv m j ks h c as_ x m' :
  inv (mkSystem m j ks h) → Forall valid_result as_ →
  handled as_ (ExecutePhase settings now c) m = Some (x, m') → inv (settle m' j ks h).
Proof.
  intros I Has Hrun. unfold handled in Hrun. fold (started as_ m) in Hrun.
  apply ExecutePhase_effect in Hrun as [->|(t & T & Hi & HT & Hw & Hrun)];
    [by apply unchanged_inv| |exact (inv_machine _ I)|exact (inv_active _ I)].
  destruct (inv_txn _ _ _ _ _ _ _ I Hi HT) as (_ & rec0 & Hok0).
  apply asked_run in Hrun as (outcome & rest & -> & Hout);
    [|exact (inv_machine _ I)|done|apply set_waiting_well_formed, Hok0|done].
  rewrite after_handler_started.
  apply (free_handler_inv m j ks h (id T) t T outcome rest); try done.
  intros rec Hasked. by apply (Hout j rec).
Qed.

(** ** The status is read *)

Lemma GetTransactionStatus_effect c m (x : ExecutionResult) m' :
  machine_ok m → (∀ i t, active m !! i = Some t → ∃ T, transactions m !! t = Some T ∧ id T = i) →
  GetTransactionStatus settings now c m = Some (x, m') →
  m' = m ∨ ∃ c', m' = emitting (finish_actions FinishStatus c') m.
Proof.
  intros Hok Hact Hrun. unfold GetTransactionStatus in Hrun.
  erewrite bind_run in Hrun; [|by apply map_find_run]. cbv beta iota in Hrun.
  destruct (active m !! status_transaction_id (request c)) as [t|] eqn:Hi; [|left; by injection Hrun].
  destruct (Hact _ _ Hi) as (T & HT & Hid).
  change (negb (Successful SuccessExecutionResult)) with false in Hrun. cbn iota in Hrun.
  assert (at_txn t T m = m) as Hm by by apply at_txn_id. rewrite <- Hm in Hrun.
  erewrite bind_run in Hrun; [|by apply from_some_run]. cbv beta in Hrun.
  erewrite bind_run in Hrun; [|by apply deref_run]. cbv beta in Hrun.
  destruct (is_coordinated_remotely T) eqn:Hr; cbn [negb] in Hrun; [|left; injection Hrun; congruence].
  set (secret := match status_transaction_secret _ with None => _ | Some _ => _ end) in Hrun.
  destruct secret as [[]|]; [| |done];
    (erewrite bind_run in Hrun; [|by apply from_some_run]); cbv beta in Hrun; cbn [negb] in Hrun;
    [|left; injection Hrun; congruence].
  erewrite bind_run in Hrun; [|by apply finish_run]. right. eexists. injection Hrun as _ <-.
  rewrite <- Hm at 2. done.
Qed.

Lemma status_read_inv m j ks h c x m' :
  inv (mkSystem m j ks h) → handled [] (GetTransactionStatus settings now c) m = Some (x, m') →
  inv (settle m' j ks h).
Proof.
  intros I Hrun. unfold handled in Hrun. fold (started [] m) in Hrun.
  apply GetTransactionStatus_effect in Hrun as [->|(c' & ->)];
    [by apply unchanged_inv| |exact (inv_machine _ I)|exact (inv_active _ I)].
  apply (quiet_inv m j ks h); try done; [exact (inv_machine _ I)|].
  intros a. unfold finish_actions. destruct (callback c'); simpl;
    first [by intros ?%elem_of_nil | by intros ->%list_elem_of_singleton].
Qed.

(** ** The collector *)

(** The lock is taken and the remote participant is asked. *)
Lemma resolving_ok j t T rec es rq :
  phase_asked T rec es → outcome_ok j t T [] rec es (T, [DispatchGetTransactionStatus t rq], false).
Proof.
  intros []. unfold outcome_ok. split; [done|]. split.
  { intros a ->%list_elem_of_singleton. split; [|done]. by intros k ->%list_elem_of_singleton. }
  split; [by intros q k Hq%elem_of_nil|].
  change (events_of [_]) with (@nil Event). rewrite (app_nil_r es). cbn [app].
  change (tasks_of [_]) with [TaskStatus t]. apply one_task_ok; try done.
  apply control_asking; [done..|]. by left.
Qed.

Lemma ResolveTransaction_effect t T m (x : ExecutionResult) m' :
  transactions m !! t = Some T → is_coordinated_remotely T = true →
  ResolveTransaction settings now t m = Some (x, m') →
  m' = m ∨ is_waiting_for_remote T = true ∧
    ∃ rq, m' = at_txn t (set_waiting false T) (emitting [DispatchGetTransactionStatus t rq] m).
Proof.
  intros HT Hr Hrun. unfold ResolveTransaction in Hrun.
  assert (at_txn t T m = m) as Hm by by apply at_txn_id. rewrite <- Hm in Hrun.
  erewrite bind_run in Hrun; [|by apply deref_run]. cbv beta in Hrun.
  destruct (negb (IsExpired (steady_now now) T) || blocked T || negb _); [left; injection Hrun; congruence|].
  rewrite Hr in Hrun. cbn [negb] in Hrun.
  destruct (0 <? pending_callbacks T); [left; injection Hrun; congruence|].
  destruct (is_waiting_for_remote T) eqn:Hw.
  - right. split; [done|]. erewrite bind_run in Hrun; [|by apply lock_run]. cbv beta in Hrun.
    change (negb (Successful SuccessExecutionResult)) with false in Hrun. cbn iota in Hrun.
    erewrite bind_run in Hrun; [|by apply emit_run]. injection Hrun as _ <-. eexists. done.
  - left. unfold LockRemotelyCoordinatedTransaction in Hrun. rewrite bind_assoc_run in Hrun.
    erewrite bind_run in Hrun; [|by apply deref_run]. cbv beta in Hrun. rewrite Hr, Hw in Hrun.
    cbn [negb] in Hrun. erewrite bind_run in Hrun; [|by apply ret_run]. cbv beta in Hrun.
    change (negb (Successful (FailureExecutionResult _))) with true in Hrun. injection Hrun. congruence.
Qed.

Lemma resolve_inv m j ks h i t as_ x m' :
  inv (mkSystem m j ks h) → active m !! i = Some t →
  handled as_ (OnBeforeGarbageCollection settings now t) m = Some (x, m') → inv (settle m' j ks h).
Proof.
  intros I Hi Hrun. unfold handled in Hrun. fold (started as_ m) in Hrun.
  destruct (inv_active _ I i t Hi) as (T & HT & Hid). cbn [machine] in *.
  destruct (inv_txn _ _ _ _ _ _ _ I Hi HT) as (_ & rec0 & Hok0).
  unfold OnBeforeGarbageCollection, mbind, State_bind in Hrun.
  destruct (ResolveTransaction _ _ _ _) as [[y m1]|] eqn:Hres; [|done]. injection Hrun as <- <-.
  destruct (ResolveTransaction_effect t T (started as_ m) y m1) as [->|(Hw & rq & ->)];
    [done|by apply Hok0|done|by apply unchanged_inv|].
  apply (free_handler_inv m j ks h i t T (set_waiting false T, [DispatchGetTransactionStatus t rq], false) as_);
    try done.
  intros rec Hasked. by apply (resolving_ok j t (set_waiting false T) rec).
Qed.

(** ** The remote participant answers *)

(** The transaction of a question is locked and nothing else is in flight. *)
Lemma control_question t T es k1 k k2 :
  control t T es (k1 ++ k :: k2) → k = TaskStatus t ∨ (∃ rq, k = TaskPhase t rq) →
  k1 = [] ∧ k2 = [] ∧ is_waiting_for_remote T = false ∧ current_phase T ≠ TransactionPhase.NotStarted.
Proof.
  intros Hc Hk. inversion Hc as [Hw Hn Heq|d' b' Hw Hp Hd Hs Heq|d' b' Hw Hp Hd Heq|w Hw Hcc Hnd Hf Hl Hprog Heq
                 |k' Hw Hn Hk' Heq|Hw Heq].
  - by destruct k1.
  - destruct k1 as [|? []]; simplify_eq/=. by destruct Hk as [|[]].
  - destruct k1 as [|? []]; simplify_eq/=. by destruct Hk as [|[]].
  - apply fmap_app_inv in Heq as (w1 & w2' & _ & H2 & _).
    symmetry in H2. apply fmap_cons_inv in H2 as (i' & w2 & -> & _). by destruct Hk as [|[]].
  - destruct k1 as [|? []]; by simplify_eq/=.
  - destruct k1 as [|? []]; simplify_eq/=. by destruct Hk as [|[]].
Qed.

Lemma question_asked j t T k1 k k2 rec es :
  txn_ok j t T (k1 ++ k :: k2) rec es → k = TaskStatus t ∨ (∃ rq, k = TaskPhase t rq) →
  k1 = [] ∧ k2 = [] ∧ phase_asked T rec es.
Proof.
  intros [Hwf Hc Hrec _ _ _ Hdec] Hk. destruct (control_question _ _ _ _ _ _ Hc Hk) as (-> & -> & Hw & Hn).
  split; [done|]. split; [done|]. by constructor.
Qed.

Lemma released_ok j t T T' rec es :
  phase_asked T rec es → well_formed T' → id T' = id T → txn_commands T' = txn_commands T →
  current_phase T' = current_phase T → is_waiting_for_remote T' = true → outcome_ok j t T [] rec es (T', [], false).
Proof.
  intros [Hwf Hw Hn Hrec Hdec] Hwf' Hid Hc Hp Hw'. unfold outcome_ok. split; [done|]. split; [apply about_nil|].
  split; [by intros q k Hq%elem_of_nil|]. change (events_of []) with (@nil Event). rewrite !app_nil_r.
  apply idle_ok; [done| |by apply (recorded_same T)|by apply (decided_same T)].
  apply control_waiting; [done|]. by rewrite Hp.
Qed.

Lemma rolling_ok j t T rec es rq :
  phase_asked T rec es → outcome_ok j t T [] rec es (T, [DispatchExecutePhase t rq], false).
Proof.
  intros []. unfold outcome_ok. split; [done|]. split.
  { intros a ->%list_elem_of_singleton. split; [|done]. by intros k ->%list_elem_of_singleton. }
  split; [by intros q k Hq%elem_of_nil|].
  change (events_of [_]) with (@nil Event). rewrite (app_nil_r es). cbn [app].
  change (tasks_of [_]) with [TaskPhase t rq]. apply one_task_ok; try done.
  apply control_asking; [done..|]. right. by exists rq.
Qed.

(** The lock is given back. *)
Lemma released_effect t T T' m (x : ExecutionResult) m' :
  well_formed T' → id T' = id T → txn_commands T' = txn_commands T → current_phase T' = current_phase T →
  is_waiting_for_remote T' = false →
  UnlockRemotelyCoordinatedTransaction t (at_txn t T' m) = Some (x, m') → asked_effect t T m m'.
Proof.
  intros Hwf Hid Hc Hp Hw Hrun. rewrite unlock_run in Hrun by (done || by apply Hwf). injection Hrun as _ <-.
  exists (set_waiting true T', [], false), (answers m). split.
  { unfold after_handler. by rewrite emitting_nil, with_answers_id. }
  intros j rec es _ Hasked. apply released_ok; try done. by apply set_waiting_well_formed.
Qed.

Lemma then_nothing {A} (x : State Machine A) m (m' : Machine (Command := Command)) :
  (x;; mret ()) m = Some ((), m') → ∃ a, x m = Some (a, m').
Proof.
  unfold mbind, State_bind. destruct (x m) as [[a m1]|]; [|done]. intros Hrun. injection Hrun as <-. by exists a.
Qed.

Lemma OnRemoteTransactionNotFound_effect t T m m' :
  machine_ok m → active m !! id T = Some t → well_formed T → is_waiting_for_remote T = false →
  OnRemoteTransactionNotFound settings now t (at_txn t T m) = Some ((), m') → asked_effect t T m m'.
Proof.
  intros Hok Hi Hwf Hw Hrun. unfold OnRemoteTransactionNotFound in Hrun.
  erewrite bind_run in Hrun; [|by apply deref_run]. cbv beta zeta in Hrun.
  destruct (negb _) eqn:Hp.
  - erewrite bind_run in Hrun; [|by apply update_run]. apply then_nothing in Hrun as [x Hrun].
    apply (released_effect t T (set_blocked true T) m x); try done. by destruct Hwf.
  - apply then_nothing in Hrun as [x Hrun]. by eapply asked_run.
Qed.

(** The phases are ordered. *)
Lemma phases_trichotomy (p q : TransactionPhase) :
  TransactionPhase.ltb p q = false → TransactionPhase.ltb q p = false → TransactionPhase.eqb q p = true.
Proof. by destruct p, q. Qed.

Lemma OnGetRemoteTransactionStatusCallback_effect t e rs T m m' :
  machine_ok m → active m !! id T = Some t → well_formed T → is_waiting_for_remote T = false →
  OnGetRemoteTransactionStatusCallback settings now t e rs (at_txn t T m) = Some ((), m') → asked_effect t T m m'.
Proof.
  intros Hok Hi Hwf Hw Hrun. unfold OnGetRemoteTransactionStatusCallback in Hrun. cbv zeta in Hrun.
  assert (∀ T', well_formed T' → id T' = id T → txn_commands T' = txn_commands T →
    current_phase T' = current_phase T → is_waiting_for_remote T' = false →
    (UnlockRemotelyCoordinatedTransaction t;; mret ()) (at_txn t T' m) = Some ((), m') →
    asked_effect t T m m') as Hunlock.
  { intros T' ????? [x Hx]%then_nothing. by apply (released_effect t T T' m x). }
  destruct (negb (Successful e)).
  { destruct (_ || _); [by apply OnRemoteTransactionNotFound_effect|by apply (Hunlock T)]. }
  destruct rs as [rs|]; [|done].
  erewrite bind_run in Hrun; [|by apply from_some_run]. cbv beta in Hrun.
  destruct (negb (is_expired rs)); [by apply (Hunlock T)|].
  erewrite bind_run in Hrun; [|by apply deref_run]. cbv beta in Hrun.
  destruct (negb (LocalAndRemoteTransactionsInSync _ _)).
  { erewrite bind_run in Hrun; [|by apply update_run]. apply (Hunlock (set_blocked true T)); try done. by destruct Hwf. }
  destruct (TransactionPhase.ltb _ (current_phase T)) eqn:Hlt; [by apply (Hunlock T)|].
  destruct (current_phase_failed T); [by apply (Hunlock T)|].
  destruct (TransactionPhase.ltb (current_phase T) _) eqn:Hgt.
  { apply then_nothing in Hrun as [x Hrun]. unfold RollForwardLocalTransaction in Hrun.
    erewrite bind_run in Hrun; [|by apply deref_run]. cbv beta in Hrun. by eapply asked_run. }
  rewrite phases_trichotomy in Hrun by done. apply then_nothing in Hrun as [x Hrun].
  unfold RollForwardLocalAndRemoteTransactions in Hrun.
  erewrite bind_run in Hrun; [|by apply deref_run]. cbv beta zeta in Hrun.
  erewrite bind_run in Hrun; [|by apply emit_run]. injection Hrun as _ <-.
  eexists (_, [_], false), (answers m). split; [by rewrite with_answers_id|].
  intros j rec es _ Hasked. by apply rolling_ok.
Qed.

Lemma OnRollForwardRemoteTransactionCallback_effect t rq e T m m' :
  machine_ok m → active m !! id T = Some t → well_formed T → is_waiting_for_remote T = false →
  OnRollForwardRemoteTransactionCallback settings now t rq e (at_txn t T m) = Some ((), m') → asked_effect t T m m'.
Proof.
  intros Hok Hi Hwf Hw Hrun. unfold OnRollForwardRemoteTransactionCallback in Hrun.
  destruct (negb (Successful e)).
  - apply then_nothing in Hrun as [x Hrun]. by apply (released_effect t T T m x).
  - erewrite bind_run in Hrun; [|by apply deref_run]. cbv beta in Hrun.
    apply then_nothing in Hrun as [x Hrun]. by eapply asked_run.
Qed.

Lemma question_inv m j k1 k k2 h as_ m' :
  inv (mkSystem m j (k1 ++ k :: k2) h) → Forall valid_result as_ →
  k = TaskStatus (task_txn k) ∨ (∃ rq, k = TaskPhase (task_txn k) rq) →
  (∀ T, active m !! id T = Some (task_txn k) → well_formed T → is_waiting_for_remote T = false →
     at_txn (task_txn k) T (started as_ m) = started as_ m → asked_effect (task_txn k) T (started as_ m) m') →
  inv (settle m' j (k1 ++ k2) h).
Proof.
  intros I Has Hk Heff. destruct (inv_task _ _ _ _ _ _ I) as (T & Hi & HT).
  destruct (inv_txn _ _ _ _ _ _ _ I Hi HT) as (_ & rec0 & Hok0). rewrite mine_middle in Hok0.
  destruct (question_asked _ _ _ _ _ _ _ _ Hok0 Hk) as (_ & _ & Hasked0).
  destruct (Heff T) as (outcome & rest & -> & Hout);
    [done|by apply Hok0|by apply Hasked0|by apply at_txn_id|].
  rewrite after_handler_started.
  apply (task_handler_inv m j k1 k k2 h T h outcome rest); try done.
  intros rec Hok. destruct (question_asked _ _ _ _ _ _ _ _ Hok Hk) as (-> & -> & Hasked). by apply Hout.
Qed.

Lemma status_inv m j k1 t k2 h e rs as_ x m' :
  inv (mkSystem m j (k1 ++ TaskStatus t :: k2) h) → Forall valid_result as_ →
  handled as_ (OnGetRemoteTransactionStatusCallback settings now t e rs) m = Some (x, m') →
  inv (settle m' j (k1 ++ k2) h).
Proof.
  intros I Has Hrun. apply (question_inv m j k1 (TaskStatus t) k2 h as_); [done|done|by left|].
  intros T Hi Hwf Hw Hm. cbn [task_txn] in *. destruct x.
  apply (OnGetRemoteTransactionStatusCallback_effect t e rs); try done; [exact (inv_machine _ I)|]. by rewrite Hm.
Qed.

Lemma roll_forward_inv m j k1 t rq k2 h e as_ x m' :
  inv (mkSystem m j (k1 ++ TaskPhase t rq :: k2) h) → Forall valid_result as_ →
  handled as_ (OnRollForwardRemoteTransactionCallback settings now t rq e) m = Some (x, m') →
  inv (settle m' j (k1 ++ k2) h).
Proof.
  intros I Has Hrun. apply (question_inv m j k1 (TaskPhase t rq) k2 h as_); [done|done|right; by exists rq|].
  intros T Hi Hwf Hw Hm. cbn [task_txn] in *. destruct x.
  apply (OnRollForwardRemoteTransactionCallback_effect t rq e); try done; [exact (inv_machine _ I)|]. by rewrite Hm.
Qed.

End requests.
