(* ===== verification/TransactionDurability.v ===== *)
(** * Transactions start, reach the journal, and survive a crash

    The remaining steps of the system of [TransactionSystem]: a transaction is
    started, a log is stored, the service crashes, recovers from the journal and
    resumes its transactions. With them, every reachable state satisfies the
    invariant of [TransactionSystem]. *)

From S2P Require Import Prelude ExecutionResult ErrorCodes Uuid Serialization.
From S2P Require Import AutoExpiryMap AutoExpiryView StateMonad TransactionPhases TransactionLog TransactionEngine.
From S2P Require Import TransactionRemote TransactionRecovery TransactionReplay TransactionSystem.
From S2P Require Import TransactionSteps TransactionSafety TransactionRequests.
From stdpp Require Import options.

Local Open Scope Z_scope.

Section durability.
  Context {msgs : EngineLogMessages} {laws : EngineLogLaws}.
  Context {Command : Type} `{!TransactionCommandSerializerInterface Command}
    `{!TransactionCommandSerializerLaws Command}.
  Implicit Types (m : Machine (Command := Command)) (T : Transaction Command) (t : txn_loc)
    (rec : option (Recovered (Command := Command))) (acts : list (Action (Command := Command))).
  #[local] Set Default Proof Using "Type*".
  Variable settings : Settings.
  Variable now : Clock.

(** ** A transaction is started *)

Lemma forget_lookup m i h i' :
  forget m i h !!! i' = if decide (i' = i ∧ active m !! i = None) then [] else h !!! i'.
Proof.
  unfold forget. destruct (active m !! i) eqn:Hi; [by rewrite decide_False by by intros []|].
  destruct (decide (i' = i)) as [->|Hne].
  - rewrite decide_True by done. by rewrite lookup_total_delete_eq.
  - rewrite decide_False by by intros []. by rewrite lookup_total_delete_ne.
Qed.

Lemma forget_inv m j ks h i : inv (mkSystem m j ks h) → inv (mkSystem m j ks (forget m i h)).
Proof.
  intros [Hok Hact Htasks Hread (M & HM & Hnone & Htxn) Hlog]. constructor; try done.
  - exists M. split; [done|]. split; [done|]. intros i' t T Hi HT. cbn [history] in *.
    rewrite forget_lookup, decide_False; [by apply Htxn|]. intros [-> Hi']. cbn [machine] in *. congruence.
  - intros i' p k. cbn [history journal] in *. rewrite forget_lookup.
    destruct (decide _); [by intros ?%elem_of_nil|]. by apply Hlog.
Qed.

Lemma remote_check (rq : TransactionRequest Command) :
  request_is_coordinated_remotely rq = true →
  (request_is_coordinated_remotely rq &&
    (null_or_empty (request_transaction_secret rq) || null_or_empty (request_transaction_origin rq)) = false) →
  null_or_empty (request_transaction_secret rq) = false ∧ null_or_empty (request_transaction_origin rq) = false.
Proof. intros ->. cbn [andb]. by intros []%orb_false_elim. Qed.

Lemma new_transaction_well_formed c :
  request_is_coordinated_remotely (request c) = true → valid_uuid (request_transaction_id (request c)) →
  valid_request (request c) → well_formed (new_transaction settings now c).
Proof.
  intros Hr Hid (bodies & l & _ & _ & _ & Hlen & _). by constructor.
Qed.

(** The log of a new transaction. *)
Lemma SerializeTransaction_reads c :
  request_is_coordinated_remotely (request c) = true → valid_request (request c) →
  null_or_empty (request_transaction_secret (request c)) = false →
  null_or_empty (request_transaction_origin (request c)) = false →
  let T := new_transaction settings now c in
  ∃ d, SerializeTransaction T = Some (SuccessExecutionResult, d) ∧ reads_transaction d T.
Proof.
  intros Hr Hv Hs Ho T. destruct (SerializeTransaction_written T) as (d & l & Hd & Hread & Hid & Hlr & Hso & _ & Hcs);
    [done..|].
  exists d. split; [done|]. exists l. change (context T) with c in *.
  destruct (Hso Hr) as [-> ->]. by rewrite Hlr.
Qed.

(** Either nothing that is active changes, or there is a new transaction whose log
    is dispatched. *)
Lemma Execute_effect c m (x : ExecutionResult) m' :
  machine_ok m → request_is_coordinated_remotely (request c) = true → valid_request (request c) →
  is_journal_recovery (request c) = false →
  Execute settings now c m = Some (x, m') →
  let t := fresh (dom (transactions m)) in
  let i := request_transaction_id (request c) in
  let T := new_transaction settings now c in
  machine_ok m' ∧
  (((∀ t T, transactions m !! t = Some T → transactions m' !! t = Some T) ∧ active m' = active m ∧
    actions m' = actions m) ∨
   active m !! i = None ∧ transactions m' = <[t := T]> (transactions m) ∧ active m' = <[i := t]> (active m) ∧
   ∃ d, actions m' = actions m ++ [DispatchLog d (OnLogTransaction TransactionPhase.NotStarted t)] ∧
     reads_transaction d T).
Proof.
  intros Hok Hr Hv Hrec Hrun t i T. unfold Execute in Hrun.
  destruct (request_is_coordinated_remotely (request c) &&
    (null_or_empty (request_transaction_secret (request c)) ||
     null_or_empty (request_transaction_origin (request c)))) eqn:Hcheck.
  { unfold InitializeTransaction in Hrun. rewrite Hcheck in Hrun. injection Hrun as <- <-.
    split; [done|]. by left. }
  destruct (InitializeTransaction_run settings now c m Hok Hcheck) as (m1 & Hinit & Htx & _ & Hacts & Hok1 & Hact1).
  erewrite bind_run in Hrun; [|exact Hinit]. cbv beta in Hrun. fold t i T in Htx, Hact1, Hrun.
  destruct (active m !! i) as [t'|] eqn:Hi.
  - rewrite Hrec, andb_false_r in Hrun. change (negb (Successful (FailureExecutionResult _))) with true in Hrun.
    cbn iota in Hrun. injection Hrun as _ <-. split; [done|]. left. split; [|done]. intros t0 T0 HT0.
    rewrite Htx, lookup_insert_ne; [done|]. intros <-.
    apply (is_fresh (dom (transactions m))), elem_of_dom. by exists T0.
  - destruct (remote_check _ Hr Hcheck) as [Hs Ho].
    destruct (SerializeTransaction_reads c Hr Hv Hs Ho) as (d & Hd & Hread).
    change (negb (Successful SuccessExecutionResult)) with false in Hrun. cbn iota in Hrun.
    unfold LogTransactionAndProceedToNextPhase in Hrun.
    assert (at_txn t T m1 = m1) as Hm by (apply at_txn_id; by rewrite Htx, lookup_insert_eq).
    rewrite <- Hm in Hrun. erewrite bind_run in Hrun; [|by apply deref_run]. cbv beta in Hrun.
    erewrite bind_run in Hrun; [|apply from_some_run; exact Hd]. cbv beta iota in Hrun.
    change (negb (Successful SuccessExecutionResult)) with false in Hrun. cbn iota in Hrun.
    erewrite bind_run in Hrun; [|by apply emit_run]. injection Hrun as _ <-.
    split; [done|]. right. split; [done|]. split; [by simpl; rewrite Htx, insert_insert_eq|].
    split; [done|]. exists d. split; [|done]. simpl. by rewrite Hacts.
Qed.

(** The system with a new transaction. *)
Lemma new_transaction_inv m j ks h c d m' :
  inv (mkSystem m j ks h) → machine_ok m' →
  request_is_coordinated_remotely (request c) = true → valid_uuid (request_transaction_id (request c)) →
  valid_request (request c) →
  let t := fresh (dom (transactions m)) in
  let i := request_transaction_id (request c) in
  let T := new_transaction settings now c in
  active m !! i = None → h !!! i = [] → transactions m' = <[t := T]> (transactions m) → active m' = <[i := t]> (active m) →
  actions m' = [DispatchLog d (OnLogTransaction TransactionPhase.NotStarted t)] → reads_transaction d T →
  inv (settle m' j ks h).
Proof.
  intros [Hok Hact Htasks Hread (M & HM & Hnone & Htxn) Hlog] Hok' Hr Hvalid Hv t i T Hi Hhi Htx Ha Hacts Hd.
  cbn [machine journal tasks history] in *. unfold settle. rewrite Hacts. cbn [record_actions action_events].
  change (tasks_of [_]) with [TaskLog d (OnLogTransaction TransactionPhase.NotStarted t) false].
  assert (∀ t' T', transactions m !! t' = Some T' → t' ≠ t) as Hfresh.
  { intros t' T' HT' ->. apply (is_fresh (dom (transactions m))), elem_of_dom. by exists T'. }
  assert (∀ k, k ∈ ks → task_txn k ≠ t) as Hks.
  { intros k Hk. destruct (Htasks k Hk) as [i' Hi']. destruct (Hact i' _ Hi') as (T' & HT' & _). by eapply Hfresh. }
  constructor; cbn [machine journal tasks history]; rewrite ?Ha; try done.
  - intros i' t' [[<- <-]|[Hne Hi']]%lookup_insert_Some.
    + exists T. by rewrite Htx, lookup_insert_eq.
    + destruct (Hact i' t' Hi') as (T' & HT' & Hid). exists T'. rewrite Htx, lookup_insert_ne; [done|].
      apply not_eq_sym. by eapply Hfresh.
  - intros k [Hk| ->%list_elem_of_singleton]%elem_of_app.
    + destruct (Htasks k Hk) as [i' Hi']. exists i'. rewrite lookup_insert_ne; [done|]. intros <-. congruence.
    + exists i. by rewrite lookup_insert_eq.
  - exists M. split; [done|]. split.
    { intros i' [Hi' _]%lookup_insert_None. by apply Hnone. }
    intros i' t' T' [[<- <-]|[Hne Hi']]%lookup_insert_Some HT'.
    + rewrite Htx, lookup_insert_eq in HT'. simplify_eq. rewrite mine_app, (mine_none t ks), Hhi, (Hnone i Hi) by done.
      rewrite (mine_all t [_]) by by intros k ->%list_elem_of_singleton. cbn [app].
      apply one_task_ok; [done|by apply new_transaction_well_formed|by apply control_starting|by left|].
      constructor; [done|by intros r [=]|by intros [k []%elem_of_nil]].
    + destruct (Hact i' t' Hi') as (T0 & HT0 & _). assert (t' ≠ t) as Ht' by by eapply Hfresh.
      rewrite Htx, lookup_insert_ne in HT' by done. rewrite mine_app, (mine_none t' [_]), app_nil_r; [by apply Htxn|].
      intros k ->%list_elem_of_singleton. by apply not_eq_sym.
Qed.

Lemma execute_inv m j ks h rq cb as_ x m' :
  inv (mkSystem m j ks h) → valid_uuid (request_transaction_id rq) → valid_request rq →
  request_is_coordinated_remotely rq = true → is_journal_recovery rq = false →
  handled as_ (Execute settings now (NewContext rq cb)) m = Some (x, m') →
  inv (settle m' j ks (forget m (request_transaction_id rq) h)).
Proof.
  intros I Hid Hv Hr Hrec Hrun. unfold handled in Hrun. fold (started as_ m) in Hrun.
  pose proof (forget_inv m j ks h (request_transaction_id rq) I) as I'.
  apply Execute_effect in Hrun as (Hok & [(Htx & Ha & Hacts)|(Hi & Htx & Ha & d & Hacts & Hd)]);
    [| |exact (inv_machine _ I)|done..].
  - apply (quiet_inv m j ks); try done. intros a. rewrite Hacts. by intros ?%elem_of_nil.
  - apply (new_transaction_inv m j ks _ (NewContext rq cb) d m'); try done.
    by rewrite forget_lookup, decide_True.
Qed.

(** ** A log is stored *)

(** The journal with the log [d] of [T] is at the phase of [T]. *)
Definition stores (d : BytesBuffer) T (M : gmap Uuid (Recovered (Command := Command))) (es : list Event) : Prop :=
  ∃ e M', ReadEngineLog d = Some (SuccessExecutionResult, Some e) ∧ replay_entry e M = Some M' ∧
    (∀ i, i ≠ id T → M' !! i = M !! i) ∧ recorded T (M' !! id T) ∧ recorded_at (current_phase T) (M' !! id T) ∧
    decided T (M' !! id T) es.

Lemma stores_transaction d T M es :
  reads_transaction d T → current_phase T = TransactionPhase.NotStarted →
  recorded T (M !! id T) → decided T (M !! id T) es → stores d T M es.
Proof.
  intros (l & Hread & Hid & Hr & Hs & Ho & Hcs) Hp Hrec [Hd1 Hd2 Hd3].
  assert (∃ M', replay_entry (TransactionEntry l) M = Some M' ∧ (∀ i, i ≠ id T → M' !! i = M !! i) ∧
    ∃ r, M' !! id T = Some r ∧ rec_phase r = TransactionPhase.NotStarted ∧ recorded T (Some r))
    as (M' & HM' & Hothers & r & HMr & Hrp & Hrr).
  { cbn [replay_entry]. rewrite Hcs, Hr, Hs, Ho. cbn [andb orb].
    change (negb (Successful SuccessExecutionResult)) with false. cbn iota. rewrite Hid.
    destruct (M !! id T) as [r|] eqn:HMr; eexists; (split; [done|]); (split; [by intros; rewrite ?lookup_insert_ne|]).
    - exists r. split; [done|]. split; [|done]. destruct Hrec as (Hle & _). rewrite Hp in Hle.
      destruct (rec_phase r); simpl in Hle; done || lia.
    - eexists. rewrite lookup_insert_eq. split; [done|]. split; [done|]. unfold recorded. cbn. by rewrite Hp, Hr. }
  exists (TransactionEntry l), M'. split; [done|]. split; [done|]. split; [done|]. rewrite HMr.
  split; [done|]. split; [by rewrite Hp|]. constructor; [done| |done].
  intros r' [= <-]. by rewrite Hrp.
Qed.

Lemma stores_phase d T M es :
  reads_phase d (id T) (current_phase T) → logs_first (current_phase T) = true →
  recorded T (M !! id T) → decided T (M !! id T) es → stores d T M es.
Proof.
  intros (l & Hread & Hid & Hp & Hcode) Hlf Hrec [Hd1 Hd2 Hd3].
  unfold stores. exists (PhaseEntry l). cbn [replay_entry]. rewrite Hid, Hp.
  destruct (M !! id T) as [r|] eqn:HMr.
  - pose proof Hrec as (Hle & Hru & Hre & Hcs & Hrm & Hrc).
    assert (TransactionPhase.ltb (current_phase T) (rec_phase r) = false) as ->.
    { unfold TransactionPhase.ltb. by apply Z.ltb_ge. }
    destruct (TransactionPhase.eqb (current_phase T) TransactionPhase.End) eqn:Hend.
    + apply TransactionPhase.eqb_spec in Hend. eexists. split; [done|]. split; [done|].
      split; [by intros; rewrite lookup_delete_ne|]. rewrite lookup_delete_eq.
      split; [by right|]. split; [done|]. by constructor.
    + apply TransactionPhase.eqb_false in Hend. eexists. split; [done|]. split; [done|].
      split; [by intros; rewrite lookup_insert_ne|]. rewrite lookup_insert_eq. split; [|split; [done|]].
      * unfold recorded; cbn. split_and!; try done. by destruct (current_phase T).
      * constructor; [done| |done]. intros r' [= <-]. by apply Hd1.
  - destruct Hrec as [Hn|Hend]; [by rewrite Hn in Hlf|]. rewrite Hend. cbn [TransactionPhase.eqb].
    exists M. split; [done|]. split; [done|]. split; [done|]. rewrite HMr.
    split; [by right|]. split; [done|]. by constructor.
Qed.

Lemma control_persist t T es k1 d cb b b' k2 :
  control t T es (k1 ++ TaskLog d cb b :: k2) → control t T es (k1 ++ TaskLog d cb b' :: k2).
Proof.
  intros (-> & -> & Hw & Hcases)%control_log.
  destruct Hcases as [(Hp & -> & Hd & Hs)|(Hp & -> & Hd)]; [by apply control_starting|by apply control_logging].
Qed.

Lemma txn_ok_journal j d t T ks rec es : txn_ok j t T ks rec es → txn_ok (j ++ [d]) t T ks rec es.
Proof.
  intros [Hwf Hc Hrec Hper Hrun Hres Hdec]. constructor; try done. intros d' cb Hin.
  destruct (Hper d' cb Hin) as [Hd ?]. split; [|done]. apply elem_of_app. by left.
Qed.

Lemma log_stores j t T ks d cb b es M :
  txn_ok j t T ks (M !! id T) es → TaskLog d cb b ∈ ks → stores d T M es.
Proof.
  intros [Hwf Hc Hrec Hper Hrun Hres Hdec] (k1 & k2 & ->)%list_elem_of_split.
  apply control_log in Hc as (_ & _ & _ & [(Hp & _ & Hd & _)|(Hp & _ & Hd)]).
  - by apply stores_transaction.
  - by apply stores_phase.
Qed.

Lemma persist_inv m j k1 k2 h d cb :
  inv (mkSystem m j (k1 ++ TaskLog d cb false :: k2) h) →
  inv (mkSystem m (j ++ [d]) (k1 ++ TaskLog d cb true :: k2) h).
Proof.
  intros I. destruct (inv_task _ _ _ _ _ _ I) as (T & Hi & HT). cbn [task_txn] in *. set (t := log_txn cb) in *.
  destruct I as [Hok Hact Htasks Hread (M & HM & Hnone & Htxn) Hlog].
  cbn [machine journal tasks history] in *.
  pose proof (Htxn _ _ _ Hi HT) as HT0. pose proof (mine_middle k1 (TaskLog d cb false) k2) as Hmine.
  pose proof (mine_middle k1 (TaskLog d cb true) k2) as Hmine'. cbn [task_txn] in Hmine, Hmine'. fold t in Hmine, Hmine'.
  destruct (log_stores _ _ _ _ d cb false _ M HT0) as (e & M' & Hde & HM' & Hothers & Hrec & Hat & Hdec).
  { rewrite Hmine. apply elem_of_app. right. by left. }
  constructor; cbn [machine journal tasks history]; try done.
  - intros k. rewrite elem_of_app, elem_of_cons. intros [Hk|[->|Hk]]; [| |].
    + apply Htasks, elem_of_app. by left.
    + by exists (id T).
    + apply Htasks, elem_of_app. right. by right.
  - apply Forall_app_2; [done|]. constructor; [|done]. by exists e.
  - exists M'. split; [|split].
    + unfold replay in *. rewrite replay_from_app, HM. simpl. unfold entry_of. rewrite Hde. simpl. by rewrite HM'.
    + intros i Hni. rewrite Hothers by (intros ->; congruence). by apply Hnone.
    + intros i t' T' Hi' HT'. destruct (decide (i = id T)) as [->|Hne].
      * simplify_eq. rewrite Hmine'. rewrite Hmine in HT0.
        destruct HT0 as [Hwf Hc _ Hper Hrun Hres _].
        pose proof (control_log _ _ _ _ _ _ _ _ Hc) as (Hk1 & Hk2 & _). rewrite Hk1, Hk2 in *.
        constructor; try done.
        -- by apply (control_persist _ _ _ [] _ _ false).
        -- intros d' cb' [= -> ->]%list_elem_of_singleton. split; [|done]. apply elem_of_app. right. by left.
        -- by intros i p ?%list_elem_of_singleton.
      * rewrite Hothers by done. apply txn_ok_journal.
        assert (t' ≠ t) as Ht'. { intros ->. destruct (Hact _ _ Hi') as (T0 & HT0' & <-). congruence. }
        pose proof (Htxn _ _ _ Hi' HT') as HT''.
        rewrite <- (mine_other t' k1 (TaskLog d cb true) k2) by done.
        by rewrite (mine_other t' k1 (TaskLog d cb false) k2) by done.
  - intros i p k Hin. destruct (Hlog i p k Hin) as [?|(d' & Hd' & ?)]; [by left|]. right. exists d'.
    split; [|done]. apply elem_of_app. by left.
Qed.

(** ** A recovered transaction is resumed *)

Lemma control_resume t T es k1 k2 :
  control t T es (k1 ++ TaskResume t :: k2) → k1 = [] ∧ k2 = [] ∧ is_waiting_for_remote T = false.
Proof.
  inversion 1 as [Hw Hn Heq|d' b' Hw Hp Hd Hs Heq|d' b' Hw Hp Hd Heq|w Hw Hc Hnd Hf Hl Hprog Heq
                 |k Hw Hn Hk Heq|Hw Heq].
  - by destruct k1.
  - by destruct k1 as [|? []]; simplify_eq/=.
  - by destruct k1 as [|? []]; simplify_eq/=.
  - apply fmap_app_inv in Heq as (w1 & w2' & _ & H2 & _).
    symmetry in H2. by apply fmap_cons_inv in H2 as (i' & w2 & ? & _).
  - destruct k1 as [|? []]; simplify_eq/=; by destruct Hk as [|[]].
  - by destruct k1 as [|? []]; simplify_eq/=.
Qed.

(** What a handler that resumes a transaction does. *)
Definition resumed_effect t T m m' : Prop :=
  ∃ outcome rest, m' = after_handler t outcome (with_answers rest m) ∧
    ∀ j rec es, Forall valid_result (answers m) → recorded T rec → recorded_at (current_phase T) rec →
      decided T rec es → outcome_ok j t T [] rec es outcome.

Lemma resumed_begin_ok j t T rec es rs :
  well_formed T → is_waiting_for_remote T = false →
  current_phase T = TransactionPhase.NotStarted ∨ current_phase T = TransactionPhase.Begin →
  recorded T rec → recorded_at (current_phase T) rec → decided T rec es →
  Forall valid_result rs → length rs = length (txn_commands T) →
  outcome_ok j t T [] rec es (commands_called now t TransactionPhase.Begin rs (set_current_phase TransactionPhase.Begin T)).
Proof.
  intros Hwf Hw Hp Hrec Hat [_ Hd2 Hd3] Hrs Hlen.
  pose proof (commands_called_ok now j t TransactionPhase.Begin (set_current_phase TransactionPhase.Begin T) rec es rs)
    as Hok.
  destruct (commands_called _ _ _ _ _) as [[T' acts] gone]. apply Hok; [|done..]. constructor; try done.
  - by destruct Hwf.
  - destruct rec as [r|]; [|simpl in Hat; by destruct Hp; congruence].
    destruct Hrec as (Hle & Hrest). split; [|exact Hrest]. cbn [current_phase set_current_phase].
    destruct Hp as [Hp|Hp]; rewrite Hp in Hle; simpl in *; lia.
Qed.

Lemma logging_ok j t T rec es d :
  well_formed T → is_waiting_for_remote T = false → logs_first (current_phase T) = true →
  SerializeState T = Some (SuccessExecutionResult, d) → recorded T rec → decided T rec es →
  outcome_ok j t T [] rec es (T, [DispatchLog d (phase_log_callback (current_phase T) t)], false).
Proof.
  intros Hwf Hw Hp Hd Hrec Hdec. unfold outcome_ok. split; [done|]. split.
  { intros a ->%list_elem_of_singleton. split; [|done]. intros k ->%list_elem_of_singleton. by destruct (current_phase T). }
  split; [by intros q k Hq%elem_of_nil|].
  change (events_of [_]) with (@nil Event). rewrite (app_nil_r es). cbn [app].
  change (tasks_of [DispatchLog d ?cb]) with [TaskLog d cb false]. apply one_task_ok; try done.
  apply control_logging; [done..|]. by apply reads_written; [apply well_formed_loggable|].
Qed.

Lemma ProceedToNextPhaseAfterRecovery_run t T m :
  machine_ok m → well_formed T → is_waiting_for_remote T = false → current_phase T ≠ TransactionPhase.Unknown →
  ∃ m', ProceedToNextPhaseAfterRecovery now t (at_txn t T m) = Some ((), m') ∧ resumed_effect t T m m'.
Proof.
  intros Hok Hwf Hw Hk. destruct (SerializeState_written T) as (d & Hd & _); [apply Hwf..|].
  assert (∀ cb, (LogState t cb;; mret ()) (at_txn t T m) =
    Some ((), after_handler t (T, [DispatchLog d cb], false) m)) as Hlog.
  { intros cb. by rewrite (bind_run _ _ _ _ _ (LogState_run t cb T m d Hd)). }
  unfold ProceedToNextPhaseAfterRecovery. run_step.
  destruct (current_phase T) eqn:Hp; try done.
  1, 2: run_step; destruct (ExecuteDistributedPhase_run now TransactionPhase.Begin t
          (set_current_phase TransactionPhase.Begin T) m) as [rest Hrun];
        [done|by apply well_formed_locked; [destruct Hwf| |]|done|];
        eexists; split; [exact Hrun|]; eexists _, rest; (split; [done|]); intros j rec es Has ???;
        apply resumed_begin_ok; rewrite ?Hp; try done; first [by left|by right|by rewrite <- Hp|by apply Forall_take_answers
          |by rewrite take_answers_length].
  all: eexists; split; [apply Hlog|]; eexists _, (answers m);
    (split; [by rewrite with_answers_id|]); intros j rec es _ ???.
  all: pose proof (logging_ok j t T rec es d Hwf Hw) as Hres; rewrite Hp in Hres; by apply Hres.
Qed.

Lemma resume_inv m j k1 t k2 h as_ x m' :
  inv (mkSystem m j (k1 ++ TaskResume t :: k2) h) → Forall valid_result as_ →
  handled as_ (ProceedToNextPhaseAfterRecovery now t) m = Some (x, m') → inv (settle m' j (k1 ++ k2) h).
Proof.
  intros I Has Hrun. unfold handled in Hrun. fold (started as_ m) in Hrun.
  destruct (inv_task _ _ _ _ _ _ I) as (T & Hi & HT). cbn [task_txn] in *.
  destruct (inv_txn _ _ _ _ _ _ _ I Hi HT) as (_ & rec0 & Hok0).
  pose proof (mine_middle k1 (TaskResume t) k2) as Hmine. cbn [task_txn] in Hmine. rewrite Hmine in Hok0.
  destruct (control_resume _ _ _ _ _ (ok_control _ _ _ _ _ _ Hok0)) as (_ & _ & Hw).
  assert (recorded_at (current_phase T) rec0) as Hat0.
  { apply (ok_resuming _ _ _ _ _ _ Hok0), elem_of_app. right. by left. }
  assert (current_phase T ≠ TransactionPhase.Unknown) as Hk.
  { pose proof (ok_recorded _ _ _ _ _ _ Hok0) as Hrec. destruct rec0 as [r|]; [|simpl in Hat0; congruence].
    destruct Hrec as (_ & Hu & _). simpl in Hat0. congruence. }
  destruct (ProceedToNextPhaseAfterRecovery_run t T (started as_ m)) as (m1 & Hrun' & outcome & rest & -> & Hout);
    [exact (inv_machine _ I)|apply Hok0|done..|].
  rewrite at_txn_id in Hrun' by done. rewrite Hrun' in Hrun. injection Hrun as _ <-.
  rewrite after_handler_started.
  apply (task_handler_inv m j k1 (TaskResume t) k2 h T h outcome rest); try done.
  cbn [task_txn]. intros rec Hok. destruct (control_resume _ _ _ _ _ (ok_control _ _ _ _ _ _ Hok)) as (Hk1 & Hk2 & _).
  destruct Hok as [_ _ Hrec _ _ Hres Hdec]. rewrite Hk1, Hk2 in *. apply Hout; try done. apply Hres. by left.
Qed.

(** ** The service crashes and recovers *)

(** [Run] resumes the transactions that have not ended, one by one. *)
Definition resumable m (i : Uuid) : option txn_loc :=
  t ← active m !! i;
  T ← transactions m !! t;
  if TransactionPhase.eqb (current_phase T) TransactionPhase.End then None else Some t.

(** The transactions of [m2] are those of [m] up to the context that the remote
    coordinator is answered with. *)
Definition same_transactions m m2 : Prop :=
  active m2 = active m ∧ machine_ok m2 ∧
  ∀ t T, transactions m !! t = Some T → ∃ c, transactions m2 !! t = Some (set_remote_phase_context c T).

Lemma same_transactions_refl m : machine_ok m → same_transactions m m.
Proof. intros Hok. split; [done|]. split; [done|]. intros t T HT. exists (remote_phase_context T). by destruct T. Qed.

Lemma same_transactions_trans m1 m2 m3 : same_transactions m1 m2 → same_transactions m2 m3 → same_transactions m1 m3.
Proof.
  intros (Ha & _ & Ht) (Ha' & Hok & Ht'). split; [congruence|]. split; [done|].
  intros t T HT. destruct (Ht t T HT) as [c HT2]. destruct (Ht' _ _ HT2) as [c' HT3]. by exists c'.
Qed.

Lemma same_transactions_at t T c m : machine_ok m → transactions m !! t = Some T →
  same_transactions m (at_txn t (set_remote_phase_context c T) m).
Proof.
  intros Hok HT. split; [done|]. split; [done|]. intros t' T' HT'. simpl.
  destruct (decide (t' = t)) as [->|Hne]; [rewrite lookup_insert_eq; simplify_eq; by exists c|].
  rewrite lookup_insert_ne by done. exists (remote_phase_context T'). by destruct T'.
Qed.

Lemma resumable_same m m2 i : same_transactions m m2 →
  (∀ t, active m !! i = Some t → is_Some (transactions m !! t)) → resumable m2 i = resumable m i.
Proof.
  intros (Ha & _ & Ht) Hact. unfold resumable. rewrite Ha. destruct (active m !! i) as [t|]; [|done]. simpl.
  destruct (Hact t eq_refl) as [T HT]. destruct (Ht t T HT) as [c HT2]. by rewrite HT, HT2.
Qed.

Lemma deref_there t T m : transactions m !! t = Some T → deref t m = Some (T, m).
Proof. intros HT. unfold deref. by rewrite HT. Qed.

Lemma update_there t T f m : transactions m !! t = Some T → update t f m = Some ((), at_txn t (f T) m).
Proof. intros HT. rewrite <- (at_txn_id t T m HT) at 1. apply update_run. Qed.

Lemma run_transactions_run ids m :
  machine_ok m → (∀ i, i ∈ ids → ∃ t T, active m !! i = Some t ∧ transactions m !! t = Some T) →
  ∃ m2, run_transactions settings now ids m = Some ((SuccessExecutionResult, omap (resumable m) ids), m2) ∧
    same_transactions m m2.
Proof.
  revert m. induction ids as [|i ids IH]; intros m Hok Hids.
  { exists m. split; [done|]. by apply same_transactions_refl. }
  destruct (Hids i) as (t & T & Hi & HT); [by left|]. cbn [run_transactions].
  erewrite bind_run; [|by apply map_find_run]. cbv beta iota. rewrite Hi.
  change (negb (Successful SuccessExecutionResult)) with false. cbn iota. run_step.
  erewrite bind_run; [|by apply deref_there]. cbv beta.
  assert (∀ m1, same_transactions m m1 → ∃ m2,
    run_transactions settings now ids m1 = Some ((SuccessExecutionResult, omap (resumable m) ids), m2) ∧
    same_transactions m m2) as Hrest.
  { intros m1 Hsame. destruct (IH m1) as (m2 & Hrun & Hsame').
    - apply Hsame.
    - intros i' Hi'. destruct (Hids i') as (t' & T' & Ha' & HT'); [by right|].
      destruct Hsame as (Ha & _ & Ht). destruct (Ht _ _ HT') as [c HT2]. rewrite Ha. by eauto.
    - exists m2. split; [|by eapply same_transactions_trans]. rewrite Hrun. do 3 f_equal.
      apply list_omap_ext, Forall_Forall2_diag, Forall_forall. intros i' Hi'. apply resumable_same; [done|].
      intros t' Ha'. destruct (Hids i') as (t0 & T0 & Ha0 & HT0); [by right|].
      simplify_eq. by exists T0. }
  assert (resumable m i = if TransactionPhase.eqb (current_phase T) TransactionPhase.End then None else Some t)
    as Hres by (unfold resumable; rewrite Hi; simpl; by rewrite HT).
  cbn [omap list_omap]. rewrite Hres.
  destruct (TransactionPhase.eqb (current_phase T) TransactionPhase.End).
  { apply Hrest. by apply same_transactions_refl. }
  destruct (is_coordinated_remotely T).
  - destruct (Hrest (at_txn t (set_remote_phase_context
      (set_callback (run_callback (callback (remote_phase_context T))) (remote_phase_context T)) T) m))
      as (m2 & Hrun & Hsame); [by apply same_transactions_at|].
    exists m2. split; [|done]. erewrite bind_run; [|by apply update_there]. cbv beta.
    by erewrite bind_run; [|exact Hrun].
  - destruct (Hrest m) as (m2 & Hrun & Hsame); [by apply same_transactions_refl|].
    exists m2. split; [|done]. run_step. by erewrite bind_run; [|exact Hrun].
Qed.

Lemma mine_resumed (f : Uuid → option txn_loc) ids i t :
  NoDup ids → i ∈ ids → f i = Some t → (∀ i', f i' = Some t → i' = i) →
  mine t (TaskResume <$> omap f ids) = [TaskResume t].
Proof.
  intros Hnd Hi Hf Hinj. induction Hnd as [|i' ids Hnin Hnd IH]; [by apply elem_of_nil in Hi|].
  simpl. destruct (f i') as [t'|] eqn:Hf'.
  2:{ apply IH. by apply elem_of_cons in Hi as [->|Hi]; [congruence|]. }
  cbn [fmap list_fmap]. destruct (decide (t' = t)) as [->|Hne].
  - apply Hinj in Hf' as ->. unfold mine. rewrite filter_cons_True by done.
    fold (mine t (TaskResume <$> omap f ids)). f_equal. apply mine_none.
    intros k (t' & -> & (i' & Hi' & Hf')%list_elem_of_omap)%list_elem_of_fmap. simpl. intros ->.
    by rewrite (Hinj i' Hf') in Hi'.
  - unfold mine. rewrite filter_cons_False by done. apply IH.
    by apply elem_of_cons in Hi as [->|Hi]; [congruence|].
Qed.

Lemma empty_represents : represents (empty_machine (Command := Command)) ∅.
Proof.
  assert (active (empty_machine (Command := Command)) = ∅) as Ha.
  { unfold active, entries. cbn. by rewrite omap_empty, fmap_empty. }
  constructor; rewrite ?Ha; try done.
Qed.

(** A restored transaction is as good as the one the journal speaks of. *)
Lemma restored_ok j t t' T T' c r ks es :
  txn_ok j t T ks (Some r) es → restored (id T) T' r →
  txn_ok j t' (set_remote_phase_context c T') [TaskResume t'] (Some r) es.
Proof.
  intros [[] _ (Hle & Hru & Hre & Hcs & Hrm & Hrc) _ _ _ [_ Hd2 Hd3]] [].
  assert (txn_commands (set_remote_phase_context c T') = txn_commands T) as HcT.
  { unfold txn_commands in *. cbn [context set_remote_phase_context]. by rewrite restored_request. }
  constructor.
  - constructor; rewrite ?HcT; cbn [set_remote_phase_context is_coordinated_remotely id transaction_execution_result
      current_phase_execution_result current_phase_failed_command_indices pending_callbacks current_phase_failed];
      try congruence.
    all: try (by rewrite restored_result). all: try (by rewrite restored_phase_result).
    all: try (by rewrite restored_indices). all: by rewrite restored_pending.
  - by apply control_resuming.
  - unfold recorded. rewrite HcT. cbn [current_phase set_remote_phase_context]. rewrite restored_phase.
    by split_and!.
  - by intros d cb ?%list_elem_of_singleton.
  - by intros i p ?%list_elem_of_singleton.
  - intros _. cbn [current_phase set_remote_phase_context recorded_at]. done.
  - constructor; rewrite HcT; [|done..]. cbn [current_phase set_remote_phase_context].
    rewrite restored_phase. by apply Hd2.
Qed.

(** What a recovery from the journal of a reachable state gives. *)
Lemma recovered_machine m j ks h (x : ExecutionResult) m1 :
  inv (mkSystem m j ks h) → recover_logs settings now j empty_machine = Some (x, m1) →
  ∃ M, replay (Command := Command) j = Some M ∧ (∀ i, active m !! i = None → M !! i = None) ∧
    (x = SuccessExecutionResult ∧ represents m1 M ∨
     x = FailureExecutionResult SC_TRANSACTION_MANAGER_TRANSACTION_ALREADY_EXISTS ∧
     skip_duplicate_transaction_in_recovery_ settings = false).
Proof.
  intros [_ _ _ Hread (M & HM & Hnone & _) _] Hrun. exists M. split; [done|]. split; [done|].
  destruct (recover_logs_replay settings now j empty_machine ∅ M empty_represents Hread HM)
    as (y & m' & Hrun' & Hres). rewrite Hrun' in Hrun. by injection Hrun as -> ->.
Qed.

Lemma Run_run m1 M :
  represents m1 M → (∀ i r, M !! i = Some r → rec_phase r ≠ TransactionPhase.End) →
  ∃ m2, Run settings now m1 = Some ((SuccessExecutionResult,
      omap (λ i, active m1 !! i) (Keys (active_transactions_map_ m1)).2), m2) ∧ same_transactions m1 m2.
Proof.
  intros R Hend. destruct (Keys_implements (active_transactions_map_ m1) (represents_ok _ _ R)) as (Hk1 & _ & Hk3).
  unfold Run. set (ids := (Keys (active_transactions_map_ m1)).2).
  assert (∀ i, i ∈ ids → ∃ t T, active m1 !! i = Some t ∧ transactions m1 !! t = Some T) as Hids.
  { intros i Hi. apply Hk3 in Hi. apply elem_of_dom in Hi as [e He].
    destruct (active m1 !! i) as [t|] eqn:Hi'; [|unfold active in Hi'; by rewrite lookup_fmap, He in Hi'].
    destruct (represents_Some _ _ R i t Hi') as (T & _ & HT & _). by exists t, T. }
  destruct (run_transactions_run ids m1 (represents_ok _ _ R) Hids) as (m2 & Hrun & Hsame).
  exists m2. split; [|done]. erewrite bind_run; [|done]. cbv beta.
  rewrite (surjective_pairing (Keys _)), Hk1. cbn iota.
  change (negb (Successful SuccessExecutionResult)) with false. cbn iota. fold ids. rewrite Hrun. do 3 f_equal.
  apply list_omap_ext, Forall_Forall2_diag, Forall_forall. intros i Hi. unfold resumable.
  destruct (active m1 !! i) as [t|] eqn:Hi'; [|done]. simpl.
  destruct (represents_Some _ _ R i t Hi') as (T & r & HT & Hr & Hres). rewrite HT. simpl.
  rewrite (restored_phase _ _ _ Hres).
  destruct (TransactionPhase.eqb (rec_phase r) TransactionPhase.End) eqn:He; [|done].
  apply TransactionPhase.eqb_spec in He. by apply Hend in Hr.
Qed.

Lemma crash_inv m j ks h m1 ts m2 :
  inv (mkSystem m j ks h) →
  recover_logs settings now j empty_machine = Some (SuccessExecutionResult, m1) →
  Run settings now m1 = Some ((SuccessExecutionResult, ts), m2) →
  inv (mkSystem m2 j (TaskResume <$> ts) h).
Proof.
  intros I Hrec Hrun. destruct (recovered_machine _ _ _ _ _ _ I Hrec) as (M & HM & Hnone & [[_ R]|[[=] _]]).
  assert (∀ i r, M !! i = Some r → ∃ t T, active m !! i = Some t ∧ transactions m !! t = Some T ∧ id T = i ∧
    txn_ok j t T (mine t ks) (Some r) (h !!! i)) as Hold.
  { intros i r Hr. destruct (active m !! i) as [t|] eqn:Hi; [|by rewrite Hnone in Hr].
    destruct (inv_active _ I i t Hi) as (T & HT & Hid). exists t, T. split; [done|]. split; [done|]. split; [done|].
    destruct (inv_replay _ I) as (M' & HM' & _ & Htxn). cbn [journal machine tasks history] in *.
    assert (M' = M) as -> by congruence. rewrite <- Hr. by apply Htxn. }
  destruct (Run_run m1 M R) as (m2' & Hrun' & Ha & Hok2 & Htx).
  { intros i r Hr. destruct (Hold i r Hr) as (t & T & _ & _ & _ & Hok). apply Hok. }
  rewrite Hrun' in Hrun. injection Hrun as <- <-.
  destruct (Keys_implements (active_transactions_map_ m1) (represents_ok _ _ R)) as (_ & Hnd & Hkeys).
  set (ids := (Keys (active_transactions_map_ m1)).2) in *.
  assert (∀ i t, active m1 !! i = Some t → i ∈ ids) as Hin.
  { intros i t Hi. apply Hkeys, elem_of_dom. unfold active in Hi. rewrite lookup_fmap in Hi.
    by destruct (entries _ !! i). }
  destruct I as [_ _ _ Hread _ Hlog]. constructor; cbn [machine journal tasks history] in *; rewrite ?Ha; try done.
  - intros i t Hi. destruct (represents_Some _ _ R i t Hi) as (T & r & HT & _ & Hres).
    destruct (Htx t T HT) as [c HT2]. exists (set_remote_phase_context c T). split; [done|]. by apply Hres.
  - intros k (t & -> & (i & _ & Hi)%list_elem_of_omap)%list_elem_of_fmap. by exists i.
  - exists M. split; [done|]. split; [by intros i Hi; apply (represents_None _ _ R)|].
    intros i t T2 Hi HT2. destruct (represents_Some _ _ R i t Hi) as (T & r & HT & Hr & Hres).
    destruct (Htx t T HT) as [c HT2']. simplify_eq. rewrite Hr.
    rewrite (mine_resumed _ ids i t); [|done|by eapply Hin|done|].
    + destruct (Hold i r Hr) as (t0 & T0 & _ & _ & <- & Hok). by apply (restored_ok j t0 t T0 T c r (mine t0 ks)).
    + intros i' Hi'. by apply (represents_distinct _ _ i' i t R).
Qed.

End durability.

(** ** Every reachable state *)

Section reachable.
  Context {msgs : EngineLogMessages} {laws : EngineLogLaws}.
  Context {Command : Type} `{!TransactionCommandSerializerInterface Command}
    `{!TransactionCommandSerializerLaws Command}.
  #[local] Set Default Proof Using "Type*".
  Variable settings : Settings.
  Variable answer_ok : ExecutionResult → Prop.
  Hypothesis answers_valid : ∀ x, answer_ok x → valid_result x.

Lemma initial_inv : inv (initial_system (Command := Command)).
Proof.
  destruct empty_represents as [Hok Hnone _].
  assert (∀ i, active (machine (initial_system (Command := Command))) !! i = None) as Hno.
  { intros i. apply (Hnone i). by rewrite lookup_empty. }
  constructor; try done.
  - by intros k ?%elem_of_nil.
  - exists ∅. split; [done|]. split; [done|]. intros i t T Hi. congruence.
  - intros i p k. cbn [history initial_system]. rewrite lookup_total_empty. by intros ?%elem_of_nil.
Qed.

Lemma step_inv (σ σ' : System (Command := Command)) : step settings answer_ok σ σ' → inv σ → inv σ'.
Proof.
  assert (∀ as_, Forall answer_ok as_ → Forall valid_result as_) as Hvalid by (intros; by eapply Forall_impl).
  destruct 1; intros I.
  - by eapply execute_inv.
  - by eapply phase_inv; [|apply Hvalid|].
  - by eapply status_read_inv.
  - by eapply resolve_inv.
  - by apply persist_inv.
  - by eapply logged_inv; [|apply Hvalid| |].
  - by eapply command_inv.
  - by eapply status_inv; [|apply Hvalid|].
  - by eapply roll_forward_inv; [|apply Hvalid|].
  - by eapply resume_inv; [|apply Hvalid|].
  - by eapply crash_inv.
Qed.

Lemma reachable_inv (σ : System (Command := Command)) : reachable settings answer_ok σ → inv σ.
Proof. induction 1; [by apply initial_inv|]. by eapply step_inv. Qed.

End reachable.
