(* ===== verification/TransactionTheorems.v ===== *)
(** * What the transaction engine promises

    Theorems about every run of the engine in the system of
    [TransactionSystem]: two-phase commit, the write-ahead log, recovery, the
    refusals of [ExecutePhase], the completion of a phase, and the fuel of
    [ProceedToNextPhase]. *)

From S2P Require Import Prelude ExecutionResult ErrorCodes Uuid AutoExpiryMap AutoExpiryView Serialization.
From S2P Require Import TransactionPhases TransactionLog StateMonad TransactionEngine TransactionRemote.
From S2P Require Import TransactionRecovery TransactionReplay TransactionSystem.
From S2P Require Import TransactionSteps TransactionSafety TransactionRequests TransactionDurability.
From stdpp Require Import options.

Local Open Scope Z_scope.

(** ** Every run *)

Section runs.
  Context {msgs : EngineLogMessages} {laws : EngineLogLaws}.
  Context {Command : Type} `{!TransactionCommandSerializerInterface Command}
    `{!TransactionCommandSerializerLaws Command}.
  #[local] Set Default Proof Using "Type*".
  Variable settings : Settings.
  Variable answer_ok : ExecutionResult → Prop.
  Hypothesis answers_valid : ∀ x, answer_ok x → valid_result x.

(** What is known of a transaction of a reachable state. *)
Lemma reachable_transaction (σ : System (Command := Command)) i t :
  reachable settings answer_ok σ → active (machine σ) !! i = Some t →
  ∃ T M, transactions (machine σ) !! t = Some T ∧ id T = i ∧ replay (Command := Command) (journal σ) = Some M ∧
    txn_ok (journal σ) t T (mine t (tasks σ)) (M !! i) (history σ !!! i).
Proof.
  intros Hreach Hi. apply (reachable_inv settings answer_ok answers_valid) in Hreach as I.
  destruct (inv_active _ I i t Hi) as (T & HT & Hid). destruct (inv_replay _ I) as (M & HM & _ & Htxn).
  exists T, M. split; [done|]. split; [done|]. split; [done|]. by apply Htxn.
Qed.

(** C2: in every run, whatever fails, is retried, expires or crashes, the
    commands of a transaction are told of a commit, and the transaction is in a
    phase after the commit, only when every one of its commands has completed its
    commit with success. *)
Theorem notified_only_when_committed (σ : System (Command := Command)) i t T :
  reachable settings answer_ok σ → active (machine σ) !! i = Some t → transactions (machine σ) !! t = Some T →
  (∃ k, Called TransactionPhase.CommitNotify k ∈ history σ !!! i) ∨ committed_phase (current_phase T) = true →
  ∀ k, (k < length (txn_commands T))%nat →
    Completed TransactionPhase.Commit k SuccessExecutionResult ∈ history σ !!! i.
Proof.
  intros Hreach Hi HT Hnotified.
  destruct (reachable_transaction σ i t Hreach Hi) as (T' & M & HT' & _ & _ & [_ _ _ _ _ _ [Hd1 _ Hd3]]).
  simplify_eq. destruct Hnotified as [Hn|Hp]; [by apply Hd3|by apply Hd1].
Qed.

(** C25: a command is called for a phase other than the first only when the
    journal already holds a log of that phase for its transaction. *)
Theorem commands_called_after_log (σ : System (Command := Command)) i p k :
  reachable settings answer_ok σ → Called p k ∈ history σ !!! i → p ≠ TransactionPhase.Begin →
  ∃ d l, d ∈ journal σ ∧ ReadEngineLog d = Some (SuccessExecutionResult, Some (PhaseEntry l)) ∧
    phase_log_id l = i ∧ ConvertProtoPhaseToPhase (phase_log_phase l) = p.
Proof.
  intros Hreach Hcalled Hp. apply (reachable_inv settings answer_ok answers_valid) in Hreach as I.
  destruct (inv_logged _ I i p k Hcalled) as [?|(d & Hd & l & Hread & Hid & Hph & _)]; [done|].
  by exists d, l.
Qed.

(** C31: while work is in flight for a transaction no other phase of it runs: a
    transaction whose lock is free has no log, call or question in flight, and a
    command is never called again before it has answered. *)
Theorem one_activity (σ : System (Command := Command)) i t T :
  reachable settings answer_ok σ → active (machine σ) !! i = Some t → transactions (machine σ) !! t = Some T →
  (is_waiting_for_remote T = true → ∀ k, k ∈ tasks σ → task_txn k ≠ t) ∧
  ((∃ k, mine t (tasks σ) = [k]) ∨ NoDup (mine t (tasks σ)) ∧
     ∀ k, k ∈ mine t (tasks σ) → ∃ c, k = TaskCommand t c (current_phase T) ∧ (c < length (txn_commands T))%nat).
Proof.
  intros Hreach Hi HT. destruct (reachable_transaction σ i t Hreach Hi) as (T' & M & HT' & _ & _ & [_ Hc _ _ _ _ _]).
  simplify_eq. split.
  - intros Hw k Hk Heq. destruct (control_free _ _ _ _ Hc Hw) as [Hmine _].
    apply (not_elem_of_nil k). rewrite <- Hmine. by apply elem_of_mine.
  - inversion Hc as [| | |w Hw Hcalls Hnd Hf Hl Hprog Heq| |]; eauto.
    + right. split; [apply NoDup_nil_2|by intros k ?%elem_of_nil].
    + right. split; [by apply NoDup_fmap_2_strong; [intros ???? [=]|]|].
      intros k (c & -> & Hin)%list_elem_of_fmap. exists c. split; [done|]. by eapply Forall_forall in Hf.
Qed.

(** C3: whatever the run, an engine that skips duplicate transaction logs
    recovers from the journal and schedules its transactions without an error: each
    transaction that was past its start and has not ended is there again, with its
    commands, locked, in the phase it was in or an earlier one, and it is resumed
    exactly once. *)
Theorem recovery_restores (σ : System (Command := Command)) now :
  reachable settings answer_ok σ → skip_duplicate_transaction_in_recovery_ settings = true →
  ∃ m1 m2 ts, recover_logs settings now (journal σ) empty_machine = Some (SuccessExecutionResult, m1) ∧
    Run settings now m1 = Some ((SuccessExecutionResult, ts), m2) ∧ NoDup ts ∧
    (∀ t, t ∈ ts ↔ ∃ i, active m2 !! i = Some t) ∧
    ∀ i t T, active (machine σ) !! i = Some t → transactions (machine σ) !! t = Some T →
      current_phase T ≠ TransactionPhase.NotStarted → current_phase T ≠ TransactionPhase.End →
      ∃ t' T', active m2 !! i = Some t' ∧ transactions m2 !! t' = Some T' ∧
        is_waiting_for_remote T' = false ∧ txn_commands T' = txn_commands T ∧
        TransactionPhase.number (current_phase T') ≤ TransactionPhase.number (current_phase T).
Proof.
  intros Hreach Hskip. pose proof (reachable_inv settings answer_ok answers_valid σ Hreach) as I.
  destruct σ as [m j ks h]. destruct (inv_replay _ I) as (M & HM & Hnone & Htxn). cbn [machine journal tasks history] in *.
  destruct (recover_logs_replay settings now j empty_machine ∅ M empty_represents (inv_readable _ I) HM)
    as (x & m1 & Hrec & [[-> R]|[_ Hskip']]); [|congruence].
  destruct (Run_run settings now m1 M R) as (m2 & Hrun & Ha & Hok2 & Htx).
  { intros i r Hr. destruct (active m !! i) as [t|] eqn:Hi; [|by rewrite Hnone in Hr].
    destruct (inv_active _ I i t Hi) as (T & HT & _). pose proof (Htxn i t T Hi HT) as [_ _ Hrec' _ _ _ _].
    rewrite Hr in Hrec'. apply Hrec'. }
  destruct (Keys_implements (active_transactions_map_ m1) (represents_ok _ _ R)) as (_ & Hnd & Hkeys).
  set (ids := (Keys (active_transactions_map_ m1)).2) in *.
  exists m1, m2, (omap (λ i, active m1 !! i) ids). split; [done|]. split; [done|]. rewrite Ha. split; [|split].
  - apply NoDup_omap; [done|]. intros i i' t Hi Hi'. by apply (represents_distinct _ _ i i' t R).
  - intros t. rewrite list_elem_of_omap. split; [by intros (i & _ & Hi); exists i|].
    intros [i Hi]. exists i. split; [|done]. apply Hkeys, elem_of_dom. unfold active in Hi.
    rewrite lookup_fmap in Hi. by destruct (entries _ !! i).
  - intros i t T Hi HT Hns He.
    pose proof (Htxn i t T Hi HT) as [_ _ Hr _ _ _ _].
    destruct (M !! i) as [r|] eqn:HMi; [|by destruct Hr].
    destruct (represents_lookup _ _ _ _ R HMi) as (t' & T' & Hi' & HT' & Hres).
    destruct (Htx t' T' HT') as [c HT2]. exists t', (set_remote_phase_context c T').
    destruct Hr as (Hle & _ & _ & Hcs & _). split; [done|]. split; [done|].
    split; [by apply Hres|]. split.
    + unfold txn_commands in *. cbn [context set_remote_phase_context]. by rewrite (restored_request _ _ _ Hres).
    + cbn [current_phase set_remote_phase_context]. by rewrite (restored_phase _ _ _ Hres).
Qed.

End runs.

(** ** A checkpoint of the transaction engine restores it

    [Checkpoint] writes two logs for each active transaction. An engine that
    recovers from them alone has the same transactions, except those that have
    ended, in the same phases with the same outcomes. *)

Section checkpoint.
  Context {msgs : EngineLogMessages} {laws : EngineLogLaws}.
  Context {Command : Type} `{!TransactionCommandSerializerInterface Command}
    `{!TransactionCommandSerializerLaws Command}.
  Implicit Types (m : Machine (Command := Command)) (T : Transaction Command) (t : txn_loc)
    (M : gmap Uuid (Recovered (Command := Command))).
  #[local] Set Default Proof Using "Type*".
  Variable settings : Settings.
  Variable now : Clock.

(** A transaction whose two logs can be written and read. *)
Record checkpointable T : Prop := {
  cp_id : id T = request_transaction_id (request (context T));
  cp_uuid : valid_uuid (id T);
  cp_request : valid_request (request (context T));
  cp_result : is_u64 (status_code (transaction_execution_result T));
  cp_remote : request_is_coordinated_remotely (request (context T)) = true →
    null_or_empty (request_transaction_secret (request (context T))) = false ∧
    null_or_empty (request_transaction_origin (request (context T))) = false;
}.

(** What is restored of a transaction. *)
Record checkpointed T (r : Recovered (Command := Command)) : Prop := {
  cpd_phase : rec_phase r = current_phase T;
  cpd_failed : rec_failed r = transaction_failed T;
  cpd_result : rec_result r = transaction_execution_result T;
  cpd_commands : commands (rec_request r) = txn_commands T;
  cpd_timeout : timeout_time (rec_request r) = timeout_time (request (context T));
  cpd_remote : request_is_coordinated_remotely (rec_request r) =
    request_is_coordinated_remotely (request (context T));
  cpd_secret : request_is_coordinated_remotely (request (context T)) = true →
    request_transaction_secret (rec_request r) = request_transaction_secret (request (context T)) ∧
    request_transaction_origin (rec_request r) = request_transaction_origin (request (context T));
}.

(** The machine can be checkpointed. *)
Definition can_checkpoint m (i : Uuid) : Prop :=
  ∃ t T, active m !! i = Some t ∧ transactions m !! t = Some T ∧ id T = i ∧ checkpointable T.

Lemma recover_logs_app l1 l2 m m1 :
  recover_logs settings now l1 m = Some (SuccessExecutionResult, m1) →
  recover_logs settings now (l1 ++ l2) m = recover_logs settings now l2 m1.
Proof.
  revert m. induction l1 as [|d l1 IH]; intros m Hrun; [by injection Hrun as ->|].
  cbn [recover_logs app] in *. unfold mbind, State_bind in *.
  destruct (OnJournalServiceRecoverCallback settings now d m) as [[x m0]|]; [|done].
  destruct (Successful x) eqn:Hx; cbn [negb] in *; [by apply IH|]. injection Hrun as ->. done.
Qed.

(** The first log of a transaction that is not there yet puts it there. *)
Lemma transaction_log_recovered T d l m M :
  checkpointable T → represents m M → M !! id T = None →
  ReadEngineLog d = Some (SuccessExecutionResult, Some (TransactionEntry l)) → log_id l = id T →
  log_is_coordinated_remotely l = request_is_coordinated_remotely (request (context T)) →
  (request_is_coordinated_remotely (request (context T)) = true →
     Some (log_transaction_secret l) = request_transaction_secret (request (context T)) ∧
     Some (log_transaction_origin l) = request_transaction_origin (request (context T))) →
  deserialize_commands (log_id l) (log_commands l) = (SuccessExecutionResult, commands (request (context T))) →
  ∃ m', OnJournalServiceRecoverCallback settings now d m = Some (SuccessExecutionResult, m') ∧
    represents m' (<[id T := mkRecovered TransactionPhase.NotStarted
       (recovered_request l (commands (request (context T)))) false
       (FailureExecutionResult SC_TRANSACTION_MANAGER_NOT_FINISHED)]> M).
Proof.
  intros HT R HM Hread Hid Hr Hso Hcs. unfold OnJournalServiceRecoverCallback. rewrite Hread.
  erewrite bind_run; [|by apply from_some_run]. cbv beta iota.
  destruct (recover_transaction_log_replay settings now l m M
    (<[id T := mkRecovered TransactionPhase.NotStarted
       (recovered_request l (commands (request (context T)))) false
       (FailureExecutionResult SC_TRANSACTION_MANAGER_NOT_FINISHED)]> M) R) as (x & m' & -> & Hx).
  { cbn [replay_entry]. rewrite Hcs, Hr, Hid, HM. change (negb (Successful SuccessExecutionResult)) with false.
    cbn iota. destruct (request_is_coordinated_remotely (request (context T))) eqn:Hrem; cbn [andb]; [|done].
    destruct (Hso eq_refl) as [-> ->]. by destruct (cp_remote T HT Hrem) as [-> ->]. }
  rewrite Hid, HM, bool_decide_true, orb_true_r in Hx by done. destruct Hx as [-> Hx]. by exists m'.
Qed.

(** The two logs of a transaction restore it. *)
Lemma checkpoint_logs_recovered T m M :
  checkpointable T → represents m M → M !! id T = None →
  ∃ d1 d2 m' M', SerializeTransaction T = Some (SuccessExecutionResult, d1) ∧
    SerializeState T = Some (SuccessExecutionResult, d2) ∧
    recover_logs settings now [d1; d2] m = Some (SuccessExecutionResult, m') ∧ represents m' M' ∧
    (∀ i, i ≠ id T → M' !! i = M !! i) ∧
    if TransactionPhase.eqb (current_phase T) TransactionPhase.End then M' !! id T = None
    else ∃ r, M' !! id T = Some r ∧ checkpointed T r.
Proof.
  intros HT R HM. pose proof HT as [Hid Huuid Hv Hres _].
  destruct (SerializeTransaction_written T Hid Hv) as (d1 & l & Hd1 & Hread1 & Hlid & Hlr & Hso & Hto & Hcs).
  destruct (SerializeState_written T Huuid Hres) as (d2 & Hd2 & Hread2).
  destruct (transaction_log_recovered T d1 l m M HT R HM Hread1 Hlid Hlr Hso Hcs) as (m1 & Hrun1 & R1).
  set (r := mkRecovered TransactionPhase.NotStarted _ false _) in R1.
  set (M' := if TransactionPhase.eqb (current_phase T) TransactionPhase.End then delete (id T) (<[id T := r]> M)
    else <[id T := mkRecovered (current_phase T) (rec_request r) (transaction_failed T)
                     (transaction_execution_result T)]> (<[id T := r]> M)).
  destruct (recover_phase_log_replay settings now (phase_log_of T) m1 (<[id T := r]> M) M' R1) as (m2 & Hrun2 & R2).
  { cbn [replay_entry]. change (phase_log_id (phase_log_of T)) with (id T). rewrite lookup_insert_eq.
    cbn [phase_log_of phase_log_phase phase_log_failed phase_log_result].
    rewrite ConvertProtoPhase_roundtrip, FromProto_ToProto. unfold M'. by destruct (current_phase T). }
  exists d1, d2, m2, M'. split; [done|]. split; [done|]. split; [|split; [done|]; split].
  - cbn [recover_logs]. erewrite bind_run; [|exact Hrun1]. cbv beta.
    change (negb (Successful SuccessExecutionResult)) with false. cbn iota.
    unfold OnJournalServiceRecoverCallback at 1. rewrite Hread2. rewrite bind_assoc_run.
    erewrite bind_run; [|by apply from_some_run]. cbv beta iota.
    by erewrite bind_run; [|exact Hrun2].
  - intros i Hi. unfold M'. destruct (TransactionPhase.eqb _ _); [rewrite lookup_delete_ne by done|];
      by rewrite !lookup_insert_ne by done.
  - unfold M'. destruct (TransactionPhase.eqb _ _); [by rewrite lookup_delete_eq|].
    eexists. rewrite lookup_insert_eq. by split.
Qed.

Lemma checkpoint_transactions_recovered keys m :
  machine_ok m → NoDup keys → (∀ i, i ∈ keys → can_checkpoint m i) →
  ∃ logs, checkpoint_transactions settings now keys m = Some ((SuccessExecutionResult, logs), m) ∧
    ∀ m0 M, represents m0 M → (∀ i, i ∈ keys → M !! i = None) →
      ∃ m1 M1, recover_logs settings now logs m0 = Some (SuccessExecutionResult, m1) ∧ represents m1 M1 ∧
        (∀ i, i ∉ keys → M1 !! i = M !! i) ∧
        ∀ i t T, i ∈ keys → active m !! i = Some t → transactions m !! t = Some T →
          if TransactionPhase.eqb (current_phase T) TransactionPhase.End then M1 !! i = None
          else ∃ r, M1 !! i = Some r ∧ checkpointed T r.
Proof.
  intros Hok Hnd. induction Hnd as [|i keys Hi Hnd IH]; intros Hcan.
  { exists []. split; [done|]. intros m0 M R _. exists m0, M. split; [done|]. split; [done|]. split; [done|].
    by intros i t T ?%elem_of_nil. }
  destruct IH as (logs & Hrun & Hlogs); [intros j Hj; apply Hcan; by right|].
  destruct (Hcan i) as (t & T & Ha & HT & Hid & Hcp); [by left|].
  destruct (checkpoint_logs_recovered T empty_machine ∅ Hcp empty_represents) as (d1 & d2 & _ & _ & Hd1 & Hd2 & _);
    [by rewrite lookup_empty|].
  exists (d1 :: d2 :: logs). split.
  { cbn [checkpoint_transactions]. erewrite bind_run; [|by apply map_find_run]. cbv beta iota. rewrite Ha.
    change (negb (Successful SuccessExecutionResult)) with false. cbn iota. run_step.
    rewrite (bind_run _ _ _ _ _ (deref_there t T m HT)). cbv beta. rewrite Hd1, Hd2. repeat run_step.
    change (negb (Successful SuccessExecutionResult)) with false. cbn iota. repeat run_step.
    change (negb (Successful SuccessExecutionResult)) with false. cbn iota.
    by rewrite (bind_run _ _ _ _ _ Hrun). }
  intros m0 M R HM.
  destruct (checkpoint_logs_recovered T m0 M Hcp R) as (d1' & d2' & m1 & M1 & Hd1' & Hd2' & Hrec & R1 & Hother & HM1);
    [apply HM; rewrite Hid; by left|].
  assert (d1' = d1) as -> by congruence. assert (d2' = d2) as -> by congruence.
  destruct (Hlogs m1 M1 R1) as (m2 & M2 & Hrec2 & R2 & Hother2 & HM2).
  { intros j Hj. rewrite Hother by (intros ->; by rewrite Hid in Hj). apply HM. by right. }
  exists m2, M2. split; [|split; [done|]; split].
  - change (d1 :: d2 :: logs) with ([d1; d2] ++ logs). by rewrite (recover_logs_app _ _ _ _ Hrec).
  - intros j [Hne Hj]%not_elem_of_cons. rewrite Hother2, Hother by (done || by rewrite Hid). done.
  - intros j t' T' [->|Hj]%elem_of_cons Ha' HT'; [|by apply (HM2 j t' T')].
    assert (t' = t) as -> by congruence. assert (T' = T) as -> by congruence. rewrite Hother2 by done. by rewrite <- Hid.
Qed.

(** C29: a checkpoint of an engine whose active transactions can be written is made
    without an error and changes nothing, and an engine that recovers from its logs,
    whatever its settings, has exactly the transactions that have not ended: each in
    the phase it was in, with its outcome, its commands, its timeout, and its secret
    and origin when it is coordinated remotely. *)
Theorem Checkpoint_recovers m :
  machine_ok m → (∀ i t, active m !! i = Some t → can_checkpoint m i) →
  ∃ logs m', Checkpoint settings now m = Some ((SuccessExecutionResult, logs), m) ∧
    recover_logs settings now logs empty_machine = Some (SuccessExecutionResult, m') ∧
    ∀ i, match active m !! i with
         | None => active m' !! i = None
         | Some t => ∀ T, transactions m !! t = Some T →
             if TransactionPhase.eqb (current_phase T) TransactionPhase.End then active m' !! i = None
             else ∃ t' T' r, active m' !! i = Some t' ∧ transactions m' !! t' = Some T' ∧
                    restored i T' r ∧ checkpointed T r
         end.
Proof.
  intros Hok Hcan. destruct (Keys_implements (active_transactions_map_ m) Hok) as (Hk1 & Hnd & Hk).
  set (keys := (Keys (active_transactions_map_ m)).2) in *.
  assert (∀ i, i ∈ keys ↔ is_Some (active m !! i)) as Hkeys.
  { intros i. unfold active. rewrite Hk, elem_of_dom, lookup_fmap, fmap_is_Some. done. }
  destruct (checkpoint_transactions_recovered keys m Hok Hnd) as (logs & Hrun & Hlogs).
  { intros i [t Hi]%Hkeys. by apply (Hcan i t). }
  destruct (Hlogs empty_machine ∅ empty_represents) as (m' & M & Hrec & R & Hother & HM);
    [intros; by rewrite lookup_empty|].
  exists logs, m'. split; [|split; [done|]].
  - unfold Checkpoint. erewrite bind_run; [|done]. cbv beta. rewrite (surjective_pairing (Keys _)), Hk1. cbn iota.
    change (negb (Successful SuccessExecutionResult)) with false. cbn iota. exact Hrun.
  - intros i. destruct (active m !! i) as [t|] eqn:Hi.
    + intros T HT. assert (i ∈ keys) as Hin by (apply Hkeys; by exists t). specialize (HM i t T Hin Hi HT).
      destruct (TransactionPhase.eqb _ _); [by apply (represents_None _ _ R)|].
      destruct HM as (r & Hr & Hcp). destruct (represents_lookup _ _ _ _ R Hr) as (t' & T' & Ha' & HT' & Hres).
      by exists t', T', r.
    + apply (represents_None _ _ R). rewrite Hother; [by rewrite lookup_empty|].
      intros [t Hi']%Hkeys. congruence.
Qed.

End checkpoint.
