(* ===== verification/TransactionCompletion.v ===== *)
(** * Phases are refused or completed

    What [ExecutePhase] of [TransactionEngine] answers, and that a phase whose
    commands all answer is answered once, with the result of the first command
    that failed, in whatever order the answers come. *)

From S2P Require Import Prelude ExecutionResult ErrorCodes Uuid Serialization.
From S2P Require Import AutoExpiryMap AutoExpiryView StateMonad TransactionPhases TransactionLog TransactionEngine.
From S2P Require Import TransactionRemote TransactionReplay TransactionSystem TransactionSteps.
From S2P Require Import TransactionSafety TransactionRequests.
From stdpp Require Import options.

Local Open Scope Z_scope.

(** ** Refusals *)

Section refusals.
  Context {msgs : EngineLogMessages} {laws : EngineLogLaws}.
  Context {Command : Type} `{!TransactionCommandSerializerInterface Command}
    `{!TransactionCommandSerializerLaws Command}.
  Implicit Types (m : Machine (Command := Command)) (T : Transaction Command) (t : txn_loc).
  #[local] Set Default Proof Using "Type*".
  Variable settings : Settings.
  Variable now : Clock.

(** What [ExecutePhase] checks before it runs a phase of [T], in its order. *)
Definition phase_refusal (rq : TransactionPhaseRequest) T : option Z :=
  if negb (bool_decide (transaction_secret T = phase_transaction_secret rq)) then
    Some SC_TRANSACTION_MANAGER_TRANSACTION_SECRET_IS_NOT_VALID
  else if negb (IsExpired (steady_now now) T || bool_decide (transaction_origin T = phase_transaction_origin rq)) then
    Some SC_TRANSACTION_MANAGER_TRANSACTION_ORIGIN_IS_NOT_VALID
  else if negb (is_waiting_for_remote T) then Some SC_TRANSACTION_MANAGER_CURRENT_TRANSACTION_IS_RUNNING
  else if negb (last_execution_timestamp T =? phase_last_execution_timestamp rq) then
    Some SC_TRANSACTION_MANAGER_LAST_EXECUTION_TIMESTAMP_NOT_MATCHING
  else if negb (phase_accepts (transaction_execution_phase rq) (current_phase T)) then
    Some SC_TRANSACTION_MANAGER_INVALID_TRANSACTION_PHASE
  else None.

Lemma locked_and_released t T m :
  is_waiting_for_remote T = true → transactions m !! t = Some T →
  after_handler t (set_waiting true (set_waiting false T), [], false) m = m.
Proof.
  intros Hw HT. unfold after_handler. rewrite emitting_nil.
  replace (set_waiting true (set_waiting false T)) with T by (destruct T; simpl in *; by subst).
  by apply at_txn_id.
Qed.

(** The refusals once the transaction is locked. *)
Lemma execute_or_unlock_refused c t T m code :
  machine_ok m → active m !! id T = Some t → transactions m !! t = Some T → well_formed T →
  is_waiting_for_remote T = true →
  (if negb (last_execution_timestamp T =? phase_last_execution_timestamp (request c)) then
     Some SC_TRANSACTION_MANAGER_LAST_EXECUTION_TIMESTAMP_NOT_MATCHING
   else if negb (phase_accepts (transaction_execution_phase (request c)) (current_phase T)) then
     Some SC_TRANSACTION_MANAGER_INVALID_TRANSACTION_PHASE else None) = Some code →
  execute_or_unlock settings now t c (at_txn t (set_waiting false T) m) = Some (FailureExecutionResult code, m).
Proof.
  intros Hok Hi HT Hwf Hw Hcode. unfold execute_or_unlock, ExecutePhaseInternal. repeat run_step.
  change (is_waiting_for_remote (set_waiting false T)) with false.
  change (is_coordinated_remotely (set_waiting false T)) with (is_coordinated_remotely T).
  rewrite (wf_remote T Hwf). repeat run_step. erewrite bind_run; [|by apply map_find_run]. cbv beta.
  change (active (at_txn t (set_waiting false T) m)) with (active m).
  change (id (set_waiting false T)) with (id T). rewrite Hi. repeat run_step.
  change (default t (Some t)) with t. change (negb (Successful SuccessExecutionResult)) with false. repeat run_step.
  change (last_execution_timestamp (set_waiting false T)) with (last_execution_timestamp T).
  change (current_phase (set_waiting false T)) with (current_phase T).
  assert (∀ x, Successful x = false →
    ((if negb (Successful x) then UnlockRemotelyCoordinatedTransaction t;; mret () else mret ());; mret x)
      (at_txn t (set_waiting false T) m) = Some (x, m)) as Hrefuse.
  { intros x Hx. rewrite Hx. repeat run_step. erewrite bind_run; [|apply unlock_run; [by apply Hwf|done]].
    repeat run_step. rewrite <- (locked_and_released t T m Hw HT) at 2. unfold after_handler. by rewrite emitting_nil. }
  destruct (last_execution_timestamp T =? _); cbn [negb] in *.
  - destruct (phase_accepts _ _); [done|]. injection Hcode as <-. repeat run_step. by apply Hrefuse.
  - injection Hcode as <-. repeat run_step. by apply Hrefuse.
Qed.

(** C32: a request for a phase of a transaction the engine knows is refused for the
    first of these reasons: a secret that is not the transaction's, an origin that
    is not the transaction's while it has not expired, a phase that is running, a
    timestamp that is not that of the last phase, a phase the transaction is not in
    or cannot leave; a refusal gives that reason and changes nothing at all. Any
    other request runs its phase: it answers with success, and the transaction is
    locked or has been run through its first phase. *)
Theorem ExecutePhase_refuses c t T m secret origin :
  machine_ok m → active m !! phase_transaction_id (request c) = Some t → transactions m !! t = Some T →
  id T = phase_transaction_id (request c) → well_formed T → transaction_secret T ≠ None → transaction_origin T ≠ None →
  phase_transaction_secret (request c) = Some secret → phase_transaction_origin (request c) = Some origin →
  match phase_refusal (request c) T with
  | Some code => ExecutePhase settings now c m = Some (FailureExecutionResult code, m)
  | None => ∃ outcome rest,
      ExecutePhase settings now c m
        = Some (SuccessExecutionResult, after_handler t outcome (with_answers rest m)) ∧
      phase_run now c t (set_waiting false T) (answers m) SuccessExecutionResult outcome
  end.
Proof.
  intros Hok Hi HT Hid Hwf Hsec Hor Hs Ho. unfold ExecutePhase.
  erewrite bind_run; [|by apply map_find_run]. cbv beta iota. rewrite Hi.
  change (negb (Successful SuccessExecutionResult)) with false. cbn iota. run_step.
  assert (deref t m = Some (T, m)) as Hderef by (unfold deref; by rewrite HT).
  rewrite (bind_run _ _ _ _ _ Hderef). cbv beta. rewrite (wf_remote T Hwf). cbn [negb].
  unfold phase_refusal. rewrite Hs, Ho.
  destruct (transaction_secret T) as [s|]; [|done]. destruct (transaction_origin T) as [o|]; [|done]. cbn [fmap option_fmap].
  erewrite bind_run; [|by apply from_some_run]. cbv beta.
  destruct (decide (s = secret)) as [->|Hne].
  2:{ rewrite (bool_decide_false (Some s = Some secret)), (bool_decide_false (s = secret)) by congruence. done. }
  rewrite (bool_decide_true (Some secret = Some secret)), (bool_decide_true (secret = secret)) by done. cbn [negb].
  destruct (IsExpired (steady_now now) T || bool_decide (Some o = Some origin)) eqn:Horigin; cbn [negb].
  2:{ apply orb_false_elim in Horigin as [-> Hne%bool_decide_eq_false].
      erewrite bind_run; [|by apply from_some_run]. cbv beta. by rewrite bool_decide_false by congruence. }
  assert (∀ K : bool → State (Machine (Command := Command)) ExecutionResult,
    (from_some (if IsExpired (steady_now now) T then Some true else Some (bool_decide (o = origin))) ≫= K) m
      = K true m) as ->.
  { intros K. apply bind_run, from_some_run. destruct (IsExpired _ _); [done|].
    cbn [orb] in Horigin. apply bool_decide_eq_true in Horigin. by rewrite bool_decide_true by congruence. }
  cbn [negb]. destruct (is_waiting_for_remote T) eqn:Hw; cbn [negb].
  2:{ unfold LockRemotelyCoordinatedTransaction. rewrite bind_assoc_run.
      rewrite (bind_run _ _ _ _ _ Hderef). cbv beta. rewrite (wf_remote T Hwf), Hw. done. }
  assert (LockRemotelyCoordinatedTransaction t m
    = Some (SuccessExecutionResult, at_txn t (set_waiting false T) m)) as Hlock.
  { rewrite <- (at_txn_id t T m HT) at 1. apply lock_run; [by apply Hwf|done]. }
  rewrite (bind_run _ _ _ _ _ Hlock). cbv beta.
  change (negb (Successful SuccessExecutionResult)) with false. cbn iota.
  rewrite <- Hid in Hi. pose proof (execute_or_unlock_refused c t T m) as Hrefused.
  destruct (if negb (last_execution_timestamp T =? _) then _ else _) as [code|] eqn:Hcode; [by apply Hrefused|].
  destruct (execute_or_unlock_run settings now c t (set_waiting false T) m (current_phase T))
    as (x & outcome & rest & Hrun & HP & _);
    [by apply well_formed_locked; [apply set_waiting_well_formed| |]|done|done
    |by apply well_formed_loggable, set_waiting_well_formed|].
  exists outcome, rest.
  assert (phase_accepted (request c) (set_waiting false T) = true) as Hacc.
  { unfold phase_accepted. cbn [last_execution_timestamp current_phase set_waiting].
    destruct (last_execution_timestamp T =? _); [|done]. by destruct (phase_accepts _ _). }
  assert (x = SuccessExecutionResult) as ->. { destruct HP; [congruence|done|done]. }
  done.
Qed.

End refusals.

(** ** Completion *)

Section completion.
  Context {msgs : EngineLogMessages} {laws : EngineLogLaws}.
  Context {Command : Type} `{!TransactionCommandSerializerInterface Command}
    `{!TransactionCommandSerializerLaws Command}.
  #[local] Set Default Proof Using "Type*".
  Implicit Types (m : Machine (Command := Command)) (T : Transaction Command) (t : txn_loc)
    (fs cbs : list (nat * ExecutionResult)).
  Variable now : Clock.

(** The commands call back, one after the other. *)
Fixpoint callbacks (p : TransactionPhase) t cbs : State (Machine (Command := Command)) () :=
  match cbs with
  | [] => mret ()
  | (i, x) :: cbs => OnPhaseCallback now i p x t;; callbacks p t cbs
  end.

Definition failing (c : nat * ExecutionResult) : Prop := status c.2 = Failure.

#[local] Instance failing_dec c : Decision (failing c).
Proof. unfold failing. apply _. Defined.

(** The failures of a phase: those of the calls, then those of the callbacks. *)
Definition failures (i : nat) (rs : list ExecutionResult) cbs : list (nat * ExecutionResult) :=
  filter failing (zip (seq i (length rs)) rs ++ cbs).

(** The first failure is the result of the phase. *)
Definition first_failure fs : ExecutionResult := from_option snd SuccessExecutionResult (head fs).

(** What a transaction records of the failures of its phase. *)
Record failed_with fs T : Prop := {
  failed_flag : current_phase_failed T = match fs with [] => false | _ => true end;
  failed_commands : current_phase_failed_command_indices T = fs.*1;
  failed_result : current_phase_execution_result T = first_failure fs;
}.

Lemma one_more_failure fs i x T :
  failed_with fs T → Z.of_nat (length fs) < 2 ^ 31 - 1 →
  failed_with (fs ++ [(i, x)]) (fail_phase x (enqueue_failed_index i T)).
Proof.
  intros [Hf Hi Hr] Hl. unfold enqueue_failed_index. rewrite Hi, length_fmap.
  rewrite (proj2 (Z.ltb_lt _ _)) by done. unfold fail_phase.
  cbn [current_phase_failed set_failed_indices]. rewrite Hf.
  destruct fs as [|f fs]; constructor; simpl; rewrite ?Hf, ?Hr, ?fmap_app; done.
Qed.

Lemma failures_of_calls i rs fs T :
  failed_with fs T → Forall (λ x, status x ≠ Retry) rs → Forall valid_result rs →
  Z.of_nat (length fs + length rs) ≤ 2 ^ 31 - 1 →
  failed_with (fs ++ failures i rs []) (commands_answered i rs T).
Proof.
  intros HT Hnr Hv. revert i fs T HT. induction Hnr as [|x rs Hx Hnr IH]; intros i fs T HT Hl.
  { unfold failures. simpl. by rewrite app_nil_r. }
  apply Forall_cons in Hv as [[_ Hvx] Hv]. cbn [commands_answered length] in *.
  unfold failures in *. cbn [seq zip_with app length].
  destruct (Successful x) eqn:Hs.
  - apply Successful_true in Hs as ->. rewrite filter_cons_False by done. apply IH; [done..|lia].
  - assert (status x = Failure) as Hfail.
    { destruct (status x) eqn:E; [|done..]. rewrite Hvx in Hs by done. done. }
    rewrite filter_cons_True by done. rewrite (cons_middle (i, x)), app_assoc.
    apply IH; [done| |rewrite length_app; simpl; lia].
    unfold refused. rewrite bool_decide_true by done. apply one_more_failure; [done|lia].
Qed.

(** A transaction that runs phase [p] and waits for [n] callbacks. *)
Record running (p : TransactionPhase) (n : nat) fs T0 T : Prop := {
  running_locked : locked_at p T;
  running_pending : pending_callbacks T = Z.of_nat n;
  running_failed : failed_with fs T;
  running_id : id T = id T0;
  running_context : context T = context T0;
  running_remote : remote_phase_context T = remote_phase_context T0;
}.

Lemma callback_running p n fs T0 T i x t m :
  running p (S n) fs T0 T → machine_ok m → (i < length (txn_commands T))%nat → status x ≠ Retry →
  Z.of_nat (length fs) < 2 ^ 31 - 1 → Z.of_nat n < 2 ^ 31 →
  ∃ T', running p n (fs ++ filter failing [(i, x)]) T0 T' ∧ txn_commands T' = txn_commands T ∧
    OnPhaseCallback now i p x t (at_txn t T m) =
      Some ((), if Nat.eqb n 0 then after_handler t (proceeded now p T') m else at_txn t T' m).
Proof.
  intros [Hlocked Hpend Hfail Hid Hctx Hrem] Hok Hi Hx Hl Hn.
  set (T1 := if bool_decide (status x = Failure) then fail_phase x (enqueue_failed_index i T) else T).
  assert (running p (S n) (fs ++ filter failing [(i, x)]) T0 T1 ∧ txn_commands T1 = txn_commands T) as [[] Hc].
  { subst T1. destruct (decide (status x = Failure)) as [Hf|Hf].
    - rewrite bool_decide_true, filter_cons_True by done.
      destruct (fail_phase_fixed i x T) as (F1 & F2 & F3 & F4 & F5).
      assert (is_coordinated_remotely (fail_phase x (enqueue_failed_index i T)) = is_coordinated_remotely T ∧
        context (fail_phase x (enqueue_failed_index i T)) = context T ∧
        remote_phase_context (fail_phase x (enqueue_failed_index i T)) = remote_phase_context T) as (F6 & F7 & F8)
        by (unfold fail_phase, enqueue_failed_index; by repeat case_match).
      pose proof (one_more_failure fs i x T Hfail Hl) as Hfail'. split; [|done].
      constructor; [|congruence|done|congruence|congruence|congruence].
      destruct Hlocked as [L1 L2 L3 L4]. constructor; [congruence|congruence|congruence|].
      rewrite F2. unfold fail_phase, enqueue_failed_index. repeat case_match; simpl in *; try done;
        by apply Forall_app_2; [|constructor].
    - rewrite bool_decide_false, filter_cons_False by done. rewrite filter_nil, app_nil_r. by split. }
  exists (set_pending (Z.of_nat n) T1). split; [|split; [done|]].
  - constructor; try done; [by apply locked_pending|by destruct running_failed0].
  - rewrite OnPhaseCallback_run by done.
    assert (command_finished now i p x T =
      if pending_callbacks T1 =? 1 then proceeded now p (set_pending (u64 (pending_callbacks T1 - 1)) T1)
      else (set_pending (u64 (pending_callbacks T1 - 1)) T1, [], false)) as ->.
    { subst T1. unfold command_finished. by destruct (status x). }
    rewrite running_pending0, Nat2Z.inj_succ, <- Z.add_1_r, Z.add_simpl_r, u64_id by (unfold is_u64; lia).
    destruct n as [|n]; [done|]. rewrite (proj2 (Z.eqb_neq _ _)) by lia. unfold after_handler.
    by rewrite emitting_nil.
Qed.

Lemma callbacks_run p t cbs : ∀ fs T0 T m,
  running p (length cbs) fs T0 T → machine_ok m → cbs ≠ [] →
  Forall (λ c, c.1 < length (txn_commands T))%nat cbs → Forall (λ c, status c.2 ≠ Retry) cbs →
  Z.of_nat (length fs + length cbs) ≤ 2 ^ 31 - 1 →
  ∃ T', callbacks p t cbs (at_txn t T m) = Some ((), after_handler t (proceeded now p T') m) ∧
    running p 0 (fs ++ filter failing cbs) T0 T'.
Proof.
  induction cbs as [|[i x] cbs IH]; intros fs T0 T m HT Hok Hne Hi Hx Hl; [done|].
  apply Forall_cons in Hi as [Hi Hi']. apply Forall_cons in Hx as [Hx Hx']. cbn [length fst snd] in *.
  destruct (callback_running p (length cbs) fs T0 T i x t m) as (T1 & HT1 & Hc & Hrun); try done; [lia|lia|].
  cbn [callbacks]. erewrite bind_run; [|exact Hrun]. cbv beta.
  destruct cbs as [|c cbs].
  { exists T1. by split. }
  cbn [Nat.eqb length].
  destruct (IH (fs ++ filter failing [(i, x)]) T0 T1 m) as (T' & Hrun' & HT'); try done.
  - by rewrite Hc.
  - rewrite length_app. pose proof (length_filter failing [(i, x)]). simpl in *. lia.
  - exists T'. split; [done|]. rewrite <- app_assoc in HT'.
    change ((i, x) :: c :: cbs) with ([(i, x)] ++ (c :: cbs)). by rewrite filter_app.
Qed.

Lemma remote_context_answered i rs T :
  remote_phase_context (commands_answered i rs T) = remote_phase_context T.
Proof.
  revert i T. induction rs as [|x rs IH]; intros i T; [done|]. simpl. rewrite IH.
  destruct (Successful x); [done|]. unfold refused, fail_phase, enqueue_failed_index. by repeat case_match.
Qed.

(** A command refuses the call or accepts it. *)
Lemma failures_and_accepted i rs :
  Forall valid_result rs → Forall (λ x, status x ≠ Retry) rs →
  (length (failures i rs []) + length (accepted i rs) = length rs)%nat.
Proof.
  intros Hv Hnr. revert i. induction Hnr as [|x rs Hx Hnr IH]; intros i; [done|].
  apply Forall_cons in Hv as [[_ Hvx] Hv]. unfold failures in *. cbn [seq zip_with app length accepted].
  destruct (Successful x) eqn:Hs.
  - apply Successful_true in Hs as ->. rewrite filter_cons_False by done.
    cbn [length]. specialize (IH Hv (S i)). lia.
  - rewrite filter_cons_True; [cbn [length]; specialize (IH Hv (S i)); lia|].
    unfold failing. simpl. destruct (status x); [|done..]. rewrite Hvx in Hs by done. done.
Qed.

(** The commands are called and call back. *)
Definition run_phase (p : TransactionPhase) t cbs : State (Machine (Command := Command)) () :=
  ExecuteDistributedPhase (ProceedToNextPhase now) p t;; callbacks p t cbs.

Lemma run_phase_proceeds p t T m cbs :
  let n := length (txn_commands T) in
  let rs := take_answers n (answers m) in
  calls_commands p = true → locked_at p T → machine_ok m → (0 < n)%nat → Z.of_nat n < 2 ^ 31 →
  failed_with [] T → Forall valid_result rs → Forall (λ x, status x ≠ Retry) rs →
  cbs.*1 ≡ₚ accepted 0 rs → Forall (λ c, status c.2 ≠ Retry) cbs →
  ∃ T' rest, run_phase p t cbs (at_txn t T m) = Some ((), after_handler t (proceeded now p T')
      (emitting (command_calls t 0 p (txn_commands T) rs) (with_answers rest m))) ∧
    running p 0 (failures 0 rs cbs) T T'.
Proof.
  intros n rs Hp HT Hok Hpos Hn Hfail Hv Hnr Hcbs Hx.
  assert (length rs = n) as Hlen by apply take_answers_length.
  assert (length cbs = length (accepted 0 rs)) as Hcl by by rewrite <- Hcbs, length_fmap.
  pose proof (accepted_length 0 rs) as Hacc. pose proof (refusals_range rs) as Href.
  destruct (ExecuteDistributedPhase_run now p t T m Hp HT Hok) as [rest Hrun]. fold n rs in Hrun.
  set (m1 := emitting (command_calls t 0 p (txn_commands T) rs) (with_answers rest m)).
  set (T1 := commands_answered 0 rs (set_pending (Z.of_nat n) T)).
  destruct (commands_answered_fixed 0 rs (set_pending (Z.of_nat n) T)) as (F1 & F2 & F3 & F4 & F5 & F6).
  assert (remote_phase_context T1 = remote_phase_context T) as F7.
  { subst T1. rewrite remote_context_answered. done. }
  assert (txn_commands T1 = txn_commands T) as Hc1 by (unfold txn_commands, T1; by rewrite F2).
  assert (∀ k, k = Z.of_nat (length cbs) →
    running p (length cbs) (failures 0 rs []) T (set_pending k T1)) as Hrunning.
  { intros k ->. constructor; try done.
    - apply locked_pending, locked_answered; [|by apply locked_pending].
      change (txn_commands (set_pending (Z.of_nat n) T)) with (txn_commands T). lia.
    - destruct (failures_of_calls 0 rs [] (set_pending (Z.of_nat n) T)) as []; try done; [|simpl; lia].
      by destruct Hfail. }
  assert (failures 0 rs cbs = failures 0 rs [] ++ filter failing cbs) as Hall.
  { unfold failures. by rewrite app_nil_r, filter_app. }
  unfold run_phase. erewrite bind_run; [|exact Hrun]. cbv beta. unfold commands_called. fold n.
  rewrite u64_id by (unfold is_u64; lia). fold T1.
  destruct cbs as [|c cbs].
  { assert (Z.of_nat n = refusals rs) as Heq by (simpl in Hcl; lia).
    rewrite (proj2 (Z.ltb_lt 0 _)), <- Heq, Z.eqb_refl, Z.sub_diag by lia. change (u64 0) with 0.
    exists (set_pending 0 T1), rest. split; [|rewrite Hall, filter_nil, app_nil_r; by apply Hrunning].
    cbn [callbacks]. rewrite ret_run. f_equal. f_equal.
    destruct (proceeded now p (set_pending 0 T1)) as [[T2 acts] gone].
    unfold after_handler, m1. by rewrite emitting_emitting. }
  assert (∀ T2, T2 = set_pending (Z.of_nat (length (c :: cbs))) T1 →
    ∃ T', callbacks p t (c :: cbs) (at_txn t T2 m1) = Some ((), after_handler t (proceeded now p T') m1) ∧
      running p 0 (failures 0 rs (c :: cbs)) T T') as Hrest.
  { intros T2 ->. rewrite Hall.
    apply (callbacks_run p t (c :: cbs) (failures 0 rs []) T _ m1); [by apply Hrunning|done|done| |done|].
    - change (txn_commands (set_pending _ T1)) with (txn_commands T1). rewrite Hc1.
      apply Forall_forall. intros d Hd. assert (d.1 ∈ accepted 0 rs) as (_ & x & Hl & _)%elem_of_accepted.
      { rewrite <- Hcbs. apply list_elem_of_fmap. by exists d. }
      apply lookup_lt_Some in Hl. lia.
    - rewrite Hcl. pose proof (failures_and_accepted 0 rs Hv Hnr). lia. }
  assert (0 < length (c :: cbs))%nat as Hc0 by (simpl; lia).
  destruct (Z.ltb_spec 0 (refusals rs)).
  - rewrite (proj2 (Z.eqb_neq _ _)) by lia. rewrite u64_id by (unfold is_u64; lia).
    destruct (Hrest (set_pending (Z.of_nat n - refusals rs) T1)) as (T' & Hrun' & HT'); [f_equal; lia|].
    exists T', rest. split; [|done]. unfold after_handler at 1. exact Hrun'.
  - destruct (Hrest T1) as (T' & Hrun' & HT').
    { replace (Z.of_nat (length (c :: cbs))) with (pending_callbacks T1); [by destruct T1|].
      unfold T1. rewrite F6. cbn [pending_callbacks set_pending]. lia. }
    exists T', rest. split; [|done]. unfold after_handler at 1. exact Hrun'.
Qed.

Lemma first_failure_status rs cbs : status (first_failure (failures 0 rs cbs)) ≠ Retry.
Proof.
  unfold first_failure. destruct (failures 0 rs cbs) as [|f fs] eqn:Hf; [done|].
  assert (f ∈ failures 0 rs cbs) as Hin by (rewrite Hf; by left).
  apply list_elem_of_filter in Hin as [Hfail _]. simpl. by rewrite Hfail.
Qed.

(** After one of its phases that answers without a retry, a transaction is not at
    its beginning. *)
Lemma next_not_begin p x : calls_commands p = true → status x ≠ Retry →
  TransactionPhaseManager.ProceedToNextPhase p x ≠ TransactionPhase.Begin.
Proof.
  intros Hp Hx. rewrite ProceedToNextPhase_status by (by apply calls_known).
  destruct (status x), p; done.
Qed.

(** C17: a phase of a transaction with at least one command completes: when the
    calls and the callbacks succeed or fail without asking for a retry, the
    coordinator is told once, after the last of them and in whatever order the
    commands that accepted the call answer, the result of the first that failed, with
    the failing commands in the order they failed; the transaction is unlocked in
    the phase that follows that result, or, at the end of a transaction that ends
    with success, forgotten. *)
Theorem phase_completes p t T m cbs :
  let n := length (txn_commands T) in
  let rs := take_answers n (answers m) in
  let fs := failures 0 rs cbs in
  let told := answer (first_failure fs)
    (mkPhaseResponse (wall_now now) (if TransactionPhase.eqb p TransactionPhase.End then [] else fs.*1)
       (if TransactionPhase.eqb p TransactionPhase.End then [] else omap (λ i, txn_commands T !! i) fs.*1))
    (remote_phase_context T) in
  calls_commands p = true → locked_at p T → machine_ok m → (0 < n)%nat → Z.of_nat n < 2 ^ 31 →
  failed_with [] T → Forall valid_result rs → Forall (λ x, status x ≠ Retry) rs →
  cbs.*1 ≡ₚ accepted 0 rs → Forall (λ c, status c.2 ≠ Retry) cbs →
  ∃ m', run_phase p t cbs (at_txn t T m) = Some ((), m') ∧
    actions m' = actions m ++ command_calls t 0 p (txn_commands T) rs ++ finish_actions FinishPhase told ∧
    if TransactionPhase.eqb p TransactionPhase.End then
      active m' = if Successful (first_failure fs) then delete (id T) (active m) else active m
    else
      active m' = active m ∧ ∃ T', transactions m' !! t = Some T' ∧ is_waiting_for_remote T' = true ∧
        current_phase T' = TransactionPhaseManager.ProceedToNextPhase p (first_failure fs).
Proof.
  intros n rs fs told Hp HT Hok Hpos Hn Hfail Hv Hnr Hcbs Hx.
  destruct (run_phase_proceeds p t T m cbs Hp HT Hok Hpos Hn Hfail Hv Hnr Hcbs Hx)
    as (T' & rest & Hrun & [[Hr Hw Hph Hin] Hpend [Hf1 Hf2 Hf3] Hid Hctx Hrem]).
  fold n rs in Hrun, Hf1, Hf2, Hf3. fold fs in Hf1, Hf2, Hf3. eexists. split; [exact Hrun|].
  set (m1 := emitting _ _). unfold proceeded. subst told.
  destruct (TransactionPhase.eqb p TransactionPhase.End) eqn:Hend.
  - unfold ended, after_handler. cbn [current_phase_execution_result set_last_execution_timestamp
      last_execution_timestamp remote_phase_context id set_remote_phase_context]. rewrite Hf3, Hrem.
    assert (machine_ok m1) as Hok1 by exact Hok.
    destruct (Successful (first_failure fs)); (split; [by rewrite app_assoc|]); [|done].
    rewrite active_erased by done. by rewrite Hid.
  - unfold advanced, coordinator_answered, after_handler.
    cbn [current_phase set_last_execution_timestamp set_current_phase]. rewrite Hf3.
    rewrite (proj2 (TransactionPhase.eqb_false _ _))
      by (apply next_not_begin; [done|apply first_failure_status]).
    assert (failed_indices T' = fs.*1) as -> by (unfold failed_indices; rewrite Hf1, Hf2; by destruct fs).
    destruct (outcome_taken_fixed T') as (_ & Hc & _ & _ & _ & Hrc).
    change (txn_commands (set_last_execution_timestamp ?w (set_current_phase ?q (outcome_taken T'))))
      with (txn_commands (outcome_taken T')).
    assert (txn_commands (outcome_taken T') = txn_commands T) as -> by (unfold txn_commands; by rewrite Hc, Hctx).
    split; [|split; [done|]].
    + cbn [remote_phase_context set_last_execution_timestamp set_current_phase]. rewrite Hrc, Hrem.
      by rewrite app_assoc.
    + eexists. cbn. rewrite lookup_insert_eq. by split.
Qed.

(** A phase of a transaction without commands is never over: nothing is called,
    the coordinator is not answered, and the transaction stays locked. *)
Lemma phase_without_commands p t T m :
  txn_commands T = [] →
  run_phase p t [] (at_txn t T m) = Some ((), at_txn t (set_pending 0 T) m).
Proof.
  intros Hc. unfold run_phase, ExecuteDistributedPhase. repeat run_step. fold (txn_commands T). rewrite Hc.
  by repeat run_step.
Qed.

End completion.
