(* ===== verification/TransactionTermination.v ===== *)
(** * Transactions coordinated by the engine itself

    [ProceedToNextPhase] of [TransactionEngine] calls itself through the phases
    when every command of a phase refuses the call. A machine's commands are given
    what they answer, and take every call after that: the model's fuel is enough for
    it, so the function satisfies the recursive equation of the code. The code itself
    bounds nothing: as long as all commands of the begin phase ask for a retry it calls
    them again, one call within the other. *)

From S2P Require Import Prelude ExecutionResult ErrorCodes Uuid Serialization.
From S2P Require Import AutoExpiryMap AutoExpiryView StateMonad TransactionPhases TransactionLog TransactionEngine.
From S2P Require Import TransactionRemote TransactionSystem.
From stdpp Require Import options.

Local Open Scope Z_scope.

Section fuel.
  Context `{!ProtoMessage TransactionPhaseLog_1_0} `{!ProtoMessage TransactionLog_1_0}
    `{!ProtoMessage TransactionEngineLog_1_0} `{!ProtoMessage TransactionEngineLog}.
  Context {Command : Type}.
  Implicit Types (m : Machine (Command := Command)) (T : Transaction Command) (t : txn_loc)
    (proceed : TransactionPhase → txn_loc → State (Machine (Command := Command)) ()).
  Variable now : Clock.

(** A computation that asks the commands nothing. *)
Definition keeps {A} (x : State (Machine (Command := Command)) A) : Prop :=
  ∀ m a m', x m = Some (a, m') → answers m' = answers m.

Lemma keeps_ret {A} (a : A) : keeps (mret a).
Proof. by intros m b m' [= _ <-]. Qed.

Lemma keeps_bind {A B} (x : State Machine A) (f : A → State Machine B) :
  keeps x → (∀ a, keeps (f a)) → keeps (x ≫= f).
Proof.
  intros Hx Hf m b m'. unfold mbind, State_bind. destruct (x m) as [[a m1]|] eqn:Hm; [|done].
  intros Hrun. rewrite (Hf _ _ _ _ Hrun). by apply (Hx _ _ _ Hm).
Qed.

Lemma keeps_deref t : keeps (deref t).
Proof. intros m T m'. unfold deref. destruct (transactions m !! t); [by intros [= _ <-]|done]. Qed.

Lemma keeps_update t f : keeps (update t f).
Proof. by intros m a m' [= _ <-]. Qed.

#[local] Hint Resolve keeps_ret keeps_bind keeps_deref keeps_update : core.

Lemma keeps_take_phase_outcome t : keeps (take_phase_outcome t).
Proof. unfold take_phase_outcome. apply keeps_bind; [by auto|]. intros T. destruct (current_phase_failed T); auto. Qed.

#[local] Hint Resolve keeps_take_phase_outcome : core.

Lemma bind_ext {A B} (x : State (Machine (Command := Command)) A) (f g : A → State Machine B) m :
  (∀ a m', x m = Some (a, m') → f a m' = g a m') → (x ≫= f) m = (x ≫= g) m.
Proof. intros H. unfold mbind, State_bind. destruct (x m) as [[a m']|]; [|done]. by apply H. Qed.

(** Two continuations that agree on machines with at most [n] answers. *)
Lemma bind_agree {A B} n (x : State Machine A) (f g : A → State Machine B) m :
  keeps x → (length (answers m) ≤ n)%nat →
  (∀ a m', (length (answers m') ≤ n)%nat → f a m' = g a m') → (x ≫= f) m = (x ≫= g) m.
Proof.
  intros Hx Hn H. unfold mbind, State_bind. destruct (x m) as [[a m']|] eqn:Hm; [|done].
  apply H. by rewrite (Hx _ _ _ Hm).
Qed.

(** Two functions agree on machines with fewer than [n] answers. *)
Definition agree (n : nat) proceed1 proceed2 : Prop :=
  ∀ p t m, (length (answers m) < n)%nat → proceed1 p t m = proceed2 p t m.

(** A command that refuses has used up an answer. *)
Lemma dispatch_commands_answers p cs t : calls_commands p = true → ∀ i m (k : Z) m',
  dispatch_commands i p cs t m = Some (k, m') →
  0 ≤ k ∧ Z.of_nat (length (answers m')) + k ≤ Z.of_nat (length (answers m)).
Proof.
  intros Hp. induction cs as [|c cs IH]; intros i m k m' Hrun.
  { injection Hrun as <- <-. lia. }
  cbn [dispatch_commands] in Hrun. set (x := default SuccessExecutionResult (head (answers m))).
  assert (∃ m1, DispatchDistributedCommand i p c t m = Some (x, m1) ∧ answers m1 = tail (answers m))
    as (m1 & Hd & Ha).
  { unfold DispatchDistributedCommand. subst x.
    destruct p; try done; unfold mbind, State_bind, next_answer; destruct (answers m) as [|y ys] eqn:Hm; simpl;
      (eexists; split; [done|]); by rewrite ?Hm. }
  rewrite (bind_run _ _ _ _ _ Hd) in Hrun. cbv beta in Hrun.
  assert (Z.of_nat (length (answers m1)) + (if Successful x then 0 else 1) ≤ Z.of_nat (length (answers m))) as Hl.
  { rewrite Ha. subst x. destruct (answers m) as [|y ys]; [done|]. cbn [head default tail length].
    destruct (Successful _); lia. }
  destruct (Successful x); cbn [negb] in Hrun.
  - apply IH in Hrun. lia.
  - assert (∃ m2 m3 k', answers m2 = answers m1 ∧ dispatch_commands (S i) p cs t m2 = Some (k', m3) ∧
      k = 1 + k' ∧ m' = m3) as (m2 & m3 & k' & Hm2 & Hrec & -> & ->).
    { destruct (bool_decide _); unfold mbind, State_bind in Hrun;
        cbn [update modify mret State_ret] in Hrun;
        (lazymatch type of Hrun with context [dispatch_commands _ _ _ _ ?m2] =>
           destruct (dispatch_commands (S i) p cs t m2) as [[k' m3]|] eqn:Hrec; [|done]; exists m2, m3, k' end);
        by injection Hrun as <- <-. }
    apply IH in Hrec. rewrite Hm2 in Hrec. lia.
Qed.

Lemma ExecuteDistributedPhase_agree n proceed1 proceed2 p t m :
  agree n proceed1 proceed2 → calls_commands p = true → (length (answers m) ≤ n)%nat →
  ExecuteDistributedPhase proceed1 p t m = ExecuteDistributedPhase proceed2 p t m.
Proof.
  intros Hagree Hp Hn. unfold ExecuteDistributedPhase. apply (bind_agree n); [by auto|done|]. intros T m1 Hn1.
  apply (bind_agree n); [by auto|done|]. intros [] m2 Hn2.
  apply bind_ext. intros k m3 Hk.
  apply dispatch_commands_answers in Hk as [_ Hl]; [|done].
  destruct (Z.ltb_spec 0 k); [|done]. apply (bind_agree (length (answers m3))); [by auto|done|]. intros T' m4 Hn4.
  apply (bind_agree (length (answers m3))); [by auto|done|]. intros [] m5 Hn5.
  destruct (pending_callbacks T' =? k); [|done]. apply Hagree. lia.
Qed.

Lemma ExecuteCurrentPhase_agree n proceed1 proceed2 t m :
  agree n proceed1 proceed2 → (length (answers m) ≤ n)%nat →
  ExecuteCurrentPhase proceed1 t m = ExecuteCurrentPhase proceed2 t m.
Proof.
  intros Hagree Hn. unfold ExecuteCurrentPhase. apply (bind_agree n); [by auto|done|]. intros T m1 Hn1.
  destruct (current_phase T); try done. by apply (ExecuteDistributedPhase_agree n).
Qed.

Lemma proceed_once_agree n proceed1 proceed2 p t m :
  agree n proceed1 proceed2 → (length (answers m) ≤ n)%nat →
  proceed_once now proceed1 p t m = proceed_once now proceed2 p t m.
Proof.
  intros Hagree Hn. unfold proceed_once. destruct (TransactionPhase.eqb p TransactionPhase.End); [done|].
  apply (bind_agree n); [by auto|done|]. intros T m1 Hn1. cbv zeta.
  apply (bind_agree n); [by auto|done|]. intros [indices x] m2 Hn2.
  apply (bind_agree n); [by auto|done|]. intros T2 m3 Hn3.
  destruct (negb _); [done|]. apply (bind_agree n); [by auto|done|]. intros [] m4 Hn4.
  destruct (is_coordinated_remotely T2); [done|]. by apply (ExecuteCurrentPhase_agree n).
Qed.

Lemma proceed_fuel_enough f1 f2 p t m :
  (length (answers m) < f1)%nat → (length (answers m) < f2)%nat →
  proceed_fuel now f1 p t m = proceed_fuel now f2 p t m.
Proof.
  revert f2 p t m. induction f1 as [|f1 IH]; intros f2 p t m H1 H2; [lia|].
  destruct f2 as [|f2]; [lia|]. cbn [proceed_fuel].
  apply (proceed_once_agree (length (answers m))); [|done].
  intros q t' m' Hl. apply IH; lia.
Qed.

(** The recursive equation of the code. *)
Lemma ProceedToNextPhase_equation p t m :
  ProceedToNextPhase now p t m = proceed_once now (ProceedToNextPhase now) p t m.
Proof.
  unfold ProceedToNextPhase at 1. cbn [proceed_fuel].
  apply (proceed_once_agree (length (answers m))); [|done].
  intros q t' m' Hl. apply proceed_fuel_enough; lia.
Qed.

End fuel.

Section local.
  Context {msgs : EngineLogMessages} {laws : EngineLogLaws}.
  Context {Command : Type} `{!TransactionCommandSerializerInterface Command}
    `{!TransactionCommandSerializerLaws Command}.
  #[local] Set Default Proof Using "Type*".
  Implicit Types (m : Machine (Command := Command)) (T : Transaction Command) (t : txn_loc).
  Variable now : Clock.

(** A transaction the engine coordinates itself, whose state can be logged. *)
Record local_ok T : Prop := {
  local_coordinated : is_coordinated_remotely T = false;
  local_id : valid_uuid (id T);
  local_result : is_u64 (status_code (transaction_execution_result T));
  local_phase_result : is_u64 (status_code (current_phase_execution_result T));
}.

Lemma refused_local i x T : is_u64 (status_code x) → local_ok T → local_ok (refused i x T).
Proof.
  intros Hx [? ? ? ?]. unfold refused, fail_phase, enqueue_failed_index. by repeat case_match.
Qed.

Lemma answered_local i rs T : Forall valid_result rs → local_ok T → local_ok (commands_answered i rs T).
Proof.
  intros Hrs. revert i T. induction Hrs as [|x rs [Hx _] Hrs IH]; intros i T HT; [done|]. simpl. apply IH.
  destruct (Successful x); [done|]. by apply refused_local.
Qed.

Lemma outcome_taken_local T : local_ok T → local_ok (outcome_taken T).
Proof.
  intros []. unfold outcome_taken. destruct (current_phase_failed T); [|done].
  cbn [transaction_failed set_failed_indices]. by destruct (transaction_failed T).
Qed.

Lemma refusals_need_answers n rs : 0 < refusals (take_answers n rs) → (length (drop n rs) < length rs)%nat.
Proof.
  rewrite length_drop. destruct rs as [|x rs].
  - assert (refusals (take_answers n []) = 0) as ->; [|lia]. induction n as [|n IH]; [done|]. exact IH.
  - destruct n; simpl; lia.
Qed.

Lemma LogState_local t cb T m : local_ok T →
  ∃ m', (LogState t cb;; mret ()) (at_txn t T m) = Some ((), m').
Proof.
  intros []. destruct (SerializeState_written T) as (d & Hd & _); [done..|].
  eexists. by erewrite bind_run; [|by apply LogState_run].
Qed.

(** The phases are defined when what they call is. *)
Lemma ExecuteCurrentPhase_local proceed t T m :
  local_ok T → Forall valid_result (answers m) →
  (∀ T' m', local_ok T' → Forall valid_result (answers m') → (length (answers m') < length (answers m))%nat →
     active_transactions_map_ m' = active_transactions_map_ m →
     ∃ m'', proceed TransactionPhase.Begin t (at_txn t T' m') = Some ((), m'')) →
  ∃ m', ExecuteCurrentPhase proceed t (at_txn t T m) = Some ((), m').
Proof.
  intros HT Has Hproceed. unfold ExecuteCurrentPhase. run_step.
  destruct (current_phase T); try (by apply LogState_local); [by eexists| |by eexists].
  unfold BeginTransaction, ExecuteDistributedPhase. repeat run_step.
  set (n := u64 _). erewrite bind_run; [|by apply dispatch_commands_run]. cbv beta zeta.
  set (rs := take_answers _ _). destruct (Z.ltb_spec 0 (refusals rs)); [|by eexists].
  repeat run_step. destruct (_ =? _); [|by eexists]. apply Hproceed.
  - assert (local_ok (commands_answered 0 rs (set_pending n T))) as [].
    { apply answered_local; [by apply Forall_take_answers|]. by destruct HT. }
    done.
  - by apply Forall_drop.
  - by apply refusals_need_answers.
  - done.
Qed.

(** The call ends, and does what the recursive code does. *)
Lemma ProceedToNextPhase_ends p t T m :
  machine_ok m → local_ok T → Forall valid_result (answers m) →
  ∃ m', ProceedToNextPhase now p t (at_txn t T m) = Some ((), m').
Proof.
  intros Hok HT Has.
  remember (length (answers m)) as n eqn:Hn. revert p T m Hok HT Has Hn.
  induction (lt_wf n) as [n _ IH]. intros p T m Hok HT Has ->.
  rewrite ProceedToNextPhase_equation. unfold proceed_once.
  destruct (TransactionPhase.eqb p TransactionPhase.End).
  - unfold finish_transaction. repeat run_step.
    change (is_coordinated_remotely (set_last_execution_timestamp (wall_now now) T))
      with (is_coordinated_remotely T). rewrite (local_coordinated T HT). repeat run_step.
    destruct (Successful _); [|by eexists].
    erewrite bind_run; [|by apply map_erase_run]. by eexists.
  - run_step. cbv zeta. erewrite bind_run; [|apply take_phase_outcome_run]. cbv beta iota. run_step.
    destruct (negb _); [by eexists|]. repeat run_step. pose proof (outcome_taken_local T HT) as HT1.
    rewrite (local_coordinated _ HT1).
    apply ExecuteCurrentPhase_local; [by destruct HT1|done|].
    intros T' m' HT' Has' Hl Hmap. apply (IH (length (answers m'))); try done.
    unfold machine_ok. by rewrite Hmap.
Qed.

(** *** Rounds of retries *)

Lemma take_answers_replicate n r rest : take_answers n (replicate n r ++ rest) = replicate n r.
Proof using. clear. induction n as [|n IH]; [done|]. simpl. by rewrite IH. Qed.

Lemma refusals_replicate n code : refusals (replicate n (RetryExecutionResult code)) = Z.of_nat n.
Proof using.
  clear. induction n as [|n IH]; [done|]. rewrite replicate_S. cbn [refusals].
  change (Successful (RetryExecutionResult code)) with false. cbn iota. lia.
Qed.

(** Commands that all ask for a retry. *)
Lemma all_retry i n code T : (0 < n)%nat → current_phase_failed T = false →
  commands_answered i (replicate n (RetryExecutionResult code)) T = set_phase_outcome true (RetryExecutionResult code) T.
Proof using.
  clear. intros Hn Hf. destruct n as [|n]; [lia|]. rewrite replicate_S. cbn [commands_answered].
  change (Successful (RetryExecutionResult code)) with false. cbn iota. unfold refused at 1.
  rewrite bool_decide_false by done. unfold fail_phase. rewrite Hf. clear Hn. generalize (S i). revert T Hf.
  induction n as [|n IH]; intros T Hf j; [done|]. rewrite replicate_S. cbn [commands_answered].
  change (Successful (RetryExecutionResult code)) with false. cbn iota. unfold refused.
  rewrite bool_decide_false by done. unfold fail_phase.
  change (current_phase_failed (set_phase_outcome true (RetryExecutionResult code) T)) with true. cbn iota. by apply IH.
Qed.

(** The calls of [k] rounds. *)
Definition retried_calls t (cs : list Command) (code : Z) (k : nat) : list Action :=
  concat (replicate k (command_calls t 0 TransactionPhase.Begin cs (replicate (length cs) (RetryExecutionResult code)))).

(** A transaction whose commands are to be called for its begin phase. *)
Definition begins p T : Prop :=
  p ≠ TransactionPhase.End ∧ TransactionLog.current_phase T = p ∧
  TransactionPhaseManager.ProceedToNextPhase p (current_phase_execution_result T) = TransactionPhase.Begin.

Lemma begin_round p t T m code rest :
  local_ok T → begins p T → (0 < length (txn_commands T))%nat → Z.of_nat (length (txn_commands T)) < 2 ^ 64 → is_u64 code →
  answers m = replicate (length (txn_commands T)) (RetryExecutionResult code) ++ rest →
  ∃ T', local_ok T' ∧ begins TransactionPhase.Begin T' ∧ txn_commands T' = txn_commands T ∧
    ProceedToNextPhase now p t (at_txn t T m)
    = ProceedToNextPhase now TransactionPhase.Begin t
        (at_txn t T' (emitting (retried_calls t (txn_commands T) code 1) (with_answers rest m))).
Proof.
  intros HT (Hp & Hcur & Hnext) Hn Hmax Hcode Has. rewrite ProceedToNextPhase_equation. unfold proceed_once.
  assert (TransactionPhase.eqb p TransactionPhase.End = false) as -> by (by destruct p).
  run_step. cbv zeta. erewrite bind_run; [|apply take_phase_outcome_run]. cbv beta iota. run_step.
  rewrite Hnext.
  assert (∀ T, TransactionLog.current_phase (outcome_taken T) = TransactionLog.current_phase T) as Hphase.
  { intros T0. unfold outcome_taken. destruct (current_phase_failed T0); [|done].
    cbn [transaction_failed set_failed_indices]. by destruct (transaction_failed T0). }
  assert (txn_commands (outcome_taken T) = txn_commands T) as Hcmds.
  { unfold outcome_taken. destruct (current_phase_failed T); [|done]. cbn [transaction_failed set_failed_indices]. by destruct (transaction_failed T). }
  assert (current_phase_failed (outcome_taken T) = false) as Hfailed.
  { unfold outcome_taken. destruct (current_phase_failed T) eqn:Hf; [|done]. done. }
  pose proof (outcome_taken_local T HT) as HT1.
  rewrite Hphase, Hcur. assert (TransactionPhase.eqb p p = true) as -> by (by destruct p). cbn [negb].
  repeat run_step. rewrite (local_coordinated _ HT1). set (T0 := outcome_taken T) in *.
  set (T1 := set_last_execution_timestamp _ (set_current_phase TransactionPhase.Begin T0)).
  unfold ExecuteCurrentPhase. run_step. change (TransactionLog.current_phase T1) with TransactionPhase.Begin. cbn iota.
  unfold BeginTransaction, ExecuteDistributedPhase. repeat run_step.
  change (commands (request (context T1))) with (txn_commands T0). rewrite Hcmds. rewrite u64_id by (unfold is_u64; lia).
  erewrite bind_run; [|by apply dispatch_commands_run]. cbv beta zeta. rewrite Has, take_answers_replicate, refusals_replicate.
  rewrite (proj2 (Z.ltb_lt _ _)) by lia.
  rewrite all_retry; [|done|exact Hfailed]. repeat run_step.
  set (T2 := set_phase_outcome true _ _). change (pending_callbacks T2) with (Z.of_nat (length (txn_commands T))).
  rewrite Z.eqb_refl. rewrite drop_app_length' by (by rewrite length_replicate).
  exists (set_pending (u64 (Z.of_nat (length (txn_commands T)) - Z.of_nat (length (txn_commands T)))) T2).
  split; [destruct HT1; by constructor|]. split; [split_and!; [done|done|]|split; [exact Hcmds|]].
  - unfold TransactionPhaseManager.ProceedToNextPhase. change (current_phase_execution_result _) with (RetryExecutionResult code).
    cbn. assert (result_eqb (RetryExecutionResult code) (RetryExecutionResult code) = true) as -> by (by apply result_eqb_spec). done.
  - unfold retried_calls. simpl. by rewrite app_nil_r.
Qed.

(** C33: a transaction that the engine coordinates itself, and whose commands are to be
    called for its begin phase, calls them again within the same call of
    [ProceedToNextPhase] every time all of them ask for a retry: for every number [k] of such
    rounds, the call makes the [k] rounds of calls and goes on as the recursive call of the
    code. Nothing bounds the rounds, and the call ends when the commands, after what they
    are given to answer, take the calls. *)
Theorem begin_retried_in_one_call p t T m k code rest :
  machine_ok m → local_ok T → begins p T →
  0 < Z.of_nat (length (txn_commands T)) < 2 ^ 64 → is_u64 code → Forall valid_result rest →
  answers m = replicate (k * length (txn_commands T)) (RetryExecutionResult code) ++ rest →
  ∃ T' m', txn_commands T' = txn_commands T ∧ answers m' = rest ∧
    actions m' = actions m ++ retried_calls t (txn_commands T) code k ∧
    (let p' := if k is O then p else TransactionPhase.Begin in
     begins p' T' ∧
     ProceedToNextPhase now p t (at_txn t T m) = ProceedToNextPhase now p' t (at_txn t T' m') ∧
     ProceedToNextPhase now p' t (at_txn t T' m') = proceed_once now (ProceedToNextPhase now) p' t (at_txn t T' m') ∧
     ∃ m'', ProceedToNextPhase now p' t (at_txn t T' m') = Some ((), m'')).
Proof.
  intros Hok HT Hb Hn Hcode Hrest. revert p T m Hok HT Hb Hn.
  induction k as [|k IH]; intros p T m Hok HT Hb Hn Has.
  - exists T, m. simpl in Has. cbv zeta iota. split; [done|]. split; [done|]. split; [by rewrite app_nil_r|].
    split; [done|]. split; [done|]. split; [apply ProceedToNextPhase_equation|].
    apply ProceedToNextPhase_ends; [done|done|by rewrite Has].
  - cbn [Nat.mul] in Has. rewrite replicate_add, <- app_assoc in Has.
    destruct (begin_round p t T m code _ HT Hb ltac:(lia) ltac:(lia) Hcode Has) as (T1 & HT1 & Hb1 & Hc1 & Heq).
    destruct (IH TransactionPhase.Begin T1 (emitting (retried_calls t (txn_commands T) code 1)
      (with_answers (replicate (k * length (txn_commands T)) (RetryExecutionResult code) ++ rest) m)))
      as (T' & m' & Hc & Ha & Hacts & Hb' & Heq' & Hrec & Hend); [done|done|done|by rewrite Hc1|by rewrite Hc1|].
    exists T', m'. assert ((if k is O then TransactionPhase.Begin else TransactionPhase.Begin) = TransactionPhase.Begin) as Ek by (by destruct k).
    cbv zeta iota in *. rewrite Ek in *. split; [congruence|]. split; [done|].
    split; [|split; [done|split; [by rewrite Heq, Heq'|by split]]].
    rewrite Hacts, Hc1. unfold retried_calls. cbn [actions emitting with_actions with_answers replicate concat].
    by rewrite app_nil_r, <- app_assoc.
Qed.

End local.
