(* ===== verification/TransactionExamples.v ===== *)
(** * Examples of the transaction engine

    A wire form of the engine's logs, commands with a serializer, runs of the
    system from its initial state, and the theorems about the engine applied to
    them. *)

From S2P Require Import Prelude ExecutionResult ErrorCodes Uuid Serialization.
From S2P Require Import AutoExpiryMap AutoExpiryView StateMonad TransactionPhases TransactionLog TransactionEngine.
From S2P Require Import TransactionRemote TransactionRecovery TransactionReplay TransactionSystem.
From S2P Require Import TransactionSteps TransactionSafety TransactionRequests TransactionDurability.
From S2P Require Import TransactionTheorems TransactionCompletion TransactionTermination Text.
From stdpp Require Import options.

Local Open Scope Z_scope.

(** ** A wire form *)

Module ExampleEngine.

Definition proto_phases : list ProtoPhase :=
  [ProtoPhase.TRANSACTION_PHASE_TYPE_UNKNOWN; ProtoPhase.NOT_STARTED; ProtoPhase.BEGIN; ProtoPhase.PREPARE;
   ProtoPhase.COMMIT; ProtoPhase.COMMIT_NOTIFY; ProtoPhase.COMMITTED; ProtoPhase.ABORT_NOTIFY; ProtoPhase.ABORTED;
   ProtoPhase.END].
Definition phase_number (p : ProtoPhase) : Z :=
  match p with
  | ProtoPhase.TRANSACTION_PHASE_TYPE_UNKNOWN => 0 | ProtoPhase.NOT_STARTED => 1 | ProtoPhase.BEGIN => 2
  | ProtoPhase.PREPARE => 3 | ProtoPhase.COMMIT => 4 | ProtoPhase.COMMIT_NOTIFY => 5 | ProtoPhase.COMMITTED => 6
  | ProtoPhase.ABORT_NOTIFY => 7 | ProtoPhase.ABORTED => 8 | ProtoPhase.END => 9
  end.
Definition statuses : list ProtoExecutionStatus :=
  [EXECUTION_STATUS_UNKNOWN; EXECUTION_STATUS_SUCCESS; EXECUTION_STATUS_FAILURE; EXECUTION_STATUS_RETRY].
Definition status_number (s : ProtoExecutionStatus) : Z :=
  match s with
  | EXECUTION_STATUS_UNKNOWN => 0 | EXECUTION_STATUS_SUCCESS => 1
  | EXECUTION_STATUS_FAILURE => 2 | EXECUTION_STATUS_RETRY => 3
  end.
Definition log_types : list TransactionLogType := [TRANSACTION_LOG_TYPE_UNKNOWN; TRANSACTION_LOG; TRANSACTION_PHASE_LOG].
Definition type_number (t : TransactionLogType) : Z :=
  match t with TRANSACTION_LOG_TYPE_UNKNOWN => 0 | TRANSACTION_LOG => 1 | TRANSACTION_PHASE_LOG => 2 end.

#[local] Instance example_phase_log : ProtoMessage TransactionPhaseLog_1_0 :=
  fields_message
    (λ l, [high (phase_log_id l); low (phase_log_id l); phase_number (phase_log_phase l);
           Z.b2z (phase_log_failed l); status_number (proto_status (phase_log_result l));
           proto_status_code (phase_log_result l)])
    (λ fields, match fields with
               | [hi; lo; p; f; s; c] =>
                   p ← proto_phases !! Z.to_nat p;
                   s ← statuses !! Z.to_nat s;
                   Some (mkPhaseLog (mkUuid hi lo) p (f =? 1) (mkProtoResult s c))
               | _ => None
               end).

#[local] Instance example_transaction_log : ProtoMessage TransactionLog_1_0 :=
  fields_message
    (λ l, [high (log_id l); low (log_id l); log_timeout l; Z.b2z (log_is_coordinated_remotely l);
           Z.of_nat (length (log_commands l))]
          ++ put_string (log_transaction_secret l) ++ put_string (log_transaction_origin l)
          ++ (log_commands l ≫= put_list))
    (λ fields, match fields with
               | hi :: lo :: timeout :: remote :: n :: rest =>
                   '(secret, rest) ← get_list rest;
                   '(origin, rest) ← get_list rest;
                   cs ← get_lists (Z.to_nat n) rest;
                   Some (mkTransactionLog (mkUuid hi lo) timeout (remote =? 1) (string_of secret) (string_of origin) cs)
               | _ => None
               end).

#[local] Instance example_engine_log_1_0 : ProtoMessage TransactionEngineLog_1_0 :=
  fields_message (λ l, type_number (engine_log_type l) :: engine_log_1_0_body l)
    (λ fields, match fields with
               | t :: body => (λ t, mkEngineLog_1_0 t body) <$> log_types !! Z.to_nat t
               | [] => None
               end).

#[local] Instance example_engine_log : ProtoMessage TransactionEngineLog :=
  fields_message (λ l, major (engine_log_version l) :: minor (engine_log_version l) :: engine_log_body l)
    (λ fields, match fields with
               | ma :: mi :: body => Some (mkEngineLog (mkVersion ma mi) body)
               | _ => None
               end).

#[export] Instance example_messages : EngineLogMessages := {|
  phase_log_message := example_phase_log;
  transaction_log_message := example_transaction_log;
  engine_log_1_0_message := example_engine_log_1_0;
  engine_log_message := example_engine_log;
|}.

Lemma phase_log_laws_hold : ProtoMessageLaws TransactionPhaseLog_1_0 valid_phase_log max_body.
Proof. apply fields_message_laws; [by intros l _|done|]. by intros [[] [] [] [[] ?]]. Defined.

Lemma transaction_log_laws_hold : ProtoMessageLaws TransactionLog_1_0 valid_transaction_log max_body.
Proof.
  apply fields_message_laws; [by intros l (_ & _ & _ & _ & Hmax)|done|].
  intros [[hi lo] timeout remote secret origin cs].
  cbn [log_id high low log_timeout log_is_coordinated_remotely log_transaction_secret log_transaction_origin
       log_commands app]. cbv beta iota. unfold put_string. rewrite get_put_list. cbn [mbind option_bind].
  cbv beta iota. rewrite get_put_list. cbn [mbind option_bind]. cbv beta iota.
  rewrite Nat2Z.id, get_put_lists by done. simpl. rewrite !string_of_put. by destruct remote.
Defined.

Lemma engine_log_1_0_laws_hold : ProtoMessageLaws TransactionEngineLog_1_0 valid_engine_log_1_0 max_log_1_0.
Proof.
  apply fields_message_laws; [|done|by intros [[] ?]].
  intros l [_ Hmax]. simpl. unfold max_body, max_log_1_0 in *. lia.
Defined.

Lemma engine_log_laws_hold : ProtoMessageLaws TransactionEngineLog valid_engine_log max_log.
Proof.
  apply fields_message_laws; [|done|by intros [[] ?]].
  intros l (_ & _ & Hmax). simpl. unfold max_log_1_0, max_log in *. lia.
Defined.

#[export] Instance example_laws : EngineLogLaws.
Proof.
  refine (Build_EngineLogLaws _ phase_log_laws_hold transaction_log_laws_hold engine_log_1_0_laws_hold
            engine_log_laws_hold _ _ _ _); intros l Hl; done.
Defined.

(** ** Commands *)

(** A command is a number. *)
#[export] Instance example_serializer : TransactionCommandSerializerInterface Z := {|
  SerializeCommand _ c := (SuccessExecutionResult, BytesBufferOf [c]);
  DeserializeCommand _ b :=
    match BufferContents b with
    | [c] => (SuccessExecutionResult, Some c)
    | _ => (FailureExecutionResult SC_TRANSACTION_ENGINE_INVALID_DISTRIBUTED_COMMAND, None)
    end;
  storable_command _ _ := True;
|}.

#[export] Instance example_serializer_laws : TransactionCommandSerializerLaws Z.
Proof. intros i c b _ [= <-]. done. Qed.

End ExampleEngine.
Import ExampleEngine.

(** ** Runs *)

Definition example_settings : Settings := mkSettings false true 300 true 3600.
Definition example_now : Clock := mkClock 5 100.

(** What happens next; a task is named by its place. *)
Inductive Input :=
| InPhase (rq : TransactionPhaseRequest)
| InPersist (place : nat)
| InLogged (place : nat)
| InCommand (place : nat) (failed : bool)
| InResume (place : nat)
| InCrash.

Definition command_answer (failed : bool) : ExecutionResult :=
  if failed then FailureExecutionResult 7 else SuccessExecutionResult.

Definition drive (σ : System (Command := Z)) (input : Input) : option System :=
  let '(mkSystem m j ks h) := σ in
  match input with
  | InPhase rq =>
      '(_, m') ← handled [] (ExecutePhase example_settings example_now (NewContext rq (CallerCallback 1))) m;
      Some (settle m' j ks h)
  | InPersist n =>
      match ks !! n with
      | Some (TaskLog d cb false) =>
          Some (mkSystem m (j ++ [d]) (take n ks ++ TaskLog d cb true :: drop (S n) ks) h)
      | _ => None
      end
  | InLogged n =>
      match ks !! n with
      | Some (TaskLog d cb true) =>
          '(_, m') ← handled [] (OnLogCallback example_now d cb SuccessExecutionResult) m;
          Some (settle m' j (take n ks ++ drop (S n) ks) h)
      | _ => None
      end
  | InCommand n failed =>
      match ks !! n with
      | Some (TaskCommand t i p) =>
          T ← transactions m !! t;
          '(_, m') ← handled [] (OnPhaseCallback example_now i p (command_answer failed) t) m;
          Some (settle m' j (take n ks ++ drop (S n) ks) (record (id T) [Completed p i (command_answer failed)] h))
      | _ => None
      end
  | InResume n =>
      match ks !! n with
      | Some (TaskResume t) =>
          '(_, m') ← handled [] (ProceedToNextPhaseAfterRecovery example_now t) m;
          Some (settle m' j (take n ks ++ drop (S n) ks) h)
      | _ => None
      end
  | InCrash =>
      match recover_logs example_settings example_now j empty_machine with
      | Some (r, m1) =>
          if decide (r = SuccessExecutionResult) then
            match Run example_settings example_now m1 with
            | Some ((r, ts), m2) =>
                if decide (r = SuccessExecutionResult) then Some (mkSystem m2 j (TaskResume <$> ts) h) else None
            | None => None
            end
          else None
      | None => None
      end
  end.

Fixpoint drive_all (σ : System (Command := Z)) (inputs : list Input) : option System :=
  match inputs with
  | [] => Some σ
  | input :: inputs => drive σ input ≫= λ σ, drive_all σ inputs
  end.

Lemma drive_step σ input σ' :
  drive σ input = Some σ' → step example_settings valid_result σ σ'.
Proof.
  destruct σ as [m j ks h]. unfold drive. destruct input as [rq|n|n|n failed|n|].
  - destruct (handled _ _ _) as [[r m']|] eqn:Hrun; [|done]. intros [= <-].
    by apply (step_ExecutePhase _ _ example_now [] (NewContext rq (CallerCallback 1)) r).
  - destruct (ks !! n) as [[d cb []| | | |]|] eqn:Hk; try done. intros [= <-].
    rewrite <- (take_drop_middle ks n _ Hk) at 1. apply step_persist.
  - destruct (ks !! n) as [[d cb []| | | |]|] eqn:Hk; try done.
    destruct (handled _ _ _) as [[r m']|] eqn:Hrun; [|done]. intros [= <-].
    rewrite <- (take_drop_middle ks n _ Hk) at 1.
    by apply (step_logged _ _ example_now [] d cb true SuccessExecutionResult r).
  - destruct (ks !! n) as [[|t i p| | |]|] eqn:Hk; try done.
    destruct (transactions m !! t) as [T|] eqn:HT; [|done]. cbn [mbind option_bind].
    destruct (handled _ _ _) as [[r m']|] eqn:Hrun; [|done]. intros [= <-].
    rewrite <- (take_drop_middle ks n _ Hk) at 1.
    apply (step_command _ _ example_now [] t i p (command_answer failed) r T); try done. by destruct failed.
  - destruct (ks !! n) as [[| | | |t]|] eqn:Hk; try done.
    destruct (handled _ _ _) as [[r m']|] eqn:Hrun; [|done]. intros [= <-].
    rewrite <- (take_drop_middle ks n _ Hk) at 1. by apply (step_resume _ _ example_now [] t r).
  - destruct (recover_logs _ _ _ _) as [[r m1]|] eqn:Hrec; [|done]. destruct (decide _) as [->|]; [|done].
    destruct (Run _ _ _) as [[[r ts] m2]|] eqn:Hrun; [|done]. destruct (decide _) as [->|]; [|done].
    intros [= <-]. by apply (step_crash _ _ example_now m1).
Qed.

Lemma drive_reachable σ inputs σ' :
  reachable example_settings valid_result σ → drive_all σ inputs = Some σ' →
  reachable example_settings valid_result σ'.
Proof.
  revert σ. induction inputs as [|input inputs IH]; intros σ Hreach; simpl; [by intros [= <-]|].
  destruct (drive σ input) as [σ1|] eqn:Hd; [|done]. simpl. apply IH.
  apply (reachable_step _ _ σ); [done|]. by eapply drive_step.
Qed.

(** A transaction with two commands is started. *)
Definition example_id : Uuid := mkUuid 3 4.
Definition example_request : TransactionRequest Z :=
  mkTransactionRequest example_id [10; 20] 9 true (Some "secret"%string) (Some "origin"%string) false.

Definition example_started : option System :=
  '(_, m') ← handled [] (Execute example_settings example_now (NewContext example_request (CallerCallback 2)))
               (empty_machine (Command := Z));
  Some (settle m' [] [] (forget (empty_machine (Command := Z)) example_id ∅)).

Lemma example_engine_request_valid : valid_request example_request.
Proof.
  eexists _, _. split; [done|]. split; [done|]. split; [|by split; [|repeat constructor]].
  by vm_compute.
Qed.

Lemma started_reachable σ : example_started = Some σ → reachable example_settings valid_result σ.
Proof.
  unfold example_started. destruct (handled _ _ _) as [[r m']|] eqn:Hrun; [|done]. intros [= <-].
  apply (reachable_step _ _ initial_system); [constructor|].
  eapply (step_Execute _ _ example_now [] example_request (CallerCallback 2) r empty_machine [] [] ∅); try done.
  - by apply example_engine_request_valid.
Qed.

Definition ask (phase : TransactionExecutionPhase) (timestamp : Z) : Input :=
  InPhase (mkPhaseRequest example_id phase (Some "secret"%string) (Some "origin"%string) timestamp).

(** One phase that is logged: two commands answer. *)
Definition logged_phase (phase : TransactionExecutionPhase) : list Input :=
  [ask phase 100; InPersist 0; InLogged 0; InCommand 0 false; InCommand 0 false].

(** The engine recovers after the commit was logged, resumes it, and is told to
    notify the commands. *)
Definition example_begun : list Input := [InPersist 0; InLogged 0].
Definition example_inputs : list Input :=
  example_begun ++ [ask TransactionExecutionPhase.Begin 100; InCommand 1 false; InCommand 0 false]
  ++ logged_phase TransactionExecutionPhase.Prepare
  ++ [ask TransactionExecutionPhase.Commit 100; InPersist 0; InLogged 0; InCommand 1 false; InCrash]
  ++ [InResume 0; InPersist 0; InLogged 0; InCommand 0 false; InCommand 0 false]
  ++ [ask TransactionExecutionPhase.Notify 100; InPersist 0; InLogged 0].

Definition example_run (inputs : list Input) : System :=
  default initial_system (example_started ≫= λ σ, drive_all σ inputs).

Lemma example_run_reachable inputs :
  is_Some (example_started ≫= λ σ, drive_all σ inputs) → reachable example_settings valid_result (example_run inputs).
Proof.
  intros [σ Hrun]. unfold example_run. rewrite Hrun. simpl.
  destruct example_started as [σ0|] eqn:Hs; [|done]. simpl in Hrun.
  by apply (drive_reachable σ0 inputs); [apply started_reachable|].
Qed.

Definition example_final : System := example_run example_inputs.

Lemma example_final_reachable : reachable example_settings valid_result example_final.
Proof. apply example_run_reachable, not_eq_None_Some. by vm_compute. Qed.

Definition example_txn (σ : System (Command := Z)) : Transaction Z :=
  default (new_transaction example_settings example_now (NewContext example_request NoCallback))
    (transactions (machine σ) !! 1%positive).

#[export] Instance Event_eq_dec : EqDecision Event.
Proof. solve_decision. Defined.

Definition example_history : list Event := history example_final !!! example_id.

(** ** The theorems on the runs *)

Lemma notified_only_when_committed_witness :
  Called TransactionPhase.CommitNotify 0 ∈ example_history ∧
  Completed TransactionPhase.Commit 1 SuccessExecutionResult ∈ example_history.
Proof.
  assert (Called TransactionPhase.CommitNotify 0 ∈ example_history) as Hn
    by (apply (bool_decide_unpack _); by vm_compute).
  split; [exact Hn|].
  apply (notified_only_when_committed example_settings valid_result (λ x H, H) example_final example_id 1%positive
           (example_txn example_final)).
  - exact example_final_reachable.
  - by vm_compute.
  - by vm_compute.
  - left. exists 0%nat. exact Hn.
  - by vm_compute; lia.
Defined.

Lemma commands_called_after_log_witness :
  ∃ d l, d ∈ journal example_final ∧ ReadEngineLog d = Some (SuccessExecutionResult, Some (PhaseEntry l)) ∧
    phase_log_id l = example_id ∧ ConvertProtoPhaseToPhase (phase_log_phase l) = TransactionPhase.Commit.
Proof.
  apply (commands_called_after_log example_settings valid_result (λ x H, H) example_final example_id
           TransactionPhase.Commit 1).
  - exact example_final_reachable.
  - apply (bool_decide_unpack _). by vm_compute.
  - done.
Defined.

(** After its first phase the transaction is free. *)
Definition example_free : System := example_run example_begun.

Lemma example_free_reachable : reachable example_settings valid_result example_free.
Proof. apply example_run_reachable, not_eq_None_Some. by vm_compute. Qed.

Lemma one_activity_witness :
  is_waiting_for_remote (example_txn example_free) = true ∧ ∀ k, k ∈ tasks example_free → task_txn k ≠ 1%positive.
Proof.
  split; [by vm_compute|].
  apply (one_activity example_settings valid_result (λ x H, H) example_free example_id 1%positive
           (example_txn example_free)).
  - exact example_free_reachable.
  - by vm_compute.
  - by vm_compute.
  - by vm_compute.
Defined.

Lemma recovery_restores_witness :
  ∃ m2 : Machine (Command := Z), ∃ t' T', active m2 !! example_id = Some t' ∧ transactions m2 !! t' = Some T' ∧
    txn_commands T' = [10; 20].
Proof.
  destruct (recovery_restores example_settings valid_result (λ x H, H) example_final example_now
              example_final_reachable eq_refl) as (m1 & m2 & ts & _ & _ & _ & _ & Hrestored).
  destruct (Hrestored example_id 1%positive (example_txn example_final)) as (t' & T' & Hi & HT & _ & Hcs & _);
    [by vm_compute..|].
  exists m2, t', T'. split; [exact Hi|]. split; [exact HT|]. rewrite Hcs. by vm_compute.
Defined.

Lemma example_free_txn :
  transactions (machine example_free) !! 1%positive = Some (example_txn example_free) ∧
  active (machine example_free) !! example_id = Some 1%positive.
Proof. split; vm_compute; reflexivity. Qed.

(** What the invariant says of a transaction. *)
Lemma reachable_well_formed (σ : System (Command := Z)) i t T :
  reachable example_settings valid_result σ → active (machine σ) !! i = Some t →
  transactions (machine σ) !! t = Some T →
  machine_ok (machine σ) ∧ TransactionSystem.well_formed T ∧
  ∀ i' t', active (machine σ) !! i' = Some t' → ∃ T', transactions (machine σ) !! t' = Some T' ∧ id T' = i'.
Proof.
  intros Hreach Hi HT. pose proof (reachable_inv example_settings valid_result (λ x H, H) σ Hreach) as I.
  destruct σ as [m j ks h]. destruct (inv_txn _ _ _ _ _ _ _ I Hi HT) as (_ & rec & []).
  split; [exact (inv_machine _ I)|]. split; [done|]. apply (inv_active _ I).
Qed.

Lemma example_free_well_formed :
  machine_ok (machine example_free) ∧ TransactionSystem.well_formed (example_txn example_free) ∧
  ∀ i' t', active (machine example_free) !! i' = Some t' →
    ∃ T', transactions (machine example_free) !! t' = Some T' ∧ id T' = i'.
Proof.
  destruct example_free_txn as [HT Hi].
  exact (reachable_well_formed example_free example_id 1%positive _ example_free_reachable Hi HT).
Qed.

(** A request with an old timestamp is refused. *)
Definition example_stale : PhaseContext Z :=
  NewContext (mkPhaseRequest example_id TransactionExecutionPhase.Begin (Some "secret"%string)
    (Some "origin"%string) 99) (CallerCallback 1).

Lemma ExecutePhase_refuses_witness :
  ExecutePhase example_settings example_now example_stale (machine example_free)
  = Some (FailureExecutionResult SC_TRANSACTION_MANAGER_LAST_EXECUTION_TIMESTAMP_NOT_MATCHING, machine example_free).
Proof.
  apply (ExecutePhase_refuses example_settings example_now example_stale 1%positive (example_txn example_free)
           (machine example_free) "secret" "origin").
  - apply example_free_well_formed.
  - apply example_free_txn.
  - apply example_free_txn.
  - by vm_compute.
  - apply example_free_well_formed.
  - by vm_compute.
  - by vm_compute.
  - by vm_compute.
  - by vm_compute.
Defined.

(** The second command calls back before the first one and fails. *)
Definition example_callbacks : list (nat * ExecutionResult) :=
  [(1%nat, FailureExecutionResult 7); (0%nat, SuccessExecutionResult)].

Definition example_remote : Transaction Z :=
  set_current_phase TransactionPhase.Begin
    (new_transaction example_settings example_now (NewContext example_request (CallerCallback 2))).

Lemma phase_completes_witness :
  ∃ m', run_phase example_now TransactionPhase.Begin 1%positive example_callbacks
          (at_txn 1%positive example_remote empty_machine) = Some ((), m') ∧
    ∃ T', transactions m' !! 1%positive = Some T' ∧ is_waiting_for_remote T' = true ∧
      current_phase T' = TransactionPhase.Aborted.
Proof.
  destruct (phase_completes example_now TransactionPhase.Begin 1%positive example_remote empty_machine
    example_callbacks) as (m' & Hrun & _ & _ & T' & HT' & Hw & Hp).
  - done.
  - constructor; [done..|constructor].
  - apply empty_represents.
  - by vm_compute; lia.
  - by vm_compute.
  - by constructor.
  - repeat constructor; by vm_compute.
  - repeat constructor; by vm_compute.
  - change (example_callbacks.*1) with [1%nat; 0%nat]. apply (Permutation_swap 0%nat 1%nat []).
  - repeat constructor; by vm_compute.
  - exists m'. split; [exact Hrun|]. exists T'. split; [exact HT'|]. split; [exact Hw|]. rewrite Hp. by vm_compute.
Defined.

(** A transaction of the engine's own, all of whose commands ask for a retry of
    the first phase, five times over. *)
Definition example_local : Transaction Z :=
  new_transaction example_settings example_now
    (NewContext (mkTransactionRequest example_id [10; 20] 9 false None None false) (CallerCallback 2)).
Definition example_retrying : Machine (Command := Z) :=
  with_answers (replicate 10 (RetryExecutionResult 3)) empty_machine.

(** Five rounds of both commands. *)
Lemma begin_retried_in_one_call_witness :
  ∃ T' m', actions m' = retried_calls 1%positive [10; 20] 3 5 ∧
    ProceedToNextPhase example_now TransactionPhase.NotStarted 1%positive (at_txn 1%positive example_local example_retrying)
    = ProceedToNextPhase example_now TransactionPhase.Begin 1%positive (at_txn 1%positive T' m').
Proof.
  destruct (begin_retried_in_one_call example_now TransactionPhase.NotStarted 1%positive example_local
    example_retrying 5 3 []) as (T' & m' & _ & _ & Ha & _ & Heq & _).
  - apply empty_represents.
  - constructor; by vm_compute.
  - split; [discriminate|split; reflexivity].
  - vm_compute; split; reflexivity.
  - by vm_compute.
  - constructor.
  - reflexivity.
  - exists T', m'. split; [exact Ha|exact Heq].
Defined.

Lemma one_transaction_checkpoint m (T : Transaction Z) :
  (∀ i t, active m !! i = Some t → ∃ T, transactions m !! t = Some T ∧ id T = i) →
  transactions m = {[ 1%positive := T ]} → checkpointable T →
  ∀ i t, active m !! i = Some t → can_checkpoint m i.
Proof.
  intros Hactive Hone Hcp i t Hi. destruct (Hactive i t Hi) as (T' & HT & Hid). exists t, T'.
  split; [done|]. split; [done|]. split; [done|]. rewrite Hone in HT.
  by apply lookup_singleton_Some in HT as [_ <-].
Qed.

Lemma example_free_checkpointable : checkpointable (example_txn example_free).
Proof.
  constructor; [vm_compute; reflexivity| |exact example_engine_request_valid| |intros _; split; vm_compute; reflexivity].
  - split; vm_compute; [split; [discriminate|reflexivity]|split; [discriminate|reflexivity]].
  - split; vm_compute; [discriminate|reflexivity].
Qed.

Lemma Checkpoint_recovers_witness :
  ∃ logs m', Checkpoint example_settings example_now (machine example_free)
      = Some ((SuccessExecutionResult, logs), machine example_free) ∧
    recover_logs example_settings example_now logs (empty_machine (Command := Z))
      = Some (SuccessExecutionResult, m').
Proof.
  destruct (Checkpoint_recovers example_settings example_now (machine example_free)) as (logs & m' & Hc & Hr & _).
  - apply example_free_well_formed.
  - apply (one_transaction_checkpoint (machine example_free) (example_txn example_free)).
    + apply example_free_well_formed.
    + vm_compute; reflexivity.
    + exact example_free_checkpointable.
  - exists logs, m'. split; [exact Hc|exact Hr].
Defined.
