(* ===== verification/TransactionManager.v ===== *)
(** * The transaction manager

    Models [cc/core/transaction_manager/src/transaction_manager.cc]: a limit on the
    transactions in the engine and a count of the calls inside, which [Stop] waits
    for. The handlers are given twice: each as a whole, and as the steps between
    which other threads run, since what the manager promises is about calls that
    overlap. What the engine, the executor and the metrics answer are arguments. *)

From S2P Require Import Prelude ExecutionResult ErrorCodes.
From stdpp Require Import options.

Local Open Scope Z_scope.

(** ** State *)

Module TransactionManager.

Record TransactionManager := mkTransactionManager {
  max_concurrent_transactions_ : Z;
  active_transactions_count_ : Z;
  max_transactions_since_observed_ : Z;
  started_ : bool;
}.

Definition with_counts (active observed : Z) (s : TransactionManager) :=
  mkTransactionManager (max_concurrent_transactions_ s) active observed (started_ s).
Definition with_started (b : bool) (s : TransactionManager) :=
  mkTransactionManager (max_concurrent_transactions_ s) (active_transactions_count_ s)
    (max_transactions_since_observed_ s) b.

Definition NewTransactionManager (max_concurrent_transactions : Z) : TransactionManager :=
  mkTransactionManager max_concurrent_transactions 0 0 false.

(** Both under the mutex of the counts. *)
Definition IncrementActiveTransactionsCount (s : TransactionManager) : TransactionManager :=
  let active := u64 (active_transactions_count_ s + 1) in
  with_counts active (Z.max (max_transactions_since_observed_ s) active) s.

Definition DecrementActiveTransactionsCount (s : TransactionManager) : TransactionManager :=
  let active := u64 (active_transactions_count_ s - 1) in
  with_counts active (Z.max (max_transactions_since_observed_ s) active) s.

(** The value the gauge reports. *)
Definition ObserveActiveTransactionsCallback (s : TransactionManager) : Z * TransactionManager :=
  (max_transactions_since_observed_ s, with_counts (active_transactions_count_ s) 0 s).

(** ** Life cycle *)

Definition Init (metrics engine : ExecutionResult) (s : TransactionManager) : ExecutionResult :=
  if max_concurrent_transactions_ s <=? 0 then
    FailureExecutionResult SC_TRANSACTION_MANAGER_INVALID_MAX_CONCURRENT_TRANSACTIONS_VALUE
  else if started_ s then FailureExecutionResult SC_TRANSACTION_MANAGER_ALREADY_STARTED
  else if negb (Successful metrics) then metrics
  else engine.

Definition Run (engine metrics : ExecutionResult) (s : TransactionManager) : ExecutionResult * TransactionManager :=
  if started_ s then (FailureExecutionResult SC_TRANSACTION_MANAGER_ALREADY_STARTED, s)
  else
    let s := with_started true s in
    if negb (Successful engine) then (engine, s)
    else if negb (Successful metrics) then (metrics, s)
    else (SuccessExecutionResult, s).

(** [Stop] up to its loop; [None] goes on to it. *)
Definition BeginStop (s : TransactionManager) : option ExecutionResult * TransactionManager :=
  if negb (started_ s) then (Some (FailureExecutionResult SC_TRANSACTION_MANAGER_ALREADY_STOPPED), s)
  else (None, with_started false s).

(** The condition of the loop: whether [Stop] still waits. *)
Definition StopWaits (s : TransactionManager) : bool := 0 <? active_transactions_count_ s.

(** The rest of [Stop]. *)
Definition EndStop (metrics engine : ExecutionResult) : ExecutionResult :=
  if negb (Successful metrics) then metrics else engine.

Definition Checkpoint {A} (engine : ExecutionResult * A) (s : TransactionManager) : ExecutionResult * option A :=
  if started_ s then (FailureExecutionResult SC_TRANSACTION_MANAGER_CANNOT_CREATE_CHECKPOINT_WHEN_STARTED, None)
  else (engine.1, Some engine.2).

(** ** Requests *)

(** The first two are the same code for different requests. *)
Inductive Method := Execute | ExecutePhase | GetTransactionStatus | GetTransactionManagerStatus.

Definition is_transaction (m : Method) : bool :=
  match m with Execute | ExecutePhase => true | _ => false end.

Definition not_started (m : Method) : ExecutionResult :=
  match m with
  | GetTransactionManagerStatus => FailureExecutionResult SC_TRANSACTION_MANAGER_STATUS_CANNOT_BE_OBTAINED
  | _ => FailureExecutionResult SC_TRANSACTION_MANAGER_NOT_STARTED
  end.

Definition cannot_accept : ExecutionResult :=
  RetryExecutionResult SC_TRANSACTION_MANAGER_CANNOT_ACCEPT_NEW_REQUESTS.

(** [Execute] and [ExecutePhase] as a whole: the result, and whether the task is
    in the executor. *)
Definition ExecuteTransaction (m : Method) (scheduled : ExecutionResult) (s : TransactionManager)
  : ExecutionResult * bool * TransactionManager :=
  if max_concurrent_transactions_ s <=? active_transactions_count_ s then (cannot_accept, false, s)
  else
    let s := IncrementActiveTransactionsCount s in
    if negb (started_ s) then (not_started m, false, DecrementActiveTransactionsCount s)
    else if negb (Successful scheduled) then (scheduled, false, DecrementActiveTransactionsCount s)
    else (scheduled, true, s).

(** The two status calls: the result, and whether the engine was asked. *)
Definition GetStatus (m : Method) (engine : ExecutionResult) (s : TransactionManager)
  : ExecutionResult * bool * TransactionManager :=
  let s := IncrementActiveTransactionsCount s in
  if negb (started_ s) then (not_started m, false, DecrementActiveTransactionsCount s)
  else (engine, true, DecrementActiveTransactionsCount s).

(** ** Requests, step by step *)

(** Where a call is: before the test of the limit, before it is counted, before
    the test of [started_], past it, with its task in the executor, in the engine,
    or before it is counted out, with what it then returns to its caller. *)
Inductive Place :=
| Entered
| Passed
| Counted
| Accepted
| Queued
| InEngine
| Leaving (returns : option ExecutionResult).

(** The engine is called, the client's context is finished, the caller is
    answered. *)
Inductive Event :=
| CallEngine (m : Method)
| Finish (result : ExecutionResult)
| Return (result : ExecutionResult).

(** One step of a call; [answer] is the executor's or the engine's, where it is
    asked. A call without a place is over. *)
Definition advance (answer : ExecutionResult) (m : Method) (place : Place) (s : TransactionManager)
  : option Place * list Event * TransactionManager :=
  match place with
  | Entered =>
      if is_transaction m && (max_concurrent_transactions_ s <=? active_transactions_count_ s)
      then (None, [Return cannot_accept], s)
      else (Some Passed, [], s)
  | Passed => (Some Counted, [], IncrementActiveTransactionsCount s)
  | Counted =>
      if negb (started_ s) then (Some (Leaving (Some (not_started m))), [], s) else (Some Accepted, [], s)
  | Accepted =>
      if is_transaction m then
        if negb (Successful answer) then (Some (Leaving (Some answer)), [], s)
        else (Some Queued, [Return answer], s)
      else (Some (Leaving (Some answer)), [CallEngine m], s)
  | Queued => (Some InEngine, [CallEngine m], s)
  | InEngine => (Some (Leaving None), [Finish answer], s)
  | Leaving returns =>
      (None, match returns with Some r => [Return r] | None => [] end, DecrementActiveTransactionsCount s)
  end.

(** A call that nothing interrupts, until it is over or its task is queued. *)
Fixpoint uninterrupted (fuel : nat) (answer : ExecutionResult) (m : Method) (place : Place)
    (events : list Event) (s : TransactionManager) : option Place * list Event * TransactionManager :=
  match fuel with
  | O => (Some place, events, s)
  | S fuel =>
      let '(next, more, s) := advance answer m place s in
      match next with
      | Some Queued | None => (next, events ++ more, s)
      | Some place => uninterrupted fuel answer m place (events ++ more) s
      end
  end.

(** The steps are those of the handlers. *)
Lemma ExecuteTransaction_steps m scheduled s : is_transaction m = true →
  uninterrupted 5 scheduled m Entered [] s
  = let '(r, queued, s') := ExecuteTransaction m scheduled s in
    (if queued then Some Queued else None, [Return r], s').
Proof.
  intros Hm. unfold ExecuteTransaction. cbn -[IncrementActiveTransactionsCount DecrementActiveTransactionsCount]. rewrite Hm.
  cbn [andb]. destruct (_ <=? _); [done|]. cbn -[IncrementActiveTransactionsCount DecrementActiveTransactionsCount].
  destruct (started_ _); cbn -[IncrementActiveTransactionsCount DecrementActiveTransactionsCount]; [|done]. rewrite Hm. by destruct (Successful scheduled).
Qed.

Lemma GetStatus_steps m engine s : is_transaction m = false →
  uninterrupted 5 engine m Entered [] s
  = let '(r, asked, s') := GetStatus m engine s in
    (None, (if asked then [CallEngine m] else []) ++ [Return r], s').
Proof.
  intros Hm. unfold GetStatus. cbn -[IncrementActiveTransactionsCount DecrementActiveTransactionsCount]. rewrite Hm. cbn [andb]. cbn -[IncrementActiveTransactionsCount DecrementActiveTransactionsCount].
  destruct (started_ _); cbn -[IncrementActiveTransactionsCount DecrementActiveTransactionsCount]; [|done]. by rewrite Hm.
Qed.

(** Calls that do not overlap keep to the limit. *)
Lemma ExecuteTransaction_limit m scheduled s r queued s' :
  is_u64 (max_concurrent_transactions_ s) → 0 ≤ active_transactions_count_ s ≤ max_concurrent_transactions_ s →
  ExecuteTransaction m scheduled s = (r, queued, s') →
  active_transactions_count_ s' = active_transactions_count_ s + (if queued then 1 else 0) ∧
  active_transactions_count_ s' ≤ max_concurrent_transactions_ s'.
Proof.
  unfold ExecuteTransaction, is_u64. intros Hm Ha. destruct (Z.leb_spec (max_concurrent_transactions_ s) (active_transactions_count_ s)).
  { intros [= <- <- <-]. lia. }
  assert (u64 (active_transactions_count_ s + 1) = active_transactions_count_ s + 1) as Hu
    by (apply u64_id; unfold is_u64; lia).
  destruct (started_ _) eqn:Hst, (Successful scheduled); intros [= <- <- <-]; simpl in *; rewrite ?Hst; simpl;
    rewrite Hu, ?u64_id by (unfold is_u64; lia); lia.
Qed.

End TransactionManager.
