(* ===== verification/TransactionManagerSystem.v ===== *)
(** * The transaction manager with overlapping calls

    Any number of calls, a service that starts and stops the manager, and the
    gauge, as a transition system whose steps are those of the handlers. The count
    is exact, and when [Stop] goes on to stop the engine no call is in it or gets
    to it; but calls that overlap pass the limit. *)

From S2P Require Import Prelude ExecutionResult ErrorCodes TransactionManager.
From stdpp Require Import options.
Import TransactionManager.

Local Open Scope Z_scope.

(** Where a call of [Stop] is: there is none, it waits for the transactions, or it
    is past its loop. *)
Inductive Stopping := NotStopping | Waiting | Stopped.

Record ManagerSystem := mkManagerSystem {
  manager : TransactionManager;
  calls : list (Method * Place);
  stopping : Stopping;
}.

(** A call that goes on at [next]. *)
Definition goes_on (m : Method) (next : option Place) : list (Method * Place) :=
  option_list ((λ p, (m, p)) <$> next).

(** Fewer calls than a [size_t] counts are made at a time. [Run] and [Stop] are
    not called while [Stop] waits. *)
Inductive manager_step : ManagerSystem → list Event → ManagerSystem → Prop :=
| step_call s cs st m :
    Z.of_nat (length cs) + 1 < 2 ^ 64 →
    manager_step (mkManagerSystem s cs st) [] (mkManagerSystem s (cs ++ [(m, Entered)]) st)
| step_advance s cs1 m place cs2 st answer next events s' :
    advance answer m place s = (next, events, s') →
    manager_step (mkManagerSystem s (cs1 ++ (m, place) :: cs2) st) events
      (mkManagerSystem s' (cs1 ++ goes_on m next ++ cs2) st)
| step_run s cs st engine metrics r s' :
    st ≠ Waiting → Run engine metrics s = (r, s') →
    manager_step (mkManagerSystem s cs st) [] (mkManagerSystem s' cs NotStopping)
| step_stop s cs s' :
    BeginStop s = (None, s') →
    manager_step (mkManagerSystem s cs NotStopping) [] (mkManagerSystem s' cs Waiting)
| step_stopped s cs :
    StopWaits s = false →
    manager_step (mkManagerSystem s cs Waiting) [] (mkManagerSystem s cs Stopped)
| step_observe s cs st v s' :
    ObserveActiveTransactionsCallback s = (v, s') →
    manager_step (mkManagerSystem s cs st) [] (mkManagerSystem s' cs st).

Inductive manager_reachable (max : Z) : ManagerSystem → Prop :=
| manager_start : manager_reachable max (mkManagerSystem (NewTransactionManager max) [] NotStopping)
| manager_continue σ events σ' :
    manager_reachable max σ → manager_step σ events σ' → manager_reachable max σ'.

(** The calls that are counted. *)
Definition is_counted (c : Method * Place) : bool :=
  match c.2 with Entered | Passed => false | _ => true end.

(** The calls that have seen the manager started. *)
Definition is_inside (c : Method * Place) : bool :=
  match c.2 with Accepted | Queued | InEngine => true | _ => false end.

Definition counted (cs : list (Method * Place)) : nat := sum_list_with (λ c, if is_counted c then 1%nat else 0%nat) cs.

Lemma counted_calls_app cs1 cs2 : counted (cs1 ++ cs2) = (counted cs1 + counted cs2)%nat.
Proof. apply sum_list_with_app. Qed.

Lemma counted_le cs : (counted cs ≤ length cs)%nat.
Proof. induction cs as [|c cs IH]; [done|]. unfold counted in *. simpl. destruct (is_counted c); lia. Qed.

Record manager_invariant (max : Z) (σ : ManagerSystem) : Prop := {
  inv_max : max_concurrent_transactions_ (manager σ) = max;
  inv_calls : Z.of_nat (length (calls σ)) < 2 ^ 64;
  inv_count : active_transactions_count_ (manager σ) = Z.of_nat (counted (calls σ));
  inv_stopping : stopping σ ≠ NotStopping → started_ (manager σ) = false;
  inv_stopped : stopping σ = Stopped → ∀ c, c ∈ calls σ → is_inside c = false;
}.

(** ** One step of a call *)

Ltac advance_cases :=
  match goal with
  | |- advance _ _ ?place _ = _ → _ =>
      unfold advance; destruct place; repeat case_match; intros [= <- <- <-]
  end.

Lemma advance_fields answer m place s next events s' : advance answer m place s = (next, events, s') →
  started_ s' = started_ s ∧ max_concurrent_transactions_ s' = max_concurrent_transactions_ s.
Proof. advance_cases; done. Qed.

(** A call is counted in, and counted out when it is over. *)
Lemma advance_count answer m place s next events s' : advance answer m place s = (next, events, s') →
  is_u64 (active_transactions_count_ s) →
  active_transactions_count_ s'
  = u64 (active_transactions_count_ s + Z.of_nat (counted (goes_on m next)) - Z.of_nat (counted [(m, place)])).
Proof.
  advance_cases; intros Ha; cbn -[u64 Z.add Z.sub Z.of_nat];
    first [rewrite u64_id; unfold is_u64 in *; lia|f_equal; lia].
Qed.

Lemma advance_length answer m place s next events s' : advance answer m place s = (next, events, s') →
  (length (goes_on m next) ≤ 1)%nat.
Proof. intros _. destruct next; simpl; lia. Qed.

(** It gets inside when the manager is started. *)
Lemma advance_inside answer m place s next events s' : advance answer m place s = (next, events, s') →
  ∀ c, c ∈ goes_on m next → is_inside c = true → is_inside (m, place) = true ∨ started_ s = true.
Proof.
  advance_cases; intros c Hc Hi; unfold goes_on in Hc; simpl in Hc;
    first [by apply elem_of_nil in Hc|apply list_elem_of_singleton in Hc as ->];
    first [done|by left|right; by apply negb_false_iff].
Qed.

(** Only a call inside reaches the engine or the client. *)
Definition reaches (e : Event) : bool := match e with CallEngine _ | Finish _ => true | Return _ => false end.

Lemma advance_events answer m place s next events s' : advance answer m place s = (next, events, s') →
  ∀ e, e ∈ events → reaches e = true → is_inside (m, place) = true.
Proof.
  advance_cases; intros event He Hr;
    first [by apply elem_of_nil in He|apply list_elem_of_singleton in He as ->; done].
Qed.

(** ** Every step *)

Lemma manager_step_invariant max σ events σ' :
  manager_step σ events σ' → manager_invariant max σ → manager_invariant max σ'.
Proof.
  intros Hs [Hmax Hcalls Hcount Hstop Hin]. pose proof (counted_le (calls σ)) as Hle.
  assert (is_u64 (active_transactions_count_ (manager σ))) as Hu by (unfold is_u64; lia).
  destruct Hs as [s cs st m Hl|s cs1 m place cs2 st answer next events s' Ha|s cs st engine metrics r s' Hw Hr
                 |s cs s' Hb|s cs Hw|s cs st v s' Ho]; simpl in *.
  - constructor; simpl; [done| |by rewrite counted_calls_app, Nat.add_0_r|done|].
    + rewrite length_app. simpl. lia.
    + intros Hst c [Hc| ->%list_elem_of_singleton]%elem_of_app; [by apply Hin|done].
  - destruct (advance_fields _ _ _ _ _ _ _ Ha) as [Hst Hmx].
    pose proof (advance_length _ _ _ _ _ _ _ Ha) as Hlen.
    pose proof (counted_le (goes_on m next)) as Hle'.
    pose proof (advance_count _ _ _ _ _ _ _ Ha Hu) as Hc. rewrite Hcount in Hc.
    change ((m, place) :: cs2) with ([(m, place)] ++ cs2) in *.
    rewrite !length_app in Hcalls. rewrite !counted_calls_app in Hc, Hle. rewrite !length_app in Hle. cbn [length] in *.
    constructor; simpl; [congruence| | |by rewrite Hst|].
    + rewrite !length_app. lia.
    + rewrite Hc, !counted_calls_app. rewrite u64_id; [lia|]. pose proof (counted_le cs1). pose proof (counted_le cs2).
      unfold is_u64. lia.
    + intros Hs. assert (started_ s = false) as Hf by (apply Hstop; by rewrite Hs).
      intros c [Hc'|[Hc'|Hc']%elem_of_app]%elem_of_app.
      * apply Hin; [done|]. apply elem_of_app. by left.
      * destruct (is_inside c) eqn:Hi; [|done].
        destruct (advance_inside _ _ _ _ _ _ _ Ha c Hc' Hi) as [Hi'|Hi']; [|congruence].
        rewrite (Hin Hs (m, place)) in Hi'; [done|]. apply elem_of_app. right. by left.
      * apply Hin; [done|]. apply elem_of_app. right. by right.
  - constructor; simpl; try done; unfold Run in Hr; repeat case_match; by simplify_eq/=.
  - unfold BeginStop in Hb. destruct (started_ s); simplify_eq/=. by constructor.
  - assert (counted cs = 0%nat) as H0.
    { unfold StopWaits in Hw. apply Z.ltb_ge in Hw. lia. }
    constructor; simpl; [done|done|done|by intros _; apply Hstop|]. intros _ c Hc.
    destruct (is_inside c) eqn:Hi; [|done]. apply list_elem_of_split in Hc as (l1 & l2 & ->).
    rewrite counted_calls_app in H0. destruct c as [m []]; simpl in *; done || lia.
  - unfold ObserveActiveTransactionsCallback in Ho. simplify_eq/=. by constructor.
Qed.

Lemma manager_reachable_invariant max σ : manager_reachable max σ → manager_invariant max σ.
Proof.
  induction 1 as [|σ events σ' _ IH Hs]; [|by eapply manager_step_invariant]. by constructor.
Qed.

(** ** What the manager promises *)

(** C20: the manager's count is the number of calls inside, however calls, starts
    and stops overlap; and once [Stop] is past its wait, no call is in the engine
    or on its way to it, and until the next [Run] no call reaches the engine and
    no client is answered: the engine can be stopped. *)
Theorem stop_waits_for_calls max σ :
  manager_reachable max σ →
  active_transactions_count_ (manager σ) = Z.of_nat (counted (calls σ)) ∧
  (stopping σ = Stopped →
     (∀ c, c ∈ calls σ → is_inside c = false) ∧
     ∀ events σ', manager_step σ events σ' → ∀ e, e ∈ events → reaches e = false).
Proof.
  intros [Hmax Hcalls Hcount Hstop Hin]%manager_reachable_invariant. split; [done|].
  intros Hs. split; [by apply Hin|]. intros events σ' Hstep e He.
  destruct (reaches e) eqn:Hr; [|done].
  destruct Hstep as [|s cs1 m place cs2 st answer next events s' Ha| | | |]; try (by apply elem_of_nil in He).
  pose proof (advance_events _ _ _ _ _ _ _ Ha e He Hr) as Hi. simpl in *.
  rewrite (Hin Hs (m, place)) in Hi; [done|]. apply elem_of_app. right. by left.
Qed.

(** ** The limit *)

(** [n] calls of [Execute] come to the limit's test together. *)
Lemma calls_entered max n : Z.of_nat n < 2 ^ 64 →
  manager_reachable max (mkManagerSystem (NewTransactionManager max) (replicate n (Execute, Entered)) NotStopping).
Proof.
  induction n as [|n IH]; intros Hn; [constructor|].
  rewrite replicate_S_end. eapply manager_continue; [apply IH; lia|]. constructor. rewrite length_replicate. lia.
Qed.

Lemma calls_admitted max n k : 0 < max → Z.of_nat (n + k) < 2 ^ 64 →
  manager_reachable max (mkManagerSystem (NewTransactionManager max)
    (replicate n (Execute, Passed) ++ replicate k (Execute, Entered)) NotStopping).
Proof.
  intros Hmax. revert k. induction n as [|n IH]; intros k Hn; [by apply calls_entered|].
  rewrite replicate_S_end, <- app_assoc.
  eapply manager_continue; [apply (IH (S k)); lia|].
  apply (step_advance _ (replicate n (Execute, Passed)) Execute Entered _ _ SuccessExecutionResult (Some Passed)).
  simpl. destruct (Z.leb_spec max 0); [lia|done].
Qed.

(** The limit is not one for calls that overlap: the test and the count are
    two steps, so that with any limit that [Init] accepts any number of calls gets
    into the count. *)
Theorem limit_overshoots max n : 0 < max → Z.of_nat n < 2 ^ 64 →
  ∃ σ, manager_reachable max σ ∧ active_transactions_count_ (manager σ) = Z.of_nat n.
Proof.
  intros Hmax Hn.
  assert (∀ k i, (k + i = n)%nat → ∃ s, manager_reachable max (mkManagerSystem s
    (replicate k (Execute, Counted) ++ replicate i (Execute, Passed)) NotStopping)) as Hk.
  { induction k as [|k IH]; intros i Hi.
    - exists (NewTransactionManager max). simpl in *. subst i. pose proof (calls_admitted max n 0 Hmax) as H0.
      simpl in H0. rewrite app_nil_r in H0. apply H0. lia.
    - destruct (IH (S i)) as [s Hs]; [lia|]. exists (IncrementActiveTransactionsCount s).
      rewrite replicate_S_end, <- app_assoc. eapply manager_continue; [exact Hs|].
      by apply (step_advance _ (replicate k (Execute, Counted)) Execute Passed _ _ SuccessExecutionResult (Some Counted)). }
  destruct (Hk n 0%nat) as [s Hs]; [lia|]. eexists. split; [exact Hs|]. simpl.
  pose proof (inv_count _ _ (manager_reachable_invariant _ _ Hs)) as Hc. simpl in Hc. rewrite Hc, app_nil_r. f_equal.
  clear. induction n as [|n IH]; [done|]. simpl. unfold counted in *. simpl. by rewrite IH.
Qed.

(** ** The theorems at concrete inputs *)

Lemma limit_overshoots_witness : ∃ σ, manager_reachable 1 σ ∧ active_transactions_count_ (manager σ) = 5.
Proof. apply (limit_overshoots 1 5); lia. Defined.

Local Tactic Notation "continue" hyp(R) uconstr(step) :=
  let R' := fresh in
  eassert (manager_reachable 1 _) as R' by (eapply manager_continue; [exact R|eapply step; by cbv]);
  clear R; rename R' into R; cbv -[SuccessExecutionResult] in R.

(** A started manager has a call in the engine when it is stopped; then the call
    ends and [Stop] goes on. *)
Lemma stopped_reachable : ∃ s, manager_reachable 1 (mkManagerSystem s [] Stopped).
Proof.
  set (ok := SuccessExecutionResult).
  assert (manager_reachable 1 _) as R by apply (manager_start 1).
  continue R (step_run _ _ NotStopping ok ok).
  continue R (step_call _ _ NotStopping Execute).
  do 5 continue R (step_advance _ [] Execute _ [] NotStopping ok).
  continue R step_stop.
  do 2 continue R (step_advance _ [] Execute _ [] Waiting ok).
  continue R step_stopped.
  eexists. exact R.
Qed.

Lemma stop_waits_for_calls_witness : ∃ σ, manager_reachable 1 σ ∧ stopping σ = Stopped ∧
  ∀ events σ', manager_step σ events σ' → ∀ e, e ∈ events → reaches e = false.
Proof.
  destruct stopped_reachable as [s Hs]. eexists. split; [exact Hs|]. split; [done|].
  destruct (stop_waits_for_calls _ _ Hs) as [_ H]. by apply H.
Defined.
