(* ===== verification/TransactionProtocol.v ===== *)
(** * What the transaction protocols share

    The data of [cc/pbs/interface/budget_key_interface.h], the helpers of
    [cc/pbs/budget_key_transaction_protocols/src/transaction_protocol_helpers.h],
    and what the protocols need of the timeframe manager
    ([BudgetKeyTimeframeManagerInterface]): a class of operations, and a class
    of laws about the days it serves from memory. The timeframes are objects
    the manager and the protocols share. *)

From S2P Require Import Prelude ExecutionResult ErrorCodes Uuid TimeframeUtils TimeframeLog TimeframeManager TimeframeRecovery.
From stdpp Require Import options.

Local Open Scope Z_scope.

(** ** Requests *)

(** The part of an [AsyncContext] the protocols read. *)
Record Context (R : Type) := mkContext { activity_id : Uuid; request : R }.
Arguments mkContext {R} _ _.
Arguments activity_id {R} _.
Arguments request {R} _.

Record BudgetConsumptionRequestInfo := mkConsumption {
  time_bucket : Z;
  requested_tokens : Z; (* token_count *)
}.

Record PrepareConsumeBudgetRequest := mkPrepareRequest {
  prepare_transaction_id : Uuid;
  prepare_consumption : BudgetConsumptionRequestInfo; (* time_bucket, token_count *)
}.
Record CommitConsumeBudgetRequest := mkCommitRequest {
  commit_transaction_id : Uuid;
  commit_consumption : BudgetConsumptionRequestInfo;
}.
Record NotifyConsumeBudgetRequest := mkNotifyRequest {
  notify_transaction_id : Uuid;
  notify_time_bucket : Z;
}.
Record AbortConsumeBudgetRequest := mkAbortRequest {
  abort_transaction_id : Uuid;
  abort_time_bucket : Z;
}.

Record PrepareBatchConsumeBudgetRequest := mkPrepareBatchRequest {
  prepare_batch_transaction_id : Uuid;
  prepare_budget_consumptions : list BudgetConsumptionRequestInfo;
}.
Record CommitBatchConsumeBudgetRequest := mkCommitBatchRequest {
  commit_batch_transaction_id : Uuid;
  commit_budget_consumptions : list BudgetConsumptionRequestInfo;
}.
Record NotifyBatchConsumeBudgetRequest := mkNotifyBatchRequest {
  notify_batch_transaction_id : Uuid;
  notify_time_buckets : list Z;
}.
Record AbortBatchConsumeBudgetRequest := mkAbortBatchRequest {
  abort_batch_transaction_id : Uuid;
  abort_time_buckets : list Z;
}.

(** ** Timeframes *)

Abbreviation FrameHeap := (gmap frame_loc BudgetKeyTimeframe).

(** A store to [active_transaction_id]. *)
Definition set_transaction (transaction_id : Uuid) (f : BudgetKeyTimeframe) : BudgetKeyTimeframe :=
  set_frame (active_token_count f) transaction_id (token_count f) f.

(** [active_transaction_id.compare_exchange_strong(kZeroUuid, transaction_id)]:
    the timeframes when the exchange is done; [Some None] when it is not. *)
Definition acquire (transaction_id : Uuid) (l : frame_loc) (fs : FrameHeap) : option (option FrameHeap) :=
  f ← fs !! l;
  if bool_decide (active_transaction_id f = kZeroUuid)
  then Some (Some (<[l := set_transaction transaction_id f]> fs))
  else Some None.

(** [ReleaseAcquiredLocksOnTimeframes]. *)
Fixpoint ReleaseAcquiredLocksOnTimeframes (transaction_id : Uuid) (timeframes : list frame_loc) (fs : FrameHeap)
  : option FrameHeap :=
  match timeframes with
  | [] => Some fs
  | l :: rest =>
      f ← fs !! l;
      ReleaseAcquiredLocksOnTimeframes transaction_id rest
        (if bool_decide (active_transaction_id f = transaction_id)
         then <[l := set_transaction kZeroUuid f]> fs else fs)
  end.

(** The loop of [AreBudgetsInIncreasingOrder], from the time bucket of the
    budget before. *)
Fixpoint budgets_in_order (prev_time_bucket : Z) (budgets : list BudgetConsumptionRequestInfo) : bool :=
  match budgets with
  | [] => true
  | budget :: rest =>
      if time_bucket budget <? prev_time_bucket then false else budgets_in_order (time_bucket budget) rest
  end.

Definition AreBudgetsInIncreasingOrder (budgets : list BudgetConsumptionRequestInfo) : bool :=
  budgets_in_order 0 budgets.

(** The changes the three phases that write ask for: the commit of a
    consumption, the end of a transaction with the given tokens. *)
Definition commit_update (transaction_id : Uuid) (budget : BudgetConsumptionRequestInfo) (f : BudgetKeyTimeframe)
  : BudgetKeyTimeframeUpdateInfo :=
  mkUpdateInfo (time_bucket budget) transaction_id
    (u8 (token_count f - requested_tokens budget)) (token_count f).

Definition release_update (reporting_time tokens : Z) : BudgetKeyTimeframeUpdateInfo :=
  mkUpdateInfo reporting_time kZeroUuid 0 tokens.

(** ** The timeframe manager *)

Class TimeframeManagerInterface (S : Type) := {
  shared_frames : S → FrameHeap;
  write_shared : FrameHeap → S → S;
  manager_Load : Answers → S → LoadContext → option (ExecutionResult * S * list Action);
  manager_Update : Answers → S → UpdateContext → option (ExecutionResult * S * list Action);
  manager_Logged : Answers → S → UpdateContext → list frame_loc → ExecutionResult → option (S * list Action);
}.

(** The updates written to the timeframes. *)
Fixpoint updated (fs : FrameHeap) (ls : list frame_loc) (us : list BudgetKeyTimeframeUpdateInfo) : FrameHeap :=
  match ls, us with
  | l :: ls, u :: us =>
      updated (alter (set_frame (update_active_token_count u) (update_transaction_id u) (update_token_count u)) l fs)
        ls us
  | _, _ => fs
  end.

(** Timeframes of the same hours at the same locations, with fields in range. *)
Definition same_shape (fs fs' : FrameHeap) : Prop :=
  ∀ l f, fs !! l = Some f → valid_frame f →
    ∃ f', fs' !! l = Some f' ∧ valid_frame f' ∧ time_bucket_index f' = time_bucket_index f.

Lemma same_shape_refl fs : same_shape fs fs.
Proof. intros l f Hf Hv. by exists f. Qed.

(** [serves s times ls]: the day of the times is in memory, and its timeframes
    of the times are at [ls]. *)
Class TimeframeManagerLaws (S : Type) `{TimeframeManagerInterface S}
    (serves : S → list Z → list frame_loc → Prop) : Prop := {
  serves_frames s times ls : serves s times ls →
    length ls = length times ∧ (NoDup ls) ∧
    ∀ l, l ∈ ls → ∃ f, shared_frames s !! l = Some f ∧ valid_frame f;
  serves_in_range s times ls : serves s times ls → Forall in_range_time times;
  write_law s fs : shared_frames (write_shared fs s) = fs;
  write_serves s fs times ls : same_shape (shared_frames s) fs → serves s times ls →
    serves (write_shared fs s) times ls;
  Load_law a s ctx ls : serves s (reporting_times ctx) ls →
    ∃ s', manager_Load a s ctx
      = Some (SuccessExecutionResult, s',
          [FinishLoad (mkLoad (load_activity ctx) (reporting_times ctx) (Some ls)) SuccessExecutionResult]) ∧
      shared_frames s' = shared_frames s ∧ ∀ times' ls', serves s times' ls' → serves s' times' ls';
  Update_law a s ctx ls : serves s (reporting_time <$> timeframes_to_update ctx) ls →
    Forall valid_update (timeframes_to_update ctx) →
    ∃ s' log, manager_Update a s ctx = Some (SuccessExecutionResult, s', [DispatchLog log (OnUpdateLogged ctx ls)]) ∧
      shared_frames s' = shared_frames s ∧ ∀ times' ls', serves s times' ls' → serves s' times' ls';
  Logged_law a s ctx ls r : serves s (reporting_time <$> timeframes_to_update ctx) ls →
    Forall valid_update (timeframes_to_update ctx) →
    ∃ s', manager_Logged a s ctx ls r
        = Some (s', [FinishUpdate ctx r]) ∧
      shared_frames s' = (if Successful r then updated (shared_frames s) ls (timeframes_to_update ctx)
                          else shared_frames s) ∧
      ∀ times' ls', serves s times' ls' → serves s' times' ls';
}.
