(* ===== verification/ConsumeBudgetProtocol.v ===== *)
(** * The protocol that consumes one budget

    Models [cc/pbs/budget_key_transaction_protocols/src/consume_budget_transaction_protocol.cc]:
    the prepare, commit, notify and abort phases of a transaction on one hour
    of a budget key. The active transaction of the timeframe is a lock, which
    commit takes and notify and abort release. A handler that waits gives the
    manager's calls with what their callback binds ([Callback]). Each handler
    is one atomic step; [None] is undefined behaviour. *)

From S2P Require Import Prelude ExecutionResult ErrorCodes Uuid TimeframeUtils TimeframeLog TimeframeManager TransactionProtocol.
From stdpp Require Import options.

Local Open Scope Z_scope.

Module ConsumeBudgetTransactionProtocol.

Inductive Callback :=
| PrepareLoaded (c : Context PrepareConsumeBudgetRequest)
| CommitLoaded (c : Context CommitConsumeBudgetRequest)
| NotifyLoaded (c : Context NotifyConsumeBudgetRequest)
| AbortLoaded (c : Context AbortConsumeBudgetRequest)
| CommitLogged (budget_key_frame : frame_loc) (c : Context CommitConsumeBudgetRequest)
| NotifyLogged (budget_key_frame : frame_loc) (c : Context NotifyConsumeBudgetRequest)
| AbortLogged (budget_key_frame : frame_loc) (c : Context AbortConsumeBudgetRequest).

Inductive ProtocolAction :=
| ManagerCall (callback : Callback) (action : Action) (* of the call with the callback *)
| FinishPrepare (c : Context PrepareConsumeBudgetRequest) (result : ExecutionResult)
| FinishCommit (c : Context CommitConsumeBudgetRequest) (result : ExecutionResult)
| FinishNotify (c : Context NotifyConsumeBudgetRequest) (result : ExecutionResult)
| FinishAbort (c : Context AbortConsumeBudgetRequest) (result : ExecutionResult).

Section protocol.
  Context {M : Type} `{!TimeframeManagerInterface M}.

Definition call_load (a : Answers) (s : M) (time_bucket : Z) (callback : Callback)
  : option (ExecutionResult * M * list ProtocolAction) :=
  '(r, s, actions) ← manager_Load a s (mkLoad (generated a 0%nat) [time_bucket] None);
  Some (r, s, ManagerCall callback <$> (actions : list Action)).

(** [budget_key_frames.front()] of the response. *)
Definition front_frame (s : M) (ctx : LoadContext) : option (frame_loc * BudgetKeyTimeframe) :=
  l ← budget_key_frames ctx ≫= head;
  f ← shared_frames s !! l;
  Some (l, f).

(** The end of the phases that write: the update, and the end of the phase
    with its result when the manager refuses it at once. *)
Definition call_update (a : Answers) (s : M) (ctx : UpdateContext) (callback : Callback)
    (finish : ExecutionResult → ProtocolAction) : option (M * list ProtocolAction) :=
  '(execution_result, s, actions) ← manager_Update a s ctx;
  let actions := ManagerCall callback <$> (actions : list Action) in
  if negb (Successful execution_result) then Some (s, actions ++ [finish execution_result])
  else Some (s, actions).

(** ** Prepare *)

Definition Prepare (a : Answers) (s : M) (c : Context PrepareConsumeBudgetRequest)
  : option (ExecutionResult * M * list ProtocolAction) :=
  if bool_decide (prepare_transaction_id (request c) = kZeroUuid) then
    Some (FailureExecutionResult SC_PBS_BUDGET_KEY_INVALID_TRANSACTION_ID, s, [])
  else call_load a s (time_bucket (prepare_consumption (request c))) (PrepareLoaded c).

Definition OnPrepareBudgetKeyLoaded (s : M) (c : Context PrepareConsumeBudgetRequest) (ctx : LoadContext)
    (result : ExecutionResult) : option (list ProtocolAction) :=
  if negb (Successful result) then Some [FinishPrepare c result]
  else
    '(_, budget_key_frame) ← front_frame s ctx;
    if negb (bool_decide (active_transaction_id budget_key_frame = kZeroUuid)) then
      Some [FinishPrepare c (RetryExecutionResult SC_PBS_BUDGET_KEY_ACTIVE_TRANSACTION_IN_PROGRESS)]
    else if token_count budget_key_frame <? requested_tokens (prepare_consumption (request c)) then
      Some [FinishPrepare c (FailureExecutionResult SC_PBS_BUDGET_KEY_CONSUME_BUDGET_INSUFFICIENT_BUDGET)]
    else Some [FinishPrepare c SuccessExecutionResult].

(** ** Commit *)

Definition Commit (a : Answers) (s : M) (c : Context CommitConsumeBudgetRequest)
  : option (ExecutionResult * M * list ProtocolAction) :=
  if bool_decide (commit_transaction_id (request c) = kZeroUuid) then
    Some (FailureExecutionResult SC_PBS_BUDGET_KEY_INVALID_TRANSACTION_ID, s, [])
  else call_load a s (time_bucket (commit_consumption (request c))) (CommitLoaded c).

Definition OnCommitBudgetKeyLoaded (a : Answers) (s : M) (c : Context CommitConsumeBudgetRequest)
    (ctx : LoadContext) (result : ExecutionResult) : option (M * list ProtocolAction) :=
  if negb (Successful result) then Some (s, [FinishCommit c result])
  else
    '(l, budget_key_frame) ← front_frame s ctx;
    let transaction_id := commit_transaction_id (request c) in
    let budget := commit_consumption (request c) in
    if bool_decide (active_transaction_id budget_key_frame = transaction_id) then
      (* This is a retry *)
      Some (s, [FinishCommit c SuccessExecutionResult])
    else
      locked ← acquire transaction_id l (shared_frames s);
      match locked with
      | None =>
          Some (s, [FinishCommit c (RetryExecutionResult SC_PBS_BUDGET_KEY_ACTIVE_TRANSACTION_IN_PROGRESS)])
      | Some fs =>
          let s := write_shared fs s in
          if token_count budget_key_frame <? requested_tokens budget then
            Some (s, [FinishCommit c
                        (FailureExecutionResult SC_PBS_BUDGET_KEY_CONSUME_BUDGET_INSUFFICIENT_BUDGET)])
          else
            call_update a s
              (mkUpdate (generated a 1%nat) [commit_update transaction_id budget budget_key_frame])
              (CommitLogged l c) (FinishCommit c)
      end.

Definition OnCommitLogged (s : M) (budget_key_frame : frame_loc) (c : Context CommitConsumeBudgetRequest)
    (ctx : UpdateContext) (result : ExecutionResult) : option (M * list ProtocolAction) :=
  if Successful result then
    u ← last (timeframes_to_update ctx);
    f ← shared_frames s !! budget_key_frame;
    Some (write_shared
            (<[budget_key_frame :=
                 set_frame (update_active_token_count u) (update_transaction_id u) (token_count f) f]>
               (shared_frames s)) s,
          [FinishCommit c result])
  else Some (s, [FinishCommit c result]).

(** ** Notify *)

Definition Notify (a : Answers) (s : M) (c : Context NotifyConsumeBudgetRequest)
  : option (ExecutionResult * M * list ProtocolAction) :=
  if bool_decide (notify_transaction_id (request c) = kZeroUuid) then
    Some (FailureExecutionResult SC_PBS_BUDGET_KEY_INVALID_TRANSACTION_ID, s, [])
  else call_load a s (notify_time_bucket (request c)) (NotifyLoaded c).

Definition OnNotifyBudgetKeyLoaded (a : Answers) (s : M) (c : Context NotifyConsumeBudgetRequest)
    (ctx : LoadContext) (result : ExecutionResult) : option (M * list ProtocolAction) :=
  if negb (Successful result) then Some (s, [FinishNotify c result])
  else
    '(l, budget_key_time_frame) ← front_frame s ctx;
    if negb (bool_decide (active_transaction_id budget_key_time_frame = notify_transaction_id (request c))) then
      Some (s, [FinishNotify c SuccessExecutionResult])
    else
      call_update a s
        (mkUpdate (activity_id c)
           [release_update (notify_time_bucket (request c)) (active_token_count budget_key_time_frame)])
        (NotifyLogged l c) (FinishNotify c).

Definition OnNotifyLogged (s : M) (budget_key_time_frame : frame_loc) (c : Context NotifyConsumeBudgetRequest)
    (ctx : UpdateContext) (result : ExecutionResult) : option (M * list ProtocolAction) :=
  if Successful result then
    u ← last (timeframes_to_update ctx);
    f ← shared_frames s !! budget_key_time_frame;
    Some (write_shared
            (<[budget_key_time_frame := set_frame 0 kZeroUuid (update_token_count u) f]> (shared_frames s)) s,
          [FinishNotify c result])
  else Some (s, [FinishNotify c result]).

(** ** Abort *)

Definition Abort (a : Answers) (s : M) (c : Context AbortConsumeBudgetRequest)
  : option (ExecutionResult * M * list ProtocolAction) :=
  if bool_decide (abort_transaction_id (request c) = kZeroUuid) then
    Some (FailureExecutionResult SC_PBS_BUDGET_KEY_INVALID_TRANSACTION_ID, s, [])
  else call_load a s (abort_time_bucket (request c)) (AbortLoaded c).

Definition OnAbortBudgetKeyLoaded (a : Answers) (s : M) (c : Context AbortConsumeBudgetRequest)
    (ctx : LoadContext) (result : ExecutionResult) : option (M * list ProtocolAction) :=
  if negb (Successful result) then Some (s, [FinishAbort c result])
  else
    '(l, budget_key_frame) ← front_frame s ctx;
    if negb (bool_decide (active_transaction_id budget_key_frame = abort_transaction_id (request c))) then
      Some (s, [FinishAbort c SuccessExecutionResult])
    else
      call_update a s
        (mkUpdate (generated a 1%nat)
           [release_update (abort_time_bucket (request c)) (token_count budget_key_frame)])
        (AbortLogged l c) (FinishAbort c).

Definition OnAbortLogged (s : M) (budget_key_time_frame : frame_loc) (c : Context AbortConsumeBudgetRequest)
    (ctx : UpdateContext) (result : ExecutionResult) : option (M * list ProtocolAction) :=
  if Successful result then
    f ← shared_frames s !! budget_key_time_frame;
    if bool_decide (active_transaction_id f = abort_transaction_id (request c)) then
      u ← last (timeframes_to_update ctx);
      Some (write_shared
              (<[budget_key_time_frame :=
                   set_frame (update_active_token_count u) (update_transaction_id u) (token_count f) f]>
                 (shared_frames s)) s,
            [FinishAbort c result])
    else Some (s, [FinishAbort c result])
  else Some (s, [FinishAbort c result]).

(** ** Callbacks *)

(** Runs the callback of a call when the manager finishes the call. *)
Definition run_callback (a : Answers) (s : M) (callback : Callback) (finish : Action)
  : option (M * list ProtocolAction) :=
  match callback, finish with
  | PrepareLoaded c, FinishLoad ctx r => actions ← OnPrepareBudgetKeyLoaded s c ctx r; Some (s, actions)
  | CommitLoaded c, FinishLoad ctx r => OnCommitBudgetKeyLoaded a s c ctx r
  | NotifyLoaded c, FinishLoad ctx r => OnNotifyBudgetKeyLoaded a s c ctx r
  | AbortLoaded c, FinishLoad ctx r => OnAbortBudgetKeyLoaded a s c ctx r
  | CommitLogged l c, FinishUpdate ctx r => OnCommitLogged s l c ctx r
  | NotifyLogged l c, FinishUpdate ctx r => OnNotifyLogged s l c ctx r
  | AbortLogged l c, FinishUpdate ctx r => OnAbortLogged s l c ctx r
  | _, _ => None
  end.

End protocol.

End ConsumeBudgetTransactionProtocol.
