(* ===== verification/BatchConsumeBudgetProtocol.v ===== *)
(** * The protocol that consumes several budgets at once

    Models [cc/pbs/budget_key_transaction_protocols/src/batch_consume_budget_transaction_protocol.cc]:
    a transaction on several hours of one day of a budget key. Commit takes the
    locks of all its timeframes, in the order of the request, or none of them. *)

From S2P Require Import Prelude ExecutionResult ErrorCodes Uuid TimeframeUtils TimeframeLog TimeframeManager TransactionProtocol.
From stdpp Require Import options.

Local Open Scope Z_scope.

Module BatchConsumeBudgetTransactionProtocol.

Inductive Callback :=
| PrepareLoaded (c : Context PrepareBatchConsumeBudgetRequest)
| CommitLoaded (c : Context CommitBatchConsumeBudgetRequest)
| NotifyLoaded (c : Context NotifyBatchConsumeBudgetRequest)
| AbortLoaded (c : Context AbortBatchConsumeBudgetRequest)
| CommitLogged (c : Context CommitBatchConsumeBudgetRequest)
| NotifyLogged (c : Context NotifyBatchConsumeBudgetRequest)
| AbortLogged (c : Context AbortBatchConsumeBudgetRequest).

(** The response of prepare and commit holds the indices of the budgets that
    are not enough, when it is made. *)
Inductive ProtocolAction :=
| ManagerCall (callback : Callback) (action : Action)
| FinishPrepare (c : Context PrepareBatchConsumeBudgetRequest) (result : ExecutionResult)
    (failed_budget_consumption_indices : option (list nat))
| FinishCommit (c : Context CommitBatchConsumeBudgetRequest) (result : ExecutionResult)
    (failed_budget_consumption_indices : option (list nat))
| FinishNotify (c : Context NotifyBatchConsumeBudgetRequest) (result : ExecutionResult)
| FinishAbort (c : Context AbortBatchConsumeBudgetRequest) (result : ExecutionResult).

(** The loop of [PopulateInsufficientBudgetConsumptionIndicesInResponse]. *)
Fixpoint insufficient_indices (fs : FrameHeap) (i : nat) (ls : list frame_loc)
    (budgets : list BudgetConsumptionRequestInfo) : option (list nat) :=
  match budgets with
  | [] => Some []
  | budget :: budgets =>
      match ls with
      | [] => None
      | l :: ls =>
          f ← fs !! l;
          rest ← insufficient_indices fs (S i) ls budgets;
          Some (if token_count f <? requested_tokens budget then i :: rest else rest)
      end
  end.

Definition PopulateInsufficientBudgetConsumptionIndicesInResponse (fs : FrameHeap) (ls : list frame_loc)
    (budgets : list BudgetConsumptionRequestInfo) : option (ExecutionResult * option (list nat)) :=
  if negb (Nat.eqb (length budgets) (length ls)) then
    Some (FailureExecutionResult SC_PBS_BUDGET_KEY_CONSUME_BUDGET_LOADED_TIMEFRAMES_INVALID, None)
  else
    indices ← insufficient_indices fs 0 ls budgets;
    Some (SuccessExecutionResult, Some indices).

(** The loop of [OnPrepareBudgetKeyLoaded] over the budgets: the result of the
    first that cannot be consumed. *)
Fixpoint prepare_all (fs : FrameHeap) (ls : list frame_loc) (budgets : list BudgetConsumptionRequestInfo)
  : option ExecutionResult :=
  match budgets with
  | [] => Some SuccessExecutionResult
  | budget :: budgets =>
      match ls with
      | [] => None
      | l :: ls =>
          f ← fs !! l;
          if negb (bool_decide (active_transaction_id f = kZeroUuid)) then
            Some (RetryExecutionResult SC_PBS_BUDGET_KEY_ACTIVE_TRANSACTION_IN_PROGRESS)
          else if token_count f <? requested_tokens budget then
            Some (FailureExecutionResult SC_PBS_BUDGET_KEY_CONSUME_BUDGET_INSUFFICIENT_BUDGET)
          else prepare_all fs ls budgets
      end
  end.

(** The loop of [OnCommitBudgetKeyLoaded]: takes the locks; stops at the first
    timeframe that is locked or has not enough budget, with the result for it. *)
Fixpoint acquire_all (transaction_id : Uuid) (fs : FrameHeap) (ls : list frame_loc)
    (budgets : list BudgetConsumptionRequestInfo) : option (ExecutionResult * FrameHeap) :=
  match ls with
  | [] => Some (SuccessExecutionResult, fs)
  | l :: ls =>
      locked ← acquire transaction_id l fs;
      match locked with
      | None => Some (RetryExecutionResult SC_PBS_BUDGET_KEY_ACTIVE_TRANSACTION_IN_PROGRESS, fs)
      | Some fs =>
          f ← fs !! l;
          budget ← head budgets;
          if token_count f <? requested_tokens budget then
            Some (FailureExecutionResult SC_PBS_BUDGET_KEY_CONSUME_BUDGET_INSUFFICIENT_BUDGET, fs)
          else acquire_all transaction_id fs ls (tail budgets)
      end
  end.

(** The loops that build the update of the commit, and those of the notify and
    of the abort, which give back the tokens [tokens] reads. *)
Fixpoint commit_updates (transaction_id : Uuid) (fs : FrameHeap) (ls : list frame_loc)
    (budgets : list BudgetConsumptionRequestInfo) : option (list BudgetKeyTimeframeUpdateInfo) :=
  match ls with
  | [] => Some []
  | l :: ls =>
      f ← fs !! l;
      budget ← head budgets;
      rest ← commit_updates transaction_id fs ls (tail budgets);
      Some (commit_update transaction_id budget f :: rest)
  end.

Fixpoint release_updates (tokens : BudgetKeyTimeframe → Z) (fs : FrameHeap) (ls : list frame_loc)
    (time_buckets : list Z) : option (list BudgetKeyTimeframeUpdateInfo) :=
  match ls with
  | [] => Some []
  | l :: ls =>
      f ← fs !! l;
      time_bucket ← head time_buckets;
      rest ← release_updates tokens fs ls (tail time_buckets);
      Some (release_update time_bucket (tokens f) :: rest)
  end.

Section protocol.
  Context {M : Type} `{!TimeframeManagerInterface M}.

Definition call_load (a : Answers) (s : M) (times : list Z) (callback : Callback)
  : option (ExecutionResult * M * list ProtocolAction) :=
  '(r, s, actions) ← manager_Load a s (mkLoad (generated a 0%nat) times None);
  Some (r, s, ManagerCall callback <$> (actions : list Action)).

(** ** Prepare *)

Definition Prepare (a : Answers) (s : M) (c : Context PrepareBatchConsumeBudgetRequest)
  : option (ExecutionResult * M * list ProtocolAction) :=
  let budgets := prepare_budget_consumptions (request c) in
  if bool_decide (prepare_batch_transaction_id (request c) = kZeroUuid) then
    Some (FailureExecutionResult SC_PBS_BUDGET_KEY_INVALID_TRANSACTION_ID, s, [])
  else if (length budgets <=? 1)%nat then
    Some (FailureExecutionResult SC_PBS_BUDGET_KEY_BATCH_REQUEST_HAS_LESS_BUDGETS_TO_CONSUME, s, [])
  else call_load a s (time_bucket <$> budgets) (PrepareLoaded c).

Definition OnPrepareBudgetKeyLoaded (s : M) (c : Context PrepareBatchConsumeBudgetRequest) (ctx : LoadContext)
    (result : ExecutionResult) : option (list ProtocolAction) :=
  let budgets := prepare_budget_consumptions (request c) in
  if negb (result_eqb result SuccessExecutionResult) then Some [FinishPrepare c result None]
  else
    ls ← budget_key_frames ctx;
    if negb (Nat.eqb (length ls) (length budgets)) then
      Some [FinishPrepare c
              (FailureExecutionResult SC_PBS_BUDGET_KEY_CONSUME_BUDGET_LOADED_TIMEFRAMES_INVALID) None]
    else
      r ← prepare_all (shared_frames s) ls budgets;
      if result_eqb r (FailureExecutionResult SC_PBS_BUDGET_KEY_CONSUME_BUDGET_INSUFFICIENT_BUDGET) then
        '(_, indices) ← PopulateInsufficientBudgetConsumptionIndicesInResponse (shared_frames s) ls budgets;
        Some [FinishPrepare c r indices]
      else Some [FinishPrepare c r None].

(** ** Commit *)

Definition Commit (a : Answers) (s : M) (c : Context CommitBatchConsumeBudgetRequest)
  : option (ExecutionResult * M * list ProtocolAction) :=
  let budgets := commit_budget_consumptions (request c) in
  if bool_decide (commit_batch_transaction_id (request c) = kZeroUuid) then
    Some (FailureExecutionResult SC_PBS_BUDGET_KEY_INVALID_TRANSACTION_ID, s, [])
  else if (length budgets <=? 1)%nat then
    Some (FailureExecutionResult SC_PBS_BUDGET_KEY_BATCH_REQUEST_HAS_LESS_BUDGETS_TO_CONSUME, s, [])
  else if negb (AreBudgetsInIncreasingOrder budgets) then
    Some (FailureExecutionResult SC_PBS_BUDGET_KEY_BATCH_REQUEST_HAS_INVALID_ORDER, s, [])
  else call_load a s (time_bucket <$> budgets) (CommitLoaded c).

Definition OnCommitBudgetKeyLoaded (a : Answers) (s : M) (c : Context CommitBatchConsumeBudgetRequest)
    (ctx : LoadContext) (result : ExecutionResult) : option (M * list ProtocolAction) :=
  let budgets := commit_budget_consumptions (request c) in
  let transaction_id := commit_batch_transaction_id (request c) in
  if negb (result_eqb result SuccessExecutionResult) then Some (s, [FinishCommit c result None])
  else
    ls ← budget_key_frames ctx;
    if negb (Nat.eqb (length ls) (length budgets)) then
      Some (s, [FinishCommit c
                  (FailureExecutionResult SC_PBS_BUDGET_KEY_CONSUME_BUDGET_LOADED_TIMEFRAMES_INVALID) None])
    else
      f ← head ls ≫= (shared_frames s !!.);
      if bool_decide (active_transaction_id f = transaction_id) then
        Some (s, [FinishCommit c SuccessExecutionResult None])
      else
        '(r, fs) ← acquire_all transaction_id (shared_frames s) ls budgets;
        if negb (Successful r) then
          fs ← ReleaseAcquiredLocksOnTimeframes transaction_id ls fs;
          if result_eqb r (FailureExecutionResult SC_PBS_BUDGET_KEY_CONSUME_BUDGET_INSUFFICIENT_BUDGET) then
            '(_, indices) ← PopulateInsufficientBudgetConsumptionIndicesInResponse fs ls budgets;
            Some (write_shared fs s, [FinishCommit c r indices])
          else Some (write_shared fs s, [FinishCommit c r None])
        else
          us ← commit_updates transaction_id fs ls budgets;
          '(execution_result, s, actions) ←
            manager_Update a (write_shared fs s) (mkUpdate (generated a 1%nat) us);
          let actions := ManagerCall (CommitLogged c) <$> (actions : list Action) in
          if negb (result_eqb execution_result SuccessExecutionResult) then
            fs ← ReleaseAcquiredLocksOnTimeframes transaction_id ls (shared_frames s);
            Some (write_shared fs s, actions ++ [FinishCommit c execution_result None])
          else Some (s, actions).

Definition OnCommitLogged (c : Context CommitBatchConsumeBudgetRequest) (result : ExecutionResult)
  : list ProtocolAction :=
  [FinishCommit c result None].

(** ** Notify and abort *)

(** The end of the two phases. *)
Definition call_update (a : Answers) (s : M) (ctx : UpdateContext) (callback : Callback)
    (finish : ExecutionResult → ProtocolAction) : option (M * list ProtocolAction) :=
  '(execution_result, s, actions) ← manager_Update a s ctx;
  let actions := ManagerCall callback <$> (actions : list Action) in
  if negb (result_eqb execution_result SuccessExecutionResult)
  then Some (s, actions ++ [finish execution_result])
  else Some (s, actions).

Definition Notify (a : Answers) (s : M) (c : Context NotifyBatchConsumeBudgetRequest)
  : option (ExecutionResult * M * list ProtocolAction) :=
  if bool_decide (notify_batch_transaction_id (request c) = kZeroUuid) then
    Some (FailureExecutionResult SC_PBS_BUDGET_KEY_INVALID_TRANSACTION_ID, s, [])
  else if (length (notify_time_buckets (request c)) <=? 1)%nat then
    Some (FailureExecutionResult SC_PBS_BUDGET_KEY_BATCH_REQUEST_HAS_LESS_BUDGETS_TO_CONSUME, s, [])
  else call_load a s (notify_time_buckets (request c)) (NotifyLoaded c).

Definition OnNotifyBudgetKeyLoaded (a : Answers) (s : M) (c : Context NotifyBatchConsumeBudgetRequest)
    (ctx : LoadContext) (result : ExecutionResult) : option (M * list ProtocolAction) :=
  if negb (result_eqb result SuccessExecutionResult) then Some (s, [FinishNotify c result])
  else
    ls ← budget_key_frames ctx;
    f ← head ls ≫= (shared_frames s !!.);
    if negb (bool_decide (active_transaction_id f = notify_batch_transaction_id (request c))) then
      Some (s, [FinishNotify c SuccessExecutionResult])
    else
      us ← release_updates active_token_count (shared_frames s) ls (notify_time_buckets (request c));
      call_update a s (mkUpdate (activity_id c) us) (NotifyLogged c) (FinishNotify c).

Definition OnNotifyLogged (c : Context NotifyBatchConsumeBudgetRequest) (result : ExecutionResult)
  : list ProtocolAction :=
  [FinishNotify c result].

Definition Abort (a : Answers) (s : M) (c : Context AbortBatchConsumeBudgetRequest)
  : option (ExecutionResult * M * list ProtocolAction) :=
  if bool_decide (abort_batch_transaction_id (request c) = kZeroUuid) then
    Some (FailureExecutionResult SC_PBS_BUDGET_KEY_INVALID_TRANSACTION_ID, s, [])
  else if (length (abort_time_buckets (request c)) <=? 1)%nat then
    Some (FailureExecutionResult SC_PBS_BUDGET_KEY_BATCH_REQUEST_HAS_LESS_BUDGETS_TO_CONSUME, s, [])
  else call_load a s (abort_time_buckets (request c)) (AbortLoaded c).

Definition OnAbortBudgetKeyLoaded (a : Answers) (s : M) (c : Context AbortBatchConsumeBudgetRequest)
    (ctx : LoadContext) (result : ExecutionResult) : option (M * list ProtocolAction) :=
  if negb (result_eqb result SuccessExecutionResult) then Some (s, [FinishAbort c result])
  else
    ls ← budget_key_frames ctx;
    f ← head ls ≫= (shared_frames s !!.);
    if negb (bool_decide (active_transaction_id f = abort_batch_transaction_id (request c))) then
      Some (s, [FinishAbort c SuccessExecutionResult])
    else
      us ← release_updates token_count (shared_frames s) ls (abort_time_buckets (request c));
      call_update a s (mkUpdate (generated a 1%nat) us) (AbortLogged c) (FinishAbort c).

Definition OnAbortLogged (c : Context AbortBatchConsumeBudgetRequest) (result : ExecutionResult)
  : list ProtocolAction :=
  [FinishAbort c result].

(** ** Callbacks *)

(** Runs the callback of a call when the manager finishes the call. *)
Definition run_callback (a : Answers) (s : M) (callback : Callback) (finish : Action)
  : option (M * list ProtocolAction) :=
  match callback, finish with
  | PrepareLoaded c, FinishLoad ctx r => actions ← OnPrepareBudgetKeyLoaded s c ctx r; Some (s, actions)
  | CommitLoaded c, FinishLoad ctx r => OnCommitBudgetKeyLoaded a s c ctx r
  | NotifyLoaded c, FinishLoad ctx r => OnNotifyBudgetKeyLoaded a s c ctx r
  | AbortLoaded c, FinishLoad ctx r => OnAbortBudgetKeyLoaded a s c ctx r
  | CommitLogged c, FinishUpdate _ r => Some (s, OnCommitLogged c r)
  | NotifyLogged c, FinishUpdate _ r => Some (s, OnNotifyLogged c r)
  | AbortLogged c, FinishUpdate _ r => Some (s, OnAbortLogged c r)
  | _, _ => None
  end.

End protocol.

End BatchConsumeBudgetTransactionProtocol.
