(* ===== verification/ProtocolManager.v ===== *)
(** * The timeframe manager keeps what the protocols need of it

    The instance of [TransactionProtocol]'s classes for the manager of
    [TimeframeManager]: a day that is loaded and not being evicted is served. *)

From S2P Require Import Prelude ExecutionResult ErrorCodes Uuid ConcurrentMap AutoExpiryMap AutoExpiryView TimeframeUtils TimeframeLog TimeframeManager TimeframeCache TimeframeLoading TimeframeRecovery TransactionProtocol.
From stdpp Require Import options.

Local Open Scope Z_scope.

Local Abbreviation cache := budget_key_timeframe_groups_.

#[export] Instance timeframe_manager `{TimeframeLogs} (budget_key_name_ : string) (id_ : Uuid)
  : TimeframeManagerInterface BudgetKeyTimeframeManager := {|
  shared_frames := frame_heap;
  write_shared := with_frames;
  manager_Load := Load budget_key_name_;
  manager_Update := Update id_;
  manager_Logged := OnLogUpdateCallback;
|}.

(** ** Served days *)

Record served_at (s : BudgetKeyTimeframeManager) (tg : Z) (times : list Z) (ls : list frame_loc)
    (g : group_loc) (grp : BudgetKeyTimeframeGroup) : Prop := {
  served_cached : cached s tg g;
  served_group : group_heap s !! g = Some grp;
  served_loaded : is_loaded grp = true ∧ needs_loader grp = false;
  served_timeframes : valid_timeframes (frame_heap s) (budget_key_timeframes grp);
  served_locations : mapM (λ t, budget_key_timeframes grp !! GetTimeBucket t) times = Some ls;
}.

Definition served (s : BudgetKeyTimeframeManager) (times : list Z) (ls : list frame_loc) : Prop :=
  one_day times ∧ Forall in_range_time times ∧ valid_cache s ∧
  ∃ t ts g grp, times = t :: ts ∧ served_at s (GetTimeGroup t) times ls g grp.

(** The entries of a cache, up to their times and their eviction flags. *)
Definition touched (c c' : AutoExpiryConcurrentMap (K := Z) (V := group_loc)) : Prop :=
  ∀ tg, (λ r, (entry r, being_evicted r)) <$> entries c' !! tg
      = (λ r, (entry r, being_evicted r)) <$> entries c !! tg.

Lemma touched_insert c c' tg r r' : entries c !! tg = Some r → entries c' = <[tg := r']> (entries c) →
  entry r' = entry r → being_evicted r' = being_evicted r → touched c c'.
Proof.
  intros Hr He H1 H2 tg'. rewrite He. destruct (decide (tg = tg')) as [<-|Hne].
  - rewrite lookup_insert_eq, Hr. simpl. congruence.
  - by rewrite lookup_insert_ne.
Qed.

Lemma touched_entry c c' tg r' : touched c c' → entries c' !! tg = Some r' →
  ∃ r, entries c !! tg = Some r ∧ entry r = entry r' ∧ being_evicted r = being_evicted r'.
Proof.
  intros T Hr'. specialize (T tg). rewrite Hr' in T.
  destruct (entries c !! tg) as [r|]; simplify_eq/=. by exists r.
Qed.

Lemma touched_cached s s' tg g : touched (cache s) (cache s') → cached s tg g → cached s' tg g.
Proof.
  intros T (r & Hr & <- & Hb). specialize (T tg). rewrite Hr in T.
  destruct (entries (cache s') !! tg) as [r'|] eqn:Hr'; simplify_eq/=. exists r'. split_and!; congruence.
Qed.

(** A call that touches the cache, makes groups, and leaves the timeframes in
    shape keeps what is served. *)
Lemma served_kept s s' times ls : well_formed_map (cache s') → touched (cache s) (cache s') →
  group_heap s ⊆ group_heap s' → same_shape (frame_heap s) (frame_heap s') →
  served s times ls → served s' times ls.
Proof.
  intros W T Hgs Hfs (Hday & Hrange & [_ Hv] & t & ts & g & grp & -> & [Hc Hg Hl V Hls]).
  split_and!; [done|done| |].
  - constructor; [done|]. intros tg r' Hr'. destruct (touched_entry _ _ _ _ T Hr') as (r & Hr & <- & _).
    destruct (Hv _ _ Hr) as [grp' Hg']. exists grp'. by eapply lookup_weaken.
  - exists t, ts, g, grp. split; [done|]. constructor; [by eapply touched_cached|by eapply lookup_weaken|done| |done].
    intros b l Hb. destruct (V b l Hb) as (f & Hf & <- & Hvf).
    destruct (Hfs l f Hf Hvf) as (f' & ? & ? & ?). by exists f'.
Qed.

Lemma served_frames s times ls : served s times ls →
  length ls = length times ∧ NoDup ls ∧ ∀ l, l ∈ ls → ∃ f, frame_heap s !! l = Some f ∧ valid_frame f.
Proof.
  intros ([_ Hnd] & _ & _ & t & ts & g & grp & _ & [_ _ _ V Hls]).
  apply mapM_Some in Hls. split; [symmetry; by eapply Forall2_length|].
  clear -V Hnd Hls. induction Hls as [|t l times ls Hl Hls IH]; [split; [constructor|set_solver]|].
  rewrite fmap_cons in Hnd. apply NoDup_cons in Hnd as [Hnin Hnd]. destruct (IH Hnd) as [IH1 IH2].
  destruct (V _ _ Hl) as (f & Hf & Hb & Hv). split.
  - constructor; [|done]. intros Hin. apply Hnin.
    apply list_elem_of_lookup in Hin as [i Hi]. destruct (Forall2_lookup_r _ _ _ _ _ Hls Hi) as (t' & Ht' & Hl').
    destruct (V _ _ Hl') as (f' & Hf' & Hb' & _). assert (f' = f) as -> by congruence.
    rewrite <- Hb, Hb'. apply list_elem_of_fmap. exists t'. split; [done|]. by eapply list_elem_of_lookup_2.
  - intros l' [->|Hin]%elem_of_cons; [by exists f|]. by apply IH2.
Qed.

(** ** The operations *)

Section laws.
  Context `{TimeframeLogsLaws} (budget_key_name_ : string) (id_ : Uuid).
  #[local] Set Default Proof Using "Type*".

Lemma Load_served a s ctx ls : served s (reporting_times ctx) ls →
  ∃ s', Load budget_key_name_ a s ctx
    = Some (SuccessExecutionResult, s',
        [FinishLoad (mkLoad (load_activity ctx) (reporting_times ctx) (Some ls)) SuccessExecutionResult]) ∧
    frame_heap s' = frame_heap s ∧ ∀ times' ls', served s times' ls' → served s' times' ls'.
Proof.
  intros (Hday & Hrange & [W Hv] & t & ts & g & grp & Htimes & [(r & Hr & Hre & Hb) Hg [Hl Hn] V Hls]).
  unfold Load. rewrite Htimes in *.
  rewrite (proj2 (check_times_one_day (t :: ts) ltac:(done)) Hday). unfold make_group.
  set (g0 := fresh (dom (group_heap s))). set (tg := GetTimeGroup t) in *.
  set (s1 := with_groups (<[g0 := NewGroup tg]> (group_heap s)) s).
  assert (group_heap s ⊆ group_heap s1) as Hsub by apply insert_subseteq, fresh_group.
  destruct (Insert_cases (now a) (cache s) tg g0 W) as (c' & W' & Hc). change (cache s1) with (cache s).
  rewrite Hr, Hb in Hc. destruct Hc as [-> He]. rewrite Hre. cbn [default from_option id].
  exists (with_cache c' s1). split_and!; [|done|].
  - change (load_existing budget_key_name_ a (with_cache c' s1) ctx tg g = Some (SuccessExecutionResult,
      with_cache c' s1, [FinishLoad (mkLoad (load_activity ctx) (t :: ts) (Some ls)) SuccessExecutionResult])).
    unfold load_existing. change (group_heap (with_cache c' s1)) with (group_heap s1).
    rewrite (lookup_weaken _ _ _ _ Hg Hsub). cbn [mbind option_bind]. rewrite Hn, Hl. cbn [negb].
    rewrite Populate_spec, Htimes, Hls. done.
  - intros times' ls'. apply served_kept; [done| |done|apply same_shape_refl].
    destruct (extended_flags (now a) cache_config r) as (? & _ & ?).
    by eapply touched_insert.
Qed.

Lemma served_pinned flag a c tg r : well_formed_map c → entries c !! tg = Some r → being_evicted r = false →
  ∃ c', write_evictable cache_config flag (now a) c tg = (SuccessExecutionResult, c') ∧ well_formed_map c' ∧
    touched c c'.
Proof.
  intros W Hr Hb. destruct (write_evictable_cases (now a) flag c tg W) as (c' & W' & Hc).
  rewrite Hr, Hb in Hc. destruct Hc as [-> He]. exists c'. split_and!; [done|done|].
  destruct (extended_flags (now a) cache_config r) as (? & _ & ?). by eapply touched_insert.
Qed.

Lemma touched_trans c1 c2 c3 : touched c1 c2 → touched c2 c3 → touched c1 c3.
Proof. intros H1 H2 tg. by rewrite H2. Qed.

Lemma served_updates s tg us ls g grp :
  served_at s tg (reporting_time <$> us) ls g grp → frames_of_updates (budget_key_timeframes grp) us ls.
Proof. intros [_ _ _ _ Hls]. apply mapM_Some in Hls. by apply Forall2_fmap_l in Hls. Qed.

Lemma frames_to_journal_served (m : gmap Z frame_loc) us ls : frames_of_updates m us ls →
  frames_to_journal m us = (SuccessExecutionResult, (ls, updated_frame <$> us)).
Proof.
  induction 1 as [|u l us ls Hl Hls IH]; [done|]. cbn [frames_to_journal]. fold (update_bucket u).
  by rewrite (ConcurrentMap.Find_Some _ _ _ Hl), IH.
Qed.

Lemma Update_served a s ctx ls : served s (reporting_time <$> timeframes_to_update ctx) ls →
  Forall valid_update (timeframes_to_update ctx) →
  ∃ s' log, Update id_ a s ctx = Some (SuccessExecutionResult, s', [DispatchLog log (OnUpdateLogged ctx ls)]) ∧
    frame_heap s' = frame_heap s ∧ ∀ times' ls', served s times' ls' → served s' times' ls'.
Proof.
  intros (Hday & Hrange & [W Hv] & t & ts & g & grp & Htimes & D) Hvalid.
  pose proof (served_updates _ _ _ _ _ _ D) as Hls. destruct D as [Hc Hg _ V _].
  unfold Update. destruct (timeframes_to_update ctx) as [|u us] eqn:Hus; [done|].
  rewrite fmap_cons in Htimes. injection Htimes as <- _.
  rewrite (proj2 (check_times_one_day (reporting_time <$> (u :: us)) ltac:(rewrite fmap_cons; done)) Hday).
  set (tg := GetTimeGroup (reporting_time u)) in *. destruct Hc as (r & Hr & Hre & Hb).
  destruct (Find_cases (now a) (cache s) tg W) as (c1 & W1 & Hf). rewrite Hr, Hb in Hf. destruct Hf as [-> He1].
  change (negb (Successful SuccessExecutionResult)) with false. cbn iota. rewrite Hre. cbn [mbind option_bind].
  change (group_heap (with_cache c1 s)) with (group_heap s). rewrite Hg. cbn [mbind option_bind].
  rewrite (frames_to_journal_served _ _ _ Hls).
  change (negb (Successful SuccessExecutionResult)) with false. cbn iota.
  destruct (extended_flags (now a) cache_config r) as (Hxb & _ & Hxe).
  destruct (served_pinned false a c1 tg (extended cache_config (now a) r) W1) as (c2 & Hd & W2 & T2);
    [rewrite He1; apply lookup_insert_eq|congruence|].
  unfold DisableEviction. change (cache (with_cache c1 s)) with c1. rewrite Hd.
  change (negb (Successful SuccessExecutionResult)) with false. cbn iota.
  destruct (write_updates tg (updated_frame <$> (u :: us))) as (b & Hwrite & _).
  { apply u64_range. } { done. }
  { rewrite length_fmap, <- (length_fmap reporting_time).
    pose proof (one_day_length _ Hday Hrange) as Hl. unfold kHoursPerDay, max_items in *. lia. }
  { apply Forall_fmap. eapply Forall_impl; [done|]. apply updated_frame_valid. }
  rewrite length_fmap in Hwrite. rewrite Hwrite. cbn [mbind option_bind].
  change (negb (Successful SuccessExecutionResult)) with false. cbn iota.
  eexists _, _. split_and!; [done|done|]. intros times' ls'.
  apply served_kept; [done| |done|apply same_shape_refl].
  eapply touched_trans; [|done]. by eapply touched_insert.
Qed.

Lemma apply_updates_updated s ls us : length ls = length us →
  apply_updates s ls us = Some (with_frames (updated (frame_heap s) ls us) s).
Proof.
  revert s us. induction ls as [|l ls IH]; intros s [|u us] Hlen; try done; [by destruct s|].
  cbn [apply_updates updated]. rewrite IH by (simpl in Hlen; lia). done.
Qed.

Lemma updated_same_shape fs ls us : Forall valid_update us → same_shape fs (updated fs ls us).
Proof.
  intros Hus. revert fs ls. induction Hus as [|u us Hu Hus IH]; intros fs [|l ls]; try apply same_shape_refl.
  cbn [updated]. intros l' f Hf Hv.
  set (h := set_frame (update_active_token_count u) (update_transaction_id u) (update_token_count u)).
  destruct Hu as (_ & H1 & H2 & H3). destruct (decide (l = l')) as [<-|Hne].
  - destruct (IH (alter h l fs) ls l (h f)) as (f' & Hf' & Hv' & Hb').
    + by rewrite lookup_alter_eq, Hf.
    + destruct Hv as (Hv & _). by split_and!.
    + by exists f'.
  - destruct (IH (alter h l fs) ls l' f) as (f' & Hf' & Hv' & Hb'); [by rewrite lookup_alter_ne|done|]. by exists f'.
Qed.

Lemma Logged_served a s ctx ls r : served s (reporting_time <$> timeframes_to_update ctx) ls →
  Forall valid_update (timeframes_to_update ctx) →
  ∃ s', OnLogUpdateCallback a s ctx ls r = Some (s', [FinishUpdate ctx r]) ∧
    frame_heap s' = (if Successful r then updated (frame_heap s) ls (timeframes_to_update ctx)
                     else frame_heap s) ∧
    ∀ times' ls', served s times' ls' → served s' times' ls'.
Proof.
  intros Hs Hvalid. destruct (served_frames _ _ _ Hs) as (Hlen & _). rewrite length_fmap in Hlen.
  destruct Hs as (_ & _ & [W _] & t & ts & g & grp & Htimes & [(r' & Hr' & _ & Hb) _ _ _ _]).
  unfold OnLogUpdateCallback. destruct (timeframes_to_update ctx) as [|u us] eqn:Hus; [done|].
  rewrite fmap_cons in Htimes. injection Htimes as <- _. cbn [lookup list_lookup mbind option_bind].
  destruct (served_pinned true a (cache s) _ _ W Hr' Hb) as (c' & He & W' & T).
  unfold EnableEviction. rewrite He. destruct (Successful r) eqn:Hr.
  - cbn [negb]. rewrite apply_updates_updated by done. cbn [mbind option_bind].
    apply Successful_true in Hr as ->. eexists. split_and!; [done|done|].
    intros times' ls'. apply served_kept; [done|done|done|]. by apply updated_same_shape.
  - cbn [negb]. eexists. split_and!; [done|done|].
    intros times' ls'. apply served_kept; [done|done|done|apply same_shape_refl].
Qed.

#[export] Instance timeframe_manager_laws :
  TimeframeManagerLaws BudgetKeyTimeframeManager (H := timeframe_manager budget_key_name_ id_) served.
Proof.
  constructor.
  - apply served_frames.
  - by intros s times ls (_ & ? & _).
  - done.
  - intros s fs times ls Hfs Hs. pose proof Hs as (_ & _ & [W _] & _). by apply (served_kept s).
  - apply Load_served.
  - apply Update_served.
  - apply Logged_served.
Qed.

End laws.
