(* ===== verification/ProtocolFrames.v ===== *)
(** * Lemmas about the timeframes of a transaction

    The timeframes at a list of locations as a list of values ([read_all]), the
    loops of the protocols as functions of these values, and the change of the
    heap they make ([write_all]). *)

From S2P Require Import Prelude ExecutionResult ErrorCodes Uuid TimeframeUtils TimeframeLog TimeframeManager TimeframeRecovery TransactionProtocol ConsumeBudgetProtocol BatchConsumeBudgetProtocol.
From stdpp Require Import options.
Import BatchConsumeBudgetTransactionProtocol.

Local Open Scope Z_scope.

Implicit Types (fs : FrameHeap) (ls : list frame_loc) (fl : list BudgetKeyTimeframe)
  (budgets : list BudgetConsumptionRequestInfo) (tid : Uuid).

(** The timeframes at the locations. *)
Definition read_all fs ls : option (list BudgetKeyTimeframe) := mapM (fs !!.) ls.

(** The heap with other timeframes at the locations. *)
Fixpoint write_all fs ls fl : FrameHeap :=
  match ls, fl with
  | l :: ls, f :: fl => <[l := f]> (write_all fs ls fl)
  | _, _ => fs
  end.

Lemma write_all_other fs ls fl l : l ∉ ls → write_all fs ls fl !! l = fs !! l.
Proof.
  revert fl. induction ls as [|l' ls IH]; intros [|f fl] Hl; try done. simpl.
  apply not_elem_of_cons in Hl as [Hne Hl]. rewrite lookup_insert_ne by done. by apply IH.
Qed.

Lemma write_all_insert fs ls fl l f : l ∉ ls → write_all (<[l := f]> fs) ls fl = <[l := f]> (write_all fs ls fl).
Proof.
  revert fl. induction ls as [|l' ls IH]; intros [|f' fl] Hl; try done. simpl.
  apply not_elem_of_cons in Hl as [Hne Hl]. by rewrite IH, insert_insert_ne.
Qed.

Lemma read_all_cons fs l ls fl : read_all fs (l :: ls) = Some fl ↔
  ∃ f fl', fl = f :: fl' ∧ fs !! l = Some f ∧ read_all fs ls = Some fl'.
Proof.
  unfold read_all. cbn [mapM]. destruct (fs !! l) as [f|]; simpl.
  - destruct (mapM _ ls) as [fl'|]; simpl.
    + split; [intros [= <-]; by exists f, fl'|]. by intros (? & ? & -> & [= <-] & [= <-]).
    + split; [done|]. by intros (? & ? & -> & _ & ?).
  - split; [done|]. by intros (? & ? & _ & ? & _).
Qed.

Lemma read_all_length fs ls fl : read_all fs ls = Some fl → length fl = length ls.
Proof. intros H%mapM_Some. symmetry. by eapply Forall2_length. Qed.

Lemma read_all_ext fs fs' ls : (∀ l, l ∈ ls → fs' !! l = fs !! l) → read_all fs' ls = read_all fs ls.
Proof.
  unfold read_all. induction ls as [|l ls IH]; intros Hl; [done|]. cbn [mapM].
  rewrite (Hl l) by (by left). rewrite IH; [done|]. intros l' ?. apply Hl. by right.
Qed.

Lemma read_write fs ls fl : NoDup ls → length fl = length ls → read_all (write_all fs ls fl) ls = Some fl.
Proof.
  revert fl. induction ls as [|l ls IH]; intros [|f fl] Hnd Hlen; try done.
  apply NoDup_cons in Hnd as [Hnin Hnd]. apply read_all_cons. exists f, fl. split_and!; [done| |].
  - simpl. apply lookup_insert_eq.
  - erewrite read_all_ext; [apply IH; [done|simpl in *; lia]|].
    intros l' Hl'. simpl. rewrite lookup_insert_ne; [done|set_solver].
Qed.

Lemma read_all_lookup fs ls fl l : read_all fs ls = Some fl → l ∈ ls → ∃ f, fs !! l = Some f ∧ f ∈ fl.
Proof.
  intros H%mapM_Some. induction H as [|l' f' ls' fl' Hf H IH]; [set_solver|].
  intros [->|Hl]%elem_of_cons; [exists f'; split; [done|by left]|].
  destruct (IH Hl) as (f & ? & ?). exists f. split; [done|by right].
Qed.

Lemma read_all_elem fs ls fl f : read_all fs ls = Some fl → f ∈ fl → ∃ l, l ∈ ls ∧ fs !! l = Some f.
Proof.
  intros H%mapM_Some. induction H as [|l' f' ls' fl' Hf H IH]; [set_solver|].
  intros [->|Hl]%elem_of_cons; [exists l'; split; [by left|done]|].
  destruct (IH Hl) as (l & ? & ?). exists l. split; [by right|done].
Qed.

Lemma write_all_lookup fs ls fl l : NoDup ls → length fl = length ls → l ∈ ls →
  ∃ i f, ls !! i = Some l ∧ fl !! i = Some f ∧ write_all fs ls fl !! l = Some f.
Proof.
  intros Hnd Hlen [i Hi]%list_elem_of_lookup.
  pose proof (read_write fs ls fl Hnd Hlen) as H%mapM_Some.
  destruct (Forall2_lookup_l _ _ _ _ _ H Hi) as (f & Hf & Hw). by exists i, f.
Qed.

Lemma write_all_read fs ls fl : read_all fs ls = Some fl → write_all fs ls fl = fs.
Proof.
  revert fl. induction ls as [|l ls IH]; intros fl H; [by destruct fl|].
  apply read_all_cons in H as (f & fl' & -> & Hf & H). simpl. rewrite IH by done. by apply insert_id.
Qed.

(** ** The loops as functions of the values *)

Definition enough (f : BudgetKeyTimeframe) (budget : BudgetConsumptionRequestInfo) : Prop :=
  requested_tokens budget ≤ token_count f.

(** The result for a list of budgets: that of the first whose timeframe is
    locked or has not enough of them. *)
Fixpoint verdict fl budgets : ExecutionResult :=
  match fl, budgets with
  | f :: fl, budget :: budgets =>
      if negb (bool_decide (active_transaction_id f = kZeroUuid)) then
        RetryExecutionResult SC_PBS_BUDGET_KEY_ACTIVE_TRANSACTION_IN_PROGRESS
      else if token_count f <? requested_tokens budget then
        FailureExecutionResult SC_PBS_BUDGET_KEY_CONSUME_BUDGET_INSUFFICIENT_BUDGET
      else verdict fl budgets
  | _, _ => SuccessExecutionResult
  end.

Lemma verdict_success fl budgets : length fl = length budgets → verdict fl budgets = SuccessExecutionResult →
  Forall (λ f, active_transaction_id f = kZeroUuid) fl ∧ Forall2 enough fl budgets.
Proof.
  revert budgets. induction fl as [|f fl IH]; intros [|b budgets] Hlen; try done.
  cbn [verdict]. case_bool_decide; [|done]. cbn [negb]. destruct (token_count f <? requested_tokens b) eqn:Ht; [done|].
  intros Hv. destruct (IH budgets) as [H1 H2]; [simpl in *; lia|done|].
  split; [by constructor|]. constructor; [|done]. unfold enough. apply Z.ltb_ge in Ht. lia.
Qed.

Lemma prepare_all_verdict fs ls fl budgets : read_all fs ls = Some fl → length budgets = length ls →
  prepare_all fs ls budgets = Some (verdict fl budgets).
Proof.
  revert fl budgets. induction ls as [|l ls IH]; intros fl [|b budgets] H Hlen; try done; [by destruct fl|].
  apply read_all_cons in H as (f & fl' & -> & Hf & H). cbn [prepare_all verdict]. rewrite Hf. cbn [mbind option_bind].
  case_match; [done|]. case_match; [done|]. apply IH; [done|]. simpl in *. lia.
Qed.

Lemma acquire_cases tid l fs f : fs !! l = Some f →
  acquire tid l fs = Some (if bool_decide (active_transaction_id f = kZeroUuid)
                           then Some (<[l := set_transaction tid f]> fs) else None).
Proof. intros Hf. unfold acquire. rewrite Hf. cbn [mbind option_bind]. by case_bool_decide. Qed.

(** The loop of commit, when it gets all the locks. *)
Lemma acquire_all_success tid fs ls fl budgets : NoDup ls → read_all fs ls = Some fl →
  length budgets = length ls → verdict fl budgets = SuccessExecutionResult →
  acquire_all tid fs ls budgets
  = Some (SuccessExecutionResult, write_all fs ls (set_transaction tid <$> fl)).
Proof.
  intros Hnd. revert fs fl budgets. induction Hnd as [|l ls Hnin Hnd IH]; intros fs fl [|b budgets] H Hlen Hv; try done.
  apply read_all_cons in H as (f & fl' & -> & Hf & H). cbn [acquire_all]. rewrite (acquire_cases _ _ _ _ Hf).
  cbn [verdict] in Hv. case_bool_decide as Hz; [|done]. cbn [negb] in Hv. cbn [mbind option_bind].
  rewrite lookup_insert_eq. cbn [mbind option_bind head tail].
  change (token_count (set_transaction tid f)) with (token_count f).
  destruct (token_count f <? requested_tokens b); [done|].
  rewrite (IH _ fl') by (first [done | simpl in *; lia |
    rewrite (read_all_ext fs); [done|intros; rewrite lookup_insert_ne; [done|set_solver]]]).
  by rewrite write_all_insert.
Qed.

Lemma release_insert tid ls fs l f : l ∉ ls →
  ReleaseAcquiredLocksOnTimeframes tid ls (<[l := f]> fs)
  = (<[l := f]>) <$> ReleaseAcquiredLocksOnTimeframes tid ls fs.
Proof.
  revert fs. induction ls as [|l' ls IH]; intros fs Hl; [done|].
  apply not_elem_of_cons in Hl as [Hne Hl]. cbn [ReleaseAcquiredLocksOnTimeframes].
  rewrite lookup_insert_ne by done. destruct (fs !! l') as [f'|]; [|done]. cbn [mbind option_bind].
  case_bool_decide; [rewrite insert_insert_ne by done|]; by apply IH.
Qed.

Lemma acquire_all_other tid fs ls budgets r fs' l : l ∉ ls →
  acquire_all tid fs ls budgets = Some (r, fs') → fs' !! l = fs !! l.
Proof.
  revert fs budgets. induction ls as [|l' ls IH]; intros fs budgets Hl Ha; [by simplify_eq/=|].
  apply not_elem_of_cons in Hl as [Hne Hl]. cbn [acquire_all] in Ha. unfold acquire in Ha.
  destruct (fs !! l') as [f|] eqn:Hf; [|done]. cbn [mbind option_bind] in Ha.
  case_bool_decide; cbn [mbind option_bind] in Ha; [|by simplify_eq/=].
  rewrite lookup_insert_eq in Ha. cbn [mbind option_bind] in Ha. destruct (head budgets); [|done]. simpl in Ha.
  case_match; [simplify_eq/=; by rewrite lookup_insert_ne|].
  rewrite (IH _ _ Hl Ha). by rewrite lookup_insert_ne.
Qed.

(** When it does not get all of them, what it got is given back. *)
Lemma acquire_all_failure tid fs ls fl budgets : tid ≠ kZeroUuid → NoDup ls → read_all fs ls = Some fl →
  length budgets = length ls → Forall (λ f, active_transaction_id f ≠ tid) fl →
  verdict fl budgets ≠ SuccessExecutionResult →
  ∃ fs', acquire_all tid fs ls budgets = Some (verdict fl budgets, fs') ∧
    ReleaseAcquiredLocksOnTimeframes tid ls fs' = Some fs.
Proof.
  intros Htid Hnd. revert fs fl budgets.
  induction Hnd as [|l ls Hnin Hnd IH]; intros fs fl [|b budgets] H Hlen Hfree Hv; try done;
    [by destruct fl|].
  apply read_all_cons in H as (f & fl' & -> & Hf & H). apply Forall_cons in Hfree as [Hff Hfree].
  assert (Hskip : ∀ fs0 fl0 ls0, read_all fs0 ls0 = Some fl0 → Forall (λ f, active_transaction_id f ≠ tid) fl0 →
    ReleaseAcquiredLocksOnTimeframes tid ls0 fs0 = Some fs0).
  { clear. intros fs0 fl0 ls0. revert fl0. induction ls0 as [|l ls IH]; intros fl0 H Hfree; [done|].
    apply read_all_cons in H as (f & fl' & -> & Hf & H). apply Forall_cons in Hfree as [Hff Hfree].
    cbn [ReleaseAcquiredLocksOnTimeframes]. rewrite Hf. cbn [mbind option_bind].
    rewrite bool_decide_false by done. by eapply IH. }
  cbn [acquire_all verdict]. cbn [verdict] in Hv. rewrite (acquire_cases _ _ _ _ Hf). cbn [mbind option_bind].
  case_bool_decide as Hz; cbn [negb] in *.
  2: { exists fs. split; [done|]. apply (Hskip _ (f :: fl')); [apply read_all_cons; eauto|by constructor]. }
  rewrite lookup_insert_eq. cbn [mbind option_bind head tail].
  change (token_count (set_transaction tid f)) with (token_count f).
  assert (read_all (<[l := set_transaction tid f]> fs) ls = Some fl') as H'
    by (rewrite (read_all_ext fs); [done|intros; rewrite lookup_insert_ne; [done|set_solver]]).
  assert (<[l := set_transaction kZeroUuid (set_transaction tid f)]> (<[l := set_transaction tid f]> fs) = fs) as Hback.
  { rewrite insert_insert_eq. apply insert_id. rewrite Hf. f_equal. destruct f; simpl in *. by rewrite Hz. }
  assert (∀ fs', fs' !! l = Some (set_transaction tid f) →
    ReleaseAcquiredLocksOnTimeframes tid ls fs' = Some (<[l := set_transaction tid f]> fs) →
    ReleaseAcquiredLocksOnTimeframes tid (l :: ls) fs' = Some fs) as Hlast.
  { intros fs' Hl Hr. cbn [ReleaseAcquiredLocksOnTimeframes]. rewrite Hl. cbn [mbind option_bind].
    change (active_transaction_id (set_transaction tid f)) with tid. rewrite bool_decide_true by done.
    rewrite release_insert, Hr by done. simpl. by rewrite Hback. }
  destruct (token_count f <? requested_tokens b).
  - exists (<[l := set_transaction tid f]> fs). split; [done|]. apply Hlast; [apply lookup_insert_eq|].
    by apply (Hskip _ fl').
  - destruct (IH _ fl' budgets H') as (fs' & Ha & Hr); [simpl in *; lia|done|done|].
    exists fs'. split; [done|]. apply Hlast; [|done].
    rewrite (acquire_all_other _ _ _ _ _ _ _ Hnin Ha). apply lookup_insert_eq.
Qed.

Lemma commit_updates_spec tid fs ls fl budgets : read_all fs ls = Some fl → length budgets = length ls →
  commit_updates tid fs ls budgets = Some (zip_with (commit_update tid) budgets fl).
Proof.
  revert fl budgets. induction ls as [|l ls IH]; intros fl [|b budgets] H Hlen; try done.
  apply read_all_cons in H as (f & fl' & -> & Hf & H). cbn [commit_updates]. rewrite Hf.
  cbn [mbind option_bind head tail]. rewrite (IH fl') by (first [done | simpl in *; lia]). done.
Qed.

Lemma release_updates_spec tokens fs ls fl times : read_all fs ls = Some fl → length times = length ls →
  release_updates tokens fs ls times = Some (zip_with (λ t f, release_update t (tokens f)) times fl).
Proof.
  revert fl times. induction ls as [|l ls IH]; intros fl [|t times] H Hlen; try done.
  apply read_all_cons in H as (f & fl' & -> & Hf & H). cbn [release_updates]. rewrite Hf.
  cbn [mbind option_bind head tail]. rewrite (IH fl') by (first [done | simpl in *; lia]). done.
Qed.

Lemma insufficient_indices_spec fs ls fl budgets i : read_all fs ls = Some fl → length budgets = length ls →
  ∃ indices, insufficient_indices fs i ls budgets = Some indices ∧ NoDup indices ∧
    ∀ j, j ∈ indices ↔ ∃ k f b, j = (i + k)%nat ∧ fl !! k = Some f ∧ budgets !! k = Some b ∧ ¬ enough f b.
Proof.
  revert fl budgets i. induction ls as [|l ls IH]; intros fl [|b budgets] i H Hlen; try done.
  - exists []. split_and!; [done|constructor|]. intros j. split; [set_solver|]. intros (k & f & b & _ & _ & ? & _). done.
  - apply read_all_cons in H as (f & fl' & -> & Hf & H). cbn [insufficient_indices]. rewrite Hf.
    destruct (IH fl' budgets (S i) H) as (indices & -> & Hnd & Hin); [simpl in *; lia|]. cbn [mbind option_bind].
    assert (i ∉ indices) as Hi by (intros (k & _ & _ & ? & _)%Hin; lia).
    assert (∀ j, (∃ k f0 b0, j = (i + k)%nat ∧ (f :: fl') !! k = Some f0 ∧ (b :: budgets) !! k = Some b0 ∧ ¬ enough f0 b0)
      ↔ (j = i ∧ ¬ enough f b) ∨ j ∈ indices) as Hcons.
    { intros j. rewrite Hin. split.
      - intros ([|k] & f0 & b0 & -> & Hf0 & Hb0 & He); simplify_eq/=; [left; split; [lia|done]|].
        right. exists k, f0, b0. split_and!; [lia|done..].
      - intros [[-> He]|(k & f0 & b0 & -> & ? & ? & ?)]; [exists 0%nat, f, b; split_and!; [lia|done..]|].
        exists (S k), f0, b0. split_and!; [lia|done..]. }
    eexists. split; [done|]. unfold enough in Hcons. destruct (token_count f <? requested_tokens b) eqn:Ht.
    + apply Z.ltb_lt in Ht. split; [by constructor|]. intros j. rewrite Hcons, elem_of_cons. intuition lia.
    + apply Z.ltb_ge in Ht. split; [done|]. intros j. rewrite Hcons. intuition lia.
Qed.

(** ** The updates the manager writes *)

Definition write_update (u : BudgetKeyTimeframeUpdateInfo) : BudgetKeyTimeframe → BudgetKeyTimeframe :=
  set_frame (update_active_token_count u) (update_transaction_id u) (update_token_count u).

Lemma updated_write_all fs ls fl us : NoDup ls → read_all fs ls = Some fl → length us = length ls →
  updated fs ls us = write_all fs ls (zip_with write_update us fl).
Proof.
  intros Hnd. revert fs fl us. induction Hnd as [|l ls Hnin Hnd IH]; intros fs fl [|u us] H Hlen; try done.
  apply read_all_cons in H as (f & fl' & -> & Hf & H). cbn [updated]. fold (write_update u).
  assert (alter (write_update u) l fs = <[l := write_update u f]> fs) as ->.
  { apply map_eq. intros l'. destruct (decide (l = l')) as [<-|?].
    - by rewrite lookup_alter_eq, lookup_insert_eq, Hf.
    - by rewrite lookup_alter_ne, lookup_insert_ne. }
  rewrite (IH _ fl') by (first [simpl in *; lia |
    rewrite (read_all_ext fs); [done|intros; rewrite lookup_insert_ne; [done|set_solver]]]).
  by rewrite write_all_insert.
Qed.
