(* ===== verification/ProtocolCalls.v ===== *)
(** * The calls of a transaction

    A phase of a transaction on budgets whose day is in memory, from the call
    to its result or to the journal log it waits for, by the protocol for one
    budget or the one for several; and the answer of the journal. What each
    does to the timeframes, against the interface of the timeframe manager: the
    protocol for several budgets takes all locks or none. Two runs show what the
    protocol for one budget does not promise: a commit that was refused succeeds
    when it is repeated, and the callback of a notification that runs late takes
    another transaction's lock. *)

From S2P Require Import Prelude ExecutionResult ErrorCodes Uuid TimeframeUtils TimeframeLog TimeframeManager TimeframeRecovery TransactionProtocol ConsumeBudgetProtocol BatchConsumeBudgetProtocol ProtocolFrames.
From stdpp Require Import options.

Local Open Scope Z_scope.

Module One := ConsumeBudgetTransactionProtocol.
Module Batch := BatchConsumeBudgetTransactionProtocol.

Inductive Phase := PreparePhase | CommitPhase | NotifyPhase | AbortPhase.

(** A log the journal has not answered, with the callback of the update. *)
Inductive Pending :=
| OneLog (callback : One.Callback) (ctx : UpdateContext) (ls : list frame_loc)
| BatchLog (callback : Batch.Callback) (ctx : UpdateContext) (ls : list frame_loc).

Inductive Outcome :=
| Finished (r : ExecutionResult)
| Waiting (p : Pending).

Definition one_outcome (actions : list One.ProtocolAction) : option Outcome :=
  match actions with
  | [One.FinishPrepare _ r] | [One.FinishCommit _ r] | [One.FinishNotify _ r] | [One.FinishAbort _ r] =>
      Some (Finished r)
  | [One.ManagerCall callback (DispatchLog _ (OnUpdateLogged ctx ls))] => Some (Waiting (OneLog callback ctx ls))
  | _ => None
  end.

Definition batch_outcome (actions : list Batch.ProtocolAction) : option Outcome :=
  match actions with
  | [Batch.FinishPrepare _ r _] | [Batch.FinishCommit _ r _] | [Batch.FinishNotify _ r] | [Batch.FinishAbort _ r] =>
      Some (Finished r)
  | [Batch.ManagerCall callback (DispatchLog _ (OnUpdateLogged ctx ls))] => Some (Waiting (BatchLog callback ctx ls))
  | _ => None
  end.

Section calls.
  Context {M : Type} `{!TimeframeManagerInterface M}.

(** Runs a call: its load is answered from memory. *)
Definition one_run (a : Answers) (called : option (ExecutionResult * M * list One.ProtocolAction))
  : option (M * Outcome) :=
  '(r, s, actions) ← called;
  match actions with
  | [] => Some (s, Finished r)
  | [One.ManagerCall callback finish] =>
      '(s, actions) ← One.run_callback a s callback finish;
      o ← one_outcome actions; Some (s, o)
  | _ => None
  end.

Definition batch_run (a : Answers) (called : option (ExecutionResult * M * list Batch.ProtocolAction))
  : option (M * Outcome) :=
  '(r, s, actions) ← called;
  match actions with
  | [] => Some (s, Finished r)
  | [Batch.ManagerCall callback finish] =>
      '(s, actions) ← Batch.run_callback a s callback finish;
      o ← batch_outcome actions; Some (s, o)
  | _ => None
  end.

Definition one_call (a : Answers) (s : M) (p : Phase) (tid : Uuid) (b : BudgetConsumptionRequestInfo)
  : option (M * Outcome) :=
  let activity := generated a 2%nat in
  one_run a
    match p with
    | PreparePhase => One.Prepare a s (mkContext activity (mkPrepareRequest tid b))
    | CommitPhase => One.Commit a s (mkContext activity (mkCommitRequest tid b))
    | NotifyPhase => One.Notify a s (mkContext activity (mkNotifyRequest tid (time_bucket b)))
    | AbortPhase => One.Abort a s (mkContext activity (mkAbortRequest tid (time_bucket b)))
    end.

Definition batch_call (a : Answers) (s : M) (p : Phase) (tid : Uuid) (budgets : list BudgetConsumptionRequestInfo)
  : option (M * Outcome) :=
  let activity := generated a 2%nat in
  batch_run a
    match p with
    | PreparePhase => Batch.Prepare a s (mkContext activity (mkPrepareBatchRequest tid budgets))
    | CommitPhase => Batch.Commit a s (mkContext activity (mkCommitBatchRequest tid budgets))
    | NotifyPhase => Batch.Notify a s (mkContext activity (mkNotifyBatchRequest tid (time_bucket <$> budgets)))
    | AbortPhase => Batch.Abort a s (mkContext activity (mkAbortBatchRequest tid (time_bucket <$> budgets)))
    end.

(** One budget is the first protocol's, more are the second's. *)
Definition call (a : Answers) (s : M) (p : Phase) (tid : Uuid) (budgets : list BudgetConsumptionRequestInfo)
  : option (M * Outcome) :=
  match budgets with
  | [b] => one_call a s p tid b
  | _ => batch_call a s p tid budgets
  end.

(** The journal answers: the manager writes the timeframes. *)
Definition logged (a : Answers) (s : M) (p : Pending) (r : ExecutionResult) : option (M * Action) :=
  '(s, actions) ←
    match p with
    | OneLog _ ctx ls => manager_Logged a s ctx ls r
    | BatchLog _ ctx ls => manager_Logged a s ctx ls r
    end;
  match (actions : list Action) with [finish] => Some (s, finish) | _ => None end.

(** It finishes the update, whose callback runs. *)
Definition settled (a : Answers) (s : M) (p : Pending) (finish : Action) : option (M * Outcome) :=
  match p with
  | OneLog callback _ _ =>
      '(s, actions) ← One.run_callback a s callback finish;
      o ← one_outcome actions; Some (s, o)
  | BatchLog callback _ _ =>
      '(s, actions) ← Batch.run_callback a s callback finish;
      o ← batch_outcome actions; Some (s, o)
  end.

(** The callback of a notification of one budget finds its timeframe other than
    the manager has left it. *)
Definition overtaken (s : M) (p : Pending) : bool :=
  match p with
  | OneLog (One.NotifyLogged l _) ctx _ =>
      match last (timeframes_to_update ctx), shared_frames s !! l with
      | Some u, Some f =>
          negb (bool_decide (active_transaction_id f = kZeroUuid) && (active_token_count f =? 0) &&
                (token_count f =? update_token_count u))
      | _, _ => false
      end
  | _ => false
  end.

End calls.

(** ** What the calls do *)

(** The log a phase waits for: the updates [us] of the timeframes at [ls]. *)
Definition waits_for (p : Phase) (tid : Uuid) (ls : list frame_loc) (us : list BudgetKeyTimeframeUpdateInfo)
    (q : Pending) : Prop :=
  match q with
  | OneLog callback ctx ls' =>
      ls' = ls ∧ timeframes_to_update ctx = us ∧ ∃ l, ls = [l] ∧
      match p, callback with
      | CommitPhase, One.CommitLogged l' _ | NotifyPhase, One.NotifyLogged l' _ => l' = l
      | AbortPhase, One.AbortLogged l' c => l' = l ∧ abort_transaction_id (request c) = tid
      | _, _ => False
      end
  | BatchLog callback ctx ls' =>
      ls' = ls ∧ timeframes_to_update ctx = us ∧
      match p, callback with
      | CommitPhase, Batch.CommitLogged _ | NotifyPhase, Batch.NotifyLogged _
      | AbortPhase, Batch.AbortLogged _ => True
      | _, _ => False
      end
  end.

(** The updates of a phase on its budgets, from the values of the timeframes. *)
Definition commits (tid : Uuid) := zip_with (commit_update tid).
Definition releases (tokens : BudgetKeyTimeframe → Z) :=
  zip_with (λ b f, release_update (time_bucket b) (tokens f)).

Lemma releases_times tokens budgets fl :
  zip_with (λ t f, release_update t (tokens f)) (time_bucket <$> budgets) fl = releases tokens budgets fl.
Proof. revert fl. induction budgets as [|b budgets IH]; intros [|f fl]; try done. simpl. unfold releases. simpl. by rewrite IH. Qed.

Lemma commits_times tid budgets fl : length fl = length budgets →
  reporting_time <$> commits tid budgets fl = time_bucket <$> budgets.
Proof.
  unfold commits. revert fl. induction budgets as [|b budgets IH]; intros [|f fl] Hlen; try done.
  cbn [zip_with]. rewrite !fmap_cons, IH by (simpl in *; lia). done.
Qed.

Lemma releases_reporting tokens budgets fl : length fl = length budgets →
  reporting_time <$> releases tokens budgets fl = time_bucket <$> budgets.
Proof.
  unfold releases. revert fl. induction budgets as [|b budgets IH]; intros [|f fl] Hlen; try done.
  cbn [zip_with]. rewrite !fmap_cons, IH by (simpl in *; lia). done.
Qed.

Lemma Forall_zip_with {A B C} (P : C → Prop) (g : A → B → C) (l1 : list A) (l2 : list B) :
  (∀ x y, x ∈ l1 → y ∈ l2 → P (g x y)) → Forall P (zip_with g l1 l2).
Proof.
  revert l2. induction l1 as [|x l1 IH]; intros [|y l2] H; simpl; constructor; [apply H; by left|].
  apply IH. intros. apply H; by right.
Qed.

Lemma zero_valid : valid_uuid kZeroUuid.
Proof. by vm_compute. Qed.

Lemma commits_valid tid budgets fl : valid_uuid tid → Forall in_range_time (time_bucket <$> budgets) →
  Forall valid_frame fl → Forall valid_update (commits tid budgets fl).
Proof.
  intros Htid Ht Hv. apply Forall_zip_with. intros b f Hb Hf. rewrite Forall_fmap, Forall_forall in Ht.
  rewrite Forall_forall in Hv. destruct (Hv f Hf) as (_ & ? & _).
  split_and!; [by apply Ht|done|apply u8_range|done].
Qed.

Lemma releases_valid tokens budgets fl : Forall in_range_time (time_bucket <$> budgets) →
  (∀ f, valid_frame f → is_u8 (tokens f)) →
  Forall valid_frame fl → Forall valid_update (releases tokens budgets fl).
Proof.
  intros Ht Htok Hv. apply Forall_zip_with. intros b f Hb Hf. rewrite Forall_fmap, Forall_forall in Ht.
  rewrite Forall_forall in Hv. split_and!; [by apply Ht|by apply Htok, Hv|done|apply zero_valid].
Qed.

Lemma write_all_same_shape (fs : FrameHeap) ls fl fl' : NoDup ls → read_all fs ls = Some fl →
  Forall2 (λ f f', valid_frame f → valid_frame f' ∧ time_bucket_index f' = time_bucket_index f) fl fl' →
  same_shape fs (write_all fs ls fl').
Proof.
  intros Hnd Hfl Hv l f Hf Hvf. pose proof (read_all_length _ _ _ Hfl) as Hlen.
  pose proof (Forall2_length _ _ _ Hv) as Hlen'.
  destruct (decide (l ∈ ls)) as [Hin|Hnin]; [|exists f; by rewrite write_all_other].
  destruct (write_all_lookup fs ls fl' l Hnd) as (i & f' & Hi & Hf' & Hw); [lia|done|].
  destruct (Forall2_lookup_r _ _ _ _ _ Hv Hf') as (f0 & Hf0 & H0).
  apply mapM_Some in Hfl. destruct (Forall2_lookup_l _ _ _ _ _ Hfl Hi) as (f1 & Hf1 & Hl1).
  assert (f0 = f) as -> by congruence. destruct (H0 Hvf). by exists f'.
Qed.

Lemma lock_valid tid f : valid_uuid tid → valid_frame f →
  valid_frame (set_transaction tid f) ∧ time_bucket_index (set_transaction tid f) = time_bucket_index f.
Proof. intros Htid (? & ? & ? & ?). by split_and!. Qed.

Lemma lock_same_shape (fs : FrameHeap) ls fl tid : NoDup ls → valid_uuid tid → read_all fs ls = Some fl →
  same_shape fs (write_all fs ls (set_transaction tid <$> fl)).
Proof.
  intros Hnd Htid Hfl. eapply write_all_same_shape; [done|done|].
  apply Forall2_fmap_r, Forall_Forall2_diag, Forall_true. intros f ?. by apply lock_valid.
Qed.

Section specs.
  Context {M : Type} `{!TimeframeManagerInterface M} {serves : M → list Z → list frame_loc → Prop}
    `{!TimeframeManagerLaws M serves}.
  #[local] Set Default Proof Using "Type*".
  Implicit Types (s : M) (b : BudgetConsumptionRequestInfo).

(** What was served is served. *)
Definition kept s s' : Prop := ∀ times ls, serves s times ls → serves s' times ls.

Lemma kept_refl s : kept s s.
Proof. by intros ??. Qed.
Lemma kept_trans s1 s2 s3 : kept s1 s2 → kept s2 s3 → kept s1 s3.
Proof. intros H1 H2 ???. by apply H2, H1. Qed.

Lemma write_kept s fs : same_shape (shared_frames s) fs → kept s (write_shared fs s).
Proof. intros Hs ???. by eapply write_serves. Qed.

Lemma one_load a s t l callback : serves s [t] [l] →
  ∃ s' activity, One.call_load a s t callback
    = Some (SuccessExecutionResult, s',
        [One.ManagerCall callback (FinishLoad (mkLoad activity [t] (Some [l])) SuccessExecutionResult)]) ∧
    shared_frames s' = shared_frames s ∧ kept s s'.
Proof.
  intros Hs. unfold One.call_load.
  destruct (Load_law a s (mkLoad (generated a 0%nat) [t] None) [l] Hs) as (s' & -> & Hf & Hk).
  exists s', (generated a 0%nat). done.
Qed.

Lemma batch_load a s times ls callback : serves s times ls →
  ∃ s' activity, Batch.call_load a s times callback
    = Some (SuccessExecutionResult, s',
        [Batch.ManagerCall callback (FinishLoad (mkLoad activity times (Some ls)) SuccessExecutionResult)]) ∧
    shared_frames s' = shared_frames s ∧ kept s s'.
Proof.
  intros Hs. unfold Batch.call_load.
  destruct (Load_law a s (mkLoad (generated a 0%nat) times None) ls Hs) as (s' & -> & Hf & Hk).
  exists s', (generated a 0%nat). done.
Qed.

Lemma one_update a s ctx ls callback finish : serves s (reporting_time <$> timeframes_to_update ctx) ls →
  Forall valid_update (timeframes_to_update ctx) →
  ∃ s' log, One.call_update a s ctx callback finish
    = Some (s', [One.ManagerCall callback (DispatchLog log (OnUpdateLogged ctx ls))]) ∧
    shared_frames s' = shared_frames s ∧ kept s s'.
Proof.
  intros Hs Hv. destruct (Update_law a s ctx ls Hs Hv) as (s' & log & Hu & Hf & Hk).
  unfold One.call_update. rewrite Hu. by exists s', log.
Qed.

Lemma batch_update a s ctx ls callback finish : serves s (reporting_time <$> timeframes_to_update ctx) ls →
  Forall valid_update (timeframes_to_update ctx) →
  ∃ s' log, Batch.call_update a s ctx callback finish
    = Some (s', [Batch.ManagerCall callback (DispatchLog log (OnUpdateLogged ctx ls))]) ∧
    shared_frames s' = shared_frames s ∧ kept s s'.
Proof.
  intros Hs Hv. destruct (Update_law a s ctx ls Hs Hv) as (s' & log & Hu & Hf & Hk).
  unfold Batch.call_update. rewrite Hu. by exists s', log.
Qed.

Lemma one_commit a s tid b l f : serves s [time_bucket b] [l] → shared_frames s !! l = Some f →
  tid ≠ kZeroUuid → valid_uuid tid → active_transaction_id f ≠ tid →
  ∃ s' o, one_call a s CommitPhase tid b = Some (s', o) ∧ kept s s' ∧
    if bool_decide (active_transaction_id f = kZeroUuid) then
      shared_frames s' = <[l := set_transaction tid f]> (shared_frames s) ∧
      if token_count f <? requested_tokens b then
        o = Finished (FailureExecutionResult SC_PBS_BUDGET_KEY_CONSUME_BUDGET_INSUFFICIENT_BUDGET)
      else ∃ q, o = Waiting q ∧ waits_for CommitPhase tid [l] [commit_update tid b f] q
    else
      shared_frames s' = shared_frames s ∧
      o = Finished (RetryExecutionResult SC_PBS_BUDGET_KEY_ACTIVE_TRANSACTION_IN_PROGRESS).
Proof.
  intros Hs Hf Hz Htid Hne. unfold one_call, One.Commit.
  cbn [request commit_transaction_id commit_consumption]. rewrite bool_decide_false by done.
  set (c := mkContext _ _). destruct (one_load a s _ l (One.CommitLoaded c) Hs) as (s1 & act & -> & Hf1 & Hk1).
  cbn [one_run mbind option_bind One.run_callback]. unfold One.OnCommitBudgetKeyLoaded, One.front_frame.
  change (negb (Successful SuccessExecutionResult)) with false. cbn iota.
  cbn [budget_key_frames mbind option_bind head]. rewrite Hf1, Hf. cbn [mbind option_bind].
  subst c. cbn [request commit_transaction_id commit_consumption]. rewrite bool_decide_false by done.
  rewrite (acquire_cases _ _ _ _ Hf). cbn [mbind option_bind]. case_bool_decide.
  2: { eexists _, _. split_and!; [done|done|done|done]. }
  destruct (serves_frames s _ _ Hs) as (_ & Hnd & Hv).
  assert (valid_frame f) as Hvf by (destruct (Hv l) as (? & ? & ?); [by left|congruence]).
  set (fs := <[l := set_transaction tid f]> (shared_frames s)).
  assert (kept s1 (write_shared fs s1)) as Hk2.
  { apply write_kept. rewrite Hf1. apply (lock_same_shape _ [l] [f]); [done|done|].
    apply read_all_cons. by exists f, []. }
  destruct (token_count f <? requested_tokens b).
  - eexists _, _. split_and!; [done|by eapply kept_trans|apply write_law|done].
  - destruct (one_update a (write_shared fs s1) (mkUpdate (generated a 1%nat) [commit_update tid b f]) [l]
      (One.CommitLogged l (mkContext (generated a 2%nat) (mkCommitRequest tid b)))
      (One.FinishCommit (mkContext (generated a 2%nat) (mkCommitRequest tid b)))) as (s2 & log & -> & Hf2 & Hk3).
    + by apply Hk2, Hk1.
    + apply (commits_valid tid [b] [f]); [done| |by constructor]. apply (serves_in_range s _ _ Hs).
    + cbn [mbind option_bind one_outcome]. eexists _, _. split_and!; [done| | |].
      * eapply kept_trans; [done|]. by eapply kept_trans.
      * rewrite Hf2. apply write_law.
      * eexists. split; [done|]. split_and!; [done|done|]. by exists l.
Qed.

(** The tokens a phase gives back. *)
Definition phase_tokens (p : Phase) : BudgetKeyTimeframe → Z :=
  match p with NotifyPhase => active_token_count | _ => token_count end.

Definition ends (p : Phase) : Prop := p = NotifyPhase ∨ p = AbortPhase.

Lemma phase_tokens_valid p f : valid_frame f → is_u8 (phase_tokens p f).
Proof. intros (? & ? & ? & ?). by destruct p. Qed.

Lemma one_end a s p tid b l f : ends p → serves s [time_bucket b] [l] → shared_frames s !! l = Some f →
  tid ≠ kZeroUuid →
  ∃ s' o, one_call a s p tid b = Some (s', o) ∧ kept s s' ∧ shared_frames s' = shared_frames s ∧
    if bool_decide (active_transaction_id f = tid) then
      ∃ q, o = Waiting q ∧ waits_for p tid [l] (releases (phase_tokens p) [b] [f]) q
    else o = Finished SuccessExecutionResult.
Proof.
  intros Hp Hs Hf Hz. destruct (serves_frames s _ _ Hs) as (_ & _ & Hv).
  assert (Forall valid_frame [f]) as Hvf
    by (constructor; [destruct (Hv l) as (? & ? & ?); [by left|congruence]|done]).
  pose proof (releases_valid (phase_tokens p) [b] [f] (serves_in_range s _ _ Hs) (phase_tokens_valid p) Hvf) as Hvu.
  destruct Hp as [-> | ->]; unfold one_call; [unfold One.Notify|unfold One.Abort];
    cbn [request notify_transaction_id notify_time_bucket abort_transaction_id abort_time_bucket];
    rewrite bool_decide_false by done;
    match goal with |- context [One.call_load _ _ _ ?k] =>
      destruct (one_load a s _ l k Hs) as (s1 & act & -> & Hf1 & Hk1) end;
    cbn [one_run mbind option_bind One.run_callback];
    [unfold One.OnNotifyBudgetKeyLoaded|unfold One.OnAbortBudgetKeyLoaded]; unfold One.front_frame;
    change (negb (Successful SuccessExecutionResult)) with false; cbn iota;
    cbn [budget_key_frames mbind option_bind head]; rewrite Hf1, Hf; cbn [mbind option_bind request
      notify_transaction_id notify_time_bucket abort_transaction_id abort_time_bucket activity_id];
    (case_bool_decide; cbn [negb]; [|by eexists _, _]);
    match goal with |- context [One.call_update _ _ ?ctx ?k ?g] =>
      destruct (one_update a s1 ctx [l] k g (Hk1 _ _ Hs) Hvu) as (s2 & log & -> & Hf2 & Hk2) end;
    cbn [mbind option_bind one_outcome]; eexists _, _;
    (split_and!; [done|by eapply kept_trans|congruence|]); eexists; (split; [done|]);
    (split_and!; [done|done|]); by exists l.
Qed.

Lemma batch_end a s p tid budgets ls f fl : ends p → serves s (time_bucket <$> budgets) ls →
  read_all (shared_frames s) ls = Some (f :: fl) → tid ≠ kZeroUuid → (1 < length budgets)%nat →
  ∃ s' o, batch_call a s p tid budgets = Some (s', o) ∧ kept s s' ∧ shared_frames s' = shared_frames s ∧
    if bool_decide (active_transaction_id f = tid) then
      ∃ q, o = Waiting q ∧ waits_for p tid ls (releases (phase_tokens p) budgets (f :: fl)) q
    else o = Finished SuccessExecutionResult.
Proof.
  intros Hp Hs Hfl Hz Hlen. destruct (serves_frames s _ _ Hs) as (Hll & _ & Hv). rewrite length_fmap in Hll.
  pose proof (read_all_length _ _ _ Hfl) as Hlf.
  assert (Forall valid_frame (f :: fl)) as Hvf.
  { apply Forall_forall. intros f' Hf'. destruct (read_all_elem _ _ _ _ Hfl Hf') as (l & Hl & Hl').
    destruct (Hv l Hl) as (? & ? & ?). congruence. }
  pose proof (releases_valid (phase_tokens p) budgets (f :: fl) (serves_in_range s _ _ Hs) (phase_tokens_valid p) Hvf)
    as Hvu.
  assert (head ls ≫= (shared_frames s !!.) = Some f) as Hhead.
  { destruct ls as [|l ls]; [done|]. apply read_all_cons in Hfl as (? & ? & [= -> ->] & ? & _). done. }
  assert ((length (time_bucket <$> budgets) <=? 1)%nat = false) as Hle
    by (rewrite length_fmap; apply Nat.leb_gt; lia).
  destruct Hp as [-> | ->]; unfold batch_call; [unfold Batch.Notify|unfold Batch.Abort];
    cbn [request notify_batch_transaction_id notify_time_buckets abort_batch_transaction_id abort_time_buckets];
    rewrite bool_decide_false by done; rewrite Hle;
    match goal with |- context [Batch.call_load _ _ _ ?k] =>
      destruct (batch_load a s _ ls k Hs) as (s1 & act & -> & Hf1 & Hk1) end;
    cbn [batch_run mbind option_bind Batch.run_callback];
    [unfold Batch.OnNotifyBudgetKeyLoaded|unfold Batch.OnAbortBudgetKeyLoaded];
    change (negb (result_eqb SuccessExecutionResult SuccessExecutionResult)) with false; cbn iota;
    cbn [budget_key_frames mbind option_bind]; rewrite Hf1; fold (option_bind frame_loc BudgetKeyTimeframe);
    change (option_bind frame_loc BudgetKeyTimeframe) with (@mbind option _ frame_loc BudgetKeyTimeframe);
    rewrite Hhead; cbn [mbind option_bind request
      notify_batch_transaction_id notify_time_buckets abort_batch_transaction_id abort_time_buckets activity_id];
    (case_bool_decide; cbn [negb]; [|by eexists _, _]);
    rewrite (release_updates_spec _ _ _ _ _ Hfl) by (rewrite length_fmap; lia); cbn [mbind option_bind];
    rewrite releases_times;
    (match goal with |- context [Batch.call_update _ _ ?ctx ?k ?g] =>
       destruct (batch_update a s1 ctx ls k g) as (s2 & log & -> & Hf2 & Hk2) end;
     [cbn [timeframes_to_update]; rewrite releases_reporting by lia; by apply Hk1|done|]);
    cbn [mbind option_bind batch_outcome]; eexists _, _;
    (split_and!; [done|by eapply kept_trans|congruence|]); by eexists.
Qed.

Lemma frames_valid s times ls fl : serves s times ls → read_all (shared_frames s) ls = Some fl →
  Forall valid_frame fl.
Proof.
  intros Hs Hfl. apply Forall_forall. intros f Hf. destruct (read_all_elem _ _ _ _ Hfl Hf) as (l & Hl & Hl').
  destruct (serves_frames s _ _ Hs) as (_ & _ & Hv). destruct (Hv l Hl) as (? & ? & ?). congruence.
Qed.

Lemma batch_commit_refused a s tid budgets : tid ≠ kZeroUuid → (1 < length budgets)%nat →
  AreBudgetsInIncreasingOrder budgets = false →
  batch_call a s CommitPhase tid budgets
  = Some (s, Finished (FailureExecutionResult SC_PBS_BUDGET_KEY_BATCH_REQUEST_HAS_INVALID_ORDER)).
Proof.
  intros Hz Hlen Ho. unfold batch_call, Batch.Commit.
  cbn [request commit_batch_transaction_id commit_budget_consumptions]. rewrite bool_decide_false by done.
  rewrite (proj2 (Nat.leb_gt _ _) Hlen), Ho. done.
Qed.

Lemma commit_loaded_success a s tid budgets ls fl activity act :
  serves s (time_bucket <$> budgets) ls → read_all (shared_frames s) ls = Some fl → fl ≠ [] →
  tid ≠ kZeroUuid → valid_uuid tid → Forall (λ f, active_transaction_id f ≠ tid) fl →
  let c := mkContext activity (mkCommitBatchRequest tid budgets) in
  let loaded := Batch.OnCommitBudgetKeyLoaded a s c
                  (mkLoad act (time_bucket <$> budgets) (Some ls)) SuccessExecutionResult in
  let r := verdict fl budgets in
  if Successful r then
    ∃ s' log ctx, loaded = Some (s', [Batch.ManagerCall (Batch.CommitLogged c) (DispatchLog log (OnUpdateLogged ctx ls))]) ∧
      timeframes_to_update ctx = commits tid budgets fl ∧ kept s s' ∧
      shared_frames s' = write_all (shared_frames s) ls (set_transaction tid <$> fl)
  else
    ∃ s' indices, loaded = Some (s', [Batch.FinishCommit c r indices]) ∧ kept s s' ∧
      shared_frames s' = shared_frames s ∧
      (r = FailureExecutionResult SC_PBS_BUDGET_KEY_CONSUME_BUDGET_INSUFFICIENT_BUDGET →
       ∃ js, indices = Some js ∧ NoDup js ∧
         ∀ j, j ∈ js ↔ ∃ f b, fl !! j = Some f ∧ budgets !! j = Some b ∧ ¬ enough f b).
Proof.
  intros Hs Hfl Hne Hz Htid Hfree c loaded r.
  destruct (serves_frames s _ _ Hs) as (Hll & Hnd & _). rewrite length_fmap in Hll.
  assert (∃ f, head ls ≫= (shared_frames s !!.) = Some f ∧ active_transaction_id f ≠ tid) as (f & Hhead & Hf).
  { destruct ls as [|l ls]; [by destruct fl|]. apply read_all_cons in Hfl as (f & ? & -> & Hf & _).
    apply Forall_cons in Hfree as [? _]. by exists f. }
  unfold loaded, Batch.OnCommitBudgetKeyLoaded.
  cbn [c request commit_batch_transaction_id commit_budget_consumptions budget_key_frames].
  change (negb (result_eqb SuccessExecutionResult SuccessExecutionResult)) with false. cbn iota.
  change (Some ls ≫= ?g) with (g ls). cbn beta.
  rewrite (proj2 (Nat.eqb_eq _ _) Hll). cbn [negb]. rewrite Hhead. cbn [mbind option_bind].
  rewrite bool_decide_false by done. destruct (Successful r) eqn:Hr.
  - apply Successful_true in Hr. rewrite (acquire_all_success tid _ _ fl) by done. cbn [mbind option_bind].
    change (negb (Successful SuccessExecutionResult)) with false. cbn iota.
    set (fs := write_all (shared_frames s) ls (set_transaction tid <$> fl)).
    pose proof (read_all_length _ _ _ Hfl) as Hlf.
    assert (read_all fs ls = Some (set_transaction tid <$> fl)) as Hfs
      by (apply read_write; [done|by rewrite length_fmap]).
    rewrite (commit_updates_spec _ _ _ _ _ Hfs) by done. cbn [mbind option_bind].
    assert (zip_with (commit_update tid) budgets (set_transaction tid <$> fl) = commits tid budgets fl) as ->
      by (unfold commits; rewrite zip_with_fmap_r; done).
    assert (kept s (write_shared fs s)) as Hk by (apply write_kept; by apply lock_same_shape).
    destruct (Update_law a (write_shared fs s) (mkUpdate (generated a 1%nat) (commits tid budgets fl)) ls)
      as (s' & log & -> & Hf' & Hk').
    + cbn [timeframes_to_update]. rewrite commits_times by lia. by apply Hk.
    + apply commits_valid; [done|by eapply serves_in_range|by eapply frames_valid].
    + cbn [mbind option_bind].
      change (negb (result_eqb SuccessExecutionResult SuccessExecutionResult)) with false. cbn iota.
      eexists _, _, _. split_and!; [done|done|by eapply kept_trans|]. rewrite Hf'. apply write_law.
  - apply Successful_false in Hr.
    destruct (acquire_all_failure tid _ _ fl budgets Hz Hnd Hfl (eq_sym Hll) Hfree Hr) as (fs' & -> & Hrel).
    cbn [mbind option_bind]. fold r. rewrite (proj2 (Successful_false r) Hr). cbn [negb]. rewrite Hrel.
    cbn [mbind option_bind].
    assert (kept s (write_shared (shared_frames s) s)) as Hk by apply write_kept, same_shape_refl.
    destruct (result_eqb r _) eqn:Hi.
    + unfold Batch.PopulateInsufficientBudgetConsumptionIndicesInResponse.
      rewrite (proj2 (Nat.eqb_eq _ _) (eq_sym Hll)). cbn [negb].
      destruct (insufficient_indices_spec _ _ _ budgets 0 Hfl (eq_sym Hll)) as (js & -> & Hjs & Hin).
      cbn [mbind option_bind]. eexists _, _. split_and!; [done|done|apply write_law|].
      intros _. exists js. split_and!; [done|done|]. intros j. rewrite Hin.
      split; [intros (k & f0 & b & -> & ?); eauto|]. intros (f0 & b & ?). exists j, f0, b. split; [lia|done].
    + eexists _, _. split_and!; [done|done|apply write_law|].
      intros Heq. by rewrite (proj2 (result_eqb_spec _ _) Heq) in Hi.
Qed.
(** ** Both protocols *)

(** What a commit by a transaction that holds none of the timeframes does: it
    is refused and leaves them; the protocol for one budget refuses it and
    keeps the lock, when the budget is not enough; or it has all the locks and
    waits for the journal. *)
Definition commit_effect (tid : Uuid) (budgets : list BudgetConsumptionRequestInfo) ls fl
    (fs fs' : FrameHeap) (o : Outcome) : Prop :=
  (∃ r, o = Finished r ∧ Successful r = false ∧ fs' = fs) ∨
  (o = Finished (FailureExecutionResult SC_PBS_BUDGET_KEY_CONSUME_BUDGET_INSUFFICIENT_BUDGET) ∧
   Forall (λ f, active_transaction_id f = kZeroUuid) fl ∧
   fs' = write_all fs ls (set_transaction tid <$> fl)) ∨
  (∃ q, o = Waiting q ∧ Forall (λ f, active_transaction_id f = kZeroUuid) fl ∧ Forall2 enough fl budgets ∧
   fs' = write_all fs ls (set_transaction tid <$> fl) ∧ waits_for CommitPhase tid ls (commits tid budgets fl) q).

Lemma call_commit a s tid budgets ls fl :
  serves s (time_bucket <$> budgets) ls → read_all (shared_frames s) ls = Some fl → budgets ≠ [] →
  tid ≠ kZeroUuid → valid_uuid tid → Forall (λ f, active_transaction_id f ≠ tid) fl →
  ∃ s' o, call a s CommitPhase tid budgets = Some (s', o) ∧ kept s s' ∧
    commit_effect tid budgets ls fl (shared_frames s) (shared_frames s') o.
Proof.
  intros Hs Hfl Hne Hz Htid Hfree. pose proof (read_all_length _ _ _ Hfl) as Hlf.
  destruct (serves_frames s _ _ Hs) as (Hll & _). rewrite length_fmap in Hll.
  destruct budgets as [|b [|b2 budgets]]; [done| |].
  - destruct ls as [|l [|]]; [done| |done]. apply read_all_cons in Hfl as (f & fl' & -> & Hf & Hfl').
    injection Hfl' as <-. apply Forall_cons in Hfree as [Hfree _].
    destruct (one_commit a s tid b l f Hs Hf Hz Htid Hfree) as (s' & o & Hc & Hk & He). exists s', o.
    split_and!; [done|done|]. case_bool_decide as Hact.
    + destruct He as [-> He]. destruct (token_count f <? requested_tokens b) eqn:Ht.
      * right. left. split_and!; [done|by constructor|done].
      * destruct He as (q & -> & Hq). right. right. exists q.
        split_and!; [done|by constructor| |done|done]. constructor; [|constructor].
        apply Z.ltb_ge in Ht. unfold enough. lia.
    + destruct He as [-> ->]. left. eexists. split_and!; done.
  - set (budgets' := b :: b2 :: budgets) in *.
    assert (1 < length budgets')%nat as Hlen by (simpl; lia).
    change (call a s CommitPhase tid budgets') with (batch_call a s CommitPhase tid budgets').
    destruct (AreBudgetsInIncreasingOrder budgets') eqn:Ho.
    2: { rewrite batch_commit_refused by done. eexists _, _. split_and!; [done|apply kept_refl|].
         left. eexists. split_and!; done. }
    unfold batch_call, Batch.Commit. cbn [request commit_batch_transaction_id commit_budget_consumptions].
    rewrite bool_decide_false by done. rewrite (proj2 (Nat.leb_gt _ _) Hlen), Ho. cbn [negb].
    match goal with |- context [Batch.call_load _ _ _ ?k] =>
      destruct (batch_load a s _ ls k Hs) as (s1 & act & -> & Hf1 & Hk1) end.
    cbn [batch_run mbind option_bind Batch.run_callback].
    pose proof (commit_loaded_success a s1 tid budgets' ls fl (generated a 2%nat) act (Hk1 _ _ Hs)) as Hc.
    rewrite Hf1 in Hc. specialize (Hc Hfl ltac:(intros ->; simpl in *; lia) Hz Htid Hfree). cbn zeta in Hc.
    destruct (Successful (verdict fl budgets')) eqn:Hv.
    + destruct Hc as (s' & log & ctx & -> & Hus & Hk & Hf'). cbn [mbind option_bind batch_outcome].
      apply Successful_true in Hv. destruct (verdict_success fl budgets') as [H0 He]; [lia|done|].
      eexists _, _. split_and!; [done|by eapply kept_trans|]. right. right. eexists. by split_and!.
    + destruct Hc as (s' & indices & -> & Hk & Hf' & _). cbn [mbind option_bind batch_outcome].
      eexists _, _. split_and!; [done|by eapply kept_trans|]. left. eexists. by split_and!.
Qed.

Lemma call_end a s p tid budgets ls f fl : ends p → serves s (time_bucket <$> budgets) ls →
  read_all (shared_frames s) ls = Some (f :: fl) → tid ≠ kZeroUuid →
  ∃ s' o, call a s p tid budgets = Some (s', o) ∧ kept s s' ∧ shared_frames s' = shared_frames s ∧
    if bool_decide (active_transaction_id f = tid) then
      ∃ q, o = Waiting q ∧ waits_for p tid ls (releases (phase_tokens p) budgets (f :: fl)) q
    else o = Finished SuccessExecutionResult.
Proof.
  intros Hp Hs Hfl Hz. pose proof (read_all_length _ _ _ Hfl) as Hlf.
  destruct (serves_frames s _ _ Hs) as (Hll & _). rewrite length_fmap in Hll.
  destruct budgets as [|b [|b2 budgets]]; [simpl in *; lia| |].
  - destruct ls as [|l [|]]; [done| |done]. apply read_all_cons in Hfl as (f' & fl' & [= <- <-] & Hf & Hfl').
    injection Hfl' as <-. by apply one_end.
  - apply batch_end; try done. simpl. lia.
Qed.

(** The context of the update, which its callback is given. *)
Definition update_of (q : Pending) : UpdateContext := match q with OneLog _ ctx _ | BatchLog _ ctx _ => ctx end.

(** A callback whose writes have been made already: the timeframes are as the
    updates have them or, for an abort, the transaction's no longer. *)
Lemma settled_effect a s p tid ls us fl q r : waits_for p tid ls us q → p = CommitPhase ∨ ends p →
  read_all (shared_frames s) ls = Some fl → length us = length ls →
  (Successful r = true → p = CommitPhase → zip_with write_update us fl = fl) →
  (Successful r = true → p = NotifyPhase → overtaken s q = false) →
  (Successful r = true → p = AbortPhase → Forall (λ f, active_transaction_id f ≠ tid) fl) →
  ∃ s', settled a s q (FinishUpdate (update_of q) r) = Some (s', Finished r) ∧ kept s s' ∧
    shared_frames s' = shared_frames s.
Proof.
  intros Hq Hp Hfl Hlen Hc Hn Ha. destruct q as [callback ctx ls'|callback ctx ls'].
  2: { exists s. destruct Hq as (_ & _ & Hcb). split_and!; [|apply kept_refl|done].
       by destruct Hp as [-> |[-> | ->]]; destruct callback. }
  destruct Hq as (_ & Hus & l & -> & Hcb). destruct us as [|u [|]]; try done.
  apply read_all_cons in Hfl as (f & fl' & -> & Hl & [= <-]). cbn [update_of].
  assert (∀ f', f' = f → ∃ s1, write_shared (<[l := f']> (shared_frames s)) s = s1 ∧ kept s s1 ∧
    shared_frames s1 = shared_frames s) as Hsame.
  { intros f' ->. eexists. split; [done|]. rewrite insert_id by done. rewrite write_law. split; [|done].
    apply write_kept, same_shape_refl. }
  destruct (Successful r) eqn:Hr.
  2: { exists s. destruct p, callback; try done; unfold settled; cbn [One.run_callback];
         unfold One.OnCommitLogged, One.OnNotifyLogged, One.OnAbortLogged; rewrite Hr;
         (split; [done|split; [apply kept_refl|done]]). }
  destruct Hp as [-> |[-> | ->]]; destruct callback; try done; unfold settled; cbn [One.run_callback].
  - subst budget_key_frame. unfold One.OnCommitLogged. rewrite Hr, Hus, Hl. cbn [last mbind option_bind].
    specialize (Hc eq_refl eq_refl). simpl in Hc. injection Hc as Hc.
    destruct (Hsame (set_frame (update_active_token_count u) (update_transaction_id u) (token_count f) f))
      as (s1 & -> & Hk & Hf); [by rewrite <-Hc|]. by exists s1.
  - subst budget_key_frame. unfold One.OnNotifyLogged. rewrite Hr, Hus, Hl. cbn [last mbind option_bind].
    specialize (Hn eq_refl eq_refl). unfold overtaken in Hn. rewrite Hus, Hl in Hn. cbn [last] in Hn.
    apply negb_false_iff in Hn. rewrite !andb_true_iff, bool_decide_eq_true, !Z.eqb_eq in Hn.
    destruct (Hsame (set_frame 0 kZeroUuid (update_token_count u) f)) as (s1 & -> & Hk & Hf);
      [destruct f; simpl in *; by destruct Hn as [[-> ->] ->]|]. by exists s1.
  - destruct Hcb as [-> Htid]. unfold One.OnAbortLogged. rewrite Hr, Hl. cbn [mbind option_bind].
    specialize (Ha eq_refl eq_refl). apply Forall_cons in Ha as [Ha _].
    rewrite bool_decide_false by congruence.
    exists s. split; [done|split; [apply kept_refl|done]].
Qed.

(** Prepare changes nothing, and for one budget or several gives the verdict a
    commit would come to. *)
Lemma one_prepare a s tid b l f : serves s [time_bucket b] [l] → shared_frames s !! l = Some f → tid ≠ kZeroUuid →
  ∃ s', one_call a s PreparePhase tid b = Some (s', Finished (verdict [f] [b])) ∧ kept s s' ∧
    shared_frames s' = shared_frames s.
Proof.
  intros Hs Hf Hz. unfold one_call, One.Prepare.
  cbn [request prepare_transaction_id prepare_consumption]. rewrite bool_decide_false by done.
  set (c := mkContext _ _). destruct (one_load a s _ l (One.PrepareLoaded c) Hs) as (s1 & act & -> & Hf1 & Hk1).
  cbn [one_run mbind option_bind One.run_callback]. unfold One.OnPrepareBudgetKeyLoaded, One.front_frame.
  change (negb (Successful SuccessExecutionResult)) with false. cbn iota.
  cbn [budget_key_frames mbind option_bind head]. rewrite Hf1, Hf. cbn [mbind option_bind].
  cbn [c request prepare_consumption verdict]. exists s1.
  case_bool_decide; cbn [negb]; [|done]. by destruct (token_count f <? requested_tokens b).
Qed.

Lemma prepare_loaded_verdict s tid budgets times ls fl activity act :
  read_all (shared_frames s) ls = Some fl → length budgets = length ls →
  let c := mkContext activity (mkPrepareBatchRequest tid budgets) in
  ∃ indices, Batch.OnPrepareBudgetKeyLoaded s c (mkLoad act times (Some ls)) SuccessExecutionResult
    = Some [Batch.FinishPrepare c (verdict fl budgets) indices] ∧
    (verdict fl budgets = FailureExecutionResult SC_PBS_BUDGET_KEY_CONSUME_BUDGET_INSUFFICIENT_BUDGET →
     ∃ js, indices = Some js ∧ NoDup js ∧
       ∀ j, j ∈ js ↔ ∃ f b, fl !! j = Some f ∧ budgets !! j = Some b ∧ ¬ enough f b).
Proof.
  intros Hfl Hlen c. unfold Batch.OnPrepareBudgetKeyLoaded.
  cbn [c request prepare_budget_consumptions budget_key_frames].
  change (negb (result_eqb SuccessExecutionResult SuccessExecutionResult)) with false. cbn iota.
  change (Some ls ≫= ?g) with (g ls). cbn beta. rewrite (proj2 (Nat.eqb_eq _ _) (eq_sym Hlen)). cbn [negb].
  rewrite (prepare_all_verdict _ _ _ _ Hfl Hlen). cbn [mbind option_bind].
  destruct (result_eqb (verdict fl budgets) _) eqn:Hi.
  - unfold Batch.PopulateInsufficientBudgetConsumptionIndicesInResponse.
    rewrite (proj2 (Nat.eqb_eq _ _) Hlen). cbn [negb].
    destruct (insufficient_indices_spec _ _ _ budgets 0 Hfl Hlen) as (js & -> & Hjs & Hin).
    cbn [mbind option_bind]. eexists. split; [done|]. intros _. exists js. split_and!; [done|done|].
    intros j. rewrite Hin. split; [intros (k & f0 & b & -> & ?); eauto|].
    intros (f0 & b & ?). exists j, f0, b. split; [lia|done].
  - eexists. split; [done|]. intros Heq. by rewrite (proj2 (result_eqb_spec _ _) Heq) in Hi.
Qed.

Lemma call_prepare a s tid budgets ls fl : serves s (time_bucket <$> budgets) ls →
  read_all (shared_frames s) ls = Some fl → budgets ≠ [] → tid ≠ kZeroUuid →
  ∃ s', call a s PreparePhase tid budgets = Some (s', Finished (verdict fl budgets)) ∧ kept s s' ∧
    shared_frames s' = shared_frames s.
Proof.
  intros Hs Hfl Hne Hz. destruct (serves_frames s _ _ Hs) as (Hll & _). rewrite length_fmap in Hll.
  destruct budgets as [|b [|b2 budgets]]; [done| |].
  - destruct ls as [|l [|]]; [done| |done]. apply read_all_cons in Hfl as (f & fl' & -> & Hf & Hfl').
    injection Hfl' as <-. by apply one_prepare with (l := l).
  - set (budgets' := b :: b2 :: budgets) in *.
    change (call a s PreparePhase tid budgets') with (batch_call a s PreparePhase tid budgets').
    unfold batch_call, Batch.Prepare. cbn [request prepare_batch_transaction_id prepare_budget_consumptions].
    rewrite bool_decide_false by done.
    change (length budgets' <=? 1)%nat with false. cbn iota.
    match goal with |- context [Batch.call_load _ _ _ ?k] =>
      destruct (batch_load a s _ ls k Hs) as (s1 & act & -> & Hf1 & Hk1) end.
    cbn [batch_run mbind option_bind Batch.run_callback].
    destruct (prepare_loaded_verdict s1 tid budgets' (time_bucket <$> budgets') ls fl (generated a 2%nat) act)
      as (indices & -> & _); [by rewrite Hf1|done|]. by exists s1.
Qed.

(** The answer of the journal. *)
Lemma logged_effect a s p tid ls us fl q r : waits_for p tid ls us q →
  serves s (reporting_time <$> us) ls → Forall valid_update us → read_all (shared_frames s) ls = Some fl →
  ∃ s', logged a s q r = Some (s', FinishUpdate (update_of q) r) ∧ kept s s' ∧
    shared_frames s' = if Successful r then write_all (shared_frames s) ls (zip_with write_update us fl)
                       else shared_frames s.
Proof.
  intros Hq Hs Hvu Hfl. destruct (serves_frames s _ _ Hs) as (Hll & Hnd & _). rewrite length_fmap in Hll.
  assert (∀ ctx, timeframes_to_update ctx = us → ∃ s1, manager_Logged a s ctx ls r = Some (s1, [FinishUpdate ctx r]) ∧
    kept s s1 ∧ shared_frames s1 = (if Successful r then write_all (shared_frames s) ls (zip_with write_update us fl)
                                    else shared_frames s)) as Hlogged.
  { intros ctx Hus. destruct (Logged_law a s ctx ls r) as (s1 & Hlog & Hf1 & Hk1); [by rewrite Hus|by rewrite Hus|].
    exists s1. split_and!; [done|done|]. rewrite Hf1, Hus. destruct (Successful r); [|done].
    apply updated_write_all; [done|done|lia]. }
  destruct q as [callback ctx ls'|callback ctx ls']; destruct Hq as (-> & Hus & _);
    destruct (Hlogged ctx Hus) as (s1 & Hlog & Hk & Hf); exists s1; unfold logged; rewrite Hlog; done.
Qed.

(** A commit by the transaction that holds the timeframes is taken for a retry,
    or refused for the order of its budgets. *)
Lemma call_commit_again a s tid budgets ls fl : serves s (time_bucket <$> budgets) ls →
  read_all (shared_frames s) ls = Some fl → budgets ≠ [] → tid ≠ kZeroUuid →
  Forall (λ f, active_transaction_id f = tid) fl →
  ∃ s' r, call a s CommitPhase tid budgets = Some (s', Finished r) ∧ kept s s' ∧ shared_frames s' = shared_frames s ∧
    (r = SuccessExecutionResult ∨ Successful r = false).
Proof.
  intros Hs Hfl Hne Hz Hh. destruct (serves_frames s _ _ Hs) as (Hll & _). rewrite length_fmap in Hll.
  destruct budgets as [|b [|b2 budgets]]; [done| |].
  - destruct ls as [|l [|]]; [done| |done]. apply read_all_cons in Hfl as (f & fl' & -> & Hf & [= <-]).
    apply Forall_cons in Hh as [Hh _]. unfold call, one_call, One.Commit.
    cbn [request commit_transaction_id commit_consumption]. rewrite bool_decide_false by done.
    match goal with |- context [One.call_load _ _ _ ?k] =>
      destruct (one_load a s _ l k Hs) as (s1 & act & -> & Hf1 & Hk1) end.
    cbn [one_run mbind option_bind One.run_callback]. unfold One.OnCommitBudgetKeyLoaded, One.front_frame.
    change (negb (Successful SuccessExecutionResult)) with false. cbn iota.
    cbn [budget_key_frames mbind option_bind head]. rewrite Hf1, Hf. cbn [mbind option_bind].
    cbn [request commit_transaction_id commit_consumption]. rewrite bool_decide_true by done.
    exists s1, SuccessExecutionResult. split_and!; [done|done|done|by left].
  - set (budgets' := b :: b2 :: budgets) in *.
    change (call a s CommitPhase tid budgets') with (batch_call a s CommitPhase tid budgets').
    destruct (AreBudgetsInIncreasingOrder budgets') eqn:Ho.
    2: { rewrite (batch_commit_refused a s tid budgets' Hz) by (done || (simpl; lia)).
         eexists s, _. split_and!; [done|apply kept_refl|done|by right]. }
    unfold batch_call, Batch.Commit. cbn [request commit_batch_transaction_id commit_budget_consumptions].
    rewrite bool_decide_false by done. change (length budgets' <=? 1)%nat with false. rewrite Ho. cbn [negb]. cbn iota.
    match goal with |- context [Batch.call_load _ _ _ ?k] =>
      destruct (batch_load a s _ ls k Hs) as (s1 & act & -> & Hf1 & Hk1) end.
    cbn [batch_run mbind option_bind Batch.run_callback]. unfold Batch.OnCommitBudgetKeyLoaded.
    cbn [request commit_batch_transaction_id commit_budget_consumptions budget_key_frames].
    change (negb (result_eqb SuccessExecutionResult SuccessExecutionResult)) with false. cbn iota.
    change (Some ls ≫= ?g) with (g ls). cbn beta. rewrite (proj2 (Nat.eqb_eq _ _) Hll). cbn [negb].
    assert (∃ f, head ls ≫= (shared_frames s1 !!.) = Some f ∧ active_transaction_id f = tid) as (f & Hhead & Hact).
    { destruct ls as [|l ls]; [done|]. apply read_all_cons in Hfl as (f & ? & -> & Hf & _).
      apply Forall_cons in Hh as [? _]. exists f. simpl. by rewrite Hf1. }
    rewrite Hhead. cbn [mbind option_bind]. rewrite bool_decide_true by done.
    eexists s1, _. split_and!; [done|done|done|by left].
Qed.

End specs.

(** ** Properties of single calls *)

Section properties.
  Context {M : Type} `{!TimeframeManagerInterface M} {serves : M → list Z → list frame_loc → Prop}
    `{!TimeframeManagerLaws M serves}.
  #[local] Set Default Proof Using "Type*".
  Implicit Types (s : M) (b : BudgetConsumptionRequestInfo).

(** C14: on loaded timeframes none of which the transaction holds, the prepare
    and the commit of several budgets come to the same result: that of the
    first budget whose timeframe is locked (to be retried) or has not enough.
    With such a budget, commit leaves every timeframe as it was, and when the
    first is one without enough, the response of both holds exactly the indices
    of the budgets there is not enough of. Without one, commit has locked every
    timeframe and journals what each will be. *)
Theorem batch_commit_all_or_nothing a s tid budgets ls fl activity act :
  serves s (time_bucket <$> budgets) ls → read_all (shared_frames s) ls = Some fl → budgets ≠ [] →
  tid ≠ kZeroUuid → valid_uuid tid → Forall (λ f, active_transaction_id f ≠ tid) fl →
  let c := mkContext activity (mkCommitBatchRequest tid budgets) in
  let p := mkContext activity (mkPrepareBatchRequest tid budgets) in
  let ctx := mkLoad act (time_bucket <$> budgets) (Some ls) in
  let r := verdict fl budgets in
  ∃ s' prepare_indices,
    Batch.OnPrepareBudgetKeyLoaded s p ctx SuccessExecutionResult
    = Some [Batch.FinishPrepare p r prepare_indices] ∧
    if Successful r then
      Forall2 enough fl budgets ∧
      shared_frames s' = write_all (shared_frames s) ls (set_transaction tid <$> fl) ∧
      ∃ log update, timeframes_to_update update = commits tid budgets fl ∧
        Batch.OnCommitBudgetKeyLoaded a s c ctx SuccessExecutionResult
        = Some (s', [Batch.ManagerCall (Batch.CommitLogged c) (DispatchLog log (OnUpdateLogged update ls))])
    else
      shared_frames s' = shared_frames s ∧
      ∃ commit_indices,
        Batch.OnCommitBudgetKeyLoaded a s c ctx SuccessExecutionResult
        = Some (s', [Batch.FinishCommit c r commit_indices]) ∧
        (r = FailureExecutionResult SC_PBS_BUDGET_KEY_CONSUME_BUDGET_INSUFFICIENT_BUDGET →
         ∃ js, prepare_indices = Some js ∧
           (∀ j, j ∈ js ↔ ∃ f b, fl !! j = Some f ∧ budgets !! j = Some b ∧ ¬ enough f b) ∧
           ∃ js', commit_indices = Some js' ∧ ∀ j, j ∈ js' ↔ j ∈ js).
Proof.
  intros Hs Hfl Hne Hz Htid Hfree c p ctx r. destruct (serves_frames s _ _ Hs) as (Hll & _).
  rewrite length_fmap in Hll. pose proof (read_all_length _ _ _ Hfl) as Hlf.
  assert (fl ≠ []) as Hfne by (intros ->; apply Hne; destruct budgets; simpl in *; [done|lia]).
  destruct (prepare_loaded_verdict s tid budgets (time_bucket <$> budgets) ls fl activity act Hfl (eq_sym Hll))
    as (pi & Hp & Hpi).
  pose proof (commit_loaded_success a s tid budgets ls fl activity act Hs Hfl Hfne Hz Htid Hfree) as Hc.
  cbn zeta in Hc. fold r c ctx in Hc, Hp, Hpi. destruct (Successful r) eqn:Hr.
  - destruct Hc as (s' & log & update & Hc & Hus & _ & Hf). exists s', pi. split; [done|].
    apply Successful_true in Hr. destruct (verdict_success fl budgets) as [_ He]; [lia|done|].
    split_and!; [done|done|]. by exists log, update.
  - destruct Hc as (s' & ci & Hc & _ & Hf & Hci). exists s', pi. split_and!; [done|done|].
    exists ci. split; [done|]. intros Hi. destruct (Hpi Hi) as (js & -> & _ & Hjs).
    destruct (Hci Hi) as (js' & -> & _ & Hjs'). exists js. split_and!; [done|done|]. exists js'.
    split; [done|]. intros j. by rewrite Hjs', Hjs.
Qed.

(** A commit by the transaction that holds the timeframe. *)
Lemma one_commit_again a s tid b l f : serves s [time_bucket b] [l] → shared_frames s !! l = Some f →
  tid ≠ kZeroUuid → active_transaction_id f = tid →
  ∃ s', one_call a s CommitPhase tid b = Some (s', Finished SuccessExecutionResult) ∧
    kept (serves := serves) s s' ∧ shared_frames s' = shared_frames s.
Proof.
  intros Hs Hf Hz Hact. unfold one_call, One.Commit.
  cbn [request commit_transaction_id commit_consumption]. rewrite bool_decide_false by done.
  set (c := mkContext _ _). destruct (one_load a s _ l (One.CommitLoaded c) Hs) as (s1 & act & -> & Hf1 & Hk1).
  cbn [one_run mbind option_bind One.run_callback]. unfold One.OnCommitBudgetKeyLoaded, One.front_frame.
  change (negb (Successful SuccessExecutionResult)) with false. cbn iota.
  cbn [budget_key_frames mbind option_bind head]. rewrite Hf1, Hf. cbn [mbind option_bind].
  subst c. cbn [request commit_transaction_id commit_consumption]. rewrite bool_decide_true by done.
  by exists s1.
Qed.

(** A commit of one budget that is refused, since there is not enough,
    keeps the lock; the same commit again succeeds at once, with no log; and
    the notification then sets the tokens to whatever the timeframe's active
    count was, which no commit has set. *)
Theorem refused_commit_repeated a s tid b l f :
  serves s [time_bucket b] [l] → shared_frames s !! l = Some f → tid ≠ kZeroUuid → valid_uuid tid →
  active_transaction_id f = kZeroUuid → ¬ enough f b →
  ∃ s1 s2 s3 q,
    call a s CommitPhase tid [b]
    = Some (s1, Finished (FailureExecutionResult SC_PBS_BUDGET_KEY_CONSUME_BUDGET_INSUFFICIENT_BUDGET)) ∧
    call a s1 CommitPhase tid [b] = Some (s2, Finished SuccessExecutionResult) ∧
    shared_frames s2 !! l = Some (set_transaction tid f) ∧
    call a s2 NotifyPhase tid [b] = Some (s3, Waiting q) ∧
    waits_for NotifyPhase tid [l] [release_update (time_bucket b) (active_token_count f)] q.
Proof.
  intros Hs Hf Hz Htid Hact Hen. unfold enough in Hen.
  destruct (one_commit a s tid b l f Hs Hf Hz Htid) as (s1 & o & Hc1 & Hk1 & He); [congruence|].
  rewrite bool_decide_true in He by done. destruct He as [Hf1 He].
  rewrite (proj2 (Z.ltb_lt _ _)) in He by lia. subst o.
  assert (shared_frames s1 !! l = Some (set_transaction tid f)) as Hl1 by (rewrite Hf1; apply lookup_insert_eq).
  destruct (one_commit_again a s1 tid b l _ (Hk1 _ _ Hs) Hl1 Hz) as (s2 & Hc2 & Hk2 & Hf2); [done|].
  assert (shared_frames s2 !! l = Some (set_transaction tid f)) as Hl2 by congruence.
  destruct (one_end a s2 NotifyPhase tid b l _ (or_introl eq_refl) (Hk2 _ _ (Hk1 _ _ Hs)) Hl2 Hz)
    as (s3 & o & Hc3 & _ & _ & He). rewrite bool_decide_true in He by done. destruct He as (q & -> & Hq).
  exists s1, s2, s3, q. by split_and!.
Qed.

(** The manager releases the lock of a notified timeframe before it calls
    [OnNotifyLogged], which writes the timeframe again. When another
    transaction commits between the two, that write takes its lock away, and a
    third transaction can commit while the second still waits for the journal:
    both count from the same tokens. *)
Theorem late_notification_breaks_lock a s t l f (c : Context NotifyConsumeBudgetRequest) ctx tid2 tid3 b2 b3 :
  serves s [t] [l] → shared_frames s !! l = Some f →
  timeframes_to_update ctx = [release_update t (active_token_count f)] →
  tid2 ≠ kZeroUuid → tid3 ≠ kZeroUuid → valid_uuid tid2 → valid_uuid tid3 →
  time_bucket b2 = t → time_bucket b3 = t →
  requested_tokens b2 ≤ active_token_count f → requested_tokens b3 ≤ active_token_count f →
  ∃ s1 s2 s3 s4 q2 q3 released,
    manager_Logged a s ctx [l] SuccessExecutionResult = Some (s1, [FinishUpdate ctx SuccessExecutionResult]) ∧
    call a s1 CommitPhase tid2 [b2] = Some (s2, Waiting q2) ∧
    One.OnNotifyLogged s2 l c ctx SuccessExecutionResult = Some (s3, [One.FinishNotify c SuccessExecutionResult]) ∧
    call a s3 CommitPhase tid3 [b3] = Some (s4, Waiting q3) ∧
    token_count released = active_token_count f ∧
    waits_for CommitPhase tid2 [l] [commit_update tid2 b2 released] q2 ∧
    waits_for CommitPhase tid3 [l] [commit_update tid3 b3 released] q3.
Proof.
  intros Hs Hf Hus Hz2 Hz3 Htid2 Htid3 <- Ht3 He2 He3.
  destruct (serves_frames s _ _ Hs) as (_ & Hnd & Hv). destruct (Hv l) as (f' & Hf' & Hvf); [by left|].
  assert (f' = f) as -> by congruence.
  destruct (Logged_law a s ctx [l] SuccessExecutionResult) as (s1 & Hl1 & Hf1 & Hk1).
  { by rewrite Hus. }
  { rewrite Hus. apply (releases_valid active_token_count [b2] [f]); [by eapply serves_in_range| |].
    - apply (phase_tokens_valid NotifyPhase).
    - by apply Forall_singleton. }
  change (Successful SuccessExecutionResult) with true in Hf1. cbn iota in Hf1. rewrite Hus in Hf1.
  set (released := set_frame 0 kZeroUuid (active_token_count f) f).
  assert (shared_frames s1 !! l = Some released) as Hr1 by (rewrite Hf1; simpl; by rewrite lookup_alter_eq, Hf).
  assert (serves s1 [time_bucket b2] [l]) as Hs1 by (by apply Hk1).
  destruct (one_commit a s1 tid2 b2 l released Hs1 Hr1 Hz2 Htid2) as (s2 & o2 & Hc2 & Hk2 & E2); [done|].
  change (active_transaction_id released) with kZeroUuid in E2. rewrite bool_decide_true in E2 by done.
  change (token_count released) with (active_token_count f) in E2.
  rewrite (proj2 (Z.ltb_ge _ _) He2) in E2. destruct E2 as (Hf2 & q2 & -> & Hq2).
  assert (shared_frames s2 !! l = Some (set_transaction tid2 released)) as Hr2 by (rewrite Hf2; apply lookup_insert_eq).
  set (s3 := write_shared (<[l := released]> (shared_frames s2)) s2).
  assert (shared_frames s3 !! l = Some released) as Hr3 by (unfold s3; rewrite write_law; apply lookup_insert_eq).
  assert (serves s3 [time_bucket b3] [l]) as Hs3.
  { rewrite Ht3. apply write_kept; [|by apply Hk2].
    intros l' f1 Hl' Hv1. destruct (decide (l = l')) as [<-|?]; [|exists f1; by rewrite lookup_insert_ne].
    rewrite Hr2 in Hl'. injection Hl' as <-. exists released. rewrite lookup_insert_eq. split_and!; [done| |done].
    destruct Hvf as (? & ? & ? & ?). split_and!; [done|done|done|apply zero_valid]. }
  destruct (one_commit a s3 tid3 b3 l released Hs3 Hr3 Hz3 Htid3) as (s4 & o4 & Hc4 & _ & E4); [done|].
  change (active_transaction_id released) with kZeroUuid in E4. rewrite bool_decide_true in E4 by done.
  change (token_count released) with (active_token_count f) in E4.
  rewrite (proj2 (Z.ltb_ge _ _) He3) in E4. destruct E4 as (_ & q4 & -> & Hq4).
  exists s1, s2, s3, s4, q2, q4, released. split_and!; try done.
  unfold One.OnNotifyLogged. change (Successful SuccessExecutionResult) with true. cbn iota.
  rewrite Hus, Hr2. done.
Qed.

End properties.
