(* ===== verification/ProtocolSystem.v ===== *)
(** * Transactions on the budgets of a day

    Transactions of both protocols run against one timeframe manager: each
    commits, and then is notified or aborted; phases are repeated as the code
    allows it. Their calls, the journal's answers, the callbacks of the answers
    and the manager's other work are steps of their own, which interleave.
    Two steps are known to lose tokens and are told apart ([Exception]): a
    commit that was refused or failed with its lock kept and is repeated, and
    the second write of a notification whose hour another transaction has
    changed. Across any run without them the tokens of an hour and those
    consumed by notified transactions add up to the tokens there were, and no
    two transactions hold an hour at once. *)

From S2P Require Import Prelude ExecutionResult ErrorCodes Uuid TimeframeUtils TimeframeLog TimeframeManager TimeframeRecovery TransactionProtocol ConsumeBudgetProtocol BatchConsumeBudgetProtocol ProtocolFrames ProtocolCalls.
From stdpp Require Import options.

Local Open Scope Z_scope.

(** ** The transactions *)

Inductive Stage :=
| Committed
| Failed
| Notified
| Aborted
| Journaling (p : Phase) (q : Pending) (* a log of the phase is with the journal *)
| Settling (p : Phase) (q : Pending) (finish : Action). (* it is answered, and its callback has not run *)

Record Transaction := mkTransaction {
  budgets : list BudgetConsumptionRequestInfo;
  locations : list frame_loc; (* of their timeframes *)
  stage : Stage;
}.

Definition times (t : Transaction) : list Z := time_bucket <$> budgets t.
Definition at_stage (st : Stage) (t : Transaction) : Transaction := mkTransaction (budgets t) (locations t) st.

(** The tokens a list of budgets takes from the timeframe at [l]. *)
Fixpoint taken (budgets : list BudgetConsumptionRequestInfo) (ls : list frame_loc) (l : frame_loc) : Z :=
  match budgets, ls with
  | b :: budgets, l' :: ls => (if decide (l' = l) then requested_tokens b else 0) + taken budgets ls l
  | _, _ => 0
  end.

Definition succeeded (finish : Action) : bool :=
  match finish with FinishUpdate _ r => Successful r | _ => false end.

(** The manager has taken the tokens of the transaction. *)
Definition spending (st : Stage) : bool :=
  match st with Notified => true | Settling NotifyPhase _ finish => succeeded finish | _ => false end.

(** What a transaction has consumed there. *)
Definition spent_by (t : Transaction) (l : frame_loc) : Z :=
  if spending (stage t) then taken (budgets t) (locations t) l else 0.

Definition spent (ts : gmap Uuid Transaction) (l : frame_loc) : Z :=
  map_fold (λ _ t acc, spent_by t l + acc) 0 ts.

Lemma spent_insert ts tid t l : spent (<[tid := t]> ts) l
  = spent ts l - from_option (λ t, spent_by t l) 0 (ts !! tid) + spent_by t l.
Proof.
  unfold spent. destruct (ts !! tid) as [t0|] eqn:Ht.
  - rewrite <- insert_delete_eq. rewrite map_fold_insert_L by (first [apply lookup_delete_eq | lia]).
    rewrite (map_fold_delete_L _ _ tid t0 ts) by (first [done | lia]). simpl. lia.
  - rewrite map_fold_insert_L by (first [done | lia]). simpl. lia.
Qed.

(** ** The steps *)

Section system.
  Context {M : Type} `{!TimeframeManagerInterface M} (serves : M → list Z → list frame_loc → Prop).

Record System := mkSystem { manager : M; transactions : gmap Uuid Transaction }.

(** A request a client may make. *)
Definition request_ok (tid : Uuid) (budgets : list BudgetConsumptionRequestInfo) : Prop :=
  tid ≠ kZeroUuid ∧ valid_uuid tid ∧ budgets ≠ [] ∧ Forall (λ b, is_u8 (requested_tokens b)) budgets.

(** The stage after a phase that ends with a result, or waits. *)
Definition after (p : Phase) (o : Outcome) : Stage :=
  match o with
  | Finished r =>
      if Successful r then match p with CommitPhase => Committed | NotifyPhase => Notified | _ => Aborted end
      else match p with NotifyPhase => Committed | _ => Failed end
  | Waiting q => Journaling p q
  end.

(** The steps after which tokens may be lost: a commit that had failed is
    repeated by a transaction that still has the lock of its first hour, and is
    taken for a retry; a notification's callback writes an hour that is not as
    the manager has left it. *)
Inductive Exception := KeptLockCommitted | NotificationOvertaken.

Definition keeps_lock (s : M) (tid : Uuid) (t : Transaction) : bool :=
  match head (locations t) ≫= (shared_frames s !!.) with
  | Some f => bool_decide (active_transaction_id f = tid)
  | None => false
  end.

Definition is_failed (st : Stage) : bool := match st with Failed => true | _ => false end.

(** The phases of one transaction follow one another; those of different
    transactions interleave. *)
Inductive step : System → list Exception → System → Prop :=
| step_prepare a s ts tid budgets ls s' o :
    request_ok tid budgets → serves s (time_bucket <$> budgets) ls →
    call a s PreparePhase tid budgets = Some (s', o) →
    step (mkSystem s ts) [] (mkSystem s' ts)
| step_commit a s ts tid budgets ls s' o :
    ts !! tid = None → request_ok tid budgets → serves s (time_bucket <$> budgets) ls →
    call a s CommitPhase tid budgets = Some (s', o) →
    step (mkSystem s ts) [] (mkSystem s' (<[tid := mkTransaction budgets ls (after CommitPhase o)]> ts))
| step_commit_again a s ts tid t s' o :
    ts !! tid = Some t → stage t = Committed ∨ stage t = Failed ∨ stage t = Aborted →
    call a s CommitPhase tid (budgets t) = Some (s', o) →
    step (mkSystem s ts) (if is_failed (stage t) && keeps_lock s tid t then [KeptLockCommitted] else [])
      (mkSystem s' (<[tid := at_stage (after CommitPhase o) t]> ts))
| step_notify a s ts tid t s' o :
    ts !! tid = Some t → stage t = Committed ∨ stage t = Notified →
    call a s NotifyPhase tid (budgets t) = Some (s', o) →
    step (mkSystem s ts) [] (mkSystem s' (<[tid := at_stage (after NotifyPhase o) t]> ts))
| step_abort a s ts tid t s' o :
    ts !! tid = Some t → stage t = Committed ∨ stage t = Failed ∨ stage t = Aborted →
    call a s AbortPhase tid (budgets t) = Some (s', o) →
    step (mkSystem s ts) [] (mkSystem s' (<[tid := at_stage (after AbortPhase o) t]> ts))
| step_logged a s ts tid t p q r s' finish :
    ts !! tid = Some t → stage t = Journaling p q → logged a s q r = Some (s', finish) →
    step (mkSystem s ts) [] (mkSystem s' (<[tid := at_stage (Settling p q finish) t]> ts))
| step_settled a s ts tid t p q finish s' o :
    ts !! tid = Some t → stage t = Settling p q finish → settled a s q finish = Some (s', o) →
    step (mkSystem s ts) (if succeeded finish && overtaken s q then [NotificationOvertaken] else [])
      (mkSystem s' (<[tid := at_stage (after p o) t]> ts))
| step_manager s ts s' :
    (* the manager's other work: it keeps the days it serves and their timeframes *)
    shared_frames s' = shared_frames s → (∀ times ls, serves s times ls → serves s' times ls) →
    step (mkSystem s ts) [] (mkSystem s' ts).

(** A run, and the exceptions in it. *)
Inductive run (σ0 : System) : list Exception → System → Prop :=
| run_start : run σ0 [] σ0
| run_step es σ es' σ' : run σ0 es σ → step σ es' σ' → run σ0 (es ++ es') σ'.

(** No transaction yet, and no timeframe with one. *)
Definition initial (σ : System) : Prop :=
  transactions σ = ∅ ∧
  ∀ l f, shared_frames (manager σ) !! l = Some f → valid_frame f ∧ active_transaction_id f = kZeroUuid.

(** ** The invariant *)

Definition holds (tid : Uuid) : list BudgetKeyTimeframe → Prop := Forall (λ f, active_transaction_id f = tid).
Definition free_of (tid : Uuid) : list BudgetKeyTimeframe → Prop := Forall (λ f, active_transaction_id f ≠ tid).

(** The count a commit leaves for the notification. *)
Definition counted (budgets : list BudgetConsumptionRequestInfo) (fl : list BudgetKeyTimeframe) : Prop :=
  Forall2 (λ f b, enough f b ∧ active_token_count f = token_count f - requested_tokens b) fl budgets.

(** A phase whose answer has come: its callback has nothing left to write. *)
Definition settling_ok (tid : Uuid) (t : Transaction) (fl : list BudgetKeyTimeframe) (p : Phase) (q : Pending)
    (r : ExecutionResult) us : Prop :=
  waits_for p tid (locations t) us q ∧ length us = length (locations t) ∧
  match p with
  | PreparePhase => False
  | CommitPhase =>
      holds tid fl ∧ (Successful r = true → counted (budgets t) fl ∧ zip_with write_update us fl = fl)
  | NotifyPhase => if Successful r then free_of tid fl else holds tid fl ∧ counted (budgets t) fl
  | AbortPhase => if Successful r then free_of tid fl else holds tid fl
  end.

(** The updates of a phase that is with the journal, from the values it holds. *)
Definition journaling_ok (tid : Uuid) (t : Transaction) (fl : list BudgetKeyTimeframe) (p : Phase) : Prop :=
  holds tid fl ∧
  match p with
  | PreparePhase => False
  | CommitPhase => Forall2 enough fl (budgets t)
  | NotifyPhase => counted (budgets t) fl
  | AbortPhase => True
  end.

Definition phase_updates (p : Phase) (tid : Uuid) bs fl : list BudgetKeyTimeframeUpdateInfo :=
  match p with CommitPhase => commits tid bs fl | _ => releases (phase_tokens p) bs fl end.

Definition stage_ok (tid : Uuid) (t : Transaction) (fl : list BudgetKeyTimeframe) : Prop :=
  match stage t with
  | Committed => holds tid fl ∧ counted (budgets t) fl
  | Failed => holds tid fl ∨ free_of tid fl
  | Notified | Aborted => free_of tid fl
  | Journaling p q =>
      journaling_ok tid t fl p ∧ waits_for p tid (locations t) (phase_updates p tid (budgets t) fl) q
  | Settling p q finish => ∃ r us, finish = FinishUpdate (update_of q) r ∧ settling_ok tid t fl p q r us
  end.

Definition transaction_ok (s : M) (tid : Uuid) (t : Transaction) : Prop :=
  request_ok tid (budgets t) ∧ serves s (times t) (locations t) ∧
  ∃ fl, read_all (shared_frames s) (locations t) = Some fl ∧ stage_ok tid t fl.

Record invariant (σ0 σ : System) : Prop := {
  inv_transactions tid t : transactions σ !! tid = Some t → transaction_ok (manager σ) tid t;
  inv_locks l f : shared_frames (manager σ) !! l = Some f →
    valid_frame f ∧
    (active_transaction_id f = kZeroUuid ∨
     ∃ t, transactions σ !! active_transaction_id f = Some t ∧ l ∈ locations t);
  inv_tokens l f0 : shared_frames (manager σ0) !! l = Some f0 →
    ∃ f, shared_frames (manager σ) !! l = Some f ∧ token_count f + spent (transactions σ) l = token_count f0;
}.

Lemma transactions_initial_invariant σ0 : initial σ0 → invariant σ0 σ0.
Proof.
  intros [Ht Hf]. constructor.
  - intros tid t. by rewrite Ht.
  - intros l f Hl. destruct (Hf l f Hl). split; [done|by left].
  - intros l f0 Hl. exists f0. split; [done|]. rewrite Ht. unfold spent. rewrite map_fold_empty. lia.
Qed.

(** ** A step of one transaction *)

(** The change of a timeframe by the transaction [tid]. *)
Definition changed_by (tid : Uuid) (f f' : BudgetKeyTimeframe) : Prop :=
  f' = f ∨
  ((active_transaction_id f = tid ∨ active_transaction_id f = kZeroUuid) ∧
   (active_transaction_id f' = tid ∨ active_transaction_id f' = kZeroUuid)).

Lemma holds_changed tid tid' fl fl' : tid ≠ tid' → tid ≠ kZeroUuid → Forall2 (changed_by tid') fl fl' →
  holds tid fl → fl' = fl.
Proof.
  intros Hne Hz. induction 1 as [|f f' fl fl' Hf Hch IH]; intros H; [done|]. apply Forall_cons in H as [H1 H2].
  rewrite IH by done. destruct Hf as [->|[[?|?] _]]; [done|congruence|congruence].
Qed.

Lemma free_changed tid tid' fl fl' : tid ≠ tid' → tid ≠ kZeroUuid → Forall2 (changed_by tid') fl fl' →
  free_of tid fl → free_of tid fl'.
Proof.
  intros Hne Hz. induction 1 as [|f f' fl fl' Hf Hch IH]; intros H; [done|]. apply Forall_cons in H as [H1 H2].
  constructor; [|by apply IH]. destruct Hf as [->|[_ [-> | ->]]]; congruence.
Qed.

Lemma stage_ok_other tid t fl fl' tid' : tid ≠ tid' → tid ≠ kZeroUuid →
  Forall2 (changed_by tid') fl fl' → stage_ok tid t fl → stage_ok tid t fl'.
Proof.
  intros Hne Hz Hch. pose proof (holds_changed _ _ _ _ Hne Hz Hch) as Hholds.
  pose proof (free_changed _ _ _ _ Hne Hz Hch) as Hfree.
  unfold stage_ok. destruct (stage t) as [| | | |p q|p q finish].
  - intros [H ?]. by rewrite (Hholds H).
  - intros [H|H]; [left; by rewrite (Hholds H)|right; by apply Hfree].
  - apply Hfree.
  - apply Hfree.
  - intros [[H ?] ?]. by rewrite (Hholds H).
  - intros (r & us & -> & Hw & Hlen & H). exists r, us. split; [done|]. split; [done|]. split; [done|].
    destruct p; [done| |destruct (Successful r)|destruct (Successful r)].
    + destruct H as [H ?]. by rewrite (Hholds H).
    + by apply Hfree.
    + destruct H as [H ?]. by rewrite (Hholds H).
    + by apply Hfree.
    + by rewrite (Hholds H).
Qed.

Lemma read_all_changed (fs : FrameHeap) tid ls fl fl' ls1 fl1 : NoDup ls →
  read_all fs ls = Some fl → Forall2 (changed_by tid) fl fl' → read_all fs ls1 = Some fl1 →
  ∃ fl1', read_all (write_all fs ls fl') ls1 = Some fl1' ∧ Forall2 (changed_by tid) fl1 fl1'.
Proof.
  intros Hnd Hfl Hch. pose proof (read_all_length _ _ _ Hfl) as Hlen.
  pose proof (Forall2_length _ _ _ Hch) as Hlen'. revert fl1.
  induction ls1 as [|l ls1 IH]; intros fl1 H1; [injection H1 as <-; by exists []|].
  apply read_all_cons in H1 as (f & fl1' & -> & Hf & H1). destruct (IH _ H1) as (fl2 & H2 & Hch2).
  assert (∃ f', write_all fs ls fl' !! l = Some f' ∧ changed_by tid f f') as (f' & Hf' & Hc).
  { destruct (decide (l ∈ ls)) as [Hin|Hnin]; [|exists f; rewrite write_all_other by done; split; [done|by left]].
    destruct (write_all_lookup fs ls fl' l Hnd) as (i & f' & Hi & Hf' & Hw); [lia|done|].
    destruct (Forall2_lookup_r _ _ _ _ _ Hch Hf') as (f0 & Hf0 & H0).
    apply mapM_Some in Hfl. destruct (Forall2_lookup_l _ _ _ _ _ Hfl Hi) as (f1 & Hf1 & Hl1).
    exists f'. split; [done|]. congruence. }
  exists (f' :: fl2). split; [|by constructor]. apply read_all_cons. by exists f', fl2.
Qed.

Lemma taken_at bs ls i b l : NoDup ls → ls !! i = Some l → bs !! i = Some b → taken bs ls l = requested_tokens b.
Proof.
  intros Hnd. revert bs i. induction Hnd as [|l' ls Hnin Hnd IH]; intros [|b' bs] [|i] Hl Hb; simplify_eq/=.
  - rewrite decide_True by done. assert (∀ bs, taken bs ls l = 0) as ->; [|lia].
    intros bs'. revert bs'. clear IH Hnd. induction ls as [|l1 ls IH]; intros [|b1 bs']; try done. simpl.
    apply not_elem_of_cons in Hnin as [? ?]. rewrite decide_False by done. by rewrite IH.
  - rewrite decide_False by (intros ->; apply Hnin; by eapply list_elem_of_lookup_2).
    rewrite (IH _ _ Hl Hb). lia.
Qed.

Lemma taken_none bs ls l : l ∉ ls → taken bs ls l = 0.
Proof.
  revert bs. induction ls as [|l1 ls IH]; intros [|b1 bs] Hnin; try done. simpl.
  apply not_elem_of_cons in Hnin as [? ?]. rewrite decide_False by done. by rewrite IH.
Qed.

Context `{!TimeframeManagerLaws M serves}.
#[local] Set Default Proof Using "Type*".

(** A transaction goes to a stage, the timeframes at its locations to [fl']. *)
Lemma transactions_step_invariant σ0 s s' ts tid t fl fl' :
  invariant σ0 (mkSystem s ts) → kept (serves := serves) s s' →
  request_ok tid (budgets t) → serves s (times t) (locations t) →
  read_all (shared_frames s) (locations t) = Some fl →
  (∀ t0, ts !! tid = Some t0 → locations t0 = locations t) →
  shared_frames s' = write_all (shared_frames s) (locations t) fl' →
  Forall2 (changed_by tid) fl fl' → Forall valid_frame fl' → stage_ok tid t fl' →
  (∀ l f f', shared_frames s !! l = Some f → shared_frames s' !! l = Some f' →
     token_count f' + spent_by t l = token_count f + from_option (λ t0, spent_by t0 l) 0 (ts !! tid)) →
  invariant σ0 (mkSystem s' (<[tid := t]> ts)).
Proof.
  intros [It Il Ik] Hk Hreq Hs Hfl Hloc Hfs Hch Hv Hst Htok. simpl in *.
  destruct (serves_frames s _ _ Hs) as (_ & Hnd & _).
  pose proof (read_all_length _ _ _ Hfl) as Hlen. pose proof (Forall2_length _ _ _ Hch) as Hlen'.
  constructor; simpl.
  - intros tid1 t1 [[<- <-]|[Hne Ht1]]%lookup_insert_Some.
    + split_and!; [done|by apply Hk|]. exists fl'. rewrite Hfs. split; [|done]. apply read_write; [done|lia].
    + destruct (It _ _ Ht1) as (Hreq1 & Hs1 & fl1 & Hfl1 & Hst1).
      destruct (read_all_changed _ _ _ _ _ _ _ Hnd Hfl Hch Hfl1) as (fl1' & Hfl1' & Hch1).
      split_and!; [done|by apply Hk|]. exists fl1'. rewrite Hfs. split; [done|].
      eapply (stage_ok_other tid1 _ _ _ tid); [congruence|by destruct Hreq1|done|done].
  - intros l f' Hl'. rewrite Hfs in Hl'. destruct (decide (l ∈ locations t)) as [Hin|Hnin].
    + destruct (write_all_lookup (shared_frames s) (locations t) fl' l Hnd) as (i & f1 & Hi & Hf1 & Hw); [lia|done|].
      assert (f1 = f') as -> by congruence.
      assert (valid_frame f') as Hvf by (rewrite Forall_forall in Hv; apply Hv; by eapply list_elem_of_lookup_2).
      split; [done|].
      destruct (Forall2_lookup_r _ _ _ _ _ Hch Hf1) as (f0 & Hf0 & [->|[_ [-> | ->]]]).
      * pose proof Hfl as Hm. apply mapM_Some in Hm.
        destruct (Forall2_lookup_l _ _ _ _ _ Hm Hi) as (f2 & Hf2 & Hl2). assert (f2 = f0) as -> by congruence.
        destruct (Il l f0 Hl2) as [_ [?|(t1 & Ht1 & ?)]]; [by left|right].
        destruct (decide (active_transaction_id f0 = tid)) as [->|Hne].
        -- exists t. split; [apply lookup_insert_eq|done].
        -- exists t1. by rewrite lookup_insert_ne.
      * right. exists t. split; [apply lookup_insert_eq|done].
      * by left.
    + rewrite write_all_other in Hl' by done. destruct (Il l f' Hl') as [Hvf Hact]. split; [done|].
      destruct Hact as [?|(t1 & Ht1 & Hin1)]; [by left|right].
      destruct (decide (active_transaction_id f' = tid)) as [Heq|Hne].
      * rewrite Heq in *. exfalso. apply Hnin. by rewrite <- (Hloc _ Ht1).
      * exists t1. by rewrite lookup_insert_ne.
  - intros l f0 Hl0. destruct (Ik l f0 Hl0) as (f & Hf & Heq).
    assert (∃ f', shared_frames s' !! l = Some f') as [f' Hf'].
    { rewrite Hfs. destruct (decide (l ∈ locations t)) as [Hin|Hnin]; [|rewrite write_all_other; eauto].
      destruct (write_all_lookup (shared_frames s) (locations t) fl' l Hnd) as (i & f1 & _ & _ & Hw); [lia|done|eauto]. }
    exists f'. split; [done|]. rewrite spent_insert. specialize (Htok l f f' Hf Hf'). lia.
Qed.

Lemma write_commits tid bs fl :
  zip_with write_update (commits tid bs fl) fl = zip_with (λ b f, write_update (commit_update tid b f) f) bs fl.
Proof. revert bs. induction fl as [|f fl IH]; intros [|b bs]; try done. unfold commits in *. simpl. by rewrite IH. Qed.

Lemma write_releases tokens bs fl :
  zip_with write_update (releases tokens bs fl) fl
  = zip_with (λ b f, set_frame 0 kZeroUuid (tokens f) f) bs fl.
Proof. revert bs. induction fl as [|f fl IH]; intros [|b bs]; try done. unfold releases in *. simpl. by rewrite IH. Qed.

Lemma Forall2_zip_with_r {A B} (R : A → A → Prop) (g : B → A → A) (bs : list B) (fl : list A) :
  length fl = length bs → (∀ i b f, bs !! i = Some b → fl !! i = Some f → R f (g b f)) →
  Forall2 R fl (zip_with g bs fl).
Proof.
  revert bs. induction fl as [|f fl IH]; intros [|b bs] Hlen H; try done. simpl. constructor.
  - by apply (H 0%nat).
  - apply IH; [simpl in *; lia|]. intros i. apply (H (S i)).
Qed.

Lemma Forall_zip_with_at {A B} (P : A → Prop) (g : B → A → A) (bs : list B) (fl : list A) :
  (∀ i b f, bs !! i = Some b → fl !! i = Some f → P (g b f)) → Forall P (zip_with g bs fl).
Proof.
  intros H. apply Forall_lookup. intros i x Hx. apply lookup_zip_with_Some in Hx as (b & f & -> & Hb & Hf). eauto.
Qed.

Lemma fresh_free σ0 s ts tid ls fl : invariant σ0 (mkSystem s ts) → ts !! tid = None → tid ≠ kZeroUuid →
  read_all (shared_frames s) ls = Some fl → free_of tid fl.
Proof.
  intros [_ Il _] Ht Hz Hfl. apply Forall_forall. intros f Hf Heq.
  destruct (read_all_elem _ _ _ _ Hfl Hf) as (l & _ & Hl).
  destruct (Il l f Hl) as [_ [?|(t & Ht' & _)]]; [congruence|]. rewrite Heq in Ht'. simpl in *. congruence.
Qed.

Lemma serves_read s bs ls : serves s (time_bucket <$> bs) ls → bs ≠ [] →
  ∃ f fl, read_all (shared_frames s) ls = Some (f :: fl) ∧ length (f :: fl) = length bs.
Proof.
  intros Hs Hne. destruct (serves_frames s _ _ Hs) as (Hll & _ & Hv). rewrite length_fmap in Hll.
  assert (∃ fl, read_all (shared_frames s) ls = Some fl) as [fl Hfl].
  { clear Hs Hll. unfold read_all. apply mapM_is_Some_2. apply Forall_forall. intros l Hl.
    destruct (Hv l Hl) as (f & Hf & _). by exists f. }
  pose proof (read_all_length _ _ _ Hfl). destruct fl as [|f fl]; [destruct bs; simpl in *; [done|lia]|].
  exists f, fl. split; [done|lia].
Qed.

Lemma locked_frames tid bs fl : valid_uuid tid → Forall valid_frame fl → holds kZeroUuid fl →
  Forall2 (λ f f', changed_by tid f f' ∧ token_count f' = token_count f) fl (set_transaction tid <$> fl) ∧
  Forall valid_frame (set_transaction tid <$> fl) ∧
  holds tid (set_transaction tid <$> fl) ∧
  (Forall2 enough fl bs → Forall2 enough (set_transaction tid <$> fl) bs) ∧
  commits tid bs (set_transaction tid <$> fl) = commits tid bs fl.
Proof.
  intros Htid Hv H0. split_and!.
  - apply Forall2_fmap_r, Forall_Forall2_diag. eapply Forall_impl; [exact H0|]. intros f Hf. split; [right; split; [by right|by left]|done].
  - apply Forall_fmap. eapply Forall_impl; [exact Hv|]. intros f Hf. exact (proj1 (lock_valid tid f Htid Hf)).
  - apply Forall_fmap, Forall_true. done.
  - intros He. apply Forall2_fmap_l. eapply Forall2_impl; [exact He|]. intros f b Hb. exact Hb.
  - unfold commits. by rewrite zip_with_fmap_r.
Qed.

(** What a relation of the values at the locations says of each timeframe. *)
Lemma write_all_pointwise (R : BudgetKeyTimeframe → BudgetKeyTimeframe → Prop) (fs : FrameHeap) ls fl fl' l f f' :
  NoDup ls → read_all fs ls = Some fl → Forall2 R fl fl' →
  fs !! l = Some f → write_all fs ls fl' !! l = Some f' →
  ((l ∉ ls) ∧ f' = f) ∨ ∃ i, ls !! i = Some l ∧ fl !! i = Some f ∧ fl' !! i = Some f' ∧ R f f'.
Proof.
  intros Hnd Hfl HR Hf Hf'. pose proof (read_all_length _ _ _ Hfl). pose proof (Forall2_length _ _ _ HR).
  destruct (decide (l ∈ ls)) as [Hin|Hnin].
  - right. destruct (write_all_lookup fs ls fl' l Hnd) as (i & f1 & Hi & Hf1 & Hw); [lia|done|].
    apply mapM_Some in Hfl. destruct (Forall2_lookup_l _ _ _ _ _ Hfl Hi) as (f2 & Hf2 & Hl2).
    assert (f1 = f') as -> by congruence. assert (f2 = f) as -> by congruence.
    exists i. split_and!; [done|done|done|]. destruct (Forall2_lookup_l _ _ _ _ _ HR Hf2) as (f3 & Hf3 & ?).
    congruence.
  - left. split; [done|]. rewrite write_all_other in Hf' by done. congruence.
Qed.

(** The transaction counts as many tokens as before. *)
Definition same_spending (ts : gmap Uuid Transaction) (tid : Uuid) (t : Transaction) : Prop :=
  match ts !! tid with
  | Some t0 => locations t0 = locations t ∧ budgets t0 = budgets t ∧ spending (stage t0) = spending (stage t)
  | None => spending (stage t) = false
  end.

Lemma same_spent ts tid t l : same_spending ts tid t → from_option (λ t0, spent_by t0 l) 0 (ts !! tid) = spent_by t l.
Proof.
  clear. unfold same_spending, spent_by. destruct (ts !! tid) as [t0|]; simpl; [by intros (-> & -> & ->)|by intros ->].
Qed.

Lemma same_locations ts tid t t0 : same_spending ts tid t → ts !! tid = Some t0 → locations t0 = locations t.
Proof. clear. unfold same_spending. intros Hs Ht. rewrite Ht in Hs. by destruct Hs. Qed.

Lemma at_stage_spending ts tid t st : ts !! tid = Some t → spending (stage t) = spending st →
  same_spending ts tid (at_stage st t).
Proof. clear. unfold same_spending. by intros ->. Qed.

(** A step that leaves the tokens of the timeframes. *)
Lemma lock_invariant σ0 s s' ts tid t fl fl' :
  invariant σ0 (mkSystem s ts) → kept (serves := serves) s s' →
  request_ok tid (budgets t) → serves s (times t) (locations t) →
  read_all (shared_frames s) (locations t) = Some fl → same_spending ts tid t →
  shared_frames s' = write_all (shared_frames s) (locations t) fl' →
  Forall2 (λ f f', changed_by tid f f' ∧ token_count f' = token_count f) fl fl' →
  Forall valid_frame fl' → stage_ok tid t fl' →
  invariant σ0 (mkSystem s' (<[tid := t]> ts)).
Proof.
  intros I Hk Hreq Hs Hfl Hold Hfs Hch Hv Hst.
  destruct (serves_frames s _ _ Hs) as (_ & Hnd & _).
  apply (transactions_step_invariant σ0 s s' ts tid t fl fl'); try done.
  - intros t0. by apply same_locations.
  - eapply Forall2_impl; [done|]. by intros ?? [].
  - intros l f f' Hf Hf'. rewrite Hfs in Hf'. rewrite (same_spent _ _ _ l Hold).
    destruct (write_all_pointwise _ _ _ _ _ _ _ _ Hnd Hfl Hch Hf Hf') as [[_ ->]|(i & _ & _ & _ & _ & ->)]; lia.
Qed.

(** A call that changes no timeframe. *)
Lemma quiet_invariant σ0 s s' ts tid t fl :
  invariant σ0 (mkSystem s ts) → kept (serves := serves) s s' →
  request_ok tid (budgets t) → serves s (times t) (locations t) →
  read_all (shared_frames s) (locations t) = Some fl → same_spending ts tid t →
  shared_frames s' = shared_frames s → stage_ok tid t fl →
  invariant σ0 (mkSystem s' (<[tid := t]> ts)).
Proof.
  intros I Hk Hreq Hs Hfl Hold Hfs Hst.
  apply (lock_invariant σ0 s s' ts tid t fl fl); try done.
  - rewrite (write_all_read _ _ _ Hfl). done.
  - apply Forall_Forall2_diag, Forall_true. intros f. split; [by left|done].
  - by eapply frames_valid.
Qed.

(** A commit by a transaction that holds none of its hours. *)
Lemma commit_invariant σ0 a s ts tid bs ls s' o : invariant σ0 (mkSystem s ts) →
  (∀ fl, read_all (shared_frames s) ls = Some fl → free_of tid fl) →
  request_ok tid bs → serves s (time_bucket <$> bs) ls →
  (∀ st, spending st = false → same_spending ts tid (mkTransaction bs ls st)) →
  call a s CommitPhase tid bs = Some (s', o) →
  invariant σ0 (mkSystem s' (<[tid := mkTransaction bs ls (after CommitPhase o)]> ts)).
Proof.
  intros I Hfree Hreq Hs Hold Hcall. pose proof Hreq as (Hz & Htid & Hne & _).
  destruct (serves_read s bs ls Hs Hne) as (f & fl & Hfl & Hlen). set (fl0 := f :: fl) in *.
  destruct (call_commit a s tid bs ls fl0 Hs Hfl Hne Hz Htid (Hfree _ Hfl)) as (s1 & o1 & Hc & Hk & He).
  rewrite Hcall in Hc. injection Hc as <- <-.
  pose proof (frames_valid s _ _ _ Hs Hfl) as Hv.
  destruct He as [(r & -> & Hr & Hf)|[(-> & H0 & Hf)|(q & -> & H0 & Hen & Hf & Hq)]].
  - apply (quiet_invariant σ0 s s' ts tid _ fl0); try done; simpl; rewrite Hr; [by apply Hold|right; by apply Hfree].
  - destruct (locked_frames tid bs fl0 Htid Hv H0) as (L1 & L2 & L3 & _).
    apply (lock_invariant σ0 s s' ts tid _ fl0 (set_transaction tid <$> fl0)); try done; [by apply Hold|by left].
  - destruct (locked_frames tid bs fl0 Htid Hv H0) as (L1 & L2 & L3 & L4 & L5).
    apply (lock_invariant σ0 s s' ts tid _ fl0 (set_transaction tid <$> fl0)); try done; [by apply Hold|].
    split; [split; [done|by apply L4]|].
    change (waits_for CommitPhase tid ls (commits tid bs (set_transaction tid <$> fl0)) q). by rewrite L5.
Qed.

(** The values of a transaction's timeframes, and the tokens it counts. *)
Lemma current σ0 s ts tid t : invariant σ0 (mkSystem s ts) → ts !! tid = Some t →
  request_ok tid (budgets t) ∧ serves s (times t) (locations t) ∧
  ∃ f fl, read_all (shared_frames s) (locations t) = Some (f :: fl) ∧ length (f :: fl) = length (budgets t) ∧
    Forall valid_frame (f :: fl) ∧ stage_ok tid t (f :: fl).
Proof.
  intros [It _ _] Ht. destruct (It _ _ Ht) as (Hreq & Hs & fl & Hfl & Hst). simpl in *.
  split_and!; [done|done|]. destruct (serves_read s _ _ Hs) as (f & fl' & Hfl' & Hlen); [by apply Hreq|].
  assert (fl = f :: fl') as -> by congruence. exists f, fl'. split_and!; [done|done| |done].
  by eapply frames_valid.
Qed.

(** The call that ends a transaction. *)
Lemma end_current σ0 a s ts tid t p : invariant σ0 (mkSystem s ts) → ends p → ts !! tid = Some t →
  ∃ s' o fl, call a s p tid (budgets t) = Some (s', o) ∧ kept (serves := serves) s s' ∧
    shared_frames s' = shared_frames s ∧
    read_all (shared_frames s) (locations t) = Some fl ∧ stage_ok tid t fl ∧
    (holds tid fl → ∃ q, o = Waiting q ∧
       waits_for p tid (locations t) (releases (phase_tokens p) (budgets t) fl) q) ∧
    (free_of tid fl → o = Finished SuccessExecutionResult).
Proof.
  intros I Hp Ht. destruct (current σ0 s ts tid t I Ht) as (Hreq & Hs & f & fl & Hfl & Hlen & Hv & Hst).
  destruct (call_end a s p tid (budgets t) (locations t) f fl Hp Hs Hfl) as (s1 & o1 & Hc & Hk & Hf & He);
    [by apply Hreq|]. exists s1, o1, (f :: fl). split_and!; try done.
  - intros Hh. apply Forall_cons in Hh as [Hh _]. by rewrite bool_decide_true in He.
  - intros Hh. apply Forall_cons in Hh as [Hh _]. by rewrite bool_decide_false in He.
Qed.

(** The values after the updates of each phase are written. *)
Lemma committed_frames tid bs fl : length fl = length bs → valid_uuid tid →
  Forall (λ b, is_u8 (requested_tokens b)) bs → Forall valid_frame fl → holds tid fl → Forall2 enough fl bs →
  let fl' := zip_with write_update (commits tid bs fl) fl in
  Forall2 (λ f f', changed_by tid f f' ∧ token_count f' = token_count f) fl fl' ∧
  Forall valid_frame fl' ∧ holds tid fl' ∧ counted bs fl'.
Proof.
  intros Hlen Htid Hreq Hv Hh Hen. cbn zeta. rewrite write_commits.
  rewrite Forall_lookup in Hreq. rewrite Forall_lookup in Hv. unfold holds in Hh. rewrite Forall_lookup in Hh.
  assert (∀ i b f, bs !! i = Some b → fl !! i = Some f →
    0 ≤ token_count f - requested_tokens b < 2 ^ 8) as Hrange.
  { intros i b f Hb Hf. destruct (Forall2_lookup_l _ _ _ _ _ Hen Hf) as (b' & Hb' & He).
    assert (b' = b) as -> by congruence. unfold enough in He. destruct (Hv i f Hf) as (_ & Ht & _).
    specialize (Hreq i b Hb). unfold is_u8 in *. simpl in *. lia. }
  split_and!.
  - apply Forall2_zip_with_r; [done|]. intros i b f Hb Hf. split; [|done]. right. split; left; [by eapply Hh|done].
  - apply Forall_zip_with_at. intros i b f Hb Hf. destruct (Hv i f Hf) as (? & ? & ? & ?).
    split_and!; [done|done|apply u8_range|done].
  - by apply Forall_zip_with_at.
  - clear Hv Hh. apply Forall2_same_length_lookup_2; [rewrite length_zip_with; lia|].
    intros i f' b Hf' Hb. apply lookup_zip_with_Some in Hf' as (b' & f & -> & Hb' & Hf).
    assert (b' = b) as -> by congruence. specialize (Hrange i b f Hb Hf).
    split; [unfold enough; simpl; lia|]. simpl. by rewrite u8_id.
Qed.

Lemma released_frames tokens tid bs fl : length fl = length bs → tid ≠ kZeroUuid →
  (∀ i b f, bs !! i = Some b → fl !! i = Some f → is_u8 (tokens f)) → Forall valid_frame fl → holds tid fl →
  let fl' := zip_with write_update (releases tokens bs fl) fl in
  Forall2 (λ f f', changed_by tid f f' ∧ token_count f' = tokens f) fl fl' ∧
  Forall valid_frame fl' ∧ free_of tid fl'.
Proof.
  intros Hlen Hz Htok Hv Hh. cbn zeta. rewrite write_releases. unfold holds in Hh.
  rewrite Forall_lookup in Hv. rewrite Forall_lookup in Hh.
  split_and!.
  - apply Forall2_zip_with_r; [done|]. intros i b f Hb Hf. split; [|done].
    right. split; [left; by eapply Hh|by right].
  - apply Forall_zip_with_at. intros i b f Hb Hf. destruct (Hv i f Hf) as (? & _).
    split_and!; [done|by eapply Htok|done|apply zero_valid].
  - by apply Forall_zip_with_at.
Qed.

Lemma releases_released tokens bs fl :
  Forall (λ u, u = release_update (reporting_time u) (update_token_count u)) (releases tokens bs fl).
Proof. apply Forall_zip_with. done. Qed.

(** The answer to the log a transaction waits for: the manager's part. *)
Lemma logged_current σ0 a s ts tid t p q r : invariant σ0 (mkSystem s ts) → ts !! tid = Some t →
  stage t = Journaling p q →
  ∃ s' fl, logged a s q r = Some (s', FinishUpdate (update_of q) r) ∧ kept (serves := serves) s s' ∧
    read_all (shared_frames s) (locations t) = Some fl ∧ length fl = length (budgets t) ∧ Forall valid_frame fl ∧
    journaling_ok tid t fl p ∧ waits_for p tid (locations t) (phase_updates p tid (budgets t) fl) q ∧
    shared_frames s' = if Successful r
      then write_all (shared_frames s) (locations t) (zip_with write_update (phase_updates p tid (budgets t) fl) fl)
      else shared_frames s.
Proof.
  intros I Ht Hst. destruct (current σ0 s ts tid t I Ht) as (Hreq & Hs & f & fl & Hfl & Hlen & Hv & Hok).
  pose proof Hreq as (Hz & Htid & _). pose proof (serves_in_range s _ _ Hs) as Hrange.
  unfold stage_ok in Hok. rewrite Hst in Hok. destruct Hok as [Hok Hq].
  destruct (logged_effect a s p tid (locations t) (phase_updates p tid (budgets t) (f :: fl)) (f :: fl) q r Hq)
    as (s1 & Ha & Hk & Hf).
  - destruct p; cbn [phase_updates]; first [by rewrite commits_times|by rewrite releases_reporting].
  - destruct p; cbn [phase_updates]; first [by apply commits_valid|
      apply releases_valid; [done|apply phase_tokens_valid|done]].
  - done.
  - by exists s1, (f :: fl).
Qed.

Lemma phase_updates_length p tid bs fl : length fl = length bs → length (phase_updates p tid bs fl) = length fl.
Proof. clear. intros Hlen. destruct p; simpl; unfold commits, releases; rewrite length_zip_with; lia. Qed.

(** Writing twice is writing once. *)
Lemma write_updates_again us fl : length us = length fl →
  zip_with write_update us (zip_with write_update us fl) = zip_with write_update us fl.
Proof.
  clear. revert fl. induction us as [|u us IH]; intros [|f fl] Hlen; try done. simpl. by rewrite IH by (simpl in *; lia).
Qed.

Lemma logged_invariant σ0 a s ts tid t p q r s' finish : invariant σ0 (mkSystem s ts) → ts !! tid = Some t →
  stage t = Journaling p q → logged a s q r = Some (s', finish) →
  invariant σ0 (mkSystem s' (<[tid := at_stage (Settling p q finish) t]> ts)).
Proof.
  intros I Ht Hst Ha. destruct (current σ0 s ts tid t I Ht) as (Hreq & Hs & _).
  destruct (logged_current σ0 a s ts tid t p q r I Ht Hst) as (s1 & fl & Ha' & Hk & Hfl & Hlen & Hv & [Hh Hok] & Hq & Hf).
  rewrite Ha in Ha'. injection Ha' as <- ->. pose proof (read_all_length _ _ _ Hfl) as Hll.
  set (us := phase_updates p tid (budgets t) fl) in *.
  assert (length us = length fl) as Hus by (by apply phase_updates_length).
  destruct (serves_frames s _ _ Hs) as (_ & Hnd & _).
  assert (∀ fl', settling_ok tid t fl' p q r us →
    stage_ok tid (at_stage (Settling p q (FinishUpdate (update_of q) r)) t) fl') as Hstage
    by (intros fl' ?; exists r, us; split; [done|exact H]).
  destruct (Successful r) eqn:Hr; last first.
  { apply (quiet_invariant σ0 s s' ts tid _ fl); try done.
    - apply at_stage_spending; [done|]. rewrite Hst. simpl. rewrite Hr. by destruct p.
    - apply Hstage. split; [done|]. split; [lia|]. rewrite Hr. by destruct p. }
  destruct p; [done| | |].
  - destruct (committed_frames tid (budgets t) fl) as (C1 & C2 & C3 & C4); try done; [by apply Hreq..|].
    eapply (lock_invariant σ0 s s' ts tid _ fl); try done.
    + apply at_stage_spending; [done|]. by rewrite Hst.
    + apply Hstage. split; [done|]. split; [lia|]. split; [exact C3|]. intros _. split; [exact C4|].
      by apply write_updates_again.
  - destruct (released_frames active_token_count tid (budgets t) fl) as (C1 & C2 & C3); try done; [by apply Hreq| |].
    { intros i b f0 _ Hf0. rewrite Forall_lookup in Hv. by destruct (Hv i f0 Hf0) as (_ & _ & ? & _). }
    eapply (transactions_step_invariant σ0 s s' ts tid _ fl); try done.
    + intros t0. rewrite Ht. by intros [= <-].
    + eapply Forall2_impl; [exact C1|by intros ?? [? _]].
    + apply Hstage. split; [done|]. split; [lia|]. rewrite Hr. exact C3.
    + intros l f1 f2 Hf1 Hf2. rewrite Hf in Hf2. rewrite Ht. unfold spent_by. simpl. rewrite Hst, Hr. simpl.
      destruct (write_all_pointwise _ _ _ _ _ _ _ _ Hnd Hfl C1 Hf1 Hf2) as [[Hnin ->]|(i & Hi & Hi1 & _ & _ & ->)].
      * rewrite taken_none by done. lia.
      * destruct (Forall2_lookup_l _ _ _ _ _ Hok Hi1) as (b & Hb & _ & ->).
        rewrite (taken_at _ _ i b l Hnd Hi Hb). lia.
  - destruct (released_frames token_count tid (budgets t) fl) as (C1 & C2 & C3); try done; [by apply Hreq| |].
    { intros i b f0 _ Hf0. rewrite Forall_lookup in Hv. by destruct (Hv i f0 Hf0) as (_ & ? & _). }
    eapply (lock_invariant σ0 s s' ts tid _ fl); try done.
    + apply at_stage_spending; [done|]. by rewrite Hst.
    + apply Hstage. split; [done|]. split; [lia|]. rewrite Hr. exact C3.
Qed.

(** Its callback. *)
Lemma settled_current σ0 a s ts tid t p q finish : invariant σ0 (mkSystem s ts) → ts !! tid = Some t →
  stage t = Settling p q finish → succeeded finish && overtaken s q = false →
  ∃ s' fl r us, settled a s q finish = Some (s', Finished r) ∧ finish = FinishUpdate (update_of q) r ∧
    kept (serves := serves) s s' ∧ read_all (shared_frames s) (locations t) = Some fl ∧
    settling_ok tid t fl p q r us ∧ shared_frames s' = shared_frames s.
Proof.
  intros I Ht Hst Hov. destruct (current σ0 s ts tid t I Ht) as (Hreq & Hs & f & fl & Hfl & Hlen & Hv & Hok).
  unfold stage_ok in Hok. rewrite Hst in Hok. destruct Hok as (r & us & -> & Hok). pose proof Hok as (Hw & Hus & Hp).
  simpl in Hov.
  destruct (settled_effect a s p tid (locations t) us (f :: fl) q r Hw) as (s1 & Ha & Hk & Hf).
  - destruct p; [done|by left|right; by left|right; by right].
  - done.
  - done.
  - intros Hr ->. by apply Hp.
  - intros Hr ->. by rewrite Hr in Hov.
  - intros Hr ->. by rewrite Hr in Hp.
  - by exists s1, (f :: fl), r, us.
Qed.

Lemma settled_invariant σ0 a s ts tid t p q finish s' o : invariant σ0 (mkSystem s ts) → ts !! tid = Some t →
  stage t = Settling p q finish → succeeded finish && overtaken s q = false → settled a s q finish = Some (s', o) →
  invariant σ0 (mkSystem s' (<[tid := at_stage (after p o) t]> ts)).
Proof.
  intros I Ht Hst Hov Ha. destruct (current σ0 s ts tid t I Ht) as (Hreq & Hs & _).
  destruct (settled_current σ0 a s ts tid t p q finish I Ht Hst Hov)
    as (s1 & fl & r & us & Ha' & -> & Hk & Hfl & (_ & _ & Hp) & Hf).
  rewrite Ha in Ha'. injection Ha' as <- ->.
  apply (quiet_invariant σ0 s s' ts tid _ fl); try done.
  - apply at_stage_spending; [done|]. rewrite Hst. simpl. destruct p, (Successful r); done.
  - unfold stage_ok. simpl. destruct p; [done| | |]; destruct (Successful r) eqn:Hr; simpl in Hp; try done.
    + destruct Hp as [? Hp]. split; [done|]. by apply Hp.
    + left. by destruct Hp.
    + by left.
Qed.

(** ** The theorem *)

Lemma notify_invariant σ0 a s ts tid t s' o : invariant σ0 (mkSystem s ts) → ts !! tid = Some t →
  stage t = Committed ∨ stage t = Notified → call a s NotifyPhase tid (budgets t) = Some (s', o) →
  invariant σ0 (mkSystem s' (<[tid := at_stage (after NotifyPhase o) t]> ts)).
Proof.
  intros I Ht Hst Hcall. destruct (current σ0 s ts tid t I Ht) as (Hreq & Hs & _).
  destruct (end_current σ0 a s ts tid t NotifyPhase I (or_introl eq_refl) Ht)
    as (s1 & o1 & fl & Hc & Hk & Hf & Hfl & Hok & Hwait & Hdone). rewrite Hcall in Hc. injection Hc as <- <-.
  unfold stage_ok in Hok. destruct Hst as [Hst|Hst]; rewrite Hst in Hok.
  - destruct Hok as [Hh Hcnt]. destruct (Hwait Hh) as (q & -> & Hq).
    apply (quiet_invariant σ0 s s' ts tid _ fl); try done. apply at_stage_spending; [done|]. by rewrite Hst.
  - rewrite (Hdone Hok). apply (quiet_invariant σ0 s s' ts tid _ fl); try done.
    apply at_stage_spending; [done|]. by rewrite Hst.
Qed.

Lemma abort_invariant σ0 a s ts tid t s' o : invariant σ0 (mkSystem s ts) → ts !! tid = Some t →
  stage t = Committed ∨ stage t = Failed ∨ stage t = Aborted → call a s AbortPhase tid (budgets t) = Some (s', o) →
  invariant σ0 (mkSystem s' (<[tid := at_stage (after AbortPhase o) t]> ts)).
Proof.
  intros I Ht Hst Hcall. destruct (current σ0 s ts tid t I Ht) as (Hreq & Hs & _).
  destruct (end_current σ0 a s ts tid t AbortPhase I (or_intror eq_refl) Ht)
    as (s1 & o1 & fl & Hc & Hk & Hf & Hfl & Hok & Hwait & Hdone). rewrite Hcall in Hc. injection Hc as <- <-.
  assert (holds tid fl ∨ free_of tid fl) as Hlocks
    by (unfold stage_ok in Hok; destruct Hst as [Hst|[Hst|Hst]]; rewrite Hst in Hok; [left; apply Hok|done|by right]).
  assert (∀ st, spending st = false → same_spending ts tid (at_stage st t)) as Hold.
  { intros st Hsp. apply at_stage_spending; [done|]. by destruct Hst as [-> |[-> | ->]]. }
  destruct Hlocks as [Hh|Hh].
  - destruct (Hwait Hh) as (q & -> & Hq). apply (quiet_invariant σ0 s s' ts tid _ fl); try done. by apply Hold.
  - rewrite (Hdone Hh). apply (quiet_invariant σ0 s s' ts tid _ fl); try done. by apply Hold.
Qed.

Lemma holds_lock σ0 s ts tid t fl : invariant σ0 (mkSystem s ts) → ts !! tid = Some t →
  read_all (shared_frames s) (locations t) = Some fl → holds tid fl → keeps_lock s tid t = true.
Proof.
  intros I Ht Hfl Hh. destruct (current σ0 s ts tid t I Ht) as (_ & _ & f & fl' & Hfl' & _).
  assert (fl = f :: fl') as -> by congruence. apply Forall_cons in Hh as [Hh _]. unfold keeps_lock.
  destruct (locations t) as [|l ls]; [done|]. apply read_all_cons in Hfl as (f0 & fl0 & [= <- <-] & Hf & _).
  simpl. rewrite Hf. by apply bool_decide_eq_true.
Qed.

Lemma commit_again_invariant σ0 a s ts tid t s' o : invariant σ0 (mkSystem s ts) → ts !! tid = Some t →
  stage t = Committed ∨ stage t = Failed ∨ stage t = Aborted → is_failed (stage t) && keeps_lock s tid t = false →
  call a s CommitPhase tid (budgets t) = Some (s', o) →
  invariant σ0 (mkSystem s' (<[tid := at_stage (after CommitPhase o) t]> ts)).
Proof.
  intros I Ht Hst Hno Hcall. destruct (current σ0 s ts tid t I Ht) as (Hreq & Hs & f & fl & Hfl & _ & _ & Hok).
  assert (∀ st, spending st = false → same_spending ts tid (at_stage st t)) as Hold.
  { intros st Hsp. apply at_stage_spending; [done|]. by destruct Hst as [-> |[-> | ->]]. }
  assert (stage t = Committed ∨ free_of tid (f :: fl)) as [Hc|Hfree].
  { unfold stage_ok in Hok. destruct Hst as [Hst|[Hst|Hst]]; rewrite Hst in Hok; [by left| |by right].
    destruct Hok as [Hh|Hh]; [|by right]. rewrite Hst in Hno. simpl in Hno.
    by rewrite (holds_lock σ0 s ts tid t _ I Ht Hfl Hh) in Hno. }
  - unfold stage_ok in Hok. rewrite Hc in Hok. destruct Hok as [Hh Hcnt].
    destruct (call_commit_again a s tid (budgets t) (locations t) (f :: fl) Hs Hfl) as (s1 & r & Hcall' & Hk & Hf & Hr);
      [by apply Hreq|by apply Hreq|exact Hh|]. rewrite Hcall in Hcall'. injection Hcall' as <- ->.
    apply (quiet_invariant σ0 s s' ts tid _ (f :: fl)); try done.
    + apply Hold. destruct Hr as [-> | Hr]; [done|]. simpl. by rewrite Hr.
    + destruct Hr as [-> | Hr]; [done|]. unfold stage_ok. simpl. rewrite Hr. by left.
  - apply (commit_invariant σ0 a s ts tid (budgets t) (locations t) s' o I); try done.
    intros fl0 Hfl0. by assert (fl0 = f :: fl) as -> by congruence.
Qed.

(** Work that leaves the transactions and the timeframes. *)
Lemma other_invariant σ0 s ts s' : invariant σ0 (mkSystem s ts) →
  shared_frames s' = shared_frames s → kept (serves := serves) s s' → invariant σ0 (mkSystem s' ts).
Proof.
  intros [It Il Ik] Hf Hk. constructor; simpl in *.
  - intros tid t Ht. destruct (It _ _ Ht) as (Hreq & Hs & fl & Hfl & Hok).
    split_and!; [done|by apply Hk|]. exists fl. by rewrite Hf.
  - by rewrite Hf.
  - by rewrite Hf.
Qed.

Lemma step_keeps σ0 σ σ' : invariant σ0 σ → step σ [] σ' → invariant σ0 σ'.
Proof.
  remember [] as es eqn:Hes. intros I Hstep.
  destruct Hstep as [a s ts tid bs ls s' o (Hz & _ & Hne & _) Hs Hc|a s ts tid bs ls s' o Ht Hreq Hs Hc
    |a s ts tid t s' o Ht Hst Hc|a s ts tid t s' o Ht Hst Hc|a s ts tid t s' o Ht Hst Hc
    |a s ts tid t p q r s' finish Ht Hst Ha|a s ts tid t p q finish s' o Ht Hst Ha|s ts s' Hf Hk].
  - destruct (serves_read s bs ls Hs Hne) as (f & fl & Hfl & _).
    destruct (call_prepare a s tid bs ls (f :: fl) Hs Hfl Hne Hz) as (s1 & Hc' & Hk & Hf).
    rewrite Hc in Hc'. injection Hc' as -> ->. by eapply other_invariant.
  - eapply commit_invariant; try done; [|by intros st Hsp; unfold same_spending; rewrite Ht].
    intros fl Hfl. eapply fresh_free; try done. apply Hreq.
  - eapply commit_again_invariant; try done. by destruct (_ && _).
  - by eapply notify_invariant.
  - by eapply abort_invariant.
  - by eapply logged_invariant.
  - eapply settled_invariant; try done. by destruct (_ && _).
  - by eapply other_invariant.
Qed.

Lemma transactions_reachable_invariant σ0 σ : initial σ0 → run σ0 [] σ → invariant σ0 σ.
Proof.
  intros H0 Hr. remember [] as es eqn:Hes. induction Hr as [|es σ1 es' σ2 Hr IH Hstep].
  - by apply transactions_initial_invariant.
  - apply app_eq_nil in Hes as [-> ->]. eapply step_keeps; [by apply IH|done].
Qed.

(** The transaction holds its timeframes. *)
Definition holding (t : Transaction) : Prop :=
  match stage t with
  | Committed | Journaling _ _ | Settling CommitPhase _ _ => True
  | Settling _ _ finish => succeeded finish = false
  | _ => False
  end.

Lemma holding_active σ0 σ tid t l : invariant σ0 σ → transactions σ !! tid = Some t → holding t → l ∈ locations t →
  ∃ f, shared_frames (manager σ) !! l = Some f ∧ active_transaction_id f = tid.
Proof.
  intros [It _ _] Ht Hh Hl. destruct (It _ _ Ht) as (_ & _ & fl & Hfl & Hok).
  destruct (read_all_lookup _ _ _ _ Hfl Hl) as (f & Hf & Hin). exists f. split; [done|].
  assert (holds tid fl) as H.
  { unfold stage_ok, holding in *. destruct (stage t) as [| | | |p q|p q finish]; [by destruct Hok|done|done|done|by apply Hok|].
    destruct Hok as (r & us & -> & _ & _ & Hp). simpl in Hh. destruct p; [done|by destruct Hp| |]; rewrite Hh in Hp;
      [by destruct Hp|done]. }
  unfold holds in H. rewrite Forall_forall in H. by apply H.
Qed.

(** C1: phases of transactions of the two protocols interleave, with the
    journal's answers and the callbacks of the answers as steps of their own,
    and phases that have ended are repeated. In every run from a state without
    transactions in which no transaction repeats a commit that failed while it
    still has its lock, and no notification's callback writes an hour that was
    changed since the manager released it - the two ways in which the code loses
    tokens -, at every hour the tokens left and those of the notified
    transactions are the tokens there were, so never more is consumed than there
    was; no two transactions hold the same hour; the notification of a committed
    transaction always gets to the journal; and every answer of the journal
    reaches the phase it is for, which ends with that answer. *)
Theorem transactions_conserve_budget σ0 σ : initial σ0 → run σ0 [] σ →
  (∀ l f0, shared_frames (manager σ0) !! l = Some f0 →
     ∃ f, shared_frames (manager σ) !! l = Some f ∧ 0 ≤ token_count f ∧
       token_count f + spent (transactions σ) l = token_count f0) ∧
  (∀ tid1 tid2 t1 t2 l, transactions σ !! tid1 = Some t1 → transactions σ !! tid2 = Some t2 →
     holding t1 → holding t2 → l ∈ locations t1 → l ∈ locations t2 → tid1 = tid2) ∧
  (∀ a tid t, transactions σ !! tid = Some t → stage t = Committed →
     ∃ s' q, call a (manager σ) NotifyPhase tid (budgets t) = Some (s', Waiting q)) ∧
  (∀ a tid t p q r, transactions σ !! tid = Some t → stage t = Journaling p q →
     ∃ s', logged a (manager σ) q r = Some (s', FinishUpdate (update_of q) r)) ∧
  (∀ a tid t p q finish, transactions σ !! tid = Some t → stage t = Settling p q finish →
     succeeded finish && overtaken (manager σ) q = false →
     ∃ s' r, finish = FinishUpdate (update_of q) r ∧ settled a (manager σ) q finish = Some (s', Finished r)).
Proof.
  intros H0 Hr. pose proof (transactions_reachable_invariant σ0 σ H0 Hr) as I. split_and!.
  - intros l f0 Hl. destruct (inv_tokens _ _ I l f0 Hl) as (f & Hf & Heq). exists f. split_and!; [done| |done].
    destruct (inv_locks _ _ I l f Hf) as [(_ & [? _] & _) _]. done.
  - intros tid1 tid2 t1 t2 l H1 H2 Hh1 Hh2 Hl1 Hl2.
    destruct (holding_active _ _ _ _ _ I H1 Hh1 Hl1) as (f1 & Hf1 & <-).
    destruct (holding_active _ _ _ _ _ I H2 Hh2 Hl2) as (f2 & Hf2 & <-). congruence.
  - intros a tid t Ht Hst. destruct σ as [s ts].
    destruct (end_current σ0 a s ts tid t NotifyPhase I (or_introl eq_refl) Ht)
      as (s1 & o1 & fl & Hc & _ & _ & _ & Hok & Hwait & _).
    unfold stage_ok in Hok. rewrite Hst in Hok. destruct (Hwait (proj1 Hok)) as (q & -> & _). by exists s1, q.
  - intros a tid t p q r Ht Hst. destruct σ as [s ts].
    destruct (logged_current σ0 a s ts tid t p q r I Ht Hst) as (s' & fl & Ha & _). by exists s'.
  - intros a tid t p q finish Ht Hst Hov. destruct σ as [s ts].
    destruct (settled_current σ0 a s ts tid t p q finish I Ht Hst Hov) as (s' & fl & r & us & Ha & -> & _).
    by exists s', r.
Qed.

End system.
