(* ===== verification/ProtocolExamples.v ===== *)
(** * Examples of the transaction protocols

    The theorems about the protocols at the manager of [TimeframeExamples], with
    one day in memory. *)

From S2P Require Import Prelude ExecutionResult ErrorCodes Uuid ConcurrentMap Serialization AutoExpiryMap AutoExpiryView TimeframeUtils TimeframeLog TimeframeManager TimeframeCache TimeframeLoading TimeframeRecovery TimeframeExamples TransactionProtocol ConsumeBudgetProtocol BatchConsumeBudgetProtocol ProtocolManager ProtocolFrames ProtocolCalls ProtocolSystem.
From stdpp Require Import options.
Import ExampleProto.

Local Open Scope Z_scope.

#[local] Existing Instance timeframe_manager_laws.
#[local] Instance example_interface : TimeframeManagerInterface BudgetKeyTimeframeManager :=
  timeframe_manager "key" (mkUuid 5 6).
#[local] Instance example_laws : TimeframeManagerLaws BudgetKeyTimeframeManager served :=
  timeframe_manager_laws "key" (mkUuid 5 6).

(** The time of [TimeframeExamples], in the hour 22, and one in the hour before. *)
Definition earlier_time : Z := example_time - nanoseconds_per_hour.

Lemma example_served : served example_manager [example_time] [23%positive].
Proof.
  split; [apply example_one_day|]. split; [apply example_in_range|]. split; [apply example_valid_cache|].
  exists example_time, [], 1%positive, example_group. split; [done|].
  constructor; [apply example_cached|done|done|apply example_timeframes_valid|by vm_compute].
Qed.

Lemma example_served_two : served example_manager [earlier_time; example_time] [22%positive; 23%positive].
Proof.
  split; [by apply check_times_one_day|]. split; [repeat constructor; vm_compute; congruence|].
  split; [apply example_valid_cache|].
  exists earlier_time, [example_time], 1%positive, example_group. split; [done|].
  constructor; [apply example_cached|done|done|apply example_timeframes_valid|by vm_compute].
Qed.

Definition two_budgets (n : Z) : list BudgetConsumptionRequestInfo :=
  [mkConsumption earlier_time 1; mkConsumption example_time n].

(** The second of two budgets asks for more than there is. *)
Lemma batch_commit_all_or_nothing_witness :
  ∃ s' indices, let c := mkContext kZeroUuid (mkCommitBatchRequest (mkUuid 8 9) (two_budgets 2)) in
    shared_frames s' = shared_frames example_manager ∧ (∀ j, j ∈ indices ↔ j = 1%nat) ∧
    Batch.OnCommitBudgetKeyLoaded example_answers example_manager c
      (mkLoad kZeroUuid [earlier_time; example_time] (Some [22%positive; 23%positive])) SuccessExecutionResult
    = Some (s', [Batch.FinishCommit c
        (FailureExecutionResult SC_PBS_BUDGET_KEY_CONSUME_BUDGET_INSUFFICIENT_BUDGET) (Some indices)]).
Proof.
  destruct (batch_commit_all_or_nothing example_answers example_manager (mkUuid 8 9) (two_budgets 2)
    [22%positive; 23%positive] [mkFrame 21 1 kZeroUuid 0; mkFrame 22 1 kZeroUuid 0] kZeroUuid kZeroUuid
    example_served_two) as (s' & pi & _ & Hc); [by vm_compute|done|done|by vm_compute|by repeat constructor|].
  simpl in Hc. destruct Hc as (Hf & ci & Hc & Hi). destruct (Hi eq_refl) as (js & _ & Hjs & js' & -> & Hjs').
  exists s', js'. split; [exact Hf|]. split; [|exact Hc]. intros j. rewrite Hjs', Hjs. split.
  - intros (f & b & Hl & Hb & He). destruct j as [|[|j]]; [|done|done]. exfalso. injection Hl as <-.
    injection Hb as <-. apply He. unfold enough; simpl; lia.
  - intros ->. eexists _, _. split; [done|]. split; [done|]. unfold enough; simpl; lia.
Defined.

Lemma refused_commit_repeated_witness :
  ∃ s1 s2, call example_answers example_manager CommitPhase (mkUuid 8 9) [mkConsumption example_time 2]
    = Some (s1, Finished (FailureExecutionResult SC_PBS_BUDGET_KEY_CONSUME_BUDGET_INSUFFICIENT_BUDGET)) ∧
    call example_answers s1 CommitPhase (mkUuid 8 9) [mkConsumption example_time 2]
    = Some (s2, Finished SuccessExecutionResult).
Proof.
  destruct (refused_commit_repeated example_answers example_manager (mkUuid 8 9) (mkConsumption example_time 2)
    23%positive (mkFrame 22 1 kZeroUuid 0) example_served) as (s1 & s2 & s3 & q & H1 & H2 & _);
    [by vm_compute|done|by vm_compute|done|unfold enough; simpl; lia|].
  exists s1, s2. by split.
Defined.

(** The hour 22 with a committed transaction that leaves two of three tokens. *)
Definition committed_frame : BudgetKeyTimeframe := mkFrame 22 3 (mkUuid 8 9) 2.
Definition committed_manager : BudgetKeyTimeframeManager :=
  with_frames (<[23%positive := committed_frame]> example_frames) example_manager.

Lemma committed_served : served committed_manager [example_time] [23%positive].
Proof.
  apply (served_kept example_manager); [apply example_cache_well_formed|done|done| |apply example_served].
  intros l f Hf Hv. change (frame_heap example_manager) with example_frames in Hf.
  change (frame_heap committed_manager) with (<[23%positive := committed_frame]> example_frames).
  destruct (decide (23%positive = l)) as [<-|Hne].
  - pose proof (example_frames_lookup 22 ltac:(lia)) as Hf22. change (Pos.of_nat 23) with 23%positive in Hf22.
    change (example_frames !! 23%positive = Some f) in Hf. rewrite Hf22 in Hf. injection Hf as <-.
    exists committed_frame.
    rewrite lookup_insert_eq. split; [done|]. split; [|done].
    unfold valid_frame, is_u64, is_u8; simpl. split_and!; try lia. by vm_compute.
  - exists f. by rewrite lookup_insert_ne.
Qed.

Lemma late_notification_breaks_lock_witness :
  ∃ s1 s2 s3 s4 q2 q3,
    let c := mkContext kZeroUuid (mkNotifyRequest (mkUuid 8 9) example_time) in
    let ctx := mkUpdate kZeroUuid [release_update example_time 2] in
    manager_Logged example_answers committed_manager ctx [23%positive] SuccessExecutionResult
    = Some (s1, [FinishUpdate ctx SuccessExecutionResult]) ∧
    call example_answers s1 CommitPhase (mkUuid 1 1) [mkConsumption example_time 2] = Some (s2, Waiting q2) ∧
    One.OnNotifyLogged s2 23%positive c ctx SuccessExecutionResult
    = Some (s3, [One.FinishNotify c SuccessExecutionResult]) ∧
    call example_answers s3 CommitPhase (mkUuid 2 2) [mkConsumption example_time 2] = Some (s4, Waiting q3).
Proof.
  destruct (late_notification_breaks_lock example_answers committed_manager example_time 23%positive committed_frame
    (mkContext kZeroUuid (mkNotifyRequest (mkUuid 8 9) example_time))
    (mkUpdate kZeroUuid [release_update example_time 2]) (mkUuid 1 1) (mkUuid 2 2)
    (mkConsumption example_time 2) (mkConsumption example_time 2) committed_served)
    as (s1 & s2 & s3 & s4 & q2 & q3 & f & H1 & H2 & H3 & H4 & _);
    [apply lookup_insert_eq|done|done|done|by vm_compute|by vm_compute|done|done|simpl; lia|simpl; lia|].
  exists s1, s2, s3, s4, q2, q3. by split_and!.
Defined.

Lemma example_frames_initial l f : example_frames !! l = Some f → valid_frame f ∧ active_transaction_id f = kZeroUuid.
Proof.
  intros (i & [= -> ->] & Hi%elem_of_seq)%elem_of_list_to_map_2%list_elem_of_fmap.
  split; [|done]. unfold valid_frame, is_u64, is_u8; simpl. split_and!; try lia. by vm_compute.
Qed.

Lemma example_initial : initial (mkSystem example_manager ∅).
Proof. split; [done|exact example_frames_initial]. Qed.

(** *** Runs, evaluated *)

(** The steps of a transaction after its first commit. *)
Inductive Event := CommitAgain | NotifyIt | AbortIt | JournalAnswers (r : ExecutionResult) | CallBack.

Definition next_event (tid : Uuid) (e : Event) (σ : System (M := BudgetKeyTimeframeManager))
  : option (list Exception * System (M := BudgetKeyTimeframeManager)) :=
  let s := manager σ in
  t ← transactions σ !! tid;
  let to s st := mkSystem s (<[tid := at_stage st t]> (transactions σ)) in
  let called p := '(s, o) ← call example_answers s p tid (budgets t); Some (to s (after p o)) in
  match e, stage t with
  | CommitAgain, (Committed | Failed | Aborted) =>
      σ ← called CommitPhase;
      Some (if is_failed (stage t) && keeps_lock s tid t then [KeptLockCommitted] else [], σ)
  | NotifyIt, (Committed | Notified) => pair [] <$> called NotifyPhase
  | AbortIt, (Committed | Failed | Aborted) => pair [] <$> called AbortPhase
  | JournalAnswers r, Journaling p q =>
      '(s, finish) ← logged example_answers s q r; Some ([], to s (Settling p q finish))
  | CallBack, Settling p q finish =>
      '(s', o) ← settled example_answers s q finish;
      Some (if succeeded finish && overtaken s q then [NotificationOvertaken] else [], to s' (after p o))
  | _, _ => None
  end.

Fixpoint next_events (tid : Uuid) (events : list Event) (σ : System (M := BudgetKeyTimeframeManager))
  : option (list Exception * System (M := BudgetKeyTimeframeManager)) :=
  match events with
  | [] => Some ([], σ)
  | e :: events =>
      '(es, σ) ← next_event tid e σ;
      '(es', σ) ← next_events tid events σ;
      Some (es ++ es', σ)
  end.

Lemma next_event_step tid e σ es σ' : next_event tid e σ = Some (es, σ') → step served σ es σ'.
Proof.
  destruct σ as [s ts]. unfold next_event. cbn [manager transactions].
  destruct (ts !! tid) as [t|] eqn:Ht; [|done]. cbn [mbind option_bind].
  destruct e as [| | |r|], (stage t) as [| | | |p q|p q finish] eqn:Hst; try done; intros H;
    try (destruct (call _ _ _ _ _) as [[s' o]|] eqn:Hc; [|done]; injection H as <- <-);
    try (destruct (logged _ _ _ _) as [[s' finish]|] eqn:Hc; [|done]; injection H as <- <-);
    try (destruct (settled _ _ _ _) as [[s' o]|] eqn:Hc; [|done]; injection H as <- <-);
    first
      [ pose proof (step_commit_again served example_answers s ts tid t _ _ Ht ltac:(rewrite Hst; tauto) Hc) as Hstep;
        rewrite Hst in Hstep; exact Hstep
      | eapply step_notify; [exact Ht|rewrite Hst; tauto|exact Hc]
      | eapply step_abort; [exact Ht|rewrite Hst; tauto|exact Hc]
      | eapply step_logged; [exact Ht|exact Hst|exact Hc]
      | eapply step_settled; [exact Ht|exact Hst|exact Hc] ].
Qed.

Lemma next_events_run tid events σ0 es σ es' σ' :
  run served σ0 es σ → next_events tid events σ = Some (es', σ') → run served σ0 (es ++ es') σ'.
Proof.
  revert es σ es'. induction events as [|e events IH]; intros es σ es' Hr; simpl.
  - intros [= <- <-]. by rewrite app_nil_r.
  - destruct (next_event tid e σ) as [[es1 σ1]|] eqn:He; [|done]. simpl.
    destruct (next_events tid events σ1) as [[es2 σ2]|] eqn:Hes; [|done]. intros [= <- ->].
    rewrite app_assoc. eapply IH; [|exact Hes]. eapply run_step; [exact Hr|by apply next_event_step in He].
Qed.

(** The first commit, of [n] tokens. *)
Definition first_commit (n : Z) : option (System (M := BudgetKeyTimeframeManager)) :=
  '(s, o) ← call example_answers example_manager CommitPhase (mkUuid 8 9) [mkConsumption example_time n];
  Some (mkSystem s {[mkUuid 8 9 := mkTransaction [mkConsumption example_time n] [23%positive] (after CommitPhase o)]}).

Lemma first_commit_run n σ : is_u8 n → first_commit n = Some σ → run served (mkSystem example_manager ∅) [] σ.
Proof.
  intros Hn. unfold first_commit. destruct (call _ _ _ _ _) as [[s o]|] eqn:Hc; [|done]. intros [= <-].
  apply (run_step served _ [] (mkSystem example_manager ∅) []); [apply run_start|].
  rewrite <-insert_empty. eapply step_commit; [apply lookup_empty| |apply example_served|exact Hc].
  split; [done|]. split; [by vm_compute|]. split; [done|]. constructor; [exact Hn|constructor].
Qed.

Definition run_of (n : Z) (events : list Event) : option (list Exception * System (M := BudgetKeyTimeframeManager)) :=
  first_commit n ≫= next_events (mkUuid 8 9) events.

Lemma run_of_run n events es σ : is_u8 n → run_of n events = Some (es, σ) → run served (mkSystem example_manager ∅) es σ.
Proof.
  intros Hn. unfold run_of. destruct (first_commit n) as [σ1|] eqn:H1; [|done]. simpl. intros H.
  exact (next_events_run _ _ _ [] σ1 _ _ (first_commit_run _ _ Hn H1) H).
Qed.

(** The exceptions, the tokens left and the tokens consumed at the hour. *)
Definition tokens_after (o : option (list Exception * System (M := BudgetKeyTimeframeManager))) : option (list Exception * Z * Z) :=
  '(es, σ) ← o;
  f ← shared_frames (manager σ) !! 23%positive;
  Some (es, token_count f, spent (transactions σ) 23%positive).

(** A commit, its retry, and the notification, which is also repeated. *)
Definition whole_transaction : list Event :=
  [JournalAnswers SuccessExecutionResult; CallBack; CommitAgain; NotifyIt; JournalAnswers (RetryExecutionResult 1);
   CallBack; NotifyIt; JournalAnswers SuccessExecutionResult; CallBack; NotifyIt].

Lemma transactions_conserve_budget_witness :
  ∃ σ f, run served (mkSystem example_manager ∅) [] σ ∧ option_map stage (transactions σ !! mkUuid 8 9) = Some Notified ∧
    shared_frames (manager σ) !! 23%positive = Some f ∧ token_count f + spent (transactions σ) 23%positive = 1.
Proof.
  destruct (run_of 1 whole_transaction) as [[es σ]|] eqn:Hσ; [|vm_compute in Hσ; discriminate Hσ].
  assert (option_map (λ r, (r.1, option_map stage (transactions r.2 !! mkUuid 8 9))) (run_of 1 whole_transaction)
    = Some ([], Some Notified)) as Hs by (vm_compute; reflexivity).
  rewrite Hσ in Hs. injection Hs as -> Hstage.
  assert (run served (mkSystem example_manager ∅) [] σ) as Hr
    by (apply (run_of_run 1 whole_transaction); [split; [discriminate|reflexivity]|exact Hσ]).
  destruct (transactions_conserve_budget served (mkSystem example_manager ∅) σ example_initial Hr) as [Hb _].
  destruct (Hb 23%positive (mkFrame 22 1 kZeroUuid 0)) as (f & Hf & _ & Heq); [by vm_compute|].
  exists σ, f. split; [exact Hr|]. split; [exact Hstage|]. split; [exact Hf|exact Heq].
Defined.

(** Why the exceptions are told apart: a commit of two tokens where there is one
    is refused, and taken for a retry when it is repeated: two tokens are
    consumed. *)
Lemma refused_commit_consumes : ∃ σ f,
  run served (mkSystem example_manager ∅) [KeptLockCommitted] σ ∧
  shared_frames (manager σ) !! 23%positive = Some f ∧ token_count f + spent (transactions σ) 23%positive = 2.
Proof.
  pose (events := [CommitAgain; NotifyIt; JournalAnswers SuccessExecutionResult; CallBack]).
  assert (tokens_after (run_of 2 events) = Some ([KeptLockCommitted], 0, 2)) as Ht by (vm_compute; reflexivity).
  destruct (run_of 2 events) as [[es σ]|] eqn:Hσ; [|done]. simpl in Ht.
  destruct (frame_heap (manager σ) !! 23%positive) as [f|] eqn:Hf; [|done]. injection Ht as -> Htok Hsp.
  exists σ, f. split; [apply (run_of_run 2 events); [split; [discriminate|reflexivity]|exact Hσ]|].
  split; [exact Hf|]. rewrite Htok, Hsp. reflexivity.
Qed.
