(* ===== verification/ConsumeBudgetCommand.v ===== *)
(** * Commands of the budget service

    Models [cc/pbs/transactions/src/consume_budget_command_request_info.h],
    [consume_budget_command_base.h] and [consume_budget_command.{h,cc}]: the
    command of a transaction that consumes one budget. A phase function asks the
    dispatcher for the budget key; its callback dispatches the request of the
    phase to the key's protocol; the callback of that tells the engine. What a
    handler asks for is a [CommandAction]; [CommandRun] runs them through the
    dispatcher. *)

From S2P Require Import Prelude ExecutionResult ErrorCodes Uuid Dispatcher TransactionProtocol.
From stdpp Require Import options.

Local Open Scope Z_scope.

(** ** Request info *)

Record ConsumeBudgetCommandRequestInfo := mkRequestInfo {
  info_time_bucket : Z;
  info_token_count : Z;
  request_index : option Z; (* place of the budget in the client's request *)
}.

#[export] Instance ConsumeBudgetCommandRequestInfo_eq_dec : EqDecision ConsumeBudgetCommandRequestInfo.
Proof. solve_decision. Defined.

(** [operator==]: indices are compared when both are there. *)
Definition request_info_eqb (a b : ConsumeBudgetCommandRequestInfo) : bool :=
  if negb (info_time_bucket a =? info_time_bucket b) || negb (info_token_count a =? info_token_count b) then false
  else
    match request_index a, request_index b with
    | Some i, Some j => i =? j
    | _, _ => true
    end.

(** The request for one budget, as the protocols take it. *)
Definition consumption_of (c : ConsumeBudgetCommandRequestInfo) : BudgetConsumptionRequestInfo :=
  mkConsumption (info_time_bucket c) (info_token_count c).

(** ** What commands ask for *)

(** The phases that call the budget key. *)
Inductive CommandPhase := PreparePhase | CommitPhase | NotifyPhase | AbortPhase.

#[export] Instance CommandPhase_eq_dec : EqDecision CommandPhase.
Proof. solve_decision. Defined.

(** The provider is asked for the key, with the phase's callback; the protocol
    of the key is given a request, [transaction_protocol] telling whether the key
    has one or a null pointer; the engine's callback is called. *)
Inductive CommandAction (Rq : Type) :=
| DispatchGetBudgetKey (budget_key_name : string) (callback : CommandPhase)
| DispatchConsumeBudget (transaction_protocol : bool) (rq : Rq)
| TransactionCommandCallback (execution_result : ExecutionResult).
Arguments DispatchGetBudgetKey {Rq} _ _.
Arguments DispatchConsumeBudget {Rq} _ _.
Arguments TransactionCommandCallback {Rq} _.

(** The phase functions and callbacks of a command. A phase function that does
    not succeed has asked for nothing. The callback of the key takes whether the
    key that was got has the protocol. [None] is undefined behaviour. *)
Class BudgetCommand (C Rq : Type) := {
  call_phase : C → CommandPhase → ExecutionResult * option (CommandAction Rq);
  on_get_budget_key : C → CommandPhase → ExecutionResult → bool → CommandAction Rq;
  on_consume_budget : C → Rq → ExecutionResult → option (list nat) → option (C * CommandAction Rq);
}.

(** [kConsumeBudgetCommandRetryStrategyDelayMs] and
    [kConsumeBudgetCommandRetryStrategyTotalRetries]. *)
Definition kConsumeBudgetCommandRetryStrategy : RetryStrategy := mkStrategy Exponential 31 12.

(** The [begin] and [end] functions: the callback is called at once. *)
Definition begin {Rq} : ExecutionResult * option (CommandAction Rq) :=
  (SuccessExecutionResult, Some (TransactionCommandCallback SuccessExecutionResult)).

(** ** The command *)

(** [None]: the flag was never set, as after the constructor without
    dependencies. *)
Record ConsumeBudgetCommand := mkConsumeBudgetCommand {
  transaction_id_ : Uuid;
  budget_key_name_ : string;
  budget_consumption_ : ConsumeBudgetCommandRequestInfo;
  dependencies_ : bool; (* budget_key_provider_ and operation_dispatcher_ *)
  failed_with_insufficient_budget_consumption_ : option bool;
}.

Inductive ConsumeBudgetRequest :=
| PrepareRequest (rq : PrepareConsumeBudgetRequest)
| CommitRequest (rq : CommitConsumeBudgetRequest)
| NotifyRequest (rq : NotifyConsumeBudgetRequest)
| AbortRequest (rq : AbortConsumeBudgetRequest).

Module ConsumeBudgetCommand.

Abbreviation Action := (CommandAction ConsumeBudgetRequest).

Definition ConstructWithDependencies (transaction_id : Uuid) (budget_key_name : string)
    (budget_consumption : ConsumeBudgetCommandRequestInfo) : ConsumeBudgetCommand :=
  mkConsumeBudgetCommand transaction_id budget_key_name budget_consumption true (Some false).

Definition Construct (transaction_id : Uuid) (budget_key_name : string)
    (budget_consumption : ConsumeBudgetCommandRequestInfo) : ConsumeBudgetCommand :=
  mkConsumeBudgetCommand transaction_id budget_key_name budget_consumption false None.

Definition SetUpCommandExecutionDependencies (c : ConsumeBudgetCommand) : ConsumeBudgetCommand :=
  mkConsumeBudgetCommand (transaction_id_ c) (budget_key_name_ c) (budget_consumption_ c) true
    (failed_with_insufficient_budget_consumption_ c).

Definition set_failed (failed : bool) (c : ConsumeBudgetCommand) : ConsumeBudgetCommand :=
  mkConsumeBudgetCommand (transaction_id_ c) (budget_key_name_ c) (budget_consumption_ c) (dependencies_ c)
    (Some failed).

(** [None]: the read of a flag that was never set. *)
Definition GetFailedInsufficientBudgetConsumption (c : ConsumeBudgetCommand)
  : option (option ConsumeBudgetCommandRequestInfo) :=
  failed ← failed_with_insufficient_budget_consumption_ c;
  Some (if failed : bool then Some (budget_consumption_ c) else None).

Definition Prepare (c : ConsumeBudgetCommand) : ExecutionResult * option Action :=
  if negb (dependencies_ c) then
    (FailureExecutionResult SC_PBS_TRANSACTION_COMMAND_DEPENDENCIES_UNINITIALIZED, None)
  else (SuccessExecutionResult, Some (DispatchGetBudgetKey (budget_key_name_ c) PreparePhase)).

Definition OnPrepareGetBudgetKeyCallback (c : ConsumeBudgetCommand) (r : ExecutionResult) (transaction_protocol : bool) : Action :=
  if negb (Successful r) then TransactionCommandCallback r
  else DispatchConsumeBudget transaction_protocol (PrepareRequest
         (mkPrepareRequest (transaction_id_ c) (consumption_of (budget_consumption_ c)))).

Definition OnPrepareConsumeBudgetCallback (c : ConsumeBudgetCommand) (r : ExecutionResult)
  : ConsumeBudgetCommand * Action :=
  (set_failed (result_eqb r (FailureExecutionResult SC_PBS_BUDGET_KEY_CONSUME_BUDGET_INSUFFICIENT_BUDGET)) c,
   TransactionCommandCallback r).

Definition Commit (c : ConsumeBudgetCommand) : ExecutionResult * option Action :=
  if negb (dependencies_ c) then
    (FailureExecutionResult SC_PBS_TRANSACTION_COMMAND_DEPENDENCIES_UNINITIALIZED, None)
  else (SuccessExecutionResult, Some (DispatchGetBudgetKey (budget_key_name_ c) CommitPhase)).

Definition OnCommitGetBudgetKeyCallback (c : ConsumeBudgetCommand) (r : ExecutionResult) (transaction_protocol : bool) : Action :=
  if negb (Successful r) then TransactionCommandCallback r
  else DispatchConsumeBudget transaction_protocol (CommitRequest
         (mkCommitRequest (transaction_id_ c) (consumption_of (budget_consumption_ c)))).

Definition OnCommitConsumeBudgetCallback (c : ConsumeBudgetCommand) (r : ExecutionResult)
  : ConsumeBudgetCommand * Action :=
  (set_failed (result_eqb r (FailureExecutionResult SC_PBS_BUDGET_KEY_CONSUME_BUDGET_INSUFFICIENT_BUDGET)) c,
   TransactionCommandCallback r).

Definition Notify (c : ConsumeBudgetCommand) : ExecutionResult * option Action :=
  if negb (dependencies_ c) then
    (FailureExecutionResult SC_PBS_TRANSACTION_COMMAND_DEPENDENCIES_UNINITIALIZED, None)
  else (SuccessExecutionResult, Some (DispatchGetBudgetKey (budget_key_name_ c) NotifyPhase)).

Definition OnNotifyGetBudgetKeyCallback (c : ConsumeBudgetCommand) (r : ExecutionResult) (transaction_protocol : bool) : Action :=
  if negb (Successful r) then TransactionCommandCallback r
  else DispatchConsumeBudget transaction_protocol (NotifyRequest
         (mkNotifyRequest (transaction_id_ c) (info_time_bucket (budget_consumption_ c)))).

Definition OnNotifyConsumeBudgetCallback (r : ExecutionResult) : Action := TransactionCommandCallback r.

Definition Abort (c : ConsumeBudgetCommand) : ExecutionResult * option Action :=
  if negb (dependencies_ c) then
    (FailureExecutionResult SC_PBS_TRANSACTION_COMMAND_DEPENDENCIES_UNINITIALIZED, None)
  else (SuccessExecutionResult, Some (DispatchGetBudgetKey (budget_key_name_ c) AbortPhase)).

Definition OnAbortGetBudgetKeyCallback (c : ConsumeBudgetCommand) (r : ExecutionResult) (transaction_protocol : bool) : Action :=
  if negb (Successful r) then TransactionCommandCallback r
  else DispatchConsumeBudget transaction_protocol (AbortRequest
         (mkAbortRequest (transaction_id_ c) (info_time_bucket (budget_consumption_ c)))).

Definition OnAbortConsumeBudgetCallback (r : ExecutionResult) : Action := TransactionCommandCallback r.

End ConsumeBudgetCommand.

(** [SetUpCommandPhaseHandlers], and the callbacks bound in the handlers. *)
#[export] Instance consume_budget_command : BudgetCommand ConsumeBudgetCommand ConsumeBudgetRequest := {|
  call_phase c p :=
    match p with
    | PreparePhase => ConsumeBudgetCommand.Prepare c
    | CommitPhase => ConsumeBudgetCommand.Commit c
    | NotifyPhase => ConsumeBudgetCommand.Notify c
    | AbortPhase => ConsumeBudgetCommand.Abort c
    end;
  on_get_budget_key c p r transaction_protocol :=
    match p with
    | PreparePhase => ConsumeBudgetCommand.OnPrepareGetBudgetKeyCallback c r transaction_protocol
    | CommitPhase => ConsumeBudgetCommand.OnCommitGetBudgetKeyCallback c r transaction_protocol
    | NotifyPhase => ConsumeBudgetCommand.OnNotifyGetBudgetKeyCallback c r transaction_protocol
    | AbortPhase => ConsumeBudgetCommand.OnAbortGetBudgetKeyCallback c r transaction_protocol
    end;
  on_consume_budget c rq r _ :=
    Some match rq with
         | PrepareRequest _ => ConsumeBudgetCommand.OnPrepareConsumeBudgetCallback c r
         | CommitRequest _ => ConsumeBudgetCommand.OnCommitConsumeBudgetCallback c r
         | NotifyRequest _ => (c, ConsumeBudgetCommand.OnNotifyConsumeBudgetCallback r)
         | AbortRequest _ => (c, ConsumeBudgetCommand.OnAbortConsumeBudgetCallback r)
         end;
|}.

(** The constructor without dependencies leaves the flag unset. *)
Lemma Construct_leaves_flag transaction_id name consumption :
  ConsumeBudgetCommand.GetFailedInsufficientBudgetConsumption
    (ConsumeBudgetCommand.Construct transaction_id name consumption) = None.
Proof. done. Qed.

(** [operator==] is not an equivalence: an info without index equals both of two
    that differ. *)
Lemma request_info_eqb_not_transitive :
  let info i := mkRequestInfo 5 1 i in
  request_info_eqb (info (Some 0)) (info None) = true ∧ request_info_eqb (info None) (info (Some 1)) = true ∧
  request_info_eqb (info (Some 0)) (info (Some 1)) = false.
Proof. done. Qed.
