(* ===== verification/BatchConsumeBudgetCommand.v ===== *)
(** * The command that consumes several budgets of a key

    Models [cc/pbs/transactions/src/batch_consume_budget_command.{h,cc}]: like
    the command for one budget, and it remembers which of its budgets the
    protocol found insufficient. *)

From S2P Require Import Prelude ExecutionResult ErrorCodes Uuid Dispatcher TransactionProtocol ConsumeBudgetCommand.
From stdpp Require Import options.

Local Open Scope Z_scope.

Record BatchConsumeBudgetCommand := mkBatchConsumeBudgetCommand {
  batch_transaction_id_ : Uuid;
  batch_budget_key_name_ : string;
  budget_consumptions_ : list ConsumeBudgetCommandRequestInfo;
  batch_dependencies_ : bool; (* budget_key_provider_ and operation_dispatcher_ *)
  failed_insufficient_budget_consumptions_ : list ConsumeBudgetCommandRequestInfo;
}.

Inductive BatchConsumeBudgetRequest :=
| PrepareBatchRequest (rq : PrepareBatchConsumeBudgetRequest)
| CommitBatchRequest (rq : CommitBatchConsumeBudgetRequest)
| NotifyBatchRequest (rq : NotifyBatchConsumeBudgetRequest)
| AbortBatchRequest (rq : AbortBatchConsumeBudgetRequest).

Module BatchConsumeBudgetCommand.

Abbreviation Action := (CommandAction BatchConsumeBudgetRequest).

Definition ConstructWithDependencies (transaction_id : Uuid) (budget_key_name : string)
    (budget_consumptions : list ConsumeBudgetCommandRequestInfo) : BatchConsumeBudgetCommand :=
  mkBatchConsumeBudgetCommand transaction_id budget_key_name budget_consumptions true [].

Definition Construct (transaction_id : Uuid) (budget_key_name : string)
    (budget_consumptions : list ConsumeBudgetCommandRequestInfo) : BatchConsumeBudgetCommand :=
  mkBatchConsumeBudgetCommand transaction_id budget_key_name budget_consumptions false [].

Definition SetUpCommandExecutionDependencies (c : BatchConsumeBudgetCommand) : BatchConsumeBudgetCommand :=
  mkBatchConsumeBudgetCommand (batch_transaction_id_ c) (batch_budget_key_name_ c) (budget_consumptions_ c) true
    (failed_insufficient_budget_consumptions_ c).

Definition set_failed (failed : list ConsumeBudgetCommandRequestInfo) (c : BatchConsumeBudgetCommand)
  : BatchConsumeBudgetCommand :=
  mkBatchConsumeBudgetCommand (batch_transaction_id_ c) (batch_budget_key_name_ c) (budget_consumptions_ c)
    (batch_dependencies_ c) failed.

(** The time buckets of the failed indices; [None]: an index out of range. *)
Definition failed_time_buckets (budgets : list BudgetConsumptionRequestInfo)
    (failed_budget_consumption_indices : list nat) : option (list Z) :=
  mapM (λ i, time_bucket <$> budgets !! i) failed_budget_consumption_indices.

Definition SetFailedInsufficientBudgetConsumptions (c : BatchConsumeBudgetCommand)
    (budgets : list BudgetConsumptionRequestInfo) (failed_budget_consumption_indices : list nat)
  : option BatchConsumeBudgetCommand :=
  timebuckets_with_insufficient_budget ← failed_time_buckets budgets failed_budget_consumption_indices;
  Some (set_failed (filter (λ b, info_time_bucket b ∈ timebuckets_with_insufficient_budget) (budget_consumptions_ c)) c).

Definition Prepare (c : BatchConsumeBudgetCommand) : ExecutionResult * option Action :=
  if negb (batch_dependencies_ c) then
    (FailureExecutionResult SC_PBS_TRANSACTION_COMMAND_DEPENDENCIES_UNINITIALIZED, None)
  else (SuccessExecutionResult, Some (DispatchGetBudgetKey (batch_budget_key_name_ c) PreparePhase)).

Definition OnPrepareGetBudgetKeyCallback (c : BatchConsumeBudgetCommand) (r : ExecutionResult)
    (transaction_protocol : bool) : Action :=
  if negb (result_eqb r SuccessExecutionResult) then TransactionCommandCallback r
  else DispatchConsumeBudget transaction_protocol (PrepareBatchRequest
         (mkPrepareBatchRequest (batch_transaction_id_ c) (consumption_of <$> budget_consumptions_ c))).

Definition OnPrepareBatchConsumeBudgetCallback (c : BatchConsumeBudgetCommand)
    (rq : PrepareBatchConsumeBudgetRequest) (r : ExecutionResult) (response : option (list nat))
  : option (BatchConsumeBudgetCommand * Action) :=
  c ← match response with
      | Some indices =>
          if result_eqb r (FailureExecutionResult SC_PBS_BUDGET_KEY_CONSUME_BUDGET_INSUFFICIENT_BUDGET)
          then SetFailedInsufficientBudgetConsumptions c (prepare_budget_consumptions rq) indices
          else Some c
      | None => Some c
      end;
  Some (c, TransactionCommandCallback r).

Definition Commit (c : BatchConsumeBudgetCommand) : ExecutionResult * option Action :=
  if negb (batch_dependencies_ c) then
    (FailureExecutionResult SC_PBS_TRANSACTION_COMMAND_DEPENDENCIES_UNINITIALIZED, None)
  else (SuccessExecutionResult, Some (DispatchGetBudgetKey (batch_budget_key_name_ c) CommitPhase)).

Definition OnCommitGetBudgetKeyCallback (c : BatchConsumeBudgetCommand) (r : ExecutionResult)
    (transaction_protocol : bool) : Action :=
  if negb (result_eqb r SuccessExecutionResult) then TransactionCommandCallback r
  else DispatchConsumeBudget transaction_protocol (CommitBatchRequest
         (mkCommitBatchRequest (batch_transaction_id_ c) (consumption_of <$> budget_consumptions_ c))).

Definition OnCommitBatchConsumeBudgetCallback (c : BatchConsumeBudgetCommand)
    (rq : CommitBatchConsumeBudgetRequest) (r : ExecutionResult) (response : option (list nat))
  : option (BatchConsumeBudgetCommand * Action) :=
  c ← match response with
      | Some indices =>
          if result_eqb r (FailureExecutionResult SC_PBS_BUDGET_KEY_CONSUME_BUDGET_INSUFFICIENT_BUDGET)
          then SetFailedInsufficientBudgetConsumptions c (commit_budget_consumptions rq) indices
          else Some c
      | None => Some c
      end;
  Some (c, TransactionCommandCallback r).

Definition Notify (c : BatchConsumeBudgetCommand) : ExecutionResult * option Action :=
  if negb (batch_dependencies_ c) then
    (FailureExecutionResult SC_PBS_TRANSACTION_COMMAND_DEPENDENCIES_UNINITIALIZED, None)
  else (SuccessExecutionResult, Some (DispatchGetBudgetKey (batch_budget_key_name_ c) NotifyPhase)).

Definition OnNotifyGetBudgetKeyCallback (c : BatchConsumeBudgetCommand) (r : ExecutionResult)
    (transaction_protocol : bool) : Action :=
  if negb (result_eqb r SuccessExecutionResult) then TransactionCommandCallback r
  else DispatchConsumeBudget transaction_protocol (NotifyBatchRequest
         (mkNotifyBatchRequest (batch_transaction_id_ c) (info_time_bucket <$> budget_consumptions_ c))).

Definition OnNotifyBatchConsumeBudgetCallback (r : ExecutionResult) : Action := TransactionCommandCallback r.

Definition Abort (c : BatchConsumeBudgetCommand) : ExecutionResult * option Action :=
  if negb (batch_dependencies_ c) then
    (FailureExecutionResult SC_PBS_TRANSACTION_COMMAND_DEPENDENCIES_UNINITIALIZED, None)
  else (SuccessExecutionResult, Some (DispatchGetBudgetKey (batch_budget_key_name_ c) AbortPhase)).

Definition OnAbortGetBudgetKeyCallback (c : BatchConsumeBudgetCommand) (r : ExecutionResult)
    (transaction_protocol : bool) : Action :=
  if negb (result_eqb r SuccessExecutionResult) then TransactionCommandCallback r
  else DispatchConsumeBudget transaction_protocol (AbortBatchRequest
         (mkAbortBatchRequest (batch_transaction_id_ c) (info_time_bucket <$> budget_consumptions_ c))).

Definition OnAbortBatchConsumeBudgetCallback (r : ExecutionResult) : Action := TransactionCommandCallback r.

End BatchConsumeBudgetCommand.

#[export] Instance batch_consume_budget_command : BudgetCommand BatchConsumeBudgetCommand BatchConsumeBudgetRequest := {|
  call_phase c p :=
    match p with
    | PreparePhase => BatchConsumeBudgetCommand.Prepare c
    | CommitPhase => BatchConsumeBudgetCommand.Commit c
    | NotifyPhase => BatchConsumeBudgetCommand.Notify c
    | AbortPhase => BatchConsumeBudgetCommand.Abort c
    end;
  on_get_budget_key c p r transaction_protocol :=
    match p with
    | PreparePhase => BatchConsumeBudgetCommand.OnPrepareGetBudgetKeyCallback c r transaction_protocol
    | CommitPhase => BatchConsumeBudgetCommand.OnCommitGetBudgetKeyCallback c r transaction_protocol
    | NotifyPhase => BatchConsumeBudgetCommand.OnNotifyGetBudgetKeyCallback c r transaction_protocol
    | AbortPhase => BatchConsumeBudgetCommand.OnAbortGetBudgetKeyCallback c r transaction_protocol
    end;
  on_consume_budget c rq r response :=
    match rq with
    | PrepareBatchRequest rq => BatchConsumeBudgetCommand.OnPrepareBatchConsumeBudgetCallback c rq r response
    | CommitBatchRequest rq => BatchConsumeBudgetCommand.OnCommitBatchConsumeBudgetCallback c rq r response
    | NotifyBatchRequest _ => Some (c, BatchConsumeBudgetCommand.OnNotifyBatchConsumeBudgetCallback r)
    | AbortBatchRequest _ => Some (c, BatchConsumeBudgetCommand.OnAbortBatchConsumeBudgetCallback r)
    end;
|}.
