(* ===== verification/CommandRun.v ===== *)
(** * Running a command's phase

    A phase function of a command dispatches to the budget key provider and
    then to the key's protocol; here both go through the dispatcher of
    [Dispatcher], in an environment that answers for the provider, the protocol,
    the clock and the executor. The engine is told exactly once, whatever the
    environment does, when keys have the protocol of the command; the call of one
    they do not have is undefined. *)

From S2P Require Import Prelude ExecutionResult ErrorCodes Uuid Dispatcher TransactionProtocol.
From S2P Require Import ConsumeBudgetCommand BatchConsumeBudgetCommand.
From stdpp Require Import options.

Local Open Scope Z_scope.

(** ** What commands promise *)

(** [ready]: the dependencies are set; [request_of]: the request of a phase;
    [response_ok]: a response the protocol may give to the command. *)
Class BudgetCommandLaws (C Rq : Type) `{!BudgetCommand C Rq} := {
  ready : C → bool;
  key_name : C → string;
  request_of : C → CommandPhase → Rq;
  response_ok : C → option (list nat) → Prop;
  no_response_ok c : response_ok c None;
  call_phase_law c p :
    call_phase c p =
      if ready c then (SuccessExecutionResult, Some (DispatchGetBudgetKey (key_name c) p))
      else (FailureExecutionResult SC_PBS_TRANSACTION_COMMAND_DEPENDENCIES_UNINITIALIZED, None);
  get_budget_key_law c p r transaction_protocol :
    on_get_budget_key c p r transaction_protocol =
      if Successful r then DispatchConsumeBudget transaction_protocol (request_of c p) else TransactionCommandCallback r;
  consume_budget_law c p r response :
    response_ok c response →
    ∃ c', on_consume_budget c (request_of c p) r response = Some (c', TransactionCommandCallback r);
}.

Definition consume_request (c : ConsumeBudgetCommand) (p : CommandPhase) : ConsumeBudgetRequest :=
  match p with
  | PreparePhase => PrepareRequest (mkPrepareRequest (transaction_id_ c) (consumption_of (budget_consumption_ c)))
  | CommitPhase => CommitRequest (mkCommitRequest (transaction_id_ c) (consumption_of (budget_consumption_ c)))
  | NotifyPhase => NotifyRequest (mkNotifyRequest (transaction_id_ c) (info_time_bucket (budget_consumption_ c)))
  | AbortPhase => AbortRequest (mkAbortRequest (transaction_id_ c) (info_time_bucket (budget_consumption_ c)))
  end.

#[export] Program Instance consume_budget_command_laws : BudgetCommandLaws ConsumeBudgetCommand ConsumeBudgetRequest := {|
  ready := dependencies_;
  key_name := budget_key_name_;
  request_of := consume_request;
  response_ok _ _ := True;
|}.
Next Obligation. done. Qed.
Next Obligation.
  intros c p; destruct p; cbn; unfold ConsumeBudgetCommand.Prepare, ConsumeBudgetCommand.Commit,
    ConsumeBudgetCommand.Notify, ConsumeBudgetCommand.Abort; by destruct (dependencies_ c).
Qed.
Next Obligation. intros c [] r transaction_protocol; cbn; by destruct (Successful r) eqn:Hr;
  unfold ConsumeBudgetCommand.OnPrepareGetBudgetKeyCallback, ConsumeBudgetCommand.OnCommitGetBudgetKeyCallback,
    ConsumeBudgetCommand.OnNotifyGetBudgetKeyCallback, ConsumeBudgetCommand.OnAbortGetBudgetKeyCallback; rewrite Hr. Qed.
Next Obligation. intros c [] r response _; by eexists. Qed.

Lemma failed_time_buckets_total budgets indices :
  Forall (λ i, (i < length budgets)%nat) indices →
  BatchConsumeBudgetCommand.failed_time_buckets budgets indices
  = Some ((λ i, from_option time_bucket 0 (budgets !! i)) <$> indices).
Proof.
  intros H. apply mapM_Some_2. induction H as [|i js Hi _ IH]; simpl; constructor; [|done].
  destruct (lookup_lt_is_Some_2 budgets i Hi) as [b ->]. done.
Qed.

Definition batch_request (c : BatchConsumeBudgetCommand) (p : CommandPhase) : BatchConsumeBudgetRequest :=
  match p with
  | PreparePhase => PrepareBatchRequest
      (mkPrepareBatchRequest (batch_transaction_id_ c) (consumption_of <$> budget_consumptions_ c))
  | CommitPhase => CommitBatchRequest
      (mkCommitBatchRequest (batch_transaction_id_ c) (consumption_of <$> budget_consumptions_ c))
  | NotifyPhase => NotifyBatchRequest
      (mkNotifyBatchRequest (batch_transaction_id_ c) (info_time_bucket <$> budget_consumptions_ c))
  | AbortPhase => AbortBatchRequest
      (mkAbortBatchRequest (batch_transaction_id_ c) (info_time_bucket <$> budget_consumptions_ c))
  end.

#[export] Program Instance batch_consume_budget_command_laws
  : BudgetCommandLaws BatchConsumeBudgetCommand BatchConsumeBudgetRequest := {|
  ready := batch_dependencies_;
  key_name := batch_budget_key_name_;
  request_of := batch_request;
  response_ok c response :=
    from_option (Forall (λ i, (i < length (budget_consumptions_ c))%nat)) True response;
|}.
Next Obligation. done. Qed.
Next Obligation.
  intros c p; destruct p; cbn; unfold BatchConsumeBudgetCommand.Prepare, BatchConsumeBudgetCommand.Commit,
    BatchConsumeBudgetCommand.Notify, BatchConsumeBudgetCommand.Abort; by destruct (batch_dependencies_ c).
Qed.
Next Obligation.
  intros c [] r transaction_protocol; cbn; unfold BatchConsumeBudgetCommand.OnPrepareGetBudgetKeyCallback,
    BatchConsumeBudgetCommand.OnCommitGetBudgetKeyCallback, BatchConsumeBudgetCommand.OnNotifyGetBudgetKeyCallback,
    BatchConsumeBudgetCommand.OnAbortGetBudgetKeyCallback, Successful; by destruct (result_eqb r _).
Qed.
Next Obligation.
  intros c p r response Hok.
  assert (∀ indices, response = Some indices → ∃ c',
    BatchConsumeBudgetCommand.SetFailedInsufficientBudgetConsumptions c (consumption_of <$> budget_consumptions_ c)
      indices = Some c') as Hset.
  { intros indices ->. unfold BatchConsumeBudgetCommand.SetFailedInsufficientBudgetConsumptions.
    rewrite failed_time_buckets_total by (by rewrite length_fmap). by eexists. }
  destruct p; cbn; [| |by eexists|by eexists];
    unfold BatchConsumeBudgetCommand.OnPrepareBatchConsumeBudgetCallback,
      BatchConsumeBudgetCommand.OnCommitBatchConsumeBudgetCallback; cbn [prepare_budget_consumptions commit_budget_consumptions];
    (destruct response as [indices|]; [|by eexists]);
    destruct (result_eqb _ _); try (by eexists);
    destruct (Hset indices eq_refl) as [c' ->]; by eexists.
Qed.

(** ** The machine *)

(** [RetryStrategy] of the commands fits the dispatcher's bounds. *)
Lemma command_strategy_ok : strategy_ok kConsumeBudgetCommandRetryStrategy.
Proof. unfold strategy_ok, no_overflow. vm_compute. repeat split; congruence. Qed.

(** What answers at a step: the dispatcher's environment, the expiration time
    of a context that is created, the response the protocol puts in it, and
    whether the key of the provider's response has the protocol. *)
Record CommandEnvironment := mkCommandEnvironment {
  dispatch_env : Environment;
  new_expiration : Z;
  new_response : option (list nat);
  key_protocol : bool;
}.

(** Where a phase of a command is. *)
Inductive Progress (Rq : Type) :=
| GettingKey (p : CommandPhase) (s : Dispatcher.State)
| Consuming (transaction_protocol : bool) (rq : Rq) (response : option (list nat)) (s : Dispatcher.State)
| Told (execution_result : ExecutionResult) (* the engine's callback was called *)
| Stuck.                                    (* undefined behaviour *)
Arguments GettingKey {Rq} _ _.
Arguments Consuming {Rq} _ _ _ _.
Arguments Told {Rq} _.
Arguments Stuck {Rq}.

(** The calls a command makes. *)
Inductive Call (Rq : Type) := CallGetBudgetKey | CallProtocol (rq : Rq).
Arguments CallGetBudgetKey {Rq}.
Arguments CallProtocol {Rq} _.

Section run.
  Context {C Rq : Type} `{!BudgetCommand C Rq}.

Definition new_context (env : CommandEnvironment) : AsyncContext :=
  Dispatcher.mkContext (FailureExecutionResult SC_UNKNOWN) 0 (new_expiration env).

Definition dispatch (env : CommandEnvironment) : Dispatcher.State :=
  Dispatch kConsumeBudgetCommandRetryStrategy (dispatch_env env) (new_context env).

Definition perform (env : CommandEnvironment) (a : CommandAction Rq) : Progress Rq :=
  match a with
  | DispatchGetBudgetKey _ p => GettingKey p (dispatch env)
  | DispatchConsumeBudget transaction_protocol rq => Consuming transaction_protocol rq None (dispatch env)
  | TransactionCommandCallback r => Told r
  end.

(** The response stays in the context when the target gives none. *)
Definition update_response (env : CommandEnvironment) (s : Dispatcher.State) (response : option (list nat)) :=
  match s, new_response env with
  | Calling _, Some indices => Some indices
  | _, _ => response
  end.

Definition command_step (env : CommandEnvironment) (c : C) (progress : Progress Rq) : C * Progress Rq :=
  let step := Dispatcher.step kConsumeBudgetCommandRetryStrategy (dispatch_env env) in
  match progress with
  | GettingKey p (Delivered k) => (c, perform env (on_get_budget_key c p (result k) (key_protocol env)))
  | GettingKey p Undefined => (c, Stuck)
  | GettingKey p s => (c, GettingKey p (step s))
  | Consuming _ rq response (Delivered k) =>
      match on_consume_budget c rq (result k) response with
      | None => (c, Stuck)
      | Some (c, a) => (c, perform env a)
      end
  | Consuming _ _ _ Undefined => (c, Stuck)
  | Consuming false _ _ (Calling _) => (c, Stuck) (* a null pointer is called *)
  | Consuming transaction_protocol rq response s =>
      (c, Consuming transaction_protocol rq (update_response env s response) (step s))
  | Told r => (c, Told r)
  | Stuck => (c, Stuck)
  end.

Definition calls_of (progress : Progress Rq) : list (Call Rq) :=
  match progress with
  | GettingKey _ (Calling _) => [CallGetBudgetKey]
  | Consuming true rq _ (Calling _) => [CallProtocol rq]
  | _ => []
  end.

(** [n] steps, with the calls that were made. *)
Fixpoint command_run (env : nat → CommandEnvironment) (n i : nat) (c : C) (progress : Progress Rq)
  : C * Progress Rq * list (Call Rq) :=
  match n with
  | O => (c, progress, [])
  | S n' =>
      let '(c', progress') := command_step (env i) c progress in
      let '(result, calls) := command_run env n' (S i) c' progress' in
      (result, calls_of progress ++ calls)
  end.

Context `{!BudgetCommandLaws C Rq}.

(** Clocks and expiration times fit their types, and the protocol's responses
    are about the command's budgets. *)
Definition env_ok (c : C) (env : nat → CommandEnvironment) : Prop :=
  ∀ i, is_u64 (clock (dispatch_env (env i))) ∧ is_u64 (new_expiration (env i)) ∧ response_ok c (new_response (env i)).

Lemma command_run_told env n i c r : command_run env n i c (Told r) = (c, Told r, []).
Proof. revert i. induction n as [|n IH]; intros i; simpl; [done|]. by rewrite IH. Qed.

Lemma dispatch_on_its_way env c i :
  env_ok c env → dispatch (env i) = Calling (new_context (env i)) ∧
    on_its_way kConsumeBudgetCommandRetryStrategy (Calling (new_context (env i))).
Proof. intros Henv. destruct (Henv i) as (_ & He & _). split; [done|]. simpl. split; [done|]. split; [done|]. by left. Qed.

(** A step of the dispatcher, counting its call as [Dispatcher.calls_left]
    does. *)
Lemma dispatch_progress env c i s :
  env_ok c env → on_its_way kConsumeBudgetCommandRetryStrategy s → (∀ k, s ≠ Delivered k) →
  let s' := Dispatcher.step kConsumeBudgetCommandRetryStrategy (dispatch_env (env i)) s in
  on_its_way kConsumeBudgetCommandRetryStrategy s' ∧
  steps_left kConsumeBudgetCommandRetryStrategy s' < steps_left kConsumeBudgetCommandRetryStrategy s ∧
  Z.of_nat (calls_target s) + calls_left kConsumeBudgetCommandRetryStrategy s'
    ≤ calls_left kConsumeBudgetCommandRetryStrategy s.
Proof.
  intros Henv Hway Hd s'. pose proof (Henv i) as (Hc & _).
  destruct (step_progress kConsumeBudgetCommandRetryStrategy (dispatch_env (env i)) s command_strategy_ok Hc Hway)
    as (Hway' & Hless & Hcalls). split_and!; [done| |done].
  apply Hless. destruct (decide (0 < steps_left kConsumeBudgetCommandRetryStrategy s)); [done|].
  destruct (steps_left_delivered _ s command_strategy_ok Hway) as [k ->]; [lia|]. by destruct (Hd k).
Qed.

Abbreviation on_way := (on_its_way kConsumeBudgetCommandRetryStrategy).
Abbreviation left_steps := (steps_left kConsumeBudgetCommandRetryStrategy).
Abbreviation left_calls := (calls_left kConsumeBudgetCommandRetryStrategy).

(** What the engine is told, and the command afterwards, once the protocol has
    been called. *)
Definition told_by_protocol (c : C) (p : CommandPhase) (c' : C) (r : ExecutionResult) : Prop :=
  status r ≠ Retry ∧
  ∃ response, response_ok c response ∧
    on_consume_budget c (request_of c p) r response = Some (c', TransactionCommandCallback r).

Lemma update_response_ok env c i s response :
  env_ok c env → response_ok c response → response_ok c (update_response (env i) s response).
Proof. intros Henv Hr. destruct (Henv i) as (_ & _ & Hn). destruct s; simpl; try done. by destruct (new_response _). Qed.

Lemma delivered_or_not (s : Dispatcher.State) : (∃ k, s = Delivered k) ∨ ∀ k, s ≠ Delivered k.
Proof. destruct s as [| | |k|]; [by right..|left; by exists k|by right]. Qed.

Lemma run_consuming env c p n i response s :
  env_ok c env → on_way s → response_ok c response → left_steps s + 1 ≤ Z.of_nat n →
  ∃ c' r m, command_run env n i c (Consuming true (request_of c p) response s)
      = (c', Told r, replicate m (CallProtocol (request_of c p))) ∧
    told_by_protocol c p c' r ∧ (calls_target s ≤ m)%nat ∧ Z.of_nat m ≤ left_calls s.
Proof.
  intros Henv. revert i response s. induction n as [|n IH]; intros i response s Hway Hr Hn.
  { pose proof (steps_left_nonneg _ s command_strategy_ok Hway). lia. }
  destruct (delivered_or_not s) as [[k ->]|Hd].
  - destruct (consume_budget_law c p (result k) response Hr) as [c' Hc']. exists c', (result k), 0%nat.
    cbn [command_run command_step]. rewrite Hc'. cbn [perform calls_of app replicate].
    rewrite command_run_told. split; [done|].
    split; [|simpl; lia]. split; [done|]. by exists response.
  - destruct (dispatch_progress env c i s Henv Hway Hd) as (Hway' & Hless & Hcalls).
    destruct (IH (S i) (update_response (env i) s response) _ Hway') as (c' & r & m & Hrun & Htold & _ & Hm);
      [by apply update_response_ok|lia|].
    exists c', r, (calls_target s + m)%nat. split; [|split; [done|lia]].
    destruct s as [k|k t|k|k|]; [| | |by destruct (Hd k)|done]; cbn [command_run command_step];
      rewrite Hrun; done.
Qed.

Lemma command_run_stuck env n i c : command_run env n i c Stuck = (c, Stuck, []).
Proof. revert i. induction n as [|n IH]; intros i; simpl; [done|]. by rewrite IH. Qed.

(** How a phase comes to its end after [m] calls of the protocol, [has] telling
    whether keys have it. *)
Definition phase_ends (has : bool) (c : C) (p : CommandPhase) (m : nat) (c' : C) (progress : Progress Rq) : Prop :=
  (∃ r, progress = Told r ∧ m = 0%nat ∧ c' = c ∧ Successful r = false ∧ status r ≠ Retry) ∨
  (has = true ∧ (1 ≤ m)%nat ∧ ∃ r, progress = Told r ∧ told_by_protocol c p c' r) ∨
  (has = false ∧ m = 0%nat ∧ c' = c ∧ progress = Stuck).

Lemma run_getting env c p has n i s :
  env_ok c env → (∀ i, key_protocol (env i) = has) → on_way s → left_steps s + 43 ≤ Z.of_nat n →
  ∃ c' progress k m, command_run env n i c (GettingKey p s)
      = (c', progress, replicate k CallGetBudgetKey ++ replicate m (CallProtocol (request_of c p))) ∧
    (calls_target s ≤ k)%nat ∧ Z.of_nat k ≤ left_calls s ∧ (m ≤ 12)%nat ∧ phase_ends has c p m c' progress.
Proof.
  intros Henv Hhas. revert i s. induction n as [|n IH]; intros i s Hway Hn.
  { pose proof (steps_left_nonneg _ s command_strategy_ok Hway). lia. }
  destruct (delivered_or_not s) as [[k ->]|Hd].
  - cbn [command_run command_step]. rewrite get_budget_key_law, Hhas.
    destruct (Successful (result k)) eqn:Hs; cbn [perform].
    + destruct (dispatch_on_its_way env c i Henv) as [-> Hway']. change (left_steps (Delivered k)) with 0 in Hn.
      destruct has.
      * destruct (run_consuming env c p n (S i) None _ Henv Hway' (no_response_ok c)) as (c' & r & m & -> & Htold & Hm1 & Hm).
        { change (left_steps (Calling (new_context (env i)))) with 41. lia. }
        change (left_calls (Calling (new_context (env i)))) with 12 in Hm. change (calls_target (Calling (new_context (env i)))) with 1%nat in Hm1.
        exists c', (Told r), 0%nat, m. cbn [calls_of replicate app]. split; [done|]. split; [simpl; lia|]. split; [simpl; lia|].
        split; [lia|]. right; left. split; [done|]. split; [lia|]. by exists r.
      * destruct n as [|n]; [lia|]. cbn [command_run command_step calls_of]. rewrite command_run_stuck.
        exists c, Stuck, 0%nat, 0%nat. split; [done|]. split; [simpl; lia|]. split; [simpl; lia|]. split; [lia|]. by right; right.
    + rewrite command_run_told. exists c, (Told (result k)), 0%nat, 0%nat. simpl.
      split; [done|]. split; [lia|]. split; [lia|]. split; [lia|]. left. exists (result k). split_and!; done.
  - destruct (dispatch_progress env c i s Henv Hway Hd) as (Hway' & Hless & Hcalls).
    destruct (IH (S i) _ Hway') as (c' & progress & k & m & Hrun & _ & Hk & Hm & Hend); [lia|].
    exists c', progress, (calls_target s + k)%nat, m. split; [|split; [lia|split; [lia|done]]].
    destruct s as [k'|k' t|k'|k'|]; [| | |by destruct (Hd k')|done]; cbn [command_run command_step];
      rewrite Hrun; done.
Qed.

(** C39: a phase function of a command whose dependencies are set succeeds, and
    whatever the provider, the protocol, the clock and the executor answer, the
    phase comes to an end within 84 steps. The provider is asked for the command's
    key, at most 12 times. When the key's loading fails, the engine's callback is
    called with that failure, the protocol is not called and the command is as it
    was. When it succeeds and keys have the command's protocol, the protocol is
    called with the request of the phase, once at least and at most 12 times, and
    the engine's callback is called once, with the protocol's final result, which
    asks for no retry and which the command has noted. When it succeeds and keys
    have no such protocol, as [BudgetKey] has none for batches, a null pointer is
    called and the engine is never told. A command without dependencies refuses
    the phase. *)
Theorem phase_told env c p has :
  env_ok c env → (∀ i, key_protocol (env i) = has) →
  if ready c then
    ∃ a, call_phase c p = (SuccessExecutionResult, Some a) ∧ a = DispatchGetBudgetKey (key_name c) p ∧
    ∃ c' progress k m, command_run env 84 0 c (perform (env 0%nat) a)
        = (c', progress, replicate k CallGetBudgetKey ++ replicate m (CallProtocol (request_of c p))) ∧
      (1 ≤ k ≤ 12)%nat ∧ (m ≤ 12)%nat ∧ phase_ends has c p m c' progress
  else call_phase c p = (FailureExecutionResult SC_PBS_TRANSACTION_COMMAND_DEPENDENCIES_UNINITIALIZED, None).
Proof.
  intros Henv Hhas. rewrite call_phase_law. destruct (ready c); [|done].
  eexists. split; [done|]. split; [done|]. destruct (dispatch_on_its_way env c 0 Henv) as [Hd Hway].
  cbn [perform]. rewrite Hd.
  destruct (run_getting env c p has 84 0 _ Henv Hhas Hway) as (c' & progress & k & m & Hrun & Hle & Hk & Hm & Hend).
  { change (left_steps (Calling (new_context (env 0%nat)))) with 41. lia. }
  change (left_calls (Calling (new_context (env 0%nat)))) with 12 in Hk.
  exists c', progress, k, m. split; [done|]. split; [|done]. simpl in Hle. lia.
Qed.

End run.
