(* ===== verification/TransactionCommandSerializer.v ===== *)
(** * The serializer of the budget service's commands

    Models [cc/pbs/transactions/src/transaction_command_serializer.{h,cc}],
    [consume_budget_command_serialization.h],
    [batch_consume_budget_command_serialization.h] and their messages. A command
    is written as the message of its type, inside a log with that type, inside a
    log with a version. The serializer is the one the transaction engine is
    given: an instance of [TransactionCommandSerializerInterface], with its
    law. *)

From S2P Require Import Prelude Text ExecutionResult ErrorCodes Uuid Serialization TransactionPhases TransactionProtocol.
From S2P Require Import ConsumeBudgetCommand BatchConsumeBudgetCommand TransactionLog.
From stdpp Require Import options.

Local Open Scope Z_scope.

(** ** Commands *)

(** An object behind a [shared_ptr<TransactionCommand>]; [OtherCommand] stands
    for a command of another class, with its id. *)
Inductive TransactionCommand :=
| ConsumeCommand (c : ConsumeBudgetCommand)
| BatchCommand (c : BatchConsumeBudgetCommand)
| OtherCommand (command_id : Uuid).

Definition kConsumeBudgetCommandId : Uuid := mkUuid 1000 1000.
Definition kBatchConsumeBudgetCommandId : Uuid := mkUuid 1000 1001.

Definition command_id (c : TransactionCommand) : Uuid :=
  match c with
  | ConsumeCommand _ => kConsumeBudgetCommandId
  | BatchCommand _ => kBatchConsumeBudgetCommandId
  | OtherCommand id => id
  end.

(** ** Messages *)

(** [COMMAND_TYPE_UNKNOWN] stands for every number the enumeration does not
    hold. *)
Inductive CommandType :=
| COMMAND_TYPE_UNKNOWN
| CONSUME_BUDGET_COMMAND_1_0
| BATCH_CONSUME_BUDGET_COMMAND_1_0
| CONSUME_BUDGET_COMMAND_1_1.

#[export] Instance CommandType_eq_dec : EqDecision CommandType.
Proof. solve_decision. Defined.

Record BudgetConsumption_1_0 := mkBudgetConsumption_1_0 {
  proto_time_bucket : Z;
  proto_token_count : Z;
  proto_request_index : option Z;
}.

Record ConsumeBudgetCommand_1_0 := mkConsumeBudgetCommand_1_0 {
  budget_key_name_1_0 : string;
  time_bucket_1_0 : Z;
  token_count_1_0 : Z;
}.

Record ConsumeBudgetCommand_1_1 := mkConsumeBudgetCommand_1_1 {
  budget_key_name_1_1 : string;
  budget_consumption_1_1 : BudgetConsumption_1_0; (* time_bucket, token_count, request_index *)
}.

Record BatchConsumeBudgetCommand_1_0 := mkBatchConsumeBudgetCommand_1_0 {
  batch_budget_key_name_1_0 : string;
  batch_budget_consumptions_1_0 : list BudgetConsumption_1_0;
}.

Record TransactionCommandLog_1_0 := mkCommandLog_1_0 {
  command_log_type : CommandType;
  command_log_1_0_body : list Z;
}.

Record TransactionCommandLog := mkCommandLog {
  command_log_version : Version;
  command_log_body : list Z;
}.

(** The wire form of the messages. *)
Class CommandMessages := {
  #[global] consume_1_0_message :: ProtoMessage ConsumeBudgetCommand_1_0;
  #[global] consume_1_1_message :: ProtoMessage ConsumeBudgetCommand_1_1;
  #[global] batch_1_0_message :: ProtoMessage BatchConsumeBudgetCommand_1_0;
  #[global] command_log_1_0_message :: ProtoMessage TransactionCommandLog_1_0;
  #[global] command_log_message :: ProtoMessage TransactionCommandLog;
}.

(** The versions a serializer writes, the defaults of its constructor last. *)
Inductive ConsumeBudgetCommandVersion := Consume_Version_Unknown | Consume_Version_1_0 | Consume_Version_1_1.
Inductive BatchConsumeBudgetCommandVersion := Batch_Version_Unknown | Batch_Version_1_0.

Record SerializerVersions := mkVersions {
  consume_budget_command_version_for_serialization_ : ConsumeBudgetCommandVersion;
  batch_consume_budget_command_version_for_serialization_ : BatchConsumeBudgetCommandVersion;
}.

Definition default_versions : SerializerVersions := mkVersions Consume_Version_1_0 Batch_Version_1_0.

(** ** Writing and reading a message *)

(** A buffer of [ByteSizeLong] bytes the message is written to. *)
Definition serialize_to_buffer {M} `{!ProtoMessage M} (m : M) : ExecutionResult * BytesBuffer :=
  match SerializeToArray m with
  | None => (FailureExecutionResult SC_PBS_TRANSACTION_COMMAND_SERIALIZER_SERIALIZATION_FAILED,
             set_length (ByteSizeLong m) (NewBytesBuffer (ByteSizeLong m)))
  | Some data => (SuccessExecutionResult, mkBuffer data (ByteSizeLong m) (ByteSizeLong m))
  end.

(** [length == 0 || !ParseFromArray(bytes->data(), length)] *)
Definition parse_buffer {M} `{!ProtoMessage M} (b : BytesBuffer) : option M :=
  if buffer_length b =? 0 then None else ParseFromArray (BufferContents b).

Section serializer.
  Context `{!CommandMessages}.

(** ** Commands for one budget *)

Definition SerializeVersion_1_0 (transaction_command : TransactionCommand) : ExecutionResult * BytesBuffer :=
  match transaction_command with
  | ConsumeCommand c =>
      serialize_to_buffer (mkConsumeBudgetCommand_1_0 (budget_key_name_ c)
        (info_time_bucket (budget_consumption_ c)) (info_token_count (budget_consumption_ c)))
  | _ => (FailureExecutionResult SC_PBS_TRANSACTION_COMMAND_SERIALIZER_INVALID_COMMAND_TYPE, NewBytesBuffer 0)
  end.

Definition proto_of_info (c : ConsumeBudgetCommandRequestInfo) : BudgetConsumption_1_0 :=
  mkBudgetConsumption_1_0 (info_time_bucket c) (info_token_count c) (request_index c).

Definition SerializeVersion_1_1 (transaction_command : TransactionCommand) : ExecutionResult * BytesBuffer :=
  match transaction_command with
  | ConsumeCommand c =>
      serialize_to_buffer (mkConsumeBudgetCommand_1_1 (budget_key_name_ c) (proto_of_info (budget_consumption_ c)))
  | _ => (FailureExecutionResult SC_PBS_TRANSACTION_COMMAND_SERIALIZER_INVALID_COMMAND_TYPE, NewBytesBuffer 0)
  end.

(** The token count is a [uint32] in the message and a [uint8_t] in the
    command. *)
Definition DeserializeVersion_1_0 (transaction_id : Uuid) (bytes_buffer : BytesBuffer)
  : ExecutionResult * option TransactionCommand :=
  match parse_buffer (M := ConsumeBudgetCommand_1_0) bytes_buffer with
  | None => (FailureExecutionResult SC_PBS_TRANSACTION_COMMAND_SERIALIZER_DESERIALIZATION_FAILED, None)
  | Some m =>
      (SuccessExecutionResult,
       Some (ConsumeCommand (ConsumeBudgetCommand.ConstructWithDependencies transaction_id (budget_key_name_1_0 m)
         (mkRequestInfo (time_bucket_1_0 m) (u8 (token_count_1_0 m)) None))))
  end.

Definition info_of_proto (m : BudgetConsumption_1_0) : ConsumeBudgetCommandRequestInfo :=
  mkRequestInfo (proto_time_bucket m) (u8 (proto_token_count m)) (proto_request_index m).

Definition DeserializeVersion_1_1 (transaction_id : Uuid) (bytes_buffer : BytesBuffer)
  : ExecutionResult * option TransactionCommand :=
  match parse_buffer (M := ConsumeBudgetCommand_1_1) bytes_buffer with
  | None => (FailureExecutionResult SC_PBS_TRANSACTION_COMMAND_SERIALIZER_DESERIALIZATION_FAILED, None)
  | Some m =>
      (SuccessExecutionResult,
       Some (ConsumeCommand (ConsumeBudgetCommand.ConstructWithDependencies transaction_id (budget_key_name_1_1 m)
         (info_of_proto (budget_consumption_1_1 m)))))
  end.

(** ** Commands for several budgets *)

Definition SerializeBatchVersion_1_0 (transaction_command : TransactionCommand) : ExecutionResult * BytesBuffer :=
  match transaction_command with
  | BatchCommand c =>
      serialize_to_buffer (mkBatchConsumeBudgetCommand_1_0 (batch_budget_key_name_ c)
        (proto_of_info <$> budget_consumptions_ c))
  | _ => (FailureExecutionResult SC_PBS_TRANSACTION_COMMAND_SERIALIZER_INVALID_COMMAND_TYPE, NewBytesBuffer 0)
  end.

Definition DeserializeBatchVersion_1_0 (transaction_id : Uuid) (bytes_buffer : BytesBuffer)
  : ExecutionResult * option TransactionCommand :=
  match parse_buffer (M := BatchConsumeBudgetCommand_1_0) bytes_buffer with
  | None => (FailureExecutionResult SC_PBS_TRANSACTION_COMMAND_SERIALIZER_DESERIALIZATION_FAILED, None)
  | Some m =>
      (SuccessExecutionResult,
       Some (BatchCommand (BatchConsumeBudgetCommand.ConstructWithDependencies transaction_id
         (batch_budget_key_name_1_0 m) (info_of_proto <$> batch_budget_consumptions_1_0 m))))
  end.

(** ** The serializer *)

  Variable versions : SerializerVersions.

Definition CanSerialize (transaction_command : TransactionCommand) : ExecutionResult :=
  if negb (bool_decide (command_id transaction_command = kConsumeBudgetCommandId)) &&
     negb (bool_decide (command_id transaction_command = kBatchConsumeBudgetCommandId)) then
    FailureExecutionResult SC_PBS_TRANSACTION_COMMAND_SERIALIZER_UNSUPPORTED
  else SuccessExecutionResult.

Definition CanDeserialize (transaction_command_log : TransactionCommandLog) : ExecutionResult :=
  if negb (major (command_log_version transaction_command_log) =? major kCurrentVersion) ||
     negb (minor (command_log_version transaction_command_log) =? minor kCurrentVersion) then
    FailureExecutionResult SC_PBS_TRANSACTION_COMMAND_SERIALIZER_INVALID_COMMAND_VERSION
  else SuccessExecutionResult.

(** The log of a command that serialized; [None] when it did not. *)
Definition command_log (type : CommandType) (written : ExecutionResult * BytesBuffer)
  : ExecutionResult * option TransactionCommandLog_1_0 :=
  let '(execution_result, buffer) := written in
  if negb (Successful execution_result) then (execution_result, None)
  else (execution_result, Some (mkCommandLog_1_0 type (BufferContents buffer))).

Definition SerializeConsumeBudgetCommandToTransactionLog (command : TransactionCommand)
  : ExecutionResult * option TransactionCommandLog_1_0 :=
  match consume_budget_command_version_for_serialization_ versions with
  | Consume_Version_1_1 => command_log CONSUME_BUDGET_COMMAND_1_1 (SerializeVersion_1_1 command)
  | Consume_Version_1_0 => command_log CONSUME_BUDGET_COMMAND_1_0 (SerializeVersion_1_0 command)
  | Consume_Version_Unknown =>
      (FailureExecutionResult SC_PBS_TRANSACTION_COMMAND_SERIALIZER_INVALID_COMMAND_TYPE, None)
  end.

Definition SerializeBatchConsumeBudgetCommandToTransactionLog (command : TransactionCommand)
  : ExecutionResult * option TransactionCommandLog_1_0 :=
  match batch_consume_budget_command_version_for_serialization_ versions with
  | Batch_Version_1_0 => command_log BATCH_CONSUME_BUDGET_COMMAND_1_0 (SerializeBatchVersion_1_0 command)
  | Batch_Version_Unknown =>
      (FailureExecutionResult SC_PBS_TRANSACTION_COMMAND_SERIALIZER_INVALID_COMMAND_VERSION, None)
  end.

Definition Serialize (transaction_command : TransactionCommand) : ExecutionResult * BytesBuffer :=
  let execution_result := CanSerialize transaction_command in
  if negb (Successful execution_result) then (execution_result, NewBytesBuffer 0)
  else
    let '(execution_result, log) :=
      if bool_decide (command_id transaction_command = kConsumeBudgetCommandId)
      then SerializeConsumeBudgetCommandToTransactionLog transaction_command
      else SerializeBatchConsumeBudgetCommandToTransactionLog transaction_command in
    match log with
    | None => (execution_result, NewBytesBuffer 0)
    | Some transaction_command_log_1_0 =>
        let '(execution_result, log_bytes_buffer) := serialize_to_buffer transaction_command_log_1_0 in
        if negb (Successful execution_result) then (execution_result, NewBytesBuffer 0)
        else serialize_to_buffer (mkCommandLog kCurrentVersion (BufferContents log_bytes_buffer))
    end.

Definition Deserialize (transaction_id : Uuid) (bytes_buffer : BytesBuffer)
  : ExecutionResult * option TransactionCommand :=
  match parse_buffer (M := TransactionCommandLog) bytes_buffer with
  | None => (FailureExecutionResult SC_PBS_TRANSACTION_COMMAND_SERIALIZER_INVALID_TRANSACTION_LOG, None)
  | Some transaction_command_log =>
      let execution_result := CanDeserialize transaction_command_log in
      if negb (Successful execution_result) then (execution_result, None)
      else
        match parse_buffer (M := TransactionCommandLog_1_0) (BytesBufferOf (command_log_body transaction_command_log)) with
        | None => (FailureExecutionResult SC_PBS_TRANSACTION_COMMAND_SERIALIZER_DESERIALIZATION_FAILED, None)
        | Some transaction_command_log_1_0 =>
            let command_bytes_buffer := BytesBufferOf (command_log_1_0_body transaction_command_log_1_0) in
            match command_log_type transaction_command_log_1_0 with
            | CONSUME_BUDGET_COMMAND_1_1 => DeserializeVersion_1_1 transaction_id command_bytes_buffer
            | CONSUME_BUDGET_COMMAND_1_0 => DeserializeVersion_1_0 transaction_id command_bytes_buffer
            | BATCH_CONSUME_BUDGET_COMMAND_1_0 => DeserializeBatchVersion_1_0 transaction_id command_bytes_buffer
            | COMMAND_TYPE_UNKNOWN =>
                (FailureExecutionResult SC_PBS_TRANSACTION_COMMAND_SERIALIZER_INVALID_COMMAND_TYPE, None)
            end
        end
  end.

End serializer.

(** ** What the library documents of the messages *)

(** Fields that fit their types, a key's name in UTF-8 that is not empty, and no
    more bytes than the engine's logs allow a command. *)
Definition max_command : Z := 2 ^ 23.
Definition max_command_log_1_0 : Z := 2 ^ 23 + 16.
Definition max_command_log : Z := 2 ^ 23 + 64.

Definition valid_name (name : string) : Prop := name ≠ EmptyString ∧ is_utf8 name = true.
Definition valid_consumption (m : BudgetConsumption_1_0) : Prop :=
  is_u64 (proto_time_bucket m) ∧ 0 ≤ proto_token_count m < 2 ^ 32 ∧ from_option is_u64 True (proto_request_index m).

Definition valid_consume_1_0 `{!CommandMessages} (m : ConsumeBudgetCommand_1_0) : Prop :=
  valid_name (budget_key_name_1_0 m) ∧ is_u64 (time_bucket_1_0 m) ∧ 0 ≤ token_count_1_0 m < 2 ^ 32 ∧
  ByteSizeLong m ≤ max_command.
Definition valid_consume_1_1 `{!CommandMessages} (m : ConsumeBudgetCommand_1_1) : Prop :=
  valid_name (budget_key_name_1_1 m) ∧ valid_consumption (budget_consumption_1_1 m) ∧ ByteSizeLong m ≤ max_command.
Definition valid_batch_1_0 `{!CommandMessages} (m : BatchConsumeBudgetCommand_1_0) : Prop :=
  valid_name (batch_budget_key_name_1_0 m) ∧ Forall valid_consumption (batch_budget_consumptions_1_0 m) ∧
  ByteSizeLong m ≤ max_command.
Definition valid_command_log_1_0 (m : TransactionCommandLog_1_0) : Prop :=
  command_log_type m ≠ COMMAND_TYPE_UNKNOWN ∧ Z.of_nat (length (command_log_1_0_body m)) ≤ max_command.
Definition valid_command_log (m : TransactionCommandLog) : Prop :=
  is_u64 (major (command_log_version m)) ∧ is_u64 (minor (command_log_version m)) ∧
  Z.of_nat (length (command_log_body m)) ≤ max_command_log_1_0.

Class CommandLaws `{CommandMessages} := {
  #[global] consume_1_0_laws :: ProtoMessageLaws ConsumeBudgetCommand_1_0 valid_consume_1_0 max_command;
  #[global] consume_1_1_laws :: ProtoMessageLaws ConsumeBudgetCommand_1_1 valid_consume_1_1 max_command;
  #[global] batch_1_0_laws :: ProtoMessageLaws BatchConsumeBudgetCommand_1_0 valid_batch_1_0 max_command;
  #[global] command_log_1_0_laws ::
    ProtoMessageLaws TransactionCommandLog_1_0 valid_command_log_1_0 max_command_log_1_0;
  #[global] command_log_laws :: ProtoMessageLaws TransactionCommandLog valid_command_log max_command_log;
  #[global] consume_1_0_not_empty :: ProtoNotEmpty ConsumeBudgetCommand_1_0 valid_consume_1_0 max_command;
  #[global] consume_1_1_not_empty :: ProtoNotEmpty ConsumeBudgetCommand_1_1 valid_consume_1_1 max_command;
  #[global] batch_1_0_not_empty :: ProtoNotEmpty BatchConsumeBudgetCommand_1_0 valid_batch_1_0 max_command;
  #[global] command_log_1_0_not_empty ::
    ProtoNotEmpty TransactionCommandLog_1_0 valid_command_log_1_0 max_command_log_1_0;
  #[global] command_log_not_empty :: ProtoNotEmpty TransactionCommandLog valid_command_log max_command_log;
}.

(** ** Messages written and read *)

Section messages.
  Context {M : Type} `{!ProtoMessage M} (valid : M → Prop) (max : Z)
    `{!ProtoMessageLaws M valid max} `{!ProtoNotEmpty M valid max}.
  #[local] Set Default Proof Using "Type*".

Lemma serialize_to_buffer_valid m : valid m →
  ∃ b, serialize_to_buffer m = (SuccessExecutionResult, b) ∧ BufferContents b = proto_bytes m ∧
    buffer_length b = Z.of_nat (length (proto_bytes m)).
Proof.
  intros Hm. unfold serialize_to_buffer. rewrite proto_serialize by done. eexists. split; [done|].
  unfold BufferContents. cbn [buffer_length bytes]. rewrite proto_size by done. split; [|done].
  by rewrite Nat2Z.id, firstn_all.
Qed.

Lemma parse_buffer_bytes m : valid m → parse_buffer (BytesBufferOf (proto_bytes m)) = Some m.
Proof.
  intros Hm. unfold parse_buffer, BytesBufferOf, BufferContents. cbn [buffer_length bytes].
  pose proof (proto_not_empty m Hm) as Hne. rewrite (proj2 (Z.eqb_neq _ _)) by (by destruct (proto_bytes m)).
  rewrite Nat2Z.id, firstn_all. by apply proto_parse.
Qed.

End messages.

(** ** Round trips *)

(** As [ConstructWithDependencies] makes them, with fields that fit the
    messages; version 1.0 has no place for a request index. *)
Definition storable_info (c : ConsumeBudgetCommandRequestInfo) : Prop :=
  is_u64 (info_time_bucket c) ∧ is_u8 (info_token_count c) ∧ from_option is_u64 True (request_index c).

Definition storable_budget_command `{!CommandMessages} (versions : SerializerVersions) (transaction_id : Uuid)
    (c : TransactionCommand) : Prop :=
  match c with
  | ConsumeCommand c =>
      c = ConsumeBudgetCommand.ConstructWithDependencies transaction_id (budget_key_name_ c) (budget_consumption_ c) ∧
      valid_name (budget_key_name_ c) ∧ storable_info (budget_consumption_ c) ∧
      (consume_budget_command_version_for_serialization_ versions = Consume_Version_1_0 →
       request_index (budget_consumption_ c) = None) ∧
      ByteSizeLong (mkConsumeBudgetCommand_1_0 (budget_key_name_ c) (info_time_bucket (budget_consumption_ c))
        (info_token_count (budget_consumption_ c))) ≤ max_command ∧
      ByteSizeLong (mkConsumeBudgetCommand_1_1 (budget_key_name_ c) (proto_of_info (budget_consumption_ c)))
        ≤ max_command
  | BatchCommand c =>
      c = BatchConsumeBudgetCommand.ConstructWithDependencies transaction_id (batch_budget_key_name_ c)
            (budget_consumptions_ c) ∧
      valid_name (batch_budget_key_name_ c) ∧ Forall storable_info (budget_consumptions_ c) ∧
      ByteSizeLong (mkBatchConsumeBudgetCommand_1_0 (batch_budget_key_name_ c)
        (proto_of_info <$> budget_consumptions_ c)) ≤ max_command
  | OtherCommand _ => False
  end.

(** The serializer the engine is given. *)
#[export] Instance transaction_command_serializer `{!CommandMessages} (versions : SerializerVersions)
  : TransactionCommandSerializerInterface TransactionCommand := {|
  SerializeCommand _ c := Serialize versions c;
  DeserializeCommand transaction_id b := Deserialize transaction_id b;
  storable_command := storable_budget_command versions;
|}.

Lemma info_of_proto_of_info c : storable_info c → info_of_proto (proto_of_info c) = c ∧ valid_consumption (proto_of_info c).
Proof.
  destruct c as [tb tc i]. intros (Ht & Hc & Hi). unfold info_of_proto, proto_of_info; cbn in *.
  rewrite u8_id by done. split; [done|]. split; [done|]. split; [|done]. unfold is_u8 in Hc. cbn. lia.
Qed.

Lemma infos_of_protos cs : Forall storable_info cs →
  info_of_proto <$> (proto_of_info <$> cs) = cs ∧ Forall valid_consumption (proto_of_info <$> cs).
Proof.
  induction 1 as [|c cs Hc _ [IH1 IH2]]; [by split; [|constructor]|].
  destruct (info_of_proto_of_info c Hc) as [H1 H2]. rewrite !fmap_cons, H1, IH1. split; [done|]. by constructor.
Qed.

Section roundtrip.
  Context {msgs : CommandMessages} {laws : CommandLaws}.
  #[local] Set Default Proof Using "Type*".

(** A command's message in its two logs is read as the command's message. *)
Lemma logs_written {M} `{!ProtoMessage M} (valid : M → Prop) `{!ProtoMessageLaws M valid max_command}
    `{!ProtoNotEmpty M valid max_command} (m : M) type :
  valid m → type ≠ COMMAND_TYPE_UNKNOWN →
  ∃ log b, command_log type (serialize_to_buffer m) = (SuccessExecutionResult, Some log) ∧
    (let '(r, lb) := serialize_to_buffer log in
     if negb (Successful r) then (r, NewBytesBuffer 0)
     else serialize_to_buffer (mkCommandLog kCurrentVersion (BufferContents lb))) = (SuccessExecutionResult, b) ∧
    ∀ transaction_id, Deserialize transaction_id (BytesBufferOf (BufferContents b)) =
      match type with
      | CONSUME_BUDGET_COMMAND_1_1 => DeserializeVersion_1_1 transaction_id (BytesBufferOf (proto_bytes m))
      | CONSUME_BUDGET_COMMAND_1_0 => DeserializeVersion_1_0 transaction_id (BytesBufferOf (proto_bytes m))
      | BATCH_CONSUME_BUDGET_COMMAND_1_0 => DeserializeBatchVersion_1_0 transaction_id (BytesBufferOf (proto_bytes m))
      | COMMAND_TYPE_UNKNOWN =>
          (FailureExecutionResult SC_PBS_TRANSACTION_COMMAND_SERIALIZER_INVALID_COMMAND_TYPE, None)
      end.
Proof.
  intros Hm Htype. destruct (serialize_to_buffer_valid valid max_command m Hm) as (bm & -> & Hbm & _).
  unfold command_log. change (negb (Successful SuccessExecutionResult)) with false. cbn iota. rewrite Hbm.
  set (log := mkCommandLog_1_0 type (proto_bytes m)).
  assert (valid_command_log_1_0 log) as Hlog.
  { split; [done|]. cbn. rewrite <- proto_size by done. by apply proto_size_bound. }
  destruct (serialize_to_buffer_valid valid_command_log_1_0 max_command_log_1_0 log Hlog) as (bl & Hbl & Hcl & _).
  set (outer := mkCommandLog kCurrentVersion (proto_bytes log)).
  assert (valid_command_log outer) as Houter.
  { pose proof (proto_size_bound log Hlog) as Hb. rewrite (proto_size log Hlog) in Hb.
    split; [done|]. split; [done|]. done. }
  destruct (serialize_to_buffer_valid valid_command_log max_command_log outer Houter) as (b & Hb & Hcb & _).
  exists log, b. split; [done|]. split; [rewrite Hbl; cbn iota; change (negb (Successful SuccessExecutionResult)) with false; cbn iota; by rewrite Hcl|].
  intros transaction_id. unfold Deserialize. rewrite Hcb.
  rewrite (parse_buffer_bytes valid_command_log max_command_log outer Houter).
  change (negb (Successful (CanDeserialize outer))) with false. cbn iota. cbn [command_log_body outer].
  rewrite (parse_buffer_bytes valid_command_log_1_0 max_command_log_1_0 log Hlog). done.
Qed.

(** A command for one budget in version 1.0, with the index left out. *)
Lemma consume_written_1_0 versions transaction_id (c : ConsumeBudgetCommand) :
  consume_budget_command_version_for_serialization_ versions = Consume_Version_1_0 →
  valid_name (budget_key_name_ c) → storable_info (budget_consumption_ c) →
  ByteSizeLong (mkConsumeBudgetCommand_1_0 (budget_key_name_ c) (info_time_bucket (budget_consumption_ c))
    (info_token_count (budget_consumption_ c))) ≤ max_command →
  ∃ b, Serialize versions (ConsumeCommand c) = (SuccessExecutionResult, b) ∧
    Deserialize transaction_id (BytesBufferOf (BufferContents b)) = (SuccessExecutionResult,
      Some (ConsumeCommand (ConsumeBudgetCommand.ConstructWithDependencies transaction_id (budget_key_name_ c)
        (mkRequestInfo (info_time_bucket (budget_consumption_ c)) (info_token_count (budget_consumption_ c)) None)))).
Proof.
  intros Hversion Hname (Ht & Hc & Hi) Hsize. set (m := mkConsumeBudgetCommand_1_0 _ _ _) in Hsize.
  assert (valid_consume_1_0 m) as Hm.
  { split; [done|]. split; [done|]. split; [|done]. unfold is_u8 in Hc. cbn. lia. }
  destruct (logs_written valid_consume_1_0 m CONSUME_BUDGET_COMMAND_1_0 Hm) as (log & b & Hlog & Hb & Hread); [done|].
  exists b. split.
  - unfold Serialize. change (negb (Successful (CanSerialize (ConsumeCommand c)))) with false. cbn iota.
    rewrite bool_decide_true by done. unfold SerializeConsumeBudgetCommandToTransactionLog. rewrite Hversion.
    change (SerializeVersion_1_0 (ConsumeCommand c)) with (serialize_to_buffer m). by rewrite Hlog.
  - rewrite Hread. unfold DeserializeVersion_1_0.
    rewrite (parse_buffer_bytes valid_consume_1_0 max_command m Hm). cbn. by rewrite u8_id by done.
Qed.

Lemma consume_written_1_1 versions transaction_id (c : ConsumeBudgetCommand) :
  consume_budget_command_version_for_serialization_ versions = Consume_Version_1_1 →
  valid_name (budget_key_name_ c) → storable_info (budget_consumption_ c) →
  ByteSizeLong (mkConsumeBudgetCommand_1_1 (budget_key_name_ c) (proto_of_info (budget_consumption_ c)))
    ≤ max_command →
  ∃ b, Serialize versions (ConsumeCommand c) = (SuccessExecutionResult, b) ∧
    Deserialize transaction_id (BytesBufferOf (BufferContents b)) = (SuccessExecutionResult,
      Some (ConsumeCommand (ConsumeBudgetCommand.ConstructWithDependencies transaction_id (budget_key_name_ c)
        (budget_consumption_ c)))).
Proof.
  intros Hversion Hname Hinfo Hsize. destruct (info_of_proto_of_info _ Hinfo) as [Hback Hvalid].
  set (m := mkConsumeBudgetCommand_1_1 _ _) in Hsize. assert (valid_consume_1_1 m) as Hm by done.
  destruct (logs_written valid_consume_1_1 m CONSUME_BUDGET_COMMAND_1_1 Hm) as (log & b & Hlog & Hb & Hread); [done|].
  exists b. split.
  - unfold Serialize. change (negb (Successful (CanSerialize (ConsumeCommand c)))) with false. cbn iota.
    rewrite bool_decide_true by done. unfold SerializeConsumeBudgetCommandToTransactionLog. rewrite Hversion.
    change (SerializeVersion_1_1 (ConsumeCommand c)) with (serialize_to_buffer m). by rewrite Hlog.
  - rewrite Hread. unfold DeserializeVersion_1_1.
    rewrite (parse_buffer_bytes valid_consume_1_1 max_command m Hm). cbn. by rewrite Hback.
Qed.

Lemma batch_written versions transaction_id (c : BatchConsumeBudgetCommand) :
  batch_consume_budget_command_version_for_serialization_ versions = Batch_Version_1_0 →
  valid_name (batch_budget_key_name_ c) → Forall storable_info (budget_consumptions_ c) →
  ByteSizeLong (mkBatchConsumeBudgetCommand_1_0 (batch_budget_key_name_ c) (proto_of_info <$> budget_consumptions_ c))
    ≤ max_command →
  ∃ b, Serialize versions (BatchCommand c) = (SuccessExecutionResult, b) ∧
    Deserialize transaction_id (BytesBufferOf (BufferContents b)) = (SuccessExecutionResult,
      Some (BatchCommand (BatchConsumeBudgetCommand.ConstructWithDependencies transaction_id
        (batch_budget_key_name_ c) (budget_consumptions_ c)))).
Proof.
  intros Hversion Hname Hinfo Hsize. destruct (infos_of_protos _ Hinfo) as [Hback Hvalid].
  set (m := mkBatchConsumeBudgetCommand_1_0 _ _) in Hsize. assert (valid_batch_1_0 m) as Hm by done.
  destruct (logs_written valid_batch_1_0 m BATCH_CONSUME_BUDGET_COMMAND_1_0 Hm) as (log & b & Hlog & Hb & Hread);
    [done|].
  exists b. split.
  - unfold Serialize. change (negb (Successful (CanSerialize (BatchCommand c)))) with false. cbn iota.
    rewrite bool_decide_false by done. unfold SerializeBatchConsumeBudgetCommandToTransactionLog. rewrite Hversion.
    change (SerializeBatchVersion_1_0 (BatchCommand c)) with (serialize_to_buffer m). by rewrite Hlog.
  - rewrite Hread. unfold DeserializeBatchVersion_1_0.
    rewrite (parse_buffer_bytes valid_batch_1_0 max_command m Hm). cbn. by rewrite Hback.
Qed.

(** The versions the serializer writes are known to it. *)
Definition known_version (versions : SerializerVersions) (c : TransactionCommand) : Prop :=
  match c with
  | ConsumeCommand _ => consume_budget_command_version_for_serialization_ versions ≠ Consume_Version_Unknown
  | BatchCommand _ => batch_consume_budget_command_version_for_serialization_ versions ≠ Batch_Version_Unknown
  | OtherCommand _ => True
  end.

Lemma storable_written versions transaction_id c :
  known_version versions c → storable_budget_command versions transaction_id c →
  ∃ b, Serialize versions c = (SuccessExecutionResult, b) ∧
    Deserialize transaction_id (BytesBufferOf (BufferContents b)) = (SuccessExecutionResult, Some c).
Proof.
  intros Hknown. destruct c as [c|c|i]; cbn [known_version] in Hknown; [| |done].
  - intros (Hc & Hname & Hinfo & Hindex & H10 & H11).
    destruct (consume_budget_command_version_for_serialization_ versions) eqn:Hv; [done| |].
    + destruct (consume_written_1_0 versions transaction_id c Hv Hname Hinfo H10) as (b & Hb & Hread).
      exists b. split; [done|]. rewrite Hread, Hc. cbn. specialize (Hindex eq_refl).
      destruct (budget_consumption_ c) as [tb tc i]. cbn in *. by rewrite Hindex.
    + destruct (consume_written_1_1 versions transaction_id c Hv Hname Hinfo H11) as (b & Hb & Hread).
      exists b. split; [done|]. by rewrite Hread, <- Hc.
  - intros (Hc & Hname & Hinfo & Hsize).
    destruct (batch_consume_budget_command_version_for_serialization_ versions) eqn:Hv; [done|].
    destruct (batch_written versions transaction_id c Hv Hname Hinfo Hsize) as (b & Hb & Hread).
    exists b. split; [done|]. by rewrite Hread, <- Hc.
Qed.

(** The serializer keeps the promise the engine relies on. *)
#[export] Instance transaction_command_serializer_laws versions :
  @TransactionCommandSerializerLaws TransactionCommand (transaction_command_serializer versions).
Proof.
  intros transaction_id c b Hstore Hb. change (Serialize versions c = (SuccessExecutionResult, b)) in Hb.
  change (storable_budget_command versions transaction_id c) in Hstore.
  assert (known_version versions c) as Hknown.
  { destruct c as [c|c|i]; [| |done]; intros Hv; revert Hb;
      unfold Serialize, SerializeConsumeBudgetCommandToTransactionLog,
        SerializeBatchConsumeBudgetCommandToTransactionLog; by rewrite Hv. }
  destruct (storable_written versions transaction_id c Hknown Hstore) as (b' & Hb' & Hread).
  rewrite Hb' in Hb. by injection Hb as <-.
Qed.

(** C40: a serializer with known versions writes every storable command, one made
    with its dependencies for its transaction, and what it writes is read back as
    that command, for one budget or several; in version 1.0 a command for one
    budget comes back without its request index, whatever it was. *)
Theorem Serialize_roundtrip versions transaction_id c :
  known_version versions c →
  (storable_budget_command versions transaction_id c →
   ∃ b, Serialize versions c = (SuccessExecutionResult, b) ∧
     Deserialize transaction_id (BytesBufferOf (BufferContents b)) = (SuccessExecutionResult, Some c)) ∧
  ∀ name info,
    c = ConsumeCommand (ConsumeBudgetCommand.ConstructWithDependencies transaction_id name info) →
    consume_budget_command_version_for_serialization_ versions = Consume_Version_1_0 →
    valid_name name → storable_info info →
    ByteSizeLong (mkConsumeBudgetCommand_1_0 name (info_time_bucket info) (info_token_count info)) ≤ max_command →
    ∃ b, Serialize versions c = (SuccessExecutionResult, b) ∧
      Deserialize transaction_id (BytesBufferOf (BufferContents b)) = (SuccessExecutionResult,
        Some (ConsumeCommand (ConsumeBudgetCommand.ConstructWithDependencies transaction_id name
          (mkRequestInfo (info_time_bucket info) (info_token_count info) None)))).
Proof.
  intros Hknown. split; [by apply storable_written|]. intros name info -> Hv Hname Hinfo Hsize.
  by apply (consume_written_1_0 versions transaction_id
    (ConsumeBudgetCommand.ConstructWithDependencies transaction_id name info)).
Qed.

End roundtrip.
