(* ===== verification/CommandExamples.v ===== *)
(** * Examples of the commands

    Commands run against an environment that asks for retries, and a wire form of
    their messages. *)

From S2P Require Import Prelude Text ExecutionResult ErrorCodes Uuid Serialization Dispatcher TransactionProtocol.
From S2P Require Import ConsumeBudgetCommand BatchConsumeBudgetCommand CommandRun TransactionLog.
From S2P Require Import TransactionCommandSerializer.
From stdpp Require Import options.

Local Open Scope Z_scope.

(** ** Running *)

Module ExampleCommands.

Definition info (t n : Z) (i : option Z) : ConsumeBudgetCommandRequestInfo := mkRequestInfo t n i.

Definition single : ConsumeBudgetCommand :=
  ConsumeBudgetCommand.ConstructWithDependencies (mkUuid 1 2) "key" (info 5 1 (Some 0)).
Definition batch : BatchConsumeBudgetCommand :=
  BatchConsumeBudgetCommand.ConstructWithDependencies (mkUuid 1 2) "key" [info 5 1 (Some 0); info 7 2 (Some 1)].

(** Loading asks for one retry and succeeds at the second try; then the
    protocol finds the second budget insufficient. *)
Definition insufficient : ExecutionResult :=
  FailureExecutionResult SC_PBS_BUDGET_KEY_CONSUME_BUDGET_INSUFFICIENT_BUDGET.

Definition environment_of (has : bool) (i : nat) : CommandEnvironment :=
  let answer := match i with
                | O => mkAnswer (RetryExecutionResult 7) (RetryExecutionResult 7)
                | 1%nat | 2%nat | 3%nat => mkAnswer SuccessExecutionResult SuccessExecutionResult
                | _ => mkAnswer SuccessExecutionResult insufficient
                end in
  mkCommandEnvironment (mkEnvironment answer 1000 SuccessExecutionResult) (10 ^ 12) (Some [1%nat]) has.
Definition environment : nat → CommandEnvironment := environment_of true.

Example batch_run :
  command_run environment 84 0 batch (perform (environment 0) (DispatchGetBudgetKey "key" PreparePhase))
  = (BatchConsumeBudgetCommand.set_failed [info 7 2 (Some 1)] batch, Told insufficient,
     [CallGetBudgetKey; CallGetBudgetKey; CallProtocol (batch_request batch PreparePhase)]).
Proof. by vm_compute. Qed.

(** The same, with keys that have no protocol for batches. *)
Example batch_run_missing :
  command_run (environment_of false) 84 0 batch (perform (environment_of false 0) (DispatchGetBudgetKey "key" PreparePhase))
  = (batch, Stuck, [CallGetBudgetKey; CallGetBudgetKey]).
Proof. by vm_compute. Qed.

(** ** A wire form *)

Definition put_option (o : option Z) : list Z := match o with Some i => [1; i] | None => [0; 0] end.
Definition get_option (p i : Z) : option Z := if p =? 1 then Some i else None.

Definition put_consumption (m : BudgetConsumption_1_0) : list Z :=
  [proto_time_bucket m; proto_token_count m] ++ put_option (proto_request_index m).
Fixpoint get_consumptions (bytes : list Z) : option (list BudgetConsumption_1_0) :=
  match bytes with
  | [] => Some []
  | t :: n :: p :: i :: rest => (λ l, mkBudgetConsumption_1_0 t n (get_option p i) :: l) <$> get_consumptions rest
  | _ => None
  end.

Lemma get_put_consumptions ms : get_consumptions (ms ≫= put_consumption) = Some ms.
Proof. induction ms as [|[t n [i|]] ms IH]; [done|..]; cbn; cbn in IH; by rewrite IH. Qed.

Definition command_types : list CommandType :=
  [COMMAND_TYPE_UNKNOWN; CONSUME_BUDGET_COMMAND_1_0; BATCH_CONSUME_BUDGET_COMMAND_1_0; CONSUME_BUDGET_COMMAND_1_1].
Definition command_type_number (t : CommandType) : Z :=
  match t with
  | COMMAND_TYPE_UNKNOWN => 0 | CONSUME_BUDGET_COMMAND_1_0 => 1
  | BATCH_CONSUME_BUDGET_COMMAND_1_0 => 2 | CONSUME_BUDGET_COMMAND_1_1 => 3
  end.

#[local] Instance example_consume_1_0 : ProtoMessage ConsumeBudgetCommand_1_0 :=
  fields_message (λ m, put_string (budget_key_name_1_0 m) ++ [time_bucket_1_0 m; token_count_1_0 m])
    (λ bytes, '(name, rest) ← get_list bytes;
              match rest with
              | [t; n] => Some (mkConsumeBudgetCommand_1_0 (string_of name) t n)
              | _ => None
              end).
#[local] Instance example_consume_1_1 : ProtoMessage ConsumeBudgetCommand_1_1 :=
  fields_message (λ m, put_string (budget_key_name_1_1 m) ++ put_consumption (budget_consumption_1_1 m))
    (λ bytes, '(name, rest) ← get_list bytes;
              ms ← get_consumptions rest;
              m ← head ms;
              Some (mkConsumeBudgetCommand_1_1 (string_of name) m)).
#[local] Instance example_batch_1_0 : ProtoMessage BatchConsumeBudgetCommand_1_0 :=
  fields_message (λ m, put_string (batch_budget_key_name_1_0 m) ++ (batch_budget_consumptions_1_0 m ≫= put_consumption))
    (λ bytes, '(name, rest) ← get_list bytes;
              ms ← get_consumptions rest;
              Some (mkBatchConsumeBudgetCommand_1_0 (string_of name) ms)).
#[local] Instance example_command_log_1_0 : ProtoMessage TransactionCommandLog_1_0 :=
  fields_message (λ m, command_type_number (command_log_type m) :: command_log_1_0_body m)
    (λ bytes, match bytes with
              | t :: body => (λ t, mkCommandLog_1_0 t body) <$> command_types !! Z.to_nat t
              | [] => None
              end).
#[local] Instance example_command_log : ProtoMessage TransactionCommandLog :=
  fields_message (λ m, major (command_log_version m) :: minor (command_log_version m) :: command_log_body m)
    (λ bytes, match bytes with
              | ma :: mi :: body => Some (mkCommandLog (mkVersion ma mi) body)
              | _ => None
              end).

#[export] Instance example_command_messages : CommandMessages := {|
  consume_1_0_message := example_consume_1_0;
  consume_1_1_message := example_consume_1_1;
  batch_1_0_message := example_batch_1_0;
  command_log_1_0_message := example_command_log_1_0;
  command_log_message := example_command_log;
|}.

Lemma consume_1_0_laws_hold : ProtoMessageLaws ConsumeBudgetCommand_1_0 valid_consume_1_0 max_command.
Proof.
  apply fields_message_laws; [by intros m (_ & _ & _ & H)|done|]. intros [name t n]. unfold put_string.
  cbn [budget_key_name_1_0 time_bucket_1_0 token_count_1_0]. rewrite get_put_list. cbn. by rewrite string_of_put.
Defined.
Lemma consume_1_1_laws_hold : ProtoMessageLaws ConsumeBudgetCommand_1_1 valid_consume_1_1 max_command.
Proof.
  apply fields_message_laws; [by intros m (_ & _ & H)|done|]. intros [name [t n [i|]]]; unfold put_string;
    cbn [budget_key_name_1_1 budget_consumption_1_1]; rewrite get_put_list; cbn; by rewrite string_of_put.
Defined.
Lemma batch_1_0_laws_hold : ProtoMessageLaws BatchConsumeBudgetCommand_1_0 valid_batch_1_0 max_command.
Proof.
  apply fields_message_laws; [by intros m (_ & _ & H)|done|]. intros [name ms]. unfold put_string.
  cbn [batch_budget_key_name_1_0 batch_budget_consumptions_1_0]. rewrite get_put_list. cbn [mbind option_bind].
  rewrite get_put_consumptions. cbn. by rewrite string_of_put.
Defined.
Lemma command_log_1_0_laws_hold : ProtoMessageLaws TransactionCommandLog_1_0 valid_command_log_1_0 max_command_log_1_0.
Proof.
  apply fields_message_laws; [|done|by intros [[] ?]]. intros m [_ H]. simpl.
  unfold max_command, max_command_log_1_0 in *. lia.
Defined.
Lemma command_log_laws_hold : ProtoMessageLaws TransactionCommandLog valid_command_log max_command_log.
Proof.
  apply fields_message_laws; [|done|by intros [[] ?]]. intros m (_ & _ & H). simpl.
  unfold max_command_log_1_0, max_command_log in *. lia.
Defined.

#[export] Instance example_command_laws : CommandLaws.
Proof.
  refine (Build_CommandLaws _ consume_1_0_laws_hold consume_1_1_laws_hold batch_1_0_laws_hold
            command_log_1_0_laws_hold command_log_laws_hold _ _ _ _ _); intros m Hm; done.
Defined.

End ExampleCommands.
Import ExampleCommands.

Lemma phase_told_witness :
  ∃ c' progress k m, command_run environment 84 0 batch (perform (environment 0%nat) (DispatchGetBudgetKey "key" PreparePhase))
      = (c', progress, replicate k CallGetBudgetKey ++ replicate m (CallProtocol (batch_request batch PreparePhase))) ∧
    (1 ≤ k ≤ 12)%nat ∧ (m ≤ 12)%nat ∧ phase_ends true batch PreparePhase m c' progress.
Proof.
  destruct (phase_told environment batch PreparePhase true) as (a & _ & -> & c' & progress & k & m & H & Hk & Hm & He).
  - intros i. split; [by vm_compute|]. split; [by vm_compute|]. simpl. repeat constructor.
  - reflexivity.
  - exists c', progress, k, m. split; [exact H|]. split; [exact Hk|]. split; [exact Hm|exact He].
Defined.

(** The index of the budget in the request is lost in version 1.0. *)
Lemma Serialize_roundtrip_witness :
  (∃ b, Serialize default_versions (BatchCommand batch) = (SuccessExecutionResult, b) ∧
    Deserialize (mkUuid 1 2) (BytesBufferOf (BufferContents b)) = (SuccessExecutionResult, Some (BatchCommand batch))) ∧
  ∃ b, Serialize default_versions (ConsumeCommand single) = (SuccessExecutionResult, b) ∧
    Deserialize (mkUuid 1 2) (BytesBufferOf (BufferContents b)) = (SuccessExecutionResult,
      Some (ConsumeCommand (ConsumeBudgetCommand.ConstructWithDependencies (mkUuid 1 2) "key" (info 5 1 None)))).
Proof.
  split.
  - apply (Serialize_roundtrip default_versions (mkUuid 1 2) (BatchCommand batch)); [done|].
    split; [done|]. split; [done|]. split; [|done]. repeat constructor; by vm_compute.
  - apply (proj2 (Serialize_roundtrip default_versions (mkUuid 1 2) (ConsumeCommand single) ltac:(done))
      "key"%string (info 5 1 (Some 0)) eq_refl eq_refl); [done|by vm_compute|done].
Defined.
