(* ===== verification/SpannerConsumeBudget.v ===== *)
(** * Consuming budgets in Spanner

    Models [cc/pbs/consume_budget/src/gcp/consume_budget.cc]: a request's budgets
    are read, checked and decremented in one database transaction. The database
    client and the JSON library are classes with their documented laws; the
    transaction's body is a function of the database it reads. A function that
    gives a status and a result is an [Outcome]; a vector access out of range is
    [Undefined] and an exception nobody catches is [Throw]. *)

From Stdlib Require Import Ascii Sorted.
From S2P Require Import Prelude Text ExecutionResult ErrorCodes TimeframeUtils.
From stdpp Require Import options.

Local Open Scope Z_scope.

(** ** Outcomes *)

Inductive Outcome (A : Type) :=
| Return (a : A)
| Fail (execution_result : ExecutionResult) (budget_exhausted_indices : list Z)
| Throw
| Undefined.
Arguments Return {_}. Arguments Fail {_}. Arguments Throw {_}. Arguments Undefined {_}.

#[export] Instance Outcome_ret : MRet Outcome := λ A a, Return a.
#[export] Instance Outcome_bind : MBind Outcome := λ A B f o,
  match o with
  | Return a => f a
  | Fail r i => Fail r i
  | Throw => Throw
  | Undefined => Undefined
  end.

(** ** Libraries *)

(** The [TokenCount] field of a text parsed as JSON. *)
Inductive JsonField := ParseError | NoField | NotString | Field (value : string).

Class Json := {
  json_token_count : string → JsonField;
  json_dump : string → string;  (* the object with that field only *)
}.

Class JsonLaws `{Json} : Prop := {
  json_parse_dump s : json_token_count (json_dump s) = Field s;
}.

(** [PbsPrimaryKey]: the budget key and the day. *)
Definition PbsPrimaryKey : Type := string * string.

Inductive Mutation :=
| InsertRows (rows : list (PbsPrimaryKey * string))
| UpdateRows (rows : list (PbsPrimaryKey * string)).

(** The budget table: reading some keys, and applying a commit. [None] is a
    status of the database that is not ok. *)
Class Spanner (DB : Type) := {
  spanner_read : DB → list PbsPrimaryKey → option (gmap PbsPrimaryKey string);
  spanner_apply : DB → list Mutation → option DB;
}.

Definition write_rows (rows : list (PbsPrimaryKey * string)) (t : gmap PbsPrimaryKey string)
  : gmap PbsPrimaryKey string :=
  foldl (λ t '(k, v), <[k := v]> t) t rows.

Definition write_mutation (t : gmap PbsPrimaryKey string) (m : Mutation) : gmap PbsPrimaryKey string :=
  match m with InsertRows rows | UpdateRows rows => write_rows rows t end.

Class SpannerLaws (DB : Type) `{Spanner DB} := {
  table : DB → gmap PbsPrimaryKey string;
  (* a read gives the rows of the keys it is asked for *)
  spanner_read_rows db keys rows : spanner_read db keys = Some rows →
    ∀ k, rows !! k = if decide (k ∈ keys) then table db !! k else None;
  (* a commit that succeeds has written every row of its mutations *)
  spanner_apply_rows db mutations db' : spanner_apply db mutations = Some db' →
    table db' = foldl write_mutation (table db) mutations;
}.

(** ** Data *)

Record ConsumeBudgetMetadata := mkBudget {
  budget_key_name : string;
  token_count : Z;
  time_bucket : Z;
}.

Record PbsBudgetKeyMutation := mkMutation {
  is_insertion : bool;
  token_count_ : list Z;
}.

Definition kDefaultTokenCountSize : nat := 24.
Definition kDefaultPrivacyBudgetCount : Z := 1.

Section consume_budgets.
  Context {DB : Type} `{!Json} `{!Spanner DB}.
  Variable split : string → list string.

(** A value-initialised mutation: no tokens, not an insertion. *)
Definition NewMutation : PbsBudgetKeyMutation := mkMutation false [].

Definition ResetTokenCount (m : PbsBudgetKeyMutation) : PbsBudgetKeyMutation :=
  mkMutation (is_insertion m) (replicate kDefaultTokenCountSize kDefaultPrivacyBudgetCount).

Definition set_is_insertion (b : bool) (m : PbsBudgetKeyMutation) : PbsBudgetKeyMutation :=
  mkMutation b (token_count_ m).

Definition ParsingError : ExecutionResult := FailureExecutionResult SC_CONSUME_BUDGET_PARSING_ERROR.
Definition BudgetExhausted : ExecutionResult := FailureExecutionResult SC_CONSUME_BUDGET_EXHAUSTED.

Definition ResetFromSpannerValue (m : PbsBudgetKeyMutation) (spanner_json : string)
  : Outcome PbsBudgetKeyMutation :=
  match json_token_count spanner_json with
  | ParseError => Fail ParsingError []
  | NoField => Fail ParsingError []
  | NotString => Throw
  | Field value =>
      let '(execution_result, tokens) := DeserializeHourTokensInTimeGroup split value [] in
      if negb (Successful execution_result) then Fail ParsingError []
      else Return (mkMutation (is_insertion m) tokens)
  end.

Definition ToSpannerJson (m : PbsBudgetKeyMutation) : Outcome string :=
  let '(execution_result, serialized_token_count) :=
    SerializeHourTokensInTimeGroup (token_count_ m) EmptyString in
  if negb (Successful execution_result) then Fail ParsingError []
  else Return (json_dump serialized_token_count).

(** [token_count_[hour]], unchecked. *)
Definition GetTokenCount (m : PbsBudgetKeyMutation) (hour : Z) : Outcome Z :=
  match token_count_ m !! Z.to_nat hour with Some c => Return c | None => Undefined end.

(** The count is narrowed to [uint8_t]. *)
Definition SetTokenCount (m : PbsBudgetKeyMutation) (hour count : Z) : Outcome PbsBudgetKeyMutation :=
  if bool_decide (Z.to_nat hour < length (token_count_ m))%nat then
    Return (mkMutation (is_insertion m) (<[Z.to_nat hour := u8 count]> (token_count_ m)))
  else Undefined.

Definition primary_key (metadata : ConsumeBudgetMetadata) : PbsPrimaryKey :=
  (budget_key_name metadata, to_string (GetTimeGroup (time_bucket metadata))).

Definition CreateSpannerKeySet (budgets_metadata : list ConsumeBudgetMetadata) : list PbsPrimaryKey :=
  primary_key <$> budgets_metadata.

(** ** The transaction's body *)

Abbreviation Mutations := (gmap PbsPrimaryKey PbsBudgetKeyMutation).

Fixpoint create_mutations (rows : list (PbsPrimaryKey * string)) (pbs_mutations : Mutations)
  : Outcome Mutations :=
  match rows with
  | [] => Return pbs_mutations
  | (key, spanner_json) :: rows' =>
      let pbs_mutation := default NewMutation (pbs_mutations !! key) in
      pbs_mutation ← ResetFromSpannerValue pbs_mutation spanner_json;
      create_mutations rows' (<[key := pbs_mutation]> pbs_mutations)
  end.

Definition CreatePbsMutations (query_results : gmap PbsPrimaryKey string) : Outcome Mutations :=
  create_mutations (map_to_list query_results) ∅.

Fixpoint exhausted_indices (i : Z) (budgets_metadata : list ConsumeBudgetMetadata)
    (pbs_mutations : Mutations) : Outcome (list Z) :=
  match budgets_metadata with
  | [] => Return []
  | metadata :: rest =>
      match pbs_mutations !! primary_key metadata with
      | None => exhausted_indices (i + 1) rest pbs_mutations
      | Some pbs_mutation =>
          current_token_count ← GetTokenCount pbs_mutation (GetTimeBucket (time_bucket metadata));
          indices ← exhausted_indices (i + 1) rest pbs_mutations;
          Return (if current_token_count <? token_count metadata then i :: indices else indices)
      end
  end.

Definition ValidatePbsMutations (budgets_metadata : list ConsumeBudgetMetadata)
    (pbs_mutations : Mutations) : Outcome unit :=
  budget_exhausted_indices ← exhausted_indices 0 budgets_metadata pbs_mutations;
  match budget_exhausted_indices with
  | [] => Return tt
  | _ :: _ => Fail BudgetExhausted budget_exhausted_indices
  end.

(** One turn of the loop of [UpdatePbsMutationsToConsumeBudgets]. *)
Definition consume_one (metadata : ConsumeBudgetMetadata) (pbs_mutations : Mutations) : Outcome Mutations :=
  let key := primary_key metadata in
  let pbs_mutations :=
    match pbs_mutations !! key with
    | Some _ => pbs_mutations
    | None => <[key := set_is_insertion true (ResetTokenCount NewMutation)]> pbs_mutations
    end in
  match pbs_mutations !! key with
  | None => Undefined (* unreachable: the key was inserted when it was missing *)
  | Some pbs_mutation =>
      let hours_of_the_day := GetTimeBucket (time_bucket metadata) in
      current_token_count ← GetTokenCount pbs_mutation hours_of_the_day;
      if current_token_count <? token_count metadata then Fail BudgetExhausted []
      else
        pbs_mutation ← SetTokenCount pbs_mutation hours_of_the_day (current_token_count - token_count metadata);
        Return (<[key := pbs_mutation]> pbs_mutations)
  end.

Fixpoint UpdatePbsMutationsToConsumeBudgets (budgets_metadata : list ConsumeBudgetMetadata)
    (pbs_mutations : Mutations) : Outcome Mutations :=
  match budgets_metadata with
  | [] => Return pbs_mutations
  | metadata :: rest =>
      pbs_mutations ← consume_one metadata pbs_mutations;
      UpdatePbsMutationsToConsumeBudgets rest pbs_mutations
  end.

(** The rows of the insertion and of the update builder. *)
Fixpoint build_rows (pbs_mutations : list (PbsPrimaryKey * PbsBudgetKeyMutation))
  : Outcome (list (PbsPrimaryKey * string) * list (PbsPrimaryKey * string)) :=
  match pbs_mutations with
  | [] => Return ([], [])
  | (pbs_key, pbs_mutation) :: rest =>
      json ← ToSpannerJson pbs_mutation;
      '(insertions, updates) ← build_rows rest;
      Return (if is_insertion pbs_mutation then ((pbs_key, json) :: insertions, updates)
              else (insertions, (pbs_key, json) :: updates))
  end.

Definition CreateSpannerMutations (pbs_mutations : Mutations) : Outcome (list Mutation) :=
  '(insertions, updates) ← build_rows (map_to_list pbs_mutations);
  let has_insert := negb (Nat.eqb (length insertions) 0) in
  let has_update := negb (Nat.eqb (length updates) 0) in
  Return ((if has_insert then [InsertRows insertions] else []) ++
          (if has_update then [UpdateRows updates] else [])).

(** The function given to [client.Commit], once the rows are read. *)
Definition commit_body (budgets : list ConsumeBudgetMetadata) (rows : gmap PbsPrimaryKey string)
  : Outcome (list Mutation) :=
  pbs_mutations ← CreatePbsMutations rows;
  _ ← ValidatePbsMutations budgets pbs_mutations;
  pbs_mutations ← UpdatePbsMutationsToConsumeBudgets budgets pbs_mutations;
  CreateSpannerMutations pbs_mutations.

(** The result, the response's [budget_exhausted_indices] when they are set,
    and the database; no result is an exception or undefined behaviour. *)
Definition FailToCommit : ExecutionResult := FailureExecutionResult SC_CONSUME_BUDGET_FAIL_TO_COMMIT.

Definition ConsumeBudgetsSync (db : DB) (budgets : list ConsumeBudgetMetadata)
  : Outcome (ExecutionResult * option (list Z) * DB) :=
  match spanner_read db (CreateSpannerKeySet budgets) with
  | None => Return (FailToCommit, None, db)
  | Some rows =>
      match commit_body budgets rows with
      | Return mutations =>
          match spanner_apply db mutations with
          | None => Return (FailToCommit, None, db)
          | Some db' => Return (SuccessExecutionResult, None, db')
          end
      | Fail captured_execution_result captured_budget_exhausted_indices =>
          let indices :=
            if status_code captured_execution_result =? SC_CONSUME_BUDGET_EXHAUSTED
            then Some captured_budget_exhausted_indices else None in
          Return (if negb (Successful captured_execution_result)
                  then captured_execution_result else FailToCommit, indices, db)
      | Throw => Throw
      | Undefined => Undefined
      end
  end.

(** ** Token counts *)

(** The token counts a row holds. *)
Definition row_tokens (spanner_json : string) : option (list Z) :=
  match json_token_count spanner_json with
  | Field value =>
      let '(execution_result, tokens) := DeserializeHourTokensInTimeGroup split value [] in
      if Successful execution_result then Some tokens else None
  | _ => None
  end.

Definition default_tokens : list Z := replicate kDefaultTokenCountSize kDefaultPrivacyBudgetCount.

(** A day of counts: 24 [uint8_t]s. *)
Definition day_of_tokens (tokens : list Z) : Prop :=
  length tokens = kDefaultTokenCountSize ∧ Forall is_u8 tokens.

Definition mutation_tokens (m : option PbsBudgetKeyMutation) : list Z :=
  default default_tokens (token_count_ <$> m).

(** What is left of a key's hour; a key not seen before has one token an hour. *)
Definition remaining (pbs_mutations : Mutations) (key : PbsPrimaryKey) (hour : Z) : Z :=
  mutation_tokens (pbs_mutations !! key) !!! Z.to_nat hour.

Definition well_formed (pbs_mutations : Mutations) : Prop :=
  ∀ key m, pbs_mutations !! key = Some m → day_of_tokens (token_count_ m).

(** What the request asks of a key's hour, all its budgets together. *)
Definition demand (budgets : list ConsumeBudgetMetadata) (key : PbsPrimaryKey) (hour : Z) : Z :=
  foldr (λ b acc, (if decide (primary_key b = key ∧ GetTimeBucket (time_bucket b) = hour)
                   then token_count b else 0) + acc) 0 budgets.

Definition valid_budget (b : ConsumeBudgetMetadata) : Prop :=
  is_u8 (token_count b) ∧ in_range_time (time_bucket b).

Definition is_hour (h : Z) : Prop := 0 ≤ h < 24.

Lemma mutation_tokens_Some m : mutation_tokens (Some m) = token_count_ m.
Proof. done. Qed.

Lemma default_tokens_day : day_of_tokens default_tokens.
Proof. split; [done|]. apply Forall_replicate. unfold is_u8, kDefaultPrivacyBudgetCount. lia. Qed.

Lemma mutation_tokens_day pm key : well_formed pm → day_of_tokens (mutation_tokens (pm !! key)).
Proof.
  intros Hwf. unfold mutation_tokens. destruct (pm !! key) as [m|] eqn:Hk; simpl; [by eapply Hwf|].
  apply default_tokens_day.
Qed.

Lemma day_lookup tokens h : day_of_tokens tokens → is_hour h →
  tokens !! Z.to_nat h = Some (tokens !!! Z.to_nat h) ∧ is_u8 (tokens !!! Z.to_nat h).
Proof.
  intros [Hlen Hu] Hh. unfold is_hour in Hh. unfold kDefaultTokenCountSize in Hlen.
  assert (is_Some (tokens !! Z.to_nat h)) as [x Hx] by (apply lookup_lt_is_Some; lia).
  rewrite (list_lookup_total_correct _ _ _ Hx). split; [done|]. by eapply Forall_lookup_1.
Qed.

Lemma remaining_u8 pm key h : well_formed pm → is_hour h → is_u8 (remaining pm key h).
Proof. intros Hwf Hh. by apply day_lookup; [apply mutation_tokens_day|]. Qed.

Lemma valid_budget_hour b : valid_budget b → is_hour (GetTimeBucket (time_bucket b)).
Proof. intros [_ Ht]. by apply GetTimeBucket_range. Qed.

Lemma demand_nonneg budgets key h : Forall valid_budget budgets → 0 ≤ demand budgets key h.
Proof.
  induction 1 as [|b budgets [Hb _] _ IH]; simpl; [done|]. unfold is_u8 in Hb. case_decide; lia.
Qed.

(** ** The loop that consumes *)

(** Whether a key's row is new, when it has one. *)
Definition insertion_of (pm : Mutations) (key : PbsPrimaryKey) : option bool :=
  is_insertion <$> pm !! key.

(** The effect of the budgets [budgets] on the mutations. *)
Definition consumed (budgets : list ConsumeBudgetMetadata) (pm pm' : Mutations) : Prop :=
  well_formed pm' ∧
  (∀ key h, is_hour h → remaining pm' key h = remaining pm key h - demand budgets key h) ∧
  (∀ key, insertion_of pm' key =
    match insertion_of pm key with
    | Some b => Some b
    | None => if decide (key ∈ primary_key <$> budgets) then Some true else None
    end).

Lemma consume_one_spec b pm :
  well_formed pm → valid_budget b →
  let left := remaining pm (primary_key b) (GetTimeBucket (time_bucket b)) in
  if left <? token_count b then consume_one b pm = Fail BudgetExhausted []
  else ∃ pm', consume_one b pm = Return pm' ∧ consumed [b] pm pm'.
Proof.
  intros Hwf Hb left. unfold consume_one. set (key := primary_key b) in *.
  set (hour := GetTimeBucket (time_bucket b)) in *.
  assert (is_hour hour) as Hh by by apply valid_budget_hour.
  set (m := default (set_is_insertion true (ResetTokenCount NewMutation)) (pm !! key)).
  set (pm1 := match pm !! key with Some _ => pm | None => <[key := _]> pm end).
  assert (pm1 !! key = Some m) as ->.
  { unfold pm1, m. destruct (pm !! key) eqn:Hk; [done|]. by rewrite lookup_insert_eq. }
  assert (token_count_ m = mutation_tokens (pm !! key)) as Htok by (unfold m; by destruct (pm !! key)).
  assert (∀ key', key' ≠ key → pm1 !! key' = pm !! key') as Hother.
  { intros key' Hne. unfold pm1. destruct (pm !! key); [done|]. by rewrite lookup_insert_ne. }
  pose proof (mutation_tokens_day pm key Hwf) as Hday.
  destruct (day_lookup _ hour Hday Hh) as [Hlook Hu8].
  unfold GetTokenCount. rewrite Htok, Hlook. cbn [mbind Outcome_bind]. fold (remaining pm key hour).
  fold left. destruct (left <? token_count b) eqn:Hlt; [done|].
  unfold SetTokenCount. rewrite Htok. rewrite bool_decide_true; [|by eapply lookup_lt_Some].
  cbn [mbind Outcome_bind]. eexists; split; [done|].
  assert (u8 (left - token_count b) = left - token_count b) as Hsub.
  { apply u8_id. destruct Hb as [Hc _]. unfold is_u8, left, remaining in *. lia. }
  rewrite Hsub. split_and!.
  - intros key' m' Hm'. destruct (decide (key' = key)) as [->|Hne].
    + rewrite lookup_insert_eq in Hm'. simplify_eq; simpl. destruct Hday as [Hlen Hall].
      split; [by rewrite length_insert|]. apply Forall_insert; [done|].
      destruct Hb as [Hc _]. unfold is_u8, left, remaining in *. lia.
    + rewrite lookup_insert_ne, Hother in Hm' by done. by eapply Hwf.
  - intros key' h Hh'. unfold remaining, demand; simpl. destruct (decide (key' = key)) as [->|Hne].
    + rewrite lookup_insert_eq, mutation_tokens_Some; simpl. destruct (decide (h = hour)) as [->|Hneh].
      * rewrite list_lookup_total_insert_eq by (by eapply lookup_lt_Some).
        rewrite decide_True by done. unfold left, remaining. lia.
      * unfold is_hour in *. rewrite list_lookup_total_insert_ne by lia.
        rewrite decide_False by naive_solver. lia.
    + rewrite lookup_insert_ne, Hother by done. rewrite decide_False by naive_solver. lia.
  - intros key'. unfold insertion_of; simpl. destruct (decide (key' = key)) as [->|Hne].
    + rewrite lookup_insert_eq; simpl. unfold m. destruct (pm !! key); simpl; [done|].
      rewrite decide_True by set_solver. done.
    + rewrite lookup_insert_ne, Hother by done. destruct (pm !! key'); simpl; [done|].
      rewrite decide_False by set_solver. done.
Qed.

Lemma demand_app budgets1 budgets2 key h :
  demand (budgets1 ++ budgets2) key h = demand budgets1 key h + demand budgets2 key h.
Proof. induction budgets1 as [|b budgets1 IH]; simpl; [lia|]. rewrite IH. lia. Qed.

Lemma consumed_trans budgets1 budgets2 pm1 pm2 pm3 :
  consumed budgets1 pm1 pm2 → consumed budgets2 pm2 pm3 → consumed (budgets1 ++ budgets2) pm1 pm3.
Proof.
  intros (_ & Hr1 & Hi1) (Hwf & Hr2 & Hi2). split_and!; [done| |].
  - intros key h Hh. rewrite Hr2, Hr1, demand_app by done. lia.
  - intros key. rewrite Hi2, Hi1, fmap_app. destruct (insertion_of pm1 key); [done|].
    repeat case_decide; set_solver.
Qed.

Lemma Update_spec budgets pm :
  well_formed pm → Forall valid_budget budgets →
  ((∀ key h, is_hour h → demand budgets key h ≤ remaining pm key h) ∧
   ∃ pm', UpdatePbsMutationsToConsumeBudgets budgets pm = Return pm' ∧ consumed budgets pm pm') ∨
  ((∃ key h, is_hour h ∧ remaining pm key h < demand budgets key h) ∧
   UpdatePbsMutationsToConsumeBudgets budgets pm = Fail BudgetExhausted []).
Proof.
  intros Hwf Hv. revert pm Hwf. induction Hv as [|b budgets Hb Hv IH]; intros pm Hwf; simpl.
  - left. split; [intros; by apply remaining_u8|]. exists pm. split; [done|]. split_and!; [done| |].
    + intros. simpl. lia.
    + intros key. unfold insertion_of. by destruct (pm !! key).
  - pose proof (consume_one_spec b pm Hwf Hb) as Hone. cbv zeta in Hone.
    set (key0 := primary_key b) in *. set (h0 := GetTimeBucket (time_bucket b)) in *.
    destruct (remaining pm key0 h0 <? token_count b) eqn:Hlt.
    + right. split; [|by rewrite Hone]. exists key0, h0. split; [by apply valid_budget_hour|].
      rewrite decide_True by done. pose proof (demand_nonneg budgets key0 h0 Hv). lia.
    + destruct Hone as (pm1 & -> & Hc1). cbn [mbind Outcome_bind].
      pose proof Hc1 as (Hwf1 & Hr1 & _).
      destruct (IH pm1 Hwf1) as [(Hfit & pm2 & -> & Hc2)|((key & h & Hh & Hlt') & ->)].
      * left. split; [|exists pm2; split; [done|]; by apply (consumed_trans [b] budgets pm pm1 pm2)].
        intros key h Hh. specialize (Hfit key h Hh). rewrite Hr1 in Hfit by done. simpl in Hfit.
        fold key0 h0 in Hfit. lia.
      * right. split; [|done]. exists key, h. split; [done|]. rewrite Hr1 in Hlt' by done.
        simpl in Hlt'. fold key0 h0 in Hlt'. lia.
Qed.

(** ** Rows *)

Lemma push_tokens_day texts acc tokens :
  push_tokens texts acc = (SuccessExecutionResult, tokens) →
  ∃ new, tokens = acc ++ new ∧ length new = length texts ∧ Forall is_u8 new.
Proof.
  revert acc. induction texts as [|s texts IH]; intros acc; simpl.
  - intros [= <-]. exists []. by rewrite app_nil_r.
  - destruct (stoi s) as [v|]; [|done]. intros (new & -> & Hl & Hu)%IH.
    exists (u8 v :: new). rewrite <- app_assoc. split_and!; [done|simpl; lia|].
    constructor; [apply u8_range|done].
Qed.

Lemma row_tokens_day json tokens : row_tokens json = Some tokens → day_of_tokens tokens.
Proof.
  unfold row_tokens, DeserializeHourTokensInTimeGroup. intros Hr.
  destruct (json_token_count json); try done.
  destruct (Nat.eqb (length (split value)) kHoursPerDay) eqn:Hlen; simpl in Hr; [|done].
  destruct (push_tokens (split value) []) as [r ts] eqn:Hp.
  destruct (Successful r) eqn:Hs; [|done]. simplify_eq.
  apply Successful_true in Hs as ->. apply push_tokens_day in Hp as (new & -> & Hl & Hu).
  apply Nat.eqb_eq in Hlen. simpl. split; [|done]. unfold kDefaultTokenCountSize, kHoursPerDay in *. lia.
Qed.

Lemma ResetFromSpannerValue_spec m json tokens :
  row_tokens json = Some tokens → ResetFromSpannerValue m json = Return (mkMutation (is_insertion m) tokens).
Proof.
  unfold row_tokens, ResetFromSpannerValue. intros Hr. destruct (json_token_count json); try done.
  destruct (DeserializeHourTokensInTimeGroup split value []) as [r ts].
  destruct (Successful r); simpl; [|done]. by simplify_eq.
Qed.

(** The rows a table may hold. *)
Definition well_formed_rows (rows : gmap PbsPrimaryKey string) : Prop :=
  ∀ key v, rows !! key = Some v → is_Some (row_tokens v).

Definition row_mutation (json : string) : option PbsBudgetKeyMutation :=
  mkMutation false <$> row_tokens json.

Lemma create_mutations_spec (rows : list (PbsPrimaryKey * string)) (pm : Mutations) :
  NoDup rows.*1 → (∀ key, key ∈ rows.*1 → pm !! key = None) →
  (∀ key v, (key, v) ∈ rows → is_Some (row_tokens v)) →
  ∃ pm', create_mutations rows pm = Return pm' ∧
    ∀ key, pm' !! key =
      match (list_to_map rows : gmap _ _) !! key with
      | Some v => row_mutation v
      | None => pm !! key
      end.
Proof.
  revert pm. induction rows as [|[key v] rows IH]; intros pm Hnd Hnew Hwf; simpl.
  { exists pm. split; [done|]. intros key. by rewrite lookup_empty. }
  apply NoDup_cons in Hnd as [Hnot Hnd].
  destruct (Hwf key v) as [ts Hts]; [by left|].
  rewrite Hnew by by left. rewrite (ResetFromSpannerValue_spec _ _ _ Hts).
  cbn [mbind Outcome_bind]. change (is_insertion (default NewMutation None)) with false.
  destruct (IH (<[key := mkMutation false ts]> pm)) as (pm' & -> & Hpm'); [done| | |].
  - intros key' Hk'. rewrite lookup_insert_ne by (intros ->; by apply Hnot). apply Hnew. by right.
  - intros. eapply Hwf. by right.
  - exists pm'. split; [done|]. intros key'. rewrite Hpm'. destruct (decide (key' = key)) as [->|Hne].
    + rewrite lookup_insert_eq, (not_elem_of_list_to_map_1 rows key) by done.
      rewrite lookup_insert_eq. unfold row_mutation. by rewrite Hts.
    + by rewrite !lookup_insert_ne by done.
Qed.

Lemma CreatePbsMutations_spec rows :
  well_formed_rows rows →
  ∃ pm, CreatePbsMutations rows = Return pm ∧ ∀ key, pm !! key = rows !! key ≫= row_mutation.
Proof.
  intros Hwf. unfold CreatePbsMutations.
  destruct (create_mutations_spec (map_to_list rows) ∅) as (pm & -> & Hpm).
  - apply NoDup_fst_map_to_list.
  - intros. apply lookup_empty.
  - intros key v Hin%elem_of_map_to_list. by eapply Hwf.
  - exists pm. split; [done|]. intros key. rewrite Hpm, list_to_map_to_list, lookup_empty.
    by destruct (rows !! key).
Qed.

(** ** Writing *)

(** The row a mutation is written as. *)
Definition mutation_row (m : PbsBudgetKeyMutation) : string :=
  json_dump (append_tokens 0 (length (token_count_ m)) (token_count_ m) EmptyString).

Lemma ToSpannerJson_spec m : length (token_count_ m) = kDefaultTokenCountSize →
  ToSpannerJson m = Return (mutation_row m).
Proof.
  intros Hl. unfold ToSpannerJson, SerializeHourTokensInTimeGroup, mutation_row.
  by rewrite Hl.
Qed.

Lemma build_rows_spec (l : list (PbsPrimaryKey * PbsBudgetKeyMutation)) :
  (∀ key m, (key, m) ∈ l → length (token_count_ m) = kDefaultTokenCountSize) →
  ∃ insertions updates, build_rows l = Return (insertions, updates) ∧
    insertions ++ updates ≡ₚ prod_map id mutation_row <$> l.
Proof.
  induction l as [|[key m] l IH]; intros Hl; simpl; [by exists [], []|].
  rewrite ToSpannerJson_spec by (apply (Hl key); by left). cbn [mbind Outcome_bind].
  destruct IH as (ins & upd & -> & Hp); [intros; eapply Hl; by right|]. cbn [mbind Outcome_bind].
  destruct (is_insertion m); eexists _, _; (split; [done|]); simpl; [by rewrite Hp|].
  rewrite <- Permutation_middle. by rewrite Hp.
Qed.

Lemma write_rows_lookup (rows : list (PbsPrimaryKey * string)) t key :
  NoDup rows.*1 →
  write_rows rows t !! key =
    match (list_to_map rows : gmap _ _) !! key with Some v => Some v | None => t !! key end.
Proof.
  unfold write_rows. revert t. induction rows as [|[k v] rows IH]; intros t Hnd; simpl.
  { by rewrite lookup_empty. }
  apply NoDup_cons in Hnd as [Hnot Hnd]. rewrite IH by done.
  destruct (decide (key = k)) as [->|Hne].
  - by rewrite !lookup_insert_eq, (not_elem_of_list_to_map_1 rows k).
  - by rewrite !lookup_insert_ne by done.
Qed.

Lemma write_rows_app rows1 rows2 t : write_rows (rows1 ++ rows2) t = write_rows rows2 (write_rows rows1 t).
Proof. unfold write_rows. apply foldl_app. Qed.

Lemma CreateSpannerMutations_spec pm :
  well_formed pm →
  ∃ mutations, CreateSpannerMutations pm = Return mutations ∧
    ∀ t key, foldl write_mutation t mutations !! key =
      match pm !! key with Some m => Some (mutation_row m) | None => t !! key end.
Proof.
  intros Hwf. unfold CreateSpannerMutations.
  destruct (build_rows_spec (map_to_list pm)) as (ins & upd & -> & Hp).
  { intros key m Hin%elem_of_map_to_list. by apply (Hwf key m). }
  cbn [mbind Outcome_bind]. eexists; split; [done|]. intros t key.
  assert (NoDup (ins ++ upd).*1) as Hnd.
  { rewrite Hp, <- list_fmap_compose. apply NoDup_fst_map_to_list. }
  trans (write_rows (ins ++ upd) t !! key).
  { rewrite write_rows_app, foldl_app. destruct ins, upd; done. }
  rewrite write_rows_lookup by done.
  rewrite (list_to_map_proper _ (prod_map id mutation_row <$> map_to_list pm)) by done.
  rewrite list_to_map_fmap, lookup_fmap, list_to_map_to_list. by destruct (pm !! key).
Qed.

(** ** Validation *)

(** The budget alone asks for more than its key's row has. *)
Definition exhausts (pm : Mutations) (b : ConsumeBudgetMetadata) : Prop :=
  is_Some (pm !! primary_key b) ∧
  remaining pm (primary_key b) (GetTimeBucket (time_bucket b)) < token_count b.

Lemma exhausted_indices_spec budgets pm i :
  well_formed pm → Forall valid_budget budgets →
  ∃ indices, exhausted_indices i budgets pm = Return indices ∧
    StronglySorted Z.lt indices ∧ Forall (Z.le i) indices ∧
    ∀ j, j ∈ indices ↔ ∃ n b, j = i + Z.of_nat n ∧ budgets !! n = Some b ∧ exhausts pm b.
Proof.
  intros Hwf Hv. revert i. induction Hv as [|b budgets Hb Hv IH]; intros i; simpl.
  { exists []. split_and!; [done|constructor|constructor|]. intros j. split; [set_solver|].
    intros (n & b & _ & Hn & _). by rewrite lookup_nil in Hn. }
  destruct (IH (i + 1)) as (indices & Hidx & Hsort & Hle & Hin).
  assert (∀ j, (∃ n b', j = i + Z.of_nat n ∧ (b :: budgets) !! n = Some b' ∧ exhausts pm b') ↔
    (j = i ∧ exhausts pm b) ∨ j ∈ indices) as Hcons.
  { intros j. rewrite Hin. split.
    - intros ([|n] & b' & -> & Hn & He); simpl in Hn; [left; simplify_eq; split; [lia|done]|].
      right. exists n, b'. split_and!; [lia|done|done].
    - intros [[-> He]|(n & b' & -> & Hn & He)]; [exists 0%nat, b|exists (S n), b'];
        (split_and!; [lia|done|done]). }
  assert (Forall (Z.le i) indices) as Hle' by (apply (Forall_impl _ _ _ Hle); intros ? ?; lia).
  destruct (pm !! primary_key b) as [m|] eqn:Hk.
  - pose proof (valid_budget_hour b Hb) as Hh. destruct (day_lookup (token_count_ m)
      (GetTimeBucket (time_bucket b)) (Hwf _ _ Hk) Hh) as [Hlook _].
    unfold GetTokenCount. rewrite Hlook, Hidx. cbn [mbind Outcome_bind].
    assert (exhausts pm b ↔ token_count_ m !!! Z.to_nat (GetTimeBucket (time_bucket b)) < token_count b) as He.
    { unfold exhausts, remaining. rewrite Hk, mutation_tokens_Some. split; [by intros [_ ?]|]. done. }
    destruct (_ <? token_count b) eqn:Hlt; eexists; (split; [done|]).
    + split_and!; [|constructor; [lia|done]|].
      * constructor; [done|]. apply (Forall_impl _ _ _ Hle). intros ? ?; lia.
      * intros j. rewrite Hcons, elem_of_cons, He. apply Z.ltb_lt in Hlt.
        split; [intros [->|]; [by left|by right]|intros [[-> _]|]; [by left|by right]].
    + split_and!; [done|done|]. intros j. rewrite Hcons, He. apply Z.ltb_ge in Hlt.
      split; [by right|]. intros [[_ ?]|]; [lia|done].
  - rewrite Hidx. exists indices. split_and!; [done..|]. intros j. rewrite Hcons. unfold exhausts.
    rewrite Hk. split; [by right|]. intros [[_ [[] _]]|]; done.
Qed.

(** ** The database's view *)

Section database.
  Context {spanner_laws : SpannerLaws DB}.

(** What the database says is left of a key's hour. *)
Definition db_remaining (db : DB) (key : PbsPrimaryKey) (hour : Z) : Z :=
  match table db !! key with
  | Some json => default [] (row_tokens json)
  | None => default_tokens
  end !!! Z.to_nat hour.

Definition well_formed_db (db : DB) : Prop := well_formed_rows (table db).

(** The mutations made from the rows of a request's keys see what the database
    holds. *)
Lemma read_mutations db budgets rows :
  well_formed_db db → spanner_read db (CreateSpannerKeySet budgets) = Some rows →
  ∃ pm, CreatePbsMutations rows = Return pm ∧ well_formed pm ∧
    (∀ key h, key ∈ primary_key <$> budgets → remaining pm key h = db_remaining db key h) ∧
    (∀ key, is_Some (pm !! key) ↔ key ∈ primary_key <$> budgets ∧ is_Some (table db !! key)).
Proof.
  intros Hdb Hread. pose proof (spanner_read_rows _ _ _ Hread) as Hrows.
  unfold CreateSpannerKeySet in Hrows. assert (well_formed_rows rows) as Hwf.
  { intros key v. rewrite Hrows. case_decide; [|done]. apply Hdb. }
  destruct (CreatePbsMutations_spec rows Hwf) as (pm & Hpm & Hlook). exists pm. split_and!; [done|..].
  - intros key m Hm. rewrite Hlook in Hm. destruct (rows !! key) as [v|]; [|done].
    unfold row_mutation in Hm; simpl in Hm. destruct (row_tokens v) as [ts|] eqn:Hts; [|done].
    simplify_eq/=. by eapply row_tokens_day.
  - intros key h Hin. unfold remaining, db_remaining. rewrite Hlook, Hrows, decide_True by done.
    destruct (table db !! key) as [v|] eqn:Hv; [|done]. destruct (Hdb key v Hv) as [ts Hts].
    simpl. unfold row_mutation. rewrite Hts. done.
  - intros key. rewrite Hlook, Hrows. case_decide; [|simpl; split; [by intros []|naive_solver]].
    destruct (table db !! key) as [v|] eqn:Hv; simpl; [|naive_solver].
    destruct (Hdb key v Hv) as [ts Hts]. unfold row_mutation. rewrite Hts. naive_solver.
Qed.

Lemma demand_no_key budgets key h : key ∉ primary_key <$> budgets → demand budgets key h = 0.
Proof.
  induction budgets as [|b budgets IH]; simpl; [done|]. intros Hn.
  rewrite decide_False by set_solver. rewrite IH by set_solver. lia.
Qed.

(** The whole request fits into what the database says is left. *)
Definition fits (db : DB) (budgets : list ConsumeBudgetMetadata) : Prop :=
  ∀ key h, is_hour h → demand budgets key h ≤ db_remaining db key h.

(** The budget alone asks for more than its key's row has left. *)
Definition row_exhausted (db : DB) (b : ConsumeBudgetMetadata) : Prop :=
  is_Some (table db !! primary_key b) ∧
  db_remaining db (primary_key b) (GetTimeBucket (time_bucket b)) < token_count b.

(** Exactly the entries that exhaust their row alone, in order. *)
Definition exhausted_entries (db : DB) (budgets : list ConsumeBudgetMetadata) (indices : list Z) : Prop :=
  StronglySorted Z.lt indices ∧
  ∀ j, j ∈ indices ↔ ∃ n b, j = Z.of_nat n ∧ budgets !! n = Some b ∧ row_exhausted db b.

Lemma db_remaining_nonneg db key h : well_formed_db db → is_hour h → 0 ≤ db_remaining db key h.
Proof.
  intros Hdb Hh. unfold db_remaining. destruct (table db !! key) as [v|] eqn:Hv.
  - destruct (Hdb key v Hv) as [ts Hts]. rewrite Hts. simpl.
    apply row_tokens_day in Hts. by apply (day_lookup ts h).
  - by apply (day_lookup default_tokens h), Hh; apply default_tokens_day.
Qed.

  Context {json_laws : JsonLaws}.
  Hypothesis split_law : SplitLaw split.
  #[local] Set Default Proof Using "All".

Lemma row_tokens_mutation_row m :
  day_of_tokens (token_count_ m) → row_tokens (mutation_row m) = Some (token_count_ m).
Proof.
  intros [Hl Hu]. unfold row_tokens, mutation_row. rewrite json_parse_dump.
  rewrite append_tokens_join by done.
  change (EmptyString +:+ ?s)%string with s.
  rewrite Deserialize_values.
  - simpl. f_equal. clear Hl. induction Hu as [|t ts Ht _ IH]; [done|]. simpl.
    rewrite u8_id by done. by f_equal.
  - done.
  - unfold kDefaultTokenCountSize in Hl. by rewrite Hl.
  - eapply Forall_impl; [done|]. unfold is_u8. lia.
Qed.

(** What the body of the transaction gives on a well-formed database. *)
Lemma commit_body_spec db budgets rows :
  well_formed_db db → Forall valid_budget budgets →
  spanner_read db (CreateSpannerKeySet budgets) = Some rows →
  (fits db budgets ∧ ∃ mutations, commit_body budgets rows = Return mutations ∧
     ∀ t, t = foldl write_mutation (table db) mutations →
       well_formed_rows t ∧
       ∀ key h, is_hour h →
         match t !! key with Some json => default [] (row_tokens json) | None => default_tokens end
           !!! Z.to_nat h = db_remaining db key h - demand budgets key h) ∨
  (¬ fits db budgets ∧
   ∃ indices, commit_body budgets rows = Fail BudgetExhausted indices ∧ exhausted_entries db budgets indices).
Proof.
  intros Hdb Hv Hread. destruct (read_mutations db budgets rows Hdb Hread) as (pm & Hpm & Hwf & Hrem & Hdom).
  unfold commit_body. rewrite Hpm. cbn [mbind Outcome_bind]. unfold ValidatePbsMutations.
  destruct (exhausted_indices_spec budgets pm 0 Hwf Hv) as (indices & -> & Hsort & _ & Hin).
  cbn [mbind Outcome_bind].
  assert (exhausted_entries db budgets indices) as Hentries.
  { split; [done|]. intros j. rewrite Hin.
    assert (∀ n b, budgets !! n = Some b → exhausts pm b ↔ row_exhausted db b) as Hex.
    { intros n b Hb. assert (primary_key b ∈ primary_key <$> budgets) as Hk.
      { apply list_elem_of_fmap. exists b. split; [done|]. by eapply list_elem_of_lookup_2. }
      unfold exhausts, row_exhausted. rewrite Hrem, Hdom by done. naive_solver. }
    split; intros (n & b & -> & Hb & He); exists n, b; (split_and!; [lia|done|by apply (Hex n)]). }
  assert ((∀ key h, is_hour h → demand budgets key h ≤ remaining pm key h) ↔ fits db budgets) as Hfits.
  { unfold fits. split; intros Hf key h Hh; destruct (decide (key ∈ primary_key <$> budgets)) as [Hk|Hk].
    - rewrite <- Hrem by done. by apply Hf.
    - rewrite demand_no_key by done. by apply db_remaining_nonneg.
    - rewrite Hrem by done. by apply Hf.
    - rewrite demand_no_key by done. by apply remaining_u8. }
  destruct indices as [|j indices].
  - cbn [mbind Outcome_bind].
    destruct (Update_spec budgets pm Hwf Hv) as [(Hfit & pm' & -> & Hc)|(Hno & ->)]; cbn [mbind Outcome_bind].
    + left. split; [by apply Hfits|]. destruct Hc as (Hwf' & Hr' & Hi').
      destruct (CreateSpannerMutations_spec pm' Hwf') as (muts & -> & Hw). exists muts. split; [done|].
      intros t ->. split.
      * intros key v. rewrite Hw. destruct (pm' !! key) as [m|] eqn:Hm; [|apply Hdb].
        intros [= <-]. rewrite row_tokens_mutation_row by by eapply Hwf'. by eexists.
      * intros key h Hh. rewrite Hw. specialize (Hr' key h Hh). specialize (Hi' key).
        unfold remaining in Hr' at 1. unfold insertion_of in Hi'.
        destruct (pm' !! key) as [m|] eqn:Hm.
        -- rewrite row_tokens_mutation_row by by eapply Hwf'. simpl. rewrite mutation_tokens_Some in Hr'.
           rewrite Hr'. destruct (decide (key ∈ primary_key <$> budgets)) as [Hk|Hk]; [by rewrite Hrem|].
           exfalso. destruct (pm !! key) eqn:Hpk; [|done]. destruct (Hdom key) as [Hd _].
           by apply Hk, Hd; rewrite Hpk.
        -- destruct (pm !! key) eqn:Hpk; [done|]. simpl in Hi'. case_decide as Hk; [done|].
           rewrite demand_no_key by done. unfold db_remaining. lia.
    + right. split; [|by exists []]. rewrite <- Hfits. intros Hf. destruct Hno as (key & h & Hh & Hlt).
      specialize (Hf key h Hh). lia.
  - right. split; [|by eexists]. rewrite <- Hfits. intros Hf.
    destruct (proj1 (Hin j)) as (n & b & _ & Hb & _ & Hlt); [by left|].
    assert (valid_budget b) as Hvb by by eapply Forall_lookup_1.
    specialize (Hf (primary_key b) _ (valid_budget_hour b Hvb)).
    rewrite <- (take_drop_middle budgets n b Hb), demand_app in Hf. simpl in Hf.
    rewrite decide_True in Hf by done.
    pose proof (demand_nonneg (take n budgets) (primary_key b) (GetTimeBucket (time_bucket b))
      ltac:(by apply Forall_take)).
    pose proof (demand_nonneg (drop (S n) budgets) (primary_key b) (GetTimeBucket (time_bucket b))
      ltac:(by apply Forall_drop)). lia.
Qed.

Lemma ConsumeBudgetsSync_result db budgets :
  well_formed_db db → Forall valid_budget budgets →
  ∃ r indices db', ConsumeBudgetsSync db budgets = Return (r, indices, db') ∧
    ((r = SuccessExecutionResult ∧ fits db budgets ∧ well_formed_db db' ∧
      ∀ key h, is_hour h → db_remaining db' key h = db_remaining db key h - demand budgets key h) ∨
     (r = BudgetExhausted ∧ ¬ fits db budgets ∧ db' = db ∧
      ∃ entries, indices = Some entries ∧ exhausted_entries db budgets entries) ∨
     (r = FailToCommit ∧ db' = db ∧
      (spanner_read db (CreateSpannerKeySet budgets) = None ∨
       ∃ mutations, spanner_apply db mutations = None))).
Proof.
  intros Hdb Hv. unfold ConsumeBudgetsSync.
  destruct (spanner_read db (CreateSpannerKeySet budgets)) as [rows|] eqn:Hread.
  2:{ eexists _, _, _. split; [done|]. right. right. split_and!; [done|done|by left]. }
  destruct (commit_body_spec db budgets rows Hdb Hv Hread)
    as [(Hfit & muts & -> & Ht)|(Hno & indices & -> & Hentries)].
  - destruct (spanner_apply db muts) as [db'|] eqn:Happ; eexists _, _, _; (split; [done|]).
    + left. destruct (Ht (table db')) as [Hwf Hrem]; [by apply spanner_apply_rows|]. by split_and!.
    + right. right. split_and!; [done|done|]. right. by exists muts.
  - eexists _, _, _. split; [done|]. right. left. split_and!; [done|done|done|by eexists].
Qed.

(** C7: on a well-formed table, for a request of valid budgets, whose total per
    key and hour may come from several entries: the call returns; it succeeds
    only if the whole request fits into what is left, and then every key and hour
    has lost exactly what the request asked of it, keys seen for the first time
    starting from one token an hour; it is exhausted only if the request does
    not fit, and then the response's indices are exactly the entries that alone
    ask for more than their key's row has left, in order; otherwise only a
    failure of the database is reported; whenever it does not succeed the
    database is unchanged. *)
Theorem ConsumeBudgetsSync_exact db budgets :
  well_formed_db db → Forall valid_budget budgets →
  ∃ r indices db', ConsumeBudgetsSync db budgets = Return (r, indices, db') ∧
    ((r = SuccessExecutionResult ∧ fits db budgets ∧ well_formed_db db' ∧
      ∀ key h, is_hour h → db_remaining db' key h = db_remaining db key h - demand budgets key h) ∨
     (r = BudgetExhausted ∧ ¬ fits db budgets ∧ db' = db ∧
      ∃ entries, indices = Some entries ∧ exhausted_entries db budgets entries) ∨
     (r = FailToCommit ∧ db' = db ∧
      (spanner_read db (CreateSpannerKeySet budgets) = None ∨
       ∃ mutations, spanner_apply db mutations = None))).
Proof. apply ConsumeBudgetsSync_result. Qed.

End database.

(** A reporting time whose bucket is not an hour of the day (any bucket past
    2262, as the signed nanoseconds wrap) reads the counts of the day out of
    range: the result of the request is undefined. *)
Theorem ConsumeBudgetsSync_undefined db b rows :
  spanner_read db (CreateSpannerKeySet [b]) = Some rows → rows = ∅ →
  (24 ≤ GetTimeBucket (time_bucket b)) →
  ConsumeBudgetsSync db [b] = Undefined.
Proof.
  intros Hread -> Hb. unfold ConsumeBudgetsSync. rewrite Hread. unfold commit_body.
  unfold CreatePbsMutations, ValidatePbsMutations. rewrite map_to_list_empty.
  cbn [create_mutations mbind Outcome_bind exhausted_indices]. rewrite lookup_empty.
  cbn [mbind Outcome_bind UpdatePbsMutationsToConsumeBudgets]. unfold consume_one.
  rewrite lookup_empty, lookup_insert_eq. unfold GetTokenCount.
  rewrite lookup_ge_None_2; [done|]. cbn [token_count_ set_is_insertion ResetTokenCount].
  rewrite length_replicate. unfold kDefaultTokenCountSize. lia.
Qed.

End consume_budgets.

(** ** Concrete runs *)

(** A JSON text is a brace and the field's value; the table is a finite map. *)
Definition example_json : Json := {|
  json_token_count s :=
    match s with
    | String c value => if ascii_dec c "{" then Field value else ParseError
    | EmptyString => ParseError
    end;
  json_dump value := String "{" value;
|}.

Lemma example_json_laws : @JsonLaws example_json.
Proof. by constructor. Qed.

Definition example_spanner : Spanner (gmap PbsPrimaryKey string) := {|
  spanner_read db keys := Some (filter (λ kv, kv.1 ∈ keys) db);
  spanner_apply db mutations := Some (foldl write_mutation db mutations);
|}.

Definition example_spanner_laws :
  @SpannerLaws (gmap PbsPrimaryKey string) example_spanner.
Proof.
  refine {| table := λ db, db |}.
  - intros db keys rows [= <-] k. case_decide as Hk.
    + destruct (db !! k) as [v|] eqn:Hv.
      * by apply map_lookup_filter_Some.
      * apply map_lookup_filter_None. by left.
    + apply map_lookup_filter_None. right. by intros.
  - by intros db mutations db' [= <-].
Defined.

Definition example_day : Z := 86400000000000.
Definition example_hour : Z := 3600000000000.

(** The key "a" on day 1: no token in hour 0, one token in the others. *)
Definition example_db : gmap PbsPrimaryKey string :=
  {[ ("a"%string, "1"%string) := "{0 1 1 1 1 1 1 1 1 1 1 1 1 1 1 1 1 1 1 1 1 1 1 1"%string ]}.

Lemma example_db_well_formed :
  @well_formed_db _ example_json example_spanner split_spaces example_spanner_laws example_db.
Proof.
  intros key v Hk. unfold example_db in Hk. simpl in Hk.
  apply lookup_singleton_Some in Hk as [_ <-]. by vm_compute; eexists.
Qed.

(** One token of an hour of "a" and one of a key not seen before. *)
Definition example_request : list ConsumeBudgetMetadata :=
  [mkBudget "a" 1 (example_day + example_hour); mkBudget "b" 1 example_day].

Lemma example_request_valid : Forall valid_budget example_request.
Proof. repeat constructor; vm_compute; congruence. Qed.

Example example_consume :
  match @ConsumeBudgetsSync _ example_json example_spanner split_spaces example_db example_request with
  | Return (r, indices, db) => r = SuccessExecutionResult ∧
      db !! ("a", "1")%string = Some "{0 0 1 1 1 1 1 1 1 1 1 1 1 1 1 1 1 1 1 1 1 1 1 1"%string ∧
      db !! ("b", "1")%string = Some "{0 1 1 1 1 1 1 1 1 1 1 1 1 1 1 1 1 1 1 1 1 1 1 1"%string
  | _ => False
  end.
Proof. by vm_compute. Qed.

(** a request that asks twice for the one token of an hour of a key seen for
    the first time, or for two tokens at once, passes the validation and is
    refused while consuming: it is reported as exhausted with no index. *)
Theorem exhausted_without_indices :
  let consume := @ConsumeBudgetsSync _ example_json example_spanner split_spaces example_db in
  consume [mkBudget "b" 1 0; mkBudget "b" 1 0] = Return (BudgetExhausted, Some [], example_db) ∧
  consume [mkBudget "b" 2 0] = Return (BudgetExhausted, Some [], example_db) ∧
  consume [mkBudget "a" 1 (example_day + example_hour); mkBudget "a" 1 (example_day + example_hour)]
  = Return (BudgetExhausted, Some [], example_db).
Proof. split_and!; vm_compute; reflexivity. Qed.

Lemma ConsumeBudgetsSync_exact_witness :
  ∃ r indices db',
    @ConsumeBudgetsSync _ example_json example_spanner split_spaces example_db example_request
    = Return (r, indices, db') ∧
    (r = SuccessExecutionResult → ∀ key h, is_hour h →
        @db_remaining _ example_json example_spanner split_spaces example_spanner_laws db' key h
        = @db_remaining _ example_json example_spanner split_spaces example_spanner_laws example_db key h
          - demand example_request key h).
Proof.
  destruct (@ConsumeBudgetsSync_exact _ example_json example_spanner split_spaces example_spanner_laws
    example_json_laws split_spaces_law example_db example_request example_db_well_formed
    example_request_valid) as (r & indices & db' & Hc & [(_ & _ & _ & H)|[(-> & _)|(-> & _)]]);
    eexists _, _, _; (split; [exact Hc|done]).
Defined.

(** The first and the third entry ask for a token of an hour that has none. *)
Example example_exhausting :
  @ConsumeBudgetsSync _ example_json example_spanner split_spaces example_db
    [mkBudget "a" 1 example_day; mkBudget "b" 1 example_day; mkBudget "a" 1 example_day]
  = Return (BudgetExhausted, Some [0; 2], example_db).
Proof. vm_compute. reflexivity. Qed.

Lemma ConsumeBudgetsSync_undefined_witness :
  @ConsumeBudgetsSync _ example_json example_spanner split_spaces example_db [mkBudget "c" 1 (2 ^ 63)]
  = Undefined.
Proof.
  apply (@ConsumeBudgetsSync_undefined _ example_json example_spanner split_spaces example_db
    (mkBudget "c" 1 (2 ^ 63)) ∅); [by vm_compute|reflexivity|vm_compute; congruence].
Defined.
