(* ===== verification/CommandProtocol.v ===== *)
(** * Batch commands and their protocol

    What a batch command notes of the protocol's answer to its prepare: the
    command's handlers of [BatchConsumeBudgetCommand] on the response of
    [BatchConsumeBudgetProtocol], for timeframes that are loaded. *)

From S2P Require Import Prelude ExecutionResult ErrorCodes Uuid TimeframeLog TimeframeManager TimeframeRecovery TimeframeExamples.
From S2P Require Import TransactionProtocol BatchConsumeBudgetProtocol ProtocolFrames ProtocolCalls.
From S2P Require Import ConsumeBudgetCommand BatchConsumeBudgetCommand CommandRun ProtocolManager ProtocolExamples.
From stdpp Require Import options.
Import ExampleProto.

Local Open Scope Z_scope.

Lemma failed_in_batch c indices : NoDup (info_time_bucket <$> budget_consumptions_ c) →
  Forall (λ i, (i < length (budget_consumptions_ c))%nat) indices →
  ∃ c', BatchConsumeBudgetCommand.SetFailedInsufficientBudgetConsumptions c
          (consumption_of <$> budget_consumptions_ c) indices = Some c' ∧
    ∀ info, info ∈ failed_insufficient_budget_consumptions_ c' ↔
      ∃ j, j ∈ indices ∧ budget_consumptions_ c !! j = Some info.
Proof.
  intros Hnd Hi. unfold BatchConsumeBudgetCommand.SetFailedInsufficientBudgetConsumptions.
  rewrite failed_time_buckets_total by (by rewrite length_fmap). cbn [mbind option_bind].
  eexists. split; [done|]. intros info. cbn. rewrite list_elem_of_filter, list_elem_of_fmap. split.
  - intros [(j & Ht & Hj) Hin]. exists j. split; [done|]. rewrite Forall_forall in Hi. specialize (Hi j Hj).
    apply lookup_lt_is_Some in Hi as [info' Hl]. rewrite list_lookup_fmap, Hl in Ht. cbn in Ht.
    apply list_elem_of_lookup in Hin as [k Hk]. assert (j = k) as ->; [|congruence].
    eapply NoDup_lookup; [exact Hnd| |]; rewrite list_lookup_fmap; [by rewrite Hl|]. by rewrite Hk; cbn; rewrite Ht.
  - intros (j & Hj & Hl). split; [|by eapply list_elem_of_lookup_2]. exists j. split; [|done].
    by rewrite list_lookup_fmap, Hl.
Qed.

Section prepare.
  Context {M : Type} `{!TimeframeManagerInterface M} {serves : M → list Z → list frame_loc → Prop}
    `{!TimeframeManagerLaws M serves}.
  #[local] Set Default Proof Using "Type*".

(** The prepare of a batch command whose timeframes are loaded, of the
    protocol and then of the command: the engine is told the verdict of the
    first timeframe that is locked or has not enough. When that is that the
    budget is insufficient, the command has noted exactly those of its budgets
    that ask for more than their timeframe has, each with its place in the
    client's request, whatever locks there are; otherwise it has noted nothing
    new. *)
Theorem batch_prepare_notes (s : M) (c : BatchConsumeBudgetCommand) times ls fl activity act :
  read_all (shared_frames s) ls = Some fl → length (budget_consumptions_ c) = length ls →
  NoDup (info_time_bucket <$> budget_consumptions_ c) →
  let budgets := consumption_of <$> budget_consumptions_ c in
  let rq := mkPrepareBatchRequest (batch_transaction_id_ c) budgets in
  let insufficient := FailureExecutionResult SC_PBS_BUDGET_KEY_CONSUME_BUDGET_INSUFFICIENT_BUDGET in
  ∃ indices c',
    BatchConsumeBudgetTransactionProtocol.OnPrepareBudgetKeyLoaded s (mkContext activity rq)
      (mkLoad act times (Some ls)) SuccessExecutionResult
    = Some [BatchConsumeBudgetTransactionProtocol.FinishPrepare (mkContext activity rq) (verdict fl budgets) indices] ∧
    BatchConsumeBudgetCommand.OnPrepareBatchConsumeBudgetCallback c rq (verdict fl budgets) indices
    = Some (c', TransactionCommandCallback (verdict fl budgets)) ∧
    if bool_decide (verdict fl budgets = insufficient) then
      ∀ info, info ∈ failed_insufficient_budget_consumptions_ c' ↔
        ∃ j f, budget_consumptions_ c !! j = Some info ∧ fl !! j = Some f ∧ token_count f < info_token_count info
    else c' = c.
Proof.
  intros Hfl Hlen Hnd budgets rq.
  set (insufficient := FailureExecutionResult _). cbv zeta.
  destruct (prepare_loaded_verdict s (batch_transaction_id_ c) budgets times ls fl activity act Hfl)
    as (indices & Hload & Hindices); [unfold budgets; by rewrite length_fmap|].
  exists indices. unfold BatchConsumeBudgetCommand.OnPrepareBatchConsumeBudgetCallback. fold insufficient in Hindices |- *.
  assert (result_eqb (verdict fl budgets) insufficient = bool_decide (verdict fl budgets = insufficient)) as Hr.
  { apply eq_true_iff_eq. by rewrite bool_decide_eq_true, result_eqb_spec. }
  case_bool_decide as Hv; [|exists c; split; [exact Hload|]; split; [|done]; rewrite Hr; by destruct indices].
  destruct (Hindices Hv) as (js & -> & _ & Hjs).
  destruct (failed_in_batch c js Hnd) as (c' & Hset & Hin).
  { apply Forall_forall. intros j (f & b & _ & Hb & _)%Hjs. unfold budgets in Hb.
    rewrite list_lookup_fmap in Hb. by apply fmap_Some in Hb as (info & Hb%lookup_lt_Some & _). }
  exists c'. split; [exact Hload|]. rewrite Hr. change (prepare_budget_consumptions rq) with budgets.
  fold budgets in Hset. rewrite Hset. split; [done|]. intros info. rewrite Hin. split.
  - intros (j & (f & b & Hf & Hb & Hne)%Hjs & Hinfo). exists j, f. split_and!; [done|done|].
    unfold budgets in Hb. rewrite list_lookup_fmap, Hinfo in Hb. injection Hb as <-. unfold enough in Hne. cbn in Hne. lia.
  - intros (j & f & Hinfo & Hf & Hlt). exists j. split; [|done]. apply Hjs. exists f, (consumption_of info).
    unfold budgets. rewrite list_lookup_fmap, Hinfo. split_and!; [done|done|]. unfold enough. cbn. lia.
Qed.

End prepare.

(** ** The protocol's answer to a batch *)

(** A batch of two hours of the example's day, of which the second asks for two
    tokens of one. *)
Module ExampleBatch.

#[export] Instance interface : TimeframeManagerInterface BudgetKeyTimeframeManager :=
  timeframe_manager "key" (mkUuid 5 6).
#[export] Instance laws : TimeframeManagerLaws BudgetKeyTimeframeManager served :=
  timeframe_manager_laws "key" (mkUuid 5 6).

Definition command : BatchConsumeBudgetCommand :=
  BatchConsumeBudgetCommand.ConstructWithDependencies (mkUuid 8 9) "key"
    [mkRequestInfo earlier_time 1 (Some 4); mkRequestInfo example_time 2 (Some 7)].

End ExampleBatch.
Import ExampleBatch.

Lemma batch_prepare_notes_witness :
  let insufficient := FailureExecutionResult SC_PBS_BUDGET_KEY_CONSUME_BUDGET_INSUFFICIENT_BUDGET in
  ∃ indices c', BatchConsumeBudgetCommand.OnPrepareBatchConsumeBudgetCallback command
      (mkPrepareBatchRequest (mkUuid 8 9) (two_budgets 2)) insufficient indices
    = Some (c', TransactionCommandCallback insufficient) ∧
    mkRequestInfo example_time 2 (Some 7) ∈ failed_insufficient_budget_consumptions_ c'.
Proof.
  destruct (batch_prepare_notes example_manager command [earlier_time; example_time]
    [22%positive; 23%positive] [mkFrame 21 1 kZeroUuid 0; mkFrame 22 1 kZeroUuid 0] kZeroUuid kZeroUuid)
    as (indices & c' & _ & Hcallback & Hnoted).
  - by vm_compute.
  - reflexivity.
  - by apply (bool_decide_unpack _); vm_compute.
  - exists indices, c'. split; [exact Hcallback|].
    rewrite bool_decide_true in Hnoted by (vm_compute; reflexivity). apply Hnoted.
    exists 1%nat, (mkFrame 22 1 kZeroUuid 0). by vm_compute.
Defined.
