(* ===== verification/FrontEndUtils.v ===== *)
(** * Requests and responses of the front end

    Models [cc/pbs/front_end_service/src/front_end_utils.{h,cc}]: the headers a
    request needs, the body that lists the budgets to consume, in its two
    versions, and the bodies of the responses. The JSON library, the parser of
    timestamps and the public suffix list are classes. An exception that is
    thrown inside a [try] ends a parse as [Thrown]; arithmetic that overflows is
    [Undef]. *)

From Stdlib Require Import Ascii.
From S2P Require Import Prelude Text ExecutionResult ErrorCodes Uuid TimeframeUtils TransactionPhases TransactionLog.
From S2P Require Import SpannerConsumeBudget.
From stdpp Require Import options.

Local Open Scope Z_scope.

(** ** Libraries *)

(** A JSON value and what the front end asks of it: the member of an object with
    a name ([find], [contains], [count], [at], [operator[]]; [None] when there
    is none, or no object), the elements an iteration visits, [get<T>] ([None]
    when it throws), and the values it builds. *)
Class JsonLibrary := {
  json : Type;
  json_parse : list Z → option json;
  json_member : json → string → option json;
  json_elements : json → list json;
  json_get_string : json → option string;
  json_get_token_count : json → option Z; (* get<uint8_t> *)
  json_get_uint64 : json → option Z;
  json_get_bool : json → option bool;
  json_of_string : string → json;
  json_of_uint64 : Z → json;
  json_of_bool : bool → json;
  json_array : list json → json;
  json_object : list (string * json) → json;
  json_dump : json → list Z;
}.

(** [TimeUtil::FromString]: the seconds since the epoch. *)
Class TimestampLibrary := timestamp_seconds : string → option Z.

(** [psl_registrable_domain] of a C string, with the built-in list. *)
Class PublicSuffixLibrary := psl_registrable_domain : string → option string.

(** ** Parsing *)

Inductive Parsing (A : Type) :=
| Parsed (a : A)
| Refused (execution_result : ExecutionResult)
| Thrown
| Undef.
Arguments Parsed {_}. Arguments Refused {_}. Arguments Thrown {_}. Arguments Undef {_}.

#[export] Instance Parsing_ret : MRet Parsing := λ A a, Parsed a.
#[export] Instance Parsing_fmap : FMap Parsing := λ A B f p,
  match p with
  | Parsed a => Parsed (f a)
  | Refused r => Refused r
  | Thrown => Thrown
  | Undef => Undef
  end.
#[export] Instance Parsing_bind : MBind Parsing := λ A B f p,
  match p with
  | Parsed a => f a
  | Refused r => Refused r
  | Thrown => Thrown
  | Undef => Undef
  end.

(** [get<T>()] and [at()], which throw. *)
Definition or_throw {A} (o : option A) : Parsing A := match o with Some a => Parsed a | None => Thrown end.

Definition refuse {A} (code : Z) : Parsing A := Refused (FailureExecutionResult code).

(** ** Headers *)

Abbreviation HttpHeaders := (list (string * string)) (only parsing).

Definition kTransactionIdHeader : string := "x-gscp-transaction-id".
Definition kTransactionLastExecutionTimestampHeader : string := "x-gscp-transaction-last-execution-timestamp".
Definition kTransactionOriginHeader : string := "x-gscp-transaction-origin".
Definition kTransactionSecretHeader : string := "x-gscp-transaction-secret".
Definition kClaimedIdentityHeader : string := "x-gscp-claimed-identity".

(** [headers->find(name)]: the first of the headers with the name. *)
Fixpoint find_header (name : string) (headers : HttpHeaders) : option string :=
  match headers with
  | [] => None
  | (n, v) :: headers => if bool_decide (n = name) then Some v else find_header name headers
  end.

(** A header that must be there. *)
Definition required_header (name : string) (headers : HttpHeaders) : ExecutionResult * string :=
  match find_header name headers with
  | None => (FailureExecutionResult SC_PBS_FRONT_END_SERVICE_REQUEST_HEADER_NOT_FOUND, EmptyString)
  | Some v => (SuccessExecutionResult, v)
  end.

(** The id is left as it was when the header does not hold one. *)
Definition ExtractTransactionId (headers : HttpHeaders) (uuid : Uuid) : ExecutionResult * Uuid :=
  match find_header kTransactionIdHeader headers with
  | None => (FailureExecutionResult SC_PBS_FRONT_END_SERVICE_REQUEST_HEADER_NOT_FOUND, uuid)
  | Some v => FromString v uuid
  end.

(** [None]: the headers are a null pointer. *)
Definition ExtractRequestClaimedIdentity (headers : option HttpHeaders) : ExecutionResult * string :=
  match headers with
  | None => (FailureExecutionResult SC_PBS_FRONT_END_SERVICE_REQUEST_HEADER_NOT_FOUND, EmptyString)
  | Some headers => required_header kClaimedIdentityHeader headers
  end.

Definition IsCoordinatorRequest (headers : option HttpHeaders) (remote_coordinator_claimed_identity : string) : bool :=
  let '(result, claimed_identity) := ExtractRequestClaimedIdentity headers in
  if negb (Successful result) then false
  else bool_decide (claimed_identity = remote_coordinator_claimed_identity).

Definition GetReportingOriginMetricLabel (headers : option HttpHeaders) (remote_coordinator_claimed_identity : string)
  : string :=
  if IsCoordinatorRequest headers remote_coordinator_claimed_identity then "COORDINATOR" else "OPERATOR".

Definition is_digit_char (c : ascii) : bool := bool_decide (is_Some (digit_value c)).

Definition ExtractLastExecutionTimestamp (headers : HttpHeaders) : ExecutionResult * Z :=
  match find_header kTransactionLastExecutionTimestampHeader headers with
  | None => (FailureExecutionResult SC_PBS_FRONT_END_SERVICE_REQUEST_HEADER_NOT_FOUND, 0)
  | Some v =>
      if (20 <? String.length v)%nat || negb (all_chars is_digit_char v) then
        (FailureExecutionResult SC_PBS_FRONT_END_SERVICE_REQUEST_HEADER_NOT_FOUND, 0)
      else (SuccessExecutionResult, strtoull v)
  end.

Definition ExtractTransactionSecret (headers : HttpHeaders) : ExecutionResult * string :=
  required_header kTransactionSecretHeader headers.

Definition ExtractTransactionOrigin (headers : HttpHeaders) : ExecutionResult * string :=
  required_header kTransactionOriginHeader headers.

(** ** Reporting origins *)

(** [find(c, pos)], with [npos] as [None]. *)
Fixpoint find_char (c : ascii) (s : string) : option nat :=
  match s with
  | EmptyString => None
  | String d s => if ascii_dec d c then Some O else S <$> find_char c s
  end.
Fixpoint drop_string (n : nat) (s : string) : string :=
  match n, s with
  | S n, String _ s => drop_string n s
  | _, _ => s
  end.
Definition find_char_from (c : ascii) (pos : option nat) (s : string) : option nat :=
  pos ← pos;
  Nat.add pos <$> find_char c (drop_string pos s).

(** [find(c, find("."))], and the text before it when there is one. *)
Definition cut_after_dot (c : ascii) (s : string) : string :=
  match find_char_from c (find_char "."%char s) s with
  | Some i => String.substring 0 i s
  | None => s
  end.

(** What a C string holds of a string. *)
Fixpoint c_str (s : string) : string :=
  match s with
  | EmptyString => EmptyString
  | String c s => if ascii_dec c zero then EmptyString else String c (c_str s)
  end.

Definition kHttpPrefix : string := "http://".
Definition kHttpsPrefix : string := "https://".

Section parse.
  Context `{!JsonLibrary} `{!TimestampLibrary} `{!PublicSuffixLibrary}.

Definition TransformReportingOriginToSite (reporting_origin : string) : ExecutionResult * string :=
  match psl_registrable_domain (c_str reporting_origin) with
  | None => (FailureExecutionResult SC_PBS_FRONT_END_SERVICE_INVALID_REPORTING_ORIGIN, EmptyString)
  | Some private_suffix_part =>
      let private_suffix_part := cut_after_dot ":"%char private_suffix_part in
      let private_suffix_part := cut_after_dot "/"%char private_suffix_part in
      if String.prefix kHttpsPrefix private_suffix_part then (SuccessExecutionResult, private_suffix_part)
      else if String.prefix kHttpPrefix private_suffix_part then
        (SuccessExecutionResult, (kHttpsPrefix +:+ drop_string (String.length kHttpPrefix) private_suffix_part)%string)
      else (SuccessExecutionResult, (kHttpsPrefix +:+ private_suffix_part)%string)
  end.

(** ** The body of a request *)

(** Seconds become a signed 64-bit count of nanoseconds. *)
Definition ReportingTimeToTimeBucket (reporting_time : string) : Parsing Z :=
  match timestamp_seconds reporting_time with
  | None => refuse SC_PBS_FRONT_END_SERVICE_INVALID_REQUEST
  | Some seconds =>
      if seconds <? 0 then refuse SC_PBS_FRONT_END_SERVICE_INVALID_REQUEST
      else if seconds * 1000000000 <? 2 ^ 63 then Parsed (seconds * 1000000000)
      else Undef
  end.

(** What tells that two budgets are of the same hour of a key. *)
Definition visited_key (budget_key_name : string) (reporting_timestamp : Z) : string :=
  (budget_key_name +:+ ("_" +:+ (to_string (GetTimeGroup reporting_timestamp) +:+
    ("_" +:+ to_string (GetTimeBucket reporting_timestamp)))))%string.

(** One budget of a body, under its origin; [visited] are the hours seen. *)
Definition parse_budget (origin : string) (visited : list string) (item : json)
  : Parsing (list string * ConsumeBudgetMetadata) :=
  match json_member item "key", json_member item "token", json_member item "reporting_time" with
  | Some key, Some token, Some reporting_time =>
      key ← or_throw (json_get_string key);
      token_count ← or_throw (json_get_token_count token);
      reporting_time ← or_throw (json_get_string reporting_time);
      let budget_key_name := (origin +:+ ("/" +:+ key))%string in
      time_bucket ← ReportingTimeToTimeBucket reporting_time;
      let visited_str := visited_key budget_key_name time_bucket in
      if bool_decide (visited_str ∈ visited) then refuse SC_PBS_FRONT_END_SERVICE_INVALID_REQUEST
      else mret (visited_str :: visited, mkBudget budget_key_name token_count time_bucket)
  | _, _, _ => refuse SC_PBS_FRONT_END_SERVICE_INVALID_REQUEST_BODY
  end.

Fixpoint parse_budgets (origin : string) (visited : list string) (items : list json)
  : Parsing (list string * list ConsumeBudgetMetadata) :=
  match items with
  | [] => mret (visited, [])
  | item :: items =>
      '(visited, budget) ← parse_budget origin visited item;
      '(visited, budgets) ← parse_budgets origin visited items;
      mret (visited, budget :: budgets)
  end.

Definition is_version (version : json) (v : string) : bool := bool_decide (json_get_string version = Some v).

Definition ParseBeginTransactionRequestBodyV1 (transaction_origin : string) (request_body : list Z)
  : Parsing (list ConsumeBudgetMetadata) :=
  transaction_request ← or_throw (json_parse request_body);
  match json_member transaction_request "v", json_member transaction_request "t" with
  | Some v, Some t =>
      if negb (is_version v "1.0") then refuse SC_PBS_FRONT_END_SERVICE_INVALID_REQUEST_BODY
      else snd <$> parse_budgets transaction_origin [] (json_elements t)
  | _, _ => refuse SC_PBS_FRONT_END_SERVICE_INVALID_REQUEST_BODY
  end.

(** The budgets of one origin; [visited_reporting_origin] are the origins
    seen. *)
Definition parse_origin (authorized_domain : string) (visited_reporting_origin visited : list string) (item : json)
  : Parsing (list string * list string * list ConsumeBudgetMetadata) :=
  match json_member item "reporting_origin", json_member item "keys" with
  | Some reporting_origin, Some keys =>
      reporting_origin ← or_throw (json_get_string reporting_origin);
      if bool_decide (reporting_origin = EmptyString) then refuse SC_PBS_FRONT_END_SERVICE_INVALID_REQUEST_BODY
      else
        let '(result, site) := TransformReportingOriginToSite reporting_origin in
        if negb (Successful result) then refuse SC_PBS_FRONT_END_SERVICE_INVALID_REQUEST_BODY
        else if negb (bool_decide (site = authorized_domain)) then
          refuse SC_PBS_FRONT_END_SERVICE_REPORTING_ORIGIN_NOT_BELONG_TO_SITE
        else if bool_decide (reporting_origin ∈ visited_reporting_origin) then
          refuse SC_PBS_FRONT_END_SERVICE_INVALID_REQUEST
        else
          '(visited, budgets) ← parse_budgets reporting_origin visited (json_elements keys);
          mret (reporting_origin :: visited_reporting_origin, visited, budgets)
  | _, _ => refuse SC_PBS_FRONT_END_SERVICE_INVALID_REQUEST_BODY
  end.

Fixpoint parse_origins (authorized_domain : string) (visited_reporting_origin visited : list string)
    (items : list json) : Parsing (list ConsumeBudgetMetadata) :=
  match items with
  | [] => mret []
  | item :: items =>
      '(visited_reporting_origin, visited, budgets) ←
        parse_origin authorized_domain visited_reporting_origin visited item;
      more ← parse_origins authorized_domain visited_reporting_origin visited items;
      mret (budgets ++ more)
  end.

Definition ParseBeginTransactionRequestBodyV2 (transaction_request : json) (authorized_domain : string)
  : Parsing (list ConsumeBudgetMetadata) :=
  match json_member transaction_request "data" with
  | None => refuse SC_PBS_FRONT_END_SERVICE_INVALID_REQUEST_BODY
  | Some data =>
      budgets ← parse_origins authorized_domain [] [] (json_elements data);
      match budgets with
      | [] => refuse SC_PBS_FRONT_END_SERVICE_INVALID_REQUEST_BODY
      | _ => mret budgets
      end
  end.

(** [catch (...)]: what is thrown becomes a result. *)
Definition catch_all {A} (code : Z) (p : Parsing A) : Parsing A :=
  match p with
  | Thrown => refuse code
  | p => p
  end.

(** Both overloads: the one without an origin uses the authorized domain for
    it. *)
Definition ParseBeginTransactionRequestBody (authorized_domain transaction_origin : string) (request_body : list Z)
  : Parsing (list ConsumeBudgetMetadata) :=
  catch_all SC_PBS_FRONT_END_SERVICE_INVALID_REQUEST_BODY
    match json_parse request_body with
    | None => refuse SC_PBS_FRONT_END_SERVICE_INVALID_REQUEST_BODY
    | Some transaction_request =>
        match json_member transaction_request "v" with
        | None => refuse SC_PBS_FRONT_END_SERVICE_INVALID_REQUEST_BODY
        | Some v =>
            if negb (is_version v "1.0") && negb (is_version v "2.0") then
              refuse SC_PBS_FRONT_END_SERVICE_INVALID_REQUEST_BODY
            else if is_version v "1.0" then
              catch_all SC_PBS_FRONT_END_SERVICE_INVALID_REQUEST_BODY (ParseBeginTransactionRequestBodyV1 transaction_origin request_body)
            else ParseBeginTransactionRequestBodyV2 transaction_request authorized_domain
        end
    end.

Definition ParseBeginTransactionRequestBody_site (authorized_domain : string) (request_body : list Z)
  : Parsing (list ConsumeBudgetMetadata) :=
  ParseBeginTransactionRequestBody authorized_domain authorized_domain request_body.

(** ** Bodies of responses *)

Definition SerializeTransactionFailedCommandIndicesResponse (command_failed_indices : list Z) : list Z :=
  json_dump (json_object
    [("v", json_of_string "1.0"); ("f", json_array (json_of_uint64 <$> command_failed_indices))]%string).

Definition SerializePendingTransactionCount (pending_transactions_count : Z) : list Z :=
  json_dump (json_object
    [("v", json_of_string "1.0"); ("pending_transactions_count", json_of_uint64 pending_transactions_count)]%string).

Definition ToString (phase : TransactionExecutionPhase) : string :=
  match phase with
  | TransactionExecutionPhase.Begin => "BEGIN"
  | TransactionExecutionPhase.Prepare => "PREPARE"
  | TransactionExecutionPhase.Commit => "COMMIT"
  | TransactionExecutionPhase.Notify => "NOTIFY"
  | TransactionExecutionPhase.Abort => "ABORT"
  | TransactionExecutionPhase.End => "END"
  | _ => "UNKNOWN"
  end.

Definition PhaseFromString (input : string) : ExecutionResult * TransactionExecutionPhase :=
  let ok p := (SuccessExecutionResult, p) in
  if bool_decide (input = "BEGIN") then ok TransactionExecutionPhase.Begin
  else if bool_decide (input = "PREPARE") then ok TransactionExecutionPhase.Prepare
  else if bool_decide (input = "COMMIT") then ok TransactionExecutionPhase.Commit
  else if bool_decide (input = "NOTIFY") then ok TransactionExecutionPhase.Notify
  else if bool_decide (input = "ABORT") then ok TransactionExecutionPhase.Abort
  else if bool_decide (input = "END") then ok TransactionExecutionPhase.End
  else if bool_decide (input = "UNKNOWN") then ok TransactionExecutionPhase.Unknown
  else (FailureExecutionResult SC_PBS_FRONT_END_SERVICE_INVALID_RESPONSE_BODY, TransactionExecutionPhase.Unknown).

Definition SerializeGetTransactionStatus (response : GetTransactionStatusResponse) : list Z :=
  json_dump (json_object
    [("is_expired", json_of_bool (is_expired response));
     ("has_failures", json_of_bool (has_failure response));
     ("last_execution_timestamp", json_of_uint64 (status_last_execution_timestamp response));
     ("transaction_execution_phase", json_of_string (ToString (status_transaction_execution_phase response)))]%string).

(** What is read before a failure stays in the response, which the caller does
    not look at then. *)
Definition DeserializeGetTransactionStatus (response_body : list Z) : Parsing GetTransactionStatusResponse :=
  catch_all SC_PBS_FRONT_END_SERVICE_INVALID_RESPONSE_BODY
    (get_transaction_status ← or_throw (json_parse response_body);
     match json_member get_transaction_status "is_expired", json_member get_transaction_status "has_failures",
       json_member get_transaction_status "last_execution_timestamp",
       json_member get_transaction_status "transaction_execution_phase" with
     | Some is_expired, Some has_failures, Some last_execution_timestamp, Some transaction_execution_phase =>
         is_expired ← or_throw (json_get_bool is_expired);
         has_failures ← or_throw (json_get_bool has_failures);
         last_execution_timestamp ← or_throw (json_get_uint64 last_execution_timestamp);
         transaction_execution_phase ← or_throw (json_get_string transaction_execution_phase);
         let '(result, phase) := PhaseFromString transaction_execution_phase in
         if negb (Successful result) then Refused result
         else mret (mkStatusResponse phase last_execution_timestamp is_expired has_failures)
     | _, _, _, _ => refuse SC_PBS_FRONT_END_SERVICE_INVALID_RESPONSE_BODY
     end).

End parse.

(** ** The hours of a request *)

(** The hour a budget is consumed from. *)
Definition hour_of (b : ConsumeBudgetMetadata) : string * Z := (budget_key_name b, time_bucket b / nanoseconds_per_hour).

Lemma split_last_separator (p : ascii → bool) sep a b s t :
  p sep = false → all_chars p s = true → all_chars p t = true →
  (a +:+ String sep s)%string = (b +:+ String sep t)%string → a = b ∧ s = t.
Proof.
  intros Hp Hs Ht. assert (∀ u v, all_chars p (u +:+ String sep v)%string = true → False) as Hno.
  { intros u v. induction u as [|c u IH]; [by simpl; rewrite Hp|]. rewrite string_app_cons. simpl.
    intros [_ H]%andb_prop. by apply IH. }
  revert b. induction a as [|c a IH]; intros [|d b]; rewrite ?string_app_cons; intros Heq.
  - by injection Heq.
  - injection Heq as <- ->. by destruct (Hno _ _ Hs).
  - injection Heq as -> <-. by destruct (Hno _ _ Ht).
  - injection Heq as <- Heq. by destruct (IH _ Heq) as [<- <-].
Qed.

Lemma visited_key_inj a b s t : in_range_time s → in_range_time t → visited_key a s = visited_key b t →
  a = b ∧ s / nanoseconds_per_hour = t / nanoseconds_per_hour.
Proof.
  intros Hs Ht. unfold visited_key. rewrite !string_app_assoc. rewrite <- !(string_app_assoc _ "_").
  assert (is_number_char "_"%char = false) as Hsep by by vm_compute.
  intros H.
  apply (split_last_separator is_number_char "_"%char _ _ _ _ Hsep (to_string_chars _) (to_string_chars _)) in H as [H Hb].
  apply (split_last_separator is_number_char "_"%char _ _ _ _ Hsep (to_string_chars _) (to_string_chars _)) in H as [Hn Hg].
  apply to_string_inj in Hg, Hb. split; [done|].
  destruct (group_and_bucket s Hs) as [_ <-], (group_and_bucket t Ht) as [_ <-]. by rewrite Hg, Hb.
Qed.

(** ** What parsing gives *)

(** The documented conversions of the JSON library: a [uint8_t] is one. *)
Class JsonNumberLaws `{!JsonLibrary} : Prop := {
  json_token_count_range j n : json_get_token_count j = Some n → is_u8 n;
}.

Section parsed.
  #[local] Set Default Proof Using "Type*".
  Context `{!JsonLibrary} `{!JsonNumberLaws} `{!TimestampLibrary} `{!PublicSuffixLibrary}.

(** A timestamp is later than the nanoseconds of a signed 64-bit integer. *)
Definition late_timestamp (s : string) : Prop :=
  ∃ seconds, timestamp_seconds s = Some seconds ∧ 2 ^ 63 ≤ seconds * 1000000000.

(** A budget of a body has such a timestamp. *)
Definition late_item (item : json) : Prop :=
  ∃ reporting_time s, json_member item "reporting_time" = Some reporting_time ∧
    json_get_string reporting_time = Some s ∧ late_timestamp s.

Definition late_items (items : list json) : Prop := Exists late_item items.

(** An origin of a body of version 2.0 has such a budget. *)
Definition late_origin (item : json) : Prop :=
  ∃ keys, json_member item "keys" = Some keys ∧ late_items (json_elements keys).

(** A body has such a budget, where its version has its budgets. *)
Definition late_body (request_body : list Z) : Prop :=
  ∃ j v, json_parse request_body = Some j ∧ json_member j "v" = Some v ∧
    ((is_version v "1.0" = true ∧ ∃ t, json_member j "t" = Some t ∧ late_items (json_elements t)) ∨
     (is_version v "2.0" = true ∧ ∃ data, json_member j "data" = Some data ∧ Exists late_origin (json_elements data))).

(** A parse that gives a value gives one with [Q]; [thrown]: it may throw;
    [undefined]: it may be undefined. *)
Definition parsing_spec {A} (undefined thrown : Prop) (Q : A → Prop) (p : Parsing A) : Prop :=
  match p with
  | Parsed a => Q a
  | Refused r => Successful r = false
  | Thrown => thrown
  | Undef => undefined
  end.

Lemma spec_bind {A B} undefined thrown (Q : A → Prop) (R : B → Prop) p (f : A → Parsing B) :
  parsing_spec undefined thrown Q p → (∀ a, Q a → parsing_spec undefined thrown R (f a)) →
  parsing_spec undefined thrown R (p ≫= f).
Proof. destruct p; simpl; auto. Qed.

Lemma spec_fmap {A B} undefined thrown (Q : A → Prop) (R : B → Prop) p (f : A → B) :
  parsing_spec undefined thrown Q p → (∀ a, Q a → R (f a)) → parsing_spec undefined thrown R (f <$> p).
Proof. destruct p; simpl; auto. Qed.

Lemma spec_weaken {A} (undefined undefined' thrown : Prop) (Q : A → Prop) p :
  (undefined → undefined') → parsing_spec undefined thrown Q p → parsing_spec undefined' thrown Q p.
Proof. destruct p; simpl; auto. Qed.

Lemma spec_or_throw {A} undefined (o : option A) : parsing_spec undefined True (λ a, o = Some a) (or_throw o).
Proof. by destruct o. Qed.

Lemma spec_catch {A} code undefined thrown (Q : A → Prop) p :
  parsing_spec undefined True Q p → parsing_spec undefined thrown Q (catch_all code p).
Proof. by destruct p. Qed.

Lemma spec_time s : parsing_spec (late_timestamp s) True in_range_time (ReportingTimeToTimeBucket s).
Proof.
  unfold ReportingTimeToTimeBucket. destruct (timestamp_seconds s) as [seconds|] eqn:Hs; [|done].
  destruct (seconds <? 0) eqn:Hneg; [done|]. destruct (_ <? 2 ^ 63) eqn:Hlt; simpl.
  - unfold in_range_time. lia.
  - exists seconds. split; [done|lia].
Qed.

Definition vkey (b : ConsumeBudgetMetadata) : string := visited_key (budget_key_name b) (time_bucket b).

(** A budget of an origin. *)
Definition origin_budget (origin : string) (b : ConsumeBudgetMetadata) : Prop :=
  is_u8 (token_count b) ∧ in_range_time (time_bucket b) ∧
  ∃ key, budget_key_name b = (origin +:+ ("/" +:+ key))%string.

Lemma spec_budget origin visited item :
  parsing_spec (late_item item) True (λ '(visited', b), vkey b ∉ visited ∧ visited' = vkey b :: visited ∧ origin_budget origin b)
    (parse_budget origin visited item).
Proof.
  unfold parse_budget. destruct (json_member item "key"), (json_member item "token"), (json_member item "reporting_time") as [reporting_time|] eqn:Hmember;
    try done.
  eapply spec_bind; [apply spec_or_throw|intros key _].
  eapply spec_bind; [apply spec_or_throw|intros count Hc%json_token_count_range].
  eapply spec_bind; [apply spec_or_throw|intros time Htime].
  eapply spec_bind; [eapply spec_weaken; [|apply spec_time]; intros Hlate; by exists reporting_time, time|intros bucket Hb].
  case_bool_decide; [done|]. simpl. split; [done|]. split; [done|]. split; [done|]. split; [done|]. by exists key.
Qed.

Lemma spec_budgets origin visited items :
  parsing_spec (late_items items) True (λ '(visited', budgets), Forall (origin_budget origin) budgets ∧
      visited' = reverse (vkey <$> budgets) ++ visited ∧ (NoDup visited → NoDup visited'))
    (parse_budgets origin visited items).
Proof.
  revert visited. induction items as [|item items IH]; intros visited; [by simpl; auto|]. cbn [parse_budgets].
  eapply spec_bind; [eapply spec_weaken; [|apply spec_budget]; by left|]. intros [visited1 b] (Hv & -> & Hb).
  eapply spec_bind; [eapply spec_weaken; [|apply IH]; by right|]. intros [visited2 budgets] (Hbs & -> & Hn). simpl. split; [by constructor|]. split.
  - cbn [fmap list_fmap]. by rewrite reverse_cons, <- app_assoc.
  - intros Hd. apply Hn. by constructor.
Qed.

(** A budget of an origin that belongs to the site. *)
Definition site_budget (authorized_domain : string) (b : ConsumeBudgetMetadata) : Prop :=
  ∃ origin, origin ≠ EmptyString ∧
    TransformReportingOriginToSite origin = (SuccessExecutionResult, authorized_domain) ∧ origin_budget origin b.

Lemma spec_origin authorized_domain visited_reporting_origin visited item :
  parsing_spec (late_origin item) True (λ '(origins, visited', budgets), Forall (site_budget authorized_domain) budgets ∧
      visited' = reverse (vkey <$> budgets) ++ visited ∧ (NoDup visited → NoDup visited'))
    (parse_origin authorized_domain visited_reporting_origin visited item).
Proof.
  unfold parse_origin. destruct (json_member item "reporting_origin"), (json_member item "keys") as [keys|] eqn:Hkeys; try done.
  eapply spec_bind; [apply spec_or_throw|intros origin _]. case_bool_decide as Hempty; [done|].
  destruct (TransformReportingOriginToSite origin) as [r site] eqn:Hsite.
  destruct (Successful r) eqn:Hr; [simpl|done]. apply Successful_true in Hr as ->.
  case_bool_decide as Hdomain; [simpl; subst site|done]. case_bool_decide; [done|].
  eapply spec_bind; [eapply spec_weaken; [|apply spec_budgets]; intros Hlate; by exists keys|].
  intros [visited' budgets] (Hb & Hv & Hn). simpl. split; [|done].
  eapply Forall_impl; [exact Hb|]. intros b Hob. by exists origin.
Qed.

Lemma spec_origins authorized_domain visited_reporting_origin visited items :
  parsing_spec (Exists late_origin items) True (λ budgets, Forall (site_budget authorized_domain) budgets ∧
      (NoDup visited → NoDup (reverse (vkey <$> budgets) ++ visited)))
    (parse_origins authorized_domain visited_reporting_origin visited items).
Proof.
  revert visited_reporting_origin visited. induction items as [|item items IH]; intros vo visited; [done|].
  cbn [parse_origins]. eapply spec_bind; [eapply spec_weaken; [|apply spec_origin]; by left|].
  intros [[vo' visited'] budgets] (Hb & -> & Hn).
  eapply spec_bind; [eapply spec_weaken; [|apply IH]; by right|]. intros more [Hm Hn']. simpl. split; [by apply Forall_app|].
  intros Hd%Hn%Hn'. by rewrite fmap_app, reverse_app, <- app_assoc.
Qed.

Lemma vkeys_hours budgets :
  Forall (λ b, in_range_time (time_bucket b)) budgets → NoDup (reverse (vkey <$> budgets) ++ []) →
  NoDup (hour_of <$> budgets).
Proof.
  rewrite app_nil_r, reverse_Permutation. intros Hr. rewrite !NoDup_alt in *. intros Hn i j h.
  rewrite !list_lookup_fmap. intros (b & Hb & ->)%fmap_Some (c & Hc & Heq)%fmap_Some.
  apply (Hn i j (vkey b)); rewrite list_lookup_fmap; [by rewrite Hb|]. rewrite Hc. simpl. f_equal.
  injection Heq as Hname Hhour. unfold vkey, visited_key. rewrite Hname.
  destruct (same_hour_group (time_bucket b) (time_bucket c)) as [-> ->]; [..|done|done].
  - by eapply (Forall_lookup_1 _ _ _ _ Hr).
  - by eapply (Forall_lookup_1 _ _ _ _ Hr).
Qed.

(** The version a body gives. *)
Definition body_version (request_body : list Z) (version : string) : Prop :=
  ∃ j v, json_parse request_body = Some j ∧ json_member j "v" = Some v ∧ is_version v version = true.

Lemma parsed_hours authorized_domain transaction_origin request_body :
  parsing_spec (late_body request_body) False (λ budgets, NoDup (hour_of <$> budgets) ∧
      ((body_version request_body "1.0" ∧ Forall (origin_budget transaction_origin) budgets) ∨
       (body_version request_body "2.0" ∧ budgets ≠ [] ∧ Forall (site_budget authorized_domain) budgets)))
    (ParseBeginTransactionRequestBody authorized_domain transaction_origin request_body).
Proof.
  apply spec_catch. destruct (json_parse request_body) as [j|] eqn:Hj; [|done].
  destruct (json_member j "v") as [v|] eqn:Hv; [|done].
  assert (∀ w, is_version v w = true → body_version request_body w) as Hver by (intros w Hw; by exists j, v).
  destruct (is_version v "1.0") eqn:Hv1; simpl.
  - apply spec_catch. unfold ParseBeginTransactionRequestBodyV1. rewrite Hj. simpl. rewrite Hv.
    destruct (json_member j "t") as [t|] eqn:Ht; [|done]. rewrite Hv1. simpl.
    eapply spec_fmap; [eapply spec_weaken; [|apply spec_budgets]; intros Hlate; exists j, v; split_and!; [done|done|left; eauto]|].
    intros [visited budgets] (Hb & -> & Hn). split; [|left; auto].
    apply vkeys_hours; [|apply Hn; constructor]. eapply Forall_impl; [exact Hb|]. intros b Ho. apply Ho.
  - destruct (is_version v "2.0") eqn:Hv2; [simpl|done]. unfold ParseBeginTransactionRequestBodyV2.
    destruct (json_member j "data") as [data|] eqn:Hdata; [|done].
    eapply spec_bind; [eapply spec_weaken; [|apply spec_origins]; intros Hlate; exists j, v; split_and!; [done|done|right; eauto]|].
    intros budgets (Hb & Hn).
    destruct budgets as [|b budgets]; [done|]. split; [|right; split_and!; auto].
    apply vkeys_hours; [|apply Hn; constructor]. eapply Forall_impl; [exact Hb|]. intros c (o & _ & _ & Ho). apply Ho.
Qed.

(** C26: a body is refused with a failure, or it gives budgets no two of which
    are of the same hour of the same key, each with a token count of eight bits
    and a time bucket that is a signed 64-bit count of nanoseconds; they are
    keys of the transaction's origin when the body has version 1.0, and of
    origins whose site is the authorized domain, and there is one at least, when
    it has version 2.0. Nothing is thrown. The result is undefined only when a
    budget of the body itself, in the list its version reads, has a reporting
    time after the year 2262, whose nanoseconds do not fit. *)
Theorem ParseBeginTransactionRequestBody_hours authorized_domain transaction_origin request_body :
  parsing_spec (late_body request_body) False (λ budgets, NoDup (hour_of <$> budgets) ∧
      ((body_version request_body "1.0" ∧ Forall (origin_budget transaction_origin) budgets) ∨
       (body_version request_body "2.0" ∧ budgets ≠ [] ∧ Forall (site_budget authorized_domain) budgets)))
    (ParseBeginTransactionRequestBody authorized_domain transaction_origin request_body).
Proof. apply parsed_hours. Qed.

End parsed.

(** ** Bodies of responses are read back *)

(** [dumpable]: a value whose strings are UTF-8 and whose integers fit. *)
Class JsonTextLaws `{!JsonLibrary} := {
  dumpable : json → Prop;
  dumpable_string s : is_utf8 s = true → dumpable (json_of_string s);
  dumpable_uint64 n : is_u64 n → dumpable (json_of_uint64 n);
  dumpable_bool b : dumpable (json_of_bool b);
  dumpable_array l : Forall dumpable l → dumpable (json_array l);
  dumpable_object fields :
    NoDup fields.*1 → Forall (λ '(name, v), is_utf8 name = true ∧ dumpable v) fields → dumpable (json_object fields);
  json_parse_dump j : dumpable j → json_parse (json_dump j) = Some j;
  json_member_object fields name v :
    NoDup fields.*1 → (name, v) ∈ fields → json_member (json_object fields) name = Some v;
  json_elements_array l : json_elements (json_array l) = l;
  json_get_string_of s : json_get_string (json_of_string s) = Some s;
  json_get_uint64_of n : is_u64 n → json_get_uint64 (json_of_uint64 n) = Some n;
  json_get_bool_of b : json_get_bool (json_of_bool b) = Some b;
}.

Lemma PhaseFromString_ToString phase : PhaseFromString (ToString phase) = (SuccessExecutionResult, phase).
Proof. by destruct phase. Qed.

Section read_back.
  Context `{!JsonLibrary} `{!JsonTextLaws}.
  #[local] Set Default Proof Using "Type*".

(** Every name is found in the object that was dumped. *)
Lemma dumped_member fields name v :
  NoDup fields.*1 → Forall (λ '(n, w), is_utf8 n = true ∧ dumpable w) fields → (name, v) ∈ fields →
  ∃ j, json_parse (json_dump (json_object fields)) = Some j ∧ json_member j name = Some v.
Proof.
  intros Hn Hf Hin. exists (json_object fields).
  split; [by apply json_parse_dump, dumpable_object|by apply json_member_object].
Qed.

(** The indices a body reports. *)
Definition read_failed_indices (body : list Z) : option (list Z) :=
  j ← json_parse body;
  f ← json_member j "f";
  mapM json_get_uint64 (json_elements f).

Lemma read_failed_indices_serialized indices :
  Forall is_u64 indices →
  read_failed_indices (SerializeTransactionFailedCommandIndicesResponse indices) = Some indices.
Proof.
  intros Hu. unfold read_failed_indices, SerializeTransactionFailedCommandIndicesResponse.
  set (fields := [_; _]). assert (NoDup fields.*1) as Hn by by apply (bool_decide_unpack _).
  assert (Forall dumpable (json_of_uint64 <$> indices)) as Hd.
  { apply Forall_fmap. eapply Forall_impl; [exact Hu|]. intros n. apply dumpable_uint64. }
  destruct (dumped_member fields "f" (json_array (json_of_uint64 <$> indices))) as (j & -> & Hj); [done| |set_solver|].
  { repeat constructor; [by apply dumpable_string|by apply dumpable_array]. }
  simpl. rewrite Hj. simpl. rewrite json_elements_array. apply mapM_Some_2. rewrite Forall2_fmap_l.
  apply Forall_Forall2_diag. eapply Forall_impl; [exact Hu|]. intros n. apply json_get_uint64_of.
Qed.

(** The status a coordinator serializes is the one its peer reads: the
    phase, with the unknown one, the time stamp of 64 bits and the flags. *)
Theorem GetTransactionStatus_roundtrip response :
  is_u64 (status_last_execution_timestamp response) →
  DeserializeGetTransactionStatus (SerializeGetTransactionStatus response) = Parsed response.
Proof.
  intros Hu. unfold DeserializeGetTransactionStatus, SerializeGetTransactionStatus.
  set (fields := [_; _; _; _]). assert (NoDup fields.*1) as Hn by by apply (bool_decide_unpack _).
  assert (Forall (λ '(n, w), is_utf8 n = true ∧ dumpable w) fields) as Hf.
  { repeat constructor; [apply dumpable_bool|apply dumpable_bool|by apply dumpable_uint64|].
    apply dumpable_string. by destruct (status_transaction_execution_phase response). }
  rewrite json_parse_dump by by apply dumpable_object. simpl.
  rewrite (json_member_object fields "is_expired" (json_of_bool (is_expired response))) by set_solver.
  rewrite (json_member_object fields "has_failures" (json_of_bool (has_failure response))) by set_solver.
  rewrite (json_member_object fields "last_execution_timestamp"
    (json_of_uint64 (status_last_execution_timestamp response))) by set_solver.
  rewrite (json_member_object fields "transaction_execution_phase"
    (json_of_string (ToString (status_transaction_execution_phase response)))) by set_solver.
  rewrite !json_get_bool_of, json_get_uint64_of, json_get_string_of by done. simpl.
  rewrite PhaseFromString_ToString. by destruct response.
Qed.

End read_back.
