(* ===== verification/FrontEndCommands.v ===== *)
(** * The commands of a request

    Models the part of [cc/pbs/front_end_service/src/front_end_service.cc] that
    turns the budgets of a request into the commands of its transaction, one for
    each budget or one for each day of a key, and that turns the commands that
    failed back into indices of the request; with
    [cc/pbs/transactions/src/consume_budget_command_factory.cc]. *)

From Stdlib Require Import Ascii Sorted.
From S2P Require Import Prelude Text ExecutionResult ErrorCodes Uuid TimeframeUtils TimeframeLoading TransactionLog TransactionProtocol.
From S2P Require Import SpannerConsumeBudget ConsumeBudgetCommand BatchConsumeBudgetCommand TransactionCommandSerializer.
From S2P Require Import FrontEndUtils.
From stdpp Require Import sorting.
From stdpp Require Import options.

Local Open Scope Z_scope.

(** ** Ordered maps *)

(** [std::map] as the list of its entries in order: the entry of the key is
    changed, or made when there is none. *)
Section ordered_map.
  Context {K V : Type} (ltb : K → K → bool).

Fixpoint map_update (k : K) (f : option V → V) (m : list (K * V)) : list (K * V) :=
  match m with
  | [] => [(k, f None)]
  | (k', v) :: m' =>
      if ltb k k' then (k, f None) :: m
      else if ltb k' k then (k', v) :: map_update k f m'
      else (k', f (Some v)) :: m'
  end.

Definition key_order (a b : K * V) : Prop := ltb a.1 b.1 = true.

Context (ltb_trans : ∀ a b c, ltb a b = true → ltb b c = true → ltb a c = true)
  (ltb_total : ∀ a b, ltb a b = false → ltb b a = false → a = b)
  (ltb_irrefl : ∀ a, ltb a a = false).
#[local] Set Default Proof Using "Type*".

Lemma map_update_Forall (P : K * V → Prop) k f m :
  Forall P m → P (k, f None) → (∀ v, P (k, v) → P (k, f (Some v))) → Forall P (map_update k f m).
Proof.
  intros HP Hnone Hsome. induction HP as [|[k' v] m Hv Hm IH]; simpl; [by constructor|].
  destruct (ltb k k') eqn:H1; [by repeat constructor|]. destruct (ltb k' k) eqn:H2; [by constructor|].
  assert (k = k') as <- by by apply ltb_total. constructor; auto.
Qed.

Lemma map_update_sorted k f m : StronglySorted key_order m → StronglySorted key_order (map_update k f m).
Proof.
  induction m as [|[k' v] m IH]; simpl; intros Hs; [by repeat constructor|].
  apply StronglySorted_inv in Hs as [Hs Hk]. unfold key_order in Hk. simpl in Hk.
  destruct (ltb k k') eqn:H1.
  - constructor; [by constructor|]. constructor; [done|]. eapply Forall_impl; [exact Hk|]. intros a. by apply ltb_trans.
  - destruct (ltb k' k) eqn:H2; [|by constructor]. constructor; [by apply IH|].
    apply map_update_Forall; [done|done|]. by intros ? ?.
Qed.

(** The entries a map holds, with [F] the entries of a value: an update that
    adds [x] to the value of the key adds it to the whole. *)
Definition flatten {A} (F : K → V → list A) (m : list (K * V)) : list A := m ≫= λ '(k, v), F k v.

Lemma map_update_flatten {A} (F : K → V → list A) x k f m :
  F k (f None) ≡ₚ [x] → (∀ v, (k, v) ∈ m → F k (f (Some v)) ≡ₚ x :: F k v) →
  flatten F (map_update k f m) ≡ₚ x :: flatten F m.
Proof.
  intros Hnone. induction m as [|[k' v] m IH]; intros Hsome; simpl; [by rewrite app_nil_r|].
  destruct (ltb k k') eqn:H1; [cbn; by rewrite Hnone|]. destruct (ltb k' k) eqn:H2; cbn.
  - rewrite IH by (intros; apply Hsome; set_solver). by rewrite Permutation_middle.
  - assert (k = k') as <- by by apply ltb_total. by rewrite Hsome by set_solver.
Qed.

Lemma sorted_keys m : StronglySorted key_order m → NoDup m.*1.
Proof.
  induction 1 as [|[k v] m Hs IH Hk]; simpl; constructor; [|done].
  intros ([k' v'] & -> & Hin)%list_elem_of_fmap. rewrite Forall_forall in Hk. specialize (Hk _ Hin).
  unfold key_order in Hk. simpl in Hk. by rewrite ltb_irrefl in Hk.
Qed.

End ordered_map.

(** [operator<] of [std::string]: the bytes are compared as unsigned. *)
Lemma string_ltb_cons c d s t :
  String.ltb (String c s) (String d t) = true ↔ (N_of_ascii c < N_of_ascii d)%N ∨ (c = d ∧ String.ltb s t = true).
Proof.
  unfold String.ltb. cbn [String.compare]. unfold Ascii.compare.
  destruct (N.compare_spec (N_of_ascii c) (N_of_ascii d)) as [Heq|Hlt|Hgt].
  - apply (f_equal ascii_of_N) in Heq. rewrite !ascii_N_embedding in Heq. subst d.
    split; [by right|]. intros [?|[_ ?]]; [lia|done].
  - split; [by left|done].
  - split; [done|]. intros [?|[-> _]]; lia.
Qed.

Lemma string_ltb_trans s t u : String.ltb s t = true → String.ltb t u = true → String.ltb s u = true.
Proof.
  revert t u. induction s as [|c s IH]; intros [|d t] [|e u]; try done.
  rewrite !string_ltb_cons. intros [?|[-> ?]] [?|[-> ?]]; [left; lia|by left|by left|right]. split; [done|by eapply IH].
Qed.

Lemma string_ltb_total s t : String.ltb s t = false → String.ltb t s = false → s = t.
Proof.
  unfold String.ltb. rewrite (String.compare_antisym t s). destruct (String.compare s t) eqn:Hc; try done.
  intros _ _. by apply String.compare_eq_iff.
Qed.

Lemma string_ltb_irrefl s : String.ltb s s = false.
Proof.
  induction s as [|c s IH]; [done|]. apply not_true_iff_false. rewrite string_ltb_cons. rewrite IH. intros [?|[_ ?]]; [lia|done].
Qed.

Lemma Zltb_trans a b c : (a <? b) = true → (b <? c) = true → (a <? c) = true.
Proof. lia. Qed.
Lemma Zltb_total a b : (a <? b) = false → (b <? a) = false → a = b.
Proof. lia. Qed.

#[local] Hint Resolve string_ltb_trans string_ltb_total string_ltb_irrefl Zltb_trans Zltb_total Z.ltb_irrefl : core.

(** ** The factory *)

Definition ConstructCommand (transaction_id : Uuid) (budget_key_name : string)
    (budget_info : ConsumeBudgetCommandRequestInfo) : TransactionCommand :=
  ConsumeCommand (ConsumeBudgetCommand.ConstructWithDependencies transaction_id budget_key_name budget_info).

Definition ConstructBatchCommand (transaction_id : Uuid) (budget_key_name : string)
    (budget_info : list ConsumeBudgetCommandRequestInfo) : TransactionCommand :=
  BatchCommand (BatchConsumeBudgetCommand.ConstructWithDependencies transaction_id budget_key_name budget_info).

(** ** One command for each budget *)

(** The budgets from index [index] on. *)
Fixpoint generate_commands (transaction_id : Uuid) (index : Z) (budgets : list ConsumeBudgetMetadata)
  : list TransactionCommand :=
  match budgets with
  | [] => []
  | budget :: budgets =>
      ConstructCommand transaction_id (budget_key_name budget)
        (mkRequestInfo (time_bucket budget) (token_count budget) (Some index))
      :: generate_commands transaction_id (index + 1) budgets
  end.

Definition GenerateConsumeBudgetCommands (consume_budget_metadata_list : list ConsumeBudgetMetadata)
    (transaction_id : Uuid) : list TransactionCommand :=
  generate_commands transaction_id 0 consume_budget_metadata_list.

(** ** One command for each day of a key *)

(** The set of the budgets of a day, by the value its comparator compares; an
    element that equals one of the set is not inserted. *)
Abbreviation BudgetSet := (list (Z * (ConsumeBudgetMetadata * Z))).
Abbreviation TimeGroupMap := (list (Z * BudgetSet)).
Abbreviation BudgetKeyMap := (list (string * TimeGroupMap)).

Definition insert_budget (budget : ConsumeBudgetMetadata) (array_index : Z) (m : BudgetKeyMap) : BudgetKeyMap :=
  map_update String.ltb (budget_key_name budget)
    (λ groups, map_update Z.ltb (GetTimeGroup (time_bucket budget))
      (λ set, map_update Z.ltb (time_bucket budget) (default (budget, array_index)) (default [] set))
      (default [] groups)) m.

Fixpoint budget_key_time_groups_map (array_index : Z) (budgets : list ConsumeBudgetMetadata) (m : BudgetKeyMap)
  : BudgetKeyMap :=
  match budgets with
  | [] => m
  | budget :: budgets => budget_key_time_groups_map (array_index + 1) budgets (insert_budget budget array_index m)
  end.

Definition request_info (e : Z * (ConsumeBudgetMetadata * Z)) : ConsumeBudgetCommandRequestInfo :=
  let '(_, (budget, array_index)) := e in mkRequestInfo (time_bucket budget) (token_count budget) (Some array_index).

(** A set of the map is not empty: it is made to insert a budget. *)
Definition command_of_group (transaction_id : Uuid) (name : string) (set : BudgetSet) : TransactionCommand :=
  match set with
  | [e] => ConstructCommand transaction_id name (request_info e)
  | _ => ConstructBatchCommand transaction_id name (request_info <$> set)
  end.

Definition commands_of_groups (transaction_id : Uuid) (name : string) (groups : TimeGroupMap)
  : list TransactionCommand :=
  (λ '(_, set), command_of_group transaction_id name set) <$> groups.

Definition GenerateConsumeBudgetCommandsWithBatchesPerDay (consume_budget_metadata_list : list ConsumeBudgetMetadata)
    (transaction_id : Uuid) : list TransactionCommand :=
  budget_key_time_groups_map 0 consume_budget_metadata_list [] ≫= λ '(name, groups),
    commands_of_groups transaction_id name groups.

(** ** What a generated command covers *)

(** The budgets of a command, with its key. *)
Definition command_budgets (c : TransactionCommand) : list (string * ConsumeBudgetCommandRequestInfo) :=
  match c with
  | ConsumeCommand c => [(budget_key_name_ c, budget_consumption_ c)]
  | BatchCommand c => (λ info, (batch_budget_key_name_ c, info)) <$> budget_consumptions_ c
  | OtherCommand _ => []
  end.

(** The key and the day of a command's first budget. *)
Definition command_day (c : TransactionCommand) : option (string * Z) :=
  (λ '(name, info), (name, GetTimeGroup (info_time_bucket info))) <$> head (command_budgets c).

(** The budget at a place of the request. *)
Definition budget_at (index : Z) (b : ConsumeBudgetMetadata) : string * ConsumeBudgetCommandRequestInfo :=
  (budget_key_name b, mkRequestInfo (time_bucket b) (token_count b) (Some index)).

Fixpoint budgets_from (index : Z) (budgets : list ConsumeBudgetMetadata)
  : list (string * ConsumeBudgetCommandRequestInfo) :=
  match budgets with
  | [] => []
  | b :: budgets => budget_at index b :: budgets_from (index + 1) budgets
  end.

(** A command ready to run, of one day of one key. A batch has more than one
    budget, and the key's protocol takes them: they are in the order it asks for
    and of different hours. *)
Definition day_command (transaction_id : Uuid) (c : TransactionCommand) : Prop :=
  match c with
  | ConsumeCommand c =>
      c = ConsumeBudgetCommand.ConstructWithDependencies transaction_id (budget_key_name_ c) (budget_consumption_ c)
  | BatchCommand c =>
      c = BatchConsumeBudgetCommand.ConstructWithDependencies transaction_id (batch_budget_key_name_ c)
            (budget_consumptions_ c) ∧
      (1 < length (budget_consumptions_ c))%nat ∧
      AreBudgetsInIncreasingOrder (consumption_of <$> budget_consumptions_ c) = true ∧
      one_day (info_time_bucket <$> budget_consumptions_ c)
  | OtherCommand _ => False
  end.

(** ** Every budget has its command *)

Section batches.

(** [seen]: the budgets that may be in the map. *)
Implicit Type seen : ConsumeBudgetMetadata → Prop.

Definition item_ok seen (name : string) (group : Z) (e : Z * (ConsumeBudgetMetadata * Z)) : Prop :=
  let '(t, (b, _)) := e in
  budget_key_name b = name ∧ GetTimeGroup (time_bucket b) = group ∧ t = time_bucket b ∧ seen b.
Definition set_ok seen (name : string) (group : Z) (set : BudgetSet) : Prop :=
  set ≠ [] ∧ StronglySorted (key_order Z.ltb) set ∧ Forall (item_ok seen name group) set.
Definition groups_ok seen (name : string) (groups : TimeGroupMap) : Prop :=
  groups ≠ [] ∧ StronglySorted (key_order Z.ltb) groups ∧ Forall (λ '(group, set), set_ok seen name group set) groups.
Definition map_ok seen (m : BudgetKeyMap) : Prop :=
  StronglySorted (key_order String.ltb) m ∧ Forall (λ '(name, groups), groups_ok seen name groups) m.

Lemma map_update_nonempty {K V} ltb (k : K) (f : option V → V) m : map_update ltb k f m ≠ [].
Proof. destruct m as [|[k' v] m]; simpl; [done|]. by destruct (ltb k k'), (ltb k' k). Qed.

Lemma insert_set_ok seen b i set : seen b →
  (set = [] ∨ set_ok seen (budget_key_name b) (GetTimeGroup (time_bucket b)) set) →
  set_ok seen (budget_key_name b) (GetTimeGroup (time_bucket b)) (map_update Z.ltb (time_bucket b) (default (b, i)) set).
Proof.
  intros Hb Hset. assert (StronglySorted (key_order Z.ltb) set ∧
    Forall (item_ok seen (budget_key_name b) (GetTimeGroup (time_bucket b))) set) as [Hs Hf].
  { destruct Hset as [->|(_ & ? & ?)]; [by repeat constructor|done]. }
  split; [apply map_update_nonempty|]. split; [apply map_update_sorted; eauto 3|].
  apply map_update_Forall; simpl; eauto 4.
Qed.

Lemma insert_groups_ok seen b i groups : seen b →
  (groups = [] ∨ groups_ok seen (budget_key_name b) groups) →
  groups_ok seen (budget_key_name b) (map_update Z.ltb (GetTimeGroup (time_bucket b))
    (λ set, map_update Z.ltb (time_bucket b) (default (b, i)) (default [] set)) groups).
Proof.
  intros Hb Hg. assert (StronglySorted (key_order Z.ltb) groups ∧
    Forall (λ '(group, set), set_ok seen (budget_key_name b) group set) groups) as [Hs Hf].
  { destruct Hg as [->|(_ & ? & ?)]; [by repeat constructor|done]. }
  split; [apply map_update_nonempty|]. split; [apply map_update_sorted; eauto 3|].
  apply map_update_Forall; [eauto 3..|done| |].
  - apply (insert_set_ok _ _ _ []); [done|by left].
  - intros v Hv. apply (insert_set_ok _ _ _ v); [done|by right].
Qed.

Lemma insert_budget_ok seen b i m : seen b → map_ok seen m → map_ok seen (insert_budget b i m).
Proof.
  intros Hb [Hs Hm]. split; [apply map_update_sorted; eauto 3|].
  apply map_update_Forall; [eauto 3..|done| |].
  - apply (insert_groups_ok _ _ _ []); [done|by left].
  - intros v Hv. apply (insert_groups_ok _ _ _ v); [done|by right].
Qed.

Lemma map_ok_weaken seen seen' m : (∀ b, seen b → seen' b) → map_ok seen m → map_ok seen' m.
Proof.
  intros Hw [Hs Hm]. split; [done|]. eapply Forall_impl; [exact Hm|].
  intros [name groups] (Hne & Hgs & Hg). split; [done|]. split; [done|]. eapply Forall_impl; [exact Hg|].
  intros [g set] (Hn & Hss & Hi). split; [done|]. split; [done|]. eapply Forall_impl; [exact Hi|].
  intros [t [b i]] (? & ? & ? & ?). simpl. auto.
Qed.

(** The budgets of a map. *)
Definition set_budgets (name : string) (set : BudgetSet) : list (string * ConsumeBudgetCommandRequestInfo) :=
  flatten (λ t bi, [(name, request_info (t, bi))]) set.
Definition map_budgets (m : BudgetKeyMap) : list (string * ConsumeBudgetCommandRequestInfo) :=
  flatten (λ name groups, flatten (λ _ set, set_budgets name set) groups) m.

Lemma insert_budget_budgets seen b i m :
  map_ok seen m → (∀ b', seen b' → hour_of b' ≠ hour_of b) →
  map_budgets (insert_budget b i m) ≡ₚ budget_at i b :: map_budgets m.
Proof.
  intros [_ Hm] Hseen. unfold map_budgets, insert_budget.
  apply map_update_flatten; [eauto 3..|done|]. intros groups Hin. rewrite Forall_forall in Hm.
  destruct (Hm _ Hin) as (_ & _ & Hg). simpl.
  apply map_update_flatten; [eauto 3..|done|]. intros set Hset. rewrite Forall_forall in Hg.
  destruct (Hg _ Hset) as (_ & _ & Hi). simpl.
  apply map_update_flatten; [eauto 3..|done|]. intros [b' i'] Hb. rewrite Forall_forall in Hi.
  destruct (Hi _ Hb) as (Hname & _ & Htime & Hs). destruct (Hseen b' Hs).
  unfold hour_of. by rewrite Hname, Htime.
Qed.

Lemma map_of_budgets seen i budgets m :
  map_ok seen m → (∀ b, seen b → hour_of b ∉ hour_of <$> budgets) → NoDup (hour_of <$> budgets) →
  ∃ seen', (∀ b, seen' b → seen b ∨ b ∈ budgets) ∧ map_ok seen' (budget_key_time_groups_map i budgets m) ∧
    map_budgets (budget_key_time_groups_map i budgets m) ≡ₚ map_budgets m ++ budgets_from i budgets.
Proof.
  revert seen i m. induction budgets as [|b budgets IH]; intros seen i m Hm Hseen Hnd.
  { exists seen. split; [by left|]. split; [done|]. simpl. by rewrite app_nil_r. }
  cbn [budget_key_time_groups_map budgets_from]. apply NoDup_cons in Hnd as [Hb Hnd].
  destruct (IH (λ b', seen b' ∨ b' = b) (i + 1) (insert_budget b i m)) as (seen' & Hin & Hok & Hperm).
  - apply insert_budget_ok; [by right|]. eapply map_ok_weaken; [|exact Hm]. by left.
  - intros b' [Hb'| ->]; [|done]. specialize (Hseen b' Hb'). rewrite fmap_cons, elem_of_cons in Hseen. tauto.
  - done.
  - exists seen'. split; [intros b' [[Hb'| ->]|Hb']%Hin; [by left|right; by left|right; by right]|].
    split; [done|]. rewrite Hperm, (insert_budget_budgets seen); [|done|].
    + by rewrite <- Permutation_middle.
    + intros b' Hb'. specialize (Hseen b' Hb'). rewrite fmap_cons, elem_of_cons in Hseen. tauto.
Qed.

Lemma command_of_group_budgets transaction_id name set :
  command_budgets (command_of_group transaction_id name set) = set_budgets name set.
Proof.
  assert ((λ info, (name, info)) <$> (request_info <$> set) = set_budgets name set) as Hset.
  { induction set as [|[t bi] set IH]; [done|]. cbn in IH |- *. by rewrite IH. }
  destruct set as [|[t bi] [|e set]]; [done..|exact Hset].
Qed.

Lemma commands_budgets transaction_id (m : BudgetKeyMap) :
  (m ≫= λ '(name, groups), commands_of_groups transaction_id name groups) ≫= command_budgets = map_budgets m.
Proof.
  assert (∀ name groups, commands_of_groups transaction_id name groups ≫= command_budgets
    = flatten (λ _ set, set_budgets name set) groups) as Hg.
  { intros name groups. induction groups as [|[g set] groups IH]; [done|]. unfold flatten in *.
    change (command_budgets (command_of_group transaction_id name set) ++
      (commands_of_groups transaction_id name groups ≫= command_budgets)
      = set_budgets name set ++ (groups ≫= λ '(_, set), set_budgets name set)).
    by rewrite IH, command_of_group_budgets. }
  unfold map_budgets, flatten. induction m as [|[name groups] m IH]; [done|]. cbn [mbind list_bind].
  rewrite bind_app. f_equal; [apply Hg|exact IH].
Qed.

(** *** The days of the commands *)

Lemma group_command_day transaction_id seen name group set : set_ok seen name group set →
  command_day (command_of_group transaction_id name set) = Some (name, group).
Proof.
  intros (Hne & _ & Hi). unfold command_day. rewrite command_of_group_budgets.
  destruct set as [|[t [b i]] set]; [done|]. cbn. apply Forall_cons in Hi as [(_ & <- & _) _]. done.
Qed.

Lemma days_of_groups transaction_id seen name groups : groups_ok seen name groups →
  command_day <$> commands_of_groups transaction_id name groups = (λ g, Some (name, g)) <$> groups.*1.
Proof.
  intros (_ & _ & Hg). unfold commands_of_groups. induction Hg as [|[g set] groups Hs Hg IH]; [done|]. cbn.
  by rewrite IH, (group_command_day _ seen _ g).
Qed.

Lemma days_unique transaction_id seen m : map_ok seen m →
  NoDup (command_day <$> (m ≫= λ '(name, groups), commands_of_groups transaction_id name groups)).
Proof.
  intros [Hs Hm]. induction Hs as [|[name groups] m Hs IH Hk]; cbn; [constructor|].
  apply Forall_cons in Hm as [Hg Hm]. rewrite fmap_app, NoDup_app. rewrite (days_of_groups _ seen) by done.
  split_and!.
  - apply NoDup_fmap_2; [by intros ? ? [= ->]|]. destruct Hg as (_ & Hgs & _). eapply sorted_keys; [..|exact Hgs]; eauto 3.
  - intros day (g & -> & _)%list_elem_of_fmap. intros (c & Hday & Hc)%list_elem_of_fmap.
    apply list_elem_of_bind in Hc as ([name' groups'] & Hc & Hin). rewrite !Forall_forall in *.
    specialize (Hm _ Hin). specialize (Hk _ Hin). simpl in Hm.
    apply (list_elem_of_fmap_2 command_day) in Hc. rewrite (days_of_groups _ seen), <- Hday in Hc by done.
    apply list_elem_of_fmap in Hc as (g' & [= -> ->] & _). unfold key_order in Hk. simpl in Hk.
    by rewrite string_ltb_irrefl in Hk.
  - by apply IH.
Qed.

(** Budgets in range, no two of which are of the same hour of the same key. *)
Definition distinct_hours (P : ConsumeBudgetMetadata → Prop) : Prop :=
  (∀ b, P b → in_range_time (time_bucket b)) ∧ ∀ b c, P b → P c → hour_of b = hour_of c → b = c.

Lemma NoDup_distinct_hours budgets :
  Forall (λ b, in_range_time (time_bucket b)) budgets → NoDup (hour_of <$> budgets) → distinct_hours (λ b, b ∈ budgets).
Proof.
  intros Hr Hnd. rewrite Forall_forall in Hr. split; [exact Hr|].
  intros b c [i Hb]%list_elem_of_lookup [j Hc]%list_elem_of_lookup Heq.
  assert (i = j) as ->; [|congruence]. eapply NoDup_lookup; [exact Hnd| |]; rewrite list_lookup_fmap.
  - by rewrite Hb.
  - by rewrite Hc, Heq.
Qed.

Section set_ok.
  Context (seen : ConsumeBudgetMetadata → Prop) (name : string) (group : Z) (set : BudgetSet).
  Context (Hdistinct : distinct_hours seen) (Hset : set_ok seen name group set).
  #[local] Set Default Proof Using "Type*".

Lemma set_times : info_time_bucket <$> (request_info <$> set) = set.*1.
Proof.
  destruct Hset as (_ & _ & Hi). clear Hset. induction Hi as [|[t [b i]] l (_ & _ & -> & _) _ IH]; [done|].
  cbn in IH |- *. by rewrite IH.
Qed.

Lemma set_member t : t ∈ set.*1 →
  ∃ b, t = time_bucket b ∧ seen b ∧ budget_key_name b = name ∧ GetTimeGroup t = group ∧ in_range_time t.
Proof.
  intros ([t' [b i]] & -> & Hin)%list_elem_of_fmap. destruct Hset as (_ & _ & Hi). rewrite Forall_forall in Hi.
  destruct (Hi _ Hin) as (Hn & Hg & -> & Hs). exists b. cbn. split_and!; try done; by apply Hdistinct.
Qed.

Lemma set_one_day : one_day (info_time_bucket <$> (request_info <$> set)).
Proof.
  rewrite set_times. split.
  - intros t1 t2 (b1 & _ & _ & _ & -> & _)%set_member (b2 & _ & _ & _ & -> & _)%set_member. done.
  - apply NoDup_fmap_2_strong.
    + intros t1 t2 (b1 & E1 & H1 & N1 & G1 & R1)%set_member (b2 & E2 & H2 & N2 & G2 & R2)%set_member Hb.
      destruct (group_and_bucket t1 R1) as [_ D1], (group_and_bucket t2 R2) as [_ D2].
      assert (b1 = b2) as ->; [|congruence]. apply Hdistinct; [done|done|]. unfold hour_of.
      rewrite N1, N2, <- E1, <- E2, <- D1, <- D2. by rewrite G1, G2, Hb.
    + destruct Hset as (_ & Hs & _). eapply sorted_keys; [..|exact Hs]; eauto 3.
Qed.

Lemma set_in_order : AreBudgetsInIncreasingOrder (consumption_of <$> (request_info <$> set)) = true.
Proof.
  unfold AreBudgetsInIncreasingOrder. assert (Forall (λ e, 0 ≤ e.1) set) as Hpos.
  { apply Forall_forall. intros e He. destruct (set_member e.1) as (b & _ & _ & _ & _ & Hr).
    { by apply list_elem_of_fmap_2. } apply Hr. }
  destruct Hset as (_ & Hs & Hi). clear Hset. generalize dependent 0. revert Hs.
  induction Hi as [|[t [b i]] l (_ & _ & -> & _) _ IH]; intros Hs prev Hp; [done|].
  apply StronglySorted_inv in Hs as [Hs Ht]. apply Forall_cons in Hp as [Hp _]. cbn in Hp. cbn.
  rewrite (proj2 (Z.ltb_ge _ _) Hp). apply IH; [done|]. eapply Forall_impl; [exact Ht|].
  intros e He. unfold key_order in He. cbn in He. lia.
Qed.

Lemma group_day_command transaction_id : day_command transaction_id (command_of_group transaction_id name set).
Proof.
  pose proof set_one_day as Hday. pose proof set_in_order as Horder. destruct Hset as (Hne & _).
  destruct set as [|e [|e' set']]; [done|done|]. unfold day_command, command_of_group, ConstructBatchCommand.
  split; [done|]. split; [simpl; lia|done].
Qed.
End set_ok.

Lemma groups_day_commands transaction_id seen m : distinct_hours seen → map_ok seen m →
  Forall (day_command transaction_id) (m ≫= λ '(name, groups), commands_of_groups transaction_id name groups).
Proof.
  intros Hd [_ Hm]. rewrite Forall_forall in Hm. apply Forall_forall. intros c ([name groups] & Hc & Hin)%list_elem_of_bind.
  destruct (Hm _ Hin) as (_ & _ & Hg). apply list_elem_of_fmap in Hc as ([g set] & -> & Hset).
  rewrite Forall_forall in Hg. by eapply group_day_command, (Hg _ Hset).
Qed.

End batches.

Lemma generated_budgets transaction_id budgets :
  Forall (λ b, in_range_time (time_bucket b)) budgets → NoDup (hour_of <$> budgets) →
  let generated := GenerateConsumeBudgetCommandsWithBatchesPerDay budgets transaction_id in
  generated ≫= command_budgets ≡ₚ budgets_from 0 budgets ∧
  Forall (day_command transaction_id) generated ∧
  NoDup (command_day <$> generated).
Proof.
  intros Hr Hnd.
  destruct (map_of_budgets (λ _, False) 0 budgets []) as (seen & Hin & Hok & Hperm); [by repeat constructor|done|done|].
  assert (distinct_hours seen) as Hd.
  { destruct (NoDup_distinct_hours budgets Hr Hnd) as [H1 H2].
    split; [intros b [[]|?]%Hin; auto|]. intros b c [[]|?]%Hin [[]|?]%Hin; auto. }
  cbv zeta. unfold GenerateConsumeBudgetCommandsWithBatchesPerDay. rewrite commands_budgets. split; [done|].
  split; [by eapply groups_day_commands|by eapply days_unique].
Qed.

(** C11: when the time buckets of a request are in range and no two of its
    budgets are of the same hour of the same key, as parsing makes sure, the
    commands with batching cover exactly the budgets of the request, each once
    and with its place in the request. There is one command for each day of a
    key; it has the transaction's id and its dependencies, and the budgets of a
    batch, two at least, are such that the key's protocol does not refuse them:
    of different hours of one day, in order. *)
Theorem GenerateConsumeBudgetCommandsWithBatchesPerDay_covers transaction_id budgets :
  Forall (λ b, in_range_time (time_bucket b)) budgets → NoDup (hour_of <$> budgets) →
  let generated := GenerateConsumeBudgetCommandsWithBatchesPerDay budgets transaction_id in
  generated ≫= command_budgets ≡ₚ budgets_from 0 budgets ∧
  Forall (day_command transaction_id) generated ∧
  NoDup (command_day <$> generated).
Proof. apply generated_budgets. Qed.

(** ** The failed commands of a response *)

Definition is_batch (c : TransactionCommand) : bool := match c with BatchCommand _ => true | _ => false end.

Definition HasBatchCommand (commands : list TransactionCommand) : bool := existsb is_batch commands.

Definition PopulateInsufficientBudgetsFromBatchCommand (batch_command : BatchConsumeBudgetCommand)
    (failed_budget_consumption_indices : list Z) : list Z :=
  failed_budget_consumption_indices ++ omap request_index (failed_insufficient_budget_consumptions_ batch_command).

(** [None]: the command's flag was never set. *)
Definition PopulateInsufficientBudgetsFromNonBatchCommand (non_batch_command : ConsumeBudgetCommand)
    (failed_budget_consumption_indices : list Z) : option (list Z) :=
  insufficient_budget_consumption ← ConsumeBudgetCommand.GetFailedInsufficientBudgetConsumption non_batch_command;
  Some match insufficient_budget_consumption ≫= request_index with
       | Some request_index => failed_budget_consumption_indices ++ [request_index]
       | None => failed_budget_consumption_indices
       end.

(** The loop over the failed commands: a failure when one is of another class. *)
Fixpoint populate_indices (failed_commands : list TransactionCommand) (failed_budget_consumption_indices : list Z)
  : option (ExecutionResult + list Z) :=
  match failed_commands with
  | [] => Some (inr failed_budget_consumption_indices)
  | BatchCommand c :: failed_commands =>
      populate_indices failed_commands (PopulateInsufficientBudgetsFromBatchCommand c failed_budget_consumption_indices)
  | ConsumeCommand c :: failed_commands =>
      indices ← PopulateInsufficientBudgetsFromNonBatchCommand c failed_budget_consumption_indices;
      populate_indices failed_commands indices
  | OtherCommand _ :: _ => Some (inl (FailureExecutionResult SC_PBS_FRONT_END_SERVICE_BAD_TRANSACTON_COMMANDS))
  end.

Section failed_commands.
  Context `{!JsonLibrary}.

(** The result and the body; a failure leaves the body as it was, empty. *)
Definition SerializeFailedCommands (failed_commands_indices : list nat)
    (failed_commands : list TransactionCommand) : option (ExecutionResult * list Z) :=
  let bad := (FailureExecutionResult SC_PBS_FRONT_END_SERVICE_BAD_TRANSACTON_COMMANDS, []) in
  if negb (HasBatchCommand failed_commands) then
    Some (SuccessExecutionResult, SerializeTransactionFailedCommandIndicesResponse (Z.of_nat <$> failed_commands_indices))
  else if negb (length failed_commands_indices =? length failed_commands)%nat then Some bad
  else
    collected ← populate_indices failed_commands [];
    Some match collected with
         | inl result => (result, [])
         | inr indices =>
             (SuccessExecutionResult, SerializeTransactionFailedCommandIndicesResponse (merge_sort Z.le indices))
         end.

End failed_commands.

(** *** What is reported *)

(** The budgets a command has noted as insufficient, with its key. *)
Definition insufficient_budgets (c : TransactionCommand) : list (string * ConsumeBudgetCommandRequestInfo) :=
  match c with
  | ConsumeCommand c =>
      match failed_with_insufficient_budget_consumption_ c with
      | Some true => [(budget_key_name_ c, budget_consumption_ c)]
      | _ => []
      end
  | BatchCommand c => (λ info, (batch_budget_key_name_ c, info)) <$> failed_insufficient_budget_consumptions_ c
  | OtherCommand _ => []
  end.

(** A command after phases that have noted some of its budgets. *)
Definition ran_as (made now : TransactionCommand) : Prop :=
  match made, now with
  | ConsumeCommand c, ConsumeCommand c' => ∃ failed, c' = ConsumeBudgetCommand.set_failed failed c
  | BatchCommand c, BatchCommand c' =>
      ∃ failed, c' = BatchConsumeBudgetCommand.set_failed failed c ∧ failed `sublist_of` budget_consumptions_ c
  | _, _ => False
  end.

Lemma ran_as_insufficient made now : ran_as made now → insufficient_budgets now `sublist_of` command_budgets made.
Proof.
  destruct made, now; try done.
  - intros [[|] ->]; simpl; [done|apply sublist_nil_l].
  - intros (failed & -> & Hs). by apply fmap_sublist.
Qed.

(** The indices of the request that are reported. *)
Definition reported_index (x : string * ConsumeBudgetCommandRequestInfo) : option Z := request_index x.2.

Lemma populate_indices_ran made now indices : Forall2 ran_as made now →
  populate_indices now indices = Some (inr (indices ++ omap reported_index (now ≫= insufficient_budgets))).
Proof.
  intros H. revert indices. induction H as [|m c made now Hr _ IH]; intros indices; [by rewrite app_nil_r|].
  rewrite bind_cons, omap_app. destruct m as [m|m|], c as [c|c|]; try done; simpl in Hr.
  - destruct Hr as [failed ->]. cbn [populate_indices].
    unfold PopulateInsufficientBudgetsFromNonBatchCommand, ConsumeBudgetCommand.GetFailedInsufficientBudgetConsumption.
    destruct failed; cbn; [|by rewrite IH]. unfold reported_index at 1. cbn.
    destruct (request_index _); cbn; rewrite IH; [by rewrite <- app_assoc|done].
  - cbn [populate_indices]. rewrite IH. unfold PopulateInsufficientBudgetsFromBatchCommand. rewrite <- app_assoc.
    do 4 f_equal. cbn. induction (failed_insufficient_budget_consumptions_ c) as [|info l IHl]; [done|].
    cbn. unfold reported_index at 1. cbn. by rewrite IHl.
Qed.

Lemma budgets_from_elem k budgets x :
  x ∈ budgets_from k budgets ↔ ∃ n b, budgets !! n = Some b ∧ x = budget_at (k + Z.of_nat n) b.
Proof.
  revert k. induction budgets as [|b budgets IH]; intros k; simpl.
  - split; [by intros ?%elem_of_nil|]. by intros (? & ? & ? & _).
  - rewrite elem_of_cons, IH. split.
    + intros [->|(n & c & Hn & ->)]; [exists 0%nat, b; by rewrite Z.add_0_r|]. exists (S n), c. split; [done|]. f_equal. lia.
    + intros ([|n] & c & Hn & ->); [left; injection Hn as ->; by rewrite Z.add_0_r|].
      right. exists n, c. split; [done|]. f_equal. lia.
Qed.

Lemma budgets_from_indices k budgets : NoDup (omap reported_index (budgets_from k budgets)) ∧
  Forall (λ i, k ≤ i < k + Z.of_nat (length budgets)) (omap reported_index (budgets_from k budgets)).
Proof.
  revert k. induction budgets as [|b budgets IH]; intros k; simpl; [by split; constructor|].
  destruct (IH (k + 1)) as [Hn Hf]. split; constructor.
  - intros Hin. rewrite Forall_forall in Hf. specialize (Hf _ Hin). lia.
  - done.
  - lia.
  - eapply Forall_impl; [exact Hf|]. simpl. lia.
Qed.

Lemma omap_submseteq {A B} (f : A → option B) l l' : l ⊆+ l' → omap f l ⊆+ omap f l'.
Proof.
  assert (∀ l, omap f l = l ≫= (λ x, option_list (f x))) as Hb.
  { induction l0 as [|x l0 IH]; [done|]. rewrite bind_cons, <- IH. cbn. by destruct (f x). }
  rewrite !Hb. apply bind_submseteq.
Qed.

(** Parts of some elements of a list, each chosen once, are part of the parts
    of the list. *)
Lemma chosen_submseteq {A B} (f g : A → list B) (ps : list nat) (now all : list A) :
  NoDup ps → Forall2 (λ i c, ∃ made, all !! i = Some made ∧ f c `sublist_of` g made) ps now →
  now ≫= f ⊆+ all ≫= g.
Proof.
  intros Hnd H.
  set (G := λ i, from_option g [] (all !! i)).
  assert (now ≫= f ⊆+ ps ≫= G) as Hsub.
  { clear Hnd. induction H as [|i c ps now (made & Hi & Hs) _ IH]; [done|]. rewrite !bind_cons.
    apply submseteq_app; [|done]. unfold G. rewrite Hi. by apply sublist_submseteq. }
  assert (all ≫= g = seq 0 (length all) ≫= G) as ->.
  { unfold G. clear. assert (∀ k, all ≫= g = seq k (length all) ≫= (λ i, from_option g [] (all !! (i - k)%nat))) as Hk.
    { induction all as [|x all IH]; intros k; [done|]. cbn [length seq]. rewrite !bind_cons, Nat.sub_diag. f_equal.
      rewrite (IH (S k)). apply Forall_bind_ext, Forall_seq. intros j Hj.
      by replace (j - k)%nat with (S (j - S k)) by lia. }
    rewrite (Hk 0%nat). apply Forall_bind_ext, Forall_seq. intros j _. by rewrite Nat.sub_0_r. }
  rewrite Hsub. apply bind_submseteq. apply NoDup_submseteq; [done|]. intros i Hi.
  apply list_elem_of_lookup in Hi as [n Hn]. destruct (Forall2_lookup_l _ _ _ _ _ H Hn) as (c & _ & made & Hm & _).
  apply elem_of_seq. apply lookup_lt_Some in Hm. lia.
Qed.

Lemma sorted_strict l : Sorted Z.le l → NoDup l → StronglySorted Z.lt l.
Proof.
  intros Hs%Sorted_StronglySorted; [|intros ? ? ?; lia]. induction Hs as [|x l Hs IH Hx]; intros Hn; constructor.
  - apply IH. by apply NoDup_cons in Hn as [_ ?].
  - apply NoDup_cons in Hn as [Hin _]. rewrite Forall_forall in *. intros y Hy. specialize (Hx y Hy).
    assert (x ≠ y) by (by intros ->). lia.
Qed.

Section reports.
  Context `{!JsonLibrary} `{!JsonTextLaws}.
  #[local] Set Default Proof Using "Type*".

(** C27: commands generated with batching, some of which failed, a batch among
    them: the response tells the client, in order and without repetition,
    exactly the places in its request of the budgets that the failed commands
    found insufficient. [failed] are the places of the failed commands in the
    transaction, as the engine gives them, and [now] the commands after they
    ran. *)
Theorem failed_batches_reported transaction_id budgets failed now :
  Forall (λ b, in_range_time (time_bucket b)) budgets → NoDup (hour_of <$> budgets) →
  Z.of_nat (length budgets) < 2 ^ 64 →
  let generated := GenerateConsumeBudgetCommandsWithBatchesPerDay budgets transaction_id in
  NoDup failed → Forall2 (λ i c, ∃ made, generated !! i = Some made ∧ ran_as made c) failed now →
  HasBatchCommand now = true →
  ∃ body indices, SerializeFailedCommands failed now = Some (SuccessExecutionResult, body) ∧
    read_failed_indices body = Some indices ∧ StronglySorted Z.lt indices ∧
    ∀ i, i ∈ indices ↔ ∃ n b c, i = Z.of_nat n ∧ budgets !! n = Some b ∧ c ∈ now ∧ budget_at i b ∈ insufficient_budgets c.
Proof.
  intros Hr Hd Hlen generated Hnd Hnow Hbatch.
  pose proof (generated_budgets transaction_id budgets Hr Hd) as [Hperm _]. fold generated in Hperm.
  set (told := now ≫= insufficient_budgets).
  assert (told ⊆+ budgets_from 0 budgets) as Htold.
  { rewrite <- Hperm. eapply chosen_submseteq; [done|]. eapply Forall2_impl; [exact Hnow|].
    intros i c (made & ? & ?%ran_as_insufficient). by exists made. }
  destruct (budgets_from_indices 0 budgets) as [Hun Hrange].
  assert (omap reported_index told ⊆+ omap reported_index (budgets_from 0 budgets)) as Homap by by apply omap_submseteq.
  set (indices := merge_sort Z.le (omap reported_index told)).
  assert (indices ≡ₚ omap reported_index told) as Hsort by apply merge_sort_Permutation.
  eexists _, indices. split_and!.
  - unfold SerializeFailedCommands. rewrite Hbatch. cbn [negb]. rewrite (Forall2_length _ _ _ Hnow), Nat.eqb_refl. cbn [negb].
    rewrite (populate_indices_ran (omap (λ i, generated !! i) failed)); [done|].
    clear -Hnow. induction Hnow as [|i c failed now (made & Hi & Hran) _ IH]; [constructor|]. cbn. rewrite Hi. by constructor.
  - apply read_failed_indices_serialized. rewrite Hsort. rewrite Forall_forall in *. intros i Hi.
    specialize (Hrange i (elem_of_submseteq _ _ _ Hi Homap)). unfold is_u64. lia.
  - apply sorted_strict; [apply Sorted_merge_sort; intros ? ?; lia|]. rewrite Hsort. apply submseteq_Permutation in Homap as [more Homap].
    rewrite Homap in Hun. by apply NoDup_app in Hun as [? _].
  - intros i. rewrite Hsort, list_elem_of_omap. split.
    + intros (x & Hx & Hi). pose proof (elem_of_submseteq _ _ _ Hx Htold) as Hb.
      apply budgets_from_elem in Hb as (n & b & Hn & ->). injection Hi as <-.
      apply list_elem_of_bind in Hx as (c & Hx & Hc). exists n, b, c. split; [lia|done].
    + intros (n & b & c & -> & _ & Hc & Hx). exists (budget_at (Z.of_nat n) b). split; [|done]. apply list_elem_of_bind. by exists c.
Qed.

Lemma generate_commands_lookup transaction_id k budgets n :
  generate_commands transaction_id k budgets !! n
  = (λ b, ConstructCommand transaction_id (budget_key_name b) (budget_at (k + Z.of_nat n) b).2) <$> budgets !! n.
Proof.
  revert k n. induction budgets as [|b budgets IH]; intros k [|n]; [done|done|by cbn; rewrite Z.add_0_r|]. cbn.
  rewrite IH. destruct (budgets !! n); [|done]. cbn. do 4 f_equal. lia.
Qed.

Lemma generate_commands_budgets transaction_id k budgets :
  generate_commands transaction_id k budgets ≫= command_budgets = budgets_from k budgets.
Proof. revert k. induction budgets as [|b budgets IH]; intros k; [done|]. cbn. by rewrite IH. Qed.

(** When no failed command is a batch, the response tells the client the
    places of the commands in the transaction. Without batching they are the
    places of the budgets in its request. With batching they are not, as the
    commands are ordered by key: of the two budgets of a request, of the keys
    "b" and "a", the first is insufficient and the response names the second. *)
Theorem failed_singles_reported transaction_id :
  (∀ budgets failed now,
    let generated := GenerateConsumeBudgetCommands budgets transaction_id in
    Z.of_nat (length budgets) < 2 ^ 64 →
    Forall2 (λ i c, ∃ made, generated !! i = Some made ∧ ran_as made c) failed now →
    ∃ body, SerializeFailedCommands failed now = Some (SuccessExecutionResult, body) ∧
      read_failed_indices body = Some (Z.of_nat <$> failed) ∧
      Forall2 (λ i c, ∃ b, budgets !! i = Some b ∧
        insufficient_budgets c `sublist_of` [budget_at (Z.of_nat i) b]) failed now) ∧
  let budgets := [mkBudget "b" 1 0; mkBudget "a" 1 0] in
  let generated := GenerateConsumeBudgetCommandsWithBatchesPerDay budgets transaction_id in
  ∃ made now body, generated !! 1%nat = Some made ∧ ran_as made now ∧
    insufficient_budgets now = [budget_at 0 (mkBudget "b" 1 0)] ∧
    SerializeFailedCommands [1%nat] [now] = Some (SuccessExecutionResult, body) ∧
    read_failed_indices body = Some [1].
Proof.
  split.
  - intros budgets failed now generated Hlen Hnow.
    assert (Forall2 (λ i c, ∃ b, budgets !! i = Some b ∧ is_batch c = false ∧
      insufficient_budgets c `sublist_of` [budget_at (Z.of_nat i) b]) failed now) as Hb.
    { eapply Forall2_impl; [exact Hnow|]. intros i c (made & Hm & Hran).
      pose proof (generate_commands_lookup transaction_id 0 budgets i) as Hl.
      fold (GenerateConsumeBudgetCommands budgets transaction_id) in Hl. fold generated in Hl. rewrite Hm in Hl.
      destruct (budgets !! i) as [b|]; [|done]. injection Hl as ->. exists b. split; [done|].
      split; [by destruct c|]. exact (ran_as_insufficient _ _ Hran). }
    assert (HasBatchCommand now = false) as Hbatch.
    { clear -Hb. induction Hb as [|i c failed now (b & _ & Hc & _) _ IH]; [done|]. simpl. by rewrite Hc, IH. }
    eexists. split_and!.
    + unfold SerializeFailedCommands. by rewrite Hbatch.
    + apply read_failed_indices_serialized, Forall_fmap, Forall_lookup. intros n i Hi. unfold is_u64. simpl.
      destruct (Forall2_lookup_l _ _ _ _ _ Hb Hi) as (c & _ & b & Hlook & _). apply lookup_lt_Some in Hlook. lia.
    + eapply Forall2_impl; [exact Hb|]. intros i c (b & ? & _ & ?). by exists b.
  - intros budgets generated.
    set (c := ConsumeBudgetCommand.ConstructWithDependencies transaction_id "b" (budget_at 0 (mkBudget "b" 1 0)).2).
    eexists (ConsumeCommand c), (ConsumeCommand (ConsumeBudgetCommand.set_failed true c)), _. split; [done|]. split; [by exists true|]. split; [done|]. split; [done|].
    apply (read_failed_indices_serialized [1]). by repeat constructor.
Qed.
End reports.
