(* ===== verification/FrontEndService.v ===== *)
(** * The front end

    Models [cc/pbs/front_end_service/src/front_end_service.{h,cc}] and
    [transaction_request_router.cc]: the handlers of the requests and the
    callbacks of what they start. A handler makes events (counts, a request to
    the transaction manager, the answer to the client), and it returns a result;
    the server answers the client itself when that is a failure. The answers of
    the transaction manager are inputs. [None] is undefined behaviour. *)

From S2P Require Import Prelude Text ExecutionResult ErrorCodes Uuid TransactionPhases TransactionLog.
From S2P Require Import SpannerConsumeBudget ConsumeBudgetCommand TransactionCommandSerializer.
From S2P Require Import FrontEndUtils FrontEndCommands.
From stdpp Require Import options.

Local Open Scope Z_scope.

(** ** Requests and events *)

(** [auth_context.authorized_domain] is what the server's authorization gave. *)
Record HttpRequest := mkHttpRequest {
  request_headers : option HttpHeaders;
  authorized_domain : string;
  request_body : list Z;
}.

Record HttpResponse := mkHttpResponse {
  response_headers : HttpHeaders;
  response_body : list Z;
}.

Definition kMetricLabelBeginTransaction : string := "BEGIN".
Definition kMetricLabelPrepareTransaction : string := "PREPARE".
Definition kMetricLabelCommitTransaction : string := "COMMIT".
Definition kMetricLabelNotifyTransaction : string := "NOTIFY".
Definition kMetricLabelAbortTransaction : string := "ABORT".
Definition kMetricLabelEndTransaction : string := "END".
Definition kMetricLabelGetStatusTransaction : string := "GET_STATUS".

(** [kMetricNameRequests], [kMetricNameClientErrors],
    [kMetricNameServerErrors]. *)
Inductive MetricName := Requests | ClientErrors | ServerErrors.

#[export] Instance MetricName_eq_dec : EqDecision MetricName.
Proof. solve_decision. Defined.

(** The aggregate metric of a method, the counter of a name, what is routed to
    the transaction manager or, by the second version, given to the budget
    consumption helper, and the end of the HTTP context. *)
Inductive Event :=
| Increment (method : string) (name : MetricName) (reporting_origin : string)
| CounterAdd (name : MetricName) (method : string) (reporting_origin : string)
| RouteTransaction (rq : TransactionRequest TransactionCommand)
| RoutePhase (rq : TransactionPhaseRequest)
| RouteStatus (rq : GetTransactionStatusRequest)
| ConsumeBudgets (budgets : list ConsumeBudgetMetadata)
| Finish (result : ExecutionResult) (response : HttpResponse).

(** [TransactionRequestRouter]: the transaction manager's answers, and its count
    of pending transactions. *)
Record TransactionRequestRouter := mkRouter {
  Execute : TransactionRequest TransactionCommand → ExecutionResult;
  ExecutePhase : TransactionPhaseRequest → ExecutionResult;
  GetStatus : GetTransactionStatusRequest → ExecutionResult;
  GetTransactionManagerStatus : ExecutionResult * Z;
}.

(** What [Init] reads from the configuration. *)
Record FrontEndService := mkFrontEnd {
  generate_batch_budget_consume_commands_per_day_ : bool;
  remote_coordinator_claimed_identity_ : string;
}.

(** [FrontEndService::Init], the part that reads the configuration: [None] is a
    value that is not there. Batching is off then; the identity is needed. *)
Definition Init (enable_batching : option bool) (claimed_identity : option string) : option FrontEndService :=
  mkFrontEnd (default false enable_batching) <$> claimed_identity.

(** ** Handlers *)

(** The events, and a result to return or a value to go on with. *)
Definition Handler (A : Type) : Type := option (list Event * (ExecutionResult + A)).

#[export] Instance Handler_ret : MRet Handler := λ A a, Some ([], inr a).
#[export] Instance Handler_bind : MBind Handler := λ A B f h,
  match h with
  | None => None
  | Some (events, inl r) => Some (events, inl r)
  | Some (events, inr a) =>
      match f a with
      | None => None
      | Some (more, x) => Some (events ++ more, x)
      end
  end.

Definition emit (events : list Event) : Handler unit := Some (events, inr tt).
Definition return_result {A} (r : ExecutionResult) : Handler A := Some ([], inl r).
Definition undefined {A} : Handler A := None.

(** Both counts of a method. *)
Definition count_both (name : MetricName) (method label : string) : list Event :=
  [Increment method name label; CounterAdd name method label].

(** An error of the client. *)
Definition client_error {A} (method label : string) (r : ExecutionResult) : Handler A :=
  _ ← emit (count_both ClientErrors method label);
  return_result r.

(** A check that must succeed. *)
Definition or_client_error {A} (method label : string) (x : ExecutionResult * A) : Handler A :=
  let '(r, a) := x in
  if negb (Successful r) then client_error method label r else mret a.

Definition ObtainTransactionOrigin (headers : HttpHeaders) (request : HttpRequest) : string :=
  let '(r, transaction_origin_in_header) := ExtractTransactionOrigin headers in
  if Successful r && negb (bool_decide (transaction_origin_in_header = EmptyString)) then transaction_origin_in_header
  else authorized_domain request.

Definition kTransactionTimeoutMs : Z := 120 * 1000.

(** [GetSteadyTimestampInNanoseconds() + milliseconds(kTransactionTimeoutMs)]. *)
Definition timeout_from (steady_now : Z) : Z := steady_now + kTransactionTimeoutMs * 1000000.

Section front_end.
  Context `{!JsonLibrary} `{!TimestampLibrary} `{!PublicSuffixLibrary}.
  Context (svc : FrontEndService) (router : TransactionRequestRouter).

Definition label_of (request : HttpRequest) : string :=
  GetReportingOriginMetricLabel (request_headers request) (remote_coordinator_claimed_identity_ svc).

(** What a handler starts with: it counts the request and reads the id of its
    transaction. Headers that are a null pointer are read. *)
Definition start (method : string) (request : HttpRequest) : Handler (HttpHeaders * Uuid) :=
  let label := label_of request in
  _ ← emit [Increment method Requests label];
  match request_headers request with
  | None => undefined
  | Some headers =>
      let extracted := ExtractTransactionId headers kZeroUuid in
      _ ← emit [CounterAdd Requests method label];
      transaction_id ← or_client_error method label extracted;
      mret (headers, transaction_id)
  end.

(** A request to the transaction manager that must be taken. *)
Definition route (method label : string) (event : Event) (execution_result : ExecutionResult) : Handler unit :=
  _ ← emit [event];
  or_client_error method label (execution_result, tt).

Definition parse_body (label : string) (request : HttpRequest) (transaction_origin : string)
  : Handler (list ConsumeBudgetMetadata) :=
  match ParseBeginTransactionRequestBody (authorized_domain request) transaction_origin (request_body request) with
  | Parsed budgets => mret budgets
  | Refused r => client_error kMetricLabelBeginTransaction label r
  | Thrown | Undef => undefined
  end.

(** [disallow]: the configuration's [kDisallowNewTransactionRequests], when it
    is there. *)
Definition BeginTransaction (disallow : option bool) (steady_now : Z) (request : HttpRequest) : Handler unit :=
  if default false disallow then
    return_result (FailureExecutionResult SC_PBS_FRONT_END_SERVICE_BEGIN_TRANSACTION_DISALLOWED)
  else
    let label := label_of request in
    '(headers, transaction_id) ← start kMetricLabelBeginTransaction request;
    transaction_secret ← or_client_error kMetricLabelBeginTransaction label (ExtractTransactionSecret headers);
    let transaction_origin := ObtainTransactionOrigin headers request in
    budgets ← parse_body label request transaction_origin;
    match budgets with
    | [] => client_error kMetricLabelBeginTransaction label
              (FailureExecutionResult SC_PBS_FRONT_END_SERVICE_NO_KEYS_AVAILABLE)
    | _ =>
        let commands :=
          if generate_batch_budget_consume_commands_per_day_ svc
          then GenerateConsumeBudgetCommandsWithBatchesPerDay budgets transaction_id
          else GenerateConsumeBudgetCommands budgets transaction_id in
        let rq := mkTransactionRequest transaction_id commands (timeout_from steady_now) true
                    (Some transaction_secret) (Some transaction_origin) false in
        route kMetricLabelBeginTransaction label (RouteTransaction rq) (Execute router rq)
    end.

Definition ExecuteTransactionPhase (transaction_id : Uuid) (transaction_secret transaction_origin : option string)
    (last_transaction_execution_timestamp : Z) (phase : TransactionExecutionPhase) : Event * ExecutionResult :=
  let rq := mkPhaseRequest transaction_id phase transaction_secret transaction_origin last_transaction_execution_timestamp in
  (RoutePhase rq, ExecutePhase router rq).

(** The five handlers of phases are one but for the phase and its label. *)
Definition phase_transaction (method : string) (phase : TransactionExecutionPhase) (request : HttpRequest)
  : Handler unit :=
  let label := label_of request in
  '(headers, transaction_id) ← start method request;
  transaction_secret ← or_client_error method label (ExtractTransactionSecret headers);
  let transaction_origin := ObtainTransactionOrigin headers request in
  last_execution_timestamp ← or_client_error method label (ExtractLastExecutionTimestamp headers);
  let '(event, r) := ExecuteTransactionPhase transaction_id (Some transaction_secret) (Some transaction_origin)
                       last_execution_timestamp phase in
  route method label event r.

Definition PrepareTransaction : HttpRequest → Handler unit :=
  phase_transaction kMetricLabelPrepareTransaction TransactionExecutionPhase.Prepare.
Definition CommitTransaction : HttpRequest → Handler unit :=
  phase_transaction kMetricLabelCommitTransaction TransactionExecutionPhase.Commit.
Definition NotifyTransaction : HttpRequest → Handler unit :=
  phase_transaction kMetricLabelNotifyTransaction TransactionExecutionPhase.Notify.
Definition AbortTransaction : HttpRequest → Handler unit :=
  phase_transaction kMetricLabelAbortTransaction TransactionExecutionPhase.Abort.
Definition EndTransaction : HttpRequest → Handler unit :=
  phase_transaction kMetricLabelEndTransaction TransactionExecutionPhase.End.

Definition GetTransactionStatus (request : HttpRequest) : Handler unit :=
  let label := label_of request in
  '(headers, transaction_id) ← start kMetricLabelGetStatusTransaction request;
  transaction_secret ← or_client_error kMetricLabelGetStatusTransaction label (ExtractTransactionSecret headers);
  let rq := mkStatusRequest transaction_id (Some transaction_secret) (Some (ObtainTransactionOrigin headers request)) in
  route kMetricLabelGetStatusTransaction label (RouteStatus rq) (GetStatus router rq).

Definition GetServiceStatus (response : HttpResponse) : Handler unit :=
  let '(r, pending_transactions_count) := GetTransactionManagerStatus router in
  if negb (Successful r) then return_result r
  else emit [Finish SuccessExecutionResult
               (mkHttpResponse (response_headers response) (SerializePendingTransactionCount pending_transactions_count))].

(** ** Callbacks *)

(** The events and the response the HTTP context holds afterwards, which the
    copies of the context share. *)
Definition Called : Type := option (list Event * HttpResponse).

Definition insert_header (name value : string) (response : HttpResponse) : HttpResponse :=
  mkHttpResponse (response_headers response ++ [(name, value)]) (response_body response).

Definition set_body (body : list Z) (response : HttpResponse) : HttpResponse :=
  mkHttpResponse (response_headers response) body.

(** The failed commands in the body; a failure to write them is only logged. *)
Definition report_failed_commands (r : ExecutionResult) (failed : option (list nat * list TransactionCommand))
    (response : HttpResponse) : option HttpResponse :=
  match status r, failed with
  | Failure, Some (failed_commands_indices, failed_commands) =>
      '(local_execution_result, body) ← SerializeFailedCommands failed_commands_indices failed_commands;
      Some (if Successful local_execution_result then set_body body response else response)
  | _, _ => Some response
  end.

Definition OnTransactionCallback (request : HttpRequest) (response : HttpResponse)
    (rq : TransactionRequest TransactionCommand) (r : ExecutionResult)
    (transaction_response : option (TransactionResponse TransactionCommand)) : Called :=
  let label := label_of request in
  let server_error := count_both ServerErrors kMetricLabelBeginTransaction label in
  if negb (Successful r) then
    response ← report_failed_commands r
      ((λ t, (response_failed_commands_indices t, response_failed_commands t)) <$> transaction_response) response;
    Some (Finish r response :: server_error, response)
  else
    t ← transaction_response;
    let response := insert_header kTransactionIdHeader (Uuid.ToString (response_transaction_id t)) response in
    let '(event, execution_result) :=
      ExecuteTransactionPhase (request_transaction_id rq) (request_transaction_secret rq) (request_transaction_origin rq)
        (response_last_execution_timestamp t) TransactionExecutionPhase.Begin in
    Some (event :: (if Successful execution_result then [] else Finish execution_result response :: server_error),
          response).

(** [method]: the label of the metric the phase was started with. *)
Definition OnExecuteTransactionPhaseCallback (method : string) (request : HttpRequest) (response : HttpResponse)
    (r : ExecutionResult) (phase_response : option (TransactionPhaseResponse TransactionCommand)) : Called :=
  let counts := if negb (Successful r) then count_both ServerErrors method (label_of request) else [] in
  response ←
    if Successful r then
      t ← phase_response;
      Some (insert_header kTransactionLastExecutionTimestampHeader
              (Text.to_string (phase_response_last_execution_timestamp t)) response)
    else report_failed_commands r
           ((λ t, (phase_failed_commands_indices t, phase_failed_commands t)) <$> phase_response) response;
  Some (counts ++ [Finish r response], response).

Definition OnGetTransactionStatusCallback (request : HttpRequest) (response : HttpResponse) (r : ExecutionResult)
    (status_response : option GetTransactionStatusResponse) : Called :=
  if negb (Successful r) then
    Some (Finish r response :: count_both ServerErrors kMetricLabelGetStatusTransaction (label_of request), response)
  else
    t ← status_response;
    let response := set_body (SerializeGetTransactionStatus t) response in
    Some ([Finish r response], response).

(** ** Transactions of the service itself *)

(** [ExecuteConsumeBudgetTransaction]: the result and the request that is
    routed; no budget has an index. *)
Definition ExecuteConsumeBudgetTransaction (transaction_id : Uuid) (steady_now : Z)
    (budget_keys : list ConsumeBudgetMetadata) : ExecutionResult * option (TransactionRequest TransactionCommand) :=
  match budget_keys with
  | [] => (FailureExecutionResult SC_PBS_FRONT_END_SERVICE_INVALID_REQUEST, None)
  | _ =>
      let commands := (λ b, ConstructCommand transaction_id (budget_key_name b)
                              (mkRequestInfo (time_bucket b) (token_count b) None)) <$> budget_keys in
      let rq := mkTransactionRequest transaction_id commands (timeout_from steady_now) false None None false in
      (Execute router rq, Some rq)
  end.

(** The callback: the result is passed on. *)
Definition OnExecuteConsumeBudgetTransactionCallback (r : ExecutionResult) : ExecutionResult := r.

End front_end.
