(* ===== verification/FrontEndRun.v ===== *)
(** * Requests of the front end, from the handler to the answer

    A request's handler and the callbacks of what it starts, with any answers of
    the transaction manager: the client is answered once and the request is
    counted once. *)

From S2P Require Import Prelude Text ExecutionResult ErrorCodes Uuid TimeframeUtils TransactionPhases TransactionLog.
From S2P Require Import SpannerConsumeBudget ConsumeBudgetCommand TransactionCommandSerializer.
From S2P Require Import FrontEndUtils FrontEndCommands FrontEndService.
From stdpp Require Import options.

Local Open Scope Z_scope.

Section run.
  Context `{!JsonLibrary} `{!JsonNumberLaws} `{!TimestampLibrary} `{!PublicSuffixLibrary}.
  Context (svc : FrontEndService) (router : TransactionRequestRouter).
  #[local] Set Default Proof Using "Type*".

(** The resources that are counted, as [Init] registers them. *)
Inductive Endpoint := BeginEndpoint | PrepareEndpoint | CommitEndpoint | NotifyEndpoint | AbortEndpoint | EndEndpoint
  | StatusEndpoint.

Definition method_of (e : Endpoint) : string :=
  match e with
  | BeginEndpoint => kMetricLabelBeginTransaction
  | PrepareEndpoint => kMetricLabelPrepareTransaction
  | CommitEndpoint => kMetricLabelCommitTransaction
  | NotifyEndpoint => kMetricLabelNotifyTransaction
  | AbortEndpoint => kMetricLabelAbortTransaction
  | EndEndpoint => kMetricLabelEndTransaction
  | StatusEndpoint => kMetricLabelGetStatusTransaction
  end.

(** [disallow] is what the configuration gives for [kDisallowNewTransactionRequests]. *)
Definition handle (disallow : option bool) (steady_now : Z) (e : Endpoint) : HttpRequest → Handler unit :=
  match e with
  | BeginEndpoint => BeginTransaction svc router disallow steady_now
  | PrepareEndpoint => PrepareTransaction svc router
  | CommitEndpoint => CommitTransaction svc router
  | NotifyEndpoint => NotifyTransaction svc router
  | AbortEndpoint => AbortTransaction svc router
  | EndEndpoint => EndTransaction svc router
  | StatusEndpoint => GetTransactionStatus svc router
  end.

(** The transaction manager's results for what it has taken. *)
Record Answers := mkAnswers {
  transaction_answer : ExecutionResult * option (TransactionResponse TransactionCommand);
  phase_answer : ExecutionResult * option (TransactionPhaseResponse TransactionCommand);
  status_answer : ExecutionResult * option GetTransactionStatusResponse;
}.

(** A success has a response, and the failed commands are ones of the front end,
    with their flags set. *)
Definition flags_set (c : TransactionCommand) : Prop :=
  match c with ConsumeCommand c => is_Some (failed_with_insufficient_budget_consumption_ c) | _ => True end.
Definition answers_ok (a : Answers) : Prop :=
  (Successful (transaction_answer a).1 = true → is_Some (transaction_answer a).2) ∧
  (Successful (phase_answer a).1 = true → is_Some (phase_answer a).2) ∧
  (Successful (status_answer a).1 = true → is_Some (status_answer a).2) ∧
  (∀ t, (transaction_answer a).2 = Some t → Forall flags_set (response_failed_commands t)) ∧
  (∀ t, (phase_answer a).2 = Some t → Forall flags_set (phase_failed_commands t)).

(** The callback of the last event, when that is a request that was taken. *)
Definition called_back (a : Answers) (e : Endpoint) (request : HttpRequest) (response : HttpResponse) (event : Event)
  : Called :=
  match event with
  | RouteTransaction rq =>
      OnTransactionCallback svc router request response rq (transaction_answer a).1 (transaction_answer a).2
  | RoutePhase _ =>
      OnExecuteTransactionPhaseCallback svc (method_of e) request response (phase_answer a).1 (phase_answer a).2
  | RouteStatus _ =>
      OnGetTransactionStatusCallback svc request response (status_answer a).1 (status_answer a).2
  | _ => Some ([], response)
  end.

(** Runs callbacks, [n] at most. *)
Fixpoint callbacks (n : nat) (a : Answers) (e : Endpoint) (request : HttpRequest) (response : HttpResponse)
    (events : list Event) : option (list Event) :=
  match n, last events with
  | S n, Some event =>
      '(more, response) ← called_back a e request response event;
      more ← match more with [] => Some [] | _ => callbacks n a e request response more end;
      Some (events ++ more)
  | _, _ => Some events
  end.

Definition run (disallow : option bool) (steady_now : Z) (a : Answers) (e : Endpoint) (request : HttpRequest)
  : option (list Event * ExecutionResult) :=
  match handle disallow steady_now e request with
  | None => None
  | Some (events, inl r) => Some (events, r)
  | Some (events, inr _) =>
      events ← callbacks 3 a e request (mkHttpResponse [] []) events;
      Some (events, SuccessExecutionResult)
  end.

(** ** Counts *)

Definition is_increment (name : MetricName) (e : Event) : bool :=
  match e with Increment _ name' _ => bool_decide (name' = name) | _ => false end.
Definition is_counter_add (name : MetricName) (e : Event) : bool :=
  match e with CounterAdd name' _ _ => bool_decide (name' = name) | _ => false end.
Definition counted (name : MetricName) (n : nat) (events : list Event) : Prop :=
  length (List.filter (is_increment name) events) = n ∧ length (List.filter (is_counter_add name) events) = n.
Definition finishes (events : list Event) : list ExecutionResult :=
  omap (λ e, match e with Finish r _ => Some r | _ => None end) events.

Definition is_route (e : Event) : Prop :=
  match e with RouteTransaction _ | RoutePhase _ | RouteStatus _ => True | _ => False end.

(** ** What handlers do *)

(** A handler after its first two counts: refused with a failure, and one more
    count of each kind, or one request to the transaction manager, which took
    it. *)
Definition handled (method label : string) (x : list Event * (ExecutionResult + unit)) : Prop :=
  match x.2 with
  | inl r => Successful r = false ∧ ∃ routed, Forall is_route routed ∧ x.1 = routed ++ count_both ClientErrors method label
  | inr _ => ∃ e, is_route e ∧ x.1 = [e]
  end.

(** Nothing is undefined, and what follows is handled. *)
Definition handles (method label : string) (h : Handler unit) : Prop := ∃ x, h = Some x ∧ handled method label x.

Lemma handles_client_error method label r : Successful r = false → handles method label (client_error method label r).
Proof. intros Hr. eexists. split; [done|]. split; [done|]. by exists []. Qed.

Lemma handles_refused {A} method label r (f : A → Handler unit) :
  Successful r = false → handles method label (client_error method label r ≫= f).
Proof. apply handles_client_error. Qed.

Lemma handles_or {A} method label (x : ExecutionResult * A) f :
  (∀ a, handles method label (f a)) → handles method label (or_client_error method label x ≫= f).
Proof.
  intros Hf. destruct x as [r a]. unfold or_client_error. destruct (Successful r) eqn:Hr; cbn [negb].
  - destruct (Hf a) as ([events y] & Ha & Hy). cbn. rewrite Ha. by exists (events, y).
  - destruct (handles_client_error method label r Hr) as (x & Hx & Hh). cbn in Hx |- *. by exists x.
Qed.

Lemma handles_ret {A} method label (a : A) f : handles method label (f a) → handles method label (mret a ≫= f).
Proof. intros ([events y] & Ha & Hy). exists (events, y). split; [|done]. cbn. by rewrite Ha. Qed.

Lemma handles_route method label event r : is_route event → handles method label (route method label event r).
Proof.
  intros He. unfold route, or_client_error. destruct (Successful r) eqn:Hr; cbn [negb]; cbn.
  - eexists. split; [done|]. by exists event.
  - eexists. split; [done|]. split; [done|]. exists [event]. split; [by constructor|done].
Qed.

Lemma handles_started method request headers f : request_headers request = Some headers →
  (∀ transaction_id, handles method (label_of svc request) (f (headers, transaction_id))) →
  ∃ x, start svc method request ≫= f = Some (count_both Requests method (label_of svc request) ++ x.1, x.2) ∧
    handled method (label_of svc request) x.
Proof.
  intros Hh Hf. unfold start. rewrite Hh.
  destruct (handles_or method (label_of svc request) (ExtractTransactionId headers kZeroUuid) (λ id, f (headers, id)) Hf)
    as ([events y] & Hx & Hy). exists (events, y). split; [|done].
  destruct (or_client_error _ _ _) as [[events1 [r|id]]|] eqn:Ho; [| |done]; cbn in Hx |- *.
  - by injection Hx as <- <-.
  - destruct (f (headers, id)) as [[events2 z]|]; [|done]. cbn. injection Hx as <- <-. by rewrite app_nil_r.
Qed.

Lemma handles_phase method phase request headers : request_headers request = Some headers →
  ∃ x, phase_transaction svc router method phase request
      = Some (count_both Requests method (label_of svc request) ++ x.1, x.2) ∧
    handled method (label_of svc request) x.
Proof.
  intros Hh. apply (handles_started _ _ headers); [done|]. intros transaction_id.
  apply handles_or. intros secret. apply handles_or. intros timestamp. by apply handles_route.
Qed.

(** The body of a request that begins a transaction names no time whose
    nanoseconds overflow. *)
Definition body_ok (headers : HttpHeaders) (request : HttpRequest) : Prop :=
  ParseBeginTransactionRequestBody (authorized_domain request) (ObtainTransactionOrigin headers request)
    (request_body request) ≠ Undef.

(** New transactions are turned away. *)
Definition turned_away (disallow : option bool) (e : Endpoint) : bool :=
  match e with BeginEndpoint => default false disallow | _ => false end.

Lemma handle_spec disallow now e request headers : request_headers request = Some headers →
  turned_away disallow e = false → (e = BeginEndpoint → body_ok headers request) →
  ∃ x, handle disallow now e request = Some (count_both Requests (method_of e) (label_of svc request) ++ x.1, x.2) ∧
    handled (method_of e) (label_of svc request) x.
Proof.
  intros Hh Haway Hbody. destruct e; try by apply (handles_phase _ _ _ headers).
  - unfold handle, BeginTransaction. simpl in Haway. rewrite Haway. apply (handles_started _ _ headers); [done|]. intros transaction_id. apply handles_or. intros secret.
    specialize (Hbody eq_refl). unfold body_ok in Hbody. unfold parse_body.
    pose proof (parsed_hours (authorized_domain request) (ObtainTransactionOrigin headers request) (request_body request))
      as Hspec.
    destruct (ParseBeginTransactionRequestBody _ _ _) as [budgets|r| |]; [|by apply handles_refused|done|done].
    apply handles_ret.
    destruct budgets; [by apply handles_client_error|by apply handles_route].
  - apply (handles_started _ _ headers); [done|]. intros transaction_id. apply handles_or. intros secret.
    by apply handles_route.
Qed.

(** ** What callbacks do *)

Lemma populate_indices_total commands indices : Forall flags_set commands → is_Some (populate_indices commands indices).
Proof.
  intros Hs. revert indices. induction Hs as [|c commands Hc _ IH]; intros indices; [by eexists|].
  destruct c as [c|c|id]; cbn [populate_indices]; [|apply IH|by eexists]. destruct Hc as [failed Hc].
  unfold PopulateInsufficientBudgetsFromNonBatchCommand, ConsumeBudgetCommand.GetFailedInsufficientBudgetConsumption.
  rewrite Hc. cbn. apply IH.
Qed.

Lemma report_total r failed response : (∀ js cs, failed = Some (js, cs) → Forall flags_set cs) →
  is_Some (report_failed_commands r failed response).
Proof.
  intros Hf. unfold report_failed_commands. destruct (status r); try by eexists. destruct failed as [[js cs]|]; [|by eexists].
  unfold SerializeFailedCommands. destruct (HasBatchCommand cs); cbn [negb]; [|cbn; by eexists].
  destruct (length js =? length cs)%nat; cbn [negb]; [|by eexists].
  destruct (populate_indices_total cs [] (Hf js cs eq_refl)) as [[r'|indices] ->]; by eexists.
Qed.

(** Events that answer the client once, with what is counted, the last of which
    is not a request to the transaction manager. *)
Definition answers_once (events : list Event) : Prop :=
  (∀ event, last events = Some event → ¬ is_route event) ∧
  ∃ told, finishes events = [told] ∧ counted Requests 0 events ∧ counted ClientErrors 0 events ∧
    counted ServerErrors (if Successful told then 0%nat else 1%nat) events.

Lemma callbacks_closed n a e request response events :
  (∀ event, last events = Some event → ¬ is_route event) → callbacks n a e request response events = Some events.
Proof.
  intros Hl. destruct n as [|n]; [done|]. cbn [callbacks]. destruct (last events) as [event|]; [|done].
  specialize (Hl event eq_refl). destruct event; try done; cbn; by rewrite app_nil_r.
Qed.

Lemma phase_callback a e request response rq : answers_ok a →
  ∃ more response', called_back a e request response (RoutePhase rq) = Some (more, response') ∧ answers_once more.
Proof.
  intros (_ & Hsome & _ & _ & Hflags). cbn [called_back]. unfold OnExecuteTransactionPhaseCallback.
  destruct (phase_answer a) as [r [t|]]; cbn in Hsome, Hflags |- *; destruct (Successful r) eqn:Hr; cbn [negb app].
  - eexists _, _. split; [done|]. split; [by intros ? [= <-] []|]. exists r. by rewrite Hr.
  - destruct (report_total r (Some (phase_failed_commands_indices t, phase_failed_commands t)) response) as [response' ->].
    { intros js cs [= <- <-]. by apply Hflags. }
    eexists _, _. split; [done|]. split; [by intros ? [= <-] []|]. exists r. by rewrite Hr.
  - by destruct (Hsome eq_refl).
  - destruct (report_total r None response) as [response' ->]; [done|].
    eexists _, _. split; [done|]. split; [by intros ? [= <-] []|]. exists r. by rewrite Hr.
Qed.

Lemma status_callback a e request response rq : answers_ok a →
  ∃ more response', called_back a e request response (RouteStatus rq) = Some (more, response') ∧ answers_once more.
Proof.
  intros (_ & _ & Hsome & _). cbn [called_back]. unfold OnGetTransactionStatusCallback.
  destruct (status_answer a) as [r [t|]]; cbn in Hsome |- *; destruct (Successful r) eqn:Hr; cbn [negb].
  - eexists _, _. split; [done|]. split; [by intros ? [= <-] []|]. exists r. by rewrite Hr.
  - eexists _, _. split; [done|]. split; [by intros ? [= <-] []|]. exists r. by rewrite Hr.
  - by destruct (Hsome eq_refl).
  - eexists _, _. split; [done|]. split; [by intros ? [= <-] []|]. exists r. by rewrite Hr.
Qed.

Lemma transaction_callback a e request response rq : answers_ok a →
  ∃ more response', called_back a e request response (RouteTransaction rq) = Some (more, response') ∧
    (answers_once more ∨ ∃ rq', more = [RoutePhase rq']).
Proof.
  intros (Hsome & _ & _ & Hflags & _). cbn [called_back]. unfold OnTransactionCallback.
  destruct (transaction_answer a) as [r [t|]]; cbn in Hsome, Hflags |- *; destruct (Successful r) eqn:Hr; cbn [negb].
  - eexists _, _. split; [done|]. destruct (Successful (ExecutePhase router _)) eqn:Hp; [right; by eexists|left].
    split; [by intros ? [= <-] []|]. eexists. by rewrite Hp.
  - destruct (report_total r (Some (response_failed_commands_indices t, response_failed_commands t)) response)
      as [response' ->]; [intros js cs [= <- <-]; by apply Hflags|].
    eexists _, _. split; [done|]. left. split; [by intros ? [= <-] []|]. exists r. by rewrite Hr.
  - by destruct (Hsome eq_refl).
  - destruct (report_total r None response) as [response' ->]; [done|].
    eexists _, _. split; [done|]. left. split; [by intros ? [= <-] []|]. exists r. by rewrite Hr.
Qed.

Lemma callbacks_more n a e request response event more response' :
  called_back a e request response event = Some (more, response') → answers_once more →
  callbacks (S n) a e request response [event] = Some (event :: more).
Proof.
  intros Hc Hm. cbn [callbacks last]. rewrite Hc. cbn [mbind option_bind].
  destruct more as [|e' more]; [by destruct Hm as (_ & r & ? & _)|].
  by rewrite callbacks_closed by apply Hm.
Qed.

Lemma callbacks_prefix n a e request response pre event :
  callbacks n a e request response (pre ++ [event]) = (pre ++.) <$> callbacks n a e request response [event].
Proof.
  destruct n as [|n]; cbn [callbacks]; [done|]. rewrite last_snoc. cbn [last].
  destruct (called_back a e request response event) as [[more response']|]; [|done]. cbn [mbind option_bind].
  destruct (match more with [] => Some [] | _ :: _ => _ end) as [more'|]; [|done]. cbn. by rewrite <- app_assoc.
Qed.

(** The callbacks of a request that was taken answer the client once. *)
Lemma callbacks_answer a e request response event : answers_ok a → is_route event →
  ∃ routed more, callbacks 3 a e request response [event] = Some (routed ++ more) ∧
    Forall is_route routed ∧ answers_once more.
Proof.
  intros Ha He. destruct event as [| |rq|rq|rq| |]; try done.
  - destruct (transaction_callback a e request response rq Ha) as (more & response' & Hc & [Hm|[rq' ->]]).
    + exists [RouteTransaction rq], more. split; [by eapply callbacks_more|]. split; [by constructor|done].
    + destruct (phase_callback a e request response' rq' Ha) as (more & response'' & Hc' & Hm).
      exists [RouteTransaction rq; RoutePhase rq'], more. split; [|split; [by repeat constructor|done]].
      change (callbacks 3 ?a ?e ?rq ?rs [?ev]) with
        ('(more, response) ← called_back a e rq rs ev;
         more ← match more with [] => Some [] | _ => callbacks 2 a e rq response more end; Some ([ev] ++ more)).
      rewrite Hc. cbn [mbind option_bind]. rewrite (callbacks_more 1 _ _ _ _ _ _ _ Hc' Hm). done.
  - destruct (phase_callback a e request response rq Ha) as (more & response' & Hc & Hm).
    exists [RoutePhase rq], more. split; [by eapply callbacks_more|]. split; [by constructor|done].
  - destruct (status_callback a e request response rq Ha) as (more & response' & Hc & Hm).
    exists [RouteStatus rq], more. split; [by eapply callbacks_more|]. split; [by constructor|done].
Qed.

Lemma counted_app name m n events events' : counted name m events → counted name n events' →
  counted name (m + n) (events ++ events').
Proof. intros [Ha Hb] [Hc Hd]. unfold counted. rewrite !List.filter_app, !length_app. lia. Qed.

Lemma finishes_app events events' : finishes (events ++ events') = finishes events ++ finishes events'.
Proof. apply omap_app. Qed.

Lemma counted_routed name routed : Forall is_route routed → counted name 0 routed ∧ finishes routed = [].
Proof.
  induction 1 as [|event routed He _ [[IH1 IH2] IH3]]; [done|].
  destruct event; try done; split; try split; done.
Qed.

Lemma counted_both name name' method label :
  counted name (if decide (name = name') then 1 else 0) (count_both name' method label) ∧
  finishes (count_both name' method label) = [].
Proof. by destruct name, name'. Qed.

(** C28: a request to begin a transaction is answered as disallowed, and counted
    nowhere, when the configuration turns new transactions away. Every other
    request to one of the seven resources of transactions, with headers, is
    counted once, as are its error when it is one of the client's, and that of
    the service. Either the handler refuses it with a failure, the
    server answers, and one client error is counted; or it does not, and the
    callbacks that follow answer the client exactly once, with a server error
    counted exactly when the answer is not a success. Nothing is undefined when
    the transaction manager gives a response with a success, and the times of a
    body fit. *)
Theorem answered_once disallow now a e request headers :
  request_headers request = Some headers → (e = BeginEndpoint → body_ok headers request) → answers_ok a →
  if turned_away disallow e then
    run disallow now a e request
    = Some ([], FailureExecutionResult SC_PBS_FRONT_END_SERVICE_BEGIN_TRANSACTION_DISALLOWED)
  else
    ∃ events r, run disallow now a e request = Some (events, r) ∧ counted Requests 1 events ∧
      if Successful r then
        ∃ told, finishes events = [told] ∧ counted ClientErrors 0 events ∧
          counted ServerErrors (if Successful told then 0%nat else 1%nat) events
      else finishes events = [] ∧ counted ClientErrors 1 events ∧ counted ServerErrors 0 events.
Proof.
  intros Hh Hb Hok. unfold run. destruct (turned_away disallow e) eqn:Haway.
  { destruct e; try done. unfold handle, BeginTransaction. simpl in Haway. by rewrite Haway. }
  destruct (handle_spec disallow now e request headers Hh Haway Hb) as ([events x] & -> & Hx).
  set (label := label_of svc request) in *. set (method := method_of e) in *. cbn [fst snd] in *.
  pose proof (λ name, counted_both name Requests method label) as Hreq.
  destruct x as [r|[]]; unfold handled in Hx; cbn [fst snd] in Hx.
  - destruct Hx as (Hr & routed & Hrouted & ->). eexists _, r. split; [done|]. rewrite Hr.
    pose proof (λ name, counted_both name ClientErrors method label) as Herr.
    pose proof (λ name, counted_routed name routed Hrouted) as Hnone.
    assert (∀ name, counted name ((if decide (name = Requests) then 1 else 0) + (0 +
      (if decide (name = ClientErrors) then 1 else 0))) (count_both Requests method label ++ routed ++
      count_both ClientErrors method label)) as Hc.
    { intros name. apply counted_app; [apply Hreq|]. apply counted_app; [apply Hnone|apply Herr]. }
    split; [apply (Hc Requests)|]. split; [|split; [apply (Hc ClientErrors)|apply (Hc ServerErrors)]].
    by rewrite !finishes_app, (proj2 (Hreq Requests)), (proj2 (Hnone Requests)), (proj2 (Herr Requests)).
  - destruct Hx as (event & Hroute & ->). rewrite callbacks_prefix.
    destruct (callbacks_answer a e request (mkHttpResponse [] []) event Hok Hroute)
      as (routed & more & -> & Hrouted & _ & told & Hf & Hr & Hc & Hs). cbn [fmap option_fmap option_map mbind option_bind].
    eexists _, SuccessExecutionResult. split; [done|].
    pose proof (λ name, counted_routed name routed Hrouted) as Hnone.
    assert (∀ name n, counted name n more →
      counted name ((if decide (name = Requests) then 1 else 0) + (0 + n)) (count_both Requests method label ++ routed ++ more))
      as Hall.
    { intros name n Hn. apply counted_app; [apply Hreq|]. apply counted_app; [apply Hnone|done]. }
    split; [apply (Hall Requests _ Hr)|]. exists told.
    split; [|split; [apply (Hall ClientErrors _ Hc)|apply (Hall ServerErrors _ Hs)]].
    by rewrite !finishes_app, (proj2 (Hreq Requests)), (proj2 (Hnone Requests)).
Qed.

(** ** The origin of a request *)

Lemma parse_v1_site site site' origin body : body_version body "1.0" →
  ParseBeginTransactionRequestBody site origin body = ParseBeginTransactionRequestBody site' origin body.
Proof. intros (j & v & Hj & Hv & Hver). unfold ParseBeginTransactionRequestBody. by rewrite Hj, Hv, Hver. Qed.

Lemma origin_of_header headers site body origin :
  find_header kTransactionOriginHeader headers = Some origin → origin ≠ EmptyString →
  ObtainTransactionOrigin headers (mkHttpRequest (Some headers) site body) = origin.
Proof.
  intros Ho Hne. unfold ObtainTransactionOrigin, ExtractTransactionOrigin, required_header. rewrite Ho.
  by rewrite bool_decide_false.
Qed.

(** The budgets of the commands a transaction begins with. *)
Lemma begin_routes now request headers events rq :
  request_headers request = Some headers → handle None now BeginEndpoint request = Some (events, inr tt) →
  RouteTransaction rq ∈ events →
  ∃ budgets, ParseBeginTransactionRequestBody (authorized_domain request) (ObtainTransactionOrigin headers request)
      (request_body request) = Parsed budgets ∧
    commands rq ≫= command_budgets ≡ₚ budgets_from 0 budgets.
Proof.
  intros Hh. unfold handle, BeginTransaction, start, parse_body. rewrite Hh. cbn [default].
  unfold or_client_error. destruct (ExtractTransactionId headers kZeroUuid) as [r1 id].
  destruct (Successful r1); cbn [negb]; [|done]. cbn.
  destruct (ExtractTransactionSecret headers) as [r2 secret]. destruct (Successful r2); cbn [negb]; [|done]. cbn.
  pose proof (parsed_hours (authorized_domain request) (ObtainTransactionOrigin headers request) (request_body request)) as Hp.
  destruct (ParseBeginTransactionRequestBody _ _ _) as [budgets|r| |]; try done. cbn.
  destruct budgets as [|b budgets]; [done|]. set (all := b :: budgets) in *. unfold route, or_client_error.
  set (rq0 := mkTransactionRequest _ _ _ _ _ _ _). destruct (Successful (Execute router rq0)); cbn [negb]; [|done].
  intros [= <-] Hin. exists all. split; [done|]. cbn in Hin.
  rewrite !elem_of_cons, elem_of_nil in Hin. destruct Hin as [?|[?|[[= ->]|[]]]]; [done|done|].
  destruct Hp as [Hnd Hb]. assert (Forall (λ b, in_range_time (time_bucket b)) all) as Hr.
  { destruct Hb as [[_ Hb]|(_ & _ & Hb)]; (eapply Forall_impl; [exact Hb|]).
    - intros c (_ & Ht & _). done.
    - intros c (o & _ & _ & _ & Ht & _). done. }
  change (commands rq0) with (if generate_batch_budget_consume_commands_per_day_ svc
    then GenerateConsumeBudgetCommandsWithBatchesPerDay all id else GenerateConsumeBudgetCommands all id).
  destruct (generate_batch_budget_consume_commands_per_day_ svc); [by apply generated_budgets|].
  unfold GenerateConsumeBudgetCommands. by rewrite generate_commands_budgets.
Qed.

(** A request of version 1.0 to begin a transaction, that names an origin in
    its header, is handled alike whatever domain the client is authorized for;
    when it is taken, the transaction consumes budgets of keys of the named
    origin. *)
Theorem origin_header_overrides now headers origin body site site' :
  find_header kTransactionOriginHeader headers = Some origin → origin ≠ EmptyString → body_version body "1.0" →
  handle None now BeginEndpoint (mkHttpRequest (Some headers) site body)
  = handle None now BeginEndpoint (mkHttpRequest (Some headers) site' body) ∧
  ∀ events rq c name info,
    handle None now BeginEndpoint (mkHttpRequest (Some headers) site body) = Some (events, inr tt) →
    RouteTransaction rq ∈ events → c ∈ commands rq → (name, info) ∈ command_budgets c →
    ∃ key, name = (origin +:+ ("/" +:+ key))%string.
Proof.
  intros Ho Hne Hv. split.
  - unfold handle, BeginTransaction, start, parse_body. cbn [request_headers authorized_domain request_body].
    unfold or_client_error. destruct (ExtractTransactionId headers kZeroUuid) as [r1 id].
    destruct (Successful r1); cbn [negb]; [|done]. cbn -[ParseBeginTransactionRequestBody].
    destruct (ExtractTransactionSecret headers) as [r2 secret]. destruct (Successful r2); cbn [negb]; [|done].
    cbn -[ParseBeginTransactionRequestBody ObtainTransactionOrigin].
    rewrite !(origin_of_header _ _ _ origin) by done. by rewrite (parse_v1_site site site').
  - intros events rq c name info Hhandle Hrq Hc Hi.
    destruct (begin_routes now (mkHttpRequest (Some headers) site body) headers events rq eq_refl Hhandle Hrq) as (budgets & Hparse & Hperm).
    cbn [authorized_domain request_body] in Hparse. rewrite (origin_of_header _ _ _ origin) in Hparse by done.
    pose proof (parsed_hours site origin body) as Hp. rewrite Hparse in Hp. destruct Hp as [_ Hp].
    assert ((name, info) ∈ budgets_from 0 budgets) as Hin.
    { rewrite <- Hperm. apply list_elem_of_bind. by exists c. }
    apply budgets_from_elem in Hin as (n & b & Hb & [= -> ->]).
    assert (Forall (origin_budget origin) budgets) as Hall.
    { destruct Hp as [[_ Hp]|((j & v & Hj & Hvv & E2) & _)]; [done|]. destruct Hv as (j' & v' & Hj' & Hv' & E).
      assert (json_get_string v = Some "1.0"%string) as E1.
      { rewrite Hj in Hj'. injection Hj' as <-. rewrite Hvv in Hv'. injection Hv' as <-.
        by apply (bool_decide_unpack _), Is_true_true. }
      unfold is_version in E2. by rewrite E1 in E2. }
    by destruct (Forall_lookup_1 _ _ _ _ Hall Hb) as (_ & _ & ?).
Qed.

End run.
