(* ===== verification/FrontEndServiceV2.v ===== *)
(** * The front end without transactions

    Models [cc/pbs/front_end_service/src/front_end_service_v2.{h,cc}]: the
    version of the front end that consumes the budgets of a request when it is
    prepared, with the budget consumption helper of [SpannerConsumeBudget], and
    answers the other phases at once. The events are those of
    [FrontEndService]. *)

From S2P Require Import Prelude Text ExecutionResult ErrorCodes Uuid TransactionPhases TimeframeUtils.
From S2P Require Import SpannerConsumeBudget FrontEndUtils FrontEndCommands FrontEndService.
From stdpp Require Import options.

Local Open Scope Z_scope.

(** [metrics_instances_map_]: which aggregate metrics there are. *)
Record FrontEndServiceV2 := mkFrontEndV2 {
  metrics_instances_map_ : list (string * list MetricName);
  v2_remote_coordinator_claimed_identity_ : string;
}.

Definition kMetricInitializationMethodNames : list string :=
  [kMetricLabelBeginTransaction; kMetricLabelPrepareTransaction; kMetricLabelCommitTransaction;
   kMetricLabelAbortTransaction; kMetricLabelNotifyTransaction; kMetricLabelEndTransaction;
   kMetricLabelGetStatusTransaction].
Definition kMetricInitializationMetricNames : list MetricName := [Requests; ClientErrors; ServerErrors].

(** [MetricInitializationImplementation::Initialize], whose registrations
    succeed. *)
Definition Initialize : list (string * list MetricName) :=
  (λ method, (method, kMetricInitializationMetricNames)) <$> kMetricInitializationMethodNames.

Definition kFakeLastExecutionTimestamp : string := "1234".

Fixpoint find_method (metric_label : string) (metrics_map : list (string * list MetricName)) : option (list MetricName) :=
  match metrics_map with
  | [] => None
  | (method, names) :: metrics_map =>
      if bool_decide (method = metric_label) then Some names else find_method metric_label metrics_map
  end.

Definition FindAggregateMetricInMap (metrics_map : list (string * list MetricName)) (metric_label : string)
    (metric_name : MetricName) : ExecutionResult :=
  match find_method metric_label metrics_map with
  | None => FailureExecutionResult SC_PBS_FRONT_END_SERVICE_UNABLE_TO_FIND_TRANSACTION_METRICS
  | Some names =>
      if bool_decide (metric_name ∈ names) then SuccessExecutionResult
      else FailureExecutionResult SC_PBS_FRONT_END_SERVICE_UNABLE_TO_FIND_TRANSACTION_METRICS
  end.

(** [ASSIGN_OR_RETURN] of a result. *)
Definition or_return {A} (x : ExecutionResult * A) : Handler A :=
  let '(r, a) := x in if negb (Successful r) then return_result r else mret a.

(** The id is only logged. *)
Definition ExtractBackwardCompatibleHeaders (headers : option HttpHeaders)
    (should_extract_last_execution_timestamp : bool) : ExecutionResult * string :=
  match headers with
  | None => (FailureExecutionResult SC_PBS_FRONT_END_SERVICE_INVALID_REQUEST, EmptyString)
  | Some headers =>
      let '(r, transaction_id) := ExtractTransactionId headers kZeroUuid in
      if negb (Successful r) then (r, EmptyString)
      else
        let '(r, _) := ExtractTransactionSecret headers in
        if negb (Successful r) then (r, EmptyString)
        else
          let '(r, _) :=
            if should_extract_last_execution_timestamp then ExtractLastExecutionTimestamp headers
            else (SuccessExecutionResult, 0) in
          if negb (Successful r) then (r, EmptyString)
          else (SuccessExecutionResult, Uuid.ToString transaction_id)
  end.

(** The headers are made anew. *)
Definition InsertBackwardCompatibleHeaders (response : HttpResponse) : HttpResponse :=
  mkHttpResponse [(kTransactionLastExecutionTimestampHeader, kFakeLastExecutionTimestamp)] (response_body response).

Section front_end_v2.
  Context `{!JsonLibrary} `{!TimestampLibrary} `{!PublicSuffixLibrary}.
  Context (svc : FrontEndServiceV2).

Definition v2_label_of (request : HttpRequest) : string :=
  GetReportingOriginMetricLabel (request_headers request) (v2_remote_coordinator_claimed_identity_ svc).

Definition find_metric (method : string) (name : MetricName) : Handler unit :=
  or_return (FindAggregateMetricInMap (metrics_instances_map_ svc) method name, tt).

(** What the handlers start with; it gives the transaction's id. *)
Definition start_v2 (method : string) (should_extract_last_execution_timestamp : bool) (request : HttpRequest)
  : Handler string :=
  let label := v2_label_of request in
  _ ← find_metric method Requests;
  _ ← emit (count_both Requests method label);
  _ ← find_metric method ClientErrors;
  or_client_error method label
    (ExtractBackwardCompatibleHeaders (request_headers request) should_extract_last_execution_timestamp).

(** The handlers that only check the headers. *)
Definition acknowledge (method : string) (should_extract_last_execution_timestamp : bool) (request : HttpRequest)
    (response : HttpResponse) : Handler unit :=
  _ ← start_v2 method should_extract_last_execution_timestamp request;
  emit [Finish SuccessExecutionResult (InsertBackwardCompatibleHeaders response)].

Definition BeginTransaction : HttpRequest → HttpResponse → Handler unit := acknowledge kMetricLabelBeginTransaction false.
Definition CommitTransaction : HttpRequest → HttpResponse → Handler unit := acknowledge kMetricLabelCommitTransaction true.
Definition NotifyTransaction : HttpRequest → HttpResponse → Handler unit := acknowledge kMetricLabelNotifyTransaction true.
Definition AbortTransaction : HttpRequest → HttpResponse → Handler unit := acknowledge kMetricLabelAbortTransaction true.
Definition EndTransaction : HttpRequest → HttpResponse → Handler unit := acknowledge kMetricLabelEndTransaction true.

Definition GetTransactionStatus : Handler unit :=
  return_result (FailureExecutionResult SC_PBS_FRONT_END_SERVICE_GET_TRANSACTION_STATUS_RETURNS_404_BY_DEFAULT).

(** Unused: it does nothing. *)
Definition ExecuteConsumeBudgetTransaction : ExecutionResult := SuccessExecutionResult.

(** [consume_budgets]: whether the helper's executor takes the task. *)
Definition PrepareTransaction (consume_budgets : list ConsumeBudgetMetadata → ExecutionResult) (request : HttpRequest)
  : Handler unit :=
  let label := v2_label_of request in
  _ ← start_v2 kMetricLabelPrepareTransaction true request;
  match request_headers request with
  | None => undefined (* refused before *)
  | Some headers =>
      match ParseBeginTransactionRequestBody (authorized_domain request) (ObtainTransactionOrigin headers request)
              (request_body request) with
      | Refused r => client_error kMetricLabelPrepareTransaction label r
      | Thrown | Undef => undefined
      | Parsed [] => client_error kMetricLabelPrepareTransaction label
                       (FailureExecutionResult SC_PBS_FRONT_END_SERVICE_NO_KEYS_AVAILABLE)
      | Parsed budgets => route kMetricLabelPrepareTransaction label (ConsumeBudgets budgets) (consume_budgets budgets)
      end
  end.

(** [budget_exhausted_indices]: those of the helper's response. *)
Definition OnConsumeBudgetCallback (request : HttpRequest) (response : HttpResponse) (r : ExecutionResult)
    (budget_exhausted_indices : list Z) : list Event :=
  let server_metric := FindAggregateMetricInMap (metrics_instances_map_ svc) kMetricLabelPrepareTransaction ServerErrors in
  let client_metric := FindAggregateMetricInMap (metrics_instances_map_ svc) kMetricLabelPrepareTransaction ClientErrors in
  let label := v2_label_of request in
  let increment name := Increment kMetricLabelPrepareTransaction name label in
  if negb (Successful server_metric) then [Finish server_metric response]
  else if negb (Successful client_metric) then [Finish client_metric response]
  else if negb (Successful r) then
    let exhausted := status_code r =? SC_CONSUME_BUDGET_EXHAUSTED in
    let response :=
      if exhausted then
        mkHttpResponse (response_headers response) (SerializeTransactionFailedCommandIndicesResponse budget_exhausted_indices)
      else response in
    [increment (if exhausted then ClientErrors else ServerErrors); increment ServerErrors;
     CounterAdd ServerErrors kMetricLabelPrepareTransaction label; Finish r response]
  else [Finish r (InsertBackwardCompatibleHeaders response)].

End front_end_v2.

(** ** Preparing consumes *)

(** The place of a budget in the table. *)
Definition place (b : ConsumeBudgetMetadata) : PbsPrimaryKey * Z := (primary_key b, GetTimeBucket (time_bucket b)).

Lemma place_hour b c : in_range_time (time_bucket b) → in_range_time (time_bucket c) →
  place b = place c → hour_of b = hour_of c.
Proof.
  intros Hb Hc [= Hname Hgroup%to_string_inj Hbucket]. unfold hour_of.
  destruct (group_and_bucket _ Hb) as [_ <-], (group_and_bucket _ Hc) as [_ <-]. by rewrite Hname, Hgroup, Hbucket.
Qed.

Lemma demand_elsewhere (budgets : list ConsumeBudgetMetadata) key h :
  (key, h) ∉ place <$> budgets → demand budgets key h = 0.
Proof.
  induction budgets as [|b budgets IH]; [done|]. rewrite fmap_cons, not_elem_of_cons. intros [Hb Hrest].
  simpl. rewrite IH by done. rewrite decide_False; [done|]. intros [Hk Hh]. apply Hb. unfold place. by rewrite Hk, Hh.
Qed.

(** The demand of budgets of different hours is that of the one of the hour. *)
Lemma demand_distinct (budgets : list ConsumeBudgetMetadata) b :
  Forall (λ b, in_range_time (time_bucket b)) budgets → NoDup (hour_of <$> budgets) → b ∈ budgets →
  demand budgets (primary_key b) (GetTimeBucket (time_bucket b)) = token_count b.
Proof.
  induction 1 as [|c budgets Hc Hr IH]; rewrite ?fmap_cons; intros Hnd Hb; [by apply elem_of_nil in Hb|].
  apply NoDup_cons in Hnd as [Hnotin Hnd]. rewrite Forall_forall in Hr. simpl.
  assert (∀ d, d ∈ budgets → place d ≠ place c) as Hdiff.
  { intros d Hd Heq. apply Hnotin. rewrite <- (place_hour d c) by auto. by apply list_elem_of_fmap_2. }
  apply elem_of_cons in Hb as [->|Hb].
  - rewrite decide_True by done. rewrite demand_elsewhere; [lia|].
    intros (d & Heq & Hd)%list_elem_of_fmap. by apply (Hdiff d).
  - rewrite decide_False; [by rewrite IH|]. intros [Hk Hh]. apply (Hdiff b Hb). unfold place. by rewrite Hk, Hh.
Qed.

Section prepare.
  Context `{!JsonLibrary} `{!JsonNumberLaws} `{!JsonTextLaws} `{!TimestampLibrary} `{!PublicSuffixLibrary}.
  Context {DB : Type} `{!Json} `{!JsonLaws} `{!Spanner DB} `{!SpannerLaws DB}.
  Context (split : string → list string) (split_law : SplitLaw split).
  #[local] Set Default Proof Using "Type*".

(** A prepare with the helper on a database: its task is taken and run, and the
    callback called. *)
Definition prepare_run (svc : FrontEndServiceV2) (db : DB) (request : HttpRequest) (response : HttpResponse)
  : option (list Event * DB) :=
  match PrepareTransaction svc (λ _, SuccessExecutionResult) request with
  | Some (events, inl _) => Some (events, db)
  | Some (events, inr _) =>
      match last events with
      | Some (ConsumeBudgets budgets) =>
          match ConsumeBudgetsSync split db budgets with
          | Return (r, indices, db) =>
              Some (events ++ OnConsumeBudgetCallback svc request response r (default [] indices), db)
          | _ => None
          end
      | _ => None
      end
  | None => None
  end.

Lemma prepare_routes identity request headers transaction_id budgets :
  let svc := mkFrontEndV2 Initialize identity in
  request_headers request = Some headers →
  ExtractBackwardCompatibleHeaders (Some headers) true = (SuccessExecutionResult, transaction_id) →
  ParseBeginTransactionRequestBody (authorized_domain request) (ObtainTransactionOrigin headers request)
    (request_body request) = Parsed budgets → budgets ≠ [] →
  PrepareTransaction svc (λ _, SuccessExecutionResult) request
  = Some (count_both Requests kMetricLabelPrepareTransaction (v2_label_of svc request) ++ [ConsumeBudgets budgets], inr tt).
Proof.
  intros svc Hh Hheaders Hparse Hne. unfold PrepareTransaction, start_v2, find_metric.
  change (FindAggregateMetricInMap _ kMetricLabelPrepareTransaction Requests) with SuccessExecutionResult.
  change (FindAggregateMetricInMap _ kMetricLabelPrepareTransaction ClientErrors) with SuccessExecutionResult.
  rewrite Hh, Hheaders. destruct budgets as [|b budgets]; [done|]. cbn. by rewrite Hparse.
Qed.

(** The table of a request whose budgets are of different hours. *)
Lemma fits_distinct db budgets :
  well_formed_db split db → Forall valid_budget budgets → NoDup (hour_of <$> budgets) →
  fits split db budgets ↔ ∀ b, b ∈ budgets → token_count b ≤ db_remaining split db (primary_key b) (GetTimeBucket (time_bucket b)).
Proof.
  intros Hdb Hv Hnd. assert (Forall (λ b, in_range_time (time_bucket b)) budgets) as Hr.
  { eapply Forall_impl; [exact Hv|]. by intros b [_ ?]. }
  split.
  - intros Hf b Hb. rewrite <- (demand_distinct budgets b) by done. apply Hf.
    rewrite Forall_forall in Hv. by apply valid_budget_hour, Hv.
  - intros Hall key h Hh. destruct (decide ((key, h) ∈ place <$> budgets)) as [Hin|Hout].
    + apply list_elem_of_fmap in Hin as (b & [= -> ->] & Hb). rewrite demand_distinct by done. by apply Hall.
    + rewrite demand_elsewhere by done. by apply db_remaining_nonneg.
Qed.

(** What is left for a budget. *)
Definition left_for (db : DB) (b : ConsumeBudgetMetadata) : Z :=
  db_remaining split db (primary_key b) (GetTimeBucket (time_bucket b)).

(** C10: a prepare whose headers are complete and whose body gives budgets, on a
    well-formed table: the client is answered once. With a success, every budget
    had what it asks for, its hour has lost exactly that and all other hours are
    as they were. When the budget is exhausted, some budget asks for more than
    is left, nothing is consumed, and the body names in order exactly the places
    of the budgets that ask for more than the row of their key has; a key with
    no row has one token an hour, and its budgets are not named. Otherwise the
    database has failed and nothing is consumed. *)
Theorem prepare_consumes identity db request response transaction_id budgets :
  let svc := mkFrontEndV2 Initialize identity in
  ExtractBackwardCompatibleHeaders (request_headers request) true = (SuccessExecutionResult, transaction_id) →
  (∀ headers, request_headers request = Some headers →
    ParseBeginTransactionRequestBody (authorized_domain request) (ObtainTransactionOrigin headers request)
      (request_body request) = Parsed budgets) →
  budgets ≠ [] → Z.of_nat (length budgets) < 2 ^ 64 → well_formed_db split db →
  ∃ events r response' db', prepare_run svc db request response = Some (events ++ [Finish r response'], db') ∧
    omap (λ e, match e with Finish r _ => Some r | _ => None end) events = [] ∧
    ((r = SuccessExecutionResult ∧ well_formed_db split db' ∧
      (∀ b, b ∈ budgets → token_count b ≤ left_for db b ∧ left_for db' b = left_for db b - token_count b) ∧
      (∀ key h, is_hour h → (key, h) ∉ place <$> budgets → db_remaining split db' key h = db_remaining split db key h)) ∨
     (r = BudgetExhausted ∧ db' = db ∧ (∃ b, b ∈ budgets ∧ left_for db b < token_count b) ∧
      ∃ indices, read_failed_indices (response_body response') = Some indices ∧ exhausted_entries split db budgets indices) ∨
     (r = FailToCommit ∧ db' = db)).
Proof.
  intros svc Hheaders Hparse Hne Hlen Hdb.
  destruct (request_headers request) as [headers|] eqn:Hh; [|done]. specialize (Hparse headers eq_refl).
  pose proof (parsed_hours (authorized_domain request) (ObtainTransactionOrigin headers request) (request_body request))
    as Hspec. rewrite Hparse in Hspec. destruct Hspec as [Hnd Hbudgets].
  assert (Forall valid_budget budgets) as Hvalid.
  { destruct Hbudgets as [[_ Hb]|(_ & _ & Hb)]; (eapply Forall_impl; [exact Hb|]).
    - intros b (Hu & Ht & _). by split.
    - intros b (o & _ & _ & Hu & Ht & _). by split. }
  assert (Forall (λ b, in_range_time (time_bucket b)) budgets) as Hr.
  { eapply Forall_impl; [exact Hvalid|]. by intros b [_ ?]. }
  unfold prepare_run.
  pose proof (prepare_routes identity request headers transaction_id budgets Hh Hheaders Hparse Hne) as Hroute.
  fold svc in Hroute. rewrite Hroute, last_snoc.
  destruct (ConsumeBudgetsSync_result split split_law db budgets Hdb Hvalid) as (r & indices & db' & -> & Hcases).
  unfold OnConsumeBudgetCallback.
  change (FindAggregateMetricInMap (metrics_instances_map_ svc) kMetricLabelPrepareTransaction ServerErrors) with SuccessExecutionResult.
  change (FindAggregateMetricInMap (metrics_instances_map_ svc) kMetricLabelPrepareTransaction ClientErrors) with SuccessExecutionResult.
  change (negb (Successful SuccessExecutionResult)) with false. cbn iota.
  set (pre := count_both _ _ _ ++ _).
  destruct Hcases as [(-> & Hfits & Hdb' & Hrem)|[(-> & Hno & -> & entries & -> & Hentries)|(-> & -> & _)]].
  - exists pre. eexists _, _, _. split; [done|]. split; [done|]. left. split; [done|]. split; [done|]. split.
    + intros b Hb. split; [by apply (fits_distinct db budgets)|]. unfold left_for.
      rewrite Hrem by (rewrite Forall_forall in Hvalid; by apply valid_budget_hour, Hvalid). by rewrite demand_distinct.
    + intros key h Hhour Hout. rewrite Hrem by done. rewrite demand_elsewhere by done. lia.
  - exists (pre ++ [Increment kMetricLabelPrepareTransaction ClientErrors (v2_label_of svc request);
      Increment kMetricLabelPrepareTransaction ServerErrors (v2_label_of svc request);
      CounterAdd ServerErrors kMetricLabelPrepareTransaction (v2_label_of svc request)]).
    eexists _, _, _. split; [by rewrite <- app_assoc|]. split; [done|]. right. left. split; [done|]. split; [done|]. split.
    + destruct (decide (Exists (λ b, left_for db b < token_count b) budgets)) as [He|He]; [by apply Exists_exists|].
      destruct Hno. apply fits_distinct; [done..|]. intros b Hb.
      destruct (decide (left_for db b < token_count b)) as [Hlt|Hge]; [|unfold left_for in Hge; lia].
      destruct He. apply Exists_exists. by exists b.
    + exists entries. split; [|done]. apply read_failed_indices_serialized.
      destruct Hentries as [_ Hin]. apply Forall_forall. intros j (n & b & -> & Hb%lookup_lt_Some & _)%Hin. unfold is_u64. lia.
  - exists (pre ++ [Increment kMetricLabelPrepareTransaction ServerErrors (v2_label_of svc request);
      Increment kMetricLabelPrepareTransaction ServerErrors (v2_label_of svc request);
      CounterAdd ServerErrors kMetricLabelPrepareTransaction (v2_label_of svc request)]).
    eexists _, _, _. split; [by rewrite <- app_assoc|]. split; [done|]. by right; right.
Qed.

End prepare.
