(* ===== verification/FrontEndExamples.v ===== *)
(** * Examples of the front end

    A JSON library with its laws, and the theorems of the front end at concrete
    requests. *)

From S2P Require Import Prelude Text ExecutionResult ErrorCodes Uuid TimeframeUtils TransactionPhases TransactionLog.
From S2P Require Import SpannerConsumeBudget ConsumeBudgetCommand BatchConsumeBudgetCommand.
From S2P Require Import TransactionCommandSerializer FrontEndUtils FrontEndCommands FrontEndService FrontEndRun FrontEndServiceV2.
From stdpp Require Import options.

Local Open Scope Z_scope.

(** ** A JSON library *)

Module ExampleJson.

(** A value is a tree: leaves are strings, numbers and flags, nodes are arrays,
    objects and the members of objects. *)
Abbreviation tree := (gen_tree (string + Z + bool)).
Definition text (s : string) : tree := GenLeaf (inl (inl s)).
Definition number (n : Z) : tree := GenLeaf (inl (inr n)).
Definition flag (b : bool) : tree := GenLeaf (inr b).
Definition arr (l : list tree) : tree := GenNode 0 l.
Definition field (f : string * tree) : tree := GenNode 2 [text f.1; f.2].
Definition obj (fields : list (string * tree)) : tree := GenNode 1 (field <$> fields).

(** The text is the tree's number in binary. *)
Fixpoint bits (p : positive) : list Z :=
  match p with
  | xH => []
  | xO p => 48 :: bits p
  | xI p => 49 :: bits p
  end.
Fixpoint of_bits (l : list Z) : option positive :=
  match l with
  | [] => Some xH
  | b :: l =>
      p ← of_bits l;
      if b =? 48 then Some (xO p) else if b =? 49 then Some (xI p) else None
  end.

Lemma of_bits_bits p : of_bits (bits p) = Some p.
Proof. induction p as [p IH|p IH|]; simpl; [by rewrite IH..|done]. Qed.

Fixpoint find_field (name : string) (fields : list tree) : option tree :=
  match fields with
  | GenNode _ [GenLeaf (inl (inl name')); v] :: fields =>
      if bool_decide (name' = name) then Some v else find_field name fields
  | _ => None
  end.

#[export] Instance library : JsonLibrary := {|
  json := tree;
  json_parse s := p ← of_bits s; decode p;
  json_member j name := match j with GenNode 1 fields => find_field name fields | _ => None end;
  json_elements j := match j with GenNode _ l => l | j => [j] end;
  json_get_string j := match j with GenLeaf (inl (inl s)) => Some s | _ => None end;
  json_get_token_count j := match j with GenLeaf (inl (inr n)) => Some (u8 n) | _ => None end;
  json_get_uint64 j := match j with GenLeaf (inl (inr n)) => Some (u64 n) | _ => None end;
  json_get_bool j := match j with GenLeaf (inr b) => Some b | _ => None end;
  json_of_string := text;
  json_of_uint64 := number;
  json_of_bool := flag;
  json_array := arr;
  json_object := obj;
  json_dump j := bits (encode j);
|}.

#[export] Instance number_laws : JsonNumberLaws.
Proof. constructor. intros [[[s|n]|b]|k l] m; try done. intros [= <-]. apply u8_range. Qed.

#[export] Instance text_laws : JsonTextLaws.
Proof.
  refine {| dumpable _ := True |}; try done.
  - intros j _. cbn. rewrite of_bits_bits. cbn. apply decode_encode.
  - intros fields name v Hnd Hin. cbn. induction fields as [|[name' v'] fields IH]; [by apply elem_of_nil in Hin|].
    cbn in Hnd |- *. apply NoDup_cons in Hnd as [Hn Hnd]. apply elem_of_cons in Hin as [[= <- <-]|Hin].
    + by rewrite bool_decide_true.
    + rewrite bool_decide_false; [by apply IH|]. intros ->. apply Hn, list_elem_of_fmap. by exists (name, v).
  - intros n Hn. cbn. by rewrite u64_id.
Defined.

(** Times are written as seconds. *)
#[export] Instance timestamps : TimestampLibrary := read_decimal.

#[export] Instance public_suffixes : PublicSuffixLibrary := λ s,
  if bool_decide (s = "https://a.shop.example"%string) then Some "shop.example:8080/"%string else None.

End ExampleJson.
Import ExampleJson.

(** ** Parsing *)

Module ExampleRequests.

Definition item (key : string) (token : Z) (seconds : string) : tree :=
  obj [("key", text key); ("token", number token); ("reporting_time", text seconds)]%string.

Definition body (fields : list (string * tree)) : list Z := json_dump (obj fields).

Definition body_v1 : list Z :=
  body [("v", text "1.0"); ("t", arr [item "b" 2 "7200"; item "a" 1 "3600"; item "b" 1 "3600"])]%string.

Definition body_v2 : list Z :=
  body [("v", text "2.0");
        ("data", arr [obj [("reporting_origin", text "https://a.shop.example");
                           ("keys", arr [item "b" 2 "7200"; item "a" 257 "3600"])]])]%string.

Definition site : string := "https://shop.example".

Definition hour (n : Z) : Z := n * nanoseconds_per_hour.

Definition budgets_v1 : list ConsumeBudgetMetadata :=
  [mkBudget "o/b" 2 (hour 2); mkBudget "o/a" 1 (hour 1); mkBudget "o/b" 1 (hour 1)].

(** The token 257 is narrowed to 1. *)
Definition budgets_v2 : list ConsumeBudgetMetadata :=
  [mkBudget "https://a.shop.example/b" 2 (hour 2); mkBudget "https://a.shop.example/a" 1 (hour 1)].

Lemma body_v1_parsed : ParseBeginTransactionRequestBody site "o" body_v1 = Parsed budgets_v1.
Proof. by vm_compute. Qed.

Lemma body_v2_parsed : ParseBeginTransactionRequestBody site "o" body_v2 = Parsed budgets_v2.
Proof. by vm_compute. Qed.

(** The same hour twice, a time that is too late, another site, no body. *)
Example refused_bodies :
  ParseBeginTransactionRequestBody site "o"
    (body [("v", text "1.0"); ("t", arr [item "b" 2 "7200"; item "b" 1 "7201"])]%string)
  = Refused (FailureExecutionResult SC_PBS_FRONT_END_SERVICE_INVALID_REQUEST) ∧
  ParseBeginTransactionRequestBody site "o"
    (body [("v", text "1.0"); ("t", arr [item "b" 2 "9223372037"])]%string) = Undef ∧
  ParseBeginTransactionRequestBody "https://other.example" "o" body_v2
  = Refused (FailureExecutionResult SC_PBS_FRONT_END_SERVICE_REPORTING_ORIGIN_NOT_BELONG_TO_SITE) ∧
  ParseBeginTransactionRequestBody site "o" [7]
  = Refused (FailureExecutionResult SC_PBS_FRONT_END_SERVICE_INVALID_REQUEST_BODY).
Proof. split_and!; by vm_compute. Qed.

Lemma budgets_v1_in_range : Forall (λ b, in_range_time (time_bucket b)) budgets_v1.
Proof. repeat constructor; by vm_compute. Qed.

Lemma budgets_v1_distinct : NoDup (hour_of <$> budgets_v1).
Proof. by apply (bool_decide_unpack _); vm_compute. Qed.

End ExampleRequests.
Import ExampleRequests.

Lemma ParseBeginTransactionRequestBody_hours_witness :
  ParseBeginTransactionRequestBody site "o" body_v2 = Parsed budgets_v2 ∧ NoDup (hour_of <$> budgets_v2).
Proof.
  split; [exact body_v2_parsed|]. pose proof (ParseBeginTransactionRequestBody_hours site "o" body_v2) as Hspec.
  rewrite body_v2_parsed in Hspec. exact (proj1 Hspec).
Defined.

Lemma GetTransactionStatus_roundtrip_witness :
  let response := mkStatusResponse TransactionExecutionPhase.Unknown 1234 true false in
  DeserializeGetTransactionStatus (SerializeGetTransactionStatus response) = Parsed response.
Proof. apply GetTransactionStatus_roundtrip. by vm_compute. Defined.

(** ** Commands *)

Module ExampleGenerated.

Definition info (t n i : Z) : ConsumeBudgetCommandRequestInfo := mkRequestInfo (hour t) n (Some i).

(** The key a comes first; the two budgets of b are one command. *)
Definition single_a : ConsumeBudgetCommand :=
  ConsumeBudgetCommand.ConstructWithDependencies (mkUuid 1 2) "o/a" (info 1 1 1).
Definition batch_b : BatchConsumeBudgetCommand :=
  BatchConsumeBudgetCommand.ConstructWithDependencies (mkUuid 1 2) "o/b" [info 1 1 2; info 2 2 0].

Lemma generated_v1 : GenerateConsumeBudgetCommandsWithBatchesPerDay budgets_v1 (mkUuid 1 2)
  = [ConsumeCommand single_a; BatchCommand batch_b].
Proof. by vm_compute. Qed.

(** Both failed; of the batch the budget at place 0. *)
Definition failed_now : list TransactionCommand :=
  [ConsumeCommand (ConsumeBudgetCommand.set_failed true single_a);
   BatchCommand (BatchConsumeBudgetCommand.set_failed [info 2 2 0] batch_b)].

End ExampleGenerated.
Import ExampleGenerated.

Lemma GenerateConsumeBudgetCommandsWithBatchesPerDay_covers_witness :
  GenerateConsumeBudgetCommandsWithBatchesPerDay budgets_v1 (mkUuid 1 2) ≫= command_budgets ≡ₚ budgets_from 0 budgets_v1 ∧
  Forall (day_command (mkUuid 1 2)) [ConsumeCommand single_a; BatchCommand batch_b].
Proof.
  destruct (GenerateConsumeBudgetCommandsWithBatchesPerDay_covers (mkUuid 1 2) budgets_v1 budgets_v1_in_range
    budgets_v1_distinct) as (Hp & Hd & _). split; [exact Hp|]. rewrite <- generated_v1. exact Hd.
Defined.

Lemma failed_batches_reported_witness :
  ∃ body indices, SerializeFailedCommands [0; 1]%nat failed_now = Some (SuccessExecutionResult, body) ∧
    read_failed_indices body = Some indices ∧ 0 ∈ indices ∧ 2 ∉ indices.
Proof.
  destruct (failed_batches_reported (mkUuid 1 2) budgets_v1 [0; 1]%nat failed_now) as (body & indices & Hs & Hr & _ & Hin).
  - exact budgets_v1_in_range.
  - exact budgets_v1_distinct.
  - by vm_compute.
  - by apply (bool_decide_unpack _); vm_compute.
  - rewrite generated_v1. constructor.
    + exists (ConsumeCommand single_a). split; [done|]. by exists true.
    + constructor; [|constructor]. exists (BatchCommand batch_b). split; [done|]. exists [info 2 2 0].
      split; [done|]. apply sublist_cons, sublist_skip, sublist_nil_l.
  - done.
  - exists body, indices. split; [exact Hs|]. split; [exact Hr|]. rewrite !Hin. split.
    + exists 0%nat, (mkBudget "o/b" 2 (hour 2)), (BatchCommand (BatchConsumeBudgetCommand.set_failed [info 2 2 0] batch_b)).
      split; [done|]. split; [done|]. split; [by right; left|]. by left.
    + intros (n & b & c & Hn & Hb & Hc & Hi). assert (n = 2%nat) as -> by lia. injection Hb as <-.
      apply elem_of_cons in Hc as [->|Hc%list_elem_of_singleton].
      * by apply list_elem_of_singleton in Hi.
      * subst c. by apply list_elem_of_singleton in Hi.
Defined.

Lemma failed_singles_reported_witness :
  ∃ body, SerializeFailedCommands [1]%nat
      [ConsumeCommand (ConsumeBudgetCommand.set_failed true
        (ConsumeBudgetCommand.ConstructWithDependencies (mkUuid 1 2) "o/a" (info 1 1 1)))]
    = Some (SuccessExecutionResult, body) ∧ read_failed_indices body = Some [1].
Proof.
  destruct (failed_singles_reported (mkUuid 1 2)) as [Hoff _].
  destruct (Hoff budgets_v1 [1]%nat [ConsumeCommand (ConsumeBudgetCommand.set_failed true
    (ConsumeBudgetCommand.ConstructWithDependencies (mkUuid 1 2) "o/a" (info 1 1 1)))]) as (body & Hs & Hr & _).
  - by vm_compute.
  - constructor; [|constructor]. eexists. split; [by vm_compute|]. by exists true.
  - by exists body.
Defined.

(** ** Handlers *)

Module ExampleHandlers.

Definition headers : HttpHeaders :=
  [(kTransactionIdHeader, "00000000-0000-0001-0000-000000000002");
   (kTransactionSecretHeader, "secret");
   (kTransactionOriginHeader, "o");
   (kTransactionLastExecutionTimestampHeader, "77")]%string.

Definition begin_request : HttpRequest := mkHttpRequest (Some headers) site body_v1.

Definition service : FrontEndService := mkFrontEnd true "peer".

(** The transaction manager takes everything. *)
Definition router : TransactionRequestRouter :=
  mkRouter (λ _, SuccessExecutionResult) (λ _, SuccessExecutionResult) (λ _, SuccessExecutionResult)
    (SuccessExecutionResult, 3).

(** The transaction begins, and its first phase fails with the second command. *)
Definition manager_answers : Answers :=
  mkAnswers (SuccessExecutionResult, Some (mkTransactionResponse (mkUuid 1 2) 5 [] []))
    (FailureExecutionResult 9, Some (mkPhaseResponse 6 [1%nat] [BatchCommand (BatchConsumeBudgetCommand.set_failed [info 2 2 0] batch_b)]))
    (SuccessExecutionResult, None).

Lemma manager_answers_ok : answers_ok (mkAnswers (transaction_answer manager_answers) (phase_answer manager_answers)
  (FailureExecutionResult 9, None)).
Proof. split_and!; try done; intros t [= <-]; repeat constructor. Qed.

End ExampleHandlers.
Import ExampleHandlers.

Lemma answered_once_witness :
  ∃ events r, run service router None 0 (mkAnswers (transaction_answer manager_answers) (phase_answer manager_answers)
      (FailureExecutionResult 9, None)) BeginEndpoint begin_request = Some (events, r) ∧ counted Requests 1 events.
Proof.
  destruct (answered_once service router None 0 (mkAnswers (transaction_answer manager_answers)
    (phase_answer manager_answers) (FailureExecutionResult 9, None)) BeginEndpoint begin_request headers)
    as (events & r & Hrun & Hc & _).
  - reflexivity.
  - intros _. unfold body_ok. change (ObtainTransactionOrigin headers begin_request) with "o"%string.
    change (authorized_domain begin_request) with site. change (request_body begin_request) with body_v1.
    by rewrite body_v1_parsed.
  - exact manager_answers_ok.
  - exists events, r. split; [exact Hrun|exact Hc].
Defined.

(** A request that is turned away is answered, and counted nowhere. *)
Example begin_disallowed_example :
  run service router (Some true) 0 manager_answers BeginEndpoint begin_request
  = Some ([], FailureExecutionResult SC_PBS_FRONT_END_SERVICE_BEGIN_TRANSACTION_DISALLOWED).
Proof. reflexivity. Qed.

(** What the run does. *)
Example begin_run_example :
  finishes <$> (fst <$> run service router None 0 (mkAnswers (transaction_answer manager_answers) (phase_answer manager_answers)
      (FailureExecutionResult 9, None)) BeginEndpoint begin_request) = Some [FailureExecutionResult 9].
Proof. by vm_compute. Qed.

Lemma origin_header_overrides_witness :
  handle service router None 0 BeginEndpoint (mkHttpRequest (Some headers) site body_v1)
  = handle service router None 0 BeginEndpoint (mkHttpRequest (Some headers) "https://other.example" body_v1).
Proof.
  apply (origin_header_overrides service router 0 headers "o" body_v1 site "https://other.example").
  - by vm_compute.
  - done.
  - eexists _, _. split; [by vm_compute|]. split; by vm_compute.
Defined.

(** ** The second version *)

Module ExamplePrepare.

#[export] Existing Instance example_json.
#[export] Existing Instance example_json_laws.
#[export] Existing Instance example_spanner.
#[export] Existing Instance example_spanner_laws.

End ExamplePrepare.
Import ExamplePrepare.

Lemma prepare_consumes_witness :
  ∃ events r response' db',
    prepare_run split_spaces (mkFrontEndV2 Initialize "peer") example_db begin_request (mkHttpResponse [] [])
    = Some (events ++ [Finish r response'], db') ∧
    (r = SuccessExecutionResult → ∀ b, b ∈ budgets_v1 → left_for split_spaces db' b = left_for split_spaces example_db b - token_count b).
Proof.
  destruct (prepare_consumes split_spaces split_spaces_law "peer" example_db begin_request (mkHttpResponse [] [])
    "00000000-0000-0001-0000-000000000002" budgets_v1) as (events & r & response' & db' & Hrun & _ & Hcases).
  - by vm_compute.
  - intros hs [= <-]. change (ObtainTransactionOrigin headers begin_request) with "o"%string.
    change (authorized_domain begin_request) with site. change (request_body begin_request) with body_v1.
    apply body_v1_parsed.
  - done.
  - by vm_compute.
  - exact example_db_well_formed.
  - exists events, r, response', db'. split; [exact Hrun|]. intros ->.
    destruct Hcases as [(_ & _ & Hall & _)|[(Hr & _)|(Hr & _)]]; [|discriminate Hr|discriminate Hr].
    intros b Hb. exact (proj2 (Hall b Hb)).
Defined.
