(* ===== verification/JournalService.v ===== *)
(** * The journal service

    Models [cc/core/journal_service/src/journal_service.cc]: components subscribe
    under their id, recovery hands every log of the journal to the subscriber of
    its component, and components log. A recovered component may subscribe others
    while logs are replayed, so the service is part of the state the callbacks
    work on; what a client of the service provides is the class [Recoverable].
    The streams that read and write the journal's blobs are arguments: what the
    input stream answers, and with what result the output stream takes a log. *)

From S2P Require Import Prelude ExecutionResult ErrorCodes Uuid ConcurrentMap Serialization.
From stdpp Require Import options.

Local Open Scope Z_scope.

(** ** The service *)

(** [Sub] tells callbacks apart: what [std::bind] bound. The subscribers are a
    map over [UuidCompare]. *)
Record JournalService (Sub : Type) := mkJournal {
  is_initialized_ : bool;
  is_running_ : bool;
  has_output_stream : bool; (* [journal_output_stream_] is made when recovery ends *)
  subscribers_map_ : gmap Uuid Sub;
}.
Arguments mkJournal {Sub} _ _ _ _.
Arguments is_initialized_ {Sub} _.
Arguments is_running_ {Sub} _.
Arguments has_output_stream {Sub} _.
Arguments subscribers_map_ {Sub} _.

Section service.
  Context {Sub : Type}.
  Implicit Types j : JournalService Sub.

Definition with_subscribers (m : gmap Uuid Sub) j :=
  mkJournal (is_initialized_ j) (is_running_ j) (has_output_stream j) m.
Definition with_running (b : bool) j :=
  mkJournal (is_initialized_ j) b (has_output_stream j) (subscribers_map_ j).
Definition make_output_stream j :=
  mkJournal (is_initialized_ j) (is_running_ j) true (subscribers_map_ j).

(** [parsed] is the result of reading the partition's name as a uuid,
    [client_created] the blob storage provider's. *)
Definition Init (parsed client_created : ExecutionResult) j : ExecutionResult * JournalService Sub :=
  if is_initialized_ j then (FailureExecutionResult SC_JOURNAL_SERVICE_ALREADY_INITIALIZED, j)
  else
    let j := mkJournal true (is_running_ j) (has_output_stream j) (subscribers_map_ j) in
    if negb (Successful parsed) then (parsed, j)
    else if negb (Successful client_created) then (client_created, j)
    else (SuccessExecutionResult, j).

Definition Run j : ExecutionResult * JournalService Sub :=
  if negb (is_initialized_ j) then (FailureExecutionResult SC_JOURNAL_SERVICE_NOT_INITIALIZED, j)
  else if is_running_ j then (FailureExecutionResult SC_JOURNAL_SERVICE_ALREADY_RUNNING, j)
  else (SuccessExecutionResult, with_running true j).

Definition Stop j : ExecutionResult * JournalService Sub :=
  if negb (is_running_ j) then (FailureExecutionResult SC_JOURNAL_SERVICE_ALREADY_STOPPED, j)
  else (SuccessExecutionResult, with_running false j).

Definition SubscribeForRecovery (component_id : Uuid) (callback : Sub) j
  : ExecutionResult * JournalService Sub :=
  if is_running_ j then (FailureExecutionResult SC_JOURNAL_SERVICE_CANNOT_SUBSCRIBE_WHEN_RUNNING, j)
  else
    let '(execution_result, _, m) := ConcurrentMap.Insert (subscribers_map_ j) (component_id, callback) in
    (execution_result, with_subscribers m j).

Definition UnsubscribeForRecovery (component_id : Uuid) j : ExecutionResult * JournalService Sub :=
  if is_running_ j then (FailureExecutionResult SC_JOURNAL_SERVICE_CANNOT_UNSUBSCRIBE_WHEN_RUNNING, j)
  else
    let '(execution_result, m) := ConcurrentMap.Erase (subscribers_map_ j) component_id in
    (execution_result, with_subscribers m j).

(** [last_persisted] is the output stream's answer. *)
Definition GetLastPersistedJournalId (last_persisted : ExecutionResult * Z) j : ExecutionResult * Z :=
  if negb (has_output_stream j) then (FailureExecutionResult SC_JOURNAL_SERVICE_NO_OUTPUT_STREAM, 0)
  else last_persisted.

(** [Log] makes a log of the request's bytes and asks the output stream to
    append it; the stream's result is the request's. [None]: there is no stream,
    or the buffer has fewer bytes than its length says. *)
Definition Log (data : BytesBuffer) (appended : ExecutionResult) j : option (ExecutionResult * list Byte) :=
  if negb (has_output_stream j) then None
  else
    log_body ← memory_read data 0 (buffer_length data);
    Some (appended, log_body).

End service.

(** ** Recovery *)

(** A log as the input stream returns it. *)
Record JournalStreamReadLogObject := mkReadLog {
  read_component_id : Uuid;
  read_log_id : Uuid;
  read_log_body : list Byte;
}.

(** The replayed logs are known by the text of their component and id. *)
Definition log_index (log : JournalStreamReadLogObject) : string :=
  (ToString (read_component_id log) +:+ "_" +:+ ToString (read_log_id log))%string.

(** What the callbacks of the subscribers do to the state they are part of.
    [None] is undefined behaviour of a callback. *)
Class Recoverable (S Sub : Type) := {
  journal_of : S → JournalService Sub;
  with_journal : JournalService Sub → S → S;
  recover_log : Sub → BytesBuffer → S → option (ExecutionResult * S);
}.

(** How a callback of the input stream ends: recovery is finished, or the
    stream is read again. *)
Inductive ReadOutcome :=
| FinishRecover (result : ExecutionResult)
| ReadLog.

Section replay.
  Context {S Sub : Type} `{Recoverable S Sub}.

(** The loop over the logs of an answer. *)
Fixpoint replay_logs (replayed_log_ids : gset string) (logs : list JournalStreamReadLogObject) (s : S)
  : option (ExecutionResult * gset string * S) :=
  match logs with
  | [] => Some (SuccessExecutionResult, replayed_log_ids, s)
  | log :: rest =>
      let '(execution_result, callback) :=
        ConcurrentMap.Find (subscribers_map_ (journal_of s)) (read_component_id log) in
      if negb (Successful execution_result) then Some (execution_result, replayed_log_ids, s)
      else if decide (log_index log ∈ replayed_log_ids) then replay_logs replayed_log_ids rest s
      else
        let replayed_log_ids := {[log_index log]} ∪ replayed_log_ids in
        callback ← callback;
        '(execution_result, s) ← recover_log callback (BytesBufferOf (read_log_body log)) s;
        if negb (Successful execution_result) then Some (execution_result, replayed_log_ids, s)
        else replay_logs replayed_log_ids rest s
  end.

(** [scheduled] is the executor's answer to the task that reads on. *)
Definition OnJournalStreamReadLogCallback (scheduled : ExecutionResult) (replayed_log_ids : gset string)
    (result : ExecutionResult) (read_logs : list JournalStreamReadLogObject) (s : S)
  : option (ReadOutcome * gset string * S) :=
  if negb (Successful result) then
    if negb (result_eqb result (FailureExecutionResult SC_JOURNAL_SERVICE_INPUT_STREAM_NO_MORE_LOGS_TO_RETURN))
    then Some (FinishRecover result, replayed_log_ids, s)
    else
      Some (FinishRecover SuccessExecutionResult, replayed_log_ids,
            with_journal (make_output_stream (journal_of s)) s)
  else
    '(execution_result, replayed_log_ids, s) ← replay_logs replayed_log_ids read_logs s;
    if negb (Successful execution_result) then Some (FinishRecover execution_result, replayed_log_ids, s)
    else if negb (Successful scheduled) then Some (FinishRecover scheduled, replayed_log_ids, s)
    else Some (ReadLog, replayed_log_ids, s).

(** A recovery on a stream that gives the answers of a list: each asks for the
    next. [Some None]: the answers are used up and recovery has not finished. *)
Fixpoint read_answers (replayed_log_ids : gset string)
    (answers : list (ExecutionResult * list JournalStreamReadLogObject)) (s : S)
  : option (option ExecutionResult * S) :=
  match answers with
  | [] => Some (None, s)
  | (result, read_logs) :: rest =>
      '(outcome, replayed_log_ids, s) ←
        OnJournalStreamReadLogCallback SuccessExecutionResult replayed_log_ids result read_logs s;
      match outcome with
      | FinishRecover r => Some (Some r, s)
      | ReadLog => read_answers replayed_log_ids rest s
      end
  end.

(** [Recover] starts with no log replayed. *)
Definition Recover (answers : list (ExecutionResult * list JournalStreamReadLogObject)) (s : S)
  : option (option ExecutionResult * S) :=
  read_answers ∅ answers s.

(** The answer that ends a stream. *)
Definition end_of_stream : ExecutionResult * list JournalStreamReadLogObject :=
  (FailureExecutionResult SC_JOURNAL_SERVICE_INPUT_STREAM_NO_MORE_LOGS_TO_RETURN, []).

(** ** Lemmas *)

Lemma replay_logs_app replayed logs1 logs2 s :
  replay_logs replayed (logs1 ++ logs2) s
  = ('(r, replayed, s) ← replay_logs replayed logs1 s;
     if negb (Successful r) then Some (r, replayed, s) else replay_logs replayed logs2 s).
Proof.
  revert replayed s. induction logs1 as [|log logs1 IH]; intros replayed s; [done|].
  cbn [replay_logs app]. destruct (ConcurrentMap.Find _ _) as [r callback].
  destruct (negb (Successful r)) eqn:Hr; [by cbn; rewrite Hr|].
  case_decide; [apply IH|]. destruct callback as [callback|]; [|done]. cbn [mbind option_bind].
  destruct (recover_log _ _ _) as [[r' s']|]; [|done]. cbn [mbind option_bind].
  destruct (negb (Successful r')) eqn:Hr'; [by cbn; rewrite Hr'|]. apply IH.
Qed.

(** A log whose component is subscribed, that is not replayed yet. *)
Lemma replay_logs_cons replayed log logs s callback r s' :
  subscribers_map_ (journal_of s) !! read_component_id log = Some callback →
  log_index log ∉ replayed →
  recover_log callback (BytesBufferOf (read_log_body log)) s = Some (r, s') → Successful r = true →
  replay_logs replayed (log :: logs) s = replay_logs ({[log_index log]} ∪ replayed) logs s'.
Proof.
  intros Hs Hn Hc Hr. cbn [replay_logs]. rewrite (ConcurrentMap.Find_Some _ _ _ Hs). cbn iota.
  change (negb (Successful SuccessExecutionResult)) with false. cbn iota.
  rewrite decide_False by done. cbn [mbind option_bind]. rewrite Hc. cbn [mbind option_bind]. by rewrite Hr.
Qed.

(** The subscribers take the logs of a list one after the other. *)
Inductive recovers : S → list JournalStreamReadLogObject → S → Prop :=
| recovers_nil s : recovers s [] s
| recovers_cons s callback log logs s1 s2 :
    subscribers_map_ (journal_of s) !! read_component_id log = Some callback →
    recover_log callback (BytesBufferOf (read_log_body log)) s = Some (SuccessExecutionResult, s1) →
    recovers s1 logs s2 → recovers s (log :: logs) s2.

Lemma recovers_app s logs1 s1 logs2 s2 :
  recovers s logs1 s1 → recovers s1 logs2 s2 → recovers s (logs1 ++ logs2) s2.
Proof. induction 1; [done|]. intros. simpl. econstructor; eauto. Qed.

Lemma recovers_one s callback log s' :
  subscribers_map_ (journal_of s) !! read_component_id log = Some callback →
  recover_log callback (BytesBufferOf (read_log_body log)) s = Some (SuccessExecutionResult, s') →
  recovers s [log] s'.
Proof. intros. econstructor; [done..|constructor]. Qed.

(** Logs with different ids are then replayed to the end. *)
Lemma recovers_replay s logs s' replayed :
  recovers s logs s' → NoDup (log_index <$> logs) → (∀ log, log ∈ logs → log_index log ∉ replayed) →
  ∃ replayed', replay_logs replayed logs s = Some (SuccessExecutionResult, replayed', s').
Proof.
  intros Hr. revert replayed. induction Hr as [s|s callback log logs s1 s2 Hs Hc _ IH]; intros replayed Hnd Hnew.
  { by eexists. }
  rewrite fmap_cons in Hnd. apply NoDup_cons in Hnd as [Hnot Hnd].
  rewrite (replay_logs_cons _ _ _ _ callback SuccessExecutionResult s1);
    [|done|apply Hnew; by left|done|done].
  apply IH; [done|]. intros log' Hlog'. apply not_elem_of_union. split.
  - intros He%elem_of_singleton. apply Hnot. rewrite <- He. by apply list_elem_of_fmap_2.
  - apply Hnew. by right.
Qed.

(** How recovery on the logs of a list ends when the stream then ends. *)
Definition finish_recovery (out : ExecutionResult * gset string * S) : option ExecutionResult * S :=
  let '(r, _, s) := out in
  if negb (Successful r) then (Some r, s)
  else (Some SuccessExecutionResult, with_journal (make_output_stream (journal_of s)) s).

Lemma read_answers_batches replayed batches s :
  read_answers replayed ((pair SuccessExecutionResult <$> batches) ++ [end_of_stream]) s
  = finish_recovery <$> replay_logs replayed (concat batches) s.
Proof.
  revert replayed s. induction batches as [|logs batches IH]; intros replayed s; [done|].
  rewrite concat_cons, replay_logs_app, fmap_cons. cbn [app read_answers].
  unfold OnJournalStreamReadLogCallback. change (negb (Successful SuccessExecutionResult)) with false. cbn iota.
  destruct (replay_logs replayed logs s) as [[[r replayed'] s']|]; [|done].
  cbn [mbind option_bind]. destruct (negb (Successful r)) eqn:Hr.
  - cbn [mbind option_bind fmap option_fmap option_map finish_recovery]. by rewrite Hr.
  - cbn [mbind option_bind]. apply IH.
Qed.

(** A log that comes again, as a retried append makes it, is skipped. *)
Lemma replay_logs_duplicate replayed log logs1 logs2 s s1 replayed1 :
  replay_logs replayed (log :: logs1) s = Some (SuccessExecutionResult, replayed1, s1) →
  is_Some (subscribers_map_ (journal_of s1) !! read_component_id log) →
  replay_logs replayed (log :: logs1 ++ log :: logs2) s = replay_logs replayed (log :: logs1 ++ logs2) s.
Proof.
  intros Hr [callback Hs].
  assert (∀ logs replayed s r replayed1 s1, replay_logs replayed logs s = Some (r, replayed1, s1) →
    replayed ⊆ replayed1) as Hmono.
  { clear. induction logs as [|log logs IH]; intros replayed s r replayed1 s1; [by intros [= _ -> _]|].
    cbn [replay_logs]. destruct (ConcurrentMap.Find _ _) as [r0 callback].
    destruct (negb (Successful r0)); [by intros [= _ -> _]|]. case_decide; [apply IH|].
    destruct callback as [callback|]; [|done]. cbn [mbind option_bind].
    destruct (recover_log _ _ _) as [[r' s']|]; [|done]. cbn [mbind option_bind].
    destruct (negb (Successful r')); [intros [= _ <- _]; set_solver|]. intros Hr%IH. set_solver. }
  assert (log_index log ∈ replayed1) as Hin.
  { cbn [replay_logs] in Hr. destruct (ConcurrentMap.Find _ _) as [r0 callback0].
    destruct (negb (Successful r0)) eqn:Hr0; [by injection Hr as -> _ _|].
    case_decide as Hd; [by apply Hmono in Hr; set_solver|].
    destruct callback0 as [callback0|]; [|done]. cbn [mbind option_bind] in Hr.
    destruct (recover_log _ _ _) as [[r' s']|]; [|done]. cbn [mbind option_bind] in Hr.
    destruct (negb (Successful r')) eqn:Hr'; [by injection Hr as -> _ _|]. apply Hmono in Hr. set_solver. }
  rewrite !app_comm_cons, !replay_logs_app, Hr. cbn [mbind option_bind].
  change (negb (Successful SuccessExecutionResult)) with false. cbn iota. cbn [replay_logs].
  rewrite (ConcurrentMap.Find_Some _ _ _ Hs). cbn iota.
  change (negb (Successful SuccessExecutionResult)) with false. cbn iota. by rewrite decide_True.
Qed.

End replay.

(** Different logs of valid ids have different indices. *)
Lemma ToString_inj u v : valid_uuid u → valid_uuid v → ToString u = ToString v → u = v.
Proof.
  intros Hu Hv He. pose proof (FromString_ToString_result u Hu) as H1.
  rewrite He, (FromString_ToString_result v Hv) in H1. by injection H1.
Qed.

Lemma append_inj_length (s1 s2 t1 t2 : string) :
  (s1 +:+ t1 = s2 +:+ t2)%string → String.length s1 = String.length s2 → s1 = s2 ∧ t1 = t2.
Proof.
  revert s2. induction s1 as [|c s1 IH]; intros [|c2 s2]; try done.
  cbn [String.append String.length]. intros [= -> Ht] [= Hl]. by destruct (IH s2 Ht Hl) as [-> ->].
Qed.

Lemma log_index_inj log1 log2 :
  valid_uuid (read_component_id log1) → valid_uuid (read_log_id log1) →
  valid_uuid (read_component_id log2) → valid_uuid (read_log_id log2) →
  log_index log1 = log_index log2 →
  read_component_id log1 = read_component_id log2 ∧ read_log_id log1 = read_log_id log2.
Proof.
  intros Hc1 Hl1 Hc2 Hl2 He. apply append_inj_length in He as [Hc He]; [|done].
  apply append_inj_length in He as [_ Hl]; [|done]. split; by apply ToString_inj.
Qed.

(** ** Recovery delivers every log once *)

Section recovery.
  Context {S Sub : Type} `{Recoverable S Sub}.

(** The logs in the order of the journal, each where it comes first. *)
Fixpoint first_occurrences (seen : gset string) (logs : list JournalStreamReadLogObject) : list JournalStreamReadLogObject :=
  match logs with
  | [] => []
  | log :: rest =>
      if decide (log_index log ∈ seen) then first_occurrences seen rest
      else log :: first_occurrences ({[log_index log]} ∪ seen) rest
  end.

(** Each log is given to the subscriber of its component; the first that has none, or
    whose subscriber fails, ends it. *)
Fixpoint deliver (logs : list JournalStreamReadLogObject) (s : S) : option (ExecutionResult * S) :=
  match logs with
  | [] => Some (SuccessExecutionResult, s)
  | log :: rest =>
      match subscribers_map_ (journal_of s) !! read_component_id log with
      | None => Some (FailureExecutionResult SC_CONCURRENT_MAP_ENTRY_DOES_NOT_EXIST, s)
      | Some callback =>
          '(r, s) ← recover_log callback (BytesBufferOf (read_log_body log)) s;
          if Successful r then deliver rest s else Some (r, s)
      end
  end.

(** How the recovery ends after a stream whose last answer is [last], when the logs before
    were delivered with [r]. *)
Definition recovery_result (last : ExecutionResult) (out : ExecutionResult * S) : option ExecutionResult * S :=
  let '(r, s) := out in
  if negb (Successful r) then (Some r, s)
  else if result_eqb last (FailureExecutionResult SC_JOURNAL_SERVICE_INPUT_STREAM_NO_MORE_LOGS_TO_RETURN) then
    (Some SuccessExecutionResult, with_journal (make_output_stream (journal_of s)) s)
  else (Some last, s).

Definition valid_log (log : JournalStreamReadLogObject) : Prop :=
  valid_uuid (read_component_id log) ∧ valid_uuid (read_log_id log).

(** A callback may subscribe components, and unsubscribes none. *)
Definition keeps_subscribers : Prop :=
  ∀ callback b s r s' component, recover_log callback b s = Some (r, s') →
    is_Some (subscribers_map_ (journal_of s) !! component) → is_Some (subscribers_map_ (journal_of s') !! component).

Lemma replay_logs_deliver logs : keeps_subscribers → Forall valid_log logs → ∀ replayed s,
  (∀ log, log ∈ logs → log_index log ∈ replayed → is_Some (subscribers_map_ (journal_of s) !! read_component_id log)) →
  (λ '(r, _, s), (r, s)) <$> replay_logs replayed logs s = deliver (first_occurrences replayed logs) s.
Proof.
  intros Hkeep. induction logs as [|log logs IH]; intros Hv replayed s Hknown; [done|].
  apply Forall_cons in Hv as [Hlog Hv]. cbn [replay_logs first_occurrences].
  case_decide as Hd.
  - destruct (Hknown log ltac:(by left) Hd) as [callback Hs]. rewrite (ConcurrentMap.Find_Some _ _ _ Hs).
    change (negb (Successful SuccessExecutionResult)) with false. cbn iota.
    apply IH; [done|]. intros log' Hlog'. apply Hknown. by right.
  - cbn [deliver]. destruct (subscribers_map_ (journal_of s) !! read_component_id log) as [callback|] eqn:Hs.
    + rewrite (ConcurrentMap.Find_Some _ _ _ Hs). change (negb (Successful SuccessExecutionResult)) with false. cbn iota.
      cbn [mbind option_bind]. destruct (recover_log callback _ s) as [[r s']|] eqn:Hr; [|done]. cbn [mbind option_bind].
      destruct (Successful r); cbn [negb]; [|done]. apply IH; [done|].
      intros log' Hlog' Hin. eapply Hkeep; [exact Hr|]. apply elem_of_union in Hin as [He%elem_of_singleton|Hin].
      * assert (valid_log log') as [??] by (rewrite Forall_forall in Hv; by apply Hv). destruct Hlog.
        apply log_index_inj in He as [-> _]; [by eexists|done..].
      * apply Hknown; [by right|done].
    + rewrite (ConcurrentMap.Find_None _ _ Hs). done.
Qed.

Lemma read_answers_ended replayed batches r logs rest s : Successful r = false →
  read_answers replayed ((pair SuccessExecutionResult <$> batches) ++ (r, logs) :: rest) s
  = recovery_result r <$> ((λ '(r, _, s), (r, s)) <$> replay_logs replayed (concat batches) s).
Proof.
  intros Hr. revert replayed s. induction batches as [|batch batches IH]; intros replayed s.
  - cbn [fmap list_fmap app read_answers concat replay_logs]. unfold OnJournalStreamReadLogCallback. rewrite Hr. cbn [negb].
    destruct (result_eqb _ _) eqn:He; cbn [negb mbind option_bind fmap option_fmap option_map recovery_result];
      change (negb (Successful SuccessExecutionResult)) with false; cbn iota; by rewrite He.
  - rewrite concat_cons, replay_logs_app, fmap_cons. cbn [app read_answers].
    unfold OnJournalStreamReadLogCallback. change (negb (Successful SuccessExecutionResult)) with false. cbn iota.
    destruct (replay_logs replayed batch s) as [[[r' replayed'] s']|]; [|done].
    cbn [mbind option_bind]. destruct (negb (Successful r')) eqn:Hr'.
    + cbn [mbind option_bind fmap option_fmap option_map recovery_result]. by rewrite Hr'.
    + cbn [mbind option_bind]. apply IH.
Qed.

(** C30: a recovery gives every log of the journal to the subscriber of its component
    exactly once, in the order of the journal, however the input stream cuts the logs into
    answers and however often a retried append wrote a log: what it does is what delivering
    the first occurrences in one list does. A log without a subscriber, or the first failure of
    one, ends it with that failure; else it ends with the stream's first answer that is not a
    success, whatever would follow: with success and an output stream when that is the end of
    the stream, and with the answer's own result, and no output stream, otherwise. *)
Theorem Recover_batches batches r logs rest s :
  keeps_subscribers → Forall valid_log (concat batches) → Successful r = false →
  Recover ((pair SuccessExecutionResult <$> batches) ++ (r, logs) :: rest) s
  = recovery_result r <$> deliver (first_occurrences ∅ (concat batches)) s.
Proof.
  intros Hkeep Hv Hr. unfold Recover. rewrite read_answers_ended by done.
  rewrite (replay_logs_deliver _ Hkeep Hv); [done|]. intros log _ Hin. by apply not_elem_of_empty in Hin.
Qed.

End recovery.

(** ** An example *)

Module ExampleRecovery.

(** Two components that note what they are given; a body that starts with 0 is refused. *)
Definition State : Type := JournalService nat * list (nat * list Z).

#[export] Instance example_recoverable : Recoverable State nat := {|
  journal_of := fst;
  with_journal j s := (j, s.2);
  recover_log sub b s :=
    match bytes b with
    | 0 :: _ => Some (FailureExecutionResult 7, s)
    | body => Some (SuccessExecutionResult, (s.1, s.2 ++ [(sub, body)]))
    end;
|}.

Definition start : State :=
  (mkJournal true false false (<[mkUuid 0 1 := 10%nat]> (<[mkUuid 0 2 := 20%nat]> ∅)), []).
Definition log (component id : Z) (body : list Z) : JournalStreamReadLogObject :=
  mkReadLog (mkUuid 0 component) (mkUuid 0 id) body.

(** A retried append wrote the first log again. *)
Definition batches : list (list JournalStreamReadLogObject) :=
  [[log 1 100 [1; 2]; log 2 100 [3]]; [log 1 100 [1; 2]]; [log 1 101 [4]]].

Definition lost : ExecutionResult := FailureExecutionResult 9.

End ExampleRecovery.

Lemma Recover_batches_witness :
  Recover (H := ExampleRecovery.example_recoverable)
    ((pair SuccessExecutionResult <$> ExampleRecovery.batches) ++ [(ExampleRecovery.lost, [])]) ExampleRecovery.start
  = Some (Some ExampleRecovery.lost,
      (ExampleRecovery.start.1, [(10%nat, [1; 2]); (20%nat, [3]); (10%nat, [4])])).
Proof.
  rewrite (Recover_batches ExampleRecovery.batches ExampleRecovery.lost [] [] ExampleRecovery.start).
  - vm_compute. reflexivity.
  - intros callback b [j l] r s' component. unfold recover_log. simpl.
    destruct (bytes b) as [|[] ?]; intros [= <- <-]; done.
  - unfold ExampleRecovery.batches. cbn [concat app]. repeat (apply Forall_cons_2; [split; vm_compute; repeat split; congruence|]). apply Forall_nil_2.
  - reflexivity.
Defined.
