(* ===== verification/BudgetKey.v ===== *)
(** * The journal logs of budget keys and of their provider

    Models the messages of [cc/pbs/budget_key/src/proto] and
    [cc/pbs/budget_key_provider/src/proto], [BudgetKey::SerializeBudgetKey] and
    [BudgetKeyProvider::SerializeBudgetKeyProviderPair], and the start of the two
    recovery callbacks, which parses a log and checks its version. What the key
    and the provider need of the logs is the class [BudgetKeyLogs]. *)

From S2P Require Import Prelude ExecutionResult ErrorCodes Uuid ConcurrentMap AutoExpiryMap Serialization.
From S2P Require Import TimeframeLog TimeframeManager JournalService.
From stdpp Require Import options.

Local Open Scope Z_scope.

(** ** Messages *)

Record BudgetKeyLog_1_0 := mkBudgetKeyLog_1_0 { log_timeframe_manager_id : Uuid }.

Record BudgetKeyLog := mkBudgetKeyLog { key_log_version : Version; key_log_body : list Byte }.

Inductive OperationType :=
| OPERATION_TYPE_UNKNOWN
| LOAD_INTO_CACHE
| DELETE_FROM_CACHE.

#[export] Instance OperationType_eq_dec : EqDecision OperationType.
Proof. solve_decision. Defined.

Record BudgetKeyProviderLog_1_0 := mkProviderLog_1_0 {
  operation_type : OperationType;
  log_budget_key_name : string;
  log_key_id : Uuid;
}.

Record BudgetKeyProviderLog := mkProviderLog { provider_log_version : Version; provider_log_body : list Byte }.

Definition kCurrentVersion : Version := mkVersion 1 0.

(** ** Writing and reading *)

Section logs.
  Context `{!ProtoMessage BudgetKeyLog_1_0} `{!ProtoMessage BudgetKeyLog}
    `{!ProtoMessage BudgetKeyProviderLog_1_0} `{!ProtoMessage BudgetKeyProviderLog}.

Definition SerializeBudgetKey (timeframe_manager_id : Uuid) : option (ExecutionResult * BytesBuffer) :=
  '(execution_result, b) ← serialize_message (mkBudgetKeyLog_1_0 timeframe_manager_id);
  if negb (Successful execution_result) then Some (execution_result, b)
  else serialize_message (mkBudgetKeyLog kCurrentVersion (BufferContents b)).

Definition SerializeBudgetKeyProviderPair (operation : OperationType) (budget_key_name : string) (id : Uuid)
  : option (ExecutionResult * BytesBuffer) :=
  '(execution_result, b) ← serialize_message (mkProviderLog_1_0 operation budget_key_name id);
  if negb (Successful execution_result) then Some (execution_result, b)
  else serialize_message (mkProviderLog kCurrentVersion (BufferContents b)).

(** The id of the timeframe manager of a key's log. *)
Definition DeserializeBudgetKey (b : BytesBuffer) : option (ExecutionResult * option Uuid) :=
  '(execution_result, l) ← DeserializeProtoMessage (M := BudgetKeyLog) b 0 (buffer_length b);
  if negb (Successful execution_result) then Some (execution_result, None)
  else
    l ← l;
    let execution_result := ValidateVersion (key_log_version l) kCurrentVersion in
    if negb (Successful execution_result) then Some (execution_result, None)
    else
      let '(execution_result, l) := DeserializeProtoString (M := BudgetKeyLog_1_0) (key_log_body l) in
      if negb (Successful execution_result) then Some (execution_result, None)
      else Some (SuccessExecutionResult, log_timeframe_manager_id <$> l).

Definition DeserializeBudgetKeyProviderPair (b : BytesBuffer)
  : option (ExecutionResult * option BudgetKeyProviderLog_1_0) :=
  '(execution_result, l) ← DeserializeProtoMessage (M := BudgetKeyProviderLog) b 0 (buffer_length b);
  if negb (Successful execution_result) then Some (execution_result, None)
  else
    l ← l;
    let execution_result := ValidateVersion (provider_log_version l) kCurrentVersion in
    if negb (Successful execution_result) then Some (execution_result, None)
    else
      let '(execution_result, l) := DeserializeProtoString (M := BudgetKeyProviderLog_1_0) (provider_log_body l) in
      if negb (Successful execution_result) then Some (execution_result, None)
      else Some (SuccessExecutionResult, l).

End logs.

(** ** What the key and the provider are promised *)

Class BudgetKeyLogs := {
  write_key : Uuid → option (ExecutionResult * BytesBuffer);
  read_key : BytesBuffer → option (ExecutionResult * option Uuid);
  write_pair : OperationType → string → Uuid → option (ExecutionResult * BytesBuffer);
  read_pair : BytesBuffer → option (ExecutionResult * option BudgetKeyProviderLog_1_0);
}.

(** A log reads as what it was written as, and the journal keeps its bytes.
    [valid_name] are the names a message can hold. *)
Class BudgetKeyLogsLaws (valid_name : string → Prop) `{BudgetKeyLogs} : Prop := {
  write_key_law id : valid_uuid id →
    ∃ b, write_key id = Some (SuccessExecutionResult, b) ∧ BytesBufferOf (BufferContents b) = b ∧
      read_key b = Some (SuccessExecutionResult, Some id);
  write_pair_law operation name id :
    operation ≠ OPERATION_TYPE_UNKNOWN → valid_name name → valid_uuid id →
    ∃ b, write_pair operation name id = Some (SuccessExecutionResult, b) ∧ BytesBufferOf (BufferContents b) = b ∧
      read_pair b = Some (SuccessExecutionResult, Some (mkProviderLog_1_0 operation name id));
}.

#[export] Instance proto_budget_key_logs `{!ProtoMessage BudgetKeyLog_1_0} `{!ProtoMessage BudgetKeyLog}
  `{!ProtoMessage BudgetKeyProviderLog_1_0} `{!ProtoMessage BudgetKeyProviderLog} : BudgetKeyLogs := {|
  write_key := SerializeBudgetKey;
  read_key := DeserializeBudgetKey;
  write_pair := SerializeBudgetKeyProviderPair;
  read_pair := DeserializeBudgetKeyProviderPair;
|}.

(** ** The functions keep the promise *)

(** The messages that are written: fields that fit their types, and no more
    bytes than the bounds below. *)
Definition max_log_1_0 : Z := 2 ^ 25.
Definition max_log : Z := 2 ^ 26.

Definition valid_key_log_1_0 (l : BudgetKeyLog_1_0) : Prop := valid_uuid (log_timeframe_manager_id l).
Definition valid_key_log (l : BudgetKeyLog) : Prop :=
  is_u64 (major (key_log_version l)) ∧ is_u64 (minor (key_log_version l)) ∧
  Z.of_nat (length (key_log_body l)) ≤ max_log_1_0.
Definition valid_provider_log (l : BudgetKeyProviderLog) : Prop :=
  is_u64 (major (provider_log_version l)) ∧ is_u64 (minor (provider_log_version l)) ∧
  Z.of_nat (length (provider_log_body l)) ≤ max_log_1_0.
Definition valid_provider_log_1_0 (valid_name : string → Prop) (l : BudgetKeyProviderLog_1_0) : Prop :=
  operation_type l ≠ OPERATION_TYPE_UNKNOWN ∧ valid_name (log_budget_key_name l) ∧ valid_uuid (log_key_id l).

Section laws.
  Context `{!ProtoMessage BudgetKeyLog_1_0} `{!ProtoMessage BudgetKeyLog}
    `{!ProtoMessage BudgetKeyProviderLog_1_0} `{!ProtoMessage BudgetKeyProviderLog}.
  Context (valid_name : string → Prop).
  Context `{!ProtoMessageLaws BudgetKeyLog_1_0 valid_key_log_1_0 max_log_1_0}
    `{!ProtoMessageLaws BudgetKeyLog valid_key_log max_log}
    `{!ProtoMessageLaws BudgetKeyProviderLog_1_0 (valid_provider_log_1_0 valid_name) max_log_1_0}
    `{!ProtoMessageLaws BudgetKeyProviderLog valid_provider_log max_log}.
  Context `{!ProtoNotEmpty BudgetKeyLog_1_0 valid_key_log_1_0 max_log_1_0}
    `{!ProtoNotEmpty BudgetKeyLog valid_key_log max_log}
    `{!ProtoNotEmpty BudgetKeyProviderLog_1_0 (valid_provider_log_1_0 valid_name) max_log_1_0}
    `{!ProtoNotEmpty BudgetKeyProviderLog valid_provider_log max_log}.
  #[local] Set Default Proof Using "Type*".

(** The bytes of an inner message fit the body of the outer one. *)
Lemma inner_bytes_fit {M} `{!ProtoMessage M} (valid : M → Prop) `{!ProtoMessageLaws M valid max_log_1_0} (m : M) :
  valid m → Z.of_nat (length (proto_bytes m)) ≤ max_log_1_0.
Proof. intros Hm. rewrite <- proto_size by done. by apply proto_size_bound. Qed.

#[export] Instance proto_budget_key_logs_laws : BudgetKeyLogsLaws valid_name.
Proof.
  constructor.
  - intros id Hid. set (l1 := mkBudgetKeyLog_1_0 id). assert (valid_key_log_1_0 l1) as Hv1 by done.
    cbn [write_key read_key proto_budget_key_logs]. unfold SerializeBudgetKey. fold l1.
    destruct (serialize_message_spec valid_key_log_1_0 max_log_1_0 l1 Hv1) as (b1 & -> & Hb1 & _ & _). simpl.
    rewrite Hb1. set (l := mkBudgetKeyLog kCurrentVersion (proto_bytes l1)).
    assert (valid_key_log l) as Hv by by split_and!; [..|apply (inner_bytes_fit valid_key_log_1_0)].
    destruct (serialize_message_spec valid_key_log max_log l Hv) as (b & Hb & _).
    exists b. split_and!; [done|by apply (serialize_message_stored valid_key_log max_log l)|].
    unfold DeserializeBudgetKey. rewrite (DeserializeProtoMessage_written valid_key_log max_log l b Hv Hb). simpl.
    rewrite (DeserializeProtoString_bytes valid_key_log_1_0 max_log_1_0) by (try done; by apply proto_not_empty).
    done.
  - intros operation name id Hop Hname Hid. set (l1 := mkProviderLog_1_0 operation name id).
    assert (valid_provider_log_1_0 valid_name l1) as Hv1 by by split_and!.
    cbn [write_pair read_pair proto_budget_key_logs]. unfold SerializeBudgetKeyProviderPair. fold l1.
    destruct (serialize_message_spec (valid_provider_log_1_0 valid_name) max_log_1_0 l1 Hv1)
      as (b1 & -> & Hb1 & _ & _). simpl.
    rewrite Hb1. set (l := mkProviderLog kCurrentVersion (proto_bytes l1)).
    assert (valid_provider_log l) as Hv
      by by split_and!; [..|apply (inner_bytes_fit (valid_provider_log_1_0 valid_name))].
    destruct (serialize_message_spec valid_provider_log max_log l Hv) as (b & Hb & _).
    exists b. split_and!; [done|by apply (serialize_message_stored valid_provider_log max_log l)|].
    unfold DeserializeBudgetKeyProviderPair.
    rewrite (DeserializeProtoMessage_written valid_provider_log max_log l b Hv Hb). simpl.
    rewrite (DeserializeProtoString_bytes (valid_provider_log_1_0 valid_name) max_log_1_0)
      by (try done; by apply proto_not_empty).
    done.
Qed.

End laws.

(** ** Budget keys

    Models [cc/pbs/budget_key/src/budget_key.{h,cc}]: a budget key owns the
    timeframe manager of its days and the protocols on it. Keys, their managers
    and the journal's subscriptions are objects that refer to each other, so they
    live in stores ([Objects]); a destructor unsubscribes the object's id. A
    destructor has an effect only while the journal is not running, that is
    during recovery, where an object is referred to from one place; an object
    without references stays in its store. *)

Definition key_loc : Type := positive.
Definition manager_loc : Type := positive.

(** A protocol is known by the timeframe manager it works on. *)
Record BudgetKey := mkBudgetKey {
  name_ : string;
  id_ : Uuid;
  budget_key_timeframe_manager_ : option manager_loc;
  consume_budget_transaction_protocol_ : option manager_loc;
  batch_consume_budget_transaction_protocol_ : option manager_loc;
}.

Record ManagerObject := mkManagerObject {
  manager_key_name : string;
  manager_id : Uuid;
  manager_data : BudgetKeyTimeframeManager;
}.

(** Whose recovery callback is subscribed. *)
Inductive Subscriber :=
| ProviderSubscriber
| KeySubscriber (k : key_loc)
| ManagerSubscriber (m : manager_loc).

Record Objects := mkObjects {
  key_heap : gmap key_loc BudgetKey;
  manager_heap : gmap manager_loc ManagerObject;
  journal_service_ : JournalService Subscriber;
}.

Definition with_keys (ks : gmap key_loc BudgetKey) (o : Objects) :=
  mkObjects ks (manager_heap o) (journal_service_ o).
Definition with_managers (ms : gmap manager_loc ManagerObject) (o : Objects) :=
  mkObjects (key_heap o) ms (journal_service_ o).
Definition with_journal_service (j : JournalService Subscriber) (o : Objects) :=
  mkObjects (key_heap o) (manager_heap o) j.

(** A manager's data changes. *)
Definition set_manager_data (s : BudgetKeyTimeframeManager) (mo : ManagerObject) : ManagerObject :=
  mkManagerObject (manager_key_name mo) (manager_id mo) s.
Definition write_manager (m : manager_loc) (s : BudgetKeyTimeframeManager) (o : Objects) : Objects :=
  with_managers (alter (set_manager_data s) m (manager_heap o)) o.

(** ** Construction and destruction *)

Definition NewManager : BudgetKeyTimeframeManager := mkManager (mkMap ∅ ∅ 0 false) ∅ ∅.

Definition make_manager (name : string) (id : Uuid) (o : Objects) : manager_loc * Objects :=
  let m := fresh (dom (manager_heap o)) in
  (m, with_managers (<[m := mkManagerObject name id NewManager]> (manager_heap o)) o).

Definition make_key (name : string) (id : Uuid) (o : Objects) : key_loc * Objects :=
  let k := fresh (dom (key_heap o)) in
  (k, with_keys (<[k := mkBudgetKey name id None None None]> (key_heap o)) o).

(** The failure of [UnsubscribeForRecovery] is ignored. *)
Definition unsubscribe (id : Uuid) (o : Objects) : Objects :=
  with_journal_service (UnsubscribeForRecovery id (journal_service_ o)).2 o.

Definition destroy_manager (m : option manager_loc) (o : Objects) : Objects :=
  match m ≫= (manager_heap o !!.) with
  | Some mo => unsubscribe (manager_id mo) o
  | None => o
  end.

(** The destructor's body, then the members. *)
Definition destroy_key (k : key_loc) (o : Objects) : Objects :=
  match key_heap o !! k with
  | Some key => destroy_manager (budget_key_timeframe_manager_ key) (unsubscribe (id_ key) o)
  | None => o
  end.

(** [BudgetKeyTimeframeManager::Init]. *)
Definition InitManager (m : manager_loc) (o : Objects) : option (ExecutionResult * Objects) :=
  mo ← manager_heap o !! m;
  let '(r, j) := SubscribeForRecovery (manager_id mo) (ManagerSubscriber m) (journal_service_ o) in
  Some (r, with_journal_service j o).

(** The assignments of a new manager and of a protocol on it; the manager and
    the protocol that were there are destroyed. *)
Definition assign_manager (k : key_loc) (m : manager_loc) (o : Objects) : option Objects :=
  key ← key_heap o !! k;
  let o := with_keys (<[k := mkBudgetKey (name_ key) (id_ key) (Some m) (Some m)
                               (batch_consume_budget_transaction_protocol_ key)]> (key_heap o)) o in
  Some (destroy_manager (budget_key_timeframe_manager_ key) o).

(** [~x] on [uint64_t]. *)
Definition complement (x : Z) : Z := u64 (Z.lnot x).

Definition GetTimeframeManagerId (id : Uuid) : Uuid := mkUuid (complement (high id)) (complement (low id)).

(** ** The operations *)

Module BudgetKey.
Section key.
  Context `{TimeframeLogs} `{BudgetKeyLogs}.

Definition Init (k : key_loc) (o : Objects) : option (ExecutionResult * Objects) :=
  key ← key_heap o !! k;
  let '(r, j) := SubscribeForRecovery (id_ key) (KeySubscriber k) (journal_service_ o) in
  Some (r, with_journal_service j o).

Definition Run (a : Answers) (k : key_loc) (o : Objects) : option (ExecutionResult * Objects) :=
  key ← key_heap o !! k;
  match budget_key_timeframe_manager_ key with
  | None => Some (FailureExecutionResult SC_BUDGET_KEY_TIMEFRAME_MANAGER_NOT_INITIALIZED, o)
  | Some m =>
      mo ← manager_heap o !! m;
      let '(r, s, _) := TimeframeManager.Run a (manager_data mo) in
      Some (r, write_manager m s o)
  end.

Definition Stop (drained : bool) (k : key_loc) (o : Objects) : option (ExecutionResult * Objects) :=
  key ← key_heap o !! k;
  match budget_key_timeframe_manager_ key with
  | None => Some (SuccessExecutionResult, o)
  | Some m =>
      mo ← manager_heap o !! m;
      let '(r, s) := TimeframeManager.Stop drained (manager_data mo) in
      Some (r, write_manager m s o)
  end.

Definition CanUnload (k : key_loc) (o : Objects) : option ExecutionResult :=
  key ← key_heap o !! k;
  match budget_key_timeframe_manager_ key with
  | None => Some SuccessExecutionResult
  | Some m => mo ← manager_heap o !! m; Some (TimeframeManager.CanUnload (manager_data mo))
  end.

Definition OnJournalServiceRecoverCallback (k : key_loc) (b : BytesBuffer) (o : Objects)
  : option (ExecutionResult * Objects) :=
  '(execution_result, timeframe_manager_id) ← read_key b;
  if negb (Successful execution_result) then Some (execution_result, o)
  else
    timeframe_manager_id ← timeframe_manager_id;
    key ← key_heap o !! k;
    let '(m, o) := make_manager (name_ key) timeframe_manager_id o in
    o ← assign_manager k m o;
    InitManager m o.

(** Gives the log to dispatch and the id its callback binds. *)
Definition LoadBudgetKey (a : Answers) (k : key_loc) (o : Objects)
  : option (ExecutionResult * option (JournalLogRequest * Uuid)) :=
  key ← key_heap o !! k;
  let timeframe_manager_id := GetTimeframeManagerId (id_ key) in
  '(execution_result, b) ← write_key timeframe_manager_id;
  if negb (Successful execution_result) then Some (execution_result, None)
  else Some (SuccessExecutionResult, Some (mkLogRequest (id_ key) (generated a 0%nat) b, timeframe_manager_id)).

(** Gives the result the load is finished with. *)
Definition OnLogLoadBudgetKeyCallback (k : key_loc) (timeframe_manager_id : Uuid) (result : ExecutionResult)
    (o : Objects) : option (ExecutionResult * Objects) :=
  if negb (Successful result) then Some (result, o)
  else
    key ← key_heap o !! k;
    let '(m, o) := make_manager (name_ key) timeframe_manager_id o in
    o ← assign_manager k m o;
    Some (SuccessExecutionResult, o).

(** Gives the manager and the times of the load it dispatches: the dispatcher
    calls the manager at once, which is undefined without a manager. *)
Definition GetBudget (k : key_loc) (time_bucket : Z) (o : Objects)
  : option (ExecutionResult * (manager_loc * list Z)) :=
  key ← key_heap o !! k;
  m ← budget_key_timeframe_manager_ key;
  Some (SuccessExecutionResult, (m, [time_bucket])).

(** The result and the tokens of the answer. *)
Definition OnBudgetLoaded (result : ExecutionResult) : ExecutionResult * option Z :=
  if negb (Successful result) then (result, None) else (result, Some kMaxToken).

(** The ids generated after the first [n]. *)
Definition answers_from (n : nat) (a : Answers) : Answers :=
  mkAnswers (now a) (key_table a) (λ i, generated a (n + i)%nat) (accepted a).

(** [n] ids have been generated before. *)
Definition Checkpoint (a : Answers) (n : nat) (k : key_loc) (o : Objects)
  : option (ExecutionResult * Objects * list JournalLogRequest) :=
  key ← key_heap o !! k;
  '(execution_result, b) ← write_key (GetTimeframeManagerId (id_ key));
  if negb (Successful execution_result) then Some (execution_result, o, [])
  else
    let log := mkLogRequest (id_ key) (generated a n) b in
    match budget_key_timeframe_manager_ key with
    | None => Some (SuccessExecutionResult, o, [log])
    | Some m =>
        mo ← manager_heap o !! m;
        '(r, s, checkpoint_logs) ←
          TimeframeManager.Checkpoint (manager_id mo) (answers_from (S n) a) (manager_data mo);
        Some (r, write_manager m s o, log :: checkpoint_logs)
    end.

End key.
End BudgetKey.
