(* ===== verification/BudgetKeyProvider.v ===== *)
(** * The budget key provider

    Models [cc/pbs/budget_key_provider/src/budget_key_provider.{h,cc}]: the cache
    of budget keys by name. A key that is asked for is put in the cache and
    journaled, then its own log is journaled, and then it runs; the collector
    removes keys without days after journaling the removal; logs and checkpoints
    restore the cache. The conventions are those of [TimeframeManager]. *)

From S2P Require Import Prelude ExecutionResult ErrorCodes Uuid ConcurrentMap Serialization AutoExpiryMap TimeframeLog TimeframeManager JournalService BudgetKey.
From stdpp Require Import options.

Local Open Scope Z_scope.

Definition pair_loc : Type := positive.

(** A [LoadableObject]. *)
Record BudgetKeyProviderPair := mkPair {
  budget_key : key_loc;
  pair_is_loaded : bool;
  pair_needs_loader : bool;
}.

Record BudgetKeyProvider := mkProvider {
  budget_keys_ : AutoExpiryConcurrentMap (K := string) (V := pair_loc);
  pair_heap : gmap pair_loc BudgetKeyProviderPair;
  objects : Objects;
}.

Definition with_budget_keys c (s : BudgetKeyProvider) := mkProvider c (pair_heap s) (objects s).
Definition with_pairs ps (s : BudgetKeyProvider) := mkProvider (budget_keys_ s) ps (objects s).
Definition with_objects o (s : BudgetKeyProvider) := mkProvider (budget_keys_ s) (pair_heap s) o.

(** Writes to fields of a shared pair. *)
Definition write_pair_needs_loader (b : bool) (p : BudgetKeyProviderPair) := mkPair (budget_key p) (pair_is_loaded p) b.
Definition write_pair_is_loaded (b : bool) (p : BudgetKeyProviderPair) := mkPair (budget_key p) b (pair_needs_loader p).
Definition write_pair_key (k : key_loc) (p : BudgetKeyProviderPair) := mkPair k (pair_is_loaded p) (pair_needs_loader p).

Definition on_pair (f : BudgetKeyProviderPair → BudgetKeyProviderPair) (p : pair_loc) (s : BudgetKeyProvider)
  : BudgetKeyProvider := with_pairs (alter f p (pair_heap s)) s.

Definition make_provider_pair (k : key_loc) (s : BudgetKeyProvider) : pair_loc * BudgetKeyProvider :=
  let p := fresh (dom (pair_heap s)) in (p, with_pairs (<[p := mkPair k false false]> (pair_heap s)) s).

(** [kBudgetKeyProviderCacheLifetimeSeconds], the lifetime extended on access,
    entries blocked while they are evicted. *)
Definition provider_config : Config := mkConfig 300 true true.

Definition kBudgetKeyProviderId : Uuid := mkUuid 0xFFFFFFF1 0x00000002.

(** ** Requests and calls *)

Record GetContext := mkGet { get_activity : Uuid; budget_key_name : string }.

(** A log dispatched to the journal by the provider, or by the key for the
    provider's load; a load dispatched to the key; the log of a removal; the
    decision about an element of the cache; the answer to a request, with the
    key. *)
Inductive ProviderAction :=
| DispatchLogLoad (request : JournalLogRequest) (ctx : GetContext) (p : pair_loc)
| DispatchLoadBudgetKey (ctx : GetContext) (p : pair_loc)
| DispatchLogKey (request : JournalLogRequest) (k : key_loc) (timeframe_manager_id : Uuid)
    (ctx : GetContext) (p : pair_loc)
| LogRemoval (request : JournalLogRequest) (element : string * loc) (p : pair_loc)
| should_delete_key (element : string * loc) (can_delete : bool)
| FinishGet (ctx : GetContext) (result : ExecutionResult) (key : option key_loc).

Module BudgetKeyProvider.
Section provider.
  Context `{TimeframeLogs} `{BudgetKeyLogs}.

Definition Init (s : BudgetKeyProvider) : ExecutionResult * BudgetKeyProvider :=
  let o := objects s in
  let '(r, j) := SubscribeForRecovery kBudgetKeyProviderId ProviderSubscriber (journal_service_ o) in
  (r, with_objects (with_journal_service j o) s).

(** ** Run *)

(** The loop over the recovered keys. *)
Fixpoint run_keys (a : Answers) (keys : list string) (s : BudgetKeyProvider)
  : option (ExecutionResult * BudgetKeyProvider) :=
  match keys with
  | [] => Some (SuccessExecutionResult, s)
  | key :: rest =>
      let '(execution_result, p, c) := AutoExpiryMap.Find provider_config (now a) (budget_keys_ s) key in
      let s := with_budget_keys c s in
      if negb (Successful execution_result) then Some (execution_result, s)
      else
        p ← p;
        budget_key_provider_pair ← pair_heap s !! p;
        '(execution_result, o) ← BudgetKey.Run a (budget_key budget_key_provider_pair) (objects s);
        let s := with_objects o s in
        if Successful execution_result then
          run_keys a rest (on_pair (write_pair_is_loaded true) p (on_pair (write_pair_needs_loader false) p s))
        else if negb (result_eqb execution_result
                        (FailureExecutionResult SC_BUDGET_KEY_TIMEFRAME_MANAGER_NOT_INITIALIZED)) then
          Some (execution_result, s)
        else
          run_keys a rest (on_pair (write_pair_needs_loader true) p (on_pair (write_pair_is_loaded false) p s))
  end.

Definition Run (a : Answers) (s : BudgetKeyProvider)
  : option (ExecutionResult * BudgetKeyProvider * list (AutoExpiryMap.Action (K := string) (V := pair_loc))) :=
  let '(execution_result, keys) := AutoExpiryMap.Keys (budget_keys_ s) in
  if negb (Successful execution_result) then Some (execution_result, s, [])
  else
    '(execution_result, s) ← run_keys a keys s;
    if negb (Successful execution_result) then Some (execution_result, s, [])
    else
      let '(r, c, actions) := AutoExpiryMap.Run provider_config (now a) (accepted a) (budget_keys_ s) in
      Some (r, with_budget_keys c s, actions).

(** ** Stop *)

Fixpoint stop_keys (a : Answers) (drained : bool) (keys : list string) (s : BudgetKeyProvider)
  : option (ExecutionResult * BudgetKeyProvider) :=
  match keys with
  | [] => Some (SuccessExecutionResult, s)
  | key :: rest =>
      let '(execution_result, p, c) := AutoExpiryMap.Find provider_config (now a) (budget_keys_ s) key in
      let s := with_budget_keys c s in
      if negb (Successful execution_result) then Some (execution_result, s)
      else
        p ← p;
        budget_key_provider_pair ← pair_heap s !! p;
        '(execution_result, o) ← BudgetKey.Stop drained (budget_key budget_key_provider_pair) (objects s);
        let s := with_objects o s in
        if negb (Successful execution_result) then Some (execution_result, s) else stop_keys a drained rest s
  end.

Definition Stop (a : Answers) (drained : bool) (s : BudgetKeyProvider)
  : option (ExecutionResult * BudgetKeyProvider) :=
  let '(execution_result, c) := AutoExpiryMap.Stop drained (budget_keys_ s) in
  let s := with_budget_keys c s in
  if negb (Successful execution_result) then Some (execution_result, s)
  else
    let '(execution_result, keys) := AutoExpiryMap.Keys (budget_keys_ s) in
    if negb (Successful execution_result) then Some (execution_result, s) else stop_keys a drained keys s.

(** ** Unloading a key *)

(** The log of the pair's key. *)
Definition serialize_pair (operation : OperationType) (p : pair_loc) (s : BudgetKeyProvider)
  : option (ExecutionResult * BytesBuffer) :=
  budget_key_provider_pair ← pair_heap s !! p;
  key ← key_heap (objects s) !! budget_key budget_key_provider_pair;
  write_pair operation (name_ key) (id_ key).

Definition log_request (a : Answers) (n : nat) (b : BytesBuffer) : JournalLogRequest :=
  mkLogRequest kBudgetKeyProviderId (generated a n) b.

Definition OnBeforeGarbageCollection (a : Answers) (p : pair_loc) (element : string * loc) (s : BudgetKeyProvider)
  : option (list ProviderAction) :=
  let keep := Some [should_delete_key element false] in
  budget_key_provider_pair ← pair_heap s !! p;
  can_unload ← BudgetKey.CanUnload (budget_key budget_key_provider_pair) (objects s);
  if negb (result_eqb can_unload SuccessExecutionResult) then keep
  else
    '(execution_result, b) ← serialize_pair DELETE_FROM_CACHE p s;
    if negb (Successful execution_result) then keep
    else
      let log := LogRemoval (log_request a 0 b) element p in
      if negb (Successful (accepted a)) then Some [log; should_delete_key element false]
      else Some [log].

Definition OnRemoveEntryFromCacheLogged (drained : bool) (element : string * loc) (p : pair_loc)
    (result : ExecutionResult) (s : BudgetKeyProvider) : option (BudgetKeyProvider * list ProviderAction) :=
  if Successful result then
    budget_key_provider_pair ← pair_heap s !! p;
    (* the result of [Stop] is only reported *)
    '(_, o) ← BudgetKey.Stop drained (budget_key budget_key_provider_pair) (objects s);
    Some (with_objects o s, [should_delete_key element true])
  else Some (s, [should_delete_key element false]).

(** ** Recovery *)

(** The log of a key that was loaded. *)
Definition recover_load (a : Answers) (name : string) (k : key_loc) (s : BudgetKeyProvider)
  : option (ExecutionResult * BudgetKeyProvider) :=
  let '(new_pair, s) := make_provider_pair k s in
  let '(insertion_result, out_value, c) :=
    AutoExpiryMap.Insert provider_config (now a) (budget_keys_ s) name new_pair in
  let s := with_budget_keys c s in
  let p := default new_pair out_value in
  let free_key s := with_objects (destroy_key k (objects s)) s in
  if negb (Successful insertion_result) then
    budget_key_provider_pair ← pair_heap s !! p;
    let old_k := budget_key budget_key_provider_pair in
    old_key ← key_heap (objects s) !! old_k;
    key ← key_heap (objects s) !! k;
    if uuid_neqb (id_ old_key) (id_ key) then Some (insertion_result, free_key s)
    else if decide (p = new_pair) then
      (* no pair of the map: the new pair is freed with its key *)
      '(r, o) ← BudgetKey.Init k (objects s);
      Some (r, free_key (with_objects o s))
    else
      let s := with_objects (destroy_key old_k (objects s)) (on_pair (write_pair_key k) p s) in
      '(r, o) ← BudgetKey.Init k (objects s);
      Some (r, with_objects o s)
  else
    '(r, o) ← BudgetKey.Init k (objects s);
    Some (r, with_objects o s).

(** The log of a key that was removed; a key that is not there is no error. *)
Definition recover_delete (a : Answers) (name : string) (s : BudgetKeyProvider)
  : option (ExecutionResult * BudgetKeyProvider) :=
  let '(execution_result, p, c) := AutoExpiryMap.Find provider_config (now a) (budget_keys_ s) name in
  let s := with_budget_keys c s in
  if negb (Successful execution_result) then
    if negb (status_code execution_result =? SC_CONCURRENT_MAP_ENTRY_DOES_NOT_EXIST) then Some (execution_result, s)
    else Some (SuccessExecutionResult, s)
  else
    budget_key_provider_pair ← p ≫= (pair_heap s !!.);
    let '(r, c) := AutoExpiryMap.Erase (budget_keys_ s) name in
    let s := with_budget_keys c s in
    Some (r, with_objects (destroy_key (budget_key budget_key_provider_pair) (objects s)) s).

Definition OnJournalServiceRecoverCallback (a : Answers) (b : BytesBuffer) (s : BudgetKeyProvider)
  : option (ExecutionResult * BudgetKeyProvider) :=
  '(execution_result, log) ← read_pair b;
  if negb (Successful execution_result) then Some (execution_result, s)
  else
    log ← log;
    let name := log_budget_key_name log in
    let '(k, o) := make_key name (log_key_id log) (objects s) in
    let s := with_objects o s in
    let free_key s := with_objects (destroy_key k (objects s)) s in
    match operation_type log with
    | LOAD_INTO_CACHE => recover_load a name k s
    | DELETE_FROM_CACHE => '(r, s) ← recover_delete a name s; Some (r, free_key s)
    | OPERATION_TYPE_UNKNOWN =>
        Some (FailureExecutionResult SC_BUDGET_KEY_PROVIDER_INVALID_OPERATION_TYPE, free_key s)
    end.

(** ** Loading a key *)

Definition LogLoadBudgetKeyIntoCache (a : Answers) (ctx : GetContext) (p : pair_loc) (s : BudgetKeyProvider)
  : option (ExecutionResult * list ProviderAction) :=
  '(execution_result, b) ← serialize_pair LOAD_INTO_CACHE p s;
  if negb (Successful execution_result) then Some (execution_result, [])
  else Some (SuccessExecutionResult, [DispatchLogLoad (log_request a 1 b) ctx p]).

(** The end of [GetBudgetKey], for the call that loads. *)
Definition start_load (a : Answers) (ctx : GetContext) (p : pair_loc) (s : BudgetKeyProvider)
  : option (ExecutionResult * BudgetKeyProvider * list ProviderAction) :=
  let '(execution_result, c) :=
    DisableEviction provider_config (now a) (budget_keys_ s) (budget_key_name ctx) in
  let s := with_budget_keys c s in
  if negb (Successful execution_result) then
    Some (RetryExecutionResult (status_code execution_result), s, [])
  else
    '(r, actions) ← LogLoadBudgetKeyIntoCache a ctx p s;
    Some (r, s, actions).

(** The call found the pair of the name in the cache. *)
Definition get_existing (a : Answers) (ctx : GetContext) (p : pair_loc) (s : BudgetKeyProvider)
  : option (ExecutionResult * BudgetKeyProvider * list ProviderAction) :=
  budget_key_provider_pair ← pair_heap s !! p;
  if pair_needs_loader budget_key_provider_pair then
    (* compare_exchange_strong(true, false) *)
    start_load a ctx p (on_pair (write_pair_needs_loader false) p s)
  else if negb (pair_is_loaded budget_key_provider_pair) then
    Some (RetryExecutionResult SC_BUDGET_KEY_PROVIDER_ENTRY_IS_LOADING, s, [])
  else
    Some (SuccessExecutionResult, s,
          [FinishGet ctx SuccessExecutionResult (Some (budget_key budget_key_provider_pair))]).

(** The first id generated is the new key's. *)
Definition GetBudgetKey (a : Answers) (ctx : GetContext) (s : BudgetKeyProvider)
  : option (ExecutionResult * BudgetKeyProvider * list ProviderAction) :=
  let '(k, o) := make_key (budget_key_name ctx) (generated a 0%nat) (objects s) in
  let '(new_pair, s) := make_provider_pair k (with_objects o s) in
  let '(execution_result, out_value, c) :=
    AutoExpiryMap.Insert provider_config (now a) (budget_keys_ s) (budget_key_name ctx) new_pair in
  let s := with_budget_keys c s in
  let p := default new_pair out_value in
  if negb (Successful execution_result) then
    (* the new pair and key are freed *)
    let s := with_objects (destroy_key k (objects s)) s in
    if negb (status_code execution_result =? SC_AUTO_EXPIRY_CONCURRENT_MAP_ENTRY_BEING_DELETED)
       && negb (status_code execution_result =? SC_CONCURRENT_MAP_ENTRY_ALREADY_EXISTS) then
      Some (execution_result, s, [])
    else if status_code execution_result =? SC_AUTO_EXPIRY_CONCURRENT_MAP_ENTRY_BEING_DELETED then
      Some (RetryExecutionResult (status_code execution_result), s, [])
    else get_existing a ctx p s
  else start_load a ctx p s.

(** A load that fails: another call may load. *)
Definition fail_get (ctx : GetContext) (p : pair_loc) (r : ExecutionResult) (s : BudgetKeyProvider)
  : BudgetKeyProvider * list ProviderAction :=
  (on_pair (write_pair_needs_loader true) p s, [FinishGet ctx r None]).

(** [EnableEviction] of the pair's key; its failure is only reported. *)
Definition enable_eviction (a : Answers) (p : pair_loc) (s : BudgetKeyProvider) : option BudgetKeyProvider :=
  budget_key_provider_pair ← pair_heap s !! p;
  key ← key_heap (objects s) !! budget_key budget_key_provider_pair;
  Some (with_budget_keys (EnableEviction provider_config (now a) (budget_keys_ s) (name_ key)).2 s).

Definition OnLogLoadBudgetKeyIntoCacheCallback (a : Answers) (ctx : GetContext) (p : pair_loc)
    (result : ExecutionResult) (s : BudgetKeyProvider) : option (BudgetKeyProvider * list ProviderAction) :=
  if negb (Successful result) then
    s ← enable_eviction a p (on_pair (write_pair_needs_loader true) p s);
    Some (s, [FinishGet ctx result None])
  else Some (s, [DispatchLoadBudgetKey ctx p]).

(** A call of [LoadBudgetKey] by the dispatcher. *)
Definition call_load_budget_key (a : Answers) (ctx : GetContext) (p : pair_loc) (s : BudgetKeyProvider)
  : option (ExecutionResult * list ProviderAction) :=
  budget_key_provider_pair ← pair_heap s !! p;
  '(r, request) ← BudgetKey.LoadBudgetKey a (budget_key budget_key_provider_pair) (objects s);
  Some (r, match request with
           | Some (request, timeframe_manager_id) =>
               [DispatchLogKey request (budget_key budget_key_provider_pair) timeframe_manager_id ctx p]
           | None => []
           end).

Definition OnLoadBudgetKeyCallback (a : Answers) (ctx : GetContext) (p : pair_loc) (result : ExecutionResult)
    (s : BudgetKeyProvider) : option (BudgetKeyProvider * list ProviderAction) :=
  s ← enable_eviction a p s;
  if negb (Successful result) then Some (fail_get ctx p result s)
  else
    budget_key_provider_pair ← pair_heap s !! p;
    '(execution_result, o) ← BudgetKey.Run a (budget_key budget_key_provider_pair) (objects s);
    let s := with_objects o s in
    if negb (Successful execution_result) then Some (fail_get ctx p execution_result s)
    else
      Some (on_pair (write_pair_is_loaded true) p s,
            [FinishGet ctx SuccessExecutionResult (Some (budget_key budget_key_provider_pair))]).

(** The key's log is answered: the callback of the key, which calls the
    provider's. *)
Definition OnLogKeyCallback (a : Answers) (k : key_loc) (timeframe_manager_id : Uuid) (ctx : GetContext)
    (p : pair_loc) (result : ExecutionResult) (s : BudgetKeyProvider)
  : option (BudgetKeyProvider * list ProviderAction) :=
  '(r, o) ← BudgetKey.OnLogLoadBudgetKeyCallback k timeframe_manager_id result (objects s);
  OnLoadBudgetKeyCallback a ctx p r (with_objects o s).

(** ** Checkpoint *)

(** The first loop: the provider's log of each key. *)
Fixpoint checkpoint_pairs (a : Answers) (n : nat) (keys : list string) (s : BudgetKeyProvider)
  : option (ExecutionResult * BudgetKeyProvider * list JournalLogRequest) :=
  match keys with
  | [] => Some (SuccessExecutionResult, s, [])
  | key :: rest =>
      let '(execution_result, p, c) := AutoExpiryMap.Find provider_config (now a) (budget_keys_ s) key in
      let s := with_budget_keys c s in
      if negb (Successful execution_result) then Some (execution_result, s, [])
      else
        p ← p;
        '(execution_result, b) ← serialize_pair LOAD_INTO_CACHE p s;
        if negb (Successful execution_result) then Some (execution_result, s, [])
        else
          '(r, s, checkpoint_logs) ← checkpoint_pairs a (S n) rest s;
          Some (r, s, log_request a n b :: checkpoint_logs)
  end.

(** The second loop: the checkpoint of each key. *)
Fixpoint checkpoint_keys (a : Answers) (n : nat) (keys : list string) (s : BudgetKeyProvider)
  : option (ExecutionResult * BudgetKeyProvider * list JournalLogRequest) :=
  match keys with
  | [] => Some (SuccessExecutionResult, s, [])
  | key :: rest =>
      let '(execution_result, p, c) := AutoExpiryMap.Find provider_config (now a) (budget_keys_ s) key in
      let s := with_budget_keys c s in
      if negb (Successful execution_result) then Some (execution_result, s, [])
      else
        p ← p;
        budget_key_provider_pair ← pair_heap s !! p;
        '(execution_result, o, logs) ←
          BudgetKey.Checkpoint a n (budget_key budget_key_provider_pair) (objects s);
        let s := with_objects o s in
        if negb (Successful execution_result) then Some (execution_result, s, logs)
        else
          '(r, s, checkpoint_logs) ← checkpoint_keys a (n + length logs) rest s;
          Some (r, s, logs ++ checkpoint_logs)
  end.

Definition Checkpoint (a : Answers) (s : BudgetKeyProvider)
  : option (ExecutionResult * BudgetKeyProvider * list JournalLogRequest) :=
  let '(execution_result, keys) := AutoExpiryMap.Keys (budget_keys_ s) in
  if negb (Successful execution_result) then Some (execution_result, s, [])
  else
    '(execution_result, s, pair_logs) ← checkpoint_pairs a 0 keys s;
    if negb (Successful execution_result) then Some (execution_result, s, pair_logs)
    else
      '(r, s, key_logs) ← checkpoint_keys a (length pair_logs) keys s;
      Some (r, s, pair_logs ++ key_logs).

(** ** The provider, its keys and their managers under the journal *)

#[export] Instance provider_recoverable (a : Answers) : Recoverable BudgetKeyProvider Subscriber := {|
  journal_of s := journal_service_ (objects s);
  with_journal j s := with_objects (with_journal_service j (objects s)) s;
  recover_log callback b s :=
    match callback with
    | ProviderSubscriber => OnJournalServiceRecoverCallback a b s
    | KeySubscriber k =>
        '(r, o) ← BudgetKey.OnJournalServiceRecoverCallback k b (objects s);
        Some (r, with_objects o s)
    | ManagerSubscriber m =>
        mo ← manager_heap (objects s) !! m;
        '(r, d) ← TimeframeManager.OnJournalServiceRecoverCallback a (manager_data mo) b;
        Some (r, with_objects (write_manager m d (objects s)) s)
    end;
|}.

End provider.
End BudgetKeyProvider.
