(* ===== verification/BudgetKeySystem.v ===== *)
(** * The budget key provider with the journal and the collector

    The handlers of [BudgetKeyProvider] as a transition system: calls of clients,
    answers to the logs in flight, rounds of the collector, and whatever the
    timeframe managers do, in any order, from a provider that runs after its
    recovery. A key that a client is given is loaded and is the one it asked for,
    one call at a time loads a key, and a loaded key keeps its timeframe manager. *)

From S2P Require Import Prelude ExecutionResult ErrorCodes Uuid ConcurrentMap Serialization AutoExpiryMap AutoExpiryView TimeframeLog TimeframeManager JournalService BudgetKey BudgetKeyProvider.
From stdpp Require Import options.

Local Open Scope Z_scope.

Record ProviderSystem := mkProviderSystem {
  provider : BudgetKeyProvider;
  in_flight : list ProviderAction;
}.

(** The calls that will be answered. *)
Definition is_awaited (a : Answers) (action : ProviderAction) : bool :=
  match action with
  | LogRemoval _ _ _ => Successful (accepted a)
  | DispatchLogLoad _ _ _ | DispatchLoadBudgetKey _ _ | DispatchLogKey _ _ _ _ _ | should_delete_key _ _ => true
  | FinishGet _ _ _ => false
  end.

Definition awaited (a : Answers) (actions : list ProviderAction) : list ProviderAction :=
  filter (λ action, is_awaited a action = true) actions.

Section system.
  Context `{TimeframeLogs} `{BudgetKeyLogs}.

(** The provider's part of a round of the collector. *)
Fixpoint offered (a : Answers) (s : BudgetKeyProvider)
    (calls : list (AutoExpiryMap.Action (K := string) (V := pair_loc))) : option (list ProviderAction) :=
  match calls with
  | [] => Some []
  | OnBeforeElementDeletion _ p element :: rest =>
      actions ← BudgetKeyProvider.OnBeforeGarbageCollection a p element s;
      more ← offered a s rest;
      Some (actions ++ more)
  | ScheduleFor _ :: rest => offered a s rest
  end.

(** A step makes the calls it is labelled with. *)
Inductive step : ProviderSystem → list ProviderAction → ProviderSystem → Prop :=
| step_get a s ctx r s' actions fl :
    BudgetKeyProvider.GetBudgetKey a ctx s = Some (r, s', actions) →
    step (mkProviderSystem s fl) actions (mkProviderSystem s' (fl ++ awaited a actions))
| step_pair_logged a s request ctx p result s' actions fl1 fl2 :
    BudgetKeyProvider.OnLogLoadBudgetKeyIntoCacheCallback a ctx p result s = Some (s', actions) →
    step (mkProviderSystem s (fl1 ++ DispatchLogLoad request ctx p :: fl2)) actions
         (mkProviderSystem s' ((fl1 ++ fl2) ++ awaited a actions))
| step_load_key a s ctx p r actions fl1 fl2 :
    BudgetKeyProvider.call_load_budget_key a ctx p s = Some (r, actions) → Successful r = true →
    step (mkProviderSystem s (fl1 ++ DispatchLoadBudgetKey ctx p :: fl2)) actions
         (mkProviderSystem s ((fl1 ++ fl2) ++ awaited a actions))
| step_load_key_failed a s ctx p r actions s' more fl1 fl2 :
    BudgetKeyProvider.call_load_budget_key a ctx p s = Some (r, actions) → Successful r = false →
    BudgetKeyProvider.OnLoadBudgetKeyCallback a ctx p r s = Some (s', more) →
    step (mkProviderSystem s (fl1 ++ DispatchLoadBudgetKey ctx p :: fl2)) more
         (mkProviderSystem s' ((fl1 ++ fl2) ++ awaited a more))
| step_key_logged a s request k timeframe_manager_id ctx p result s' actions fl1 fl2 :
    BudgetKeyProvider.OnLogKeyCallback a k timeframe_manager_id ctx p result s = Some (s', actions) →
    step (mkProviderSystem s (fl1 ++ DispatchLogKey request k timeframe_manager_id ctx p :: fl2)) actions
         (mkProviderSystem s' ((fl1 ++ fl2) ++ awaited a actions))
| step_round a s locked scheduled c calls actions fl :
    RunGarbageCollector provider_config locked (now a) scheduled (budget_keys_ s) = (c, calls) →
    offered a (with_budget_keys c s) calls = Some actions →
    step (mkProviderSystem s fl) actions (mkProviderSystem (with_budget_keys c s) (fl ++ awaited a actions))
| step_removal_logged a s drained request element p result s' actions fl1 fl2 :
    BudgetKeyProvider.OnRemoveEntryFromCacheLogged drained element p result s = Some (s', actions) →
    step (mkProviderSystem s (fl1 ++ LogRemoval request element p :: fl2)) actions
         (mkProviderSystem s' ((fl1 ++ fl2) ++ awaited a actions))
| step_answer a s element can_delete scheduled c calls fl1 fl2 :
    AutoExpiryMap.OnRemoveEntryFromCacheLogged provider_config (now a) scheduled
      (budget_keys_ s) element can_delete = (c, calls) →
    step (mkProviderSystem s (fl1 ++ should_delete_key element can_delete :: fl2)) []
         (mkProviderSystem (with_budget_keys c s) (fl1 ++ fl2))
| step_manager s m d fl :
    step (mkProviderSystem s fl) [] (mkProviderSystem (with_objects (write_manager m d (objects s)) s) fl).

End system.

(** ** What holds of a running provider *)

(** The key has a timeframe manager of its name and id, and the protocol works
    on it. *)
Definition ready (o : Objects) (key : BudgetKey) : Prop :=
  ∃ m mo, budget_key_timeframe_manager_ key = Some m ∧ consume_budget_transaction_protocol_ key = Some m ∧
    manager_heap o !! m = Some mo ∧
    manager_id mo = GetTimeframeManagerId (id_ key) ∧ manager_key_name mo = name_ key.

(** The pair an action loads. *)
Definition loading_pair (action : ProviderAction) : option pair_loc :=
  match action with
  | DispatchLogLoad _ _ p | DispatchLoadBudgetKey _ p | DispatchLogKey _ _ _ _ p => Some p
  | _ => None
  end.

Definition loads (fl : list ProviderAction) (p : pair_loc) : nat :=
  length (filter (λ action, loading_pair action = Some p) fl).

(** A pair that [n] calls load. *)
Definition pair_ok (o : Objects) (n : nat) (pair : BudgetKeyProviderPair) : Prop :=
  ∃ key, key_heap o !! budget_key pair = Some key ∧ batch_consume_budget_transaction_protocol_ key = None ∧
    (pair_is_loaded pair = true → n = 0%nat ∧ pair_needs_loader pair = false ∧ ready o key) ∧
    (pair_needs_loader pair = true → n = 0%nat) ∧ (n ≤ 1)%nat.

(** The key of a pair. *)
Definition pair_key (s : BudgetKeyProvider) (p : pair_loc) (pair : BudgetKeyProviderPair) (key : BudgetKey) : Prop :=
  pair_heap s !! p = Some pair ∧ key_heap (objects s) !! budget_key pair = Some key.

(** A call in flight is about a pair whose key has the name that was asked for. *)
Definition action_ok (s : BudgetKeyProvider) (action : ProviderAction) : Prop :=
  match action with
  | DispatchLogLoad _ ctx p | DispatchLoadBudgetKey ctx p =>
      ∃ pair key, pair_key s p pair key ∧ name_ key = budget_key_name ctx
  | DispatchLogKey _ k timeframe_manager_id ctx p =>
      ∃ pair key, pair_key s p pair key ∧ name_ key = budget_key_name ctx ∧
        budget_key pair = k ∧ timeframe_manager_id = GetTimeframeManagerId (id_ key)
  | _ => True
  end.

Record invariant (σ : ProviderSystem) : Prop := {
  inv_cache : well_formed_map (budget_keys_ (provider σ));
  inv_names name r : entries (budget_keys_ (provider σ)) !! name = Some r →
    ∃ pair key, pair_key (provider σ) (entry r) pair key ∧ name_ key = name;
  inv_pairs p pair : pair_heap (provider σ) !! p = Some pair →
    pair_ok (objects (provider σ)) (loads (in_flight σ) p) pair;
  inv_owner p1 p2 pair1 pair2 :
    pair_heap (provider σ) !! p1 = Some pair1 → pair_heap (provider σ) !! p2 = Some pair2 →
    budget_key pair1 = budget_key pair2 → p1 = p2;
  inv_actions : Forall (action_ok (provider σ)) (in_flight σ);
}.

(** ** Counting loads *)

Lemma key_loads_app fl1 fl2 p : loads (fl1 ++ fl2) p = (loads fl1 p + loads fl2 p)%nat.
Proof. unfold loads. by rewrite filter_app, length_app. Qed.

Lemma key_loads_cons action fl p :
  loads (action :: fl) p = ((if decide (loading_pair action = Some p) then 1 else 0) + loads fl p)%nat.
Proof. unfold loads. rewrite filter_cons. by case_decide. Qed.

Lemma key_loads_middle fl1 action fl2 p :
  loads (fl1 ++ action :: fl2) p
  = ((if decide (loading_pair action = Some p) then 1 else 0) + loads (fl1 ++ fl2) p)%nat.
Proof. rewrite !key_loads_app, key_loads_cons. lia. Qed.

(** Actions that load nothing. *)
Definition no_loads (actions : list ProviderAction) : Prop := Forall (λ action, loading_pair action = None) actions.

Lemma no_loads_awaited a actions p : no_loads actions → loads (awaited a actions) p = 0%nat.
Proof.
  unfold loads, awaited. induction 1 as [|action actions Ha _ IH]; [done|]. rewrite filter_cons.
  case_decide; [|done]. rewrite filter_cons, decide_False by congruence. exact IH.
Qed.

Lemma no_loads_ok s actions : no_loads actions → Forall (action_ok s) actions.
Proof. intros Hn. eapply Forall_impl; [exact Hn|]. by intros [] Ha. Qed.

Lemma awaited_elem a actions action : action ∈ awaited a actions → action ∈ actions.
Proof. unfold awaited. by intros [_ Hin]%list_elem_of_filter. Qed.

(** ** Growing stores *)

Definition managers_grow (o o' : Objects) : Prop :=
  ∀ m mo, manager_heap o !! m = Some mo → ∃ mo', manager_heap o' !! m = Some mo' ∧
    manager_id mo' = manager_id mo ∧ manager_key_name mo' = manager_key_name mo.

(** Pairs keep their key, and keys their name and id. *)
Definition grows (s s' : BudgetKeyProvider) : Prop :=
  ∀ p pair key, pair_key s p pair key → ∃ pair' key', pair_key s' p pair' key' ∧
    budget_key pair' = budget_key pair ∧ name_ key' = name_ key ∧ id_ key' = id_ key.

(** A loaded pair and its key do not change. *)
Definition loaded_kept (s s' : BudgetKeyProvider) : Prop :=
  ∀ p pair key, pair_key s p pair key → pair_is_loaded pair = true → pair_key s' p pair key.

Lemma loaded_kept_trans s1 s2 s3 : loaded_kept s1 s2 → loaded_kept s2 s3 → loaded_kept s1 s3.
Proof. unfold loaded_kept. eauto. Qed.

Lemma managers_grow_refl o : managers_grow o o.
Proof. intros m mo Hm. by exists mo. Qed.

Lemma managers_grow_trans o1 o2 o3 : managers_grow o1 o2 → managers_grow o2 o3 → managers_grow o1 o3.
Proof.
  intros H12 H23 m mo Hm. destruct (H12 m mo Hm) as (mo2 & Hm2 & ? & ?).
  destruct (H23 m mo2 Hm2) as (mo3 & Hm3 & ? & ?). exists mo3. split_and!; congruence.
Qed.

Lemma managers_grow_write m d o : managers_grow o (write_manager m d o).
Proof.
  intros m' mo Hm'. simpl. destruct (decide (m' = m)) as [->|].
  - exists (set_manager_data d mo). by rewrite lookup_alter_eq, Hm'.
  - exists mo. by rewrite lookup_alter_ne.
Qed.

Lemma ready_grow o o' key : managers_grow o o' → ready o key → ready o' key.
Proof.
  intros Hg (m & mo & H1 & H2 & H3 & H4 & H5). destruct (Hg m mo H3) as (mo' & ? & ? & ?).
  exists m, mo'. split_and!; congruence.
Qed.

Lemma pair_ok_grow o o' n pair : managers_grow o o' →
  key_heap o' !! budget_key pair = key_heap o !! budget_key pair → pair_ok o n pair → pair_ok o' n pair.
Proof.
  intros Hg Hk (key & Hkey & Hb & Hl & Hn & Hle). exists key. rewrite Hk. split_and!; try done.
  intros Hload. destruct (Hl Hload) as (? & ? & ?). split_and!; try done. by eapply ready_grow.
Qed.

Lemma action_ok_grows s s' action : grows s s' → action_ok s action → action_ok s' action.
Proof.
  intros Hg. destruct action; simpl; try done.
  - intros (pair & key & Hp & Hn). destruct (Hg _ _ _ Hp) as (pair' & key' & ? & ? & ? & ?).
    exists pair', key'. split; congruence.
  - intros (pair & key & Hp & Hn). destruct (Hg _ _ _ Hp) as (pair' & key' & ? & ? & ? & ?).
    exists pair', key'. split; congruence.
  - intros (pair & key & Hp & Hn & Hk & Ht). destruct (Hg _ _ _ Hp) as (pair' & key' & ? & ? & ? & ?).
    exists pair', key'. split_and!; congruence.
Qed.

(** ** Invariance *)

(** The names of a cache after a change of it. *)
Definition names_kept (s s' : BudgetKeyProvider) : Prop :=
  ∀ name r', entries (budget_keys_ s') !! name = Some r' →
    (∃ r, entries (budget_keys_ s) !! name = Some r ∧ entry r' = entry r) ∨
    ∃ pair key, pair_key s' (entry r') pair key ∧ name_ key = name.

Lemma names_kept_refl s s' : budget_keys_ s' = budget_keys_ s → names_kept s s'.
Proof. intros He name r'. rewrite He. intros Hr. left. by exists r'. Qed.

(** Nothing happens to pairs and keys. *)
Lemma invariant_frame s s' fl fl' :
  invariant (mkProviderSystem s fl) → well_formed_map (budget_keys_ s') → names_kept s s' →
  pair_heap s' = pair_heap s → key_heap (objects s') = key_heap (objects s) →
  managers_grow (objects s) (objects s') → (∀ p, loads fl' p = loads fl p) →
  (∀ action, action ∈ fl' → action ∈ fl ∨ action_ok s' action) →
  invariant (mkProviderSystem s' fl') ∧ loaded_kept s s'.
Proof.
  intros I W Hnames Hp Hk Hm Hl Ha.
  assert (∀ p pair key, pair_key s p pair key → pair_key s' p pair key) as Hpk.
  { intros p pair key [H1 H2]. by split; rewrite ?Hp, ?Hk. }
  split; [|by intros p pair key Hpair _; apply Hpk]. constructor; simpl.
  - done.
  - intros name r' Hr'. destruct (Hnames _ _ Hr') as [(r & Hr & ->)|?]; [|done].
    destruct (inv_names _ I name r Hr) as (pair & key & ? & ?). exists pair, key. split; [by apply Hpk|done].
  - intros p pair. rewrite Hp, Hl. intros Hpair. eapply pair_ok_grow; [exact Hm|by rewrite Hk|].
    by apply (inv_pairs _ I).
  - intros p1 p2 pair1 pair2. rewrite Hp. apply (inv_owner _ I).
  - apply Forall_forall. intros action Hin. destruct (Ha _ Hin) as [Hin'|?]; [|done].
    pose proof (inv_actions _ I) as Hok. rewrite Forall_forall in Hok. eapply action_ok_grows; [|by apply Hok].
    intros p pair key Hpair. exists pair, key. split; [by apply Hpk|done].
Qed.

(** One pair and its key change, or are new. *)
Lemma invariant_focus s s' fl fl' p pair' key' :
  invariant (mkProviderSystem s fl) → well_formed_map (budget_keys_ s') → names_kept s s' →
  managers_grow (objects s) (objects s') →
  pair_key s' p pair' key' → pair_ok (objects s') (loads fl' p) pair' →
  (∀ q, q ≠ p → pair_heap s' !! q = pair_heap s !! q) →
  (∀ k, k ≠ budget_key pair' → key_heap (objects s') !! k = key_heap (objects s) !! k) →
  (∀ pair, pair_heap s !! p = Some pair → ∃ key, key_heap (objects s) !! budget_key pair = Some key ∧
     budget_key pair' = budget_key pair ∧ name_ key' = name_ key ∧ id_ key' = id_ key ∧
     (pair_is_loaded pair = true → pair' = pair ∧ key' = key)) →
  (pair_heap s !! p = None → key_heap (objects s) !! budget_key pair' = None) →
  (∀ q, q ≠ p → loads fl' q = loads fl q) →
  (∀ action, action ∈ fl' → action ∈ fl ∨ action_ok s' action) →
  invariant (mkProviderSystem s' fl') ∧ loaded_kept s s'.
Proof.
  intros I W Hnames Hm Hpk Hok Hp Hk Hold Hnew Hl Ha.
  assert (∀ q pair, q ≠ p → pair_heap s !! q = Some pair → budget_key pair ≠ budget_key pair') as Hne.
  { intros q pair Hq Hpair Heq. destruct (inv_pairs _ I q pair Hpair) as (key & Hkey & _).
    simpl in Hkey. destruct (pair_heap s !! p) as [pair0|] eqn:Hp0.
    - destruct (Hold _ eq_refl) as (key0 & _ & Hb & _). apply Hq. apply (inv_owner _ I q p pair pair0); [done..|congruence].
    - rewrite Heq, (Hnew eq_refl) in Hkey. done. }
  assert (grows s s') as Hgrow.
  { intros q pair key [Hpair Hkey]. destruct (decide (q = p)) as [->|Hq].
    - destruct (Hold _ Hpair) as (key0 & Hkey0 & ? & ? & ? & _). exists pair', key'.
      assert (key0 = key) as -> by congruence. split; [exact Hpk|done].
    - exists pair, key. split; [|done]. split; [by rewrite Hp|]. rewrite Hk; [done|]. by apply (Hne q). }
  split.
  - constructor; simpl.
    + done.
    + intros name r' Hr'. destruct (Hnames _ _ Hr') as [(r & Hr & ->)|?]; [|done].
      destruct (inv_names _ I name r Hr) as (pair & key & Hpair & Hn).
      destruct (Hgrow _ _ _ Hpair) as (pair1 & key1 & ? & _ & ? & _). exists pair1, key1. split; [done|congruence].
    + intros q pair Hpair. destruct (decide (q = p)) as [->|Hq].
      * destruct Hpk as [Hp' _]. assert (pair = pair') as -> by congruence. done.
      * rewrite Hp in Hpair by done. rewrite Hl by done. eapply pair_ok_grow; [exact Hm| |by apply (inv_pairs _ I)].
        apply Hk. by apply (Hne q).
    + intros p1 p2 pair1 pair2 H1 H2 Heq. destruct Hpk as [Hp' _].
      destruct (decide (p1 = p)) as [->|H1p], (decide (p2 = p)) as [->|H2p]; [done|..].
      * rewrite Hp in H2 by done. assert (pair1 = pair') as -> by congruence. by destruct (Hne p2 pair2 H2p H2).
      * rewrite Hp in H1 by done. assert (pair2 = pair') as -> by congruence. by destruct (Hne p1 pair1 H1p H1).
      * rewrite Hp in H1, H2 by done. by apply (inv_owner _ I p1 p2 pair1 pair2).
    + apply Forall_forall. intros action Hin. destruct (Ha _ Hin) as [Hin'|?]; [|done].
      pose proof (inv_actions _ I) as Hoks. rewrite Forall_forall in Hoks.
      eapply action_ok_grows; [exact Hgrow|by apply Hoks].
  - intros q pair key [Hpair Hkey] Hload. destruct (decide (q = p)) as [->|Hq].
    + destruct (Hold _ Hpair) as (key0 & Hkey0 & _ & _ & _ & Hsame). destruct (Hsame Hload) as [-> ->].
      assert (key0 = key) as -> by congruence. done.
    + split; [by rewrite Hp|]. rewrite Hk; [done|]. by apply (Hne q).
Qed.

(** A pair that is not there is not loaded. *)
Lemma loads_fresh s fl p : Forall (action_ok s) fl → pair_heap s !! p = None → loads fl p = 0%nat.
Proof.
  intros Hoks Hp. induction Hoks as [|action fl Hok _ IH]; [done|].
  rewrite key_loads_cons, IH. case_decide as Hl; [|done].
  exfalso. destruct action; simpl in *; simplify_eq; destruct Hok as (? & ? & [? _] & _); congruence.
Qed.

(** ** The cache *)

(** The names of [c'] have the pairs they have in [c]. *)
Definition entries_from (c c' : AutoExpiryConcurrentMap (K := string) (V := pair_loc)) : Prop :=
  ∀ name r', entries c' !! name = Some r' → ∃ r, entries c !! name = Some r ∧ entry r' = entry r.

Lemma entries_from_kept s s' : entries_from (budget_keys_ s) (budget_keys_ s') → names_kept s s'.
Proof. intros He name r' Hr'. left. by apply He. Qed.

Lemma weaker_map (c c' : AutoExpiryConcurrentMap (K := string) (V := pair_loc)) :
  well_formed_map c → concurrent_map_ c' ⊆ concurrent_map_ c →
  (∀ l, entry <$> records c' !! l = entry <$> records c !! l) →
  well_formed_map c' ∧ entries_from c c'.
Proof.
  intros W Hm Hr. split.
  - constructor.
    + intros key l Hl. destruct (pointers_valid _ W key l) as [r Hl']; [by eapply lookup_weaken|].
      specialize (Hr l). rewrite Hl' in Hr. destruct (records c' !! l); [by eexists|done].
    + intros k1 k2 l H1 H2. apply (pointers_distinct _ W k1 k2 l); by eapply lookup_weaken.
  - intros name r' (l & Hl & Hr')%entries_Some. pose proof (lookup_weaken _ _ _ _ Hl Hm) as Hl'.
    specialize (Hr l). rewrite Hr' in Hr. destruct (records c !! l) as [r|] eqn:Hr0; [|done].
    exists r. split; [by apply entries_Some; eauto|]. by injection Hr.
Qed.

Lemma write_evictable_from flag now c name : well_formed_map c →
  well_formed_map (write_evictable provider_config flag now c name).2 ∧
  entries_from c (write_evictable provider_config flag now c name).2.
Proof.
  intros W. destruct (write_evictable_answers provider_config now flag c name W) as (c' & W' & Hc).
  destruct (entries c !! name) as [r|] eqn:Hr.
  - destruct (being_evicted r).
    + destruct Hc as [-> He]. split; [done|]. intros n r'. simpl. rewrite He. by exists r'.
    + destruct Hc as [-> He]. split; [done|]. intros n r'. simpl. rewrite He.
      intros [[<- <-]|[_ Hr']]%lookup_insert_Some; [|by exists r']. exists r. split; [done|]. simpl.
      by destruct (extended_flags now provider_config r) as (_ & _ & ->).
  - destruct Hc as [-> He]. split; [done|]. intros n r'. simpl. rewrite He. by exists r'.
Qed.

Lemma Insert_from now c name p r out c' :
  AutoExpiryMap.Insert provider_config now c name p = (r, out, c') → well_formed_map c → well_formed_map c' ∧
  if Successful r then out = Some p ∧ ∀ n r', entries c' !! n = Some r' →
    n = name ∧ entry r' = p ∨ ∃ r0, entries c !! n = Some r0 ∧ entry r' = entry r0
  else entries_from c c' ∧
    (status_code r = SC_CONCURRENT_MAP_ENTRY_ALREADY_EXISTS →
     ∃ r0, out = Some (entry r0) ∧ entries c !! name = Some r0).
Proof.
  intros Hi W. destruct (Insert_answers provider_config now eq_refl eq_refl c name p W) as (c1 & W1 & Hc).
  rewrite Hi in Hc. destruct (entries c !! name) as [r0|] eqn:Hr0.
  - destruct (being_evicted r0); destruct Hc as [[= -> -> ->] He]; (split; [done|]).
    + change (Successful (FailureExecutionResult _)) with false. cbn iota. split; [|by vm_compute].
      intros n r' Hr'. rewrite He in Hr'. by exists r'.
    + change (Successful (FailureExecutionResult _)) with false. cbn iota. split; [|by exists r0].
      intros n r'. rewrite He. intros [[<- <-]|[_ Hr']]%lookup_insert_Some; [|by exists r']. exists r0. split; [done|].
      by destruct (extended_flags now provider_config r0) as (_ & _ & ->).
  - destruct Hc as [[= -> -> ->] He]. split; [done|]. change (Successful SuccessExecutionResult) with true. cbn iota.
    split; [done|]. intros n r'. rewrite He. intros [[<- <-]|[_ Hr']]%lookup_insert_Some; [by left|right; by exists r'].
Qed.

Lemma RunGarbageCollector_from locked now scheduled c c' calls :
  RunGarbageCollector provider_config locked now scheduled c = (c', calls) → well_formed_map c →
  well_formed_map c' ∧ entries_from c c'.
Proof.
  unfold RunGarbageCollector. intros Hr W. destruct (Keys c) as [r keys].
  destruct (negb (Successful r)); [injection Hr as <- _; by apply weaker_map|].
  rewrite select_elements_spec in Hr.
  destruct (Nat.eqb _ 0); injection Hr as <- _; apply weaker_map; try done; intros l; simpl;
    rewrite mark_evicted_lookup; by case_decide; destruct (records c !! l).
Qed.

Lemma OnRemove_from now scheduled c element can_delete c' calls :
  AutoExpiryMap.OnRemoveEntryFromCacheLogged provider_config now scheduled c element can_delete = (c', calls) →
  well_formed_map c → well_formed_map c' ∧ entries_from c c'.
Proof.
  destruct element as [key l]. unfold AutoExpiryMap.OnRemoveEntryFromCacheLogged. intros Hr W.
  assert (∀ l', entry <$> alter (set_being_evicted false) l (records c) !! l' = entry <$> records c !! l') as Halter.
  { intros l'. destruct (decide (l' = l)) as [->|]; [|by rewrite lookup_alter_ne].
    rewrite lookup_alter_eq. by destruct (records c !! l). }
  set (c1 := if can_delete then _ else _) in Hr.
  assert (concurrent_map_ c1 ⊆ concurrent_map_ c ∧ ∀ l', entry <$> records c1 !! l' = entry <$> records c !! l') as [Hm Hv].
  { unfold c1, AutoExpiryMap.Erase. destruct can_delete; [|done].
    destruct (concurrent_map_ c !! key) as [l0|] eqn:Hl0.
    - rewrite (ConcurrentMap.Erase_Some _ _ _ Hl0). simpl. split; [apply delete_subseteq|done].
    - rewrite (ConcurrentMap.Erase_None _ _ Hl0). simpl. split; [done|apply Halter]. }
  destruct (negb _); injection Hr as <- _; by apply weaker_map.
Qed.

(** ** The handlers *)

(** A request that is finished with a key has one of the name asked for, which
    is ready, for single budgets. *)
Definition served (s : BudgetKeyProvider) (actions : list ProviderAction) : Prop :=
  ∀ ctx r k, FinishGet ctx r (Some k) ∈ actions →
    ∃ key, key_heap (objects s) !! k = Some key ∧ name_ key = budget_key_name ctx ∧ ready (objects s) key ∧
      batch_consume_budget_transaction_protocol_ key = None.

Definition step_ok (s s' : BudgetKeyProvider) (fl' actions : list ProviderAction) : Prop :=
  invariant (mkProviderSystem s' fl') ∧ loaded_kept s s' ∧ served s' actions.

Lemma served_nil s : served s [].
Proof. by intros ctx r k ?%elem_of_nil. Qed.

Lemma served_none s ctx r : served s [FinishGet ctx r None].
Proof. by intros ctx' r' k ?%list_elem_of_singleton. Qed.

Lemma step_ok_trans s1 s2 s3 fl' actions : loaded_kept s1 s2 → step_ok s2 s3 fl' actions → step_ok s1 s3 fl' actions.
Proof. intros Hk (I & Hk' & Hs). split_and!; [done|by eapply loaded_kept_trans|done]. Qed.

(** Only the cache changes, and nothing that loads is asked for. *)
Lemma frame_cache s fl c fl' :
  invariant (mkProviderSystem s fl) → well_formed_map c → entries_from (budget_keys_ s) c →
  (∀ p, loads fl' p = loads fl p) →
  (∀ action, action ∈ fl' → action ∈ fl ∨ action_ok (with_budget_keys c s) action) →
  invariant (mkProviderSystem (with_budget_keys c s) fl') ∧ loaded_kept s (with_budget_keys c s).
Proof.
  intros I W He Hl Ha. apply (invariant_frame s _ fl); try done; [by apply entries_from_kept|apply managers_grow_refl].
Qed.

Lemma destroy_key_heaps k o :
  key_heap (destroy_key k o) = key_heap o ∧ manager_heap (destroy_key k o) = manager_heap o.
Proof.
  unfold destroy_key. destruct (key_heap o !! k) as [key|]; [|done]. unfold destroy_manager.
  by destruct (budget_key_timeframe_manager_ key ≫= _).
Qed.

(** The call that loads starts. *)
Lemma start_load_ok `{BudgetKeyLogs} a s fl ctx p pair key r s' actions :
  invariant (mkProviderSystem s fl) → pair_key s p pair key → name_ key = budget_key_name ctx →
  pair_is_loaded pair = false → pair_needs_loader pair = false → loads fl p = 0%nat →
  BudgetKeyProvider.start_load a ctx p s = Some (r, s', actions) →
  step_ok s s' (fl ++ awaited a actions) actions.
Proof.
  intros I Hpk Hn Hil Hnl Hl0. unfold BudgetKeyProvider.start_load.
  destruct (DisableEviction _ _ _ _) as [r1 c] eqn:Hd.
  destruct (write_evictable_from false (now a) (budget_keys_ s) (budget_key_name ctx) (inv_cache _ I)) as [W He].
  unfold DisableEviction in Hd. rewrite Hd in W, He. simpl in W, He.
  assert (step_ok s (with_budget_keys c s) (fl ++ awaited a []) []) as Hnone.
  { destruct (frame_cache s fl c (fl ++ awaited a []) I W He) as [I' Hk].
    - intros q. by rewrite app_nil_r.
    - intros action. rewrite app_nil_r. by left.
    - split_and!; [done|done|apply served_nil]. }
  destruct (negb (Successful r1)); [by intros [= _ <- <-]|].
  unfold BudgetKeyProvider.LogLoadBudgetKeyIntoCache.
  destruct (BudgetKeyProvider.serialize_pair _ _ _) as [[r2 b]|]; [|done]. cbn [mbind option_bind].
  destruct (negb (Successful r2)); cbn [mbind option_bind]; intros [= _ <- <-]; [done|].
  set (action := DispatchLogLoad _ _ _). change (awaited a [action]) with [action].
  assert (∀ q, loads (fl ++ [action]) q = (loads fl q + if decide (q = p) then 1 else 0)%nat) as Hl.
  { intros q. rewrite key_loads_app, key_loads_cons. unfold loads at 2. simpl. destruct (decide (q = p)) as [->|].
    - by rewrite decide_True.
    - rewrite decide_False by congruence. simpl. lia. }
  destruct (invariant_focus s (with_budget_keys c s) fl (fl ++ [action]) p pair key I W) as [I' Hk]; try done.
  - by apply entries_from_kept.
  - apply managers_grow_refl.
  - destruct Hpk as [Hp Hkey]. destruct (inv_pairs _ I p pair Hp) as (key0 & Hkey0 & Hb & _).
    simpl in Hkey0. exists key0. rewrite Hl, decide_True by done. split_and!; [done|done|congruence|congruence|lia].
  - intros pair0 Hp0. destruct Hpk as [Hp Hkey]. assert (pair0 = pair) as -> by congruence. exists key. by split_and!.
  - intros Hp0. destruct Hpk as [Hp _]. congruence.
  - intros q Hq. rewrite Hl, decide_False by done. lia.
  - intros action' [?| ->%list_elem_of_singleton]%elem_of_app; [by left|right]. by exists pair, key.
  - split_and!; [done|done|]. by intros ctx' r' k ?%list_elem_of_singleton.
Qed.

Lemma get_existing_ok `{BudgetKeyLogs} a s fl ctx p pair key r s' actions :
  invariant (mkProviderSystem s fl) → pair_key s p pair key → name_ key = budget_key_name ctx →
  BudgetKeyProvider.get_existing a ctx p s = Some (r, s', actions) →
  step_ok s s' (fl ++ awaited a actions) actions.
Proof.
  intros I Hpk Hn. pose proof Hpk as [Hp Hkey]. destruct (inv_pairs _ I p pair Hp) as (key0 & Hkey0 & Hb & Hil & Hnl & Hle).
  simpl in Hkey0, Hil, Hnl, Hle. assert (key0 = key) as -> by congruence.
  unfold BudgetKeyProvider.get_existing. rewrite Hp. cbn [mbind option_bind].
  destruct (pair_needs_loader pair) eqn:Hneeds.
  - intros Hs. set (s1 := on_pair (write_pair_needs_loader false) p s) in Hs.
    assert (pair_is_loaded pair = false) as Hload.
    { destruct (pair_is_loaded pair); [|done]. by destruct (Hil eq_refl) as (_ & ? & _). }
    assert (pair_key s1 p (write_pair_needs_loader false pair) key) as Hpk1.
    { split; [|done]. simpl. by rewrite lookup_alter_eq, Hp. }
    destruct (invariant_focus s s1 fl fl p (write_pair_needs_loader false pair) key I (inv_cache _ I)) as [I1 Hk1]; try done.
    + by apply names_kept_refl.
    + apply managers_grow_refl.
    + exists key. rewrite Hnl by done. split_and!; [done|done|by simpl; rewrite Hload|done|lia].
    + intros q Hq. simpl. by rewrite lookup_alter_ne.
    + intros pair0 Hp0. assert (pair0 = pair) as -> by congruence. exists key. split_and!; try done. congruence.
    + congruence.
    + intros action Ha. by left.
    + eapply step_ok_trans; [exact Hk1|]. eapply start_load_ok; [exact I1|exact Hpk1|done|done|done|by apply Hnl|exact Hs].
  - destruct (pair_is_loaded pair) eqn:Hload; cbn [negb]; intros [= _ <- <-].
    + change (awaited a [FinishGet _ _ _]) with ([] : list ProviderAction). rewrite app_nil_r.
      split_and!; [done|by intros ???|]. intros ctx' r' k [= -> -> ->]%list_elem_of_singleton.
      exists key. destruct (Hil eq_refl) as (_ & _ & ?). done.
    + change (awaited a []) with ([] : list ProviderAction). rewrite app_nil_r.
      split_and!; [done|by intros ???|apply served_nil].
Qed.

Lemma GetBudgetKey_ok `{BudgetKeyLogs} a s fl ctx r s' actions :
  invariant (mkProviderSystem s fl) → BudgetKeyProvider.GetBudgetKey a ctx s = Some (r, s', actions) →
  step_ok s s' (fl ++ awaited a actions) actions.
Proof.
  intros I. unfold BudgetKeyProvider.GetBudgetKey, make_key, make_provider_pair.
  set (k := fresh (dom (key_heap (objects s)))).
  assert (key_heap (objects s) !! k = None) as Hfk by apply not_elem_of_dom, is_fresh.
  set (key := mkBudgetKey _ _ None None None). set (o1 := with_keys _ _).
  change (pair_heap (with_objects o1 s)) with (pair_heap s).
  set (np := fresh (dom (pair_heap s))).
  assert (pair_heap s !! np = None) as Hfp by apply not_elem_of_dom, is_fresh.
  set (s1 := with_pairs _ _). set (pair := mkPair k false false) in s1.
  change (budget_keys_ s1) with (budget_keys_ s).
  assert (pair_key s1 np pair key) as Hpk1 by (split; simpl; by rewrite lookup_insert_eq).
  pose proof (loads_fresh s fl np (inv_actions _ I) Hfp) as Hl0.
  destruct (invariant_focus s s1 fl fl np pair key I (inv_cache _ I)) as [I1 Hk1]; try done.
  { by apply names_kept_refl. }
  { intros m mo Hm. by exists mo. }
  { exists key. rewrite Hl0. split_and!; [apply Hpk1|done|done|done|lia]. }
  { intros q Hq. simpl. by rewrite lookup_insert_ne. }
  { intros k' Hk'. simpl. by rewrite lookup_insert_ne. }
  { intros pair0 Hp0. congruence. }
  { intros action Ha. by left. }
  destruct (AutoExpiryMap.Insert _ _ _ _ _) as [[r1 out] c] eqn:Hi.
  destruct (Insert_from _ _ _ _ _ _ _ Hi (inv_cache _ I)) as [W Hc]. simpl in Hc.
  destruct (Successful r1) eqn:Hr1; cbn [negb].
  - destruct Hc as [-> He]. cbn [default from_option]. intros Hs.
    destruct (invariant_frame s1 (with_budget_keys c s1) fl fl I1 W) as [I2 Hk2]; try done.
    { intros name r' Hr'. destruct (He name r' Hr') as [[-> Hp]|Hold]; [right|by left].
      exists pair, key. by rewrite Hp. }
    { apply managers_grow_refl. }
    { intros action Ha. by left. }
    eapply step_ok_trans; [eapply loaded_kept_trans; [exact Hk1|exact Hk2]|].
    by apply (start_load_ok a _ fl ctx np pair key r).
  - destruct Hc as [He Hexists]. cbn zeta. set (s2 := with_objects _ _).
    destruct (destroy_key_heaps k (objects s1)) as [Hdk Hdm].
    destruct (invariant_frame s1 s2 fl fl I1 W) as [I2 Hk2]; try done.
    { apply entries_from_kept. exact He. }
    { intros m mo Hm. exists mo. split; [|done]. change (manager_heap (destroy_key k (objects s1)) !! m = Some mo).
      by rewrite Hdm. }
    { intros action Ha. by left. }
    assert (∀ r0 s0, Some (r0, s2, [] : list ProviderAction) = Some (r, s0, actions) → s0 = s' →
      step_ok s s' (fl ++ awaited a actions) actions) as Hnone.
    { intros r0 s0 [= _ <- <-] <-. change (awaited a []) with ([] : list ProviderAction). rewrite app_nil_r.
      split_and!; [done|by eapply loaded_kept_trans|apply served_nil]. }
    destruct (_ && _) eqn:Hcodes; [intros Hs; injection Hs as Hr0 Hs0 Ha0; subst; by eapply Hnone|].
    destruct (status_code r1 =? SC_AUTO_EXPIRY_CONCURRENT_MAP_ENTRY_BEING_DELETED) eqn:Hdel;
      [intros Hs; injection Hs as Hr0 Hs0 Ha0; subst; by eapply Hnone|].
    simpl in Hcodes. apply negb_false_iff, Z.eqb_eq in Hcodes. destruct (Hexists Hcodes) as (r0 & -> & Hr0).
    cbn [default from_option]. intros Hs.
    destruct (inv_names _ I1 _ _ Hr0) as (pair0 & key0 & Hpk0 & Hn0). simpl in Hpk0.
    eapply step_ok_trans; [eapply loaded_kept_trans; [exact Hk1|exact Hk2]|].
    eapply (get_existing_ok a s2 fl ctx (entry r0) pair0 key0); [exact I2| |exact Hn0|exact Hs].
    destruct Hpk0 as [Hp0 Hkey0]. split; [exact Hp0|].
    change (key_heap (destroy_key k (objects s1)) !! budget_key pair0 = Some key0). by rewrite Hdk.
Qed.

(** The pair and key of a load in flight. *)
Lemma loading_state s fl1 action fl2 p pair key :
  invariant (mkProviderSystem s (fl1 ++ action :: fl2)) → loading_pair action = Some p → pair_key s p pair key →
  pair_is_loaded pair = false ∧ pair_needs_loader pair = false ∧
  batch_consume_budget_transaction_protocol_ key = None ∧ loads (fl1 ++ fl2) p = 0%nat.
Proof.
  intros I Ha [Hp Hk]. destruct (inv_pairs _ I p pair Hp) as (key0 & Hk0 & Hb & Hl & Hn & Hle).
  simpl in Hk0, Hl, Hn, Hle. assert (key0 = key) as -> by congruence.
  rewrite key_loads_middle, decide_True in Hl, Hn, Hle by done.
  split_and!; [|..|done|lia].
  - destruct (pair_is_loaded pair); [|done]. by destruct (Hl eq_refl).
  - destruct (pair_needs_loader pair); [|done]. by specialize (Hn eq_refl).
Qed.

(** A load ends. *)
Lemma end_load_ok a s s' fl1 action fl2 p pair key pair' key' actions :
  invariant (mkProviderSystem s (fl1 ++ action :: fl2)) → loading_pair action = Some p → pair_key s p pair key →
  well_formed_map (budget_keys_ s') → entries_from (budget_keys_ s) (budget_keys_ s') →
  managers_grow (objects s) (objects s') → pair_key s' p pair' key' →
  budget_key pair' = budget_key pair → name_ key' = name_ key → id_ key' = id_ key →
  batch_consume_budget_transaction_protocol_ key' = None →
  (∀ q, q ≠ p → pair_heap s' !! q = pair_heap s !! q) →
  (∀ k, k ≠ budget_key pair → key_heap (objects s') !! k = key_heap (objects s) !! k) →
  (pair_is_loaded pair' = true → pair_needs_loader pair' = false ∧ ready (objects s') key') →
  served s' actions → no_loads actions →
  step_ok s s' ((fl1 ++ fl2) ++ awaited a actions) actions.
Proof.
  intros I Ha Hpk W He Hm Hpk' Hbk Hn Hi Hb Hps Hks Hload Hserved Hno.
  destruct (loading_state _ _ _ _ _ _ _ I Ha Hpk) as (Hil & Hnl & _ & Hl0).
  assert (∀ q, loads ((fl1 ++ fl2) ++ awaited a actions) q = loads (fl1 ++ fl2) q) as Hl.
  { intros q. rewrite key_loads_app, no_loads_awaited by done. lia. }
  destruct (invariant_focus s s' (fl1 ++ action :: fl2) ((fl1 ++ fl2) ++ awaited a actions) p pair' key' I W)
    as [I' Hk]; try done.
  - by apply entries_from_kept.
  - exists key'. rewrite Hl, Hl0. split_and!; [apply Hpk'|done| |done|lia]. intros Hload'.
    by destruct (Hload Hload').
  - rewrite Hbk. done.
  - intros pair0 Hp0. destruct Hpk as [Hp Hkey]. assert (pair0 = pair) as -> by congruence. exists key.
    split_and!; try done; congruence.
  - intros Hp0. destruct Hpk as [Hp _]. congruence.
  - intros q Hq. rewrite Hl, key_loads_middle, decide_False by congruence. lia.
  - intros action'. rewrite !elem_of_app. intros [[?|?]|Hin%awaited_elem].
    + left. by left.
    + left. right. by right.
    + right. pose proof (no_loads_ok s' actions Hno) as Hoks. rewrite Forall_forall in Hoks. by apply Hoks.
Qed.

Lemma enable_eviction_effect a p s s' : well_formed_map (budget_keys_ s) →
  BudgetKeyProvider.enable_eviction a p s = Some s' →
  ∃ c, s' = with_budget_keys c s ∧ well_formed_map c ∧ entries_from (budget_keys_ s) c.
Proof.
  intros W. unfold BudgetKeyProvider.enable_eviction. destruct (pair_heap s !! p) as [pair|]; [|done].
  cbn [mbind option_bind]. destruct (key_heap _ !! _) as [key|]; [|done]. cbn [mbind option_bind]. intros [= <-].
  eexists. split; [done|]. by apply write_evictable_from.
Qed.

Lemma Run_effect `{TimeframeLogs} a k o r o' : BudgetKey.Run a k o = Some (r, o') →
  key_heap o' = key_heap o ∧ managers_grow o o'.
Proof.
  unfold BudgetKey.Run. destruct (key_heap o !! k) as [key|]; [|done]. cbn [mbind option_bind].
  destruct (budget_key_timeframe_manager_ key) as [m|]; [|intros [= _ <-]; split; [done|apply managers_grow_refl]].
  destruct (manager_heap o !! m) as [mo|]; [|done]. cbn [mbind option_bind].
  destruct (TimeframeManager.Run _ _) as [[r1 d] acts]. intros [= _ <-]. split; [done|apply managers_grow_write].
Qed.

(** The end of a load, from the answer to the key's load on. *)
Lemma OnLoadBudgetKeyCallback_effect `{TimeframeLogs} a ctx p result s s' actions pair key :
  pair_key s p pair key → well_formed_map (budget_keys_ s) →
  pair_needs_loader pair = false → pair_is_loaded pair = false →
  (Successful result = true → ready (objects s) key) → name_ key = budget_key_name ctx →
  batch_consume_budget_transaction_protocol_ key = None →
  BudgetKeyProvider.OnLoadBudgetKeyCallback a ctx p result s = Some (s', actions) →
  well_formed_map (budget_keys_ s') ∧ entries_from (budget_keys_ s) (budget_keys_ s') ∧
  managers_grow (objects s) (objects s') ∧ key_heap (objects s') = key_heap (objects s) ∧
  (∃ pair', pair_heap s' = <[p := pair']> (pair_heap s) ∧ budget_key pair' = budget_key pair ∧
     (pair_is_loaded pair' = true → pair_needs_loader pair' = false ∧ ready (objects s') key)) ∧
  served s' actions ∧ no_loads actions.
Proof.
  intros [Hp Hk] W Hnl Hil Hready Hname Hbatch. unfold BudgetKeyProvider.OnLoadBudgetKeyCallback.
  destruct (BudgetKeyProvider.enable_eviction a p s) as [s1|] eqn:He; [|done]. cbn [mbind option_bind].
  destruct (enable_eviction_effect _ _ _ _ W He) as (c & -> & Wc & Hc). clear He.
  assert (∀ f (ps : gmap pair_loc BudgetKeyProviderPair), ps !! p = Some pair → alter f p ps = <[p := f pair]> ps) as Halter.
  { intros f ps Hps. apply map_eq. intros q. destruct (decide (q = p)) as [->|].
    - by rewrite lookup_alter_eq, lookup_insert_eq, Hps.
    - by rewrite lookup_alter_ne, lookup_insert_ne. }
  destruct (Successful result) eqn:Hr; cbn [negb].
  - change (pair_heap (with_budget_keys c s)) with (pair_heap s). rewrite Hp. cbn [mbind option_bind].
    destruct (BudgetKey.Run _ _ _) as [[r o]|] eqn:Hrun; [|done]. cbn [mbind option_bind].
    destruct (Run_effect _ _ _ _ _ Hrun) as [Hkh Hmg].
    assert (ready o key) as Hready' by (eapply ready_grow; [exact Hmg|by apply Hready]).
    destruct (negb (Successful r)); intros [= <- <-]; simpl; rewrite (Halter _ _ Hp).
    + split_and!; [done..| |apply served_none|by repeat constructor].
      eexists. split; [done|]. split; [done|]. simpl. by rewrite Hil.
    + split_and!; [done..| | |by repeat constructor].
      * eexists. split; [done|]. split; [done|]. done.
      * intros ctx' r' k [= -> -> ->]%list_elem_of_singleton. exists key. simpl. by rewrite Hkh.
  - intros [= <- <-]. simpl. rewrite (Halter _ _ Hp). split_and!; [done|done|apply managers_grow_refl|done| |apply served_none|by repeat constructor].
    eexists. split; [done|]. split; [done|]. simpl. by rewrite Hil.
Qed.

(** The key's log is answered. *)
Lemma OnLogLoadBudgetKeyCallback_effect k timeframe_manager_id result o r o' key :
  key_heap o !! k = Some key → timeframe_manager_id = GetTimeframeManagerId (id_ key) →
  BudgetKey.OnLogLoadBudgetKeyCallback k timeframe_manager_id result o = Some (r, o') →
  managers_grow o o' ∧ (∀ k', k' ≠ k → key_heap o' !! k' = key_heap o !! k') ∧
  ∃ key', key_heap o' !! k = Some key' ∧ name_ key' = name_ key ∧ id_ key' = id_ key ∧
    batch_consume_budget_transaction_protocol_ key' = batch_consume_budget_transaction_protocol_ key ∧
    (Successful r = true → ready o' key').
Proof.
  intros Hk Ht. unfold BudgetKey.OnLogLoadBudgetKeyCallback. destruct (negb (Successful result)) eqn:Hr.
  { intros [= <- <-]. split; [apply managers_grow_refl|]. split; [done|]. exists key. split_and!; try done.
    apply negb_true_iff in Hr. congruence. }
  rewrite Hk. cbn [mbind option_bind]. unfold make_manager. set (m := fresh (dom (manager_heap o))).
  assert (manager_heap o !! m = None) as Hfm by apply not_elem_of_dom, is_fresh.
  unfold assign_manager. cbn [key_heap with_managers]. rewrite Hk. cbn [mbind option_bind].
  set (key' := mkBudgetKey _ _ _ _ _). intros [= <- <-].
  set (o1 := with_keys _ _).
  assert (∀ om, key_heap (destroy_manager om o1) = key_heap o1 ∧ manager_heap (destroy_manager om o1) = manager_heap o1) as Hd.
  { intros om. unfold destroy_manager. by destruct (om ≫= _). }
  destruct (Hd (budget_key_timeframe_manager_ key)) as [Hdk Hdm].
  split; [|split].
  - intros m0 mo Hm0. exists mo. rewrite Hdm. simpl. rewrite lookup_insert_ne; [done|]. congruence.
  - intros k' Hk'. rewrite Hdk. simpl. by rewrite lookup_insert_ne.
  - exists key'. rewrite Hdk. simpl. rewrite lookup_insert_eq. split_and!; try done. intros _.
    exists m. eexists. rewrite Hdm. simpl. rewrite lookup_insert_eq. by split_and!.
Qed.

(** What the provider asks for when the collector offers it a key. *)
Definition is_removal (action : ProviderAction) : bool :=
  match action with LogRemoval _ _ _ | should_delete_key _ _ => true | _ => false end.

Lemma removals_ok s actions : Forall (λ action, is_removal action = true) actions →
  no_loads actions ∧ served s actions.
Proof.
  intros Hall. split; [eapply Forall_impl; [exact Hall|]; by intros []|].
  intros ctx r k Hin. rewrite Forall_forall in Hall. by specialize (Hall _ Hin).
Qed.

Lemma OnBeforeGarbageCollection_removals `{TimeframeLogs} `{BudgetKeyLogs} a p element s actions :
  BudgetKeyProvider.OnBeforeGarbageCollection a p element s = Some actions →
  Forall (λ action, is_removal action = true) actions.
Proof.
  unfold BudgetKeyProvider.OnBeforeGarbageCollection.
  destruct (pair_heap s !! p) as [pair|]; [|done]. cbn [mbind option_bind].
  destruct (BudgetKey.CanUnload _ _) as [r|]; [|done]. cbn [mbind option_bind].
  destruct (negb _); [intros [= <-]; by repeat constructor|].
  destruct (BudgetKeyProvider.serialize_pair _ _ _) as [[r1 b]|]; [|done]. cbn [mbind option_bind].
  destruct (negb _); [intros [= <-]; by repeat constructor|].
  destruct (negb _); intros [= <-]; by repeat constructor.
Qed.

Lemma offered_removals `{TimeframeLogs} `{BudgetKeyLogs} a s calls actions :
  offered a s calls = Some actions → Forall (λ action, is_removal action = true) actions.
Proof.
  revert actions. induction calls as [|[t|name p element] calls IH]; intros actions; simpl.
  - by intros [= <-].
  - apply IH.
  - destruct (BudgetKeyProvider.OnBeforeGarbageCollection a p element s) as [acts|] eqn:Hb; [|done]. cbn [mbind option_bind].
    destruct (offered a s calls) as [more|]; [|done]. cbn [mbind option_bind]. intros [= <-].
    apply Forall_app. split; [by eapply OnBeforeGarbageCollection_removals|by apply IH].
Qed.

Lemma Stop_effect `{TimeframeLogs} drained k o r o' : BudgetKey.Stop drained k o = Some (r, o') →
  key_heap o' = key_heap o ∧ managers_grow o o'.
Proof.
  unfold BudgetKey.Stop. destruct (key_heap o !! k) as [key|]; [|done]. cbn [mbind option_bind].
  destruct (budget_key_timeframe_manager_ key) as [m|]; [|intros [= _ <-]; split; [done|apply managers_grow_refl]].
  destruct (manager_heap o !! m) as [mo|]; [|done]. cbn [mbind option_bind].
  destruct (TimeframeManager.Stop _ _) as [r1 d]. intros [= _ <-]. split; [done|apply managers_grow_write].
Qed.

(** A step that neither starts nor ends a load: pairs and keys stay. *)
Lemma other_step_ok a s s' fl fl' actions :
  invariant (mkProviderSystem s fl) → well_formed_map (budget_keys_ s') →
  entries_from (budget_keys_ s) (budget_keys_ s') → pair_heap s' = pair_heap s →
  key_heap (objects s') = key_heap (objects s) → managers_grow (objects s) (objects s') →
  (∀ p, loads fl' p = loads fl p) → (∀ action, action ∈ fl' → action ∈ fl) →
  Forall (λ action, is_removal action = true) actions →
  step_ok s s' (fl' ++ awaited a actions) actions.
Proof.
  intros I W He Hp Hk Hm Hl Ha Hr. destruct (removals_ok s' actions Hr) as [Hno Hs].
  destruct (invariant_frame s s' fl (fl' ++ awaited a actions) I W) as [I' Hkept]; try done.
  - by apply entries_from_kept.
  - intros p. rewrite key_loads_app, no_loads_awaited, Hl by done. lia.
  - intros action [?|Hin%awaited_elem]%elem_of_app; [left; by apply Ha|right].
    pose proof (no_loads_ok s' actions Hno) as Hoks. rewrite Forall_forall in Hoks. by apply Hoks.
Qed.

Lemma loads_drop fl1 action fl2 p : loading_pair action = None →
  loads (fl1 ++ fl2) p = loads (fl1 ++ action :: fl2) p.
Proof. intros Ha. rewrite key_loads_middle, decide_False by congruence. lia. Qed.

Lemma elem_of_drop {A} (fl1 : list A) x fl2 y : y ∈ fl1 ++ fl2 → y ∈ fl1 ++ x :: fl2.
Proof. rewrite !elem_of_app, elem_of_cons. tauto. Qed.

(** A load goes on with its next call. *)
Lemma continue_load_ok s fl1 action fl2 action' :
  invariant (mkProviderSystem s (fl1 ++ action :: fl2)) → loading_pair action' = loading_pair action →
  action_ok s action' → (∀ ctx r k, action' ≠ FinishGet ctx r k) →
  step_ok s s ((fl1 ++ fl2) ++ [action']) [action'].
Proof.
  intros I Hl Hok Hf.
  destruct (invariant_frame s s (fl1 ++ action :: fl2) ((fl1 ++ fl2) ++ [action']) I (inv_cache _ I)) as [I' Hk]; try done.
  - by apply names_kept_refl.
  - apply managers_grow_refl.
  - intros q. by rewrite !key_loads_middle, Hl, app_nil_r.
  - intros x [Hin| ->%list_elem_of_singleton]%elem_of_app; [left; by apply elem_of_drop|by right].
  - split_and!; [done|done|]. intros ctx r k Hin%list_elem_of_singleton. by destruct (Hf ctx r (Some k)).
Qed.

(** The action that is answered is as the invariant says. *)
Lemma answered_ok s fl1 action fl2 : invariant (mkProviderSystem s (fl1 ++ action :: fl2)) → action_ok s action.
Proof.
  intros I. pose proof (inv_actions _ I) as Ha. simpl in Ha. apply Forall_app in Ha as [_ Ha].
  by apply Forall_cons in Ha as [Ha _].
Qed.

Lemma pair_logged_ok a s request ctx p result s' actions fl1 fl2 :
  invariant (mkProviderSystem s (fl1 ++ DispatchLogLoad request ctx p :: fl2)) →
  BudgetKeyProvider.OnLogLoadBudgetKeyIntoCacheCallback a ctx p result s = Some (s', actions) →
  step_ok s s' ((fl1 ++ fl2) ++ awaited a actions) actions.
Proof.
  intros I. destruct (answered_ok _ _ _ _ I) as (pair & key & Hpk & Hn).
  unfold BudgetKeyProvider.OnLogLoadBudgetKeyIntoCacheCallback. destruct (negb (Successful result)).
  - set (s1 := on_pair (write_pair_needs_loader true) p s).
    destruct (BudgetKeyProvider.enable_eviction a p s1) as [s2|] eqn:He; [|done]. cbn [mbind option_bind]. intros [= <- <-].
    destruct (enable_eviction_effect a p s1 s2 (inv_cache _ I) He) as (c & -> & W & Hc).
    destruct (loading_state s fl1 _ fl2 p pair key I eq_refl Hpk) as (Hil & _ & Hb & _).
    apply (end_load_ok a s _ fl1 (DispatchLogLoad request ctx p) fl2 p pair key (write_pair_needs_loader true pair) key);
      try done.
    + apply managers_grow_refl.
    + destruct Hpk as [Hp Hk]. split; [|done]. simpl. by rewrite lookup_alter_eq, Hp.
    + intros q Hq. simpl. by rewrite lookup_alter_ne.
    + simpl. by rewrite Hil.
    + apply served_none.
    + by repeat constructor.
  - intros [= <- <-]. change (awaited a [DispatchLoadBudgetKey ctx p]) with [DispatchLoadBudgetKey ctx p].
    apply (continue_load_ok s fl1 (DispatchLogLoad request ctx p)); try done. by exists pair, key.
Qed.

Lemma load_key_ok `{TimeframeLogs} `{BudgetKeyLogs} a s ctx p r actions fl1 fl2 :
  invariant (mkProviderSystem s (fl1 ++ DispatchLoadBudgetKey ctx p :: fl2)) →
  BudgetKeyProvider.call_load_budget_key a ctx p s = Some (r, actions) → Successful r = true →
  step_ok s s ((fl1 ++ fl2) ++ awaited a actions) actions.
Proof.
  intros I. destruct (answered_ok _ _ _ _ I) as (pair & key & Hpk & Hn). pose proof Hpk as [Hp Hk].
  unfold BudgetKeyProvider.call_load_budget_key, BudgetKey.LoadBudgetKey. rewrite Hp. cbn [mbind option_bind].
  rewrite Hk. cbn [mbind option_bind]. destruct (write_key _) as [[r1 b]|]; [|done]. cbn [mbind option_bind].
  destruct (negb (Successful r1)) eqn:Hr1; cbn [mbind option_bind]; intros [= <- <-] Hr.
  { by rewrite Hr in Hr1. }
  set (action := DispatchLogKey _ _ _ _ _). change (awaited a [action]) with [action].
  apply (continue_load_ok s fl1 (DispatchLoadBudgetKey ctx p)); try done. by exists pair, key.
Qed.

(** The end of a load whose key is in state [s1]. *)
Lemma load_answered_ok `{TimeframeLogs} a s s1 ctx p result s' actions fl1 action fl2 pair key key1 :
  invariant (mkProviderSystem s (fl1 ++ action :: fl2)) → loading_pair action = Some p → pair_key s p pair key →
  name_ key = budget_key_name ctx →
  budget_keys_ s1 = budget_keys_ s → pair_heap s1 = pair_heap s → managers_grow (objects s) (objects s1) →
  (∀ k, k ≠ budget_key pair → key_heap (objects s1) !! k = key_heap (objects s) !! k) →
  key_heap (objects s1) !! budget_key pair = Some key1 → name_ key1 = name_ key → id_ key1 = id_ key →
  batch_consume_budget_transaction_protocol_ key1 = batch_consume_budget_transaction_protocol_ key →
  (Successful result = true → ready (objects s1) key1) →
  BudgetKeyProvider.OnLoadBudgetKeyCallback a ctx p result s1 = Some (s', actions) →
  step_ok s s' ((fl1 ++ fl2) ++ awaited a actions) actions.
Proof.
  intros I Ha Hpk Hname Hc1 Hp1 Hm1 Hks1 Hk1 Hn1 Hi1 Hb1 Hready Hs.
  destruct (loading_state s fl1 _ fl2 p pair key I Ha Hpk) as (Hil & Hnl & Hb & _). pose proof Hpk as [Hp Hk].
  destruct (OnLoadBudgetKeyCallback_effect a ctx p result s1 s' actions pair key1)
    as (W & He & Hm & Hkh & (pair' & Hph & Hbk & Hload) & Hserved & Hno); try done.
  - split; [by rewrite Hp1|done].
  - rewrite Hc1. apply (inv_cache _ I).
  - congruence.
  - congruence.
  - rewrite Hc1 in He.
    apply (end_load_ok a s s' fl1 action fl2 p pair key pair' key1); try done.
    + by eapply managers_grow_trans.
    + split; [by rewrite Hph, lookup_insert_eq|]. by rewrite Hkh, Hbk.
    + congruence.
    + intros q Hq. by rewrite Hph, lookup_insert_ne, Hp1.
    + intros k Hkne. rewrite Hkh. by apply Hks1.
Qed.

Lemma key_logged_ok `{TimeframeLogs} a s request k timeframe_manager_id ctx p result s' actions fl1 fl2 :
  invariant (mkProviderSystem s (fl1 ++ DispatchLogKey request k timeframe_manager_id ctx p :: fl2)) →
  BudgetKeyProvider.OnLogKeyCallback a k timeframe_manager_id ctx p result s = Some (s', actions) →
  step_ok s s' ((fl1 ++ fl2) ++ awaited a actions) actions.
Proof.
  intros I. destruct (answered_ok _ _ _ _ I) as (pair & key & Hpk & Hn & <- & Ht). pose proof Hpk as [Hp Hk].
  unfold BudgetKeyProvider.OnLogKeyCallback.
  destruct (BudgetKey.OnLogLoadBudgetKeyCallback _ _ _ _) as [[r o]|] eqn:Hlog; [|done]. cbn [mbind option_bind].
  destruct (OnLogLoadBudgetKeyCallback_effect _ _ _ _ _ _ key Hk Ht Hlog)
    as (Hm & Hks & key1 & Hk1 & Hn1 & Hi1 & Hb1 & Hready).
  by apply (load_answered_ok a s (with_objects o s) ctx p r s' actions fl1
    (DispatchLogKey request (budget_key pair) timeframe_manager_id ctx p) fl2 pair key key1).
Qed.

(** Every step keeps the invariant and the loaded keys, and serves the key that
    was asked for. *)
Lemma step_spec `{TimeframeLogs} `{BudgetKeyLogs} σ actions σ' :
  step σ actions σ' → invariant σ → step_ok (provider σ) (provider σ') (in_flight σ') actions.
Proof.
  intros Hs I. destruct Hs as
    [a s ctx r s' actions fl Hs|a s request ctx p result s' actions fl1 fl2 Hs
    |a s ctx p r actions fl1 fl2 Hs Hr|a s ctx p r actions s' more fl1 fl2 _ Hr Hs
    |a s request k tmid ctx p result s' actions fl1 fl2 Hs|a s locked scheduled c calls actions fl Hc Hs
    |a s drained request element p result s' actions fl1 fl2 Hs|a s element can_delete scheduled c calls fl1 fl2 Hc
    |s m d fl]; simpl in *.
  - by eapply GetBudgetKey_ok.
  - by eapply pair_logged_ok.
  - by eapply load_key_ok.
  - destruct (answered_ok _ _ _ _ I) as (pair & key & Hpk & Hn). pose proof Hpk as [Hp Hk].
    apply (load_answered_ok a s s ctx p r s' more fl1 (DispatchLoadBudgetKey ctx p) fl2 pair key key); try done;
      [apply managers_grow_refl|congruence].
  - by eapply key_logged_ok.
  - destruct (RunGarbageCollector_from _ _ _ _ _ _ Hc (inv_cache _ I)) as [W He].
    apply (other_step_ok a s _ fl); try done; [apply managers_grow_refl|by eapply offered_removals].
  - unfold BudgetKeyProvider.OnRemoveEntryFromCacheLogged in Hs. destruct (Successful result).
    + destruct (pair_heap s !! p) as [pair|]; [|done]. cbn [mbind option_bind] in Hs.
      destruct (BudgetKey.Stop _ _ _) as [[r o]|] eqn:Hstop; [|done]. cbn [mbind option_bind] in Hs. injection Hs as <- <-.
      destruct (Stop_effect _ _ _ _ _ Hstop) as [Hk Hm].
      apply (other_step_ok a s _ (fl1 ++ LogRemoval request element p :: fl2)); try done.
      * apply (inv_cache _ I).
      * intros n r'. by exists r'.
      * intros q. by apply loads_drop.
      * intros action. apply elem_of_drop.
      * by repeat constructor.
    + injection Hs as <- <-. apply (other_step_ok a s _ (fl1 ++ LogRemoval request element p :: fl2)); try done.
      * apply (inv_cache _ I).
      * intros n r'. by exists r'.
      * apply managers_grow_refl.
      * intros q. by apply loads_drop.
      * intros action. apply elem_of_drop.
      * by repeat constructor.
  - destruct (OnRemove_from _ _ _ _ _ _ _ Hc (inv_cache _ I)) as [W He].
    pose proof (other_step_ok (mkAnswers 0 (SuccessExecutionResult, EmptyString) (λ _, kZeroUuid) SuccessExecutionResult)
      s (with_budget_keys c s) (fl1 ++ should_delete_key element can_delete :: fl2) (fl1 ++ fl2) []) as Hok.
    simpl in Hok. rewrite app_nil_r in Hok. apply Hok; try done; [apply managers_grow_refl| |apply elem_of_drop].
    intros q. by apply loads_drop.
  - pose proof (other_step_ok (mkAnswers 0 (SuccessExecutionResult, EmptyString) (λ _, kZeroUuid) SuccessExecutionResult)
      s (with_objects (write_manager m d (objects s)) s) fl fl []) as Hok.
    simpl in Hok. rewrite app_nil_r in Hok. apply Hok; try done; [apply (inv_cache _ I)| |apply managers_grow_write].
    intros n r'. by exists r'.
Qed.

(** ** Reachable states *)

Inductive reachable `{TimeframeLogs} `{BudgetKeyLogs} (s0 : BudgetKeyProvider) : ProviderSystem → Prop :=
| reachable_start : reachable s0 (mkProviderSystem s0 [])
| reachable_step σ actions σ' : reachable s0 σ → step σ actions σ' → reachable s0 σ'.

(** A provider that runs: nothing is in flight and the cached keys are loaded. *)
Definition running (s : BudgetKeyProvider) : Prop := invariant (mkProviderSystem s []).

Lemma provider_reachable_invariant `{TimeframeLogs} `{BudgetKeyLogs} s0 σ : running s0 → reachable s0 σ → invariant σ.
Proof. intros R. induction 1 as [|σ actions σ' _ IH Hs]; [exact R|].
  destruct (step_spec σ actions σ' Hs IH) as [I _]. by destruct σ'. Qed.

Section serving.
  Context `{TimeframeLogs} `{BudgetKeyLogs}.

(** C8: whatever clients, the journal, the collector and the timeframe managers
    do, in any order: a key the provider gives to a client has the name the
    client asked for, a timeframe manager of that name with the complement of the
    key's id, and the protocol for single budgets on that manager; and a key that
    is loaded keeps its manager, so that the budget in it is never replaced by a
    second load. At most one call at a time loads a key. *)
Theorem served_keys_ready s0 σ actions σ' :
  running s0 → reachable s0 σ → step σ actions σ' →
  (∀ ctx r k, FinishGet ctx r (Some k) ∈ actions →
     ∃ key, key_heap (objects (provider σ')) !! k = Some key ∧ name_ key = budget_key_name ctx ∧
       ready (objects (provider σ')) key) ∧
  (∀ p pair key, pair_key (provider σ) p pair key → pair_is_loaded pair = true →
     pair_key (provider σ') p pair key) ∧
  (∀ p, is_Some (pair_heap (provider σ') !! p) → (loads (in_flight σ') p ≤ 1)%nat).
Proof.
  intros R Hr Hs. destruct (step_spec σ actions σ' Hs (provider_reachable_invariant s0 σ R Hr)) as (I & Hk & Hserved).
  split_and!.
  - intros ctx r k Hin. destruct (Hserved ctx r k Hin) as (key & ? & ? & ? & _). by exists key.
  - exact Hk.
  - intros p [pair Hp]. destruct (inv_pairs _ I p pair Hp) as (key & _ & _ & _ & _ & Hle). done.
Qed.

(** No key the provider gives has the protocol for batches: nothing ever makes
    it, so that a command that consumes a batch of budgets of the key has no
    protocol to call. *)
Theorem batch_protocol_missing s0 σ actions σ' ctx r k :
  running s0 → reachable s0 σ → step σ actions σ' → FinishGet ctx r (Some k) ∈ actions →
  ∃ key, key_heap (objects (provider σ')) !! k = Some key ∧
    batch_consume_budget_transaction_protocol_ key = None.
Proof.
  intros R Hr Hs Hin. destruct (step_spec σ actions σ' Hs (provider_reachable_invariant s0 σ R Hr)) as (_ & _ & Hserved).
  destruct (Hserved ctx r k Hin) as (key & ? & _ & _ & ?). by exists key.
Qed.

End serving.
