(* ===== verification/BudgetKeyRecovery.v ===== *)
(** * Checkpoint and recovery of the budget keys

    A checkpoint of the provider holds, for each key of the cache, the provider's
    log, the key's log and the days of the key's timeframe manager. Replayed by
    the journal service, each log reaches the component that wrote it, which the
    logs before it have made and subscribed: the provider gives back the keys with
    their days. *)

From S2P Require Import Prelude ExecutionResult ErrorCodes Uuid ConcurrentMap Serialization AutoExpiryMap AutoExpiryView TimeframeLog TimeframeManager TimeframeCache TimeframeRecovery JournalService BudgetKey BudgetKeyProvider.
From stdpp Require Import options.

Local Open Scope Z_scope.

(** ** What the provider holds *)

(** The days of a timeframe manager, with their timeframes. *)
Abbreviation Days := (gmap Z (gmap Z BudgetKeyTimeframe)).

(** A key without a timeframe manager has no days. *)
Record KeyView := mkKeyView { view_id : Uuid; view_days : option Days }.

Definition key_view (o : Objects) (key : BudgetKey) : KeyView :=
  mkKeyView (id_ key) ((λ mo, snapshot (manager_data mo)) <$> (budget_key_timeframe_manager_ key ≫= (manager_heap o !!.))).

(** The keys by name. *)
Definition provider_view (s : BudgetKeyProvider) : gmap string KeyView :=
  omap (λ r, p ← pair_heap s !! entry r;
             key ← key_heap (objects s) !! budget_key p;
             Some (key_view (objects s) key)) (entries (budget_keys_ s)).

(** After recovery every key has a timeframe manager. *)
Definition restored (v : KeyView) : KeyView := mkKeyView (view_id v) (Some (default ∅ (view_days v))).

(** The ids of the keys, of their timeframe managers and of the provider are
    different. *)
Definition distinct_ids (M : gmap string KeyView) : Prop :=
  (∀ n v, M !! n = Some v →
     view_id v ≠ kBudgetKeyProviderId ∧ GetTimeframeManagerId (view_id v) ≠ kBudgetKeyProviderId) ∧
  (∀ n1 v1 n2 v2, M !! n1 = Some v1 → M !! n2 = Some v2 →
     (view_id v1 = view_id v2 → n1 = n2) ∧ view_id v1 ≠ GetTimeframeManagerId (view_id v2)).

Lemma complement_involutive x : is_u64 x → complement (complement x) = x.
Proof.
  unfold is_u64, complement, u64, Z.lnot. intros Hx. rewrite !Z.sub_pred_r || idtac.
  replace (Z.pred (- x)) with (- 1 - x) by lia.
  replace ((-1 - x) mod 2 ^ 64) with (2 ^ 64 - 1 - x)
    by (symmetry; rewrite <- (Z.mod_add _ 1) by lia; rewrite Z.mod_small; lia).
  replace (Z.pred (- (2 ^ 64 - 1 - x))) with (x + -1 * 2 ^ 64) by lia.
  rewrite Z.mod_add by lia. by rewrite Z.mod_small.
Qed.

Lemma GetTimeframeManagerId_involutive id : valid_uuid id → GetTimeframeManagerId (GetTimeframeManagerId id) = id.
Proof. intros [Hh Hl]. destruct id. unfold GetTimeframeManagerId; simpl in *. by rewrite !complement_involutive. Qed.

Lemma GetTimeframeManagerId_valid id : valid_uuid (GetTimeframeManagerId id).
Proof. split; apply u64_range. Qed.

Lemma GetTimeframeManagerId_inj id1 id2 : valid_uuid id1 → valid_uuid id2 →
  GetTimeframeManagerId id1 = GetTimeframeManagerId id2 → id1 = id2.
Proof.
  intros H1 H2 He. rewrite <- (GetTimeframeManagerId_involutive id1), He by done.
  by apply GetTimeframeManagerId_involutive.
Qed.

(** No uuid is its own complement. *)
Lemma GetTimeframeManagerId_ne id : valid_uuid id → GetTimeframeManagerId id ≠ id.
Proof.
  intros [[Hh1 Hh2] _] [= He _]%(f_equal (λ u, (high u, low u))).
  simpl in He. unfold complement, u64, Z.lnot in He.
  replace (Z.pred (- high id)) with (- 1 - high id) in He by lia.
  assert ((-1 - high id) mod 2 ^ 64 = 2 ^ 64 - 1 - high id) as Hm
    by (rewrite <- (Z.mod_add _ 1) by lia; rewrite Z.mod_small; lia).
  rewrite Hm in He. lia.
Qed.

(** ** Providers at rest *)

Section rest.
  Context `{TimeframeLogsLaws} (valid_name : string → Prop) `{!BudgetKeyLogs} `{!BudgetKeyLogsLaws valid_name}.
  #[local] Set Default Proof Using "Type*".
  Local Abbreviation cache := budget_keys_.

(** A key that can be logged, whose timeframe manager can be. *)
Definition valid_key (o : Objects) (name : string) (key : BudgetKey) : Prop :=
  name_ key = name ∧ valid_name name ∧ valid_uuid (id_ key) ∧
  ∀ m, budget_key_timeframe_manager_ key = Some m →
    ∃ mo, manager_heap o !! m = Some mo ∧ manager_key_name mo = name ∧
      manager_id mo = GetTimeframeManagerId (id_ key) ∧
      valid_manager (manager_data mo) ∧ none_evicted (manager_data mo).

(** The pair and the key of a name. *)
Definition holds (s : BudgetKeyProvider) (name : string) (r : AutoExpiryConcurrentMapEntry (V := pair_loc))
    (p : BudgetKeyProviderPair) (key : BudgetKey) : Prop :=
  entries (cache s) !! name = Some r ∧ being_evicted r = false ∧ pair_heap s !! entry r = Some p ∧
  key_heap (objects s) !! budget_key p = Some key ∧ valid_key (objects s) name key.

(** The provider's pointers are valid, its keys can be logged, and neither a key
    nor a day is being unloaded. *)
Record at_rest (s : BudgetKeyProvider) : Prop := {
  rest_cache : well_formed_map (cache s);
  rest_keys name r : entries (cache s) !! name = Some r → ∃ p key, holds s name r p key;
}.

Lemma holds_view s name r p key : holds s name r p key → provider_view s !! name = Some (key_view (objects s) key).
Proof. intros (He & _ & Hp & Hk & _). unfold provider_view. rewrite lookup_omap, He. simpl. by rewrite Hp; simpl; rewrite Hk. Qed.

Lemma view_holds s name v : at_rest s → provider_view s !! name = Some v →
  ∃ r p key, holds s name r p key ∧ v = key_view (objects s) key.
Proof.
  intros R Hv. assert (is_Some (entries (cache s) !! name)) as [r Hr].
  { unfold provider_view in Hv. rewrite lookup_omap in Hv. by destruct (entries (cache s) !! name). }
  destruct (rest_keys _ R _ _ Hr) as (p & key & Hh). exists r, p, key. split; [done|].
  rewrite (holds_view _ _ _ _ _ Hh) in Hv. congruence.
Qed.

Lemma view_None s name : at_rest s → provider_view s !! name = None ↔ entries (cache s) !! name = None.
Proof.
  intros R. destruct (entries (cache s) !! name) as [r|] eqn:Hr.
  - destruct (rest_keys _ R _ _ Hr) as (p & key & Hh). by rewrite (holds_view _ _ _ _ _ Hh).
  - unfold provider_view. by rewrite lookup_omap, Hr.
Qed.

(** A provider whose keys are those of [s], but for the fields of entries, pairs
    and keys that do not matter for what it holds. *)
Lemma rest_keep s s' :
  at_rest s → well_formed_map (cache s') →
  (∀ name r', entries (cache s') !! name = Some r' →
     ∃ r p key p' key', holds s name r p key ∧ holds s' name r' p' key' ∧
       key_view (objects s') key' = key_view (objects s) key) →
  dom (entries (cache s')) = dom (entries (cache s)) →
  at_rest s' ∧ provider_view s' = provider_view s.
Proof.
  intros R W Hk Hd. assert (at_rest s') as R'.
  { constructor; [done|]. intros name r' Hr'. destruct (Hk _ _ Hr') as (? & ? & ? & p' & key' & _ & ? & _). eauto. }
  split; [done|]. apply map_eq. intros name. destruct (entries (cache s') !! name) as [r'|] eqn:Hr'.
  - destruct (Hk _ _ Hr') as (r & p & key & p' & key' & Hh & Hh' & Hv).
    rewrite (holds_view _ _ _ _ _ Hh), (holds_view _ _ _ _ _ Hh'). by rewrite Hv.
  - rewrite (proj2 (view_None s' name R') Hr'). symmetry. apply view_None; [done|].
    apply not_elem_of_dom. rewrite <- Hd. by apply not_elem_of_dom.
Qed.

(** Accessing a key changes when it expires, and nothing else. *)
Lemma touch_key now s name r p key : at_rest s → holds s name r p key →
  ∃ c', AutoExpiryMap.Find provider_config now (cache s) name = (SuccessExecutionResult, Some (entry r), c') ∧
    let s' := with_budget_keys c' s in
    at_rest s' ∧ provider_view s' = provider_view s ∧ (∃ r', holds s' name r' p key ∧ entry r' = entry r) ∧
    ∀ n, entry <$> entries c' !! n = entry <$> entries (cache s) !! n.
Proof.
  intros R Hh. pose proof Hh as (He & Hb & Hp & Hk & Hv).
  destruct (Find_answers provider_config now eq_refl eq_refl (cache s) name (rest_cache _ R)) as (c' & W' & Hf).
  rewrite He, Hb in Hf. destruct Hf as [Hf Hes]. exists c'. split; [done|].
  destruct (extended_flags now provider_config r) as (Hxb & _ & Hxe).
  set (r' := extended provider_config now r) in *.
  assert (holds (with_budget_keys c' s) name r' p key) as Hh'.
  { split_and!; [cbn; by rewrite Hes, lookup_insert_eq|by rewrite Hxb|by rewrite Hxe|done|done]. }
  destruct (rest_keep s (with_budget_keys c' s) R W') as [R' Hview'].
  - intros n r0. simpl. rewrite Hes. intros [[<- <-]|[Hne Hr0]]%lookup_insert_Some; [by exists r, p, key, p, key|].
    destruct (rest_keys _ R _ _ Hr0) as (p0 & key0 & Hh0). exists r0, p0, key0, p0, key0.
    split; [done|]. split; [|done]. destruct Hh0 as (He0 & Hb0 & Hp0 & Hk0 & Hv0).
    split_and!; [cbn; by rewrite Hes, lookup_insert_ne|done..].
  - simpl. rewrite Hes. apply dom_insert_lookup_L. by rewrite He.
  - split; [done|]. split; [done|]. split; [by exists r'|]. intros n. rewrite Hes.
    destruct (decide (n = name)) as [->|Hne]; [|by rewrite lookup_insert_ne].
    rewrite lookup_insert_eq, He. simpl. by rewrite Hxe.
Qed.

(** Two names do not share a key or a timeframe manager. *)
Lemma holds_key_name s n1 r1 p1 k1 n2 r2 p2 k2 :
  holds s n1 r1 p1 k1 → holds s n2 r2 p2 k2 → budget_key p1 = budget_key p2 → n1 = n2.
Proof.
  intros (_ & _ & _ & Hk1 & (Hn1 & _)) (_ & _ & _ & Hk2 & (Hn2 & _)) He. rewrite He in Hk1. congruence.
Qed.

Lemma holds_manager_name s n1 r1 p1 k1 n2 r2 p2 k2 m :
  holds s n1 r1 p1 k1 → holds s n2 r2 p2 k2 → budget_key_timeframe_manager_ k1 = Some m →
  budget_key_timeframe_manager_ k2 = Some m → n1 = n2.
Proof.
  intros (_ & _ & _ & _ & (_ & _ & _ & Hm1)) (_ & _ & _ & _ & (_ & _ & _ & Hm2)) Hk1 Hk2.
  destruct (Hm1 _ Hk1) as (mo1 & Hmo1 & Hn1 & _), (Hm2 _ Hk2) as (mo2 & Hmo2 & Hn2 & _). congruence.
Qed.

(** The key of a name changes, or a new one is put in the cache; the others stay
    what they were. *)
Lemma rest_put s s' name r p key :
  at_rest s → well_formed_map (cache s') → entries (cache s') = <[name := r]> (entries (cache s)) →
  holds s' name r p key →
  (∀ n r0 p0 key0, n ≠ name → holds s n r0 p0 key0 →
     holds s' n r0 p0 key0 ∧ key_view (objects s') key0 = key_view (objects s) key0) →
  at_rest s' ∧ provider_view s' = <[name := key_view (objects s') key]> (provider_view s).
Proof.
  intros R W He Hh Hold. assert (at_rest s') as R'.
  { constructor; [done|]. intros n r0. rewrite He.
    intros [[<- <-]|[Hne Hr0]]%lookup_insert_Some; [by exists p, key|].
    destruct (rest_keys _ R _ _ Hr0) as (p0 & key0 & Hh0). exists p0, key0. by apply Hold. }
  split; [done|]. apply map_eq. intros n. destruct (decide (n = name)) as [->|Hne].
  - by rewrite lookup_insert_eq, (holds_view _ _ _ _ _ Hh).
  - rewrite lookup_insert_ne by done. destruct (entries (cache s) !! n) as [r0|] eqn:Hr0.
    + destruct (rest_keys _ R _ _ Hr0) as (p0 & key0 & Hh0). destruct (Hold _ _ _ _ Hne Hh0) as [Hh0' Hv].
      by rewrite (holds_view _ _ _ _ _ Hh0), (holds_view _ _ _ _ _ Hh0'), Hv.
    + rewrite (proj2 (view_None s n R) Hr0). apply view_None; [done|]. by rewrite He, lookup_insert_ne.
Qed.

(** The data of a key's timeframe manager is replaced. *)
Lemma write_manager_rest s name r p key m mo d :
  at_rest s → holds s name r p key → budget_key_timeframe_manager_ key = Some m →
  manager_heap (objects s) !! m = Some mo → valid_manager d → none_evicted d →
  let s' := with_objects (write_manager m d (objects s)) s in
  holds s' name r p key ∧
  (∀ n r0 p0 key0, n ≠ name → holds s n r0 p0 key0 →
     holds s' n r0 p0 key0 ∧ key_view (objects s') key0 = key_view (objects s) key0) ∧
  at_rest s' ∧ provider_view s' = <[name := mkKeyView (id_ key) (Some (snapshot d))]> (provider_view s).
Proof.
  intros R Hh Hm Hmo Vd Nd s'.
  assert (manager_heap (objects s') !! m = Some (set_manager_data d mo)) as Hmo'.
  { simpl. by rewrite lookup_alter_eq, Hmo. }
  assert (holds s' name r p key) as Hh'.
  { pose proof Hh as (He & Hb & Hp & Hk & (Hn & Hvn & Hid & Hms)).
    refine (conj He (conj Hb (conj Hp (conj Hk (conj Hn (conj Hvn (conj Hid _))))))). intros m' Hm'.
    assert (m' = m) as -> by congruence. destruct (Hms m Hm) as (mo' & Hmo2 & Hmn & Hmi & _).
    assert (mo' = mo) as -> by congruence. eexists. split; [exact Hmo'|]. by split_and!. }
  assert (∀ n r0 p0 key0, n ≠ name → holds s n r0 p0 key0 →
    holds s' n r0 p0 key0 ∧ key_view (objects s') key0 = key_view (objects s) key0) as Hold.
  { intros n r0 p0 key0 Hne Hh0. pose proof Hh0 as (He & Hb & Hp & Hk & (Hn & Hvn & Hid & Hms)).
    assert (∀ m', budget_key_timeframe_manager_ key0 = Some m' →
      manager_heap (objects s') !! m' = manager_heap (objects s) !! m') as Hsame.
    { intros m' Hm'. simpl. apply lookup_alter_ne. intros <-. apply Hne.
      by apply (holds_manager_name s n r0 p0 key0 name r p key m). }
    split.
    - refine (conj He (conj Hb (conj Hp (conj Hk (conj Hn (conj Hvn (conj Hid _))))))).
      intros m' Hm'. rewrite (Hsame _ Hm'). by apply Hms.
    - unfold key_view. destruct (budget_key_timeframe_manager_ key0) as [m'|] eqn:Hm'; [|done].
      cbn [mbind option_bind]. by rewrite (Hsame m'). }
  destruct (rest_put s s' name r p key R (rest_cache _ R)) as [R' Hview'].
  - symmetry. apply insert_id, Hh.
  - done.
  - done.
  - split; [done|]. split; [done|]. split; [done|]. rewrite Hview'. f_equal. unfold key_view. rewrite Hm.
    cbn [mbind option_bind]. by rewrite Hmo'.
Qed.

(** ** The logs of a checkpoint *)

(** The journal keeps the bytes of the log. *)
Definition stored (log : JournalLogRequest) : Prop := BytesBufferOf (BufferContents (log_data log)) = log_data log.

Definition pair_log (name : string) (v : KeyView) (log : JournalLogRequest) : Prop :=
  component_id log = kBudgetKeyProviderId ∧ stored log ∧
  read_pair (log_data log) = Some (SuccessExecutionResult, Some (mkProviderLog_1_0 LOAD_INTO_CACHE name (view_id v))).

(** The key's own log and those of its days. *)
Definition key_logs (v : KeyView) (logs : list JournalLogRequest) : Prop :=
  ∃ log day_logs days, logs = log :: day_logs ∧
    component_id log = view_id v ∧ stored log ∧
    read_key (log_data log) = Some (SuccessExecutionResult, Some (GetTimeframeManagerId (view_id v))) ∧
    NoDup days.*1 ∧ list_to_map days = default ∅ (view_days v) ∧
    Forall2 (λ '(tg, day) b, journals_day b tg day ∧ good_day tg day) days (log_data <$> day_logs) ∧
    Forall (λ l, component_id l = GetTimeframeManagerId (view_id v) ∧ stored l) day_logs.

(** The ids of [logs] are the ones generated after the first [n]. *)
Definition ids_from (a : Answers) (n : nat) (logs : list JournalLogRequest) : Prop :=
  log_id <$> logs = generated a <$> seq n (length logs).

Lemma ids_from_app a n logs1 logs2 :
  ids_from a n logs1 → ids_from a (n + length logs1) logs2 → ids_from a n (logs1 ++ logs2).
Proof.
  unfold ids_from. intros Hi1 Hi2. by rewrite length_app, seq_app, !fmap_app, Hi1, Hi2.
Qed.

Lemma ids_from_cons a n log logs :
  log_id log = generated a n → ids_from a (S n) logs → ids_from a n (log :: logs).
Proof. unfold ids_from. intros Hi1 Hi2. rewrite fmap_cons, Hi1, Hi2. done. Qed.

(** The logs of a checkpoint of the keys [names]. *)
Lemma checkpoint_pairs_spec a n names s :
  at_rest s → (∀ name, name ∈ names → is_Some (provider_view s !! name)) →
  ∃ s' logs, BudgetKeyProvider.checkpoint_pairs a n names s = Some (SuccessExecutionResult, s', logs) ∧
    at_rest s' ∧ provider_view s' = provider_view s ∧ ids_from a n logs ∧
    Forall2 (λ name log, ∃ v, provider_view s !! name = Some v ∧ pair_log name v log) names logs.
Proof.
  revert n s. induction names as [|name names IH]; intros n s R Hin; [by eexists s, []|].
  destruct (Hin name) as [v Hv]; [by left|].
  destruct (view_holds s name v R Hv) as (r & p & key & Hh & ->).
  destruct (touch_key (now a) s name r p key R Hh) as (c' & Hf & R1 & Hview1 & (r1 & Hh1 & He1) & _).
  cbn [BudgetKeyProvider.checkpoint_pairs]. rewrite Hf.
  change (negb (Successful SuccessExecutionResult)) with false. cbn iota. cbn [mbind option_bind].
  pose proof Hh as (_ & _ & Hp & Hk & (Hn & Hvn & Hid & _)).
  unfold BudgetKeyProvider.serialize_pair.
  change (pair_heap (with_budget_keys c' s)) with (pair_heap s). rewrite Hp. cbn [mbind option_bind].
  change (objects (with_budget_keys c' s)) with (objects s). rewrite Hk. cbn [mbind option_bind].
  destruct (write_pair_law LOAD_INTO_CACHE name (id_ key)) as (b & Hw & Hb & Hr); [done..|].
  rewrite Hn, Hw. cbn [mbind option_bind]. change (negb (Successful SuccessExecutionResult)) with false. cbn iota.
  destruct (IH (S n) (with_budget_keys c' s) R1) as (s' & logs & Hc & R' & Hview' & Hids & Hlogs).
  { intros name' Hname'. rewrite Hview1. apply Hin. by right. }
  rewrite Hc. cbn [mbind option_bind]. eexists _, _. split; [done|]. rewrite Hview1 in Hlogs, Hview'.
  split_and!; [done|done|by apply ids_from_cons|]. constructor; [|done].
  exists (key_view (objects s) key). split; [done|]. by split_and!.
Qed.

Lemma key_Checkpoint_spec a n s name r p key :
  at_rest s → holds s name r p key →
  ∃ o' logs, BudgetKey.Checkpoint a n (budget_key p) (objects s) = Some (SuccessExecutionResult, o', logs) ∧
    at_rest (with_objects o' s) ∧ provider_view (with_objects o' s) = provider_view s ∧
    ids_from a n logs ∧ key_logs (key_view (objects s) key) logs.
Proof.
  intros R Hh. pose proof Hh as (_ & _ & Hp & Hk & (Hn & Hvn & Hid & Hms)).
  unfold BudgetKey.Checkpoint. rewrite Hk. cbn [mbind option_bind].
  destruct (write_key_law (GetTimeframeManagerId (id_ key))) as (b & Hw & Hb & Hr);
    [apply GetTimeframeManagerId_valid|].
  rewrite Hw. cbn [mbind option_bind]. change (negb (Successful SuccessExecutionResult)) with false. cbn iota zeta.
  set (log := mkLogRequest (id_ key) (generated a n) b).
  destruct (budget_key_timeframe_manager_ key) as [m|] eqn:Hm.
  - destruct (Hms m eq_refl) as (mo & Hmo & Hmn & Hmi & Vd & Nd). rewrite Hmo. cbn [mbind option_bind].
    destruct (Checkpoint_logs (manager_id mo) (BudgetKey.answers_from (S n) a) (manager_data mo) Vd Nd)
      as (d & logs & days & Hc & Vd' & Nd' & Hs & Hnd & Hdays & [Hl1 Hl2 Hl3]).
    rewrite Hc. cbn [mbind option_bind]. eexists _, _. split; [done|].
    destruct (write_manager_rest s name r p key m mo d R Hh Hm Hmo Vd' Nd') as (_ & _ & R' & Hview').
    split; [exact R'|]. split; [|split].
    + rewrite Hview'. apply insert_id. rewrite (holds_view _ _ _ _ _ Hh). unfold key_view.
      rewrite Hm. cbn [mbind option_bind]. rewrite Hmo. simpl. by rewrite Hs.
    + apply ids_from_cons; [done|]. unfold ids_from. rewrite Hl2. simpl.
      pose proof (fmap_add_seq (S n) 0 (length logs)) as Hseq. rewrite Nat.add_0_r in Hseq.
      rewrite <- Hseq, <- list_fmap_compose. done.
    + exists log, logs, days. split_and!; try done.
      * unfold key_view; simpl. rewrite Hm. cbn [mbind option_bind]. rewrite Hmo. simpl. by rewrite Hdays.
      * eapply Forall_impl; [exact Hl3|]. intros l [Hlc Hls]. split; [|exact Hls]. by rewrite Hlc.
  - eexists _, _. split; [done|]. replace (with_objects (objects s) s) with s by by destruct s.
    split_and!; [done|done|by apply ids_from_cons|]. exists log, [], []. split_and!; try done; [by constructor|].
    unfold key_view; simpl. by rewrite Hm.
Qed.

Lemma checkpoint_keys_spec a n names s :
  at_rest s → (∀ name, name ∈ names → is_Some (provider_view s !! name)) →
  ∃ s' logss, BudgetKeyProvider.checkpoint_keys a n names s = Some (SuccessExecutionResult, s', concat logss) ∧
    at_rest s' ∧ provider_view s' = provider_view s ∧ ids_from a n (concat logss) ∧
    Forall2 (λ name logs, ∃ v, provider_view s !! name = Some v ∧ key_logs v logs) names logss.
Proof.
  revert n s. induction names as [|name names IH]; intros n s R Hin; [by eexists s, []|].
  destruct (Hin name) as [v Hv]; [by left|].
  destruct (view_holds s name v R Hv) as (r & p & key & Hh & ->).
  destruct (touch_key (now a) s name r p key R Hh) as (c' & Hf & R1 & Hview1 & (r1 & Hh1 & He1) & _).
  cbn [BudgetKeyProvider.checkpoint_keys]. rewrite Hf.
  change (negb (Successful SuccessExecutionResult)) with false. cbn iota. cbn [mbind option_bind].
  pose proof Hh1 as (_ & _ & Hp & _). rewrite He1 in Hp. rewrite Hp. cbn [mbind option_bind].
  destruct (key_Checkpoint_spec a n _ name r1 p key R1 Hh1) as (o' & logs & Hc & R2 & Hview2 & Hids & Hlogs).
  rewrite Hc. cbn [mbind option_bind]. change (negb (Successful SuccessExecutionResult)) with false. cbn iota.
  destruct (IH (n + length logs)%nat (with_objects o' (with_budget_keys c' s)) R2)
    as (s' & logss & Hc' & R' & Hview' & Hids' & Hlogs').
  { intros name' Hname'. rewrite Hview2, Hview1. apply Hin. by right. }
  rewrite Hc'. cbn [mbind option_bind]. exists s', (logs :: logss). split; [done|].
  rewrite Hview2, Hview1 in *.
  split_and!; [done|done|by apply ids_from_app|]. constructor; [|done]. by exists (key_view (objects s) key).
Qed.

End rest.
