(* ===== verification/BudgetKeyReplay.v ===== *)
(** * Replaying the budget keys' logs through the journal service

    Each log of a checkpoint of the provider finds the component that wrote it
    subscribed, since the logs before it made and subscribed it; replaying all of
    them gives back the keys and their days. *)

From S2P Require Import Prelude ExecutionResult ErrorCodes Uuid ConcurrentMap Serialization AutoExpiryMap AutoExpiryView TimeframeLog TimeframeManager TimeframeCache TimeframeRecovery JournalService BudgetKey BudgetKeyProvider BudgetKeySystem BudgetKeyRecovery.
From stdpp Require Import options.

Local Open Scope Z_scope.

(** The log the journal gives back for a log of a checkpoint. *)
Definition read_log_of (log : JournalLogRequest) : JournalStreamReadLogObject :=
  mkReadLog (component_id log) (log_id log) (BufferContents (log_data log)).

(** The generator gave the logs different ids. *)
Definition distinct_log_ids (logs : list JournalLogRequest) : Prop :=
  Forall (λ log, valid_uuid (log_id log)) logs ∧ NoDup (log_id <$> logs).

Section replay.
  Context `{TimeframeLogsLaws} (valid_name : string → Prop) `{!BudgetKeyLogs} `{!BudgetKeyLogsLaws valid_name}.
  Variable a : Answers.
  #[local] Set Default Proof Using "Type*".
  Local Abbreviation cache := budget_keys_.
  Local Abbreviation at_rest := (at_rest valid_name).
  Local Abbreviation holds := (holds valid_name).
  Local Abbreviation subscribers s := (subscribers_map_ (journal_service_ (objects s))).

#[local] Instance replay_recoverable : Recoverable BudgetKeyProvider Subscriber :=
    BudgetKeyProvider.provider_recoverable a.

(** Nothing is loaded or asked for yet; a key with a timeframe manager has the
    protocol on it. *)
Definition unserved (s : BudgetKeyProvider) : Prop :=
  running s ∧
  (∀ p pair, pair_heap s !! p = Some pair → pair_is_loaded pair = false ∧ pair_needs_loader pair = false) ∧
  (∀ k key, key_heap (objects s) !! k = Some key →
     consume_budget_transaction_protocol_ key = budget_key_timeframe_manager_ key).

(** A provider whose logs are being replayed: the provider, its keys and their
    timeframe managers are subscribed, and nothing else is. *)
Record recovering (s : BudgetKeyProvider) : Prop := {
  recovering_rest : at_rest s;
  recovering_unserved : unserved s;
  recovering_idle : JournalService.is_running_ (journal_service_ (objects s)) = false;
  provider_subscribed : subscribers s !! kBudgetKeyProviderId = Some ProviderSubscriber;
  key_subscribed name r p key : holds s name r p key → subscribers s !! id_ key = Some (KeySubscriber (budget_key p));
  manager_subscribed name r p key m : holds s name r p key → budget_key_timeframe_manager_ key = Some m →
    subscribers s !! GetTimeframeManagerId (id_ key) = Some (ManagerSubscriber m);
  only_subscribed id : is_Some (subscribers s !! id) → id = kBudgetKeyProviderId ∨
    ∃ name v, provider_view s !! name = Some v ∧
      (id = view_id v ∨ id = GetTimeframeManagerId (view_id v) ∧ is_Some (view_days v));
}.

(** One key changes, or is put in the cache, and may subscribe. *)
Lemma recovering_put s s' name r p key :
  recovering s → well_formed_map (cache s') → entries (cache s') = <[name := r]> (entries (cache s)) →
  holds s' name r p key →
  (∀ n r0 p0 key0, n ≠ name → holds s n r0 p0 key0 →
     holds s' n r0 p0 key0 ∧ key_view (objects s') key0 = key_view (objects s) key0) →
  JournalService.is_running_ (journal_service_ (objects s')) = false →
  subscribers s ⊆ subscribers s' →
  subscribers s' !! id_ key = Some (KeySubscriber (budget_key p)) →
  (∀ m, budget_key_timeframe_manager_ key = Some m →
     subscribers s' !! GetTimeframeManagerId (id_ key) = Some (ManagerSubscriber m)) →
  (∀ id, is_Some (subscribers s' !! id) → is_Some (subscribers s !! id) ∨ id = id_ key ∨
     id = GetTimeframeManagerId (id_ key) ∧ is_Some (view_days (key_view (objects s') key))) →
  (∀ v, provider_view s !! name = Some v →
     view_id v = id_ key ∧ (is_Some (view_days v) → is_Some (view_days (key_view (objects s') key)))) →
  unserved s' →
  recovering s' ∧ provider_view s' = <[name := key_view (objects s') key]> (provider_view s).
Proof.
  intros R W He Hh Hold Hidle Hsub Hk Hm Honly Hmono U'.
  destruct (rest_put valid_name s s' name r p key (recovering_rest _ R) W He Hh Hold) as [R' Hview].
  assert (∀ n r0 p0 key0, n ≠ name → holds s' n r0 p0 key0 → holds s n r0 p0 key0) as Hback.
  { intros n r0 p0 key0 Hne Hh0. assert (entries (cache s) !! n = Some r0) as Hr0.
    { pose proof (proj1 Hh0) as Hr0. by rewrite He, lookup_insert_ne in Hr0. }
    destruct (rest_keys _ _ (recovering_rest _ R) _ _ Hr0) as (p1 & key1 & Hh1).
    destruct (Hold _ _ _ _ Hne Hh1) as [Hh1' _].
    destruct Hh0 as (_ & _ & Hp0 & Hk0 & _), Hh1' as (_ & _ & Hp1 & Hk1 & _). by simplify_eq. }
  split; [|done]. constructor; [done|done|done| | | |].
  - eapply lookup_weaken; [apply (provider_subscribed _ R)|done].
  - intros n r0 p0 key0 Hh0. destruct (decide (n = name)) as [->|Hne].
    + destruct Hh0 as (Hr0 & _ & Hp0 & Hk0 & _), Hh as (Hr & _ & Hp & Hk1 & _). by simplify_eq.
    + eapply lookup_weaken; [apply (key_subscribed _ R n r0 p0 key0); by apply Hback|done].
  - intros n r0 p0 key0 m Hh0 Hm0. destruct (decide (n = name)) as [->|Hne].
    + destruct Hh0 as (Hr0 & _ & Hp0 & Hk0 & _), Hh as (Hr & _ & Hp & Hk1 & _). simplify_eq. by apply Hm.
    + eapply lookup_weaken; [apply (manager_subscribed _ R n r0 p0 key0 m); [by apply Hback|done]|done].
  - intros id Hid. destruct (Honly id Hid) as [Hid'|Hid'].
    + destruct (only_subscribed _ R id Hid') as [->|(n & v & Hv & Hc)]; [by left|right].
      destruct (decide (n = name)) as [->|Hne].
      * destruct (Hmono v Hv) as [Hvi Hvd]. exists name, (key_view (objects s') key).
        rewrite Hview, lookup_insert_eq. split; [done|]. simpl. rewrite Hvi in Hc. naive_solver.
      * exists n, v. by rewrite Hview, lookup_insert_ne.
    + right. exists name, (key_view (objects s') key). rewrite Hview, lookup_insert_eq. split; [done|]. simpl. tauto.
Qed.

Lemma fresh_key o : key_heap o !! fresh (dom (key_heap o)) = None.
Proof. apply not_elem_of_dom, is_fresh. Qed.
Lemma fresh_manager o : manager_heap o !! fresh (dom (manager_heap o)) = None.
Proof. apply not_elem_of_dom, is_fresh. Qed.
Lemma fresh_pair s : pair_heap s !! fresh (dom (pair_heap s)) = None.
Proof. apply not_elem_of_dom, is_fresh. Qed.

Lemma subscribe_new (j : JournalService Subscriber) id callback :
  JournalService.is_running_ j = false → subscribers_map_ j !! id = None →
  SubscribeForRecovery id callback j
  = (SuccessExecutionResult, with_subscribers (<[id := callback]> (subscribers_map_ j)) j).
Proof. intros Hj Hid. unfold SubscribeForRecovery. by rewrite Hj, (ConcurrentMap.Insert_None _ _ _ Hid). Qed.

(** The provider's log of a key. *)
Lemma recover_pair_log s name v log :
  recovering s → provider_view s !! name = None → valid_name name → valid_uuid (view_id v) →
  distinct_ids (<[name := v]> (provider_view s)) → pair_log name v log →
  ∃ s', recovers s [read_log_of log] s' ∧ recovering s' ∧
    provider_view s' = <[name := mkKeyView (view_id v) None]> (provider_view s).
Proof.
  intros R Hnone Hvn Hid [Hd1 Hd2] (Hc & Hb & Hread). set (id := view_id v) in *.
  assert (subscribers s !! id = None) as Hfree.
  { pose proof (lookup_insert_eq (provider_view s) name v) as Hin.
    apply eq_None_not_Some. intros [Heq|(n & v' & Hv & Hor)]%(only_subscribed _ R).
    - by apply (proj1 (Hd1 name v Hin)).
    - assert (n ≠ name) as Hne by congruence.
      destruct (Hd2 name v n v' Hin) as [Hneq1 Hneq2]; [by rewrite lookup_insert_ne|].
      destruct Hor as [Hor|[Hor _]]; [by apply Hne, eq_sym, Hneq1|by apply Hneq2]. }
  destruct (make_key name id (objects s)) as [k o1] eqn:Hmk. injection Hmk as Hk Ho1.
  pose proof (fresh_key (objects s)) as Hfk. rewrite Hk in Hfk, Ho1.
  set (np := fresh (dom (pair_heap s))). pose proof (fresh_pair s) as Hfp. fold np in Hfp.
  set (key := mkBudgetKey name id None None None) in *.
  destruct (Insert_answers provider_config (now a) eq_refl eq_refl (cache s) name np
    (rest_cache _ _ (recovering_rest _ R))) as (c' & W' & Hi).
  rewrite (proj1 (view_None valid_name s name (recovering_rest _ R)) Hnone) in Hi. destruct Hi as [Hi He].
  set (j' := with_subscribers (<[id := KeySubscriber k]> (subscribers s)) (journal_service_ (objects s))).
  set (s' := mkProvider c' (<[np := mkPair k false false]> (pair_heap s)) (with_journal_service j' o1)).
  assert (recover_log ProviderSubscriber (log_data log) s = Some (SuccessExecutionResult, s')) as Hrec.
  { cbn [recover_log replay_recoverable BudgetKeyProvider.provider_recoverable].
    unfold BudgetKeyProvider.OnJournalServiceRecoverCallback. rewrite Hread. cbn [mbind option_bind].
    change (negb (Successful SuccessExecutionResult)) with false. cbn iota. cbn [mbind option_bind].
    cbn [log_budget_key_name log_key_id operation_type]. fold id. unfold make_key. rewrite Hk. fold key. rewrite Ho1.
    unfold BudgetKeyProvider.recover_load, make_provider_pair.
    change (pair_heap (with_objects o1 s)) with (pair_heap s). fold np.
    change (budget_keys_ (with_pairs _ _)) with (budget_keys_ s). rewrite Hi.
    change (negb (Successful SuccessExecutionResult)) with false. cbn iota. cbn [default from_option].
    unfold BudgetKey.Init. cbn [objects with_budget_keys with_pairs with_objects].
    assert (key_heap o1 !! k = Some key) as -> by (rewrite <- Ho1; simpl; by rewrite lookup_insert_eq).
    cbn [mbind option_bind]. replace (journal_service_ o1) with (journal_service_ (objects s)) by by rewrite <- Ho1.
    rewrite subscribe_new by (exact Hfree || apply (recovering_idle _ R)). done. }
  exists s'. split.
  { apply (recovers_one _ ProviderSubscriber).
    - simpl. rewrite Hc. apply (provider_subscribed _ R).
    - simpl. rewrite Hb. exact Hrec. }
  assert (holds s' name (NewEntry (now a) np 300) (mkPair k false false) key) as Hh.
  { split_and!; try done; [simpl; by rewrite He, lookup_insert_eq|simpl; by rewrite lookup_insert_eq|].
    simpl. rewrite <- Ho1. simpl. by rewrite lookup_insert_eq. }
  destruct (recovering_put s s' name (NewEntry (now a) np 300) (mkPair k false false) key) as [R' Hview]; try done.
  - intros n r0 p0 key0 Hne (Hr0 & Hb0 & Hp0 & Hk0 & Hv0). split; [|unfold key_view; simpl; by rewrite <- Ho1].
    assert (objects s' = with_journal_service j' o1) as Hos by done.
    refine (conj _ (conj Hb0 (conj _ (conj _ _)))).
    + simpl. by rewrite He, lookup_insert_ne.
    + simpl. rewrite lookup_insert_ne; [done|]. congruence.
    + rewrite Hos, <- Ho1. simpl. rewrite lookup_insert_ne; [done|]. congruence.
    + rewrite Hos, <- Ho1. exact Hv0.
  - apply (recovering_idle _ R).
  - simpl. by apply insert_subseteq.
  - simpl. by rewrite lookup_insert_eq.
  - intros id'. simpl.
    destruct (decide (id' = id)) as [->|Hne]; [by right; left|]. rewrite lookup_insert_ne by done. by left.
  - congruence.
  - destruct (recovering_unserved _ R) as (I & Hflags & Hprot).
    assert (objects s' = with_journal_service j' o1) as Hos by done.
    assert (pair_key s' np (mkPair k false false) key) as Hpk by (split; apply Hh).
    split_and!.
    + apply (invariant_focus s s' [] [] np (mkPair k false false) key I W'); try done.
      * intros n r'. simpl. rewrite He. intros [[<- <-]|[_ Hr']]%lookup_insert_Some; [right|left; by exists r'].
        exists (mkPair k false false), key. by split.
      * intros m0 mo0 Hm0. exists mo0. rewrite Hos, <- Ho1. by split.
      * exists key. split_and!; try done; unfold loads; simpl; try lia; apply Hpk.
      * intros q Hq. simpl. by rewrite lookup_insert_ne.
      * intros k' Hk'. rewrite Hos, <- Ho1. simpl. by rewrite lookup_insert_ne.
      * intros pair0. by rewrite Hfp.
      * intros action. by intros ?%elem_of_nil.
    + intros p pair. simpl. intros [[<- <-]|[_ Hp]]%lookup_insert_Some; [done|by apply (Hflags p)].
    + intros k' key'. rewrite Hos, <- Ho1. simpl. intros [[<- <-]|[_ Hk']]%lookup_insert_Some; [done|by apply (Hprot k')].
Qed.

(** The log of a key: the key gets its timeframe manager. *)
Lemma recover_key_log s name id log :
  recovering s → provider_view s !! name = Some (mkKeyView id None) → distinct_ids (provider_view s) →
  component_id log = id → stored log →
  read_key (log_data log) = Some (SuccessExecutionResult, Some (GetTimeframeManagerId id)) →
  ∃ s', recovers s [read_log_of log] s' ∧ recovering s' ∧
    provider_view s' = <[name := mkKeyView id (Some ∅)]> (provider_view s).
Proof.
  intros R Hv [Hd1 Hd2] Hc Hb Hread.
  destruct (view_holds valid_name s name _ (recovering_rest _ R) Hv) as (r & p & key & Hh & Hkv).
  pose proof Hh as (Hr & Hbe & Hp & Hk & (Hn & Hvn & Hid & Hms)).
  assert (id_ key = id) as Hki by by injection Hkv.
  assert (budget_key_timeframe_manager_ key = None) as Hm.
  { destruct (budget_key_timeframe_manager_ key) as [m|] eqn:Hm; [|done].
    destruct (Hms m eq_refl) as (mo & Hmo & _). injection Hkv as _ Hkv. rewrite Hm in Hkv.
    cbn [mbind option_bind] in Hkv. by rewrite Hmo in Hkv. }
  set (k := budget_key p) in *. set (mid := GetTimeframeManagerId id) in *.
  assert (subscribers s !! mid = None) as Hfree.
  { apply eq_None_not_Some. intros [Heq|(n & v' & Hv' & Hor)]%(only_subscribed _ R).
    - by apply (proj2 (Hd1 name _ Hv)).
    - destruct Hor as [Hor|[Hor Hdays]].
      + by apply (proj2 (Hd2 n v' name _ Hv' Hv)).
      + destruct (view_holds valid_name s n _ (recovering_rest _ R) Hv') as (r1 & p1 & key1 & Hh1 & Hkv1).
        assert (view_id v' = id) as Hvi.
        { symmetry. apply GetTimeframeManagerId_inj; [by rewrite <- Hki|rewrite Hkv1; apply Hh1|exact Hor]. }
        assert (n = name) as -> by by apply (Hd2 n v' name _ Hv' Hv).
        rewrite Hv in Hv'. injection Hv' as <-. by destruct Hdays. }
  set (o := objects s) in *. set (m := fresh (dom (manager_heap o))).
  pose proof (fresh_manager o) as Hfm. fold m in Hfm.
  set (mo := mkManagerObject name mid NewManager).
  set (key' := mkBudgetKey name id (Some m) (Some m) (batch_consume_budget_transaction_protocol_ key)).
  set (j' := with_subscribers (<[mid := ManagerSubscriber m]> (subscribers s)) (journal_service_ o)).
  set (o' := mkObjects (<[k := key']> (key_heap o)) (<[m := mo]> (manager_heap o)) j').
  assert (recover_log (KeySubscriber k) (log_data log) s = Some (SuccessExecutionResult, with_objects o' s)) as Hrec.
  { cbn [recover_log replay_recoverable BudgetKeyProvider.provider_recoverable]. fold o.
    unfold BudgetKey.OnJournalServiceRecoverCallback. rewrite Hread. cbn [mbind option_bind].
    change (negb (Successful SuccessExecutionResult)) with false. cbn iota. cbn [mbind option_bind].
    rewrite Hk. cbn [mbind option_bind]. unfold make_manager. fold m. rewrite Hn. fold mo.
    unfold assign_manager. cbn [key_heap with_managers manager_heap]. rewrite Hk. cbn [mbind option_bind].
    rewrite Hm, Hn, Hki. fold key'. cbn [destroy_manager mbind option_bind]. unfold InitManager.
    cbn [manager_heap with_keys with_managers journal_service_]. rewrite lookup_insert_eq. cbn [mbind option_bind].
    change (manager_id mo) with mid. rewrite subscribe_new by (exact Hfree || apply (recovering_idle _ R)). done. }
  exists (with_objects o' s). split.
  { apply (recovers_one _ (KeySubscriber k)).
    - simpl. rewrite Hc, <- Hki. by apply (key_subscribed _ R name r p key).
    - simpl. rewrite Hb. exact Hrec. }
  assert (holds (with_objects o' s) name r p key') as Hh'.
  { refine (conj Hr (conj Hbe (conj Hp (conj _ (conj eq_refl (conj Hvn (conj _ _))))))).
    - simpl. by rewrite lookup_insert_eq.
    - simpl. by rewrite <- Hki.
    - intros m' [= <-]. exists mo. simpl. rewrite lookup_insert_eq.
      split; [done|]. split; [done|]. split; [done|].
      split; [constructor; [apply empty_map_well_formed|]|]; intros tg r'; simpl;
        by rewrite empty_map_entries, lookup_empty. }
  assert (key_view o' key' = mkKeyView id (Some ∅)) as Hkv'.
  { unfold key_view; simpl. rewrite lookup_insert_eq. simpl. f_equal. }
  destruct (recovering_put s (with_objects o' s) name r p key') as [R' Hview]; try done.
  - apply (rest_cache _ _ (recovering_rest _ R)).
  - simpl. symmetry. by apply insert_id.
  - intros n r0 p0 key0 Hne Hh0. pose proof Hh0 as (Hr0 & Hb0 & Hp0 & Hk0 & (Hn0 & Hvn0 & Hid0 & Hms0)).
    assert (budget_key p0 ≠ k) as Hnk.
    { intros Heq. apply Hne. by apply (holds_key_name valid_name s n r0 p0 key0 name r p key). }
    assert (∀ m0, budget_key_timeframe_manager_ key0 = Some m0 → manager_heap o' !! m0 = manager_heap o !! m0) as Hsame.
    { intros m0 Hm0. simpl. apply lookup_insert_ne. intros <-. destruct (Hms0 _ Hm0) as (mo0 & Hmo0 & _).
      fold o in Hmo0. congruence. }
    split.
    + refine (conj Hr0 (conj Hb0 (conj Hp0 (conj _ (conj Hn0 (conj Hvn0 (conj Hid0 _))))))).
      * simpl. by rewrite lookup_insert_ne.
      * intros m0 Hm0. change (manager_heap (objects (with_objects o' s))) with (manager_heap o').
        rewrite (Hsame _ Hm0). by apply Hms0.
    + unfold key_view. cbn [objects with_objects].
      destruct (budget_key_timeframe_manager_ key0) as [m0|] eqn:Hm0; [|done].
      cbn [mbind option_bind]. by rewrite (Hsame m0 eq_refl).
  - apply (recovering_idle _ R).
  - simpl. by apply insert_subseteq.
  - simpl. rewrite lookup_insert_ne.
    + rewrite <- Hki. by apply (key_subscribed _ R name r p key).
    + unfold mid. rewrite <- Hki. by apply GetTimeframeManagerId_ne.
  - intros m' [= <-]. simpl. by rewrite lookup_insert_eq.
  - intros id'. simpl. destruct (decide (id' = mid)) as [->|Hne].
    + intros _. right; right. split; [done|]. change (is_Some (view_days (key_view o' key'))). by rewrite Hkv'.
    + rewrite lookup_insert_ne by done. by left.
  - intros v'. rewrite Hv. intros [= <-]. split; [done|by intros []].
  - destruct (recovering_unserved _ R) as (I & Hflags & Hprot).
    assert (managers_grow o o') as Hmg.
    { intros m0 mo0 Hm0. exists mo0. simpl. rewrite lookup_insert_ne; [done|]. congruence. }
    destruct (inv_pairs _ I (entry r) p Hp) as (key0 & Hkey0 & Hbatch & _). simpl in Hkey0. fold o k in Hkey0.
    assert (key0 = key) as -> by congruence. destruct (Hflags _ _ Hp) as [Hil Hnl].
    split_and!; [|done|].
    + apply (invariant_focus s (with_objects o' s) [] [] (entry r) p key' I (inv_cache _ I)); try done.
      * by apply names_kept_refl.
      * split; [exact Hp|]. simpl. by rewrite lookup_insert_eq.
      * exists key'. simpl. fold k. rewrite lookup_insert_eq. rewrite Hil, Hnl. split_and!; try done; unfold loads; simpl; lia.
      * intros k' Hk'. simpl. by rewrite lookup_insert_ne.
      * intros pair0 Hp0. assert (pair0 = p) as -> by congruence. exists key. split_and!; try done. congruence.
      * congruence.
      * intros action. by intros ?%elem_of_nil.
    + intros k' key0. simpl. intros [[<- <-]|[_ Hk']]%lookup_insert_Some; [done|by apply (Hprot k')].
  - split; [done|]. rewrite Hview. change (objects (with_objects o' s)) with o'. by rewrite Hkv'.
Qed.

(** The log of a day. *)
Lemma recover_day_log s name id days log tg day :
  recovering s → provider_view s !! name = Some (mkKeyView id (Some days)) →
  component_id log = GetTimeframeManagerId id → stored log →
  journals_day (log_data log) tg day → good_day tg day →
  ∃ s', recovers s [read_log_of log] s' ∧ recovering s' ∧
    provider_view s' = <[name := mkKeyView id (Some (<[tg := day]> days))]> (provider_view s).
Proof.
  intros R Hv Hc Hb Hj Hg.
  destruct (view_holds valid_name s name _ (recovering_rest _ R) Hv) as (r & p & key & Hh & Hkv).
  pose proof Hh as (Hr & Hbe & Hp & Hk & (Hn & Hvn & Hid & Hms)).
  injection Hkv as Hki Hdays. destruct (budget_key_timeframe_manager_ key) as [m|] eqn:Hm; [|done].
  destruct (Hms m eq_refl) as (mo & Hmo & Hmn & Hmi & Vd & Nd). cbn [mbind option_bind] in Hdays.
  rewrite Hmo in Hdays. injection Hdays as ->.
  destruct (recover_day a (manager_data mo) tg day (log_data log) Hj Hg Vd) as (d & Hrd & Vd' & Hs & _ & _ & Nd').
  set (s' := with_objects (write_manager m d (objects s)) s). exists s'. split.
  { apply (recovers_one _ (ManagerSubscriber m)).
    - simpl. rewrite Hc, Hki. by apply (manager_subscribed _ R name r p key m).
    - simpl. rewrite Hb, Hmo. cbn [mbind option_bind]. by rewrite Hrd. }
  destruct (write_manager_rest valid_name s name r p key m mo d (recovering_rest _ R) Hh Hm Hmo Vd' (Nd' Nd))
    as (Hh' & Hold & R' & Hview).
  destruct (recovering_put s s' name r p key) as [R'' Hview']; try done.
  - apply (rest_cache _ _ (recovering_rest _ R)).
  - simpl. symmetry. by apply insert_id.
  - apply (recovering_idle _ R).
  - simpl. by apply (key_subscribed _ R name r p key).
  - intros m' Hm'. simpl. by apply (manager_subscribed _ R name r p key m').
  - intros id' Hid'. by left.
  - intros v'. rewrite Hv. intros [= <-]. split; [done|]. intros _. unfold key_view. rewrite Hm. cbn [mbind option_bind].
    simpl. by rewrite lookup_alter_eq, Hmo.
  - destruct (recovering_unserved _ R) as (I & Hflags & Hprot). split_and!; [|done|done].
    apply (invariant_frame s s' [] [] I (inv_cache _ I)); try done.
    + by apply names_kept_refl.
    + apply managers_grow_write.
    + intros action. by intros ?%elem_of_nil.
  - split; [done|]. fold s' in Hview. by rewrite Hview, Hs, Hki.
Qed.

(** ** All the logs *)

(** The provider's logs: the keys, none of them with a timeframe manager. *)
Lemma recover_pair_logs (M : gmap string KeyView) names logs s :
  Forall2 (λ name log, ∃ v, M !! name = Some v ∧ pair_log name v log) names logs →
  (∀ name v, M !! name = Some v → valid_name name ∧ valid_uuid (view_id v)) → distinct_ids M →
  NoDup names → recovering s →
  (∀ name v, provider_view s !! name = Some v → name ∉ names ∧ view_id <$> M !! name = Some (view_id v)) →
  ∃ s', recovers s (read_log_of <$> logs) s' ∧ recovering s' ∧
    ∀ name, provider_view s' !! name
      = if decide (name ∈ names) then (λ v, mkKeyView (view_id v) None) <$> M !! name else provider_view s !! name.
Proof.
  intros Hlogs HM Hd. revert s. induction Hlogs as [|name log names logs (v & Hv & Hlog) _ IH]; intros s Hnd R Hold.
  { exists s. split; [constructor|]. split; [done|]. intros n. by rewrite decide_False by apply not_elem_of_nil. }
  apply NoDup_cons in Hnd as [Hnot Hnd]. destruct (HM _ _ Hv) as [Hvn Hid].
  assert (provider_view s !! name = None) as Hnone.
  { destruct (provider_view s !! name) as [v'|] eqn:Hv'; [|done]. destruct (Hold _ _ Hv') as [[] _]. by left. }
  assert (∀ n w, <[name := v]> (provider_view s) !! n = Some w → ∃ w', M !! n = Some w' ∧ view_id w' = view_id w) as Hin.
  { intros n w [[<- <-]|[_ Hw]]%lookup_insert_Some; [by exists v|].
    destruct (Hold _ _ Hw) as [_ (w' & Hw' & ?)%fmap_Some]. by exists w'. }
  destruct (recover_pair_log s name v log R Hnone Hvn Hid) as (s1 & Hr1 & R1 & Hview1); [|done|].
  { destruct Hd as [Hd1 Hd2]. split.
    - intros n w Hw. destruct (Hin _ _ Hw) as (w' & Hw' & <-). by apply (Hd1 n).
    - intros n1 w1 n2 w2 Hw1 Hw2. destruct (Hin _ _ Hw1) as (w1' & Hw1' & <-), (Hin _ _ Hw2) as (w2' & Hw2' & <-).
      by apply (Hd2 n1 w1' n2 w2'). }
  destruct (IH s1 Hnd R1) as (s' & Hr' & R' & Hview').
  { intros n w. rewrite Hview1. intros [[<- <-]|[_ Hw]]%lookup_insert_Some; [by rewrite Hv|].
    destruct (Hold _ _ Hw) as [Hn ?]. split; [|done]. intros Hn'. apply Hn. by right. }
  exists s'. split; [by apply (recovers_app _ [_] s1)|]. split; [done|]. intros n. rewrite Hview', Hview1.
  destruct (decide (n ∈ names)) as [Hn|Hn]; [by rewrite decide_True by by right|].
  destruct (decide (n = name)) as [->|Hne].
  - rewrite lookup_insert_eq, decide_True by by left. by rewrite Hv.
  - rewrite lookup_insert_ne, decide_False; [done| |done]. by intros [|]%elem_of_cons.
Qed.

(** The logs of a key's days. *)
Lemma recover_day_logs name id days logs s days0 :
  Forall2 (λ '(tg, day) b, journals_day b tg day ∧ good_day tg day) days (log_data <$> logs) →
  Forall (λ l, component_id l = GetTimeframeManagerId id ∧ stored l) logs → NoDup days.*1 →
  recovering s → provider_view s !! name = Some (mkKeyView id (Some days0)) →
  ∃ s', recovers s (read_log_of <$> logs) s' ∧ recovering s' ∧
    provider_view s' = <[name := mkKeyView id (Some (list_to_map days ∪ days0))]> (provider_view s).
Proof.
  revert days days0 s. induction logs as [|log logs IH]; intros days days0 s Hdays Hlogs Hnd R Hv.
  - destruct days; [|by inversion Hdays]. exists s. split; [constructor|]. split; [done|]. simpl.
    rewrite (left_id_L ∅ (∪)). by rewrite insert_id.
  - destruct days as [|[tg day] days]; [by inversion Hdays|]. apply Forall2_cons in Hdays as [[Hj Hg] Hdays].
    apply Forall_cons in Hlogs as [[Hc Hb] Hlogs]. apply NoDup_cons in Hnd as [Hnot Hnd].
    destruct (recover_day_log s name id days0 log tg day R Hv Hc Hb Hj Hg) as (s1 & Hr1 & R1 & Hview1).
    destruct (IH days (<[tg := day]> days0) s1 Hdays Hlogs Hnd R1) as (s' & Hr' & R' & Hview').
    { by rewrite Hview1, lookup_insert_eq. }
    exists s'. split; [by apply (recovers_app _ [_] s1)|]. split; [done|].
    rewrite Hview', Hview1, insert_insert_eq. simpl.
    rewrite <- insert_union_r, insert_union_l; [done|]. by apply not_elem_of_list_to_map_1.
Qed.

(** The keys' logs: each key gets its timeframe manager and its days. *)
Lemma recover_keys_logs (M : gmap string KeyView) names logss s :
  Forall2 (λ name logs, ∃ v, M !! name = Some v ∧ key_logs v logs) names logss →
  distinct_ids M → NoDup names → recovering s →
  (∀ name, view_id <$> provider_view s !! name = view_id <$> M !! name) →
  (∀ name, name ∈ names → provider_view s !! name = (λ v, mkKeyView (view_id v) None) <$> M !! name) →
  ∃ s', recovers s (read_log_of <$> concat logss) s' ∧ recovering s' ∧
    ∀ name, provider_view s' !! name
      = if decide (name ∈ names) then restored <$> M !! name else provider_view s !! name.
Proof.
  intros Hlogs Hd. revert s. induction Hlogs as [|name logs names logss (v & Hv & Hkl) _ IH]; intros s Hnd R Hids Hold.
  { exists s. split; [constructor|]. split; [done|]. intros n. by rewrite decide_False by apply not_elem_of_nil. }
  apply NoDup_cons in Hnd as [Hnot Hnd].
  destruct Hkl as (log & day_logs & days & -> & Hc & Hb & Hread & Hndays & Hdays & Hdl & Hdc).
  assert (distinct_ids (provider_view s)) as Hds.
  { assert (∀ n w, provider_view s !! n = Some w → ∃ w', M !! n = Some w' ∧ view_id w' = view_id w) as Hin.
    { intros n w Hw. specialize (Hids n). rewrite Hw in Hids. simpl in Hids. symmetry in Hids.
      apply fmap_Some in Hids as (w' & ? & ?). by exists w'. }
    destruct Hd as [Hd1 Hd2]. split.
    - intros n w Hw. destruct (Hin _ _ Hw) as (w' & Hw' & <-). by apply (Hd1 n).
    - intros n1 w1 n2 w2 Hw1 Hw2. destruct (Hin _ _ Hw1) as (w1' & Hw1' & <-), (Hin _ _ Hw2) as (w2' & Hw2' & <-).
      by apply (Hd2 n1 w1' n2 w2'). }
  assert (provider_view s !! name = Some (mkKeyView (view_id v) None)) as Hv0.
  { rewrite Hold by by left. by rewrite Hv. }
  destruct (recover_key_log s name (view_id v) log R Hv0 Hds Hc Hb Hread) as (s1 & Hr1 & R1 & Hview1).
  destruct (recover_day_logs name (view_id v) days day_logs s1 ∅ Hdl Hdc Hndays R1) as (s2 & Hr2 & R2 & Hview2).
  { by rewrite Hview1, lookup_insert_eq. }
  rewrite (right_id_L ∅ (∪)), Hdays, Hview1, insert_insert_eq in Hview2.
  change (mkKeyView (view_id v) (Some (default ∅ (view_days v)))) with (restored v) in Hview2.
  destruct (IH s2 Hnd R2) as (s' & Hr' & R' & Hview').
  { intros n. rewrite Hview2. destruct (decide (n = name)) as [->|Hne].
    - by rewrite lookup_insert_eq, Hv.
    - by rewrite lookup_insert_ne. }
  { intros n Hn. rewrite Hview2, lookup_insert_ne by (by intros ->). apply Hold. by right. }
  exists s'. split.
  { rewrite concat_cons, fmap_app. apply (recovers_app _ _ s2); [|done].
    rewrite fmap_cons. by apply (recovers_app _ [_] s1). }
  split; [done|]. intros n. rewrite Hview', Hview2.
  destruct (decide (n ∈ names)) as [Hn|Hn]; [by rewrite decide_True by by right|].
  destruct (decide (n = name)) as [->|Hne].
  - rewrite lookup_insert_eq, decide_True by by left. by rewrite Hv.
  - rewrite lookup_insert_ne, decide_False; [done| |done]. by intros [|]%elem_of_cons.
Qed.

(** The indices of a checkpoint's logs are different. *)
Lemma NoDup_index (logs : list JournalLogRequest) :
  (∀ log, log ∈ logs → valid_uuid (component_id log) ∧ valid_uuid (log_id log)) →
  NoDup (log_id <$> logs) → NoDup (log_index <$> (read_log_of <$> logs)).
Proof.
  intros Hv Hnd. rewrite <- list_fmap_compose. induction logs as [|log logs IH]; [constructor|].
  rewrite fmap_cons in *. apply NoDup_cons in Hnd as [Hnot Hnd]. apply NoDup_cons. split.
  - intros (log' & He & Hin)%list_elem_of_fmap. apply Hnot.
    destruct (Hv log) as [Hc Hi]; [by left|]. destruct (Hv log') as [Hc' Hi']; [by right|].
    destruct (log_index_inj (read_log_of log) (read_log_of log') Hc Hi Hc' Hi' He) as [_ Hid].
    simpl in Hid. rewrite Hid. by apply list_elem_of_fmap_2.
  - apply IH; [|done]. intros log' Hin. apply Hv. by right.
Qed.

Lemma key_logs_components v logs : valid_uuid (view_id v) → key_logs v logs →
  ∀ log, log ∈ logs → valid_uuid (component_id log).
Proof.
  intros Hid (log & day_logs & days & -> & Hc & _ & _ & _ & _ & _ & Hdc) l [->|Hl]%elem_of_cons.
  - by rewrite Hc.
  - rewrite Forall_forall in Hdc. destruct (Hdc l Hl) as [-> _]. apply GetTimeframeManagerId_valid.
Qed.

Lemma checkpoint_components (M : gmap string KeyView) names plogs logss :
  (∀ name v, M !! name = Some v → valid_name name ∧ valid_uuid (view_id v)) →
  Forall2 (λ name log, ∃ v, M !! name = Some v ∧ pair_log name v log) names plogs →
  Forall2 (λ name logs, ∃ v, M !! name = Some v ∧ key_logs v logs) names logss →
  ∀ log, log ∈ plogs ++ concat logss → valid_uuid (component_id log).
Proof.
  intros HM Hp Hk log [[i Hi]%list_elem_of_lookup|Hl]%elem_of_app.
  - destruct (Forall2_lookup_r _ _ _ _ _ Hp Hi) as (name & _ & v & _ & -> & _). done.
  - apply list_elem_of_In, in_concat in Hl as (logs & Hl1%list_elem_of_In & Hl2%list_elem_of_In).
    apply list_elem_of_lookup in Hl1 as [i Hi].
    destruct (Forall2_lookup_r _ _ _ _ _ Hk Hi) as (name & _ & v & Hv & Hkl).
    apply (key_logs_components v logs); [by apply (HM name)|done|done].
Qed.

(** What the journal does to itself does not matter for what the provider holds. *)
Lemma at_rest_journal s j : at_rest s →
  let s' := with_objects (with_journal_service j (objects s)) s in
  at_rest s' ∧ provider_view s' = provider_view s.
Proof. intros [W Hkeys] s'. split; [|done]. constructor; [exact W|exact Hkeys]. Qed.

(** A provider that nothing has happened to, on a journal that does not run. *)
Definition new_provider : BudgetKeyProvider :=
  mkProvider (mkMap ∅ ∅ 0 false) ∅ (mkObjects ∅ ∅ (mkJournal true false false ∅)).

Lemma Init_recovering :
  ∃ s0, BudgetKeyProvider.Init new_provider = (SuccessExecutionResult, s0) ∧ recovering s0 ∧ provider_view s0 = ∅.
Proof.
  eexists. split; [reflexivity|]. split; [|done]. constructor.
  - constructor; [apply empty_map_well_formed|]. intros name r. simpl. by rewrite empty_map_entries, lookup_empty.
  - split_and!; [|done|done]. constructor; simpl.
    + apply empty_map_well_formed.
    + intros name r. by rewrite empty_map_entries, lookup_empty.
    + done.
    + done.
    + constructor.
  - done.
  - apply lookup_insert_eq.
  - intros name r p key (Hr & _). simpl in Hr. by rewrite empty_map_entries, lookup_empty in Hr.
  - intros name r p key m (Hr & _). simpl in Hr. by rewrite empty_map_entries, lookup_empty in Hr.
  - intros id. simpl. intros [callback [[<- _]|[_ Hs]]%lookup_insert_Some]; [by left|by rewrite lookup_empty in Hs].
Qed.

End replay.

Section checkpoint.
  Context `{TimeframeLogsLaws} (valid_name : string → Prop) `{!BudgetKeyLogs} `{!BudgetKeyLogsLaws valid_name}.
  #[local] Set Default Proof Using "Type*".

(** The names a checkpoint logs are those of the keys. *)
Lemma names_logged s (keys : list string) : at_rest valid_name s →
  (∀ name, name ∈ keys ↔ name ∈ dom (entries (budget_keys_ s))) →
  ∀ name, name ∈ keys ↔ is_Some (provider_view s !! name).
Proof.
  intros R Hkeys name. rewrite Hkeys, elem_of_dom. split.
  - intros [r Hr]. destruct (rest_keys _ _ R _ _ Hr) as (p & key & Hh).
    exists (key_view (objects s) key). by apply (holds_view valid_name s name r p).
  - intros [v Hv]. destruct (view_holds valid_name s name v R Hv) as (r & p & key & Hh & _). exists r. apply Hh.
Qed.

(** The logs of a checkpoint, and what replaying them one by one gives. *)
Lemma checkpoint_recovers a s :
  at_rest valid_name s → distinct_ids (provider_view s) →
  ∃ s' logs, BudgetKeyProvider.Checkpoint a s = Some (SuccessExecutionResult, s', logs) ∧
    provider_view s' = provider_view s ∧ ids_from a 0 logs ∧
    (distinct_log_ids logs → NoDup (log_index <$> (read_log_of <$> logs))) ∧
    ∀ a0, ∃ s0 s1, BudgetKeyProvider.Init new_provider = (SuccessExecutionResult, s0) ∧
      recovers (H := BudgetKeyProvider.provider_recoverable a0) s0 (read_log_of <$> logs) s1 ∧
      recovering valid_name s1 ∧ provider_view s1 = restored <$> provider_view s.
Proof.
  intros R Hd. unfold BudgetKeyProvider.Checkpoint.
  destruct (Keys_implements (budget_keys_ s) (rest_cache _ _ R)) as (Hk1 & Hk2 & Hk3).
  destruct (AutoExpiryMap.Keys (budget_keys_ s)) as [r names]. simpl in Hk1, Hk2, Hk3. subst r.
  change (negb (Successful SuccessExecutionResult)) with false. cbn iota.
  pose proof (names_logged s names R Hk3) as Hnames.
  destruct (checkpoint_pairs_spec valid_name a 0 names s R) as (s1 & plogs & Hc1 & R1 & Hview1 & Hids1 & Hlogs1);
    [by intros; apply Hnames|].
  rewrite Hc1. cbn [mbind option_bind]. change (negb (Successful SuccessExecutionResult)) with false. cbn iota.
  destruct (checkpoint_keys_spec valid_name a (length plogs) names s1 R1)
    as (s2 & logss & Hc2 & R2 & Hview2 & Hids2 & Hlogs2); [intros; rewrite Hview1; by apply Hnames|].
  rewrite Hc2. cbn [mbind option_bind]. rewrite Hview1 in Hview2, Hlogs2.
  assert (∀ name v, provider_view s !! name = Some v → valid_name name ∧ valid_uuid (view_id v)) as HM.
  { intros name v Hv. destruct (view_holds valid_name s name v R Hv) as (r & p & key & Hh & ->).
    destruct Hh as (_ & _ & _ & _ & (_ & ? & ? & _)). done. }
  exists s2, (plogs ++ concat logss). split; [done|]. split; [done|]. split; [by apply ids_from_app|]. split.
  { intros [Hvalid Hnd]. apply NoDup_index; [|done]. intros log Hlog. rewrite Forall_forall in Hvalid.
    split; [by eapply (checkpoint_components valid_name)|by apply Hvalid]. }
  intros a0. destruct (Init_recovering valid_name) as (s0 & Hinit & R0 & Hview0).
  destruct (recover_pair_logs valid_name a0 (provider_view s) names plogs s0 Hlogs1 HM Hd Hk2 R0)
    as (t1 & Hr1 & T1 & Hv1).
  { intros name v. by rewrite Hview0, lookup_empty. }
  assert (∀ name, name ∉ names → provider_view s !! name = None) as Hnone.
  { intros name Hn. apply eq_None_not_Some. by rewrite <- Hnames. }
  assert (∀ name, provider_view t1 !! name = (λ v, mkKeyView (view_id v) None) <$> provider_view s !! name) as Hv1'.
  { intros name. rewrite Hv1. case_decide as Hn; [done|]. by rewrite Hview0, lookup_empty, Hnone. }
  destruct (recover_keys_logs valid_name a0 (provider_view s) names logss t1 Hlogs2 Hd Hk2 T1)
    as (t2 & Hr2 & T2 & Hv2).
  { intros name. rewrite Hv1'. by destruct (provider_view s !! name). }
  { intros name _. by rewrite Hv1'. }
  exists s0, t2. split; [done|]. split; [rewrite fmap_app; by eapply recovers_app|]. split; [done|].
  apply map_eq. intros name. rewrite Hv2, lookup_fmap. case_decide as Hn; [done|]. by rewrite Hv1', (Hnone _ Hn).
Qed.

(** However the stream cuts the logs, the recovery gives what replaying them one
    by one does. *)
Lemma Recover_logs a0 s0 logs s1 batches :
  recovers (H := BudgetKeyProvider.provider_recoverable a0) s0 logs s1 → NoDup (log_index <$> logs) →
  concat batches = logs →
  Recover (H := BudgetKeyProvider.provider_recoverable a0)
    ((pair SuccessExecutionResult <$> batches) ++ [end_of_stream]) s0
  = Some (Some SuccessExecutionResult,
          with_objects (with_journal_service (make_output_stream (journal_service_ (objects s1))) (objects s1)) s1).
Proof.
  intros Hr Hnd Hb.
  destruct (recovers_replay _ _ _ ∅ Hr Hnd) as (replayed' & Hreplay); [by intros; apply not_elem_of_empty|].
  unfold Recover. by rewrite read_answers_batches, Hb, Hreplay.
Qed.

(** C9: a checkpoint of the provider, when no key and no day is being unloaded,
    succeeds and changes no key; its logs have the generated ids in order. When
    these are different, and the logs are replayed by the journal service of a
    new instance, however the stream cuts it, every log reaches the component that
    wrote it, and the recovery ends successfully with the same keys under the
    same names and ids, each with the days its timeframe manager had. *)
Theorem provider_checkpoint_recover a s :
  at_rest valid_name s → distinct_ids (provider_view s) →
  ∃ s' logs, BudgetKeyProvider.Checkpoint a s = Some (SuccessExecutionResult, s', logs) ∧
    provider_view s' = provider_view s ∧ ids_from a 0 logs ∧
    ∀ a0 batches, distinct_log_ids logs → concat batches = read_log_of <$> logs →
      ∃ s0 s1, BudgetKeyProvider.Init new_provider = (SuccessExecutionResult, s0) ∧
        Recover (H := BudgetKeyProvider.provider_recoverable a0)
          ((pair SuccessExecutionResult <$> batches) ++ [end_of_stream]) s0
        = Some (Some SuccessExecutionResult, s1) ∧
        at_rest valid_name s1 ∧ provider_view s1 = restored <$> provider_view s.
Proof.
  intros R Hd. destruct (checkpoint_recovers a s R Hd) as (s' & logs & Hc & Hview & Hgen & Hnd & Hrec).
  exists s', logs. split; [done|]. split; [done|]. split; [done|]. intros a0 batches Hids Hb.
  destruct (Hrec a0) as (s0 & t & Hinit & Hr & T & Hv). eexists s0, _. split; [done|].
  split; [by apply (Recover_logs a0 s0 (read_log_of <$> logs) t batches); [|apply Hnd|]|].
  destruct (at_rest_journal valid_name t (make_output_stream (journal_service_ (objects t))) (recovering_rest _ _ T))
    as [T' Hv']. split; [exact T'|]. etransitivity; [exact Hv'|exact Hv].
Qed.

End checkpoint.
