(* ===== verification/BudgetKeyServing.v ===== *)
(** * A recovered provider serves its keys

    [Run] after the recovery: every key that the checkpoint had is loaded at once,
    and the first request for it is answered with it, without a log. *)

From S2P Require Import Prelude ExecutionResult ErrorCodes Uuid ConcurrentMap Serialization AutoExpiryMap AutoExpiryView TimeframeLog TimeframeManager TimeframeCache TimeframeRecovery JournalService BudgetKey BudgetKeyProvider BudgetKeySystem BudgetKeyRecovery BudgetKeyReplay.
From stdpp Require Import options.

Local Open Scope Z_scope.

Section serving.
  Context `{TimeframeLogsLaws} (valid_name : string → Prop) `{!BudgetKeyLogs} `{!BudgetKeyLogsLaws valid_name}.
  #[local] Set Default Proof Using "Type*".
  Local Abbreviation at_rest := (at_rest valid_name).
  Local Abbreviation holds := (holds valid_name).

(** A provider that is running with what it recovered. *)
Record recovered (s : BudgetKeyProvider) : Prop := {
  recovered_rest : at_rest s;
  recovered_running : running s;
  recovered_protocols k key : key_heap (objects s) !! k = Some key →
    consume_budget_transaction_protocol_ key = budget_key_timeframe_manager_ key;
}.

(** A request for the name is answered with its pair at once. *)
Definition loaded (s : BudgetKeyProvider) (name : string) : Prop :=
  ∃ l p, entry <$> entries (budget_keys_ s) !! name = Some l ∧ pair_heap s !! l = Some p ∧
    pair_is_loaded p = true.

Lemma loaded_kept_loaded s s' name : running s → loaded_kept s s' →
  (∀ n, entry <$> entries (budget_keys_ s') !! n = entry <$> entries (budget_keys_ s) !! n) →
  loaded s name → loaded s' name.
Proof.
  intros I Hkept He (l & p & Hl & Hp & Hload). destruct (inv_pairs _ I l p Hp) as (key & Hk & _).
  exists l, p. rewrite He. destruct (Hkept l p key (conj Hp Hk) Hload) as [Hp' _]. done.
Qed.

Lemma touch_recovered c' s :
  recovered s → at_rest (with_budget_keys c' s) →
  (∀ n, entry <$> entries c' !! n = entry <$> entries (budget_keys_ s) !! n) →
  recovered (with_budget_keys c' s) ∧ loaded_kept s (with_budget_keys c' s).
Proof.
  intros [R I P] R' He.
  destruct (invariant_frame s (with_budget_keys c' s) [] [] I (rest_cache _ _ R')) as [I' Hkept]; try done.
  - intros n r' Hr'. left. specialize (He n). simpl in Hr'. rewrite Hr' in He.
    destruct (entries (budget_keys_ s) !! n) as [r|]; [|done]. exists r. by injection He.
  - apply managers_grow_refl.
  - intros action. by intros ?%elem_of_nil.
Qed.

(** The timeframe manager of a key starts. *)
Lemma Run_manager a d : accepted a = SuccessExecutionResult →
  (TimeframeManager.Run a d).1.1 = SuccessExecutionResult ∧ snapshot (TimeframeManager.Run a d).1.2 = snapshot d ∧
  (valid_manager d → valid_manager (TimeframeManager.Run a d).1.2) ∧
  (none_evicted d → none_evicted (TimeframeManager.Run a d).1.2).
Proof. intros Ha. split; [exact Ha|]. split; [done|]. split; [|done]. intros [W G]. constructor; [|exact G]. by destruct W. Qed.

(** A key's manager starts, and its pair is marked. *)
Lemma mark_loaded s name r p key m mo d :
  recovered s → holds s name r p key → budget_key_timeframe_manager_ key = Some m →
  manager_heap (objects s) !! m = Some mo → valid_manager d → none_evicted d → snapshot d = snapshot (manager_data mo) →
  let s' := on_pair (write_pair_is_loaded true) (entry r) (on_pair (write_pair_needs_loader false) (entry r)
              (with_objects (write_manager m d (objects s)) s)) in
  recovered s' ∧ provider_view s' = provider_view s ∧ loaded_kept s s' ∧ loaded s' name.
Proof.
  intros [R I P] Hh Hm Hmo Vd Nd Hsnap s'.
  destruct (write_manager_rest valid_name s name r p key m mo d R Hh Hm Hmo Vd Nd) as (Hh1 & _ & R1 & Hview1).
  set (s1 := with_objects (write_manager m d (objects s)) s) in *.
  pose proof Hh1 as (Hr & Hb & Hp & Hk & Hv). set (p' := mkPair (budget_key p) true false).
  assert (pair_heap s' = <[entry r := p']> (pair_heap s)) as Hpairs.
  { unfold s', on_pair. simpl. apply map_eq. intros q.
    destruct (decide (q = entry r)) as [->|]; [|by rewrite !lookup_alter_ne, lookup_insert_ne].
    change (pair_heap s1) with (pair_heap s) in Hp. by rewrite !lookup_alter_eq, lookup_insert_eq, Hp. }
  assert (holds s' name r p' key) as Hh'.
  { refine (conj Hr (conj Hb (conj _ (conj Hk Hv)))). by rewrite Hpairs, lookup_insert_eq. }
  destruct (rest_put valid_name s1 s' name r p' key R1 (rest_cache _ _ R1)) as [R' Hview']; try done.
  { symmetry. by apply insert_id. }
  { intros n r0 p0 key0 Hne Hh0. split; [|done]. pose proof Hh0 as (Hr0 & Hb0 & Hp0 & Hk0 & Hv0).
    refine (conj Hr0 (conj Hb0 (conj _ (conj Hk0 Hv0)))). rewrite Hpairs, lookup_insert_ne; [done|].
    intros Heq. apply Hne. apply (holds_key_name valid_name s1 n r0 p0 key0 name r p key); [done..|].
    rewrite Heq in Hp. congruence. }
  assert (pair_key s' (entry r) p' key) as Hpk by (split; [by rewrite Hpairs, lookup_insert_eq|exact Hk]).
  pose proof Hh as (_ & _ & Hp0 & Hk0 & (Hn & _ & _ & Hms)).
  destruct (inv_pairs _ I (entry r) p Hp0) as (key0 & Hkey0 & Hbatch & Hload & _).
  simpl in Hkey0. assert (key0 = key) as -> by congruence.
  assert (managers_grow (objects s) (objects s')) as Hmg by apply (managers_grow_write m d).
  destruct (invariant_focus s s' [] [] (entry r) p' key I (rest_cache _ _ R')) as [I' Hkept]; try done.
  - by apply names_kept_refl.
  - exists key. split; [exact Hk|]. split; [done|]. split; [|split; [done|unfold loads; simpl; lia]].
    intros _. split; [done|]. split; [done|]. apply (ready_grow (objects s)); [done|].
    destruct (Hms m Hm) as (mo' & Hmo' & Hmn & Hmi & _). exists m, mo'.
    split_and!; [done|by rewrite (P _ _ Hk0)|done|done|congruence].
  - intros q Hq. by rewrite Hpairs, lookup_insert_ne.
  - intros pair0 Hpair0. assert (pair0 = p) as -> by congruence. exists key. split_and!; try done.
    intros Hl. destruct (Hload Hl) as (_ & Hn0 & _). split; [|done]. unfold p'. rewrite <- Hl, <- Hn0. by destruct p.
  - congruence.
  - intros action. by intros ?%elem_of_nil.
  - split; [|split; [|split; [done|]]].
    + constructor; [done|done|exact P].
    + rewrite Hview', Hview1, insert_insert_eq. apply insert_id.
      rewrite (holds_view valid_name _ _ _ _ _ Hh). f_equal. unfold key_view. rewrite Hm. cbn [mbind option_bind].
      rewrite Hmo. simpl. rewrite lookup_alter_eq, Hmo. simpl. by rewrite Hsnap.
    + exists (entry r), p'. split; [|by split; [rewrite Hpairs, lookup_insert_eq|]].
      change (entries (budget_keys_ s')) with (entries (budget_keys_ s1)). by rewrite Hr.
Qed.

(** The loop of [Run]. *)
Lemma run_keys_spec a keys s :
  accepted a = SuccessExecutionResult → recovered s →
  (∀ name, name ∈ keys → ∃ v, provider_view s !! name = Some v ∧ is_Some (view_days v)) →
  ∃ s', BudgetKeyProvider.run_keys a keys s = Some (SuccessExecutionResult, s') ∧
    recovered s' ∧ provider_view s' = provider_view s ∧
    ∀ name, name ∈ keys ∨ loaded s name → loaded s' name.
Proof.
  intros Ha. revert s. induction keys as [|name keys IH]; intros s Rs Hkeys.
  { exists s. split_and!; try done. by intros name [?%elem_of_nil|]. }
  destruct (Hkeys name) as (v & Hv & Hdays); [by left|].
  destruct (view_holds valid_name s name v (recovered_rest _ Rs) Hv) as (r & p & key & Hh & Hkv).
  destruct (touch_key valid_name (now a) s name r p key (recovered_rest _ Rs) Hh)
    as (c' & Hf & R1 & Hview1 & (r1 & Hh1 & He1) & Hes).
  destruct (touch_recovered c' s Rs R1 Hes) as [Rs1 Hkept1]. set (s1 := with_budget_keys c' s) in *.
  cbn [BudgetKeyProvider.run_keys]. rewrite Hf.
  change (negb (Successful SuccessExecutionResult)) with false. cbn iota. cbn [mbind option_bind]. fold s1.
  pose proof Hh1 as (_ & _ & Hp & Hk & (_ & _ & _ & Hms)). rewrite <- He1, Hp. cbn [mbind option_bind].
  destruct (budget_key_timeframe_manager_ key) as [m|] eqn:Hm;
    [|rewrite Hkv in Hdays; unfold key_view in Hdays; rewrite Hm in Hdays; by destruct Hdays].
  destruct (Hms m eq_refl) as (mo & Hmo & _ & _ & Vd & Nd).
  destruct (Run_manager a (manager_data mo) Ha) as (Hr & Hsnap & Vd' & Nd').
  unfold BudgetKey.Run. rewrite Hk. cbn [mbind option_bind]. rewrite Hm. cbn iota. rewrite Hmo. cbn [mbind option_bind].
  destruct (TimeframeManager.Run a (manager_data mo)) as [[rr d] actions]. simpl in Hr, Hsnap, Vd', Nd'. subst rr.
  cbn [mbind option_bind]. change (Successful SuccessExecutionResult) with true. cbn iota.
  destruct (mark_loaded s1 name r1 p key m mo d Rs1 Hh1 Hm Hmo (Vd' Vd) (Nd' Nd) Hsnap) as (Rs2 & Hview2 & Hkept2 & Hl).
  set (s2 := on_pair (write_pair_is_loaded true) _ _) in *.
  destruct (IH s2 Rs2) as (s' & Hrun & Rs' & Hview' & Hload').
  { intros n Hn. rewrite Hview2, Hview1. apply Hkeys. by right. }
  exists s'. split; [exact Hrun|]. split; [done|]. split; [by rewrite Hview', Hview2, Hview1|].
  intros n Hn. apply Hload'. destruct Hn as [[->|Hn]%elem_of_cons|Hn]; [by right|by left|right].
  apply (loaded_kept_loaded s1); [apply Rs1|done|done|].
  by apply (loaded_kept_loaded s); [apply Rs|done|done|].
Qed.

(** [Run] of a provider whose keys all have their timeframe managers. *)
Lemma Run_spec a s :
  accepted a = SuccessExecutionResult → recovered s →
  (∀ name v, provider_view s !! name = Some v → is_Some (view_days v)) →
  ∃ s' calls, BudgetKeyProvider.Run a s = Some (SuccessExecutionResult, s', calls) ∧
    recovered s' ∧ provider_view s' = provider_view s ∧
    ∀ name, is_Some (provider_view s !! name) → loaded s' name.
Proof.
  intros Ha Rs Hdays. unfold BudgetKeyProvider.Run.
  destruct (Keys_implements (budget_keys_ s) (rest_cache _ _ (recovered_rest _ Rs))) as (Hk1 & _ & Hk3).
  destruct (AutoExpiryMap.Keys (budget_keys_ s)) as [r names]. simpl in Hk1, Hk3. subst r.
  change (negb (Successful SuccessExecutionResult)) with false. cbn iota.
  pose proof (names_logged valid_name s names (recovered_rest _ Rs) Hk3) as Hnames.
  destruct (run_keys_spec a names s Ha Rs) as (s1 & Hrun & Rs1 & Hview & Hload).
  { intros name [v Hv]%Hnames. exists v. split; [done|by apply (Hdays name)]. }
  rewrite Hrun. cbn [mbind option_bind]. change (negb (Successful SuccessExecutionResult)) with false. cbn iota.
  destruct (AutoExpiryMap.Run provider_config (now a) (accepted a) (budget_keys_ s1)) as [[r c] calls] eqn:Hr.
  assert (r = SuccessExecutionResult) as ->.
  { rewrite <- Ha. by injection Hr as <- _ _. }
  assert (entries c = entries (budget_keys_ s1) ∧ (well_formed_map (budget_keys_ s1) → well_formed_map c)) as [Hc Wc].
  { injection Hr as _ <- _. split; [done|]. by intros []. }
  eexists _, _. split; [done|].
  assert (∀ n, entry <$> entries c !! n = entry <$> entries (budget_keys_ s1) !! n) as He by by rewrite Hc.
  assert (at_rest (with_budget_keys c s1)) as R2.
  { destruct (recovered_rest _ Rs1) as [W1 K1]. constructor; [by apply Wc|]. intros name r Hn.
    simpl in Hn. rewrite Hc in Hn. destruct (K1 _ _ Hn) as (p & key & Hh). exists p, key.
    split; [simpl; by rewrite Hc|apply Hh]. }
  destruct (touch_recovered c s1 Rs1 R2 He) as [Rs2 Hkept].
  split; [done|]. split; [rewrite <- Hview; unfold provider_view; simpl; by rewrite Hc|].
  intros name Hname. apply (loaded_kept_loaded s1); [apply Rs1|done|done|]. apply Hload. left. by apply Hnames.
Qed.

(** A request for a loaded key. *)
Lemma GetBudgetKey_loaded a ctx s :
  recovered s → loaded s (budget_key_name ctx) →
  ∃ s' k key, BudgetKeyProvider.GetBudgetKey a ctx s
      = Some (SuccessExecutionResult, s', [FinishGet ctx SuccessExecutionResult (Some k)]) ∧
    key_heap (objects s') !! k = Some key ∧ name_ key = budget_key_name ctx ∧ ready (objects s') key ∧
    provider_view s !! budget_key_name ctx = Some (key_view (objects s') key).
Proof.
  intros [R I P] (l & p & Hl & Hp & Hload). set (name := budget_key_name ctx) in *.
  apply fmap_Some in Hl as (r & Hr & ->). destruct (rest_keys _ _ R _ _ Hr) as (p1 & key & Hh).
  pose proof Hh as (_ & Hb & Hp1 & Hk & (Hn & _)). assert (p1 = p) as -> by congruence.
  destruct (inv_pairs _ I _ p Hp) as (key0 & Hkey0 & _ & Hready & _). simpl in Hkey0. assert (key0 = key) as -> by congruence.
  destruct (Hready Hload) as (_ & Hneeds & Hrd).
  unfold BudgetKeyProvider.GetBudgetKey. fold name. destruct (make_key _ _ _) as [k o1] eqn:Hmk.
  injection Hmk as Hk1 Ho1. pose proof (fresh_key (objects s)) as Hfk. rewrite Hk1 in Hfk, Ho1.
  unfold make_provider_pair.
  change (pair_heap (with_objects o1 s)) with (pair_heap s).
  change (budget_keys_ (with_pairs _ _)) with (budget_keys_ s).
  set (np := fresh (dom (pair_heap s))). pose proof (fresh_pair s) as Hfp. fold np in Hfp.
  destruct (Insert_answers provider_config (now a) eq_refl eq_refl (budget_keys_ s) name np (rest_cache _ _ R))
    as (c' & W' & Hi).
  rewrite Hr, Hb in Hi. destruct Hi as [Hi _]. rewrite Hi.
  change (negb (Successful _)) with true. cbn iota zeta. cbn [default from_option].
  change (status_code _) with SC_CONCURRENT_MAP_ENTRY_ALREADY_EXISTS.
  change (negb (SC_CONCURRENT_MAP_ENTRY_ALREADY_EXISTS =? _) && _) with false. cbn iota.
  change (SC_CONCURRENT_MAP_ENTRY_ALREADY_EXISTS =? _) with false. cbn iota.
  unfold BudgetKeyProvider.get_existing. cbn [pair_heap with_objects with_budget_keys with_pairs].
  change (id (entry r)) with (entry r).
  rewrite lookup_insert_ne by congruence. rewrite Hp. cbn [mbind option_bind]. rewrite Hneeds, Hload. cbn [negb].
  eexists _, _, key. split; [done|]. cbn [objects with_objects with_budget_keys with_pairs].
  destruct (destroy_key_heaps k o1) as [Hkh Hmh].
  assert (manager_heap (destroy_key k o1) = manager_heap (objects s)) as Hmh' by by rewrite Hmh, <- Ho1.
  split_and!.
  - rewrite Hkh, <- Ho1. simpl. rewrite lookup_insert_ne by congruence. exact Hk.
  - exact Hn.
  - destruct Hrd as (m & mo & ? & ? & Hmo & ? & ?). exists m, mo. by rewrite Hmh'.
  - rewrite (holds_view valid_name _ _ _ _ _ Hh). unfold key_view. by rewrite Hmh'.
Qed.

(** C4: an instance that recovers a checkpoint through the journal and runs,
    answers the first request for a key of the checkpoint at once, without a log
    and without loading: with a key of that name, which has the protocol and the
    timeframe manager of the key's id, and the days the checkpointed instance had
    for it. *)
Theorem recovered_provider_serves a s :
  at_rest s → distinct_ids (provider_view s) →
  ∃ s' logs, BudgetKeyProvider.Checkpoint a s = Some (SuccessExecutionResult, s', logs) ∧
    ∀ a0 batches a1, distinct_log_ids logs → concat batches = read_log_of <$> logs → accepted a1 = SuccessExecutionResult →
      ∃ s0 s1 s2 calls, BudgetKeyProvider.Init new_provider = (SuccessExecutionResult, s0) ∧
        Recover (H := BudgetKeyProvider.provider_recoverable a0)
          ((pair SuccessExecutionResult <$> batches) ++ [end_of_stream]) s0
        = Some (Some SuccessExecutionResult, s1) ∧
        BudgetKeyProvider.Run a1 s1 = Some (SuccessExecutionResult, s2, calls) ∧ running s2 ∧
        ∀ a2 ctx v, provider_view s !! budget_key_name ctx = Some v →
          ∃ s3 k key, BudgetKeyProvider.GetBudgetKey a2 ctx s2
              = Some (SuccessExecutionResult, s3, [FinishGet ctx SuccessExecutionResult (Some k)]) ∧
            key_heap (objects s3) !! k = Some key ∧ name_ key = budget_key_name ctx ∧
            ready (objects s3) key ∧ key_view (objects s3) key = restored v.
Proof.
  intros R Hd.
  destruct (checkpoint_recovers valid_name a s R Hd) as (s' & logs & Hc & _ & _ & Hnd & Hrec).
  exists s', logs. split; [done|]. intros a0 batches a1 Hids Hb Ha1.
  destruct (Hrec a0) as (s0 & t & Hinit & Hr & T & Hv).
  set (j := make_output_stream (journal_service_ (objects t))).
  destruct (at_rest_journal valid_name t j (recovering_rest _ _ T)) as [R1 Hv1].
  set (s1 := with_objects (with_journal_service j (objects t)) t) in *.
  destruct (recovering_unserved _ _ T) as ([W N Pr O A] & _ & Hprot).
  assert (recovered s1) as Rs1 
    by (constructor; [exact R1|constructor; [exact W|exact N|exact Pr|exact O|exact A]|exact Hprot]).
  destruct (Run_spec a1 s1 Ha1 Rs1) as (s2 & calls & Hrun & Rs2 & Hv2 & Hload).
  { intros name v. rewrite Hv1, Hv, lookup_fmap. by intros (v0 & _ & ->)%fmap_Some. }
  exists s0, s1, s2, calls. split; [done|].
  split; [by apply (Recover_logs valid_name a0 s0 (read_log_of <$> logs) t batches); [|apply Hnd|]|].
  split; [done|]. split; [apply Rs2|]. intros a2 ctx v Hvn.
  assert (provider_view s1 !! budget_key_name ctx = Some (restored v)) as Hvn1 by by rewrite Hv1, Hv, lookup_fmap, Hvn.
  destruct (GetBudgetKey_loaded a2 ctx s2 Rs2) as (s3 & k & key & Hg & Hk & Hn & Hrd & Hv3); [by apply Hload; eexists|].
  exists s3, k, key. split; [done|]. split; [done|]. split; [done|]. split; [done|].
  rewrite Hv2, Hvn1 in Hv3. congruence.
Qed.

End serving.
