(* ===== verification/BudgetKeyExamples.v ===== *)
(** * Examples of the budget keys

    A provider with one loaded key, which has one day, and the theorems about
    the provider applied to it. *)

From S2P Require Import Prelude Text ExecutionResult ErrorCodes Uuid ConcurrentMap Serialization AutoExpiryMap AutoExpiryView.
From S2P Require Import TimeframeUtils TimeframeLog TimeframeManager TimeframeCache TimeframeLoading TimeframeRecovery TimeframeExamples.
From S2P Require Import JournalService BudgetKey BudgetKeyProvider BudgetKeySystem BudgetKeyRecovery BudgetKeyReplay BudgetKeyServing.
From stdpp Require Import options.
Import ExampleProto.

Local Open Scope Z_scope.

(** ** A wire form *)

Module ExampleKeyLogs.

Definition operations : list OperationType := [OPERATION_TYPE_UNKNOWN; LOAD_INTO_CACHE; DELETE_FROM_CACHE].
Definition operation_number (o : OperationType) : Z :=
  match o with OPERATION_TYPE_UNKNOWN => 0 | LOAD_INTO_CACHE => 1 | DELETE_FROM_CACHE => 2 end.

(** Names of at most a thousand characters. *)
Definition short (name : string) : Prop := (length (put_string name) ≤ 1000)%nat.

#[export] Instance key_log_1_0_message : ProtoMessage BudgetKeyLog_1_0 :=
  fields_message (λ l, [high (log_timeframe_manager_id l); low (log_timeframe_manager_id l)])
    (λ fields, match fields with [h; l] => Some (mkBudgetKeyLog_1_0 (mkUuid h l)) | _ => None end).
#[export] Instance key_log_message : ProtoMessage BudgetKeyLog :=
  fields_message (λ l, major (key_log_version l) :: minor (key_log_version l) :: key_log_body l)
    (λ fields, match fields with
               | ma :: mi :: body => Some (mkBudgetKeyLog (mkVersion ma mi) body)
               | _ => None
               end).
#[export] Instance provider_log_1_0_message : ProtoMessage BudgetKeyProviderLog_1_0 :=
  fields_message
    (λ l, operation_number (operation_type l) :: high (log_key_id l) :: low (log_key_id l)
          :: put_string (log_budget_key_name l))
    (λ fields, match fields with
               | o :: h :: l :: name =>
                   '(name, _) ← get_list name;
                   o ← operations !! Z.to_nat o;
                   Some (mkProviderLog_1_0 o (string_of name) (mkUuid h l))
               | _ => None
               end).
#[export] Instance provider_log_message : ProtoMessage BudgetKeyProviderLog :=
  fields_message (λ l, major (provider_log_version l) :: minor (provider_log_version l) :: provider_log_body l)
    (λ fields, match fields with
               | ma :: mi :: body => Some (mkProviderLog (mkVersion ma mi) body)
               | _ => None
               end).

#[export] Instance key_log_1_0_laws : ProtoMessageLaws BudgetKeyLog_1_0 valid_key_log_1_0 max_log_1_0.
Proof. apply fields_message_laws; [by intros l _|done|by intros [[]]]. Defined.
#[export] Instance key_log_laws : ProtoMessageLaws BudgetKeyLog valid_key_log max_log.
Proof.
  apply fields_message_laws; [|done|by intros [[] ?]]. intros l (_ & _ & Hl). simpl. unfold max_log, max_log_1_0 in *. lia.
Defined.
#[export] Instance provider_log_1_0_laws : ProtoMessageLaws BudgetKeyProviderLog_1_0 (valid_provider_log_1_0 short) max_log_1_0.
Proof.
  apply fields_message_laws; [|done|].
  - intros l (_ & Hl & _). unfold short in Hl. cbn [length]. unfold max_log_1_0. lia.
  - intros [o name [h l]]. unfold put_string. cbn [log_budget_key_name log_key_id operation_type high low].
    rewrite <- (app_nil_r (put_list _)), get_put_list. cbn [mbind option_bind]. rewrite string_of_put. by destruct o.
Defined.
#[export] Instance provider_log_laws : ProtoMessageLaws BudgetKeyProviderLog valid_provider_log max_log.
Proof.
  apply fields_message_laws; [|done|by intros [[] ?]]. intros l (_ & _ & Hl). simpl. unfold max_log, max_log_1_0 in *. lia.
Defined.

#[export] Instance key_log_1_0_not_empty : ProtoNotEmpty BudgetKeyLog_1_0 valid_key_log_1_0 max_log_1_0.
Proof. by intros l _. Qed.
#[export] Instance key_log_not_empty : ProtoNotEmpty BudgetKeyLog valid_key_log max_log.
Proof. by intros l _. Qed.
#[export] Instance provider_log_1_0_not_empty : ProtoNotEmpty BudgetKeyProviderLog_1_0 (valid_provider_log_1_0 short) max_log_1_0.
Proof. by intros l _. Qed.
#[export] Instance provider_log_not_empty : ProtoNotEmpty BudgetKeyProviderLog valid_provider_log max_log.
Proof. by intros l _. Qed.

End ExampleKeyLogs.
Import ExampleKeyLogs.

(** ** A provider with one key *)

Definition example_id : Uuid := mkUuid 5 6.
Definition example_key : BudgetKey := mkBudgetKey "key" example_id (Some 1%positive) (Some 1%positive) None.
Definition example_manager_object : ManagerObject :=
  mkManagerObject "key" (GetTimeframeManagerId example_id) example_manager.
Definition example_pair : BudgetKeyProviderPair := mkPair 1%positive true false.
Definition example_key_cache : AutoExpiryConcurrentMap (K := string) (V := pair_loc) :=
  mkMap {[ "key" := 1%positive ]} {[ 1%positive := mkEntry 1%positive false true 0 ]} 0 true.
Definition example_provider : BudgetKeyProvider :=
  mkProvider example_key_cache {[ 1%positive := example_pair ]}
    (mkObjects {[ 1%positive := example_key ]} {[ 1%positive := example_manager_object ]}
       (mkJournal true true true ∅)).
Definition example_ids : Answers :=
  mkAnswers 5 (SuccessExecutionResult, "budget") (λ i, mkUuid 3 (Z.of_nat i)) SuccessExecutionResult.

Lemma example_key_entries name r : entries example_key_cache !! name = Some r →
  name = "key" ∧ r = mkEntry 1%positive false true 0.
Proof.
  intros (l & Hl & Hr)%entries_Some. cbn in Hl. apply lookup_singleton_Some in Hl as [<- <-].
  cbn in Hr. by injection Hr as <-.
Qed.

Lemma example_key_cache_well_formed : well_formed_map example_key_cache.
Proof.
  constructor.
  - intros key l Hl. cbn in Hl. apply lookup_singleton_Some in Hl as [_ <-]. by eexists.
  - intros k1 k2 l H1 H2. cbn in H1, H2. apply lookup_singleton_Some in H1 as [<- _], H2 as [<- _]. done.
Qed.

Lemma example_key_valid : valid_key short (objects example_provider) "key" example_key.
Proof.
  split; [done|]. split; [by apply Nat.leb_le|]. split; [by split|]. intros m [= <-].
  exists example_manager_object. split; [done|]. split; [done|]. split; [done|].
  split; [apply example_valid_manager|apply example_none_evicted].
Qed.

Lemma example_at_rest : at_rest short example_provider.
Proof.
  constructor; [apply example_key_cache_well_formed|]. intros name r [-> ->]%example_key_entries.
  exists example_pair, example_key. split; [done|]. split; [done|]. split; [done|]. split; [done|apply example_key_valid].
Qed.

Lemma example_view name v : provider_view example_provider !! name = Some v → name = "key" ∧ view_id v = example_id.
Proof.
  intros Hv. destruct (view_holds short _ _ _ example_at_rest Hv) as (r & p & key & (Hr & _ & Hp & Hk & _) & ->).
  apply example_key_entries in Hr as [-> ->]. split; [done|]. cbn in Hp. injection Hp as <-. cbn in Hk. by injection Hk as <-.
Qed.

Lemma example_distinct_ids : distinct_ids (provider_view example_provider).
Proof.
  split.
  - intros n v [_ ->]%example_view. by vm_compute.
  - intros n1 v1 n2 v2 [-> ->]%example_view [-> ->]%example_view. by vm_compute.
Qed.

Lemma example_running : running example_provider.
Proof.
  constructor.
  - apply example_key_cache_well_formed.
  - intros name r [-> ->]%example_key_entries. by exists example_pair, example_key.
  - intros p pair Hp. cbn in Hp. apply lookup_singleton_Some in Hp as [<- <-]. exists example_key.
    split; [done|]. split; [done|]. split; [|split; [done|by apply Nat.leb_le]]. intros _. split; [done|]. split; [done|].
    by exists 1%positive, example_manager_object.
  - intros p1 p2 pair1 pair2 H1 H2. cbn in H1, H2. apply lookup_singleton_Some in H1 as [<- _], H2 as [<- _]. done.
  - constructor.
Qed.

Definition example_get : GetContext := mkGet (mkUuid 1 1) "key".

Lemma example_key_served : ∃ s' k,
  step (mkProviderSystem example_provider []) [FinishGet example_get SuccessExecutionResult (Some k)]
    (mkProviderSystem s' []).
Proof.
  destruct (GetBudgetKey_loaded short example_ids example_get example_provider) as (s' & k & key & Hg & _).
  - constructor; [apply example_at_rest|apply example_running|]. intros k key Hk. cbn in Hk.
    by apply lookup_singleton_Some in Hk as [_ <-].
  - by exists 1%positive, example_pair.
  - exists s', k. exact (step_get example_ids _ example_get _ s' _ [] Hg).
Qed.

Lemma example_checkpoint :
  option_map (λ '(r, _, logs), (r, map log_id logs)) (BudgetKeyProvider.Checkpoint example_ids example_provider)
  = Some (SuccessExecutionResult, [mkUuid 3 0; mkUuid 3 1; mkUuid 3 2]).
Proof. vm_compute. reflexivity. Qed.

Lemma example_log_ids r s' logs :
  BudgetKeyProvider.Checkpoint example_ids example_provider = Some (r, s', logs) → distinct_log_ids logs.
Proof.
  intros Hc. pose proof example_checkpoint as He. rewrite Hc in He. injection He as _ Hids.
  change (map log_id logs) with (log_id <$> logs) in Hids. split.
  - apply (Forall_fmap log_id valid_uuid logs). rewrite Hids. by repeat constructor.
  - rewrite Hids. apply (bool_decide_unpack _). by vm_compute.
Qed.

(** ** The theorems at these inputs *)

Lemma served_keys_ready_witness : ∃ s' k key,
  key_heap (objects s') !! k = Some key ∧ name_ key = "key" ∧ ready (objects s') key.
Proof.
  destruct example_key_served as (s' & k & Hs).
  destruct (served_keys_ready example_provider _ _ _ example_running (reachable_start _) Hs) as (Hserved & _ & _).
  destruct (Hserved example_get SuccessExecutionResult k) as (key & ? & ? & ?); [by left|].
  exists s', k, key. split; [done|]. by split.
Defined.

Lemma batch_protocol_missing_witness : ∃ s' k key,
  key_heap (objects s') !! k = Some key ∧ batch_consume_budget_transaction_protocol_ key = None.
Proof.
  destruct example_key_served as (s' & k & Hs).
  destruct (batch_protocol_missing example_provider _ _ _ example_get SuccessExecutionResult k
              example_running (reachable_start _) Hs) as (key & ? & ?); [by left|].
  exists s', k, key. by split.
Defined.

(** The logs come in one batch. *)
Lemma provider_checkpoint_recover_witness : ∃ logs s1,
  log_id <$> logs = [mkUuid 3 0; mkUuid 3 1; mkUuid 3 2] ∧
  Recover (H := BudgetKeyProvider.provider_recoverable example_ids)
    [(SuccessExecutionResult, read_log_of <$> logs); end_of_stream] (BudgetKeyProvider.Init new_provider).2
  = Some (Some SuccessExecutionResult, s1) ∧
  provider_view s1 = restored <$> provider_view example_provider.
Proof.
  destruct (provider_checkpoint_recover short example_ids example_provider example_at_rest example_distinct_ids)
    as (s' & logs & Hc & _ & _ & Hrec).
  destruct (Hrec example_ids [read_log_of <$> logs] (example_log_ids _ _ _ Hc)) as (s0 & s1 & Hinit & Hr & _ & Hv).
  { simpl. by rewrite app_nil_r. }
  exists logs, s1. split; [|split; [by rewrite Hinit|done]].
  pose proof example_checkpoint as He. rewrite Hc in He. by injection He.
Defined.

Lemma recovered_provider_serves_witness : ∃ s2 s3 k key,
  BudgetKeyProvider.GetBudgetKey example_ids example_get s2
  = Some (SuccessExecutionResult, s3, [FinishGet example_get SuccessExecutionResult (Some k)]) ∧
  key_heap (objects s3) !! k = Some key ∧ id_ key = example_id.
Proof.
  destruct (recovered_provider_serves short example_ids example_provider example_at_rest example_distinct_ids)
    as (s' & logs & Hc & Hrec).
  destruct (Hrec example_ids [read_log_of <$> logs] example_ids (example_log_ids _ _ _ Hc))
    as (s0 & s1 & s2 & calls & _ & _ & _ & _ & Hget); [simpl; by rewrite app_nil_r|done|].
  destruct (Hget example_ids example_get (key_view (objects example_provider) example_key))
    as (s3 & k & key & Hg & Hk & _ & _ & Hv).
  { by apply (holds_view short example_provider "key" (mkEntry 1%positive false true 0) example_pair);
      repeat split; try apply example_key_valid. }
  exists s2, s3, k, key. split; [done|]. split; [done|]. by injection Hv.
Defined.
