(* ===== verification/LeasableLock.v ===== *)
(** * The leasable lock

    Models [cc/pbs/leasable_lock/src/leasable_lock_on_nosql_database.{h,cc}] and its
    helpers: a lease on a row of the database, taken over when its time is up, and
    written only if the row is still the one that was read. A refresh is given in
    the parts between which other nodes act, and as a whole. [None] is undefined
    behaviour or an exception that leaves a [noexcept] function. Every reading of
    the wall clock, in nanoseconds, is an argument of its own. *)

From S2P Require Import Prelude Text ExecutionResult ErrorCodes NoSQLDatabase Dispatcher.
From stdpp Require Import options.

Local Open Scope Z_scope.

(** ** Leases *)

Record LeaseInfo := mkLeaseInfo {
  lease_acquirer_id : string;
  service_endpoint_address : string;
}.

#[export] Instance LeaseInfo_eq_dec : EqDecision LeaseInfo.
Proof. solve_decision. Defined.

Record LeaseInfoInternal := mkLease {
  lease_owner_info : LeaseInfo;
  lease_expiraton_timestamp_in_milliseconds : Z;
  lease_acquisition_disallowed : bool;
}.

Definition NewLease (owner : LeaseInfo) : LeaseInfoInternal := mkLease owner 0 false.
Definition EmptyLease : LeaseInfoInternal := NewLease (mkLeaseInfo "" "").

Definition lease_owner (l : LeaseInfoInternal) : string := lease_acquirer_id (lease_owner_info l).
Abbreviation lease_expiration := lease_expiraton_timestamp_in_milliseconds.

Definition GetCurrentTimeInMilliseconds (now : Z) : Z := Z.quot now 1000000.

Definition IsExpired (now : Z) (l : LeaseInfoInternal) : bool :=
  lease_expiration l <? GetCurrentTimeInMilliseconds now.

(** Signed 64-bit overflow is undefined. *)
Definition SetExpirationTimestampFromNow (now duration : Z) (l : LeaseInfoInternal) : option LeaseInfoInternal :=
  let expiration := GetCurrentTimeInMilliseconds now + duration in
  if (- 2 ^ 63 <=? expiration) && (expiration <? 2 ^ 63) then
    Some (mkLease (lease_owner_info l) expiration (lease_acquisition_disallowed l))
  else None.

Definition IsLeaseOwner (id : string) (l : LeaseInfoInternal) : bool := String.eqb (lease_owner l) id.

Definition IsLeaseRenewalRequired (now duration threshold : Z) (l : LeaseInfoInternal) : option bool :=
  let now := GetCurrentTimeInMilliseconds now in
  if lease_expiration l <? now then Some true
  else
    let left := (lease_expiration l - now) * 100 in
    if (duration =? 0) || (2 ^ 63 <=? left) then None
    else Some (to_double (Z.quot left duration) <? to_double threshold).

(** [duration / 2.0] is exact. *)
Definition IsHalfLeaseDurationPassed (now duration : Z) (l : LeaseInfoInternal) : bool :=
  let now := GetCurrentTimeInMilliseconds now in
  if lease_expiration l <? now then true
  else 2 * to_double (lease_expiration l - now) <? to_double duration.

(** ** Leases in the database *)

Definition kPBSPartitionLockTableLockIdKeyName : string := "LockId".
Definition kPBSPartitionLockTableLeaseOwnerIdAttributeName : string := "LeaseOwnerId".
Definition kPBSPartitionLockTableLeaseExpirationTimestampAttributeName : string := "LeaseExpirationTimestamp".
Definition kPBSLockTableLeaseOwnerServiceEndpointAddressAttributeName : string := "LeaseOwnerServiceEndpointAddress".
Definition kPBSLockTableLeaseAcquisitionDisallowedAttributeName : string := "LeaseAcquisitionDisallowed".

Definition ConstructAttributesFromLeaseInfo (l : LeaseInfoInternal) : list Attribute :=
  [(kPBSPartitionLockTableLeaseOwnerIdAttributeName, StringValue (lease_owner l));
   (kPBSLockTableLeaseOwnerServiceEndpointAddressAttributeName,
      StringValue (service_endpoint_address (lease_owner_info l)));
   (kPBSPartitionLockTableLeaseExpirationTimestampAttributeName, StringValue (to_string (lease_expiration l)))].

(** [get<string>]. *)
Definition get_string (v : AttributeValue) : option string :=
  match v with StringValue s => Some s | _ => None end.

(** [std::stoll]: [None] is [invalid_argument] or [out_of_range]. *)
Definition stoll (s : string) : option Z :=
  v ← read_decimal s;
  if (- 2 ^ 63 <=? v) && (v <? 2 ^ 63) then Some v else None.

Definition timestamp_error : ExecutionResult := FailureExecutionResult SC_LEASABLE_LOCK_TIMESTAMP_CONVERSION_ERROR.

(** One attribute: the lease it changes, or nothing more when the timestamp cannot
    be read. *)
Definition ObtainAttribute (a : Attribute) (l : LeaseInfoInternal) : option (option LeaseInfoInternal) :=
  let '(name, value) := a in
  if String.eqb name kPBSPartitionLockTableLeaseOwnerIdAttributeName then
    id ← get_string value;
    Some (Some (mkLease (mkLeaseInfo id (service_endpoint_address (lease_owner_info l)))
                  (lease_expiration l) (lease_acquisition_disallowed l)))
  else if String.eqb name kPBSLockTableLeaseOwnerServiceEndpointAddressAttributeName then
    address ← get_string value;
    Some (Some (mkLease (mkLeaseInfo (lease_owner l) address)
                  (lease_expiration l) (lease_acquisition_disallowed l)))
  else if String.eqb name kPBSPartitionLockTableLeaseExpirationTimestampAttributeName then
    text ← get_string value;
    Some ((λ t, mkLease (lease_owner_info l) t (lease_acquisition_disallowed l)) <$> stoll text)
  else if String.eqb name kPBSLockTableLeaseAcquisitionDisallowedAttributeName then
    text ← get_string value;
    Some (Some (mkLease (lease_owner_info l) (lease_expiration l)
                  (String.eqb text "true" || String.eqb text "True" || lease_acquisition_disallowed l)))
  else Some (Some l).

Fixpoint ObtainLeaseInfoFromAttributes (attributes : list Attribute) (l : LeaseInfoInternal)
  : option (ExecutionResult * LeaseInfoInternal) :=
  match attributes with
  | [] => Some (SuccessExecutionResult, l)
  | a :: rest =>
      next ← ObtainAttribute a l;
      match next with
      | Some l => ObtainLeaseInfoFromAttributes rest l
      | None => Some (timestamp_error, l)
      end
  end.

(** ** The lock *)

Record LeasableLock := mkLock {
  current_lease_ : option LeaseInfoInternal;
  lease_acquirer_info_ : LeaseInfo;
  table_name_ : string;
  lock_row_key_ : string;
  lease_duration_in_milliseconds_ : Z;
  lease_renewal_threshold_percent_time_left_in_lease_ : Z;
}.

Definition with_lease (l : LeaseInfoInternal) (s : LeasableLock) :=
  mkLock (Some l) (lease_acquirer_info_ s) (table_name_ s) (lock_row_key_ s)
    (lease_duration_in_milliseconds_ s) (lease_renewal_threshold_percent_time_left_in_lease_ s).

Definition acquirer_id (s : LeasableLock) : string := lease_acquirer_id (lease_acquirer_info_ s).

Definition kDefaultLeaseDurationInMilliseconds : Z := 10000.
Definition kLeaseRenewalThresholdPercentTimeLeftInLease : Z := 50.

Definition NewLeasableLock (acquirer : LeaseInfo) (table row_key : string) : LeasableLock :=
  mkLock None acquirer table row_key kDefaultLeaseDurationInMilliseconds
    kLeaseRenewalThresholdPercentTimeLeftInLease.

(** The row that is read and written. *)
Definition lock_row (s : LeasableLock) : string * Attribute :=
  (table_name_ s, (kPBSPartitionLockTableLockIdKeyName, StringValue (lock_row_key_ s))).

(** [expired] and [threshold_reached] are two readings of the clock. *)
Definition ShouldRefreshLease (now now' : Z) (s : LeasableLock) : option bool :=
  match current_lease_ s with
  | None => Some true
  | Some l =>
      if IsExpired now l then Some true
      else if IsLeaseOwner (acquirer_id s) l then
        IsLeaseRenewalRequired now' (lease_duration_in_milliseconds_ s)
          (lease_renewal_threshold_percent_time_left_in_lease_ s) l
      else Some (IsHalfLeaseDurationPassed now' (lease_duration_in_milliseconds_ s) l)
  end.

Definition GetConfiguredLeaseDurationInMilliseconds (s : LeasableLock) : Z := u64 (lease_duration_in_milliseconds_ s).

Definition GetCurrentLeaseOwnerInfo (now : Z) (s : LeasableLock) : option LeaseInfo :=
  match current_lease_ s with
  | Some l => if negb (IsExpired now l) then Some (lease_owner_info l) else None
  | None => None
  end.

Definition IsCurrentLeaseOwner (now : Z) (s : LeasableLock) : bool :=
  match current_lease_ s with
  | Some l => negb (IsExpired now l) && IsLeaseOwner (acquirer_id s) l
  | None => false
  end.

(** ** Refreshing the lease *)

(** What a database request came to: refused at once, or answered. *)
Inductive DatabaseAnswer :=
| Refused (result : ExecutionResult)
| Answered (result : ExecutionResult) (attributes : list Attribute).

(** [ReadLeaseSynchronouslyFromDatabase] into a new lease. *)
Definition ReadLeaseSynchronouslyFromDatabase (answer : DatabaseAnswer)
  : option (ExecutionResult * LeaseInfoInternal) :=
  match answer with
  | Refused result => Some (result, EmptyLease)
  | Answered result attributes =>
      if negb (Successful result) then Some (result, EmptyLease)
      else ObtainLeaseInfoFromAttributes attributes EmptyLease
  end.

(** The lease is cached as it was read, or it is to be written. *)
Inductive AfterRead :=
| Finished (result : ExecutionResult)
| Acquire (lease_read : LeaseInfoInternal).

Definition OnLeaseRead (is_read_only_lease_refresh : bool) (answer : DatabaseAnswer) (now : Z)
    (s : LeasableLock) : option (AfterRead * LeasableLock) :=
  '(result, lease_read) ← ReadLeaseSynchronouslyFromDatabase answer;
  if negb (Successful result) then Some (Finished result, s)
  else if lease_acquisition_disallowed lease_read then
    Some (Finished (FailureExecutionResult SC_LEASABLE_LOCK_ACQUISITION_DISALLOWED), s)
  else if negb (IsLeaseOwner (acquirer_id s) lease_read) && negb (IsExpired now lease_read) then
    Some (Finished result, with_lease lease_read s)
  else if is_read_only_lease_refresh then Some (Finished result, with_lease lease_read s)
  else Some (Acquire lease_read, s).

(** The lease to write. *)
Definition RenewedLease (now : Z) (lease_read : LeaseInfoInternal) (s : LeasableLock) : option LeaseInfoInternal :=
  let new_lease :=
    if negb (IsLeaseOwner (acquirer_id s) lease_read) then NewLease (lease_acquirer_info_ s) else lease_read in
  SetExpirationTimestampFromNow now (lease_duration_in_milliseconds_ s) new_lease.

(** The request of [WriteLeaseSynchronouslyToDatabase]: the attributes the row must
    have, and those it gets. *)
Definition WriteRequest (previous_lease new_lease : LeaseInfoInternal) : list Attribute * list Attribute :=
  (ConstructAttributesFromLeaseInfo previous_lease, ConstructAttributesFromLeaseInfo new_lease).

Definition OnLeaseWritten (new_lease : LeaseInfoInternal) (answer : DatabaseAnswer) (s : LeasableLock)
  : ExecutionResult * LeasableLock :=
  let result := match answer with Refused result | Answered result _ => result end in
  if negb (Successful result) then (result, s)
  else (SuccessExecutionResult, with_lease new_lease s).

(** The whole refresh, of a database [read]s and [write]s are calls of. *)
Definition RefreshLease (is_read_only_lease_refresh : bool)
    (read : string * Attribute → DatabaseAnswer)
    (write : string * Attribute → list Attribute * list Attribute → DatabaseAnswer)
    (now now' : Z) (s : LeasableLock) : option (ExecutionResult * LeasableLock) :=
  '(after, s) ← OnLeaseRead is_read_only_lease_refresh (read (lock_row s)) now s;
  match after with
  | Finished result => Some (result, s)
  | Acquire lease_read =>
      new_lease ← RenewedLease now' lease_read s;
      Some (OnLeaseWritten new_lease (write (lock_row s) (WriteRequest lease_read new_lease)) s)
  end.

(** ** What is written is read back *)

(** [attributes] are those of a row that has the lease [l]. *)
Definition has_lease (attributes : list Attribute) (l : LeaseInfoInternal) : Prop :=
  ∀ a, a ∈ ConstructAttributesFromLeaseInfo l → a ∈ attributes.

(** A timestamp that fits [int64_t]. *)
Definition valid_expiration (l : LeaseInfoInternal) : Prop := - 2 ^ 63 ≤ lease_expiration l < 2 ^ 63.

Lemma stoll_to_string n : - 2 ^ 63 ≤ n < 2 ^ 63 → stoll (to_string n) = Some n.
Proof.
  intros Hn. unfold stoll. rewrite read_decimal_to_string; cbn [mbind option_bind].
  by rewrite (proj2 (Z.leb_le _ _)), (proj2 (Z.ltb_lt _ _)) by lia.
Qed.

Abbreviation OwnerIdName := kPBSPartitionLockTableLeaseOwnerIdAttributeName.
Abbreviation OwnerAddressName := kPBSLockTableLeaseOwnerServiceEndpointAddressAttributeName.
Abbreviation ExpirationName := kPBSPartitionLockTableLeaseExpirationTimestampAttributeName.
Abbreviation DisallowedName := kPBSLockTableLeaseAcquisitionDisallowedAttributeName.

(** What an attribute says of a lease that was read from it. *)
Definition says (a : Attribute) (l : LeaseInfoInternal) : Prop :=
  (a.1 = OwnerIdName → a.2 = StringValue (lease_owner l)) ∧
  (a.1 = OwnerAddressName → a.2 = StringValue (service_endpoint_address (lease_owner_info l))) ∧
  (a.1 = ExpirationName → ∃ text, a.2 = StringValue text ∧ stoll text = Some (lease_expiration l)).

(** Two leases agree on what attributes without the names [names] do not say. *)
Definition agree (names : list string) (l l' : LeaseInfoInternal) : Prop :=
  (OwnerIdName ∉ names → lease_owner l' = lease_owner l) ∧
  (OwnerAddressName ∉ names →
     service_endpoint_address (lease_owner_info l') = service_endpoint_address (lease_owner_info l)) ∧
  (ExpirationName ∉ names → lease_expiration l' = lease_expiration l).

Lemma names_differ : OwnerIdName ≠ OwnerAddressName ∧ OwnerIdName ≠ ExpirationName ∧ OwnerAddressName ≠ ExpirationName ∧
  OwnerIdName ≠ DisallowedName ∧ OwnerAddressName ≠ DisallowedName ∧ ExpirationName ≠ DisallowedName.
Proof. by vm_compute. Qed.

Lemma NoDup_same_name {A} (l : list (string * A)) n v v' : NoDup l.*1 → (n, v) ∈ l → (n, v') ∈ l → v = v'.
Proof.
  intros Hn (i & Hi)%list_elem_of_lookup (j & Hj)%list_elem_of_lookup.
  assert (i = j) as ->; [|congruence].
  eapply NoDup_lookup; [exact Hn| |]; rewrite list_lookup_fmap; [by rewrite Hi|by rewrite Hj].
Qed.

Lemma ObtainAttribute_says a l l' : ObtainAttribute a l = Some (Some l') → says a l' ∧ agree [a.1] l l'.
Proof.
  destruct a as [n v]. pose proof names_differ. unfold ObtainAttribute, says, agree. cbn [fst snd]. rewrite !list_elem_of_singleton.
  destruct (String.eqb_spec n OwnerIdName) as [->|?]; [|destruct (String.eqb_spec n OwnerAddressName) as [->|?];
    [|destruct (String.eqb_spec n ExpirationName) as [->|?];
    [|destruct (String.eqb_spec n DisallowedName) as [->|?]; [|intros; simplify_eq; split_and!; naive_solver]]]];
    destruct v; simpl; intros ?; simplify_option_eq; split_and!; naive_solver congruence.
Qed.

Lemma Obtain_says attributes l l' :
  NoDup attributes.*1 → ObtainLeaseInfoFromAttributes attributes l = Some (SuccessExecutionResult, l') →
  (∀ a, a ∈ attributes → says a l') ∧ agree attributes.*1 l l'.
Proof.
  revert l. induction attributes as [|a rest IH]; intros l Hn; simpl.
  { intros [= ->]. split; [|done]. by intros a ?%elem_of_nil. }
  destruct (ObtainAttribute a l) as [[l1|]|] eqn:Ha; simpl; [|done|done]. intros Ho.
  apply NoDup_cons in Hn as [Hni Hn]. destruct (IH l1 Hn Ho) as [Hs Hk].
  destruct (ObtainAttribute_says _ _ _ Ha) as [Hsa Hka].
  unfold agree in *. setoid_rewrite not_elem_of_cons. setoid_rewrite list_elem_of_singleton in Hka.
  destruct Hk as (Hk1 & Hk2 & Hk3). destruct Hka as (Ha1 & Ha2 & Ha3).
  split; [|split_and!; intros []; [rewrite Hk1, Ha1|rewrite Hk2, Ha2|rewrite Hk3, Ha3]; done].
  intros b [->|Hb]%elem_of_cons; [|by apply Hs]. destruct Hsa as (Hs1 & Hs2 & Hs3).
  split_and!; intros Hname; rewrite Hname in Hni.
  - rewrite Hk1; auto.
  - rewrite Hk2; auto.
  - rewrite Hk3; auto.
Qed.

(** A row that has a lease gives that lease, whatever else it has. *)
Lemma Obtain_has_lease attributes l l0 l' :
  NoDup attributes.*1 → has_lease attributes l → valid_expiration l →
  ObtainLeaseInfoFromAttributes attributes l0 = Some (SuccessExecutionResult, l') →
  lease_owner_info l' = lease_owner_info l ∧ lease_expiration l' = lease_expiration l.
Proof.
  intros Hn Hh Hv Ho. destruct (Obtain_says _ _ _ Hn Ho) as [Hs _].
  unfold has_lease, ConstructAttributesFromLeaseInfo in Hh.
  destruct (Hs _ (Hh _ ltac:(left))) as (H1 & _). specialize (H1 eq_refl). simplify_eq/=.
  destruct (Hs _ (Hh _ ltac:(right; left))) as (_ & H2 & _). specialize (H2 eq_refl). simplify_eq/=.
  destruct (Hs _ (Hh _ ltac:(right; right; left))) as (_ & _ & H3). destruct (H3 eq_refl) as (t & ? & Ht). simplify_eq/=.
  rewrite stoll_to_string in Ht by done. simplify_eq.
  destruct l' as [[]], l as [[]]. unfold lease_owner in *. simpl in *. subst. done.
Qed.

(** It gives a lease when no attribute has another type. *)
Lemma Obtain_total attributes l l0 :
  NoDup attributes.*1 → has_lease attributes l → valid_expiration l →
  (∀ v, (DisallowedName, v) ∈ attributes → is_Some (get_string v)) →
  ∃ l', ObtainLeaseInfoFromAttributes attributes l0 = Some (SuccessExecutionResult, l').
Proof.
  intros Hn Hh Hv Hd.
  assert (∀ a, a ∈ attributes → ∀ l0, ∃ l1, ObtainAttribute a l0 = Some (Some l1)) as Ha.
  { intros [n v] Ha l1.
    assert (∀ n' v', (n', v') ∈ ConstructAttributesFromLeaseInfo l → n = n' → v = v') as Hsame.
    { intros n' v' Hc <-. apply Hh in Hc. by eapply NoDup_same_name. }
    unfold ConstructAttributesFromLeaseInfo in Hsame. unfold ObtainAttribute.
    destruct (String.eqb_spec n OwnerIdName) as [Hname|_].
    { rewrite (Hsame _ _ ltac:(left) Hname). simpl. eauto. }
    destruct (String.eqb_spec n OwnerAddressName) as [Hname|_].
    { rewrite (Hsame _ _ ltac:(right; left) Hname). simpl. eauto. }
    destruct (String.eqb_spec n ExpirationName) as [Hname|_].
    { rewrite (Hsame _ _ ltac:(right; right; left) Hname). simpl. rewrite stoll_to_string by done. simpl. eauto. }
    destruct (String.eqb_spec n DisallowedName) as [->|_]; [|eauto].
    destruct (Hd _ Ha) as [s ->]. simpl. eauto. }
  clear Hn Hh Hd. revert l0. induction attributes as [|a rest IH]; intros l0; simpl; [eauto|].
  destruct (Ha a ltac:(left) l0) as [l1 ->]. simpl. apply IH. intros b Hb. apply Ha. by right.
Qed.
