(* ===== verification/LeaseSystem.v ===== *)
(** * Nodes that share a leasable lock

    Any number of nodes, each with its clock and its lock object, that refresh the
    lease on one row of a table whose reads and conditional upserts are single
    steps. Requests are answered late or never, a write whose answer is lost may
    still be applied later, nodes restart, and an operator edits what the lock does
    not write. Two nodes hold the lease at once only if a third party's clock, or
    one of theirs, is ahead. *)

From S2P Require Import Prelude ExecutionResult ErrorCodes NoSQLDatabase LeasableLock.
From stdpp Require Import options.

Local Open Scope Z_scope.

(** Where a node's refresh is: there is none, its read is under way and is answered
    with [attributes], it makes the new lease, or it writes it. *)
Inductive Refresh :=
| NoRefresh
| Reading (read_only : bool) (attributes : list Attribute)
| Acquiring (lease_read : LeaseInfoInternal)
| Writing (lease_read new_lease : LeaseInfoInternal) (applied : bool).

Record Node := mkNode { lock : LeasableLock; refresh : Refresh }.

(** Every node knows its own clock: the common time and an offset. *)
Record Config := mkConfig {
  clock_offset : string → Z;
  lease_duration : string → Z;
}.

Section system.
  Context {Row : Type} `{RowLaws Row} (config : Config).

Record LeaseSystem := mkLeaseSystem {
  now : Z;
  row : Row;
  nodes : gmap string Node;
  (** Writes that no node waits for any more. *)
  lost_writes : list (LeaseInfoInternal * LeaseInfoInternal);
}.

Definition clock (id : string) (t : Z) : Z := t + clock_offset config id.

Definition set_node (id : string) (n : Node) (σ : LeaseSystem) :=
  mkLeaseSystem (now σ) (row σ) (<[id := n]> (nodes σ)) (lost_writes σ).
Definition set_row (r : Row) (σ : LeaseSystem) := mkLeaseSystem (now σ) r (nodes σ) (lost_writes σ).
Definition set_now (t : Z) (σ : LeaseSystem) := mkLeaseSystem t (row σ) (nodes σ) (lost_writes σ).
Definition lose_write (w : LeaseInfoInternal * LeaseInfoInternal) (σ : LeaseSystem) :=
  mkLeaseSystem (now σ) (row σ) (nodes σ) (w :: lost_writes σ).

(** What stays in the database of a refresh that ends without its answer. *)
Definition abandon (r : Refresh) (σ : LeaseSystem) : LeaseSystem :=
  match r with
  | Writing lease_read new_lease false => lose_write (lease_read, new_lease) σ
  | _ => σ
  end.

Definition upsert_lease (lease_read new_lease : LeaseInfoInternal) (r : Row) : option Row :=
  let '(attributes, new_attributes) := WriteRequest lease_read new_lease in
  upsert_row attributes new_attributes r.

Inductive lease_step (σ : LeaseSystem) : LeaseSystem → Prop :=
| step_time t : now σ ≤ t → lease_step σ (set_now t σ)
| step_read id s read_only :
    nodes σ !! id = Some (mkNode s NoRefresh) →
    lease_step σ (set_node id (mkNode s (Reading read_only (row_attributes (row σ)))) σ)
| step_read_answered id s read_only attributes answer after s' :
    nodes σ !! id = Some (mkNode s (Reading read_only attributes)) →
    answer = Answered SuccessExecutionResult attributes ∨
      (∃ result, Successful result = false ∧ (answer = Refused result ∨ answer = Answered result [])) →
    OnLeaseRead read_only answer (clock id (now σ)) s = Some (after, s') →
    lease_step σ (set_node id
      (mkNode s' match after with Finished _ => NoRefresh | Acquire lease_read => Acquiring lease_read end) σ)
| step_write id s lease_read new_lease :
    nodes σ !! id = Some (mkNode s (Acquiring lease_read)) →
    RenewedLease (clock id (now σ)) lease_read s = Some new_lease →
    lease_step σ (set_node id (mkNode s (Writing lease_read new_lease false)) σ)
| step_write_applied id s lease_read new_lease r :
    nodes σ !! id = Some (mkNode s (Writing lease_read new_lease false)) →
    upsert_lease lease_read new_lease (row σ) = Some r →
    lease_step σ (set_node id (mkNode s (Writing lease_read new_lease true)) (set_row r σ))
| step_write_answered id s lease_read new_lease applied answer result s' :
    nodes σ !! id = Some (mkNode s (Writing lease_read new_lease applied)) →
    OnLeaseWritten new_lease answer s = (result, s') →
    (Successful result = true → applied = true) →
    lease_step σ (set_node id (mkNode s' NoRefresh) (abandon (Writing lease_read new_lease applied) σ))
| step_lost_write lease_read new_lease r :
    (lease_read, new_lease) ∈ lost_writes σ →
    upsert_lease lease_read new_lease (row σ) = Some r →
    lease_step σ (set_row r σ)
| step_restart id n s :
    nodes σ !! id = Some n → acquirer_id s = id → lease_duration_in_milliseconds_ s = lease_duration config id →
    current_lease_ s = None →
    lease_step σ (set_node id (mkNode s NoRefresh) (abandon (refresh n) σ))
| step_edit r :
    (∀ l, has_lease (row_attributes (row σ)) l ↔ has_lease (row_attributes r) l) →
    lease_step σ (set_row r σ).

(** The row exists, its lease is no node's, and the nodes have just started. *)
Record lease_initial (σ : LeaseSystem) : Prop := {
  initial_row : ∃ l, has_lease (row_attributes (row σ)) l ∧ valid_expiration l ∧ nodes σ !! lease_owner l = None;
  initial_nodes id n : nodes σ !! id = Some n →
    refresh n = NoRefresh ∧ acquirer_id (lock n) = id ∧ current_lease_ (lock n) = None ∧
    lease_duration_in_milliseconds_ (lock n) = lease_duration config id;
  initial_lost : lost_writes σ = [];
}.

Inductive lease_reachable : LeaseSystem → Prop :=
| lease_start σ : lease_initial σ → lease_reachable σ
| lease_continue σ σ' : lease_reachable σ → lease_step σ σ' → lease_reachable σ'.

(** The node takes itself for the owner, now and for [margin] more. *)
Definition holds_lease (margin : Z) (σ : LeaseSystem) (id : string) : Prop :=
  ∃ n, nodes σ !! id = Some n ∧ IsCurrentLeaseOwner (clock id (now σ) + margin) (lock n) = true.

(** ** The invariant *)

#[local] Set Default Proof Using "Type*".

Definition milliseconds (id : string) (t : Z) : Z := GetCurrentTimeInMilliseconds (clock id t).

(** Some node has seen the time [e] go by. *)
Definition passed (t e : Z) : Prop := ∃ id t', t' ≤ t ∧ e < milliseconds id t'.

(** What the node [id] may believe: it has the lease until [e], or [e] has passed
    for some node. *)
Definition safe (t : Z) (r : Row) (id : string) (e : Z) : Prop :=
  (∃ l, has_lease (row_attributes r) l ∧ lease_owner l = id ∧ e ≤ lease_expiration l) ∨ passed t e.

Definition timely (t : Z) (l : LeaseInfoInternal) : Prop :=
  lease_expiration l ≤ milliseconds (lease_owner l) t + lease_duration config (lease_owner l).

Record write_ok (t : Z) (lease_read new_lease : LeaseInfoInternal) : Prop := {
  write_valid : valid_expiration new_lease;
  write_timely : timely t new_lease;
  write_renews : lease_owner lease_read = lease_owner new_lease → lease_expiration lease_read ≤ lease_expiration new_lease;
  write_takes : lease_owner lease_read ≠ lease_owner new_lease → passed t (lease_expiration lease_read);
}.

Definition refresh_ok (t : Z) (r : Row) (id : string) (x : Refresh) : Prop :=
  match x with
  | NoRefresh => True
  | Reading _ attributes =>
      NoDup attributes.*1 ∧ ∃ l, has_lease attributes l ∧ valid_expiration l ∧
        (lease_owner l = id → timely t l ∧ safe t r id (lease_expiration l))
  | Acquiring lease_read =>
      (lease_owner lease_read = id → timely t lease_read) ∧
      (lease_owner lease_read ≠ id → passed t (lease_expiration lease_read))
  | Writing lease_read new_lease applied =>
      lease_owner new_lease = id ∧ write_ok t lease_read new_lease ∧
      (applied = true → safe t r id (lease_expiration new_lease))
  end.

Record node_ok (t : Z) (r : Row) (id : string) (n : Node) : Prop := {
  node_id : acquirer_id (lock n) = id;
  node_duration : lease_duration_in_milliseconds_ (lock n) = lease_duration config id;
  node_cache l : current_lease_ (lock n) = Some l → lease_owner l = id → safe t r id (lease_expiration l);
  node_refresh : refresh_ok t r id (refresh n);
}.

Record lease_invariant (σ : LeaseSystem) : Prop := {
  inv_row : ∃ l, has_lease (row_attributes (row σ)) l ∧ valid_expiration l ∧
    (is_Some (nodes σ !! lease_owner l) → timely (now σ) l);
  inv_nodes id n : nodes σ !! id = Some n → node_ok (now σ) (row σ) id n;
  inv_lost w : w ∈ lost_writes σ → write_ok (now σ) w.1 w.2;
}.

(** ** Time and the row go on *)

Lemma milliseconds_mono id t t' : t ≤ t' → milliseconds id t ≤ milliseconds id t'.
Proof. intros Ht. unfold milliseconds, GetCurrentTimeInMilliseconds, clock. apply Z.quot_le_mono; lia. Qed.

Lemma passed_mono t t' e : passed t e → t ≤ t' → passed t' e.
Proof. intros (id & t1 & ? & ?) ?. exists id, t1. split; [lia|done]. Qed.

Lemma passed_le t e e' : passed t e → e' ≤ e → passed t e'.
Proof. intros (id & t1 & ? & ?) ?. exists id, t1. split; [done|lia]. Qed.

Lemma timely_mono t t' l : timely t l → t ≤ t' → timely t' l.
Proof. unfold timely. intros Hl Ht. pose proof (milliseconds_mono (lease_owner l) _ _ Ht). lia. Qed.

(** What nodes may believe stays so. *)
Definition later (t : Z) (r : Row) (t' : Z) (r' : Row) : Prop :=
  t ≤ t' ∧ ∀ id e, safe t r id e → safe t' r' id e.

Lemma later_refl t r : later t r t r.
Proof. done. Qed.

Lemma later_time t t' r : t ≤ t' → later t r t' r.
Proof. intros Ht. split; [done|]. intros id e [Hl|Hp]; [by left|right; by eapply passed_mono]. Qed.

Lemma later_edit t r r' :
  (∀ l, has_lease (row_attributes r) l ↔ has_lease (row_attributes r') l) → later t r t r'.
Proof.
  intros He. split; [done|]. intros id e [(l & Hl & ?)|Hp]; [left|by right]. exists l. split; [by apply He|done].
Qed.

Lemma write_ok_later t r t' r' l l' : write_ok t l l' → later t r t' r' → write_ok t' l l'.
Proof.
  intros [] [Ht _]. constructor; [done|by eapply timely_mono|done|]. intros Hne. eapply passed_mono; eauto.
Qed.

Lemma node_ok_later t r t' r' id n : node_ok t r id n → later t r t' r' → node_ok t' r' id n.
Proof.
  intros [Hid Hd Hc Hr] Hl. destruct Hl as [Ht Hs] eqn:Hlater. constructor; [done|done|by eauto|].
  destruct (refresh n); simpl in *; [done| | |].
  - destruct Hr as (? & l & ? & ? & Hown). split; [done|]. exists l. split_and!; [done|done|].
    intros Ho. destruct (Hown Ho). split; [by eapply timely_mono|by apply Hs].
  - destruct Hr as [Hr1 Hr2]. split; intros Ho; [eapply timely_mono; eauto|eapply passed_mono; eauto].
  - destruct Hr as (? & Hw & ?). split_and!; [done|by eapply write_ok_later|]. intros Ha. by apply Hs; auto.
Qed.

(** ** The row and its lease *)

Lemma has_lease_unique attributes l l' : NoDup attributes.*1 → has_lease attributes l → has_lease attributes l' →
  lease_owner l = lease_owner l' ∧ lease_expiration l = lease_expiration l'.
Proof.
  intros Hn Hl Hl'. unfold has_lease, ConstructAttributesFromLeaseInfo in *.
  pose proof (NoDup_same_name _ _ _ _ Hn (Hl _ ltac:(left)) (Hl' _ ltac:(left))) as Ho.
  pose proof (NoDup_same_name _ _ _ _ Hn (Hl _ ltac:(right; right; left)) (Hl' _ ltac:(right; right; left))) as He.
  simplify_eq. split; [done|]. by apply Text.to_string_inj.
Qed.

Lemma upsert_lease_spec t l l' r r' : write_ok t l l' → upsert_lease l l' r = Some r' →
  later t r t r' ∧ has_lease (row_attributes r') l'.
Proof.
  unfold upsert_lease. cbn [WriteRequest]. intros Hw Hu.
  assert (has_lease (row_attributes r) l) as Hl by (intros a; by eapply upsert_conditions).
  assert (has_lease (row_attributes r') l') as Hl'.
  { intros a Ha. eapply upsert_writes; [|exact Hu|by left]. simpl. pose proof names_differ.
    repeat constructor; rewrite ?not_elem_of_cons; set_solver. }
  split; [|done]. split; [done|]. intros id e [(l0 & Hl0 & <- & He)|Hp]; [|by right].
  destruct (has_lease_unique _ _ _ (row_names_NoDup r) Hl0 Hl) as [Ho Hx].
  destruct (decide (lease_owner l = lease_owner l')) as [Heq|Hne].
  - left. exists l'. split_and!; [done|congruence|]. pose proof (write_renews _ _ _ Hw Heq). lia.
  - right. eapply passed_le; [by eapply write_takes|lia].
Qed.

(** ** A refresh *)

Lemma OnLeaseRead_failed read_only answer result c s after s' :
  Successful result = false → answer = Refused result ∨ answer = Answered result [] →
  OnLeaseRead read_only answer c s = Some (after, s') → after = Finished result ∧ s' = s.
Proof. intros Hr [->| ->]; unfold OnLeaseRead; simpl; rewrite Hr; simpl; rewrite ?Hr; by intros [= <- <-]. Qed.

Lemma OnLeaseRead_lease read_only attributes l c s after s' :
  NoDup attributes.*1 → has_lease attributes l → valid_expiration l →
  OnLeaseRead read_only (Answered SuccessExecutionResult attributes) c s = Some (after, s') →
  ∃ l', lease_owner l' = lease_owner l ∧ lease_expiration l' = lease_expiration l ∧
    match after with
    | Finished _ => s' = s ∨ s' = with_lease l' s
    | Acquire lease_read => lease_read = l' ∧ s' = s ∧
        (lease_owner l ≠ acquirer_id s → lease_expiration l < GetCurrentTimeInMilliseconds c)
    end.
Proof.
  intros Hn Hl Hv Ho. unfold OnLeaseRead in Ho. simpl in Ho.
  destruct (ObtainLeaseInfoFromAttributes attributes EmptyLease) as [[result l']|] eqn:Hob; simpl in Ho; [|done].
  destruct (Successful result) eqn:Hr; simpl in Ho; last first.
  { injection Ho as <- <-. by exists l; auto. }
  assert (result = SuccessExecutionResult) as ->.
  { revert Hob Hr. clear. generalize EmptyLease. induction attributes as [|a rest IH]; intros l0; simpl; [by intros [= <-]|].
    destruct (ObtainAttribute a l0) as [[]|]; simpl; [apply IH|by intros [= <- <-]|done]. }
  destruct (Obtain_has_lease _ _ _ _ Hn Hl Hv Hob) as [Hi He].
  assert (lease_owner l' = lease_owner l) as Hown by (unfold lease_owner; by rewrite Hi).
  exists l'. split_and!; [done|done|].
  unfold IsLeaseOwner, IsExpired in Ho. rewrite Hown, He in Ho.
  destruct (lease_acquisition_disallowed l'); [injection Ho as <- <-; by left|].
  destruct (String.eqb_spec (lease_owner l) (acquirer_id s)), (Z.ltb_spec (lease_expiration l) (GetCurrentTimeInMilliseconds c)), read_only;
    simpl in Ho; injection Ho as <- <-; first [by left|by right|split_and!; [done|done|intros ?; done || lia]].
Qed.

Lemma RenewedLease_spec c l s l' : RenewedLease c l s = Some l' →
  lease_owner l' = acquirer_id s ∧ valid_expiration l' ∧
  lease_expiration l' = GetCurrentTimeInMilliseconds c + lease_duration_in_milliseconds_ s.
Proof.
  unfold RenewedLease, SetExpirationTimestampFromNow, valid_expiration. intros Hl. case_match eqn:Hb; [|done].
  simplify_eq. simpl. unfold IsLeaseOwner. split_and!; [|lia|lia|done].
  unfold lease_owner. simpl. by destruct (String.eqb_spec (lease_acquirer_id (lease_owner_info l)) (acquirer_id s)).
Qed.

(** ** Every step *)

Lemma lease_frame σ σ' :
  lease_invariant σ → later (now σ) (row σ) (now σ') (row σ') →
  (∃ l, has_lease (row_attributes (row σ')) l ∧ valid_expiration l ∧
    (is_Some (nodes σ' !! lease_owner l) → timely (now σ') l)) →
  (∀ id n, nodes σ' !! id = Some n → nodes σ !! id = Some n ∨ node_ok (now σ') (row σ') id n) →
  (∀ w, w ∈ lost_writes σ' → w ∈ lost_writes σ ∨ write_ok (now σ') w.1 w.2) →
  lease_invariant σ'.
Proof.
  intros [_ Hn Hw] Hl Hr Hn' Hw'. constructor; [done| |].
  - intros id n Hid. destruct (Hn' _ _ Hid) as [Hold|]; [|done]. by eapply node_ok_later; [apply Hn|].
  - intros w Hin. destruct (Hw' _ Hin) as [Hold|]; [|done]. by eapply write_ok_later; [apply Hw|].
Qed.

(** A node changes; the row and the time do not. *)
Lemma invariant_node σ id n' :
  lease_invariant σ → is_Some (nodes σ !! id) → node_ok (now σ) (row σ) id n' → lease_invariant (set_node id n' σ).
Proof.
  intros Hi [n Hid] Hn. eapply lease_frame; [exact Hi|apply later_refl| | |by left]; simpl.
  - destruct (inv_row _ Hi) as (l & ? & ? & Hl). exists l. split_and!; [done|done|]. intros Hs. apply Hl.
    destruct (decide (lease_owner l = id)) as [->|]; [by rewrite Hid|by rewrite lookup_insert_ne in Hs].
  - intros id' n0 [[<- <-]|[??]]%lookup_insert_Some; auto.
Qed.

Lemma abandon_fields x σ : now (abandon x σ) = now σ ∧ row (abandon x σ) = row σ ∧ nodes (abandon x σ) = nodes σ.
Proof. by destruct x as [| | |?? []]. Qed.

Lemma invariant_abandon σ id n : lease_invariant σ → nodes σ !! id = Some n → lease_invariant (abandon (refresh n) σ).
Proof.
  intros Hi Hid. destruct (abandon_fields (refresh n) σ) as (Ht & Hr & Hns).
  eapply lease_frame; [exact Hi| | | |]; rewrite ?Ht, ?Hr, ?Hns.
  - apply later_refl.
  - apply Hi.
  - by left.
  - pose proof (node_refresh _ _ _ _ (inv_nodes _ Hi _ _ Hid)) as Hx. intros w Hw.
    destruct (refresh n) as [| | |l l' []]; simpl in *; auto. apply elem_of_cons in Hw as [->|]; [right|by left]. apply Hx.
Qed.

(** The row is written; a node may note it. *)
Lemma invariant_write σ l l' r :
  lease_invariant σ → write_ok (now σ) l l' → upsert_lease l l' (row σ) = Some r →
  lease_invariant (set_row r σ) ∧ later (now σ) (row σ) (now σ) r ∧ has_lease (row_attributes r) l'.
Proof.
  intros Hi Hw Hu. destruct (upsert_lease_spec _ _ _ _ _ Hw Hu) as [Hl Hr]. split_and!; [|done|done].
  eapply lease_frame; [exact Hi|done| |by left|by left]. exists l'. destruct Hw. by split_and!.
Qed.

Lemma lease_step_invariant σ σ' : lease_step σ σ' → lease_invariant σ → lease_invariant σ'.
Proof.
  intros Hs Hi. destruct Hs as [t Ht|id s ro Hid|id s ro attributes answer after s' Hid Ha Ho|id s l l' Hid Hl
    |id s l l' r Hid Hu|id s l l' applied answer result s' Hid Ho Hap|l l' r Hin Hu|id n s Hid Has Hd Hc|r Hr].
  - eapply lease_frame; [exact Hi|by apply later_time| |by left|by left].
    destruct (inv_row _ Hi) as (l & ? & ? & Hl). exists l. split_and!; [done|done|]. intros Hs.
    eapply timely_mono; [by apply Hl|done].
  - destruct (inv_nodes _ Hi _ _ Hid) as [? ? ? _]. simpl in *.
    apply (invariant_node _ _ _ Hi (mk_is_Some _ _ Hid)). constructor; simpl; [done|done|done|]. split; [apply row_names_NoDup|].
    destruct (inv_row _ Hi) as (l & Hl & Hv & Ht). exists l. split_and!; [done|done|]. intros Hx. split.
    + apply Ht. by rewrite Hx, Hid.
    + left. by exists l.
  - destruct (inv_nodes _ Hi _ _ Hid) as [Hacq ? Hcache (Hnd & l & Hl & Hv & Hown)]. simpl in *.
    apply (invariant_node _ _ _ Hi (mk_is_Some _ _ Hid)). destruct Ha as [->|(result & Hr & Ha)]; last first.
    { destruct (OnLeaseRead_failed _ _ _ _ _ _ _ Hr Ha Ho) as [-> ->]. by constructor. }
    destruct (OnLeaseRead_lease _ _ _ _ _ _ _ Hnd Hl Hv Ho) as (l' & Ho' & He' & Hafter).
    destruct after as [result|l0].
    + destruct Hafter as [->| ->]; constructor; simpl; try done.
      intros ? [= <-] Hl'. rewrite He'. apply Hown. congruence.
    + destruct Hafter as (-> & -> & Hexp). constructor; simpl; try done. unfold timely. rewrite Ho', He'.
      split; [intros Hx; by destruct (Hown Hx)|]. intros Hx. exists id, (now σ). split; [done|].
      apply Hexp. congruence.
  - destruct (inv_nodes _ Hi _ _ Hid) as [Hacq Hdur Hcache [Hown Hother]]. simpl in *.
    apply (invariant_node _ _ _ Hi (mk_is_Some _ _ Hid)). destruct (RenewedLease_spec _ _ _ _ Hl) as (Ho' & Hv' & He').
    rewrite Hacq in Ho'. rewrite Hdur in He'. constructor; simpl; try done. split_and!; [done| |done].
    constructor; [done| | |].
    + unfold timely. rewrite Ho', He'. done.
    + rewrite Ho', He'. intros Hx. specialize (Hown Hx). unfold timely, milliseconds in Hown. by rewrite Hx in Hown.
    + rewrite Ho'. done.
  - destruct (inv_nodes _ Hi _ _ Hid) as [Hacq Hdur Hcache (Ho' & Hw & _)]. simpl in *.
    destruct (invariant_write _ _ _ _ Hi Hw Hu) as (Hi' & Hlater & Hr).
    apply (invariant_node _ _ _ Hi' (mk_is_Some _ _ Hid)). constructor; simpl; try done.
    + intros l0 Hl0 Ho. apply Hlater. by apply Hcache.
    + split_and!; [done|done|]. intros _. left. by exists l'.
  - destruct (inv_nodes _ Hi _ _ Hid) as [Hacq Hdur Hcache (Ho' & Hw & Hsafe)]. simpl in *.
    pose proof (invariant_abandon _ _ _ Hi Hid) as Hi'. change (lease_invariant (abandon (Writing l l' applied) σ)) in Hi'.
    destruct (abandon_fields (Writing l l' applied) σ) as (Ht & Hr & Hns).
    apply (invariant_node _ _ _ Hi'); [by rewrite Hns, Hid|]. rewrite Ht, Hr.
    unfold OnLeaseWritten in Ho. case_match eqn:Hres; simplify_eq; [by constructor|].
    constructor; simpl; try done. intros l0 [= <-] _. apply Hsafe, Hap. done.
  - by apply (invariant_write _ _ _ _ Hi (inv_lost _ Hi _ Hin)).
  - destruct (abandon_fields (refresh n) σ) as (Ht & Hr & Hns).
    apply (invariant_node _ _ _ (invariant_abandon _ _ _ Hi Hid)); [by rewrite Hns, Hid|].
    constructor; simpl; try done. by rewrite Hc.
  - eapply lease_frame; [exact Hi|by apply later_edit| |by left|by left].
    destruct (inv_row _ Hi) as (l & ? & ? & Hl). exists l. split_and!; [by apply Hr|done|done].
Qed.

Lemma lease_reachable_invariant σ : lease_reachable σ → lease_invariant σ.
Proof.
  induction 1 as [σ [(l & Hl & Hv & Hno) Hn Hw]|]; [|by eapply lease_step_invariant].
  constructor.
  - exists l. split_and!; [done|done|]. rewrite Hno. by intros [].
  - intros id n Hid. destruct (Hn _ _ Hid) as (Hr & Ha & Hc & Hd). constructor; [done|done| |by rewrite Hr]. by rewrite Hc.
  - rewrite Hw. by intros w ?%elem_of_nil.
Qed.

(** ** Mutual exclusion *)

(** A node that holds the lease has it in the row, or another node has seen it go
    by. *)
Lemma holder_safe margin σ id : lease_invariant σ → holds_lease margin σ id →
  ∃ e, GetCurrentTimeInMilliseconds (clock id (now σ) + margin) ≤ e ∧ safe (now σ) (row σ) id e.
Proof.
  intros Hi (n & Hid & Hown). destruct (inv_nodes _ Hi _ _ Hid) as [Hacq _ Hc _].
  unfold IsCurrentLeaseOwner in Hown. destruct (current_lease_ (lock n)) as [l|]; [|done].
  apply andb_true_iff in Hown as [He%negb_true_iff Ho]. unfold IsLeaseOwner in Ho. apply String.eqb_eq in Ho.
  unfold IsExpired in He. apply Z.ltb_ge in He. exists (lease_expiration l). split; [done|].
  apply Hc; [done|congruence].
Qed.

Lemma passed_ahead margin σ id e :
  GetCurrentTimeInMilliseconds (clock id (now σ) + margin) ≤ e → passed (now σ) e →
  ∃ c, clock_offset config id + margin < clock_offset config c.
Proof.
  intros He (c & t & Ht & Hp). exists c.
  destruct (Z.lt_ge_cases (clock_offset config id + margin) (clock_offset config c)) as [|Hle]; [done|].
  assert (milliseconds c t ≤ GetCurrentTimeInMilliseconds (clock id (now σ) + margin)); [|lia].
  unfold milliseconds, GetCurrentTimeInMilliseconds, clock. apply Z.quot_le_mono; lia.
Qed.

(** C5: two nodes take themselves for the owner of the lease for as much longer as
    some clock is ahead of one of theirs, and no longer: with a margin that covers
    the difference of the clocks, and without one when they agree, only one node
    holds the lease, however refreshes overlap, whatever answers are late or lost,
    whichever writes are applied late, and whoever restarts. *)
Theorem lease_mutual_exclusion margin σ a b :
  lease_reachable σ → a ≠ b → holds_lease margin σ a → holds_lease margin σ b →
  ∃ c, Z.min (clock_offset config a) (clock_offset config b) + margin < clock_offset config c.
Proof.
  intros Hi%lease_reachable_invariant Hab Ha Hb.
  destruct (holder_safe _ _ _ Hi Ha) as (ea & Hea & Hsa). destruct (holder_safe _ _ _ Hi Hb) as (eb & Heb & Hsb).
  destruct Hsa as [(la & Hla & Hoa & _)|Hp]; last first.
  { destruct (passed_ahead _ _ _ _ Hea Hp) as [c Hc]. exists c. lia. }
  destruct Hsb as [(lb & Hlb & Hob & _)|Hp]; last first.
  { destruct (passed_ahead _ _ _ _ Heb Hp) as [c Hc]. exists c. lia. }
  destruct (has_lease_unique _ _ _ (row_names_NoDup _) Hla Hlb). congruence.
Qed.

End system.

(** ** A whole refresh in the system *)

Section refresh.
  Context {Row : Type} `{RowLaws Row} (config : Config).

(** A refresh that is answered at once and takes or renews the lease. *)
Definition refresh_at_once (id : string) (σ : LeaseSystem (Row := Row)) : option (LeaseSystem (Row := Row)) :=
  n ← nodes σ !! id;
  let s := lock n in
  let attributes := row_attributes (row σ) in
  if negb (match refresh n with NoRefresh => true | _ => false end) then None
  else
    '(after, s1) ← OnLeaseRead false (Answered SuccessExecutionResult attributes) (clock config id (now σ)) s;
    match after with
    | Finished _ => None
    | Acquire l =>
        l' ← RenewedLease (clock config id (now σ)) l s1;
        r ← upsert_lease l l' (row σ);
        Some (set_node id (mkNode (OnLeaseWritten l' (Answered SuccessExecutionResult []) s1).2 NoRefresh)
          (set_node id (mkNode s1 (Writing l l' true)) (set_row r
            (set_node id (mkNode s1 (Writing l l' false)) (set_node id (mkNode s1 (Acquiring l))
              (set_node id (mkNode s (Reading false attributes)) σ))))))
    end.

Lemma refresh_at_once_reachable id σ σ' :
  lease_reachable config σ → refresh_at_once id σ = Some σ' → lease_reachable config σ'.
Proof.
  unfold refresh_at_once. intros Hr. destruct (nodes σ !! id) as [[s x]|] eqn:Hid; [|done]. cbn [mbind option_bind lock refresh].
  destruct x; [|done..]. cbn [negb].
  destruct (OnLeaseRead _ _ _ s) as [[[result|l] s1]|] eqn:Ho; [done| |done]. cbn [mbind option_bind].
  destruct (RenewedLease _ l s1) as [l'|] eqn:Hl; [|done]. cbn [mbind option_bind].
  destruct (upsert_lease l l' (row σ)) as [r|] eqn:Hu; [|done]. intros [= <-].
  assert (∀ σ1 σ2, lease_reachable config σ1 → lease_step config σ1 σ2 → lease_reachable config σ2) as Hgo by apply lease_continue.
  eapply Hgo; [eapply Hgo; [eapply Hgo; [eapply Hgo; [eapply Hgo; [exact Hr|]|]|]|]|].
  - by eapply step_read.
  - eapply (step_read_answered _ _ _ _ _ _ _ (Acquire l)); simpl; [apply lookup_insert_eq|by left|exact Ho].
  - eapply step_write; simpl; [apply lookup_insert_eq|exact Hl].
  - eapply (step_write_applied _ (set_node id (mkNode s1 (Writing l l' false)) _)); simpl; [apply lookup_insert_eq|exact Hu].
  - eapply (step_write_answered _ (set_node id (mkNode s1 (Writing l l' true)) _) id s1 l l' true
      (Answered SuccessExecutionResult [])); simpl; [apply lookup_insert_eq|apply surjective_pairing|done].
Qed.

End refresh.

(** ** The theorem at a concrete input *)

Module ExampleLease.

(** The clock of ["b"] is 20 seconds ahead. *)
Definition config : Config := mkConfig (λ id, if String.eqb id "b" then 20 * 10 ^ 9 else 0) (λ _, 10000).

Definition start_row : MapRow := list_to_map (ConstructAttributesFromLeaseInfo EmptyLease).

Definition start : LeaseSystem (Row := MapRow) :=
  mkLeaseSystem (10 ^ 9) start_row
    (<["a" := mkNode (NewLeasableLock (mkLeaseInfo "a" "http://a") "locks" "0") NoRefresh]>
      {["b" := mkNode (NewLeasableLock (mkLeaseInfo "b" "http://b") "locks" "0") NoRefresh]}) [].

Lemma start_reachable : lease_reachable config start.
Proof.
  apply lease_start. constructor; simpl.
  - exists EmptyLease. split_and!; [|by vm_compute|by vm_compute]. intros a Ha.
    unfold ConstructAttributesFromLeaseInfo in Ha. rewrite !elem_of_cons in Ha.
    destruct Ha as [->|[->|[->|?%elem_of_nil]]]; [apply (elem_of_map_to_list (M := gmap string)); by vm_compute..|done].
  - intros id n [[<- <-]|[_ [<- <-]%lookup_singleton_Some]]%lookup_insert_Some; by vm_compute.
  - done.
Qed.

Definition both_from (σ : LeaseSystem (Row := MapRow)) : option (LeaseSystem (Row := MapRow)) :=
  refresh_at_once config "a" σ ≫= refresh_at_once config "b".

Definition holds_now (σ : LeaseSystem (Row := MapRow)) (id : string) : bool :=
  match nodes σ !! id with
  | Some n => IsCurrentLeaseOwner (clock config id (now σ) + 0) (lock n)
  | None => false
  end.

Lemma holds_now_spec σ id : holds_now σ id = true → holds_lease config 0 σ id.
Proof. unfold holds_now, holds_lease. destruct (nodes σ !! id); [eauto|done]. Qed.

Lemma both_from_spec σ0 : lease_reachable config σ0 →
  match both_from σ0 with Some σ => holds_now σ "a" && holds_now σ "b" | None => false end = true →
  ∃ σ, lease_reachable config σ ∧ holds_lease config 0 σ "a" ∧ holds_lease config 0 σ "b".
Proof.
  unfold both_from. intros Hs. destruct (refresh_at_once config "a" σ0) as [σ1|] eqn:H1; [|done].
  cbn [mbind option_bind]. destruct (refresh_at_once config "b" σ1) as [σ|] eqn:H2; [|done].
  intros [Ha Hb]%andb_true_iff. exists σ. split_and!; [|by apply holds_now_spec..].
  eapply refresh_at_once_reachable; [|exact H2]. by eapply refresh_at_once_reachable; [|exact H1].
Qed.

Lemma both_reachable : ∃ σ, lease_reachable config σ ∧ holds_lease config 0 σ "a" ∧ holds_lease config 0 σ "b".
Proof. apply (both_from_spec start start_reachable). vm_compute. reflexivity. Qed.

End ExampleLease.
Import ExampleLease.

Lemma lease_mutual_exclusion_witness : ∃ c, 0 < clock_offset config c.
Proof.
  destruct both_reachable as (σ & Hr & Ha & Hb).
  exact (lease_mutual_exclusion config 0 σ "a" "b" Hr ltac:(done) Ha Hb).
Defined.
