(* ===== verification/LeaseRefresher.v ===== *)
(** * The lease refresher

    Models [cc/core/lease_manager/src/v2]: the refresher of one lock
    ([lease_refresher.cc]), the enforcer of its liveness
    ([lease_refresh_liveness_enforcer.cc]) and the sink that runs a component while
    the lease is held ([component_lifecycle_lease_event_sink.cc]). A round of the
    refresher takes what the lock answers in it; [LockRound] gives those answers
    for the lock on the database. *)

From S2P Require Import Prelude ExecutionResult ErrorCodes Uuid NoSQLDatabase LeasableLock.
From stdpp Require Import options.

Local Open Scope Z_scope.

(** ** Data *)

Inductive LeaseTransitionType :=
| kNotAcquired
| kAcquired
| kLost
| kRenewed
| kRenewedWithIntentionToRelease
| kReleased.

Inductive LeaseRefreshMode :=
| UnknownMode
| RefreshWithIntentionToHoldLease
| RefreshWithIntentionToReleaseTheHeldLease
| RefreshWithNoIntentionToHoldLease.

#[export] Instance LeaseTransitionType_eq_dec : EqDecision LeaseTransitionType.
Proof. solve_decision. Defined.
#[export] Instance LeaseRefreshMode_eq_dec : EqDecision LeaseRefreshMode.
Proof. solve_decision. Defined.

Definition LeasableLockId : Type := Uuid.

Record LeaseRefresher := mkRefresher {
  prev_lease_refresh_mode_ : LeaseRefreshMode;
  lease_refresh_mode_ : LeaseRefreshMode;
  last_lease_refresh_timestamp_ : Z;
  refresher_is_running_ : bool;
  was_lease_owner_ : bool;
  leasable_lock_id_ : LeasableLockId;
  last_lease_transition_ : option LeaseTransitionType;
}.

(** The calls of the lock and of the sink. *)
Inductive RefresherAction :=
| CallRefreshLease (is_read_only_lease_refresh : bool)
| OnLeaseTransition (id : LeasableLockId) (type : LeaseTransitionType) (owner : option LeaseInfo).

Definition NewLeaseRefresher (id : LeasableLockId) (now : Z) : LeaseRefresher :=
  mkRefresher UnknownMode RefreshWithNoIntentionToHoldLease now false false id None.

(** ** Life cycle *)

Definition with_running (b : bool) (s : LeaseRefresher) : LeaseRefresher :=
  mkRefresher (prev_lease_refresh_mode_ s) (lease_refresh_mode_ s) (last_lease_refresh_timestamp_ s) b
    (was_lease_owner_ s) (leasable_lock_id_ s) (last_lease_transition_ s).

(** The thread itself is a sequence of rounds while it is running. *)
Definition RefresherRun (s : LeaseRefresher) : ExecutionResult * LeaseRefresher :=
  if refresher_is_running_ s then (FailureExecutionResult SC_LEASE_REFRESHER_ALREADY_RUNNING, s)
  else (SuccessExecutionResult, with_running true s).

Definition RefresherStop (s : LeaseRefresher) : ExecutionResult * LeaseRefresher :=
  if negb (refresher_is_running_ s) then (FailureExecutionResult SC_LEASE_REFRESHER_NOT_RUNNING, s)
  else (SuccessExecutionResult, with_running false s).

Definition GetLeaseRefreshMode (s : LeaseRefresher) : LeaseRefreshMode := lease_refresh_mode_ s.
Definition GetLastLeaseRefreshTimestamp (s : LeaseRefresher) : Z := last_lease_refresh_timestamp_ s.

(** ** A round *)

Definition PerformLeaseTransitionAndNotifyLeaseEventSink (is_lease_owner : bool) (lease_refresh_mode : LeaseRefreshMode)
    (was_lease_owner : bool) (prev_lease_refresh_mode : LeaseRefreshMode) : LeaseTransitionType :=
  if negb was_lease_owner && is_lease_owner then kAcquired
  else if was_lease_owner && negb is_lease_owner then
    if decide (prev_lease_refresh_mode = RefreshWithIntentionToReleaseTheHeldLease) then kReleased else kLost
  else if was_lease_owner && is_lease_owner then
    if decide (lease_refresh_mode = RefreshWithIntentionToReleaseTheHeldLease)
    then kRenewedWithIntentionToRelease else kRenewed
  else kNotAcquired.

(** What the lock answers in a round, whether the sink is still there, and the time
    of the steady clock at the end. *)
Record Round := mkRound {
  should_refresh : bool;
  refresh_result : ExecutionResult;
  is_lease_owner : bool;
  lease_owner_info_answer : option LeaseInfo;
  sink_alive : bool;
  end_timestamp : Z;
}.

Definition is_lease_refresh_read_only (s : LeaseRefresher) : bool :=
  bool_decide (lease_refresh_mode_ s = RefreshWithNoIntentionToHoldLease).

Definition PerformLeaseRefresh (r : Round) (s : LeaseRefresher)
  : ExecutionResult * list RefresherAction * LeaseRefresher :=
  let refreshed := if should_refresh r then [CallRefreshLease (is_lease_refresh_read_only s)] else [] in
  let execution_result := if should_refresh r then refresh_result r else SuccessExecutionResult in
  let notify := sink_alive r && should_refresh r in
  let transition := PerformLeaseTransitionAndNotifyLeaseEventSink (is_lease_owner r) (lease_refresh_mode_ s)
    (was_lease_owner_ s) (prev_lease_refresh_mode_ s) in
  (execution_result,
   refreshed ++ if notify then [OnLeaseTransition (leasable_lock_id_ s) transition (lease_owner_info_answer r)] else [],
   mkRefresher (prev_lease_refresh_mode_ s) (lease_refresh_mode_ s) (end_timestamp r) (refresher_is_running_ s)
     (is_lease_owner r) (leasable_lock_id_ s) (if notify then Some transition else last_lease_transition_ s)).

Definition SetLeaseRefreshMode (mode : LeaseRefreshMode) (s : LeaseRefresher) : ExecutionResult * LeaseRefresher :=
  if match last_lease_transition_ s with
     | Some t => negb (bool_decide (t = kNotAcquired)) && bool_decide (mode = RefreshWithIntentionToHoldLease)
     | None => false
     end
  then (FailureExecutionResult SC_LEASE_REFRESHER_INVALID_STATE_WHEN_SETTING_REFRESH_MODE, s)
  else
    (SuccessExecutionResult,
     mkRefresher (lease_refresh_mode_ s) mode (last_lease_refresh_timestamp_ s) (refresher_is_running_ s)
       (was_lease_owner_ s) (leasable_lock_id_ s) (last_lease_transition_ s)).

(** ** The answers of the lock on the database *)

(** The wall clock, as the round reads it. *)
Record Readings := mkReadings {
  at_expiry_test : Z;
  at_threshold_test : Z;
  at_read : Z;
  at_write : Z;
  at_owner_test : Z;
  at_owner_info : Z;
}.

(** A round with the lock [l] and the database's answers; the lock it leaves. *)
Definition LockRound (s : LeaseRefresher)
    (read : string * Attribute → DatabaseAnswer)
    (write : string * Attribute → list Attribute * list Attribute → DatabaseAnswer)
    (t : Readings) (alive : bool) (end_time : Z) (l : LeasableLock) : option (Round * LeasableLock) :=
  should ← ShouldRefreshLease (at_expiry_test t) (at_threshold_test t) l;
  '(result, l) ←
    if (should : bool) then RefreshLease (is_lease_refresh_read_only s) read write (at_read t) (at_write t) l
    else Some (SuccessExecutionResult, l);
  Some (mkRound should result (IsCurrentLeaseOwner (at_owner_test t) l) (GetCurrentLeaseOwnerInfo (at_owner_info t) l)
          alive end_time, l).

(** ** The liveness of refreshers *)

Definition kDefaultEnforcerIntervalInMilliseconds : Z := 1000.

Record LeaseRefreshLivenessEnforcer := mkEnforcer {
  enforced_lease_duration_in_milliseconds_ : Z;
  enforcement_interval_in_milliseconds_ : Z;
  enforcer_is_running_ : bool;
}.

Definition NewLivenessEnforcer (lease_duration : Z) : LeaseRefreshLivenessEnforcer :=
  mkEnforcer lease_duration kDefaultEnforcerIntervalInMilliseconds false.

Definition EnforcerInit (e : LeaseRefreshLivenessEnforcer) : ExecutionResult :=
  if enforced_lease_duration_in_milliseconds_ e <? 2 * enforcement_interval_in_milliseconds_ e then
    FailureExecutionResult SC_LEASE_LIVENESS_ENFORCER_INSUFFICIENT_PERIOD
  else SuccessExecutionResult.

Definition EnforcerRun (e : LeaseRefreshLivenessEnforcer) : ExecutionResult * LeaseRefreshLivenessEnforcer :=
  if enforcer_is_running_ e then (FailureExecutionResult SC_LEASE_LIVENESS_ENFORCER_ALREADY_RUNNING, e)
  else (SuccessExecutionResult,
        mkEnforcer (enforced_lease_duration_in_milliseconds_ e) (enforcement_interval_in_milliseconds_ e) true).

Definition EnforcerStop (e : LeaseRefreshLivenessEnforcer) : ExecutionResult * LeaseRefreshLivenessEnforcer :=
  if negb (enforcer_is_running_ e) then (FailureExecutionResult SC_LEASE_LIVENESS_ENFORCER_NOT_RUNNING, e)
  else (SuccessExecutionResult,
        mkEnforcer (enforced_lease_duration_in_milliseconds_ e) (enforcement_interval_in_milliseconds_ e) false).

(** The refreshers' timestamps, each with the steady clock when it is looked at, in
    nanoseconds. *)
Fixpoint PerformLeaseLivenessEnforcement (refreshers : list (LeaseRefresher * Z)) (e : LeaseRefreshLivenessEnforcer)
  : ExecutionResult :=
  match refreshers with
  | [] => SuccessExecutionResult
  | (s, current_steady_timestamp) :: rest =>
      if enforced_lease_duration_in_milliseconds_ e * 1000000
         <? current_steady_timestamp - GetLastLeaseRefreshTimestamp s
      then FailureExecutionResult SC_LEASE_LIVENESS_ENFORCER_LIVENESS_VIOLATION
      else PerformLeaseLivenessEnforcement rest e
  end.

(** A turn of the enforcer's thread: whether the corrective action is taken, and
    how long the thread sleeps. *)
Definition EnforcerTurn (refreshers : list (LeaseRefresher * Z)) (start_timestamp end_timestamp : Z)
    (e : LeaseRefreshLivenessEnforcer) : bool * Z :=
  let elapsed := Z.quot (end_timestamp - start_timestamp) 1000000 in
  (negb (Successful (PerformLeaseLivenessEnforcement refreshers e)),
   if elapsed <? enforcement_interval_in_milliseconds_ e then enforcement_interval_in_milliseconds_ e - elapsed else 0).

(** ** A component that runs with the lease *)

Inductive ComponentCall := RunComponent | StopComponent.

(** [ComponentLifecycleLeaseEventSink::OnLeaseTransition]; failures are logged. *)
Definition ComponentOnLeaseTransition (type : LeaseTransitionType) : option ComponentCall :=
  match type with
  | kAcquired => Some RunComponent
  | kLost | kReleased => Some StopComponent
  | _ => None
  end.

(** ** Runs of a refresher *)

(** Under the mutex of the refresher: rounds and changes of the mode. *)
Inductive RefresherCall :=
| Refresh (r : Round)
| SetMode (mode : LeaseRefreshMode).

Definition refresher_call (c : RefresherCall) (s : LeaseRefresher) : list RefresherAction * LeaseRefresher :=
  match c with
  | Refresh r => let '(_, actions, s) := PerformLeaseRefresh r s in (actions, s)
  | SetMode mode => ([], (SetLeaseRefreshMode mode s).2)
  end.

Fixpoint refresher_run (cs : list RefresherCall) (s : LeaseRefresher) : list RefresherAction * LeaseRefresher :=
  match cs with
  | [] => ([], s)
  | c :: cs =>
      let '(actions, s) := refresher_call c s in
      let '(more, s) := refresher_run cs s in
      (actions ++ more, s)
  end.

Definition transition_of (a : RefresherAction) : option LeaseTransitionType :=
  match a with OnLeaseTransition _ t _ => Some t | CallRefreshLease _ => None end.

(** What the sink is told. *)
Definition transitions (actions : list RefresherAction) : list LeaseTransitionType := omap transition_of actions.

(** ** The order of the transitions *)

(** What a subscriber takes from a transition: whether the lease is held after it.
    A transition that does not fit what it took before is refused. *)
Definition follow (held : bool) (t : LeaseTransitionType) : option bool :=
  match held, t with
  | false, kNotAcquired => Some false
  | false, kAcquired => Some true
  | true, kRenewed | true, kRenewedWithIntentionToRelease => Some true
  | true, kLost | true, kReleased => Some false
  | _, _ => None
  end.

Fixpoint follow_all (held : bool) (ts : list LeaseTransitionType) : option bool :=
  match ts with
  | [] => Some held
  | t :: ts => follow held t ≫= λ held, follow_all held ts
  end.

Lemma follow_all_app held ts ts' : follow_all held (ts ++ ts') = follow_all held ts ≫= λ held, follow_all held ts'.
Proof. revert held. induction ts as [|t ts IH]; intros held; [done|]. simpl. destruct (follow held t); [apply IH|done]. Qed.

(** What is seen of a call from outside: a transition the sink is told of, a round
    it is not told of, or the answer to a change of the mode. *)
Inductive Seen :=
| Told (t : LeaseTransitionType)
| Untold (owner : bool)
| ModeSet (mode : LeaseRefreshMode) (accepted : bool).

#[export] Instance Seen_eq_dec : EqDecision Seen.
Proof. solve_decision. Defined.

Definition seen_in (c : RefresherCall) (s : LeaseRefresher) : Seen :=
  match c with
  | Refresh r =>
      match transitions (refresher_call c s).1 with t :: _ => Told t | [] => Untold (is_lease_owner r) end
  | SetMode mode => ModeSet mode (Successful (SetLeaseRefreshMode mode s).1)
  end.

Fixpoint trace (cs : list RefresherCall) (s : LeaseRefresher) : list Seen :=
  match cs with
  | [] => []
  | c :: cs => seen_in c s :: trace cs (refresher_call c s).2
  end.

(** The protocol between the refresher, the sink and who sets the modes: whether the
    lease is held; whether its release is asked for, that is, the release mode is in
    force; whether it is let go, that is, the release mode was in force until the
    last change of the mode; and whether the refresher is settled: it has told
    nothing yet, or [kNotAcquired] last. *)
Record Protocol := mkProtocol { held : bool; release_asked : bool; let_go : bool; settled : bool }.

Definition with_held (b settled : bool) (p : Protocol) : Protocol := mkProtocol b (release_asked p) (let_go p) settled.

(** Each thing seen is allowed in some states only: the end of a lease is [kReleased]
    when it is let go, and [kLost] otherwise; a lease is renewed with the intention
    to release when that is asked for, and without it otherwise; the mode to hold
    the lease is set when the refresher is settled, and refused otherwise. *)
Definition allow (p : Protocol) (e : Seen) : option Protocol :=
  match e with
  | Told kNotAcquired => if held p then None else Some (with_held false true p)
  | Told kAcquired => if held p then None else Some (with_held true false p)
  | Told kRenewed => if held p && negb (release_asked p) then Some (with_held true false p) else None
  | Told kRenewedWithIntentionToRelease => if held p && release_asked p then Some (with_held true false p) else None
  | Told kReleased => if held p && let_go p then Some (with_held false false p) else None
  | Told kLost => if held p && negb (let_go p) then Some (with_held false false p) else None
  | Untold owner => Some (with_held owner (settled p) p)
  | ModeSet RefreshWithIntentionToHoldLease accepted =>
      if eqb accepted (settled p)
      then Some (if accepted then mkProtocol (held p) false (release_asked p) true else p) else None
  | ModeSet mode accepted =>
      if accepted
      then Some (mkProtocol (held p) (bool_decide (mode = RefreshWithIntentionToReleaseTheHeldLease)) (release_asked p) (settled p))
      else None
  end.

Fixpoint allow_all (p : Protocol) (es : list Seen) : option Protocol :=
  match es with
  | [] => Some p
  | e :: es => allow p e ≫= λ p, allow_all p es
  end.

Definition protocol_of (s : LeaseRefresher) : Protocol :=
  mkProtocol (was_lease_owner_ s)
    (bool_decide (lease_refresh_mode_ s = RefreshWithIntentionToReleaseTheHeldLease))
    (bool_decide (prev_lease_refresh_mode_ s = RefreshWithIntentionToReleaseTheHeldLease))
    (match last_lease_transition_ s with None | Some kNotAcquired => true | _ => false end).

Lemma refresher_call_allowed c s : allow (protocol_of s) (seen_in c s) = Some (protocol_of (refresher_call c s).2).
Proof.
  destruct c as [r|mode]; simpl.
  - unfold PerformLeaseRefresh, PerformLeaseTransitionAndNotifyLeaseEventSink.
    destruct (sink_alive r), (should_refresh r); simpl; try done.
    unfold protocol_of. destruct (was_lease_owner_ s), (is_lease_owner r); simpl; try done.
    + case_decide as Hm; simpl; [by rewrite bool_decide_true|by rewrite bool_decide_false].
    + case_decide as Hm; simpl; [by rewrite bool_decide_true|by rewrite bool_decide_false].
  - unfold SetLeaseRefreshMode, protocol_of. destruct mode; simpl;
      destruct (last_lease_transition_ s) as [[]|] eqn:Hl; simpl; rewrite ?Hl; done.
Qed.

(** What is told of is what the sink is given. *)
Definition told (e : Seen) : option LeaseTransitionType := match e with Told t => Some t | _ => None end.

Lemma seen_told c s : transitions (refresher_call c s).1 = omap told [seen_in c s].
Proof.
  destruct c as [r|mode]; simpl; [|done]. unfold PerformLeaseRefresh. by destruct (sink_alive r), (should_refresh r).
Qed.

(** The sink is there, and a lease that need not be refreshed does not expire within
    the round. *)
Definition steady (c : RefresherCall) (s : LeaseRefresher) : Prop :=
  match c with
  | Refresh r => sink_alive r && should_refresh r = false → is_lease_owner r = was_lease_owner_ s
  | SetMode _ => True
  end.

Fixpoint steady_run (cs : list RefresherCall) (s : LeaseRefresher) : Prop :=
  match cs with
  | [] => True
  | c :: cs => steady c s ∧ steady_run cs (refresher_call c s).2
  end.

Lemma refresher_call_follows c s : steady c s →
  follow_all (was_lease_owner_ s) (transitions (refresher_call c s).1) = Some (was_lease_owner_ (refresher_call c s).2).
Proof.
  destruct c as [r|mode]; simpl; [|by intros _; unfold SetLeaseRefreshMode; case_match].
  intros Hs. unfold PerformLeaseRefresh, PerformLeaseTransitionAndNotifyLeaseEventSink.
  destruct (sink_alive r), (should_refresh r); simpl in *; try by rewrite Hs.
  destruct (was_lease_owner_ s), (is_lease_owner r); simpl; repeat case_decide; done.
Qed.

(** A lease is let go only when its release was asked for before. *)
Lemma let_go_asked p es p' : allow_all p es = Some p' → release_asked p = false → let_go p = false →
  release_asked p' || let_go p' = true → ModeSet RefreshWithIntentionToReleaseTheHeldLease true ∈ es.
Proof.
  revert p. induction es as [|e es IH]; intros p; simpl; [intros [= <-] -> ->; done|].
  destruct (allow p e) as [p1|] eqn:He; [|done]. simpl. intros Hes Ha Hl Hp.
  destruct (decide (e = ModeSet RefreshWithIntentionToReleaseTheHeldLease true)) as [->|Hne]; [by left|]. right.
  apply (IH p1 Hes); [| |done]; destruct e as [[]|?|[] []]; simpl in He; repeat case_match; simplify_eq/=; done.
Qed.

Lemma allow_all_app p es es' : allow_all p (es ++ es') = allow_all p es ≫= λ p, allow_all p es'.
Proof. revert p. induction es as [|e es IH]; intros p; [done|]. simpl. destruct (allow p e); [apply IH|done]. Qed.

Lemma trace_allowed cs s : allow_all (protocol_of s) (trace cs s) = Some (protocol_of (refresher_run cs s).2) ∧
  omap told (trace cs s) = transitions (refresher_run cs s).1.
Proof.
  revert s. induction cs as [|c cs IH]; intros s; [done|]. cbn [trace refresher_run allow_all].
  pose proof (refresher_call_allowed c s) as Hc. pose proof (seen_told c s) as Ht.
  destruct (refresher_call c s) as [a1 s1]. cbn [fst snd] in *. rewrite Hc. cbn [mbind option_bind].
  destruct (IH s1) as [H1 H2]. destruct (refresher_run cs s1) as [a2 s2]. cbn [fst snd] in *. split; [done|].
  unfold transitions in *. rewrite omap_app, Ht, <-H2. by destruct (seen_in c s).
Qed.

Lemma steady_follows cs s : steady_run cs s →
  follow_all (was_lease_owner_ s) (transitions (refresher_run cs s).1) = Some (was_lease_owner_ (refresher_run cs s).2).
Proof.
  revert s. induction cs as [|c cs IH]; intros s; simpl; [done|].
  intros [Hc Hcs]. pose proof (refresher_call_follows c s Hc) as Hf.
  destruct (refresher_call c s) as [a1 s1]. simpl in *. specialize (IH s1 Hcs). destruct (refresher_run cs s1) as [a2 s2].
  unfold transitions in *. simpl in *. by rewrite omap_app, follow_all_app, Hf.
Qed.

(** C19: whatever the lock answers and however the modes are set, what is seen of a
    refresher is a run of [Protocol], which fixes each transition: a renewal carries
    the intention to release exactly while the release mode is in force; the end of
    a lease is [kReleased] exactly when the release mode was in force until the last
    change of the mode, and [kLost] otherwise; the mode to hold is accepted exactly
    when nothing, or [kNotAcquired], was told last. Rounds of which the sink is not
    told may change the ownership; when none does, the sink that goes by the
    transitions alone holds at the end what the refresher holds. A new refresher
    reports [kReleased] only after it was asked to release. *)
Theorem transitions_follow_protocol cs s actions s' : refresher_run cs s = (actions, s') →
  allow_all (protocol_of s) (trace cs s) = Some (protocol_of s') ∧
  omap told (trace cs s) = transitions actions ∧
  (steady_run cs s → follow_all (was_lease_owner_ s) (transitions actions) = Some (was_lease_owner_ s')) ∧
  (∀ id now before after, s = NewLeaseRefresher id now → trace cs s = before ++ Told kReleased :: after →
     ModeSet RefreshWithIntentionToReleaseTheHeldLease true ∈ before).
Proof.
  intros Hr. destruct (trace_allowed cs s) as [Ha Ht]. pose proof (steady_follows cs s) as Hs. rewrite Hr in Ha, Ht, Hs.
  split_and!; [done|done|done|]. intros id now before after -> Htr. rewrite Htr, allow_all_app in Ha.
  destruct (allow_all _ before) as [p|] eqn:Hp; [|done]. simpl in Ha.
  destruct (held p && let_go p) eqn:Hl; [|done]. apply andb_true_iff in Hl as [_ Hl].
  eapply let_go_asked; [exact Hp|done|done|]. rewrite Hl. apply orb_true_r.
Qed.

(** ** A loss the sink is not told of *)

Definition never_owner (c : RefresherCall) : Prop :=
  match c with Refresh r => is_lease_owner r = false | SetMode _ => True end.

Lemma not_owner_run cs s : was_lease_owner_ s = false → Forall never_owner cs →
  ∀ t, t ∈ transitions (refresher_run cs s).1 → t = kNotAcquired.
Proof.
  intros Hs Hcs. revert s Hs. induction Hcs as [|c cs Hc Hcs IH]; intros s Hs t; simpl; [by intros ?%elem_of_nil|].
  assert (was_lease_owner_ (refresher_call c s).2 = false ∧
    ∀ t, t ∈ transitions (refresher_call c s).1 → t = kNotAcquired) as [Hs' Hts].
  { destruct c as [r|mode]; simpl in *; [|unfold SetLeaseRefreshMode; case_match; (split; [done|by intros ??%elem_of_nil])].
    split; [done|]. unfold PerformLeaseTransitionAndNotifyLeaseEventSink. rewrite Hs, Hc.
    destruct (should_refresh r), (sink_alive r); simpl; intros ?; rewrite ?list_elem_of_singleton, ?elem_of_nil; done. }
  specialize (IH _ Hs').
  destruct (refresher_call c s) as [a1 s1]. simpl in *. destruct (refresher_run cs s1) as [a2 s2]. simpl in *.
  unfold transitions in *. rewrite omap_app. intros [Ht|Ht]%elem_of_app; auto.
Qed.

(** C24: when a lease that the lock says need not be refreshed runs out before the
    lock is asked for its owner in the same round, the round tells the sink nothing
    and forgets that the lease was held: until the lease is acquired again a
    component that runs with it is never told to stop. *)
Theorem lost_lease_unnoticed s l now alive end_time :
  was_lease_owner_ s = true → ShouldRefreshLease now now l = Some false → IsCurrentLeaseOwner now l = true →
  ∃ t r, (∀ read write, LockRound s read write t alive end_time l = Some (r, l)) ∧
    ∀ cs, Forall never_owner cs →
      omap ComponentOnLeaseTransition (transitions (refresher_run (Refresh r :: cs) s).1) = [].
Proof.
  intros Hs Hno Hown. unfold IsCurrentLeaseOwner in Hown.
  destruct (current_lease_ l) as [lease|] eqn:Hl; [|done].
  set (later := (Z.abs (lease_expiraton_timestamp_in_milliseconds lease) + 1) * 1000000).
  assert (IsCurrentLeaseOwner later l = false) as Hlater.
  { unfold IsCurrentLeaseOwner, IsExpired, GetCurrentTimeInMilliseconds, later. rewrite Hl, Z.quot_mul by lia.
    by rewrite (proj2 (Z.ltb_lt _ _)) by lia. }
  exists (mkReadings now now now now later later).
  eexists (mkRound false SuccessExecutionResult false _ alive end_time). split.
  - intros read write. unfold LockRound. cbn [at_expiry_test at_threshold_test]. rewrite Hno. cbn [mbind option_bind at_owner_test].
    rewrite Hlater. reflexivity.
  - intros cs Hcs. cbn [refresher_run refresher_call]. unfold PerformLeaseRefresh at 1. cbn [should_refresh sink_alive].
    rewrite andb_false_r. cbn [app].
    match goal with |- context [refresher_run cs ?s0] => pose proof (not_owner_run cs s0 eq_refl Hcs) as Hts end.
    destruct (refresher_run cs _) as [a2 s2]. simpl in *.
    induction (transitions a2) as [|t ts IH]; [done|]. rewrite (Hts t) by (by left). simpl. apply IH. intros t' Ht'.
    apply Hts. by right.
Qed.

(** ** The release mode *)

(** A refresher whose lease is lost while it is being released refreshes to acquire
    it again. *)
Example release_mode_acquires :
  let s := mkRefresher RefreshWithIntentionToHoldLease RefreshWithIntentionToReleaseTheHeldLease 0 true false
             (mkUuid 0 1) (Some kLost) in
  let '(_, actions, s') := PerformLeaseRefresh (mkRound true SuccessExecutionResult true None true 0) s in
  actions = [CallRefreshLease false; OnLeaseTransition (mkUuid 0 1) kAcquired None].
Proof. reflexivity. Qed.

(** ** The theorems at concrete inputs *)

Module ExampleRefresher.

Definition id : LeasableLockId := mkUuid 0 1.
Definition round (should owner : bool) : RefresherCall := Refresh (mkRound should SuccessExecutionResult owner None true 0).

(** Acquired, renewed, released. *)
Definition calls : list RefresherCall :=
  [round true false; SetMode RefreshWithIntentionToHoldLease; round true true; round false true; round true true;
   SetMode RefreshWithIntentionToReleaseTheHeldLease; round true true; SetMode RefreshWithNoIntentionToHoldLease;
   round true true; round true false; round true false].

Definition lock : LeasableLock :=
  mkLock (Some (mkLease (mkLeaseInfo "a" "http://a") 11000 false)) (mkLeaseInfo "a" "http://a") "locks" "0" 10000 50.

Definition holding : LeaseRefresher :=
  mkRefresher RefreshWithNoIntentionToHoldLease RefreshWithIntentionToHoldLease 0 true true id (Some kAcquired).

End ExampleRefresher.

Example calls_transitions :
  transitions (refresher_run ExampleRefresher.calls (NewLeaseRefresher ExampleRefresher.id 0)).1
  = [kNotAcquired; kAcquired; kRenewed; kRenewedWithIntentionToRelease; kRenewed; kReleased; kNotAcquired].
Proof. vm_compute. reflexivity. Qed.

(** What is seen of them; the mode to hold is refused until [kNotAcquired] is told. *)
Definition shown : list RefresherCall :=
  take 10 ExampleRefresher.calls ++ [SetMode RefreshWithIntentionToHoldLease; ExampleRefresher.round true false;
    SetMode RefreshWithIntentionToHoldLease].

Example calls_trace : trace shown (NewLeaseRefresher ExampleRefresher.id 0)
  = [Told kNotAcquired; ModeSet RefreshWithIntentionToHoldLease true; Told kAcquired; Untold true; Told kRenewed;
     ModeSet RefreshWithIntentionToReleaseTheHeldLease true; Told kRenewedWithIntentionToRelease;
     ModeSet RefreshWithNoIntentionToHoldLease true; Told kRenewed; Told kReleased;
     ModeSet RefreshWithIntentionToHoldLease false; Told kNotAcquired; ModeSet RefreshWithIntentionToHoldLease true].
Proof. vm_compute. reflexivity. Qed.

Lemma transitions_follow_protocol_witness : ∃ actions s',
  refresher_run shown (NewLeaseRefresher ExampleRefresher.id 0) = (actions, s') ∧
  allow_all (mkProtocol false false false true) (trace shown (NewLeaseRefresher ExampleRefresher.id 0)) = Some (protocol_of s') ∧
  follow_all false (transitions actions) = Some (was_lease_owner_ s').
Proof.
  destruct (refresher_run shown (NewLeaseRefresher ExampleRefresher.id 0)) as [actions s'] eqn:Hr.
  exists actions, s'. split; [done|].
  destruct (transitions_follow_protocol _ _ _ _ Hr) as (H1 & _ & H2 & _). split; [exact H1|].
  apply H2. clear. repeat (split; [done|]). done.
Defined.

Lemma lost_lease_unnoticed_witness :
  ∃ t r, (∀ read write, LockRound ExampleRefresher.holding read write t true 0 ExampleRefresher.lock = Some (r, ExampleRefresher.lock)) ∧
    omap ComponentOnLeaseTransition
      (transitions (refresher_run [Refresh r; ExampleRefresher.round true false] ExampleRefresher.holding).1) = [].
Proof.
  destruct (lost_lease_unnoticed ExampleRefresher.holding ExampleRefresher.lock (2 * 10 ^ 9) true 0)
    as (t & r & Hr & Hcs); [reflexivity|vm_compute; reflexivity|vm_compute; reflexivity|].
  exists t, r. split; [exact Hr|]. apply (Hcs [ExampleRefresher.round true false]). repeat constructor.
Defined.
