(* ===== verification/LeaseManager.v ===== *)
(** * The lease manager of a single lock

    Models [cc/core/lease_manager/src/lease_manager.cc]: an enforcer thread that looks
    at the lock at a fixed frequency, and an obtainer thread that refreshes the
    lease when it is told to and calls the client back. Each part of a thread
    between two waits is a definition; the lock's answers and the steady clock, in
    nanoseconds, are arguments. *)

From S2P Require Import Prelude ExecutionResult ErrorCodes Uuid NoSQLDatabase LeasableLock LeaseRefresher.
From stdpp Require Import options.

Local Open Scope Z_scope.

Module LeaseManager.

(** The codes of [cc/core/lease_manager/src/error_codes.h]; those of the second
    version have the same names. *)
Definition SC_LEASE_MANAGER : Z := 0x0016.
Definition SC_LEASE_MANAGER_NOT_INITIALIZED : Z := MakeErrorCode SC_LEASE_MANAGER 0x0001.
Definition SC_LEASE_MANAGER_ALREADY_RUNNING : Z := MakeErrorCode SC_LEASE_MANAGER 0x0002.
Definition SC_LEASE_MANAGER_NOT_RUNNING : Z := MakeErrorCode SC_LEASE_MANAGER 0x0003.
Definition SC_LEASE_MANAGER_LOCK_CANNOT_BE_ADDED_WHILE_RUNNING : Z := MakeErrorCode SC_LEASE_MANAGER 0x0004.
Definition SC_LEASE_MANAGER_LOCK_LEASE_DURATION_INVALID : Z := MakeErrorCode SC_LEASE_MANAGER 0x0006.

Definition kNoOngoingLeaseAcquisitionTimestamp : Z := 0.

Record LeaseManager := mkLeaseManager {
  lease_enforcer_frequency_in_milliseconds_ : Z;
  lease_obtainer_maximum_runningtime_in_milliseconds_ : Z;
  has_lock_and_callback : bool;
  component_running_ : bool;
  obtain_lease_ : bool;
  ongoing_lease_acquisition_start_timestamp_ : Z;
  (** A local variable of the obtainer's thread. *)
  previously_lease_owner : bool;
}.

Definition NewLeaseManager (frequency maximum_runningtime : Z) : LeaseManager :=
  mkLeaseManager frequency maximum_runningtime false false false kNoOngoingLeaseAcquisitionTimestamp false.

Definition set_lock (s : LeaseManager) :=
  mkLeaseManager (lease_enforcer_frequency_in_milliseconds_ s) (lease_obtainer_maximum_runningtime_in_milliseconds_ s)
    true (component_running_ s) (obtain_lease_ s) (ongoing_lease_acquisition_start_timestamp_ s) (previously_lease_owner s).
Definition set_threads (running obtain : bool) (ongoing : Z) (owner : bool) (s : LeaseManager) :=
  mkLeaseManager (lease_enforcer_frequency_in_milliseconds_ s) (lease_obtainer_maximum_runningtime_in_milliseconds_ s)
    (has_lock_and_callback s) running obtain ongoing owner.

Definition ManageLeaseOnLock (lease_duration : Z) (s : LeaseManager) : ExecutionResult * LeaseManager :=
  if component_running_ s then (FailureExecutionResult SC_LEASE_MANAGER_LOCK_CANNOT_BE_ADDED_WHILE_RUNNING, s)
  else if lease_duration <? u64 (2 * lease_enforcer_frequency_in_milliseconds_ s) then
    (FailureExecutionResult SC_LEASE_MANAGER_LOCK_LEASE_DURATION_INVALID, s)
  else (SuccessExecutionResult, set_lock s).

(** A new obtainer thread takes the lease for not owned. *)
Definition Run (s : LeaseManager) : ExecutionResult * LeaseManager :=
  if negb (has_lock_and_callback s) then (FailureExecutionResult SC_LEASE_MANAGER_NOT_INITIALIZED, s)
  else if component_running_ s then (FailureExecutionResult SC_LEASE_MANAGER_ALREADY_RUNNING, s)
  else (SuccessExecutionResult,
        set_threads true (obtain_lease_ s) (ongoing_lease_acquisition_start_timestamp_ s) false s).

(** Up to the joins of the threads. *)
Definition Stop (s : LeaseManager) : ExecutionResult * LeaseManager :=
  if negb (component_running_ s) then (FailureExecutionResult SC_LEASE_MANAGER_NOT_RUNNING, s)
  else (SuccessExecutionResult,
        set_threads false (obtain_lease_ s) (ongoing_lease_acquisition_start_timestamp_ s) (previously_lease_owner s) s).

(** ** The obtainer's thread *)

Inductive ObtainerTurn := Waits | Exits | Refreshes.

Definition ObtainerStart (now : Z) (s : LeaseManager) : ObtainerTurn * LeaseManager :=
  if negb (obtain_lease_ s) && component_running_ s then (Waits, s)
  else if negb (component_running_ s) then (Exits, s)
  else (Refreshes, set_threads true false now (previously_lease_owner s) s).

(** After [RefreshLease(false)]: what the client is called back with. *)
Definition ObtainerFinish (is_current_lease_owner : bool) (s : LeaseManager) : LeaseTransitionType * LeaseManager :=
  (if negb (previously_lease_owner s) && is_current_lease_owner then kAcquired
   else if previously_lease_owner s && negb is_current_lease_owner then kLost
   else if previously_lease_owner s && is_current_lease_owner then kRenewed
   else kNotAcquired,
   set_threads (component_running_ s) (obtain_lease_ s) kNoOngoingLeaseAcquisitionTimestamp is_current_lease_owner s).

(** ** The enforcer's thread *)

Definition NotifyLeaseObtainer (obtain_lease : bool) (s : LeaseManager) : LeaseManager :=
  set_threads (component_running_ s) obtain_lease (ongoing_lease_acquisition_start_timestamp_ s) (previously_lease_owner s) s.

Definition IsLeaseRefreshTakingLong (now : Z) (s : LeaseManager) : bool :=
  let start := ongoing_lease_acquisition_start_timestamp_ s in
  if start =? kNoOngoingLeaseAcquisitionTimestamp then false
  else lease_obtainer_maximum_runningtime_in_milliseconds_ s * 1000000 <? now - start.

(** A turn: whether the thread goes on, and whether the process is terminated. *)
Definition EnforcerTurn (should_refresh : bool) (now : Z) (s : LeaseManager) : bool * bool * LeaseManager :=
  if negb (component_running_ s) then (false, false, NotifyLeaseObtainer false s)
  else
    let s := if should_refresh then NotifyLeaseObtainer true s else s in
    (true, IsLeaseRefreshTakingLong now s, s).

(** ** The order of the callbacks *)

Fixpoint callbacks (owners : list bool) (s : LeaseManager) : list LeaseTransitionType * LeaseManager :=
  match owners with
  | [] => ([], s)
  | o :: owners =>
      let '(t, s) := ObtainerFinish o s in
      let '(ts, s) := callbacks owners s in
      (t :: ts, s)
  end.

(** Every refresh is answered, so the client always holds what the thread holds. *)
Lemma callbacks_follow owners s :
  follow_all (previously_lease_owner s) (callbacks owners s).1 = Some (previously_lease_owner (callbacks owners s).2).
Proof.
  revert s. induction owners as [|o owners IH]; intros s; [done|]. simpl.
  match goal with |- context [callbacks owners ?s1] => specialize (IH s1); destruct (callbacks owners s1) as [ts s2] end.
  simpl in *. destruct (previously_lease_owner s), o; simpl; exact IH.
Qed.

(** A refresh that takes too long ends the process at the next turn. *)
Lemma stuck_obtainer_terminates should now s start :
  component_running_ s = true → ongoing_lease_acquisition_start_timestamp_ s = start →
  start ≠ kNoOngoingLeaseAcquisitionTimestamp →
  lease_obtainer_maximum_runningtime_in_milliseconds_ s * 1000000 < now - start →
  (EnforcerTurn should now s).1.2 = true.
Proof.
  intros Hr Hs Hne Hl. unfold EnforcerTurn, IsLeaseRefreshTakingLong. rewrite Hr. simpl.
  destruct should; simpl; rewrite Hs, (proj2 (Z.eqb_neq _ _)) by done; by apply Z.ltb_lt.
Qed.

End LeaseManager.
