(* ===== verification/LeaseManagerV2.v ===== *)
(** * The lease manager

    Models [cc/core/lease_manager/src/v2/lease_manager_v2.cc]: the manager of the
    leases on any number of locks, with a refresher for each, which moves the modes
    of the refreshers until as many leases are held as wanted. Its loops ask each
    lock who owns it; the answers are arguments, one set for each loop, since the
    refreshers go on in between. Counts are of locks. *)

From S2P Require Import Prelude ExecutionResult ErrorCodes Uuid NoSQLDatabase LeasableLock LeaseRefresher.
From stdpp Require Import options.

(** ** Data *)

Record LeaseAcquisitionPreference := mkPreference {
  maximum_number_of_leases_to_hold : nat;
  preferred_locks_to_acquire_leases_on : list LeasableLockId;
}.

(** The refreshers in the order the unordered map iterates over them. *)
Record LeaseManagerV2 := mkManagerV2 {
  manager_is_running_ : bool;
  lease_refreshers_ : list (LeasableLockId * LeaseRefresher);
  lease_refresh_liveness_enforcer_ : option LeaseRefreshLivenessEnforcer;
  lease_acquisition_preference_ : LeaseAcquisitionPreference;
}.

Definition with_refreshers l (s : LeaseManagerV2) : LeaseManagerV2 :=
  mkManagerV2 (manager_is_running_ s) l (lease_refresh_liveness_enforcer_ s) (lease_acquisition_preference_ s).
Definition with_enforcer e (s : LeaseManagerV2) : LeaseManagerV2 :=
  mkManagerV2 (manager_is_running_ s) (lease_refreshers_ s) e (lease_acquisition_preference_ s).
Definition with_manager_running b (s : LeaseManagerV2) : LeaseManagerV2 :=
  mkManagerV2 b (lease_refreshers_ s) (lease_refresh_liveness_enforcer_ s) (lease_acquisition_preference_ s).

Definition NewLeaseManagerV2 (preference : LeaseAcquisitionPreference) : LeaseManagerV2 :=
  mkManagerV2 false [] None preference.

(** What the locks answer: [IsCurrentLeaseOwner], and whether
    [GetCurrentLeaseOwnerInfo] has a value. *)
Record Ownership := mkOwnership {
  owns : LeasableLockId → bool;
  owner_known : LeasableLockId → bool;
}.

(** ** Life cycle *)

(** A new refresher is placed anywhere in the order; that of a lock that is managed
    already is replaced. *)
Definition ManageLeaseOnLock (id : LeasableLockId) (now : Z) (place : nat) (s : LeaseManagerV2)
  : ExecutionResult * LeaseManagerV2 :=
  if manager_is_running_ s then (FailureExecutionResult SC_LEASE_MANAGER_ALREADY_RUNNING, s)
  else
    let l := lease_refreshers_ s in
    let r := (id, NewLeaseRefresher id now) in
    (SuccessExecutionResult,
     with_refreshers
       (if existsb (λ x, bool_decide (x.1 = id)) l then (λ x, if decide (x.1 = id) then r else x) <$> l
        else take place l ++ r :: drop place l) s).

Definition SetLeaseAcquisitionPreference (p : LeaseAcquisitionPreference) (s : LeaseManagerV2)
  : ExecutionResult * LeaseManagerV2 :=
  (SuccessExecutionResult,
   mkManagerV2 (manager_is_running_ s) (lease_refreshers_ s) (lease_refresh_liveness_enforcer_ s) p).

(** A call of each refresher, until one fails. *)
Fixpoint each_refresher (call : LeaseRefresher → ExecutionResult * LeaseRefresher)
    (l : list (LeasableLockId * LeaseRefresher)) : ExecutionResult * list (LeasableLockId * LeaseRefresher) :=
  match l with
  | [] => (SuccessExecutionResult, [])
  | (id, r) :: rest =>
      let '(result, r) := call r in
      if negb (Successful result) then (result, (id, r) :: rest)
      else let '(result, rest) := each_refresher call rest in (result, (id, r) :: rest)
  end.

(** [lease_duration] of the first lock is that of all. *)
Definition RunManager (lease_duration : LeasableLockId → Z) (s : LeaseManagerV2) : ExecutionResult * LeaseManagerV2 :=
  if manager_is_running_ s then (FailureExecutionResult SC_LEASE_MANAGER_ALREADY_RUNNING, s)
  else
    let s := with_manager_running true s in
    let '(result, s) :=
      match lease_refreshers_ s with
      | [] => (SuccessExecutionResult, s)
      | (id, _) :: _ =>
          let e := NewLivenessEnforcer (lease_duration id) in
          (EnforcerInit e, with_enforcer (Some e) s)
      end in
    if negb (Successful result) then (result, s)
    else
      let '(result, l) := each_refresher RefresherRun (lease_refreshers_ s) in
      let s := with_refreshers l s in
      if negb (Successful result) then (result, s)
      else
        match lease_refresh_liveness_enforcer_ s with
        | None => (SuccessExecutionResult, s)
        | Some e => let '(result, e) := EnforcerRun e in (result, with_enforcer (Some e) s)
        end.

Definition StopManager (s : LeaseManagerV2) : ExecutionResult * LeaseManagerV2 :=
  if negb (manager_is_running_ s) then (FailureExecutionResult SC_LEASE_MANAGER_NOT_RUNNING, s)
  else
    let s := with_manager_running false s in
    let '(result, s) :=
      match lease_refresh_liveness_enforcer_ s with
      | None => (SuccessExecutionResult, s)
      | Some e => let '(result, e) := EnforcerStop e in (result, with_enforcer (Some e) s)
      end in
    if negb (Successful result) then (result, s)
    else let '(result, l) := each_refresher RefresherStop (lease_refreshers_ s) in (result, with_refreshers l s).

(** ** Releasing a lease *)

Fixpoint find_refresher (id : LeasableLockId) (l : list (LeasableLockId * LeaseRefresher)) : option LeaseRefresher :=
  match l with
  | [] => None
  | (id', r) :: rest => if decide (id' = id) then Some r else find_refresher id rest
  end.

Definition update_refresher (id : LeasableLockId) (f : LeaseRefresher → LeaseRefresher)
    (l : list (LeasableLockId * LeaseRefresher)) : list (LeasableLockId * LeaseRefresher) :=
  (λ x, if decide (x.1 = id) then (x.1, f x.2) else x) <$> l.

(** [None]: the process is aborted. *)
Definition SafeToReleaseLease (id : LeasableLockId) (s : LeaseManagerV2) : option LeaseManagerV2 :=
  if negb (manager_is_running_ s) then Some s
  else
    match find_refresher id (lease_refreshers_ s) with
    | None => Some s
    | Some r =>
        if decide (GetLeaseRefreshMode r = RefreshWithIntentionToReleaseTheHeldLease) then
          let '(result, r) := SetLeaseRefreshMode RefreshWithNoIntentionToHoldLease r in
          if Successful result then Some (with_refreshers (update_refresher id (λ _, r) (lease_refreshers_ s)) s)
          else None
        else Some s
    end.

(** ** A round of the preference manager *)

Definition count {A} (p : A → bool) (l : list A) : nat := sum_list_with (λ x, if p x then 1 else 0) l.

Definition has_mode (m : LeaseRefreshMode) (x : LeasableLockId * LeaseRefresher) : bool :=
  bool_decide (GetLeaseRefreshMode x.2 = m).

Definition leases_held (o : Ownership) (l : list (LeasableLockId * LeaseRefresher)) : nat :=
  count (λ x, owns o x.1) l.

(** The first step of [TryHoldMoreLeases]: how many more locks are to be set. *)
Definition effective_leases_to_hold (new_leases_to_hold_count : nat) (o : Ownership)
    (l : list (LeasableLockId * LeaseRefresher)) : nat :=
  let intention_set_count := count (has_mode RefreshWithIntentionToHoldLease) l in
  let intention_fulfilled_count := count (λ x, has_mode RefreshWithIntentionToHoldLease x && owns o x.1) l in
  let leasing_in_progress_count := intention_set_count - intention_fulfilled_count in
  if new_leases_to_hold_count <=? leasing_in_progress_count then 0
  else new_leases_to_hold_count - leasing_in_progress_count.

(** A loop that sets the mode of up to [n] refreshers that are [chosen]. *)
Fixpoint set_modes (mode : LeaseRefreshMode) (chosen : LeasableLockId * LeaseRefresher → bool) (n : nat)
    (l : list (LeasableLockId * LeaseRefresher)) : list (LeasableLockId * LeaseRefresher) :=
  match n, l with
  | O, _ | _, [] => l
  | S n', (id, r) :: rest =>
      if chosen (id, r) then
        let '(result, r') := SetLeaseRefreshMode mode r in
        if Successful result then (id, r') :: set_modes mode chosen n' rest
        else (id, r') :: set_modes mode chosen n rest
      else (id, r) :: set_modes mode chosen n rest
  end.

Definition hold_more (n : nat) (o : Ownership) (l : list (LeasableLockId * LeaseRefresher)) :=
  set_modes RefreshWithIntentionToHoldLease
    (λ x, has_mode RefreshWithNoIntentionToHoldLease x && negb (owner_known o x.1)) n l.

Definition TryHoldMoreLeases (new_leases_to_hold_count : nat) (o1 o2 : Ownership)
    (l : list (LeasableLockId * LeaseRefresher)) :=
  hold_more (effective_leases_to_hold new_leases_to_hold_count o1 l) o2 l.

Definition effective_leases_to_release (leases_to_release_count : nat) (l : list (LeasableLockId * LeaseRefresher)) : nat :=
  let intention_set_count := count (has_mode RefreshWithIntentionToReleaseTheHeldLease) l in
  if leases_to_release_count <=? intention_set_count then 0 else leases_to_release_count - intention_set_count.

Definition release_some (n : nat) (o : Ownership) (l : list (LeasableLockId * LeaseRefresher)) :=
  set_modes RefreshWithIntentionToReleaseTheHeldLease
    (λ x, has_mode RefreshWithIntentionToHoldLease x && owns o x.1) n l.

Definition TryReleaseSomeLeases (leases_to_release_count : nat) (o : Ownership)
    (l : list (LeasableLockId * LeaseRefresher)) :=
  release_some (effective_leases_to_release leases_to_release_count l) o l.

Definition RevertTheIntentionToHoldLeaseForLocksWhichCannotBeLeased (o : Ownership)
    (l : list (LeasableLockId * LeaseRefresher)) : list (LeasableLockId * LeaseRefresher) :=
  (λ x, if has_mode RefreshWithIntentionToHoldLease x && (owner_known o x.1 && negb (owns o x.1))
        then (x.1, (SetLeaseRefreshMode RefreshWithNoIntentionToHoldLease x.2).2) else x) <$> l.

(** [o0] to [o3] are the answers in the loops, in their order. *)
Definition PerformLeaseAcquisitionPreferenceManagement (o0 o1 o2 o3 : Ownership) (s : LeaseManagerV2) : LeaseManagerV2 :=
  let maximum := maximum_number_of_leases_to_hold (lease_acquisition_preference_ s) in
  let l := lease_refreshers_ s in
  let held := leases_held o0 l in
  let l :=
    if held <? maximum then TryHoldMoreLeases (maximum - held) o1 o2 l
    else if maximum <? held then TryReleaseSomeLeases (held - maximum) o2 l
    else l in
  with_refreshers (RevertTheIntentionToHoldLeaseForLocksWhichCannotBeLeased o3 l) s.

Definition GetCurrentlyLeasedLocksCount (o : Ownership) (s : LeaseManagerV2) : nat :=
  count (λ x, owner_known o x.1) (lease_refreshers_ s).
