(* ===== verification/LeaseManagerSystem.v ===== *)
(** * The lease manager with its locks

    The rounds of the preference manager, loop by loop, with the refreshers of the
    locks between the loops and leases that run out at any time. A refresher may find
    the lease its own in any round, whatever its mode. The maximum number of leases
    is kept but for acquisitions out of turn: of a lease the manager had not set to
    be held, which a refresh in another mode finds or acquires, and of any lease
    within a round, between the two times the round looks at its lock. Each of them
    adds at most one lease. *)

From S2P Require Import Prelude ExecutionResult ErrorCodes Uuid NoSQLDatabase LeasableLock LeaseRefresher LeaseManagerV2.
From stdpp Require Import options.

(** Where the round is: there is none, the leases held are counted, a number of
    locks are to be set, or the modes are adjusted. *)
Inductive RoundPhase :=
| NoRound
| Counted (held : nat)
| Holding (n : nat)
| Releasing (n : nat)
| Adjusted.

Record ManagedLocks := mkManagedLocks {
  lease_manager : LeaseManagerV2;
  ownership : Ownership;
  phase : RoundPhase;
}.

Definition maximum (s : LeaseManagerV2) : nat := maximum_number_of_leases_to_hold (lease_acquisition_preference_ s).

(** The steps of the round, as [PerformLeaseAcquisitionPreferenceManagement] puts
    them together. *)
Definition round_step (o : Ownership) (p : RoundPhase) (s : LeaseManagerV2) : RoundPhase * LeaseManagerV2 :=
  let l := lease_refreshers_ s in
  match p with
  | NoRound => (Counted (leases_held o l), s)
  | Counted held =>
      if held <? maximum s then (Holding (effective_leases_to_hold (maximum s - held) o l), s)
      else if maximum s <? held then (Releasing (effective_leases_to_release (held - maximum s) l), s)
      else (Adjusted, s)
  | Holding n => (Adjusted, with_refreshers (hold_more n o l) s)
  | Releasing n => (Adjusted, with_refreshers (release_some n o l) s)
  | Adjusted =>
      (NoRound, with_refreshers (RevertTheIntentionToHoldLeaseForLocksWhichCannotBeLeased o l) s)
  end.

(** A whole round, whose loops find the locks as they are. *)
Lemma round_steps o0 o1 o2 o3 s :
  let '(p1, s1) := round_step o0 NoRound s in
  let '(p2, s2) := round_step o1 p1 s1 in
  let '(p3, s3) := match p2 with Adjusted => (p2, s2) | _ => round_step o2 p2 s2 end in
  round_step o3 p3 s3 = (NoRound, PerformLeaseAcquisitionPreferenceManagement o0 o1 o2 o3 s).
Proof.
  unfold PerformLeaseAcquisitionPreferenceManagement, TryHoldMoreLeases, TryReleaseSomeLeases, round_step, maximum.
  destruct (_ <? _); [done|]. by destruct (_ <? _).
Qed.

Definition answers (id : LeasableLockId) (owner known : bool) (o : Ownership) : Ownership :=
  mkOwnership (λ i, if decide (i = id) then owner else owns o i) (λ i, if decide (i = id) then known else owner_known o i).

Definition refresh_lock (id : LeasableLockId) (r : Round) (s : LeaseManagerV2) : LeaseManagerV2 :=
  with_refreshers (update_refresher id (λ x, (PerformLeaseRefresh r x).2) (lease_refreshers_ s)) s.

(** A refresh that makes the lease the instance's own out of turn: the lock was not
    set to be held, or a round is under way. *)
Definition out_of_turn (id : LeasableLockId) (r : Round) (o : Ownership) (p : RoundPhase) (x : LeaseRefresher) : bool :=
  is_lease_owner r && negb (owns o id) &&
  (negb (has_mode RefreshWithIntentionToHoldLease (id, x)) || match p with NoRound => false | _ => true end).

(** The steps, with the number of acquisitions out of turn. *)
Inductive managed_step : ManagedLocks → nat → ManagedLocks → Prop :=
| step_round s o p p' s' :
    round_step o p s = (p', s') → managed_step (mkManagedLocks s o p) 0 (mkManagedLocks s' o p')
| step_refresh s o p id x r :
    find_refresher id (lease_refreshers_ s) = Some x →
    managed_step (mkManagedLocks s o p) (if out_of_turn id r o p x then 1 else 0)
      (mkManagedLocks (refresh_lock id r s) (answers id (is_lease_owner r) (bool_decide (is_Some (lease_owner_info_answer r))) o) p)
| step_expire s o p id :
    managed_step (mkManagedLocks s o p) 0 (mkManagedLocks s (answers id false false o) p)
| step_safe_to_release s o p id s' :
    SafeToReleaseLease id s = Some s' → managed_step (mkManagedLocks s o p) 0 (mkManagedLocks s' o p).

(** Any locks are managed, none of them owned. *)
Inductive managed_reachable (preference : LeaseAcquisitionPreference) : nat → ManagedLocks → Prop :=
| managed_start s o :
    lease_acquisition_preference_ s = preference → NoDup (lease_refreshers_ s).*1 →
    (∀ id x, (id, x) ∈ lease_refreshers_ s → GetLeaseRefreshMode x = RefreshWithNoIntentionToHoldLease ∧ owns o id = false) →
    managed_reachable preference 0 (mkManagedLocks s o NoRound)
| managed_continue k σ k' σ' :
    managed_reachable preference k σ → managed_step σ k' σ' → managed_reachable preference (k + k') σ'.

(** ** Counting *)

Section count.
  Context {A : Type}.
  Implicit Types (p q : A → bool) (l : list A).

Lemma count_cons p a l : count p (a :: l) = (if p a then 1 else 0) + count p l.
Proof. done. Qed.

Lemma count_le p q l : (∀ a, a ∈ l → p a = true → q a = true) → count p l ≤ count q l.
Proof.
  intros Hpq. induction l as [|a l IH]; [done|]. rewrite !count_cons.
  assert (count p l ≤ count q l) by (apply IH; intros b Hb; apply Hpq; by right).
  specialize (Hpq a ltac:(left)). destruct (p a), (q a); lia.
Qed.

Lemma count_or p q l : count (λ a, p a || q a) l + count (λ a, q a && p a) l = count p l + count q l.
Proof.
  induction l as [|a l IH]; [done|]. rewrite !count_cons. destruct (p a), (q a); simpl; lia.
Qed.

Lemma count_map p (f : A → A) l : count p (f <$> l) = count (λ a, p (f a)) l.
Proof. induction l as [|a l IH]; [done|]. cbn [fmap list_fmap]. by rewrite !count_cons, <-IH. Qed.

End count.

(** The locks that are held or are to be held. *)
Definition committed (o : Ownership) (x : LeasableLockId * LeaseRefresher) : bool :=
  owns o x.1 || has_mode RefreshWithIntentionToHoldLease x.

(** No lock is being released. *)
Definition hold_or_not (x : LeasableLockId * LeaseRefresher) : Prop :=
  GetLeaseRefreshMode x.2 ≠ RefreshWithIntentionToReleaseTheHeldLease.

(** [max] is the maximum and the acquisitions out of turn. *)
Definition phase_ok (max preferred : nat) (σ : ManagedLocks) : Prop :=
  let l := lease_refreshers_ (lease_manager σ) in
  let c := count (committed (ownership σ)) l in
  match phase σ with
  | NoRound | Adjusted => c ≤ max
  | Counted held => c ≤ max ∧ leases_held (ownership σ) l + preferred ≤ held + max ∧ held ≤ max
  | Holding n => c + n ≤ max
  | Releasing n => c ≤ max ∧ preferred < max
  end.

Record managed_invariant (preference : LeaseAcquisitionPreference) (k : nat) (σ : ManagedLocks) : Prop := {
  inv_preference : lease_acquisition_preference_ (lease_manager σ) = preference;
  inv_ids : NoDup (lease_refreshers_ (lease_manager σ)).*1;
  inv_modes : k = 0 → Forall hold_or_not (lease_refreshers_ (lease_manager σ));
  inv_phase : phase_ok (maximum_number_of_leases_to_hold preference + k) (maximum_number_of_leases_to_hold preference) σ;
}.

(** ** The loops *)

Lemma SetLeaseRefreshMode_mode mode x : Successful (SetLeaseRefreshMode mode x).1 = true →
  GetLeaseRefreshMode (SetLeaseRefreshMode mode x).2 = mode.
Proof. unfold SetLeaseRefreshMode. by case_match. Qed.

Lemma SetLeaseRefreshMode_refused mode x : Successful (SetLeaseRefreshMode mode x).1 = false →
  (SetLeaseRefreshMode mode x).2 = x.
Proof. unfold SetLeaseRefreshMode. by case_match. Qed.

(** A loop sets the mode of at most [n] refreshers. *)
Lemma set_modes_spec mode chosen n l :
  (set_modes mode chosen n l).*1 = l.*1 ∧
  (∀ P : LeasableLockId * LeaseRefresher → Prop,
    Forall P l → (∀ id x, GetLeaseRefreshMode x = mode → P (id, x)) → Forall P (set_modes mode chosen n l)) ∧
  ∀ p, count p (set_modes mode chosen n l) ≤ count p l + n.
Proof.
  revert n. induction l as [|[id r] l IH]; intros [|n]; try (split_and!; [done|done|intros p; simpl; lia]).
  cbn [set_modes]. destruct (chosen (id, r)); last first.
  { destruct (IH (S n)) as (Hf & Hp & Hc). split_and!; [by rewrite !fmap_cons, Hf| |].
    - intros P [Hx Hl]%Forall_cons Hm. apply Forall_cons. eauto.
    - intros p. rewrite !count_cons. specialize (Hc p). lia. }
  pose proof (SetLeaseRefreshMode_mode mode r) as Hset. pose proof (SetLeaseRefreshMode_refused mode r) as Href.
  destruct (SetLeaseRefreshMode mode r) as [result r']. simpl in Hset, Href.
  destruct (Successful result).
  - destruct (IH n) as (Hf & Hp & Hc). split_and!; [by rewrite !fmap_cons, Hf| |].
    + intros P [Hx Hl]%Forall_cons Hm. apply Forall_cons. eauto.
    + intros p. rewrite !count_cons. specialize (Hc p). repeat case_match; lia.
  - rewrite (Href eq_refl). destruct (IH (S n)) as (Hf & Hp & Hc). split_and!; [by rewrite !fmap_cons, Hf| |].
    + intros P [Hx Hl]%Forall_cons Hm. apply Forall_cons. eauto.
    + intros p. rewrite !count_cons. specialize (Hc p). lia.
Qed.

Lemma committed_held o l :
  count (committed o) l + count (λ x, has_mode RefreshWithIntentionToHoldLease x && owns o x.1) l
  = leases_held o l + count (has_mode RefreshWithIntentionToHoldLease) l.
Proof. exact (count_or (λ x, owns o x.1) (has_mode RefreshWithIntentionToHoldLease) l). Qed.

Lemma held_committed o l : leases_held o l ≤ count (committed o) l.
Proof. apply count_le. intros x _ Ho. unfold committed. by rewrite Ho. Qed.

(** The locks that are to be set fill up what is wanted, and no more than the leases
    acquired since the count. *)
Lemma effective_leases_bound preferred max held o l :
  count (committed o) l ≤ max → leases_held o l + preferred ≤ held + max → held < preferred →
  count (committed o) l + effective_leases_to_hold (preferred - held) o l ≤ max.
Proof.
  intros Hc Hh Hm. pose proof (committed_held o l) as Hcount.
  assert (count (λ x, has_mode RefreshWithIntentionToHoldLease x && owns o x.1) l
          ≤ count (has_mode RefreshWithIntentionToHoldLease) l)
    by (apply count_le; by intros x _ [? _]%andb_true_iff).
  unfold effective_leases_to_hold. case_match eqn:Hle; [lia|]. apply Nat.leb_gt in Hle. lia.
Qed.

Lemma revert_spec o l :
  (RevertTheIntentionToHoldLeaseForLocksWhichCannotBeLeased o l).*1 = l.*1 ∧
  (Forall hold_or_not l → Forall hold_or_not (RevertTheIntentionToHoldLeaseForLocksWhichCannotBeLeased o l)) ∧
  count (committed o) (RevertTheIntentionToHoldLeaseForLocksWhichCannotBeLeased o l) ≤ count (committed o) l.
Proof.
  assert (∀ x : LeaseRefresher, GetLeaseRefreshMode (SetLeaseRefreshMode RefreshWithNoIntentionToHoldLease x).2
    = RefreshWithNoIntentionToHoldLease) as Hm.
  { intros x. unfold SetLeaseRefreshMode. destruct (last_lease_transition_ x); [|done]. by rewrite andb_false_r. }
  unfold RevertTheIntentionToHoldLeaseForLocksWhichCannotBeLeased. split_and!.
  - rewrite <-list_fmap_compose. apply list_fmap_ext. intros _ x _. simpl. by case_match.
  - intros Hl. apply Forall_fmap. eapply Forall_impl; [exact Hl|]. intros x Hx. simpl.
    case_match; [unfold hold_or_not; simpl; by rewrite Hm|done].
  - rewrite count_map. apply count_le. intros x _. case_match; [|done]. unfold committed, has_mode. simpl.
    rewrite Hm. intros [->|?]%orb_true_iff; done.
Qed.

(** The locks that are to be released are held. *)
Lemma release_committed o n l : count (committed o) (release_some n o l) ≤ count (committed o) l.
Proof.
  unfold release_some. revert n. induction l as [|[id r] l IH]; intros [|n]; [done..|]. cbn [set_modes].
  assert (∀ r' n', (committed o (id, r') = true → committed o (id, r) = true) →
    count (committed o) ((id, r') :: set_modes RefreshWithIntentionToReleaseTheHeldLease
      (λ x, has_mode RefreshWithIntentionToHoldLease x && owns o x.1) n' l) ≤ count (committed o) ((id, r) :: l)) as Hcons.
  { intros r' n' Hr. rewrite !count_cons. specialize (IH n'). destruct (committed o (id, r')); [rewrite Hr by done|]; lia. }
  destruct (has_mode _ (id, r) && _) eqn:Hc; [|by apply Hcons].
  apply andb_true_iff in Hc as [_ Ho]. assert (committed o (id, r) = true) by (unfold committed; by rewrite Ho).
  destruct (SetLeaseRefreshMode _ r) as [result r']. destruct (Successful result); by apply Hcons.
Qed.

(** A change of refreshers that sets no lock to be held or released. *)
Definition weakens (g : LeasableLockId * LeaseRefresher → LeasableLockId * LeaseRefresher) : Prop :=
  ∀ y, (g y).1 = y.1 ∧
    (GetLeaseRefreshMode (g y).2 = GetLeaseRefreshMode y.2 ∨ GetLeaseRefreshMode (g y).2 = RefreshWithNoIntentionToHoldLease).

Lemma weakens_spec g o l : weakens g →
  (g <$> l).*1 = l.*1 ∧ (Forall hold_or_not l → Forall hold_or_not (g <$> l)) ∧
  count (committed o) (g <$> l) ≤ count (committed o) l ∧ leases_held o (g <$> l) = leases_held o l.
Proof.
  intros Hg. split_and!.
  - rewrite <-list_fmap_compose. apply list_fmap_ext. intros _ y _. apply Hg.
  - intros Hl. apply Forall_fmap. eapply Forall_impl; [exact Hl|]. intros y Hy. unfold hold_or_not in *. simpl.
    destruct (Hg y) as [_ [-> | ->]]; [exact Hy|done].
  - rewrite count_map. apply count_le. intros y _. unfold committed, has_mode. destruct (Hg y) as [-> [-> | ->]]; [done|].
    simpl. by rewrite orb_false_r => ->.
  - unfold leases_held. rewrite count_map. apply Nat.le_antisymm; apply count_le; intros y _; by destruct (Hg y) as [-> _].
Qed.

Lemma update_weakens id f : (∀ x, GetLeaseRefreshMode (f x) = GetLeaseRefreshMode x ∨
    GetLeaseRefreshMode (f x) = RefreshWithNoIntentionToHoldLease) →
  weakens (λ x, if decide (x.1 = id) then (x.1, f x.2) else x).
Proof. intros Hf y. case_decide; simpl; [split; [done|apply Hf]|auto]. Qed.

Lemma SafeToReleaseLease_weakens id s s' : SafeToReleaseLease id s = Some s' →
  lease_acquisition_preference_ s' = lease_acquisition_preference_ s ∧
  ∃ g, weakens g ∧ lease_refreshers_ s' = g <$> lease_refreshers_ s.
Proof.
  assert (∃ g, weakens g ∧ lease_refreshers_ s = g <$> lease_refreshers_ s) as Hid.
  { exists (λ x, x). split; [intros y; auto|by rewrite list_fmap_id]. }
  unfold SafeToReleaseLease. destruct (negb _); [intros [= <-]; auto|].
  destruct (find_refresher id _) as [x|]; [|intros [= <-]; auto]. case_decide; [|intros [= <-]; auto].
  destruct (SetLeaseRefreshMode _ x) as [result x'] eqn:Hset. destruct (Successful result) eqn:Hr; [|done]. intros [= <-].
  split; [done|]. eexists. split; [|reflexivity]. apply (update_weakens id (λ _, x')). intros ?. right.
  pose proof (SetLeaseRefreshMode_mode RefreshWithNoIntentionToHoldLease x) as Hmode. rewrite Hset in Hmode. by apply Hmode.
Qed.

(** ** Every step *)

Lemma managed_start_invariant preference s o :
  lease_acquisition_preference_ s = preference → NoDup (lease_refreshers_ s).*1 →
  (∀ id x, (id, x) ∈ lease_refreshers_ s → GetLeaseRefreshMode x = RefreshWithNoIntentionToHoldLease ∧ owns o id = false) →
  managed_invariant preference 0 (mkManagedLocks s o NoRound).
Proof.
  intros Hp Hn Hl. constructor; [done|done| |].
  - intros _. apply Forall_forall. intros [id x] Hx. unfold hold_or_not. simpl. by rewrite (proj1 (Hl id x Hx)).
  - unfold phase_ok. simpl. assert (count (committed o) (lease_refreshers_ s) ≤ count (λ _, false) (lease_refreshers_ s)) as Hc.
    { apply count_le. intros [id x] Hx. unfold committed, has_mode. simpl. destruct (Hl _ _ Hx) as [-> ->]. done. }
    assert (count (λ _, false) (lease_refreshers_ s) = 0); [|lia]. clear. by induction (lease_refreshers_ s).
Qed.

Lemma round_step_invariant preference k s o p p' s' :
  round_step o p s = (p', s') → managed_invariant preference k (mkManagedLocks s o p) →
  managed_invariant preference k (mkManagedLocks s' o p').
Proof.
  intros Hr [Hp Hn Hm Hph]. unfold phase_ok in Hph. unfold round_step, maximum in Hr. simpl in *. rewrite Hp in Hr.
  destruct p as [|held|n|n|].
  - simplify_eq. constructor; [done..|]. unfold phase_ok. simpl. pose proof (held_committed o (lease_refreshers_ s')). lia.
  - destruct Hph as (Hc & Hh & Hx). destruct (Nat.ltb_spec held (maximum_number_of_leases_to_hold preference)).
    + simplify_eq. constructor; [done..|]. unfold phase_ok. simpl. by apply effective_leases_bound.
    + destruct (Nat.ltb_spec (maximum_number_of_leases_to_hold preference) held); simplify_eq; (constructor; [done..|]);
        unfold phase_ok; simpl; lia.
  - simplify_eq. destruct (set_modes_spec RefreshWithIntentionToHoldLease
      (λ x, has_mode RefreshWithNoIntentionToHoldLease x && negb (owner_known o x.1)) n (lease_refreshers_ s)) as (Hf & Hmodes & Hc).
    constructor; simpl; [done|unfold hold_more; by rewrite Hf| |].
    + intros Hk. apply Hmodes; [by apply Hm|]. intros id x Hx. unfold hold_or_not. simpl. by rewrite Hx.
    + unfold phase_ok, hold_more. simpl. specialize (Hc (committed o)). lia.
  - simplify_eq. destruct (set_modes_spec RefreshWithIntentionToReleaseTheHeldLease
      (λ x, has_mode RefreshWithIntentionToHoldLease x && owns o x.1) n (lease_refreshers_ s)) as (Hf & _ & _).
    constructor; simpl; [done|unfold release_some; by rewrite Hf|intros ->; lia|].
    unfold phase_ok. simpl. pose proof (release_committed o n (lease_refreshers_ s)). lia.
  - simplify_eq. destruct (revert_spec o (lease_refreshers_ s)) as (Hf & Hmodes & Hc).
    constructor; simpl; [done|by rewrite Hf|by intros Hk; apply Hmodes, Hm|]. unfold phase_ok. simpl. lia.
Qed.

(** A step that leaves the identifiers: [k'] acquisitions out of turn make up for what
    the locks commit to and, within a round, hold more than before. *)
Lemma refreshers_invariant preference k k' s o p s' o' :
  managed_invariant preference k (mkManagedLocks s o p) →
  lease_acquisition_preference_ s' = lease_acquisition_preference_ s →
  (lease_refreshers_ s').*1 = (lease_refreshers_ s).*1 →
  (k + k' = 0 → Forall hold_or_not (lease_refreshers_ s) → Forall hold_or_not (lease_refreshers_ s')) →
  count (committed o') (lease_refreshers_ s') ≤ count (committed o) (lease_refreshers_ s) + k' →
  (p ≠ NoRound → leases_held o' (lease_refreshers_ s') ≤ leases_held o (lease_refreshers_ s) + k') →
  managed_invariant preference (k + k') (mkManagedLocks s' o' p).
Proof.
  intros [Hp Hn Hm Hph] Hpref Hids Hmodes Hc Hheld. simpl in *. constructor; simpl; [congruence|by rewrite Hids| |].
  - intros Hk. apply Hmodes; [done|]. apply Hm. lia.
  - unfold phase_ok in *. simpl in *. destruct p; [lia| |lia|lia|lia]. specialize (Hheld ltac:(done)). lia.
Qed.

Lemma find_refresher_Some id x l : find_refresher id l = Some x → (id, x) ∈ l.
Proof.
  induction l as [|[id' y] l IH]; simpl; [done|]. case_decide; intros ?; simplify_eq; [by left|right; auto].
Qed.

Lemma NoDup_refreshers {id x} (l : list (LeasableLockId * LeaseRefresher)) :
  NoDup (l.*1) → find_refresher id l = Some x →
  ∃ l1 l2, l = l1 ++ (id, x) :: l2 ∧ id ∉ (l1.*1) ∧ id ∉ (l2.*1).
Proof.
  intros Hn Hx. apply find_refresher_Some, list_elem_of_split in Hx as (l1 & l2 & ->). exists l1, l2.
  rewrite fmap_app, fmap_cons in Hn. simpl in Hn. apply NoDup_app in Hn as (_ & H1 & [H2 _]%NoDup_cons).
  split; [done|]. split; [|done]. intros Hin. apply (H1 id Hin). by left.
Qed.

Lemma count_app {A} (p : A → bool) l1 l2 : count p (l1 ++ l2) = count p l1 + count p l2.
Proof. induction l1 as [|a l1 IH]; [done|]. simpl app. rewrite !count_cons, IH. lia. Qed.

Lemma count_same {A} (p q : A → bool) l : (∀ a, a ∈ l → p a = q a) → count p l = count q l.
Proof. intros H. apply Nat.le_antisymm; apply count_le; intros a Ha; by rewrite (H a Ha). Qed.

(** One lock's refresher and ownership change. *)
Lemma update_counts (p : Ownership → LeasableLockId * LeaseRefresher → bool) id x f o owner known l :
  (∀ o o' y, owns o y.1 = owns o' y.1 → p o y = p o' y) →
  NoDup l.*1 → find_refresher id l = Some x →
  count (p (answers id owner known o)) (update_refresher id f l) + Nat.b2n (p o (id, x))
  = count (p o) l + Nat.b2n (p (answers id owner known o) (id, f x)).
Proof.
  intros Hp Hn Hx. destruct (NoDup_refreshers l Hn Hx) as (l1 & l2 & -> & H1 & H2).
  unfold update_refresher. rewrite fmap_app, fmap_cons, !count_app, !count_cons, !count_map. simpl. rewrite decide_True by done.
  assert (∀ l', id ∉ l'.*1 → count (λ a, p (answers id owner known o) (if decide (a.1 = id) then (a.1, f a.2) else a)) l'
    = count (p o) l') as Hsame.
  { intros l' Hl'. apply count_same. intros y Hy. rewrite decide_False.
    - apply Hp. simpl. rewrite decide_False; [done|]. intros Heq. apply Hl'. rewrite <-Heq. by apply list_elem_of_fmap_2.
    - intros Heq. apply Hl'. rewrite <-Heq. by apply list_elem_of_fmap_2. }
  rewrite !Hsame by done. unfold Nat.b2n. repeat case_match; lia.
Qed.

Lemma committed_owns o o' y : owns o y.1 = owns o' y.1 → committed o y = committed o' y.
Proof. unfold committed. by intros ->. Qed.

Lemma managed_step_invariant preference k k' σ σ' :
  managed_step σ k' σ' → managed_invariant preference k σ → managed_invariant preference (k + k') σ'.
Proof.
  intros Hs Hi. destruct Hs as [s o p p' s' Hr|s o p id x r Hx|s o p id|s o p id s' Hsafe].
  - rewrite Nat.add_0_r. by eapply round_step_invariant.
  - pose proof (inv_ids _ _ _ Hi) as Hn. simpl in Hn. apply (refreshers_invariant preference k _ s o); try done.
    + apply (weakens_spec _ o). apply (update_weakens id (λ x, (PerformLeaseRefresh r x).2)). by left.
    + intros _. apply (weakens_spec _ o). apply (update_weakens id (λ x, (PerformLeaseRefresh r x).2)). by left.
    + simpl. pose proof (update_counts committed id x (λ x, (PerformLeaseRefresh r x).2) o (is_lease_owner r)
        (bool_decide (is_Some (lease_owner_info_answer r))) _ committed_owns Hn Hx) as Hc.
      unfold out_of_turn, committed in *. unfold has_mode, GetLeaseRefreshMode in *. simpl in *. rewrite decide_True in Hc by done.
      destruct (is_lease_owner r), (owns o id), (bool_decide (lease_refresh_mode_ x = RefreshWithIntentionToHoldLease)), p;
        simpl in *; lia.
    + simpl. intros Hp. pose proof (update_counts (λ o y, owns o y.1) id x (λ x, (PerformLeaseRefresh r x).2) o (is_lease_owner r)
        (bool_decide (is_Some (lease_owner_info_answer r))) _ ltac:(done) Hn Hx) as Hc.
      unfold out_of_turn, leases_held in *. simpl in *. rewrite decide_True in Hc by done.
      destruct (is_lease_owner r), (owns o id), (has_mode RefreshWithIntentionToHoldLease (id, x)), p; simpl in *; done || lia.
  - apply (refreshers_invariant preference k _ s o); try done; simpl; rewrite Nat.add_0_r; [|intros _];
      apply count_le; intros y _; unfold committed; simpl; case_decide; simpl; try done; intros ->; by rewrite orb_true_r.
  - apply SafeToReleaseLease_weakens in Hsafe as [Hpref (g & Hg & Hl)].
    destruct (weakens_spec g o (lease_refreshers_ s) Hg) as (H1 & H2 & H3 & H4).
    apply (refreshers_invariant preference k _ s o); try done; rewrite Hl; [done|done|lia|lia].
Qed.

Lemma managed_reachable_invariant preference k σ : managed_reachable preference k σ → managed_invariant preference k σ.
Proof.
  induction 1 as [s o Hp Hn Hl|]; [by apply managed_start_invariant|by eapply managed_step_invariant].
Qed.

(** ** The maximum *)

(** C18: while the preference stays, whatever the locks answer and however rounds,
    refreshes, notifications and leases that run out follow one another, the manager
    never holds more leases than the maximum and the acquisitions out of turn there
    have been - of a lease the manager had not set to be held, as a refresh that only
    reads makes it when it finds a lease of its own, and of any lease within a round -
    nor aims at more. While there has been none, the maximum is kept and no lease is
    given up. *)
Theorem maximum_kept preference k σ : managed_reachable preference k σ →
  leases_held (ownership σ) (lease_refreshers_ (lease_manager σ)) ≤ maximum_number_of_leases_to_hold preference + k ∧
  count (committed (ownership σ)) (lease_refreshers_ (lease_manager σ)) ≤ maximum_number_of_leases_to_hold preference + k ∧
  (k = 0 → Forall (λ x, GetLeaseRefreshMode x.2 ≠ RefreshWithIntentionToReleaseTheHeldLease) (lease_refreshers_ (lease_manager σ))).
Proof.
  intros [_ _ Hm Hph]%managed_reachable_invariant. unfold phase_ok in Hph.
  pose proof (held_committed (ownership σ) (lease_refreshers_ (lease_manager σ))).
  split_and!; [destruct (phase σ); lia|destruct (phase σ); lia|exact Hm].
Qed.

(** ** The theorems at concrete inputs *)

Module ExampleManager.

Definition a : LeasableLockId := mkUuid 0 1.
Definition b : LeasableLockId := mkUuid 0 2.
Definition nobody : Ownership := mkOwnership (λ _, false) (λ _, false).

(** Two locks, of which at most one is wanted. *)
Definition preference : LeaseAcquisitionPreference := mkPreference 1 [].
Definition start : LeaseManagerV2 :=
  mkManagerV2 true [(a, NewLeaseRefresher a 0); (b, NewLeaseRefresher b 0)] None preference.

(** A refresh that acquires the lease. *)
Definition acquire : Round := mkRound true SuccessExecutionResult true (Some (mkLeaseInfo "node" "http://node")) true 0.

Definition next_step (σ : ManagedLocks) : ManagedLocks :=
  let r := round_step (ownership σ) (phase σ) (lease_manager σ) in mkManagedLocks r.2 (ownership σ) r.1.

Fixpoint round_steps_of (n : nat) (σ : ManagedLocks) : ManagedLocks :=
  match n with O => σ | S n => next_step (round_steps_of n σ) end.

Definition acquired (id : LeasableLockId) (σ : ManagedLocks) : ManagedLocks :=
  mkManagedLocks (refresh_lock id acquire (lease_manager σ)) (answers id true true (ownership σ)) (phase σ).

Lemma managed_start_reachable : managed_reachable preference 0 (mkManagedLocks start nobody NoRound).
Proof.
  constructor; [done|by apply (bool_decide_unpack _); vm_compute|].
  intros id x Hx. unfold start in Hx. simpl in Hx. rewrite !elem_of_cons, elem_of_nil in Hx. naive_solver.
Qed.

Lemma rounds_reachable k n σ : managed_reachable preference k σ → managed_reachable preference k (round_steps_of n σ).
Proof.
  intros Hr. induction n as [|n IH]; [done|]. simpl. rewrite <-(Nat.add_0_r k). eapply managed_continue; [exact IH|].
  destruct (round_steps_of n σ) as [s o p]. apply step_round. apply surjective_pairing.
Qed.

(** How many acquisitions out of turn that is. *)
Definition turns (id : LeasableLockId) (σ : ManagedLocks) : option nat :=
  x ← find_refresher id (lease_refreshers_ (lease_manager σ));
  Some (if out_of_turn id acquire (ownership σ) (phase σ) x then 1 else 0).

Lemma acquired_reachable k id σ k' :
  managed_reachable preference k σ → turns id σ = Some k' → managed_reachable preference (k + k') (acquired id σ).
Proof.
  intros Hr. unfold turns. destruct (find_refresher id _) as [x|] eqn:Hx; [|done]. intros [= <-].
  eapply managed_continue; [exact Hr|]. destruct σ as [s o p]. by apply (step_refresh s o p id x acquire).
Qed.

(** A round that sets the first lock, and a refresh that acquires it. *)
Definition held_one : ManagedLocks := acquired a (round_steps_of 4 (mkManagedLocks start nobody NoRound)).

Lemma held_one_reachable : managed_reachable preference 0 held_one.
Proof.
  apply (acquired_reachable 0 a _ 0); [apply rounds_reachable, managed_start_reachable|vm_compute; reflexivity].
Qed.

(** The first lock is acquired after the next round has counted the leases, the
    second after that round. *)
Definition counted : ManagedLocks :=
  round_steps_of 1 (round_steps_of 4 (mkManagedLocks start nobody NoRound)).
Definition held_two : ManagedLocks := acquired b (round_steps_of 3 (acquired a counted)).

End ExampleManager.
Import ExampleManager.

(** The maximum is exceeded when a lease is acquired after a round has counted
    the leases and before it looks which locks are still to be acquired: the lock
    counts neither as held nor as in progress, and the round sets another. *)
Theorem maximum_exceeded : ∃ σ, managed_reachable (mkPreference 1 []) 1 σ ∧
  leases_held (ownership σ) (lease_refreshers_ (lease_manager σ)) = 2.
Proof.
  exists held_two. split; [|by vm_compute]. apply (acquired_reachable 1 b _ 0); [|vm_compute; reflexivity].
  apply rounds_reachable, (acquired_reachable 0 a _ 1); [|vm_compute; reflexivity].
  apply rounds_reachable, rounds_reachable, managed_start_reachable.
Qed.

(** So it is when a refresh that only reads finds a lease of its own, as after a
    restart. *)
Theorem maximum_exceeded_by_read : ∃ σ, managed_reachable (mkPreference 1 []) 1 σ ∧
  leases_held (ownership σ) (lease_refreshers_ (lease_manager σ)) = 2.
Proof.
  exists (acquired b held_one). split; [|by vm_compute].
  apply (acquired_reachable 0 b _ 1); [apply held_one_reachable|vm_compute; reflexivity].
Qed.

Lemma maximum_kept_witness :
  leases_held (ownership held_one) (lease_refreshers_ (lease_manager held_one)) = 1 ∧
  count (committed (ownership held_one)) (lease_refreshers_ (lease_manager held_one)) ≤ 1.
Proof. split; [by vm_compute|]. exact (proj1 (proj2 (maximum_kept preference 0 held_one held_one_reachable))). Defined.
