(* ===== verification/Partition.v ===== *)
(** * Partitions

    Models [cc/pbs/partition/src]: the life cycle of a partition's components and the
    requests it takes ([pbs_partition.cc]), and the stand-in for a partition that
    another instance hosts ([remote_pbs_partition.h]). What the components answer
    is an argument; the calls they get are listed in order. *)

From S2P Require Import Prelude ExecutionResult ErrorCodes Uuid.
From stdpp Require Import options.

Local Open Scope Z_scope.

(** ** Data *)

Inductive PartitionLoadUnloadState := Created | Initialized | Loading | Loaded | Unloading | Unloaded.

#[export] Instance PartitionLoadUnloadState_eq_dec : EqDecision PartitionLoadUnloadState.
Proof. solve_decision. Defined.

Definition PartitionId : Type := Uuid.

Inductive Component := journal_service_ | budget_key_provider_ | transaction_manager_ | checkpoint_service_.

#[export] Instance Component_eq_dec : EqDecision Component.
Proof. solve_decision. Defined.

(** The calls a partition makes. *)
Inductive PartitionCall :=
| InitComponent (c : Component)
| RunComponent (c : Component)
| StopComponent (c : Component)
| RunRecoveryMetrics
| Recover
| StopRecoveryMetrics
| SetUpCommandExecutionDependencies (command : nat)
| CallTransactionManager.

#[export] Instance PartitionCall_eq_dec : EqDecision PartitionCall.
Proof. solve_decision. Defined.

Record PBSPartition := mkPartition {
  partition_id_ : PartitionId;
  partition_state_ : PartitionLoadUnloadState;
  requests_seen_count_ : Z;
}.

Definition with_state (x : PartitionLoadUnloadState) (p : PBSPartition) : PBSPartition :=
  mkPartition (partition_id_ p) x (requests_seen_count_ p).

Definition NewPBSPartition (id : PartitionId) : PBSPartition := mkPartition id Created 0.

(** [compare_exchange_strong]. *)
Definition compare_exchange (expected desired : PartitionLoadUnloadState) (p : PBSPartition) : bool * PBSPartition :=
  if decide (partition_state_ p = expected) then (true, with_state desired p) else (false, p).

(** The components one after another, until one fails. *)
Fixpoint each_component (call : Component → PartitionCall) (answer : Component → ExecutionResult)
    (components : list Component) : ExecutionResult * list PartitionCall :=
  match components with
  | [] => (SuccessExecutionResult, [])
  | c :: rest =>
      if negb (Successful (answer c)) then (answer c, [call c])
      else let '(result, calls) := each_component call answer rest in (result, call c :: calls)
  end.

(** ** Life cycle *)

Definition start_order : list Component :=
  [journal_service_; budget_key_provider_; transaction_manager_; checkpoint_service_].
Definition stop_order : list Component :=
  [checkpoint_service_; transaction_manager_; budget_key_provider_; journal_service_].

Definition InitPartition (answer : Component → ExecutionResult) (p : PBSPartition)
  : ExecutionResult * list PartitionCall * PBSPartition :=
  if negb (bool_decide (partition_state_ p = Created)) then
    (FailureExecutionResult SC_PBS_PARTITION_CANNOT_INITIALIZE, [], p)
  else
    let '(result, calls) := each_component InitComponent answer start_order in
    if negb (Successful result) then (result, calls, p)
    else
      let '(exchanged, p) := compare_exchange Created Initialized p in
      if exchanged then (SuccessExecutionResult, calls, p)
      else (FailureExecutionResult SC_PBS_PARTITION_CANNOT_INITIALIZE, calls, p).

(** What the journal service answers in a recovery: to its metrics, to the call,
    when it is done, and to its metrics. *)
Record RecoveryAnswers := mkRecovery {
  run_recovery_metrics : ExecutionResult;
  recover_call : ExecutionResult;
  recovered : ExecutionResult;
  stop_recovery_metrics : ExecutionResult;
}.

Definition RecoverPartition (a : RecoveryAnswers) : ExecutionResult * list PartitionCall :=
  if negb (Successful (run_recovery_metrics a)) then (run_recovery_metrics a, [RunRecoveryMetrics])
  else if negb (Successful (recover_call a)) then (recover_call a, [RunRecoveryMetrics; Recover])
  else
    let calls := [RunRecoveryMetrics; Recover; StopRecoveryMetrics] in
    if negb (Successful (stop_recovery_metrics a)) then (stop_recovery_metrics a, calls)
    else if negb (Successful (recovered a)) then (FailureExecutionResult SC_PBS_PARTITION_RECOVERY_FAILED, calls)
    else (SuccessExecutionResult, calls).

(** [Load] and [Unload] up to and from their work, which only the thread that has
    changed the state does. *)
Definition BeginLoad (p : PBSPartition) : option ExecutionResult * PBSPartition :=
  let '(exchanged, p) := compare_exchange Initialized Loading p in
  (if exchanged then None else Some (FailureExecutionResult SC_PBS_PARTITION_CANNOT_LOAD), p).

Definition FinishLoad (recovery : RecoveryAnswers) (answer : Component → ExecutionResult) (p : PBSPartition)
  : ExecutionResult * list PartitionCall * PBSPartition :=
  let '(result, calls) := RecoverPartition recovery in
  if negb (Successful result) then (result, calls, p)
  else
    let '(result, more) := each_component RunComponent answer start_order in
    if negb (Successful result) then (result, calls ++ more, p)
    else
      let '(exchanged, p) := compare_exchange Loading Loaded p in
      (if exchanged then SuccessExecutionResult else FailureExecutionResult SC_PBS_PARTITION_INVALID_PARTITON_STATE,
       calls ++ more, p).

Definition LoadLocal (recovery : RecoveryAnswers) (answer : Component → ExecutionResult) (p : PBSPartition)
  : ExecutionResult * list PartitionCall * PBSPartition :=
  let '(refused, p) := BeginLoad p in
  match refused with
  | Some result => (result, [], p)
  | None => FinishLoad recovery answer p
  end.

Definition BeginUnload (p : PBSPartition) : option ExecutionResult * PBSPartition :=
  let '(exchanged, p) := compare_exchange Loaded Unloading p in
  (if exchanged then None else Some (FailureExecutionResult SC_PBS_PARTITION_CANNOT_UNLOAD), p).

Definition FinishUnload (answer : Component → ExecutionResult) (p : PBSPartition)
  : ExecutionResult * list PartitionCall * PBSPartition :=
  let '(result, calls) := each_component StopComponent answer stop_order in
  if negb (Successful result) then (result, calls, p)
  else
    let '(exchanged, p) := compare_exchange Unloading Unloaded p in
    (if exchanged then SuccessExecutionResult else FailureExecutionResult SC_PBS_PARTITION_INVALID_PARTITON_STATE,
     calls, p).

Definition UnloadLocal (answer : Component → ExecutionResult) (p : PBSPartition)
  : ExecutionResult * list PartitionCall * PBSPartition :=
  let '(refused, p) := BeginUnload p in
  match refused with
  | Some result => (result, [], p)
  | None => FinishUnload answer p
  end.

(** ** Requests *)

Definition IncrementRequestCount (p : PBSPartition) : PBSPartition :=
  mkPartition (partition_id_ p) (partition_state_ p) (u64 (requests_seen_count_ p + 1)).

Definition not_loaded : ExecutionResult := RetryExecutionResult SC_PBS_PARTITION_NOT_LOADED.

(** [ExecuteRequest] of a phase, [GetTransactionStatus] and
    [GetTransactionManagerStatus]: the transaction manager's [answer]. *)
Definition ForwardRequest (answer : ExecutionResult) (p : PBSPartition)
  : ExecutionResult * list PartitionCall * PBSPartition :=
  if negb (bool_decide (partition_state_ p = Loaded)) then (not_loaded, [], p)
  else (answer, [CallTransactionManager], IncrementRequestCount p).

(** The commands get what they need, up to the first that is not a
    [ConsumeBudgetCommand]. *)
Fixpoint set_up_commands (i : nat) (is_consume_budget_command : list bool) : bool * list PartitionCall :=
  match is_consume_budget_command with
  | [] => (true, [])
  | b :: rest =>
      if negb b then (false, [])
      else let '(ok, calls) := set_up_commands (S i) rest in (ok, SetUpCommandExecutionDependencies i :: calls)
  end.

(** [ExecuteRequest] of a transaction. *)
Definition ExecuteRequest (is_consume_budget_command : list bool) (answer : ExecutionResult) (p : PBSPartition)
  : ExecutionResult * list PartitionCall * PBSPartition :=
  if negb (bool_decide (partition_state_ p = Loaded)) then (not_loaded, [], p)
  else
    let p := IncrementRequestCount p in
    let '(ok, calls) := set_up_commands 0 is_consume_budget_command in
    if negb ok then (FailureExecutionResult SC_PBS_PARTITION_INVALID_TRANSACTION, calls, p)
    else (answer, calls ++ [CallTransactionManager], p).

(** ** Remote partitions *)

(** Their whole state; [Init], [Load] and [Unload] succeed and set it. *)
Definition RemotePBSPartition : Type := PartitionLoadUnloadState.

Definition remote_request : ExecutionResult := RetryExecutionResult SC_PBS_PARTITION_IS_REMOTE_CANNOT_HANDLE_REQUEST.

(** [PBSPartitionInterface]. *)
Inductive PartitionHandle :=
| LocalHandle (p : PBSPartition)
| RemoteHandle (p : RemotePBSPartition).

Definition GetPartitionState (h : PartitionHandle) : PartitionLoadUnloadState :=
  match h with LocalHandle p => partition_state_ p | RemoteHandle p => p end.

(** What the components answer to the calls of one partition. *)
Record PartitionAnswers := mkAnswers {
  answer_init : Component → ExecutionResult;
  answer_recovery : RecoveryAnswers;
  answer_run : Component → ExecutionResult;
  answer_stop : Component → ExecutionResult;
}.

Definition InitHandle (a : PartitionAnswers) (h : PartitionHandle) : ExecutionResult * list PartitionCall * PartitionHandle :=
  match h with
  | LocalHandle p => let '(result, calls, p) := InitPartition (answer_init a) p in (result, calls, LocalHandle p)
  | RemoteHandle _ => (SuccessExecutionResult, [], RemoteHandle Initialized)
  end.

Definition LoadHandle (a : PartitionAnswers) (h : PartitionHandle) : ExecutionResult * list PartitionCall * PartitionHandle :=
  match h with
  | LocalHandle p => let '(result, calls, p) := LoadLocal (answer_recovery a) (answer_run a) p in (result, calls, LocalHandle p)
  | RemoteHandle _ => (SuccessExecutionResult, [], RemoteHandle Loaded)
  end.

Definition UnloadHandle (a : PartitionAnswers) (h : PartitionHandle) : ExecutionResult * list PartitionCall * PartitionHandle :=
  match h with
  | LocalHandle p => let '(result, calls, p) := UnloadLocal (answer_stop a) p in (result, calls, LocalHandle p)
  | RemoteHandle _ => (SuccessExecutionResult, [], RemoteHandle Unloaded)
  end.

(** ** Where the operations lead *)

Lemma each_component_all call answer components result calls :
  each_component call answer components = (result, calls) → Successful result = true → calls = call <$> components.
Proof.
  revert result calls. induction components as [|c rest IH]; intros result calls; simpl; [by intros [= <- <-]|].
  destruct (Successful (answer c)) eqn:Hs; simpl.
  - destruct (each_component call answer rest) as [r cs]. intros [= <- <-] Hr. by rewrite (IH r cs).
  - intros [= <- <-]. congruence.
Qed.

(** A load that succeeds has recovered the journal and then run the components, each
    once, in order; one that does not leaves a partition that takes no requests and
    cannot be loaded or unloaded. *)
Lemma LoadLocal_outcomes recovery answer p result calls p' :
  LoadLocal recovery answer p = (result, calls, p') →
  (Successful result = true → partition_state_ p = Initialized ∧ partition_state_ p' = Loaded ∧
     calls = [RunRecoveryMetrics; Recover; StopRecoveryMetrics] ++ (RunComponent <$> start_order)) ∧
  (Successful result = false → p' = p ∨ partition_state_ p' = Loading).
Proof.
  unfold LoadLocal, BeginLoad, compare_exchange. destruct (decide (partition_state_ p = Initialized)) as [Hp|]; last first.
  { simpl. intros [= <- <- <-]. split; [done|by left]. }
  unfold FinishLoad. destruct (RecoverPartition recovery) as [r1 c1] eqn:Hrec.
  destruct (Successful r1) eqn:Hr1; cbn [negb]; last first.
  { intros [= <- <- <-]. rewrite Hr1. split; [done|by right]. }
  destruct (each_component RunComponent answer start_order) as [r2 c2] eqn:Hrun.
  destruct (Successful r2) eqn:Hr2; cbn [negb]; last first.
  { intros [= <- <- <-]. rewrite Hr2. split; [done|by right]. }
  unfold compare_exchange. rewrite decide_True by done. intros [= <- <- <-]. split; [intros _|done]. split_and!; [done|done|].
  rewrite (each_component_all _ _ _ _ _ Hrun Hr2). f_equal. unfold RecoverPartition in Hrec.
  destruct (Successful (run_recovery_metrics recovery)) eqn:?, (Successful (recover_call recovery)) eqn:?,
    (Successful (stop_recovery_metrics recovery)) eqn:?, (Successful (recovered recovery)) eqn:?; simpl in Hrec;
    injection Hrec as <- <-; first [done|congruence].
Qed.

Lemma UnloadLocal_outcomes answer p result calls p' :
  UnloadLocal answer p = (result, calls, p') →
  (Successful result = true → partition_state_ p = Loaded ∧ partition_state_ p' = Unloaded ∧
     calls = StopComponent <$> stop_order) ∧
  (Successful result = false → p' = p ∨ partition_state_ p' = Unloading).
Proof.
  unfold UnloadLocal, BeginUnload, compare_exchange. destruct (decide (partition_state_ p = Loaded)) as [Hp|]; last first.
  { simpl. intros [= <- <- <-]. split; [done|by left]. }
  unfold FinishUnload. destruct (each_component StopComponent answer stop_order) as [r2 c2] eqn:Hrun.
  destruct (Successful r2) eqn:Hr2; cbn [negb]; last first.
  { intros [= <- <- <-]. rewrite Hr2. split; [done|by right]. }
  unfold compare_exchange. rewrite decide_True by done. intros [= <- <- <-]. split; [intros _|done]. split_and!; [done|done|by eapply each_component_all].
Qed.

(** Only a loaded partition calls its transaction manager, and not for a transaction
    with another kind of command. *)
Lemma ExecuteRequest_calls commands answer p result calls p' :
  ExecuteRequest commands answer p = (result, calls, p') →
  CallTransactionManager ∈ calls ↔ partition_state_ p = Loaded ∧ forallb id commands = true.
Proof.
  unfold ExecuteRequest. destruct (bool_decide_reflect (partition_state_ p = Loaded)) as [Hp|Hp]; simpl; last first.
  { intros [= <- <- <-]. rewrite elem_of_nil. naive_solver. }
  assert (∀ i, (set_up_commands i commands).1 = forallb id commands ∧
    CallTransactionManager ∉ (set_up_commands i commands).2) as Hset.
  { induction commands as [|b rest IH]; intros i; simpl; [split; [done|set_solver]|].
    destruct b; simpl; [|split; [done|set_solver]]. specialize (IH (S i)).
    destruct (set_up_commands (S i) rest). simpl in *. split; [apply IH|]. rewrite not_elem_of_cons. naive_solver. }
  destruct (Hset 0%nat) as [Hok Hno]. destruct (set_up_commands 0 commands) as [ok cs]. simpl in *. subst ok.
  destruct (forallb id commands); simpl; intros [= <- <- <-].
  - rewrite elem_of_app, list_elem_of_singleton. naive_solver.
  - naive_solver.
Qed.
