(* ===== verification/PartitionManager.v ===== *)
(** * The partition manager

    Models [cc/pbs/partition_manager/src/pbs_partition_manager.cc]: the partitions this
    instance hosts or knows of, in a concurrent map. A load is given in two parts,
    since the entry is in the map while the partition loads, and as a whole. *)

From S2P Require Import Prelude ExecutionResult ErrorCodes Uuid ConcurrentMap Partition.
From stdpp Require Import options.

(** ** Data *)

Inductive PartitionType := LocalPartition | RemotePartition.

#[export] Instance PartitionType_eq_dec : EqDecision PartitionType.
Proof. solve_decision. Defined.

Record PartitionMetadata := mkMetadata {
  partition_id : PartitionId;
  partition_type : PartitionType;
  partition_address_uri : string;
}.

Record PBSPartitionManagerMapEntry := mkEntry {
  entry_type : PartitionType;
  entry_address : string;
  partition_handle : PartitionHandle;
}.

Definition set_handle (h : PartitionHandle) (e : PBSPartitionManagerMapEntry) :=
  mkEntry (entry_type e) (entry_address e) h.
Definition SetPartitionAddress (address : string) (e : PBSPartitionManagerMapEntry) :=
  mkEntry (entry_type e) address (partition_handle e).

Record PBSPartitionManager := mkPartitionManager {
  is_running_ : bool;
  loaded_partitions_map_ : gmap PartitionId PBSPartitionManagerMapEntry;
}.

Definition with_map m (s : PBSPartitionManager) := mkPartitionManager (is_running_ s) m.

(** An entry that is shared changes for all who hold it. *)
Definition update_entry (id : PartitionId) (f : PBSPartitionManagerMapEntry → PBSPartitionManagerMapEntry)
    (s : PBSPartitionManager) : PBSPartitionManager :=
  with_map (alter f id (loaded_partitions_map_ s)) s.

Definition erase_partition (id : PartitionId) (s : PBSPartitionManager) : PBSPartitionManager :=
  with_map (Erase (loaded_partitions_map_ s) id).2 s.

Definition manager_not_running : ExecutionResult := FailureExecutionResult SC_PBS_PARTITION_MANAGER_NOT_RUNNING.

(** ** Life cycle *)

(** [bucket]: the configuration's name of the journal's bucket. *)
Definition InitPartitionManager (bucket : ExecutionResult) (s : PBSPartitionManager) : ExecutionResult :=
  if is_running_ s then FailureExecutionResult SC_PBS_PARTITION_MANAGER_ALREADY_RUNNING
  else if negb (Successful bucket) then bucket
  else SuccessExecutionResult.

Definition RunPartitionManager (s : PBSPartitionManager) : ExecutionResult * PBSPartitionManager :=
  if is_running_ s then (FailureExecutionResult SC_PBS_PARTITION_MANAGER_ALREADY_RUNNING, s)
  else (SuccessExecutionResult, mkPartitionManager true (loaded_partitions_map_ s)).

(** A round of the loop of [Stop] over the keys: the first failure that is not of
    another thread's unload ends it. *)
Fixpoint stop_round (answers : PartitionId → PartitionAnswers) (ids : list PartitionId) (s : PBSPartitionManager)
  : ExecutionResult * list (PartitionId * PartitionCall) * PBSPartitionManager :=
  match ids with
  | [] => (SuccessExecutionResult, [], s)
  | id :: rest =>
      match (Find (loaded_partitions_map_ s) id).2 with
      | None => stop_round answers rest s
      | Some e =>
          let '(result, calls, h) :=
            if decide (GetPartitionState (partition_handle e) = Loaded) then UnloadHandle (answers id) (partition_handle e)
            else (SuccessExecutionResult, [], partition_handle e) in
          let s := update_entry id (set_handle h) s in
          if negb (Successful result)
             && negb (result_eqb result (FailureExecutionResult SC_PBS_PARTITION_CANNOT_UNLOAD))
          then (result, (λ c, (id, c)) <$> calls, s)
          else
            let s := if decide (GetPartitionState h = Unloaded) then erase_partition id s else s in
            let '(result, more, s) := stop_round answers rest s in
            (result, ((λ c, (id, c)) <$> calls) ++ more, s)
      end
  end.

(** [Stop] up to its loop. *)
Definition BeginStop (s : PBSPartitionManager) : option ExecutionResult * PBSPartitionManager :=
  if negb (is_running_ s) then (Some manager_not_running, s)
  else (None, mkPartitionManager false (loaded_partitions_map_ s)).

(** The loop, for as many rounds as [fuel]; other threads do nothing meanwhile.
    [None]: it is still going on. *)
Fixpoint stop_rounds (fuel : nat) (answers : PartitionId → PartitionAnswers) (s : PBSPartitionManager)
  : option (ExecutionResult * list (PartitionId * PartitionCall) * PBSPartitionManager) :=
  let '(_, ids) := Keys (loaded_partitions_map_ s) in
  match ids, fuel with
  | [], _ => Some (SuccessExecutionResult, [], s)
  | _, O => None
  | _, S fuel =>
      let '(result, calls, s) := stop_round answers ids s in
      if negb (Successful result) then Some (result, calls, s)
      else
        '(result, more, s) ← stop_rounds fuel answers s;
        Some (result, calls ++ more, s)
  end.

(** ** Partitions *)

Definition ConstructPBSPartition (id : PartitionId) (t : PartitionType) : PartitionHandle :=
  match t with
  | RemotePartition => RemoteHandle Created
  | LocalPartition => LocalHandle (NewPBSPartition id)
  end.

(** Up to the insertion. *)
Definition BeginLoadPartition (m : PartitionMetadata) (s : PBSPartitionManager)
  : option ExecutionResult * PBSPartitionManager :=
  if negb (is_running_ s) then (Some manager_not_running, s)
  else
    let e := mkEntry (partition_type m) (partition_address_uri m)
               (ConstructPBSPartition (partition_id m) (partition_type m)) in
    let '(result, _, map) := Insert (loaded_partitions_map_ s) (partition_id m, e) in
    (if negb (Successful result) then Some result else None, with_map map s).

(** From the second test on; [h] is the partition this thread has made. *)
Definition FinishLoadPartition (a : PartitionAnswers) (id : PartitionId) (h : PartitionHandle) (s : PBSPartitionManager)
  : ExecutionResult * list PartitionCall * PBSPartitionManager :=
  if negb (is_running_ s) then (SuccessExecutionResult, [], erase_partition id s)
  else
    let '(result, calls, h) := InitHandle a h in
    if negb (Successful result) then
      (FailureExecutionResult SC_PBS_PARTITION_LOAD_FAILURE, calls, erase_partition id s)
    else
      let '(result, more, h) := LoadHandle a h in
      if negb (Successful result) then
        (FailureExecutionResult SC_PBS_PARTITION_LOAD_FAILURE, calls ++ more, erase_partition id s)
      else (SuccessExecutionResult, calls ++ more, update_entry id (set_handle h) s).

Definition LoadPartition (a : PartitionAnswers) (m : PartitionMetadata) (s : PBSPartitionManager)
  : ExecutionResult * list PartitionCall * PBSPartitionManager :=
  let '(refused, s) := BeginLoadPartition m s in
  match refused with
  | Some result => (result, [], s)
  | None => FinishLoadPartition a (partition_id m) (ConstructPBSPartition (partition_id m) (partition_type m)) s
  end.

(** Only the id of the metadata is looked at. *)
Definition UnloadPartition (a : PartitionAnswers) (id : PartitionId) (s : PBSPartitionManager)
  : ExecutionResult * list PartitionCall * PBSPartitionManager :=
  if negb (is_running_ s) then (manager_not_running, [], s)
  else
    match Find (loaded_partitions_map_ s) id with
    | (_, Some e) =>
        let '(result, calls, h) := UnloadHandle a (partition_handle e) in
        let s := update_entry id (set_handle h) s in
        if negb (Successful result) then (FailureExecutionResult SC_PBS_PARTITION_UNLOAD_FAILURE, calls, s)
        else
          let '(result, map) := Erase (loaded_partitions_map_ s) id in
          (result, calls, with_map map s)
    | (result, None) => (result, [], s)
    end.

Definition RefreshPartitionAddress (m : PartitionMetadata) (s : PBSPartitionManager) : ExecutionResult * PBSPartitionManager :=
  if negb (is_running_ s) then (manager_not_running, s)
  else
    match Find (loaded_partitions_map_ s) (partition_id m) with
    | (_, Some e) =>
        if negb (bool_decide (entry_type e = partition_type m)) then
          (FailureExecutionResult SC_PBS_PARTITION_MANAGER_INVALID_REQUEST, s)
        else (SuccessExecutionResult, update_entry (partition_id m) (SetPartitionAddress (partition_address_uri m)) s)
    | (result, None) => (result, s)
    end.

(** [GetPartition], [GetPBSPartition], [GetPartitionAddress] and [GetPartitionType]
    give a part of the entry. *)
Definition GetEntry {A} (part : PBSPartitionManagerMapEntry → A) (id : PartitionId) (s : PBSPartitionManager)
  : ExecutionResult + A :=
  if negb (is_running_ s) then inl manager_not_running
  else
    match Find (loaded_partitions_map_ s) id with
    | (_, Some e) => inr (part e)
    | (result, None) => inl result
    end.

Definition GetPBSPartition := GetEntry partition_handle.
Definition GetPartitionAddress := GetEntry entry_address.
Definition GetPartitionType := GetEntry entry_type.

(** ** What loading and unloading do to the map *)

Definition partition_at (id : PartitionId) (s : PBSPartitionManager) : option PBSPartitionManagerMapEntry :=
  loaded_partitions_map_ s !! id.

Lemma GetEntry_inr {A} (part : PBSPartitionManagerMapEntry → A) id s a :
  GetEntry part id s = inr a ↔ is_running_ s = true ∧ ∃ e, partition_at id s = Some e ∧ part e = a.
Proof.
  unfold GetEntry, partition_at, Find. destruct (is_running_ s); simpl; [|naive_solver].
  destruct (loaded_partitions_map_ s !! id); naive_solver.
Qed.

(** The state of the partition agrees with its entry: a local one has its id. *)
Definition entry_ok (id : PartitionId) (e : PBSPartitionManagerMapEntry) : Prop :=
  match entry_type e, partition_handle e with
  | LocalPartition, LocalHandle p => partition_id_ p = id
  | RemotePartition, RemoteHandle _ => True
  | _, _ => False
  end.

(** A load leaves a loaded partition of the kind asked for, or no partition; other
    partitions are as they were. *)
Lemma LoadPartition_outcomes a m s result calls s' :
  LoadPartition a m s = (result, calls, s') → is_running_ s = true →
  is_running_ s' = true ∧ (∀ id, id ≠ partition_id m → partition_at id s' = partition_at id s) ∧
  match partition_at (partition_id m) s with
  | Some e => result = FailureExecutionResult SC_CONCURRENT_MAP_ENTRY_ALREADY_EXISTS ∧ s' = s
  | None =>
      (Successful result = true ∧ ∃ h, partition_at (partition_id m) s' =
         Some (mkEntry (partition_type m) (partition_address_uri m) h) ∧ GetPartitionState h = Loaded) ∨
      (result = FailureExecutionResult SC_PBS_PARTITION_LOAD_FAILURE ∧ partition_at (partition_id m) s' = None)
  end.
Proof.
  destruct s as [running map]. unfold LoadPartition, BeginLoadPartition, partition_at. simpl. intros Hl ->. simpl in Hl.
  unfold Insert in Hl. simpl in Hl. destruct (map !! partition_id m) as [e|] eqn:He.
  { simpl in Hl. injection Hl as <- <- <-. done. }
  simpl in Hl. unfold FinishLoadPartition in Hl. simpl in Hl.
  destruct (InitHandle a (ConstructPBSPartition _ _)) as [[r1 c1] h1] eqn:Hi.
  destruct (Successful r1) eqn:Hr1; simpl in Hl; last first.
  { injection Hl as <- <- <-. unfold erase_partition, Erase. simpl. split_and!; [done| |right].
    - intros id Hne. by rewrite lookup_delete_ne, lookup_insert_ne.
    - split; [done|apply lookup_delete_eq]. }
  destruct (LoadHandle a h1) as [[r2 c2] h2] eqn:Hlo.
  destruct (Successful r2) eqn:Hr2; simpl in Hl; last first.
  { injection Hl as <- <- <-. unfold erase_partition, Erase. simpl. split_and!; [done| |right].
    - intros id Hne. by rewrite lookup_delete_ne, lookup_insert_ne.
    - split; [done|apply lookup_delete_eq]. }
  injection Hl as <- <- <-. unfold update_entry. simpl. split_and!; [done| |left].
  - intros id Hne. by rewrite lookup_alter_ne, lookup_insert_ne.
  - split; [done|]. exists h2. split; [by rewrite lookup_alter, lookup_insert_eq, decide_True by done|].
    destruct h1 as [p|p]; simpl in Hlo.
    + destruct (LoadLocal (answer_recovery a) (answer_run a) p) as [[r c] p'] eqn:Hp. simplify_eq.
      by apply LoadLocal_outcomes in Hp as [[_ [? _]] _].
    + by simplify_eq.
Qed.

(** An unload that succeeds leaves no partition, and one that fails leaves it. *)
Lemma UnloadPartition_outcomes a id s result calls s' :
  UnloadPartition a id s = (result, calls, s') → is_running_ s = true →
  is_running_ s' = true ∧ (∀ i, i ≠ id → partition_at i s' = partition_at i s) ∧
  match partition_at id s with
  | None => result = FailureExecutionResult SC_CONCURRENT_MAP_ENTRY_DOES_NOT_EXIST ∧ s' = s
  | Some e =>
      (Successful result = true ∧ partition_at id s' = None) ∨
      (result = FailureExecutionResult SC_PBS_PARTITION_UNLOAD_FAILURE ∧ is_Some (partition_at id s'))
  end.
Proof.
  destruct s as [running map]. unfold UnloadPartition, partition_at, Find. simpl. intros Hu ->. simpl in Hu.
  destruct (map !! id) as [e|] eqn:He; last first. { injection Hu as <- <- <-. done. }
  destruct (UnloadHandle a (partition_handle e)) as [[r c] h] eqn:Hh.
  destruct (Successful r) eqn:Hr; simpl in Hu; last first.
  { injection Hu as <- <- <-. unfold update_entry. simpl. split_and!; [done| |right].
    - intros i Hi. by rewrite lookup_alter_ne.
    - split; [done|]. rewrite lookup_alter, decide_True, He by done. by eexists. }
  unfold Erase in Hu. simpl in Hu. rewrite lookup_alter, decide_True, He in Hu by done. simpl in Hu.
  injection Hu as <- <- <-. simpl. split_and!; [done| |left; split; [done|apply lookup_delete_eq]].
  intros i Hi. by rewrite lookup_delete_ne, lookup_alter_ne.
Qed.

(** A new address leaves the types of all partitions. *)
Lemma RefreshPartitionAddress_effect m s result s' : RefreshPartitionAddress m s = (result, s') →
  (∀ i, i ≠ partition_id m → partition_at i s' = partition_at i s) ∧
  (entry_type <$> partition_at (partition_id m) s' = entry_type <$> partition_at (partition_id m) s) ∧
  (Successful result = false → s' = s).
Proof.
  destruct s as [running map]. unfold RefreshPartitionAddress, Find, partition_at. simpl.
  destruct running; simpl; [|by intros [= <- <-]].
  destruct (map !! partition_id m) as [e|] eqn:He; simpl; [|by intros [= <- <-]; simpl; rewrite He].
  destruct (bool_decide _); simpl; intros [= <- <-]; simpl; [|by rewrite He].
  rewrite lookup_alter, decide_True, He by done. split; [|done]. intros i Hi. by rewrite lookup_alter_ne.
Qed.

(** ** The end of [Stop] *)

(** A partition that is neither loaded nor unloaded, which the loop of [Stop] leaves
    to another thread. *)
Definition stuck (id : PartitionId) (s : PBSPartitionManager) : Prop :=
  ∃ e, partition_at id s = Some e ∧ GetPartitionState (partition_handle e) ≠ Loaded ∧
    GetPartitionState (partition_handle e) ≠ Unloaded.

Lemma stuck_other id i f s : id ≠ i → stuck id s → stuck id (update_entry i f s) ∧ stuck id (erase_partition i s).
Proof.
  unfold stuck, partition_at, update_entry, erase_partition, Erase. simpl. intros Hne Hs.
  rewrite lookup_alter_ne, lookup_delete_ne by done. done.
Qed.

Lemma stop_round_stuck answers ids id s : stuck id s → stuck id (stop_round answers ids s).2.
Proof.
  revert s. induction ids as [|i ids IH]; intros s Hs; simpl; [done|].
  destruct (Find (loaded_partitions_map_ s) i).2 as [e|] eqn:Hf; [|by apply IH].
  destruct (decide (i = id)) as [->|Hne].
  - destruct Hs as (e' & He & Hl & Hu). assert (e' = e) as ->.
    { unfold partition_at in He. unfold Find in Hf. simpl in Hf. rewrite He in Hf. simpl in Hf. congruence. }
    rewrite decide_False by done. simpl. rewrite decide_False by done.
    destruct (stop_round answers ids _) as [[r c] s'] eqn:Hr. simpl. change s' with (r, c, s').2. rewrite <- Hr. apply IH.
    exists (set_handle (partition_handle e) e). unfold partition_at, update_entry. simpl.
    rewrite lookup_alter, decide_True by done. unfold partition_at in He. by rewrite He.
  - destruct (if decide _ then _ else _) as [[r c] h].
    pose proof (stuck_other id i (set_handle h) s ltac:(done) Hs) as [Hs' _].
    destruct (_ && _); [done|].
    destruct (stop_round answers ids _) as [[r' c'] s'] eqn:Hr. simpl. change s' with (r', c', s').2. rewrite <- Hr. apply IH.
    destruct (decide _); [|done]. by apply (stuck_other id i (set_handle h)).
Qed.

Lemma stuck_in_keys id s : stuck id s → (Keys (loaded_partitions_map_ s)).2 ≠ [].
Proof.
  intros (e & He & _) Hnil. unfold Keys in Hnil. simpl in Hnil. apply fmap_nil_inv, map_to_list_empty_iff in Hnil.
  unfold partition_at in He. by rewrite Hnil, lookup_empty in He.
Qed.

Lemma stop_rounds_stuck fuel answers id s : stuck id s →
  match stop_rounds fuel answers s with Some (result, _, _) => Successful result = false | None => True end.
Proof.
  revert s. induction fuel as [|fuel IH]; intros s Hs; pose proof (stuck_in_keys id s Hs) as Hids; cbn [stop_rounds];
    destruct (Keys (loaded_partitions_map_ s)) as [r [|i ids]]; try done.
  pose proof (stop_round_stuck answers (i :: ids) id s Hs) as Hs'.
  destruct (stop_round answers (i :: ids) s) as [[r' c'] s']. destruct (Successful r') eqn:Hr'; cbn [negb]; [|done].
  specialize (IH s' Hs'). destruct (stop_rounds fuel answers s') as [[[? ?] ?]|]; done.
Qed.

(** What the entries must be for [Stop] to end in a round: loaded, with components
    that stop. *)
Definition unloads (a : PartitionAnswers) (h : PartitionHandle) : Prop :=
  GetPartitionState h = Loaded ∧ Successful (UnloadHandle a h).1.1 = true.

Lemma stop_round_unloads answers ids s :
  (∀ id e, partition_at id s = Some e → id ∈ ids ∧ unloads (answers id) (partition_handle e)) → NoDup ids →
  Successful (stop_round answers ids s).1.1 = true ∧ loaded_partitions_map_ (stop_round answers ids s).2 = ∅.
Proof.
  revert s. induction ids as [|i ids IH]; intros s Hall Hnd; simpl.
  { split; [done|]. apply map_eq. intros id. rewrite lookup_empty. destruct (loaded_partitions_map_ s !! id) as [e|] eqn:He; [|done].
    destruct (Hall id e He) as [Hin _]. by apply elem_of_nil in Hin. }
  apply NoDup_cons in Hnd as [Hni Hnd]. unfold Find. simpl.
  destruct (loaded_partitions_map_ s !! i) as [e|] eqn:He; simpl; last first.
  { apply IH; [|done]. intros id e' He'. destruct (Hall id e' He') as [Hin Hu]. split; [|done].
    apply elem_of_cons in Hin as [->|?]; [|done]. unfold partition_at in He'. congruence. }
  destruct (Hall i e He) as [_ [Hl Hs]]. rewrite decide_True by done.
  destruct (UnloadHandle (answers i) (partition_handle e)) as [[r c] h] eqn:Hh. simpl in Hs. rewrite Hs. simpl.
  assert (GetPartitionState h = Unloaded) as Hun.
  { destruct (partition_handle e) as [p|p]; simpl in Hh; [|by simplify_eq].
    destruct (UnloadLocal (answer_stop (answers i)) p) as [[r' c'] p'] eqn:Hp. simplify_eq.
    apply UnloadLocal_outcomes in Hp as [Hp _]. by destruct (Hp Hs) as (_ & ? & _). }
  rewrite decide_True by done.
  specialize (IH (erase_partition i (update_entry i (set_handle h) s))).
  destruct (stop_round answers ids _) as [[r' c'] s']. apply IH; [|done].
  intros id e'. unfold partition_at, erase_partition, update_entry, Erase. simpl. destruct (decide (id = i)) as [->|Hne].
  { by rewrite lookup_delete_eq. }
  rewrite lookup_delete_ne, lookup_alter_ne by done. intros He'. destruct (Hall id e' He') as [Hin Hu]. split; [|done].
  by apply elem_of_cons in Hin as [?|?].
Qed.

(** An unload that fails in its work leaves the partition [Unloading]. *)
Lemma failed_unload_stuck a id e p s :
  is_running_ s = true → partition_at id s = Some e → partition_handle e = LocalHandle p →
  partition_state_ p = Loaded → Successful (UnloadPartition a id s).1.1 = false →
  stuck id (BeginStop (UnloadPartition a id s).2).2.
Proof.
  intros Hrun He Hp Hst Hf.
  unfold UnloadPartition in *. rewrite Hrun in *. unfold partition_at in He. unfold Find in *. simpl in *. rewrite He in *. simpl in *.
  rewrite Hp in *. destruct (UnloadHandle a (LocalHandle p)) as [[r c] h] eqn:Hh. destruct (Successful r) eqn:Hr; simpl in *.
  { unfold Erase in *. simpl in *. rewrite lookup_alter, decide_True, He in * by done. done. }
  unfold stuck, BeginStop, partition_at, update_entry. simpl. rewrite Hrun. simpl. rewrite lookup_alter, decide_True, He by done.
  exists (set_handle h e). split; [done|]. simpl. simpl in Hh.
  destruct (UnloadLocal (answer_stop a) p) as [[r' c'] p'] eqn:Hu. simplify_eq.
  assert (partition_state_ p' = Unloading) as Hun.
  { unfold UnloadLocal, BeginUnload, compare_exchange, FinishUnload in Hu. rewrite decide_True in Hu by done.
    destruct (each_component StopComponent (answer_stop a) stop_order) as [r2 c2].
    destruct (Successful r2) eqn:Hr2; simpl in Hu; [|by simplify_eq].
    unfold compare_exchange in Hu. simpl in Hu. simplify_eq. }
  simpl. by rewrite Hun.
Qed.

(** C21: [Stop] ends after one round with no partitions when all are loaded and their
    components stop. After an unload that failed in its work it does not: the
    partition stays [Unloading], every round leaves it to the thread that is taken to
    unload it, and no number of rounds gives a success. *)
Theorem Stop_waits_for_unloads answers s :
  ((∀ id e, partition_at id s = Some e → unloads (answers id) (partition_handle e)) →
     ∃ result calls s', stop_rounds 1 answers (BeginStop s).2 = Some (result, calls, s') ∧
       Successful result = true ∧ loaded_partitions_map_ s' = ∅) ∧
  (∀ a id e p fuel, is_running_ s = true → partition_at id s = Some e → partition_handle e = LocalHandle p →
     partition_state_ p = Loaded → Successful (UnloadPartition a id s).1.1 = false →
     match stop_rounds fuel answers (BeginStop (UnloadPartition a id s).2).2 with
     | Some (result, _, _) => Successful result = false
     | None => True
     end).
Proof.
  split.
  - intros Hall. set (s0 := (BeginStop s).2).
    assert (∀ id, partition_at id s0 = partition_at id s) as Hat by (intros id; unfold s0, BeginStop; by destruct (is_running_ s)).
    destruct (stop_round_unloads answers (Keys (loaded_partitions_map_ s0)).2 s0) as [Hs Hm].
    + intros id e He. split; [|apply Hall; by rewrite <- Hat]. unfold Keys. simpl. apply list_elem_of_fmap.
      exists (id, e). split; [done|]. by apply elem_of_map_to_list.
    + unfold Keys. simpl. apply NoDup_fst_map_to_list.
    + cbn [stop_rounds]. destruct (Keys (loaded_partitions_map_ s0)) as [r [|i ids]] eqn:Hk.
      { exists SuccessExecutionResult, [], s0. split_and!; [done|done|]. done. }
      cbn [snd] in Hs, Hm. destruct (stop_round answers (i :: ids) s0) as [[r' c'] s']. cbn [fst snd] in Hs, Hm. rewrite Hs. cbn [negb].
      assert (Keys (loaded_partitions_map_ s') = (SuccessExecutionResult, [])) as ->.
      { rewrite Hm. unfold Keys. simpl. by rewrite map_to_list_empty. }
      by exists SuccessExecutionResult, (c' ++ []), s'.
  - intros a id e p fuel Hrun He Hp Hst Hf. apply (stop_rounds_stuck fuel answers id). by eapply failed_unload_stuck.
Qed.

(** ** An example: a partition whose budget key provider does not stop *)

Definition example_partition : PBSPartitionManagerMapEntry :=
  mkEntry LocalPartition EmptyString (LocalHandle (mkPartition (mkUuid 0 1) Loaded 0)).
Definition example_manager : PBSPartitionManager := mkPartitionManager true {[mkUuid 0 1 := example_partition]}.
Definition all_succeed : PartitionAnswers :=
  mkAnswers (λ _, SuccessExecutionResult)
    (mkRecovery SuccessExecutionResult SuccessExecutionResult SuccessExecutionResult SuccessExecutionResult)
    (λ _, SuccessExecutionResult) (λ _, SuccessExecutionResult).
Definition provider_does_not_stop : PartitionAnswers :=
  mkAnswers (answer_init all_succeed) (answer_recovery all_succeed) (answer_run all_succeed)
    (λ c, if decide (c = budget_key_provider_) then FailureExecutionResult 1 else SuccessExecutionResult).

Lemma Stop_waits_for_unloads_witness :
  (∃ result calls s', stop_rounds 1 (λ _, all_succeed) (BeginStop example_manager).2 = Some (result, calls, s') ∧
     Successful result = true ∧ loaded_partitions_map_ s' = ∅) ∧
  match stop_rounds 7 (λ _, all_succeed)
          (BeginStop (UnloadPartition provider_does_not_stop (mkUuid 0 1) example_manager).2).2 with
  | Some (result, _, _) => Successful result = false
  | None => True
  end.
Proof.
  destruct (Stop_waits_for_unloads (λ _, all_succeed) example_manager) as [H1 H2]. split.
  - apply H1. intros id e He. unfold partition_at in He. simpl in He.
    apply lookup_singleton_Some in He as [_ <-]. done.
  - exact (H2 provider_does_not_stop (mkUuid 0 1) example_partition (mkPartition (mkUuid 0 1) Loaded 0) 7%nat
      eq_refl eq_refl eq_refl eq_refl eq_refl).
Defined.
