(* ===== verification/PartitionRouting.v ===== *)
(** * Routing requests to partitions

    Models [cc/pbs/partition_namespace], [partition_request_router] and
    [budget_key_resolver]: the partition of a resource, the HTTP server's choice of
    an endpoint for a request, and the front end's calls of the partition that is to
    execute a request. [std::hash] of a resource is a parameter. *)

From S2P Require Import Prelude ExecutionResult ErrorCodes Uuid ConcurrentMap TransactionPhases TransactionLog.
From S2P Require Import TransactionCommandSerializer FrontEndUtils FrontEndService Partition PartitionManager.
From stdpp Require Import options.

Local Open Scope Z_scope.

(** ** The namespace *)

Definition ResourceId : Type := string.

(** The constructor asserts that there is a partition. *)
Record PBSPartitionNamespace := mkNamespace {
  first_partition : PartitionId;
  other_partitions : list PartitionId;
}.

Definition GetPartitions (ns : PBSPartitionNamespace) : list PartitionId := first_partition ns :: other_partitions ns.

(** The budget keys of all resources are local. *)
Inductive BudgetKeyLocation := LocationUnknown | Local | Remote.

Definition ResolveBudgetKey : ExecutionResult * ExecutionResult * BudgetKeyLocation :=
  (SuccessExecutionResult, SuccessExecutionResult, Local).

Definition kLocalPartitionAddressUri : string := EmptyString.

Record RequestRouteEndpointInfo := mkEndpoint {
  uri : string;
  is_local_endpoint : bool;
}.

Section routing.
  Context (resource_hasher_ : ResourceId → Z) (ns : PBSPartitionNamespace).

Definition MapResourceToPartition (resource : ResourceId) : PartitionId :=
  nth (Z.to_nat (resource_hasher_ resource mod Z.of_nat (length (GetPartitions ns)))) (GetPartitions ns) (first_partition ns).

Lemma MapResourceToPartition_in resource : MapResourceToPartition resource ∈ GetPartitions ns.
Proof.
  unfold MapResourceToPartition. apply list_elem_of_In, nth_In.
  pose proof (Z.mod_pos_bound (resource_hasher_ resource) (Z.of_nat (length (GetPartitions ns)))) as Hm.
  unfold GetPartitions in *. simpl length in *. lia.
Qed.

(** ** The route of a request *)

Definition missing_routing_id : ExecutionResult := FailureExecutionResult SC_PBS_TRANSACTION_REQUEST_ROUTER_MISSING_ROUTING_ID.
Definition partition_unavailable : ExecutionResult :=
  FailureExecutionResult SC_PBS_TRANSACTION_REQUEST_ROUTER_PARTITION_UNAVAILABLE.

Definition ExtractResourceId (remote_coordinator_claimed_identity_ : string) (request : HttpRequest)
  : ExecutionResult + ResourceId :=
  match request_headers request with
  | None => inl missing_routing_id
  | Some headers =>
      match find_header kClaimedIdentityHeader headers with
      | None => inl missing_routing_id
      | Some claimed_identity =>
          if bool_decide (claimed_identity = remote_coordinator_claimed_identity_) then
            match find_header kTransactionOriginHeader headers with
            | None => inl missing_routing_id
            | Some origin => inr origin
            end
          else inr claimed_identity
      end
  end.

Definition ResolveRoute (remote_coordinator_claimed_identity_ : string) (s : PBSPartitionManager) (request : HttpRequest)
  : ExecutionResult + RequestRouteEndpointInfo :=
  match ExtractResourceId remote_coordinator_claimed_identity_ request with
  | inl _ => inl missing_routing_id
  | inr resource_id =>
      match GetPartitionAddress (MapResourceToPartition resource_id) s with
      | inl _ => inl partition_unavailable
      | inr address => inr (mkEndpoint address (bool_decide (address = kLocalPartitionAddressUri)))
      end
  end.

(** ** The partition that executes a request *)

(** What the transaction manager of a partition answers. *)
Context (managers : PartitionId → TransactionRequestRouter).

Definition is_consume_budget_command (c : TransactionCommand) : bool :=
  match c with ConsumeCommand _ => true | _ => false end.

(** The three calls of [PBSPartitionInterface] that answer one request. *)
Definition forward (answer : ExecutionResult) (h : PartitionHandle) : ExecutionResult * PartitionHandle :=
  match h with
  | LocalHandle p => let '(result, _, p) := ForwardRequest answer p in (result, LocalHandle p)
  | RemoteHandle p => (remote_request, RemoteHandle p)
  end.

Definition forward_transaction (commands : list TransactionCommand) (answer : ExecutionResult) (h : PartitionHandle)
  : ExecutionResult * PartitionHandle :=
  match h with
  | LocalHandle p =>
      let '(result, _, p) := ExecuteRequest (is_consume_budget_command <$> commands) answer p in (result, LocalHandle p)
  | RemoteHandle p => (remote_request, RemoteHandle p)
  end.

Definition GetPartition (resource_id : ResourceId) (s : PBSPartitionManager) : ExecutionResult + PartitionHandle :=
  GetPBSPartition (MapResourceToPartition resource_id) s.

(** The partition of [origin] is called. *)
Definition call_partition (origin : string) (call : PartitionHandle → ExecutionResult * PartitionHandle)
    (s : PBSPartitionManager) : ExecutionResult * PBSPartitionManager :=
  match GetPartition origin s with
  | inl _ => (partition_unavailable, s)
  | inr h => let '(result, h) := call h in (result, update_entry (MapResourceToPartition origin) (set_handle h) s)
  end.

(** The requests to execute a transaction and a phase must name an origin. *)
Definition with_origin (origin : option string) (call : string → PartitionHandle → ExecutionResult * PartitionHandle)
    (s : PBSPartitionManager) : ExecutionResult * PBSPartitionManager :=
  match origin with
  | Some (String _ _ as origin) => call_partition origin (call origin) s
  | _ => (missing_routing_id, s)
  end.

Definition manager_of (origin : string) : TransactionRequestRouter := managers (MapResourceToPartition origin).

Definition ExecuteTransaction (rq : TransactionRequest TransactionCommand) (s : PBSPartitionManager)
  : ExecutionResult * PBSPartitionManager :=
  with_origin (request_transaction_origin rq)
    (λ origin, forward_transaction (commands rq) (Execute (manager_of origin) rq)) s.

Definition ExecutePhaseRequest (rq : TransactionPhaseRequest) (s : PBSPartitionManager)
  : ExecutionResult * PBSPartitionManager :=
  with_origin (phase_transaction_origin rq) (λ origin, forward (ExecutePhase (manager_of origin) rq)) s.

(** [None]: an origin that is a null pointer is read. *)
Definition ExecuteStatus (rq : GetTransactionStatusRequest) (s : PBSPartitionManager)
  : option (ExecutionResult * PBSPartitionManager) :=
  origin ← status_transaction_origin rq;
  Some (call_partition origin (forward (GetStatus (manager_of origin) rq)) s).

(** [RemotePBSPartition::GetTransactionManagerStatus] leaves the count. *)
Fixpoint add_pending (ids : list PartitionId) (pending_transactions_count : Z) (s : PBSPartitionManager)
  : ExecutionResult * Z * PBSPartitionManager :=
  match ids with
  | [] => (SuccessExecutionResult, pending_transactions_count, s)
  | id :: rest =>
      match GetPBSPartition id s with
      | inl result =>
          if result_eqb result (FailureExecutionResult SC_CONCURRENT_MAP_ENTRY_DOES_NOT_EXIST)
          then add_pending rest pending_transactions_count s
          else (result, pending_transactions_count, s)
      | inr h =>
          let '(answer, count) := GetTransactionManagerStatus (managers id) in
          let '(result, h) := forward answer h in
          let s := update_entry id (set_handle h) s in
          if negb (Successful result) then (result, pending_transactions_count, s)
          else add_pending rest (u64 (pending_transactions_count + count)) s
      end
  end.

(** The response's count is set by a success only. *)
Definition ExecuteManagerStatus (s : PBSPartitionManager) : ExecutionResult * option Z * PBSPartitionManager :=
  let '(result, count, s) := add_pending (GetPartitions ns) 0 s in
  (result, if Successful result then Some count else None, s).

(** ** The route and the partition agree *)

(** The request names itself as the origin it is authorized for, and the remote
    coordinator's names the origin it forwards. *)
Definition identities_agree (remote_coordinator_claimed_identity_ : string) (headers : HttpHeaders) (domain : string) : Prop :=
  match find_header kClaimedIdentityHeader headers, find_header kTransactionOriginHeader headers with
  | None, _ => False
  | Some claimed, None => claimed ≠ remote_coordinator_claimed_identity_ ∧ claimed = domain ∧ domain ≠ EmptyString
  | Some claimed, Some origin =>
      origin ≠ EmptyString ∧ (claimed = remote_coordinator_claimed_identity_ ∨ claimed = origin)
  end.

Lemma resource_of_request remote headers request :
  request_headers request = Some headers → identities_agree remote headers (authorized_domain request) →
  ExtractResourceId remote request = inr (ObtainTransactionOrigin headers request) ∧
  ObtainTransactionOrigin headers request ≠ EmptyString.
Proof.
  unfold ExtractResourceId, identities_agree, ObtainTransactionOrigin, ExtractTransactionOrigin, required_header. intros ->.
  destruct (find_header kClaimedIdentityHeader headers) as [claimed|]; [|done].
  destruct (find_header kTransactionOriginHeader headers) as [origin|].
  - intros [Ho Hc]. rewrite (bool_decide_false (origin = EmptyString)) by done. simpl. split; [|done].
    case_bool_decide; [done|]. by destruct Hc as [?| ->].
  - intros (Hr & -> & Hd). rewrite bool_decide_false by done. done.
Qed.

(** C22: a request that the HTTP server routes to this instance, because its resource's
    partition is one the manager has at the local address, is executed by that
    partition when the front end passes it on: the router finds the entry the
    route was resolved with and gives the transaction to it, as it does a phase. *)
Theorem routed_here_is_executed_here remote headers request s endpoint :
  request_headers request = Some headers → identities_agree remote headers (authorized_domain request) →
  ResolveRoute remote s request = inr endpoint → is_local_endpoint endpoint = true →
  let origin := ObtainTransactionOrigin headers request in
  ∃ e, partition_at (MapResourceToPartition origin) s = Some e ∧ entry_address e = kLocalPartitionAddressUri ∧
    (∀ rq, request_transaction_origin rq = Some origin →
       (ExecuteTransaction rq s).1 =
         (forward_transaction (commands rq) (Execute (manager_of origin) rq) (partition_handle e)).1) ∧
    (∀ rq, phase_transaction_origin rq = Some origin →
       (ExecutePhaseRequest rq s).1 = (forward (ExecutePhase (manager_of origin) rq) (partition_handle e)).1) ∧
    (∀ rq, status_transaction_origin rq = Some origin →
       fst <$> ExecuteStatus rq s = Some (forward (GetStatus (manager_of origin) rq) (partition_handle e)).1).
Proof using managers.
  intros Hh Hagree Hr Hlocal origin. destruct (resource_of_request _ _ _ Hh Hagree) as [He Hne].
  unfold ResolveRoute in Hr. rewrite He in Hr. fold origin in Hr, Hne.
  destruct (GetPartitionAddress (MapResourceToPartition origin) s) as [?|address] eqn:Ha; [done|].
  apply GetEntry_inr in Ha as (Hrun & e & Hat & Hadd). simplify_eq/=. apply bool_decide_eq_true in Hlocal.
  exists e. assert (GetPartition origin s = inr (partition_handle e)) as Hg by (apply GetEntry_inr; naive_solver).
  assert (∀ call, (call_partition origin call s).1 = (call (partition_handle e)).1) as Hcall.
  { intros call. unfold call_partition. rewrite Hg. by destruct (call (partition_handle e)). }
  split_and!; [done|done|intros rq Hrq..].
  - unfold ExecuteTransaction, with_origin. rewrite Hrq. destruct origin as [|c o]; [done|]. apply Hcall.
  - unfold ExecutePhaseRequest, with_origin. rewrite Hrq. destruct origin as [|c o]; [done|]. apply Hcall.
  - unfold ExecuteStatus. rewrite Hrq. simpl. by rewrite Hcall.
Qed.

(** A remote partition among those the manager knows fails the status of all. *)
Lemma remote_partition_fails_status ids count id p e s :
  is_running_ s = true → id ∈ ids → partition_at id s = Some e → partition_handle e = RemoteHandle p →
  Successful (add_pending ids count s).1.1 = false.
Proof using managers.
  intros Hrun Hin Hat Hrem. revert count s e Hrun Hat Hrem. induction ids as [|i ids IH]; intros count s e Hrun Hat Hrem.
  { by apply elem_of_nil in Hin. }
  assert (GetPBSPartition id s = inr (RemoteHandle p)) as Hid by (apply GetEntry_inr; naive_solver).
  simpl. destruct (decide (i = id)) as [->|Hne].
  { rewrite Hid. by destruct (GetTransactionManagerStatus (managers id)). }
  apply elem_of_cons in Hin as [?|Hin]; [done|]. destruct (GetPBSPartition i s) as [r|h] eqn:Hi.
  - unfold GetPBSPartition, GetEntry in Hi. rewrite Hrun in Hi. simpl in Hi.
    destruct (Find (loaded_partitions_map_ s) i) as [r' [e'|]] eqn:Hf; [done|]. injection Hi as <-.
    unfold Find in Hf. destruct (tbb_find _ i); [done|]. injection Hf as <-.
    destruct (result_eqb _ _); [by eapply IH|done].
  - destruct (GetTransactionManagerStatus (managers i)) as [answer n]. destruct (forward answer h) as [result h'].
    destruct (negb (Successful result)) eqn:Hs; [by apply negb_true_iff in Hs|].
    eapply IH; [done|done| |done]. unfold partition_at, update_entry. simpl. by rewrite lookup_alter_ne.
Qed.

End routing.

(** ** Examples *)

Module RoutingExamples.

Definition hash (r : ResourceId) : Z := Z.of_nat (String.length r).
Definition ns : PBSPartitionNamespace := mkNamespace (mkUuid 0 1) [mkUuid 0 2].
Definition local_partition : PBSPartitionManagerMapEntry :=
  mkEntry LocalPartition EmptyString (LocalHandle (mkPartition (mkUuid 0 1) Loaded 0)).
Definition remote_partition : PBSPartitionManagerMapEntry :=
  mkEntry RemotePartition "http://other" (RemoteHandle Loaded).
Definition manager : PBSPartitionManager :=
  mkPartitionManager true {[mkUuid 0 1 := local_partition; mkUuid 0 2 := remote_partition]}.
Definition coordinator : string := "coordinator".
Definition managers (_ : PartitionId) : TransactionRequestRouter :=
  mkRouter (λ _, SuccessExecutionResult) (λ _, SuccessExecutionResult) (λ _, SuccessExecutionResult)
    (SuccessExecutionResult, 3).

Definition request headers domain : HttpRequest := mkHttpRequest (Some headers) domain [].
Definition of_origin : HttpRequest := request [(kClaimedIdentityHeader, "a.test")] "a.test".
Definition of_coordinator : HttpRequest :=
  request [(kClaimedIdentityHeader, coordinator); (kTransactionOriginHeader, "b.test")] "coordinator.test".

Example of_origin_route : ResolveRoute hash ns coordinator manager of_origin = inr (mkEndpoint EmptyString true).
Proof. reflexivity. Qed.
Example of_coordinator_route : ResolveRoute hash ns coordinator manager of_coordinator = inr (mkEndpoint EmptyString true).
Proof. reflexivity. Qed.

(** A request that claims one origin and names another is routed by the one and
    executed by the partition of the other. *)
Definition of_two_origins : HttpRequest :=
  request [(kClaimedIdentityHeader, "a.test"); (kTransactionOriginHeader, "bc.test")] "a.test".
Definition two_origins_rq : TransactionPhaseRequest :=
  mkPhaseRequest kZeroUuid TransactionExecutionPhase.Prepare None (Some "bc.test") 0.

Example two_origins :
  ResolveRoute hash ns coordinator manager of_two_origins = inr (mkEndpoint EmptyString true) ∧
  ObtainTransactionOrigin (default [] (request_headers of_two_origins)) of_two_origins = "bc.test" ∧
  (ExecutePhaseRequest hash ns managers two_origins_rq manager).1 = remote_request.
Proof. done. Qed.

Example status_of_all : (ExecuteManagerStatus ns managers manager).1.1 = remote_request.
Proof. reflexivity. Qed.

End RoutingExamples.

Lemma routed_here_is_executed_here_witness :
  let origin := ObtainTransactionOrigin [(kClaimedIdentityHeader, "a.test")] RoutingExamples.of_origin in
  ∃ e, partition_at (MapResourceToPartition RoutingExamples.hash RoutingExamples.ns origin) RoutingExamples.manager = Some e ∧
    entry_address e = kLocalPartitionAddressUri.
Proof.
  intros origin.
  destruct (routed_here_is_executed_here RoutingExamples.hash RoutingExamples.ns RoutingExamples.managers
    RoutingExamples.coordinator [(kClaimedIdentityHeader, "a.test")] RoutingExamples.of_origin RoutingExamples.manager
    (mkEndpoint EmptyString true) eq_refl ltac:(vm_compute; split_and!; discriminate || reflexivity) eq_refl eq_refl)
    as (e & Hat & Haddress & _).
  exists e. split; [exact Hat|exact Haddress].
Defined.
