(* ===== verification/LeasePreferenceApplier.v ===== *)
(** * The partitions to lease

    Models [cc/pbs/partition_lease_preference_applier]: the thread that sets how many
    partitions an instance may hold, from the number of instances. The quotient is
    one of doubles, computed here by the binary64 arithmetic of [SpecFloat]. *)

From Stdlib Require Import SpecFloat.
From S2P Require Import Prelude ExecutionResult ErrorCodes Uuid LeasableLock LeaseRefresher LeaseManagerV2.
From stdpp Require Import options.

Local Open Scope Z_scope.

(** ** Doubles *)

Definition precision : Z := 53.
Definition maximum_exponent : Z := 1024.

(** [static_cast<double>] of a [size_t]. *)
Definition to_double (n : Z) : spec_float := binary_normalize precision maximum_exponent n 0 false.

Definition divide (x y : spec_float) : spec_float := SFdiv precision maximum_exponent x y.

(** [static_cast<size_t>(std::ceil(x))]; [None] where the cast is undefined. *)
Definition ceil_size_t (x : spec_float) : option Z :=
  match x with
  | S754_zero _ => Some 0
  | S754_finite s m e =>
      let m := if s then Z.neg m else Z.pos m in
      let c := if 0 <=? e then m * 2 ^ e else - (- m / 2 ^ (- e)) in
      if (0 <=? c) && (c <? 2 ^ 64) then Some c else None
  | S754_infinity _ | S754_nan => None
  end.

(** ** The applier *)

Record PartitionLeasePreferenceApplier := mkApplier {
  partition_count_ : Z;
  applier_is_running_ : bool;
}.

Definition RunApplier (s : PartitionLeasePreferenceApplier) : ExecutionResult * PartitionLeasePreferenceApplier :=
  if applier_is_running_ s then (FailureExecutionResult SC_PBS_PARTITION_LEASE_PREF_APPLIER_ALREADY_RUNNING, s)
  else (SuccessExecutionResult, mkApplier (partition_count_ s) true).

(** It waits for the thread, which leaves its loop. *)
Definition StopApplier (s : PartitionLeasePreferenceApplier) : ExecutionResult * PartitionLeasePreferenceApplier :=
  if negb (applier_is_running_ s) then (FailureExecutionResult SC_PBS_PARTITION_LEASE_PREF_APPLIER_NOT_RUNNING, s)
  else (SuccessExecutionResult, mkApplier (partition_count_ s) false).

Definition num_partitions_to_hold (partition_count num_vnode_leases_held : Z) : option Z :=
  ceil_size_t (divide (to_double partition_count) (to_double num_vnode_leases_held)).

(** The instances are the virtual nodes whose leases the manager [vnodes] sees held;
    the preference is set on the manager [partitions]. *)
Definition ApplyLeasePreference (s : PartitionLeasePreferenceApplier) (o : Ownership) (vnodes partitions : LeaseManagerV2)
  : option (ExecutionResult * LeaseManagerV2) :=
  match GetCurrentlyLeasedLocksCount o vnodes with
  | O => Some (FailureExecutionResult SC_PBS_PARTITION_LEASE_PREF_APPLIER_NO_OP, partitions)
  | held =>
      n ← num_partitions_to_hold (partition_count_ s) (Z.of_nat held);
      Some (SetLeaseAcquisitionPreference (mkPreference (Z.to_nat n) []) partitions)
  end.

(** The body of the thread's loop: a failure is logged. *)
Definition applier_round (s : PartitionLeasePreferenceApplier) (o : Ownership) (vnodes partitions : LeaseManagerV2)
  : option LeaseManagerV2 :=
  if negb (applier_is_running_ s) then Some partitions
  else snd <$> ApplyLeasePreference s o vnodes partitions.

(** ** The preference is the least that covers the partitions *)

(** The counts of partitions and of instances that are looked at. *)
Definition most_partitions : nat := 256.
Definition most_instances : nat := 32.

Definition covers (partitions held : Z) : bool :=
  match num_partitions_to_hold partitions held with
  | Some n => (partitions <=? n * held) && ((n - 1) * held <? partitions)
  | None => false
  end.

Lemma covers_all :
  forallb (λ p, forallb (λ v, covers (Z.of_nat p) (Z.of_nat v)) (seq 1 most_instances)) (seq 0 (S most_partitions)) = true.
Proof. vm_compute. reflexivity. Qed.

(** C23: with up to 256 partitions and 32 instances, the preference the applier sets
    is the least number of partitions that, held by every instance, covers all of
    them: the division of doubles loses nothing. *)
Theorem preference_covers_partitions s o vnodes partitions :
  let held := GetCurrentlyLeasedLocksCount o vnodes in
  (0 ≤ partition_count_ s ≤ Z.of_nat most_partitions)%Z → (0 < held ≤ most_instances)%nat →
  ∃ n : nat, ApplyLeasePreference s o vnodes partitions =
      Some (SetLeaseAcquisitionPreference (mkPreference n []) partitions) ∧
    partition_count_ s ≤ Z.of_nat n * Z.of_nat held ∧ (Z.of_nat n - 1) * Z.of_nat held < partition_count_ s.
Proof.
  intros held Hp Hh. pose proof covers_all as Hall. rewrite forallb_forall in Hall.
  specialize (Hall (Z.to_nat (partition_count_ s))). rewrite forallb_forall in Hall.
  specialize (Hall ltac:(apply in_seq; lia) held ltac:(apply in_seq; lia)). rewrite Z2Nat.id in Hall by lia.
  unfold covers in Hall. destruct (num_partitions_to_hold (partition_count_ s) (Z.of_nat held)) as [n|] eqn:Hn; [|done].
  apply andb_true_iff in Hall as [H1%Z.leb_le H2%Z.ltb_lt].
  exists (Z.to_nat n). rewrite Z2Nat.id by nia. split; [|done].
  unfold ApplyLeasePreference. fold held. destruct held; [lia|]. by rewrite Hn.
Qed.

(** ** An example: three instances and ten partitions *)

Definition example_vnodes : LeaseManagerV2 :=
  with_refreshers ((λ i, let id := mkUuid 0 i in (id, NewLeaseRefresher id 0)) <$> [1; 2; 3])
    (NewLeaseManagerV2 (mkPreference 3 [])).
Definition all_held : Ownership := mkOwnership (λ _, false) (λ _, true).

Example ten_partitions :
  ApplyLeasePreference (mkApplier 10 true) all_held example_vnodes (NewLeaseManagerV2 (mkPreference 0 [])) =
  Some (SuccessExecutionResult, NewLeaseManagerV2 (mkPreference 4 [])).
Proof. vm_compute. reflexivity. Qed.

Lemma preference_covers_partitions_witness :
  ∃ n : nat, 10 ≤ Z.of_nat n * 3 ∧ (Z.of_nat n - 1) * 3 < 10.
Proof.
  destruct (preference_covers_partitions (mkApplier 10 true) all_held example_vnodes (NewLeaseManagerV2 (mkPreference 0 []))
    ltac:(vm_compute; split; discriminate) ltac:(vm_compute; lia)) as (n & _ & H1 & H2).
  exists n. split; [exact H1|exact H2].
Defined.
