(* ===== verification/PartitionLeaseEventSink.v ===== *)
(** * The sink of partition leases

    Models [cc/pbs/partition_lease_event_sink/src/partition_lease_event_sink.cc] and
    [cc/core/common/cancellable_thread_task]: what an instance does with its
    partitions when it acquires, renews, loses or releases their leases. Partitions
    are loaded, and unloaded for a release, by tasks on threads of their own; a
    task is a sequence of steps. What the components of a partition answer is an
    argument. The metrics are not modelled. *)

From S2P Require Import Prelude ExecutionResult ErrorCodes Uuid ConcurrentMap NoSQLDatabase LeasableLock LeaseRefresher LeaseManagerV2.
From S2P Require Import Partition PartitionManager.
From stdpp Require Import options.

(** ** Tasks *)

Inductive TaskState := NotStarted | Executing | Cancelled | Completed.
Inductive PartitionTaskType := LoadTask | UnloadTask.

#[export] Instance TaskState_eq_dec : EqDecision TaskState.
Proof. solve_decision. Defined.
#[export] Instance PartitionTaskType_eq_dec : EqDecision PartitionTaskType.
Proof. solve_decision. Defined.

(** [task_progress]: how many of its two steps a task that executes has made. *)
Record PartitionTask := mkTask {
  task_type : PartitionTaskType;
  task_state_ : TaskState;
  task_progress : nat;
}.

Definition NewTask (type : PartitionTaskType) : PartitionTask := mkTask type NotStarted 0.

Definition IsTaskDone (t : PartitionTask) : bool :=
  bool_decide (task_state_ t = Cancelled) || bool_decide (task_state_ t = Completed).
Definition IsCancellable (t : PartitionTask) : bool := bool_decide (task_state_ t = NotStarted).

Definition Cancel (t : PartitionTask) : bool * PartitionTask :=
  if decide (task_state_ t = NotStarted) then (true, mkTask (task_type t) Cancelled (task_progress t)) else (false, t).

(** ** The sink *)

Record PartitionLeaseEventSink := mkSink {
  sink_is_running_ : bool;
  partition_tasks_ : gmap LeasableLockId PartitionTask;
  partition_manager_ : PBSPartitionManager;
}.

Definition with_tasks f (s : PartitionLeaseEventSink) :=
  mkSink (sink_is_running_ s) (f (partition_tasks_ s)) (partition_manager_ s).
Definition with_manager m (s : PartitionLeaseEventSink) := mkSink (sink_is_running_ s) (partition_tasks_ s) m.

(** How a call ends: it returns, it aborts the process, or it waits for a task that
    waits for it. *)
Inductive Outcome := Returned | Aborted | Deadlocked.

#[export] Instance Outcome_eq_dec : EqDecision Outcome.
Proof. solve_decision. Defined.

Definition RunSink (s : PartitionLeaseEventSink) : ExecutionResult * PartitionLeaseEventSink :=
  (SuccessExecutionResult, mkSink true (partition_tasks_ s) (partition_manager_ s)).

(** [Stop] up to its waits: it returns when every task is done. *)
Definition BeginStopSink (s : PartitionLeaseEventSink) : PartitionLeaseEventSink :=
  mkSink false ((λ t, (Cancel t).2) <$> partition_tasks_ s) (partition_manager_ s).
Definition StopSinkReturns (s : PartitionLeaseEventSink) : bool :=
  forallb (λ x, IsTaskDone x.2) (map_to_list (partition_tasks_ s)).

(** ** Loading and unloading *)

Definition local_metadata (id : PartitionId) : PartitionMetadata := mkMetadata id LocalPartition EmptyString.
Definition remote_metadata (id : PartitionId) (address : string) : PartitionMetadata := mkMetadata id RemotePartition address.

Definition not_in_map : ExecutionResult := FailureExecutionResult SC_CONCURRENT_MAP_ENTRY_DOES_NOT_EXIST.

(** A failure other than that there is no such partition. *)
Definition fails (r : ExecutionResult) : bool := negb (Successful r) && negb (result_eqb r not_in_map).

(** [LoadLocalPartitionHelper], up to the entry in the map and from there. *)
Definition BeginLoadLocal (id : PartitionId) (m : PBSPartitionManager) : Outcome * PBSPartitionManager :=
  let '(refused, m) := BeginLoadPartition (local_metadata id) m in
  match refused with
  | Some result => (if negb (Successful result) then Aborted else Returned, m)
  | None => (Returned, m)
  end.

Definition FinishLoadLocal (a : PartitionAnswers) (id : PartitionId) (m : PBSPartitionManager) : Outcome * PBSPartitionManager :=
  let '(result, _, m) := FinishLoadPartition a id (ConstructPBSPartition id LocalPartition) m in
  (if negb (Successful result) then Aborted else Returned, m).

Definition LoadLocalPartitionHelper (a : PartitionAnswers) (id : PartitionId) (m : PBSPartitionManager)
  : Outcome * PBSPartitionManager :=
  let '(result, _, m) := LoadPartition a (local_metadata id) m in
  (if negb (Successful result) then Aborted else Returned, m).

(** [UnloadLocalPartitionHelper] without its notification; the local and the remote
    metadata differ in parts that are not looked at. *)
Definition UnloadHelper (a : PartitionAnswers) (id : PartitionId) (m : PBSPartitionManager) : Outcome * PBSPartitionManager :=
  let '(result, _, m) := UnloadPartition a id m in
  (if fails result then Aborted else Returned, m).

(** [CancelOrWaitUntilTaskIsDone] in a handler, for a task that is done or could be
    cancelled when it was looked at. [race]: a task that had not started does so
    before it is cancelled, with these answers, and the handler waits for it.
    [blocks]: the lease manager's [SafeToReleaseLease] would wait for the refresher
    that runs the handler. *)
Definition CancelOrWaitUntilTaskIsDone (race : option PartitionAnswers) (blocks : bool) (id : LeasableLockId)
    (t : PartitionTask) (m : PBSPartitionManager) : Outcome * PBSPartitionManager :=
  match race with
  | Some a =>
      if IsCancellable t then
        match task_type t with
        | LoadTask => LoadLocalPartitionHelper a id m
        | UnloadTask =>
            let '(o, m) := UnloadHelper a id m in
            (match o with Returned => if blocks then Deadlocked else Returned | _ => o end, m)
        end
      else (Returned, m)
  | None => (Returned, m)
  end.

(** ** Events *)

Section events.
  Context (a : PartitionAnswers) (race : option PartitionAnswers) (blocks : bool) (id : LeasableLockId).

Definition OnLeaseNotAcquired (lease_info : option LeaseInfo) (s : PartitionLeaseEventSink) : Outcome * PartitionLeaseEventSink :=
  match lease_info with
  | None => (Returned, s)
  | Some info =>
      let metadata := remote_metadata id (service_endpoint_address info) in
      let '(result, m) := RefreshPartitionAddress metadata (partition_manager_ s) in
      if fails result then (Aborted, with_manager m s)
      else if Successful result then (Returned, with_manager m s)
      else
        let '(result, _, m) := LoadPartition a metadata m in
        (if negb (Successful result) then Aborted else Returned, with_manager m s)
  end.

Definition OnLeaseAcquired (s : PartitionLeaseEventSink) : Outcome * PartitionLeaseEventSink :=
  if match partition_tasks_ s !! id with Some t => negb (IsTaskDone t) | None => false end then (Aborted, s)
  else
    let s := with_tasks (delete id) s in
    let '(o, m) := UnloadHelper a id (partition_manager_ s) in
    let s := with_manager m s in
    (o, if decide (o = Returned) then with_tasks (<[id := NewTask LoadTask]>) s else s).

Definition OnLeaseLost (s : PartitionLeaseEventSink) : Outcome * PartitionLeaseEventSink :=
  let '(o, s) :=
    match partition_tasks_ s !! id with
    | None => (Returned, s)
    | Some t =>
        if negb (IsTaskDone t) && negb (IsCancellable t) then (Aborted, s)
        else
          let '(o, m) := CancelOrWaitUntilTaskIsDone race blocks id t (partition_manager_ s) in
          (o, with_manager m (with_tasks (delete id) s))
    end in
  match o with
  | Returned => let '(o, m) := UnloadHelper a id (partition_manager_ s) in (o, with_manager m s)
  | _ => (o, s)
  end.

Definition OnLeaseRenewed (should_start_releasing_lease : bool) (s : PartitionLeaseEventSink)
  : Outcome * PartitionLeaseEventSink :=
  if negb should_start_releasing_lease then (Returned, s)
  else
    match partition_tasks_ s !! id with
    | Some t =>
        match task_type t with
        | UnloadTask => (Returned, s)
        | LoadTask =>
            if negb (IsTaskDone t) && negb (IsCancellable t) then (Returned, s)
            else
              let '(o, m) := CancelOrWaitUntilTaskIsDone race blocks id t (partition_manager_ s) in
              let s := with_manager m (with_tasks (delete id) s) in
              (o, if decide (o = Returned) then with_tasks (<[id := NewTask UnloadTask]>) s else s)
        end
    | None => (Returned, with_tasks (<[id := NewTask UnloadTask]>) s)
    end.

Definition OnLeaseReleased (s : PartitionLeaseEventSink) : Outcome * PartitionLeaseEventSink := (Returned, s).

(** [OnLeaseTransition]. *)
Definition OnTransition (type : LeaseTransitionType) (lease_owner_info : option LeaseInfo) (s : PartitionLeaseEventSink)
  : Outcome * PartitionLeaseEventSink :=
  if negb (sink_is_running_ s) then (Returned, s)
  else
    match type with
    | kAcquired => OnLeaseAcquired s
    | kLost => OnLeaseLost s
    | kNotAcquired => OnLeaseNotAcquired lease_owner_info s
    | kReleased => OnLeaseReleased s
    | kRenewed => OnLeaseRenewed false s
    | kRenewedWithIntentionToRelease => OnLeaseRenewed true s
    end.

(** ** The steps of a task *)

Definition update_task (f : PartitionTask → PartitionTask) (s : PartitionLeaseEventSink) := with_tasks (alter f id) s.

(** The thread of a task that has not started starts it. *)
Definition StartTask (s : PartitionLeaseEventSink) : option PartitionLeaseEventSink :=
  t ← partition_tasks_ s !! id;
  if decide (task_state_ t = NotStarted) then Some (update_task (λ t, mkTask (task_type t) Executing (task_progress t)) s) else None.

(** It makes its next step: a load puts the partition into the map, then loads it; an
    unload unloads it, then tells the lease manager; then the task is completed. *)
Definition TaskStep (s : PartitionLeaseEventSink) (l : LeaseManagerV2) : option (Outcome * PartitionLeaseEventSink * LeaseManagerV2) :=
  t ← partition_tasks_ s !! id;
  if decide (task_state_ t = Executing) then
    let m := partition_manager_ s in
    let next := mkTask (task_type t) Executing (S (task_progress t)) in
    match task_progress t, task_type t with
    | O, LoadTask => let '(o, m) := BeginLoadLocal id m in Some (o, with_manager m (update_task (λ _, next) s), l)
    | O, UnloadTask => let '(o, m) := UnloadHelper a id m in Some (o, with_manager m (update_task (λ _, next) s), l)
    | S O, LoadTask => let '(o, m) := FinishLoadLocal a id m in Some (o, with_manager m (update_task (λ _, next) s), l)
    | S O, UnloadTask =>
        match SafeToReleaseLease id l with
        | Some l => Some (Returned, update_task (λ _, next) s, l)
        | None => Some (Aborted, s, l)
        end
    | _, type => Some (Returned, update_task (λ _, mkTask type Completed 0) s, l)
    end
  else None.

End events.

(** ** What they do to a partition *)

Definition has_local (id : PartitionId) (m : PBSPartitionManager) : bool :=
  match partition_at id m with Some e => bool_decide (entry_type e = LocalPartition) | None => false end.

(** Only the partition [id] may change. *)
Definition only_at (id : PartitionId) (m m' : PBSPartitionManager) : Prop :=
  ∀ i, i ≠ id → partition_at i m' = partition_at i m.

Lemma only_at_local id m m' i : only_at id m m' → i ≠ id → has_local i m' = has_local i m.
Proof. unfold has_local. intros H Hi. by rewrite H. Qed.

Lemma only_at_trans id m1 m2 m3 : only_at id m1 m2 → only_at id m2 m3 → only_at id m1 m3.
Proof. unfold only_at. intros H1 H2 i Hi. by rewrite H2, H1. Qed.

Lemma LoadPartition_only a md m result calls m' :
  LoadPartition a md m = (result, calls, m') → only_at (partition_id md) m m'.
Proof.
  intros Hl. destruct (is_running_ m) eqn:Hr.
  { by destruct (LoadPartition_outcomes _ _ _ _ _ _ Hl Hr) as (_ & ? & _). }
  unfold LoadPartition, BeginLoadPartition in Hl. rewrite Hr in Hl. simpl in Hl. by injection Hl as _ _ <-.
Qed.

Lemma UnloadHelper_effect a id m o m' : UnloadHelper a id m = (o, m') →
  only_at id m m' ∧ (o = Returned → partition_at id m' = None).
Proof.
  unfold UnloadHelper. destruct (UnloadPartition a id m) as [[result calls] m1] eqn:Hu. intros [= <- <-].
  destruct (is_running_ m) eqn:Hr.
  - destruct (UnloadPartition_outcomes _ _ _ _ _ _ Hu Hr) as (_ & Hother & Hid). split; [done|].
    destruct (partition_at id m) eqn:He; [|destruct Hid as [-> ->]; done].
    destruct Hid as [[_ ?]|[-> _]]; [done|by intros]. 
  - unfold UnloadPartition in Hu. rewrite Hr in Hu. simpl in Hu. injection Hu as <- _ <-. split; [done|by vm_compute].
Qed.

Lemma LoadLocal_only a id m o m' : LoadLocalPartitionHelper a id m = (o, m') → only_at id m m'.
Proof.
  unfold LoadLocalPartitionHelper. destruct (LoadPartition a (local_metadata id) m) as [[result calls] m1] eqn:Hl.
  intros [= _ <-]. by apply LoadPartition_only in Hl.
Qed.

Lemma BeginLoadLocal_only id m o m' : BeginLoadLocal id m = (o, m') → only_at id m m'.
Proof.
  unfold BeginLoadLocal, BeginLoadPartition. destruct (negb (is_running_ m)); [by intros [= _ <-]|].
  unfold Insert. simpl. destruct (loaded_partitions_map_ m !! id) eqn:He; simpl; intros [= _ <-]; [done|].
  intros i Hi. unfold partition_at. simpl. by rewrite lookup_insert_ne.
Qed.

Lemma FinishLoadLocal_only a id m o m' : FinishLoadLocal a id m = (o, m') → only_at id m m'.
Proof.
  unfold FinishLoadLocal, FinishLoadPartition.
  assert (∀ i, i ≠ id → partition_at i (erase_partition id m) = partition_at i m) as Herase.
  { intros i Hi. unfold partition_at, erase_partition, Erase. simpl. by rewrite lookup_delete_ne. }
  destruct (negb (is_running_ m)); [by intros [= _ <-]|].
  destruct (InitHandle a _) as [[r1 c1] h1]. destruct (negb (Successful r1)); [by intros [= _ <-]|].
  destruct (LoadHandle a h1) as [[r2 c2] h2]. destruct (negb (Successful r2)); [by intros [= _ <-]|].
  intros [= _ <-] i Hi. unfold partition_at, update_entry. simpl. by rewrite lookup_alter_ne.
Qed.

Lemma Cancel_only race blocks id t m o m' :
  CancelOrWaitUntilTaskIsDone race blocks id t m = (o, m') → only_at id m m'.
Proof.
  unfold CancelOrWaitUntilTaskIsDone. destruct race as [a|]; [|by intros [= _ <-]].
  destruct (IsCancellable t); [|by intros [= _ <-]]. destruct (task_type t); [apply LoadLocal_only|].
  destruct (UnloadHelper a id m) as [o1 m1] eqn:Hu. intros [= _ <-]. by apply UnloadHelper_effect in Hu as [? _].
Qed.

(** What a handler that returns leaves: the task and whether a local partition is in
    the map. *)
Definition transition_effect (type : LeaseTransitionType) (task task' : option PartitionTask) (local local' : bool) : Prop :=
  match type with
  | kAcquired => task' = Some (NewTask LoadTask) ∧ local' = false
  | kLost => task' = None ∧ local' = false
  | kNotAcquired | kRenewed | kReleased => task' = task ∧ local' = local
  | kRenewedWithIntentionToRelease => task' = task ∧ local' = local ∨ task' = Some (NewTask UnloadTask)
  end.

Definition task_of (id : LeasableLockId) (s : PartitionLeaseEventSink) : option PartitionTask := partition_tasks_ s !! id.

(** A handler leaves the other partitions and the sink running. *)
Definition sink_frame (id : LeasableLockId) (s s' : PartitionLeaseEventSink) : Prop :=
  sink_is_running_ s' = sink_is_running_ s ∧ (∀ i, i ≠ id → task_of i s' = task_of i s) ∧
  only_at id (partition_manager_ s) (partition_manager_ s').

Lemma sink_frame_refl id s : sink_frame id s s.
Proof. done. Qed.

Lemma NotAcquired_effect a id info s s' : OnLeaseNotAcquired a id info s = (Returned, s') →
  sink_frame id s s' ∧ task_of id s' = task_of id s ∧ has_local id (partition_manager_ s') = has_local id (partition_manager_ s).
Proof.
  unfold OnLeaseNotAcquired. destruct info as [info|]; [|by intros [= <-]].
  destruct (RefreshPartitionAddress _ (partition_manager_ s)) as [result m1] eqn:Hr.
  destruct (RefreshPartitionAddress_effect _ _ _ _ Hr) as (Ho & Htype & Hm). simpl in Ho, Htype.
  assert (has_local id m1 = has_local id (partition_manager_ s)) as Hlo.
  { unfold has_local. destruct (partition_at id m1), (partition_at id (partition_manager_ s));
      simpl in Htype; [by injection Htype as ->|done..]. }
  destruct (fails result) eqn:Hf; [done|]. destruct (Successful result) eqn:Hs; [by intros [= <-]|].
  rewrite (Hm eq_refl) in *. destruct (LoadPartition a _ (partition_manager_ s)) as [[r2 c2] m2] eqn:Hl.
  destruct (Successful r2) eqn:Hs2; [|done]. intros [= <-].
  split; [split_and!; [done|done|by apply LoadPartition_only in Hl]|]. split; [done|].
  destruct (is_running_ (partition_manager_ s)) eqn:Hrun.
  - destruct (LoadPartition_outcomes _ _ _ _ _ _ Hl Hrun) as (_ & _ & Hid). simpl in Hid. unfold has_local. simpl.
    destruct (partition_at id (partition_manager_ s)); [by destruct Hid as [-> ->]|].
    destruct Hid as [(_ & h & -> & _)|[-> _]]; done.
  - unfold LoadPartition, BeginLoadPartition in Hl. rewrite Hrun in Hl. simpl in Hl. by injection Hl as <- _ <-.
Qed.

Lemma Acquired_effect a id s s' : OnLeaseAcquired a id s = (Returned, s') →
  sink_frame id s s' ∧ task_of id s' = Some (NewTask LoadTask) ∧ has_local id (partition_manager_ s') = false.
Proof.
  unfold OnLeaseAcquired. destruct (match partition_tasks_ s !! id with Some t => _ | None => _ end); [done|].
  destruct (UnloadHelper a id _) as [o m] eqn:Hu. apply UnloadHelper_effect in Hu as [Ho Hn]. intros [= -> <-].
  rewrite decide_True by done. unfold sink_frame, task_of, has_local. simpl. rewrite lookup_insert_eq, Hn by done.
  split; [|done]. split_and!; [done| |done]. intros i Hi. by rewrite lookup_insert_ne, lookup_delete_ne.
Qed.

Lemma Lost_effect a race blocks id s s' : OnLeaseLost a race blocks id s = (Returned, s') →
  sink_frame id s s' ∧ task_of id s' = None ∧ has_local id (partition_manager_ s') = false.
Proof.
  unfold OnLeaseLost. intros Hl.
  destruct (match partition_tasks_ s !! id with Some t => _ | None => _ end) as [o s1] eqn:H1.
  assert (o = Returned → sink_frame id s s1 ∧ task_of id s1 = None) as Hs1.
  { intros ->. destruct (partition_tasks_ s !! id) as [t|] eqn:Ht; [|by injection H1 as <-].
    destruct (_ && _); [done|]. destruct (CancelOrWaitUntilTaskIsDone _ _ _ _ _) as [o m] eqn:Hc. injection H1 as -> <-.
    unfold sink_frame, task_of. simpl. split; [|apply lookup_delete_eq]. split_and!; [done| |by eapply Cancel_only].
    intros i Hi. by rewrite lookup_delete_ne. }
  destruct o; [|done|done]. destruct (Hs1 eq_refl) as [(Hf1 & Hf2 & Hf3) Ht].
  destruct (UnloadHelper a id _) as [o m] eqn:Hu. apply UnloadHelper_effect in Hu as [Ho Hn]. injection Hl as -> <-.
  unfold sink_frame, has_local. simpl. rewrite Hn by done. split; [|done]. split_and!; [done|done|by eapply only_at_trans].
Qed.

Lemma Renewed_effect race blocks id release s s' : OnLeaseRenewed race blocks id release s = (Returned, s') →
  sink_frame id s s' ∧
  (task_of id s' = task_of id s ∧ has_local id (partition_manager_ s') = has_local id (partition_manager_ s) ∨
   release = true ∧ task_of id s' = Some (NewTask UnloadTask)).
Proof.
  unfold OnLeaseRenewed. destruct release; simpl; [|intros [= <-]; split; [done|by left]].
  assert (∀ s1, sink_frame id s s1 → let s2 := with_tasks (<[id := NewTask UnloadTask]>) s1 in
    sink_frame id s s2 ∧ task_of id s2 = Some (NewTask UnloadTask)) as Hnew.
  { intros s1 (H1 & H2 & H3). unfold sink_frame, task_of. simpl. split; [|apply lookup_insert_eq].
    split_and!; [done| |done]. intros i Hi. rewrite lookup_insert_ne by done. by apply H2. }
  destruct (partition_tasks_ s !! id) as [t|] eqn:Ht; last first.
  { intros [= <-]. destruct (Hnew s (sink_frame_refl _ _)). split; [done|by right]. }
  destruct (task_type t); [|intros [= <-]; split; [done|by left]].
  destruct (_ && _); [intros [= <-]; split; [done|by left]|].
  destruct (CancelOrWaitUntilTaskIsDone _ _ _ _ _) as [o m] eqn:Hc. intros [= -> <-]. rewrite decide_True by done.
  destruct (Hnew (with_manager m (with_tasks (delete id) s))) as [H1 H2]; [|split; [done|by right]].
  unfold sink_frame, task_of. simpl. split_and!; [done| |by eapply Cancel_only]. intros i Hi. by rewrite lookup_delete_ne.
Qed.

Lemma OnTransition_effect a race blocks id type info s s' :
  sink_is_running_ s = true → OnTransition a race blocks id type info s = (Returned, s') →
  sink_frame id s s' ∧ transition_effect type (task_of id s) (task_of id s')
    (has_local id (partition_manager_ s)) (has_local id (partition_manager_ s')).
Proof.
  intros Hrun. unfold OnTransition. rewrite Hrun. simpl. destruct type; intros H; simpl.
  - by apply NotAcquired_effect in H.
  - by apply Acquired_effect in H.
  - by apply Lost_effect in H.
  - apply Renewed_effect in H as [? [?|[? _]]]; done.
  - apply Renewed_effect in H as [? [?|[_ ?]]]; split; auto.
  - by injection H as <-.
Qed.
