(* ===== verification/PartitionLeaseSystem.v ===== *)
(** * Partitions and their leases

    An instance: its lease manager, the refreshers of the partitions' locks, the sink
    and its tasks, and the partition manager, as a step relation. A round of a
    refresher with the handler it runs is a step, as is a step of a task and a loop of
    the manager that sets modes. What the lock answers in a round is any answer. Two
    kinds of rounds are recorded ([Disturbance]): those that change the ownership and
    tell the sink nothing, and those that find the lease again after it was released.
    The theorem: a partition that an instance loads or serves is one whose lease it
    holds, or there was such a round for its lock; examples show that the two kinds
    are needed. *)

From S2P Require Import Prelude ExecutionResult ErrorCodes Uuid ConcurrentMap NoSQLDatabase LeasableLock LeaseRefresher LeaseManagerV2.
From S2P Require Import Partition PartitionManager PartitionLeaseEventSink.
From stdpp Require Import options.

(** ** The instance *)

Record LeaseHost := mkHost {
  lease_manager_ : LeaseManagerV2;
  event_sink_ : PartitionLeaseEventSink;
}.

Definition refresher_of (id : LeasableLockId) (σ : LeaseHost) : option LeaseRefresher :=
  find_refresher id (lease_refreshers_ (lease_manager_ σ)).

Definition map_refreshers f (σ : LeaseHost) : LeaseHost :=
  mkHost (with_refreshers (f (lease_refreshers_ (lease_manager_ σ))) (lease_manager_ σ)) (event_sink_ σ).

(** What the sink is told in a round. *)
Fixpoint notify (a : PartitionAnswers) (race : option PartitionAnswers) (blocks : bool) (actions : list RefresherAction)
    (s : PartitionLeaseEventSink) : Outcome * PartitionLeaseEventSink :=
  match actions with
  | [] => (Returned, s)
  | CallRefreshLease _ :: rest => notify a race blocks rest s
  | OnLeaseTransition id type info :: rest =>
      let '(o, s) := OnTransition a race blocks id type info s in
      if decide (o = Returned) then notify a race blocks rest s else (o, s)
  end.

(** [SafeToReleaseLease] takes the mutex of the refresher when its lease is to be
    released, which the thread that runs a round holds. *)
Definition would_block (l : LeaseManagerV2) (rf : LeaseRefresher) : bool :=
  manager_is_running_ l && bool_decide (lease_refresh_mode_ rf = RefreshWithIntentionToReleaseTheHeldLease).

Definition host_round (a : PartitionAnswers) (race : option PartitionAnswers) (id : LeasableLockId) (r : Round) (σ : LeaseHost)
  : option (Outcome * LeaseHost) :=
  rf ← refresher_of id σ;
  let '(_, actions, rf') := PerformLeaseRefresh r rf in
  let '(o, s) := notify a race (would_block (lease_manager_ σ) rf) actions (event_sink_ σ) in
  Some (o, map_refreshers (update_refresher id (λ _, rf')) (mkHost (lease_manager_ σ) s)).

(** The rounds after which a partition may be served without its lease: one of which
    the sink is not told, as it does not refresh the lease or finds no sink, although
    the ownership is another than after the round before; and one that only reads,
    after the lease was released, and finds it to be held again. *)
Inductive Disturbance := ChangeUnnoticed | LeaseFoundAfterRelease.

#[export] Instance Disturbance_eq_dec : EqDecision Disturbance.
Proof. solve_decision. Defined.

Definition disturbances (r : Round) (rf : LeaseRefresher) : list Disturbance :=
  (if negb (should_refresh r && sink_alive r) && negb (eqb (is_lease_owner r) (was_lease_owner_ rf))
   then [ChangeUnnoticed] else []) ++
  (if bool_decide (prev_lease_refresh_mode_ rf = RefreshWithIntentionToReleaseTheHeldLease) &&
      bool_decide (lease_refresh_mode_ rf = RefreshWithNoIntentionToHoldLease) &&
      negb (was_lease_owner_ rf) && is_lease_owner r
   then [LeaseFoundAfterRelease] else []).

(** A step of a process that goes on after it: calls that abort it or wait for ever
    have no successor. The disturbances of the step are recorded with their lock. *)
Inductive host_step (σ : LeaseHost) : list (LeasableLockId * Disturbance) → LeaseHost → Prop :=
| step_round a race id r rf σ' :
    refresher_of id σ = Some rf → host_round a race id r σ = Some (Returned, σ') →
    host_step σ (pair id <$> disturbances r rf) σ'
| step_hold n o : host_step σ [] (map_refreshers (hold_more n o) σ)
| step_release n o : host_step σ [] (map_refreshers (release_some n o) σ)
| step_revert o : host_step σ [] (map_refreshers (RevertTheIntentionToHoldLeaseForLocksWhichCannotBeLeased o) σ)
| step_start id s : StartTask id (event_sink_ σ) = Some s → host_step σ [] (mkHost (lease_manager_ σ) s)
| step_task a id s l :
    TaskStep a id (event_sink_ σ) (lease_manager_ σ) = Some (Returned, s, l) → host_step σ [] (mkHost l s)
| step_stop : host_step σ [] (mkHost (lease_manager_ σ) (BeginStopSink (event_sink_ σ))).

Definition NewSink : PartitionLeaseEventSink := mkSink true ∅ (mkPartitionManager true ∅).

(** The locks are managed, everything runs, and no round was made. *)
Inductive host_reachable : list (LeasableLockId * Disturbance) → LeaseHost → Prop :=
| host_starts l :
    (∀ id rf, find_refresher id (lease_refreshers_ l) = Some rf → ∃ now running, rf = with_running running (NewLeaseRefresher id now)) →
    host_reachable [] (mkHost l NewSink)
| host_goes_on ds σ ds' σ' : host_reachable ds σ → host_step σ ds' σ' → host_reachable (ds ++ ds') σ'.

(** ** The invariant *)

(** A local partition is in the map or a task is to load it. *)
Definition serving (task : option PartitionTask) (local : bool) : bool :=
  local || match task with Some t => bool_decide (task_type t = LoadTask) && negb (IsTaskDone t) | None => false end.

(** A task is to unload it and has not told the lease manager. *)
Definition releasing (task : option PartitionTask) : bool :=
  match task with
  | Some t => bool_decide (task_type t = UnloadTask) && negb (IsTaskDone t) && (task_progress t <? 2)
  | None => false
  end.

Definition has_unloaded (task : option PartitionTask) : bool :=
  match task with Some t => releasing task && (task_progress t =? 1) | None => false end.

Record lease_ok (rf : LeaseRefresher) (task : option PartitionTask) (local : bool) : Prop := {
  serving_owns : serving task local = true → was_lease_owner_ rf = true;
  releasing_owns : releasing task = true → was_lease_owner_ rf = true;
  released_before : prev_lease_refresh_mode_ rf = RefreshWithIntentionToReleaseTheHeldLease →
    lease_refresh_mode_ rf = RefreshWithNoIntentionToHoldLease ∧ serving task local = false ∧ releasing task = false;
  unloaded_not_local : has_unloaded task = true → local = false;
}.

(** No lock is managed, or its refresher and its partition agree unless the lock
    was disturbed. *)
Definition partition_ok (disturbed : Prop) (id : LeasableLockId) (rf : option LeaseRefresher) (task : option PartitionTask)
    (local : bool) : Prop :=
  match rf with
  | None => task = None ∧ local = false
  | Some rf => leasable_lock_id_ rf = id ∧ (¬ disturbed → lease_ok rf task local)
  end.

Definition local_in (id : LeasableLockId) (s : PartitionLeaseEventSink) : bool := has_local id (partition_manager_ s).

Definition host_ok (disturbed : LeasableLockId → Prop) (σ : LeaseHost) : Prop :=
  sink_is_running_ (event_sink_ σ) = true →
  ∀ id, partition_ok (disturbed id) id (refresher_of id σ) (task_of id (event_sink_ σ)) (local_in id (event_sink_ σ)).

(** ** Rounds *)

Lemma undisturbed r rf : disturbances r rf = [] →
  (should_refresh r && sink_alive r = false → is_lease_owner r = was_lease_owner_ rf) ∧
  (prev_lease_refresh_mode_ rf = RefreshWithIntentionToReleaseTheHeldLease →
   lease_refresh_mode_ rf = RefreshWithNoIntentionToHoldLease → was_lease_owner_ rf = false → is_lease_owner r = false).
Proof.
  intros [H1 H2]%app_eq_nil. split.
  - intros Hno. rewrite Hno in H1. by destruct (is_lease_owner r), (was_lease_owner_ rf).
  - intros Hp Hm Hw. rewrite Hp, Hm, Hw in H2. simpl in H2. by destruct (is_lease_owner r).
Qed.

Lemma round_ok r rf task task' local local' :
  lease_ok rf task local → disturbances r rf = [] →
  (if should_refresh r && sink_alive r then
     transition_effect (PerformLeaseTransitionAndNotifyLeaseEventSink (is_lease_owner r) (lease_refresh_mode_ rf)
       (was_lease_owner_ rf) (prev_lease_refresh_mode_ rf)) task task' local local'
   else task' = task ∧ local' = local) →
  lease_ok (PerformLeaseRefresh r rf).2 task' local'.
Proof.
  intros [Hs Hr Hb Hu] [Hno Hacq]%undisturbed He. unfold PerformLeaseTransitionAndNotifyLeaseEventSink in He.
  destruct (should_refresh r && sink_alive r); last first.
  { destruct He as [-> ->]. specialize (Hno eq_refl). split; simpl; rewrite ?Hno; auto. }
  clear Hno. destruct (was_lease_owner_ rf) eqn:Hw, (is_lease_owner r) eqn:Hi; simpl in He.
  - case_decide; simpl in He; [destruct He as [[-> ->]| ->]|destruct He as [-> ->]].
    + split; simpl; rewrite ?Hi; auto.
    + split; simpl; rewrite ?Hi; [done|done| |done]. intros Hp. destruct (Hb Hp) as [Hm _]. congruence.
    + split; simpl; rewrite ?Hi; auto.
  - case_decide as Hp; simpl in He; destruct He as [-> ->].
    + destruct (Hb Hp) as (Hm & Hns & Hnr). split; simpl; [congruence|congruence|auto|auto].
    + split; simpl; done.
  - destruct He as [-> ->]. split; simpl; rewrite ?Hi; [done|done| |done]. intros Hp. destruct (Hb Hp) as [Hm _].
    by specialize (Hacq Hp Hm eq_refl).
  - destruct He as [-> ->]. split; simpl; rewrite ?Hi; auto.
Qed.

Lemma find_update_refresher id f l i :
  find_refresher i (update_refresher id f l) = if decide (i = id) then f <$> find_refresher i l else find_refresher i l.
Proof.
  induction l as [|[j rf] l IH]; simpl; [by case_decide|].
  destruct (decide (j = id)) as [->|Hj]; simpl; destruct (decide (_ = i)) as [->|]; simpl.
  - by rewrite decide_True.
  - done.
  - by rewrite decide_False.
  - done.
Qed.

Lemma PerformLeaseRefresh_id r rf : leasable_lock_id_ (PerformLeaseRefresh r rf).2 = leasable_lock_id_ rf.
Proof. done. Qed.

Lemma host_round_ok (D D' : LeasableLockId → Prop) a race id r rf σ σ' :
  host_ok D σ → refresher_of id σ = Some rf → host_round a race id r σ = Some (Returned, σ') →
  (∀ i, D i → D' i) → (¬ D' id → disturbances r rf = []) → host_ok D' σ'.
Proof.
  intros Hok Hrf Hround HD Hdist Hrun'. unfold host_round in Hround. rewrite Hrf in Hround. simpl in Hround.
  set (rf' := (PerformLeaseRefresh r rf).2).
  destruct (notify _ _ _ _ _) as [o s'] eqn:Hn in Hround. injection Hround as -> <-. simpl in Hrun'.
  assert (sink_is_running_ (event_sink_ σ) = true ∧ sink_frame (leasable_lock_id_ rf) (event_sink_ σ) s' ∧
    (leasable_lock_id_ rf = id →
     if should_refresh r && sink_alive r then
       transition_effect (PerformLeaseTransitionAndNotifyLeaseEventSink (is_lease_owner r) (lease_refresh_mode_ rf)
         (was_lease_owner_ rf) (prev_lease_refresh_mode_ rf)) (task_of id (event_sink_ σ)) (task_of id s')
         (local_in id (event_sink_ σ)) (local_in id s')
     else task_of id s' = task_of id (event_sink_ σ) ∧ local_in id s' = local_in id (event_sink_ σ))) as (Hrun & Hframe & He).
  { destruct (sink_alive r), (should_refresh r); simpl in Hn;
      [|injection Hn as <-; (split_and!; [done|done|done])..].
    destruct (OnTransition _ _ _ _ _ _ _) as [o1 s1] eqn:Ht. case_decide as Ho; simplify_eq.
    destruct (sink_is_running_ (event_sink_ σ)) eqn:Hrun.
    - apply OnTransition_effect in Ht as [Hf He]; [|done]. split; [done|]. split; [done|]. intros Hid. rewrite Hid in He. exact He.
    - unfold OnTransition in Ht. rewrite Hrun in Ht. simpl in Ht. injection Ht as <-. congruence. }
  intros i. specialize (Hok Hrun). pose proof (Hok i) as Hi. pose proof (Hok id) as Hid. rewrite Hrf in Hid. simpl in Hid.
  destruct Hid as [Hlock Hid]. rewrite Hlock in Hframe. destruct Hframe as (_ & Htasks & Hmaps).
  unfold refresher_of, map_refreshers. simpl. rewrite find_update_refresher.
  unfold refresher_of in Hrf, Hi. case_decide as Hii.
  - subst i. rewrite Hrf. simpl. split; [done|]. intros Hnd. eapply round_ok; [apply Hid; by intros ?%HD|by apply Hdist|by apply He].
  - unfold local_in. rewrite Htasks, (only_at_local id (partition_manager_ (event_sink_ σ))) by done.
    destruct (find_refresher i _) as [rf1|]; [|exact Hi]. destruct Hi as [Hl Hi]. split; [done|]. intros Hnd. apply Hi. by intros ?%HD.
Qed.

(** ** Modes *)

Definition allowed_change (rf : LeaseRefresher) (mode : LeaseRefreshMode) (task : option PartitionTask) (local : bool) : Prop :=
  mode ≠ RefreshWithIntentionToReleaseTheHeldLease ∧ lease_refresh_mode_ rf ≠ RefreshWithIntentionToReleaseTheHeldLease ∨
  mode = RefreshWithIntentionToReleaseTheHeldLease ∧ lease_refresh_mode_ rf = RefreshWithIntentionToHoldLease ∨
  mode = RefreshWithNoIntentionToHoldLease ∧ serving task local = false ∧ releasing task = false.

Lemma SetLeaseRefreshMode_id mode rf : leasable_lock_id_ (SetLeaseRefreshMode mode rf).2 = leasable_lock_id_ rf.
Proof. unfold SetLeaseRefreshMode. by destruct (match last_lease_transition_ rf with Some _ => _ | None => _ end). Qed.

Lemma mode_ok mode rf task local : lease_ok rf task local → allowed_change rf mode task local →
  lease_ok (SetLeaseRefreshMode mode rf).2 task local.
Proof.
  intros Hok Ha. unfold SetLeaseRefreshMode. destruct (match last_lease_transition_ rf with Some _ => _ | None => _ end); [done|].
  destruct Hok as [Hs Hr Hb Hu]. split; simpl; auto. intros Hp.
  destruct Ha as [[_ ?]|[[_ ?]|(-> & ? & ?)]]; [done|congruence|done].
Qed.

(** A loop over the refreshers sets the modes of some that are chosen. *)
Lemma find_set_modes id mode chosen n l :
  find_refresher id (set_modes mode chosen n l) = find_refresher id l ∨
  ∃ rf, find_refresher id l = Some rf ∧ chosen (id, rf) = true ∧
    find_refresher id (set_modes mode chosen n l) = Some (SetLeaseRefreshMode mode rf).2.
Proof.
  revert n. induction l as [|[j rf] l IH]; intros n; [by destruct n; left|]. destruct n as [|n]; [by left|].
  cbn [set_modes]. destruct (chosen (j, rf)) eqn:Hc.
  - destruct (SetLeaseRefreshMode mode rf) as [result rf'] eqn:Hset.
    destruct (Successful result); simpl; (destruct (decide (j = id)) as [->|]; [right; exists rf; by rewrite Hset|apply IH]).
  - simpl. destruct (decide (j = id)); [by left|apply IH].
Qed.

Lemma find_revert id o l :
  let l' := RevertTheIntentionToHoldLeaseForLocksWhichCannotBeLeased o l in
  find_refresher id l' = find_refresher id l ∨
  ∃ rf, find_refresher id l = Some rf ∧ has_mode RefreshWithIntentionToHoldLease (id, rf) = true ∧
    find_refresher id l' = Some (SetLeaseRefreshMode RefreshWithNoIntentionToHoldLease rf).2.
Proof.
  simpl. induction l as [|[j rf] l IH]; [by left|]. simpl. destruct (has_mode _ (j, rf) && _) eqn:Hc; simpl.
  - destruct (decide (j = id)) as [->|]; [|exact IH]. right. exists rf. apply andb_true_iff in Hc as [Hc _]. done.
  - destruct (decide (j = id)); [by left|exact IH].
Qed.

Lemma modes_ok D f σ :
  host_ok D σ →
  (∀ id, let l := lease_refreshers_ (lease_manager_ σ) in
     find_refresher id (f l) = find_refresher id l ∨
     ∃ rf mode, find_refresher id l = Some rf ∧ (∀ task local, allowed_change rf mode task local) ∧
       find_refresher id (f l) = Some (SetLeaseRefreshMode mode rf).2) →
  host_ok D (map_refreshers f σ).
Proof.
  intros Hok Hf Hrun id. specialize (Hok Hrun id). unfold refresher_of, map_refreshers in *. simpl in *.
  destruct (Hf id) as [->|(rf & mode & Hrf & Ha & ->)]; [done|]. rewrite Hrf in Hok. destruct Hok as [Hid Hok]. simpl.
  rewrite SetLeaseRefreshMode_id. split; [done|]. intros Hd. by apply mode_ok; auto.
Qed.

Lemma hold_ok D n o σ : host_ok D σ → host_ok D (map_refreshers (hold_more n o) σ).
Proof.
  intros Hok. apply modes_ok; [done|]. intros id. simpl. destruct (find_set_modes id RefreshWithIntentionToHoldLease
    (λ x, has_mode RefreshWithNoIntentionToHoldLease x && negb (owner_known o x.1)) n (lease_refreshers_ (lease_manager_ σ)))
    as [?|(rf & Hrf & [Hc _]%andb_true_iff & Hfind)]; [by left|].
  right. exists rf, RefreshWithIntentionToHoldLease. split_and!; [done| |done]. intros task local. left.
  apply bool_decide_eq_true in Hc. unfold GetLeaseRefreshMode in Hc. simpl in Hc. by rewrite Hc.
Qed.

Lemma release_ok D n o σ : host_ok D σ → host_ok D (map_refreshers (release_some n o) σ).
Proof.
  intros Hok. apply modes_ok; [done|]. intros id. simpl. destruct (find_set_modes id RefreshWithIntentionToReleaseTheHeldLease
    (λ x, has_mode RefreshWithIntentionToHoldLease x && owns o x.1) n (lease_refreshers_ (lease_manager_ σ)))
    as [?|(rf & Hrf & [Hc _]%andb_true_iff & Hfind)]; [by left|].
  right. exists rf, RefreshWithIntentionToReleaseTheHeldLease. split_and!; [done| |done]. intros task local. right. left.
  by apply bool_decide_eq_true in Hc.
Qed.

Lemma revert_ok D o σ :
  host_ok D σ → host_ok D (map_refreshers (RevertTheIntentionToHoldLeaseForLocksWhichCannotBeLeased o) σ).
Proof.
  intros Hok. apply modes_ok; [done|]. intros id. simpl.
  destruct (find_revert id o (lease_refreshers_ (lease_manager_ σ))) as [?|(rf & Hrf & Hc & Hfind)]; [by left|].
  right. exists rf, RefreshWithNoIntentionToHoldLease. split_and!; [done| |done]. intros task local. left.
  apply bool_decide_eq_true in Hc. unfold GetLeaseRefreshMode in Hc. simpl in Hc. by rewrite Hc.
Qed.

(** ** Tasks *)

(** A change of the task and the partition of one lock, and of its refresher. *)
Lemma task_change_ok D id σ l s :
  host_ok D σ → sink_is_running_ s = sink_is_running_ (event_sink_ σ) →
  (∀ i, i ≠ id → task_of i s = task_of i (event_sink_ σ)) → only_at id (partition_manager_ (event_sink_ σ)) (partition_manager_ s) →
  (∀ i, i ≠ id → find_refresher i (lease_refreshers_ l) = refresher_of i σ) →
  (partition_ok (D id) id (refresher_of id σ) (task_of id (event_sink_ σ)) (local_in id (event_sink_ σ)) →
   partition_ok (D id) id (find_refresher id (lease_refreshers_ l)) (task_of id s) (local_in id s)) →
  host_ok D (mkHost l s).
Proof.
  intros Hok Hrun Ht Hm Hr Hid Hrun' i. simpl in Hrun'. specialize (Hok ltac:(congruence)).
  unfold refresher_of. simpl. destruct (decide (i = id)) as [->|Hi]; [by apply Hid|].
  specialize (Hok i). rewrite (Hr i Hi), (Ht i Hi). unfold local_in. by rewrite (only_at_local id _ _ i Hm Hi).
Qed.

Lemma lease_ok_weaken rf task task' local local' :
  lease_ok rf task local → (serving task' local' = true → serving task local = true) →
  (releasing task' = true → releasing task = true) → (has_unloaded task' = true → local' = false ∨ has_unloaded task = true ∧ local' = local) →
  lease_ok rf task' local'.
Proof.
  intros [H1 H2 H3 H4] Hs Hr Hu. split; [auto|auto| |by intros [?|[? ->]]%Hu; auto]. intros Hp. destruct (H3 Hp) as (? & H5 & H6). split; [done|].
  split; apply not_true_is_false; [intros ?%Hs|intros ?%Hr]; congruence.
Qed.

Lemma partition_ok_weaken (d : Prop) id rf task task' local local' :
  is_Some task → partition_ok d id rf task local → (serving task' local' = true → serving task local = true) →
  (releasing task' = true → releasing task = true) → (has_unloaded task' = true → local' = false ∨ has_unloaded task = true ∧ local' = local) →
  partition_ok d id rf task' local'.
Proof.
  intros [t ->]. destruct rf as [rf|]; simpl; [|by intros [? _]]. intros [? Hok]. split; [done|]. intros Hd. eapply lease_ok_weaken; eauto.
Qed.

Lemma task_of_update id f s i : task_of i (update_task id f s) = if decide (i = id) then f <$> task_of id s else task_of i s.
Proof.
  unfold task_of, update_task. simpl. case_decide as Hi; [subst; by rewrite lookup_alter, decide_True|by rewrite lookup_alter_ne].
Qed.

Lemma task_of_manager id m s : task_of id (with_manager m s) = task_of id s.
Proof. done. Qed.

(** The three properties of tasks, computed. *)
Ltac compute_task := unfold has_unloaded, serving, releasing, IsTaskDone; simpl; rewrite ?andb_false_r, ?orb_true_r; try done; try (by intros; left); try (by intros; right).

Lemma start_ok D id s σ : host_ok D σ → StartTask id (event_sink_ σ) = Some s → host_ok D (mkHost (lease_manager_ σ) s).
Proof.
  intros Hok Hs. unfold StartTask in Hs. destruct (partition_tasks_ (event_sink_ σ) !! id) as [t|] eqn:Ht; [|done].
  simpl in Hs. case_decide as Hst; [|done]. injection Hs as <-. apply (task_change_ok D id σ); [done|done| |done|done|].
  { intros i Hi. by rewrite task_of_update, decide_False. }
  rewrite task_of_update, decide_True by done. change (task_of id (event_sink_ σ) = Some t) in Ht. rewrite Ht. simpl.
  intros Hp.
  eapply partition_ok_weaken; [|exact Hp|..]; [done|..]; destruct t as [ty st pr]; simpl in *; subst st; destruct ty; compute_task.
Qed.

Lemma SafeToReleaseLease_find id l l' : SafeToReleaseLease id l = Some l' →
  let find i l := find_refresher i (lease_refreshers_ l) in
  (∀ i, i ≠ id → find i l' = find i l) ∧
  (find id l' = find id l ∨
   ∃ rf, find id l = Some rf ∧ find id l' = Some (SetLeaseRefreshMode RefreshWithNoIntentionToHoldLease rf).2).
Proof.
  unfold SafeToReleaseLease. simpl. destruct (negb (manager_is_running_ l)); [intros [= <-]; auto|].
  destruct (find_refresher id (lease_refreshers_ l)) as [rf|] eqn:Hrf; [|intros [= <-]; rewrite Hrf; auto].
  case_decide; [|intros [= <-]; rewrite Hrf; auto]. destruct (SetLeaseRefreshMode _ rf) as [result rf'] eqn:Hset.
  destruct (Successful result); [|done]. intros [= <-]. simpl. split.
  - intros i Hi. by rewrite find_update_refresher, decide_False.
  - right. exists rf. by rewrite find_update_refresher, decide_True, Hrf, Hset.
Qed.

Lemma task_ok D a id s l σ : host_ok D σ →
  TaskStep a id (event_sink_ σ) (lease_manager_ σ) = Some (Returned, s, l) → host_ok D (mkHost l s).
Proof.
  intros Hok Hs. unfold TaskStep in Hs. destruct (partition_tasks_ (event_sink_ σ) !! id) as [t|] eqn:Ht; [|done].
  simpl in Hs. case_decide as Hst; [|done]. change (task_of id (event_sink_ σ) = Some t) in Ht.
  destruct t as [ty st pr]. simpl in *. subst st.
  assert (∀ f i, i ≠ id → task_of i (update_task id f (event_sink_ σ)) = task_of i (event_sink_ σ)) as Hother.
  { intros f i Hi. by rewrite task_of_update, decide_False. }
  assert (∀ f, task_of id (update_task id f (event_sink_ σ)) = Some (f (mkTask ty Executing pr))) as Hupdated.
  { intros f. by rewrite task_of_update, decide_True, Ht by done. }
  destruct pr as [|[|pr]]; [destruct ty..|].
  - destruct (BeginLoadLocal id _) as [o m] eqn:Hb. injection Hs as -> <- <-.
    apply (task_change_ok D id σ); [done|done|apply Hother|by eapply BeginLoadLocal_only|done|]. rewrite Ht.
    intros Hp. eapply partition_ok_weaken; [|exact Hp|..]; [done|rewrite task_of_manager, Hupdated; compute_task..].
  - destruct (UnloadHelper a id _) as [o m] eqn:Hu. injection Hs as -> <- <-. apply UnloadHelper_effect in Hu as [Hm Hn].
    apply (task_change_ok D id σ); [done|done|apply Hother|done|done|]. rewrite Ht.
    unfold local_in, has_local at 2. simpl. rewrite Hn by done.
    intros Hp. eapply partition_ok_weaken; [|exact Hp|..]; [done|rewrite task_of_manager, Hupdated; compute_task..].
  - destruct (FinishLoadLocal a id _) as [o m] eqn:Hf. injection Hs as -> <- <-.
    apply (task_change_ok D id σ); [done|done|apply Hother|by eapply FinishLoadLocal_only|done|]. rewrite Ht.
    intros Hp. eapply partition_ok_weaken; [|exact Hp|..]; [done|rewrite task_of_manager, Hupdated; compute_task..].
  - destruct (SafeToReleaseLease id (lease_manager_ σ)) as [l'|] eqn:Hl; [|done]. injection Hs as <- <-.
    apply SafeToReleaseLease_find in Hl as [Hfind Hid].
    apply (task_change_ok D id σ); [done|done|apply Hother|done|done|]. rewrite Ht, Hupdated. simpl.
    destruct Hid as [Hid|(rf & Hrf & Hid)]; unfold refresher_of in *; rewrite Hid; simpl; [|rewrite Hrf].
    + intros Hp. eapply partition_ok_weaken; [|exact Hp|..]; [done|compute_task..].
    + intros [Hlock Hp]. split; [by rewrite (SetLeaseRefreshMode_id _ rf)|]. intros Hd. specialize (Hp Hd).
      assert (local_in id (event_sink_ σ) = false) as Hlocal by (by apply Hp).
      change (local_in id (update_task id _ (event_sink_ σ))) with (local_in id (event_sink_ σ)). rewrite Hlocal in *.
      assert (lease_ok rf (Some (mkTask UnloadTask Executing 2)) false) as Hp' by (eapply lease_ok_weaken; [exact Hp|compute_task..]).
      apply (mode_ok RefreshWithNoIntentionToHoldLease rf _ _ Hp'). by right; right.
  - injection Hs as <- <-. apply (task_change_ok D id σ); [done|done|apply Hother|done|done|]. rewrite Ht, Hupdated. simpl.
    change (local_in id (update_task id _ (event_sink_ σ))) with (local_in id (event_sink_ σ)).
    intros Hp. eapply partition_ok_weaken; [|exact Hp|..]; [done|compute_task..].
    by destruct (local_in id (event_sink_ σ)).
Qed.

(** ** The theorem *)

Lemma host_ok_more (D D' : LeasableLockId → Prop) σ : (∀ i, D i → D' i) → host_ok D σ → host_ok D' σ.
Proof.
  intros HD Hok Hrun id. specialize (Hok Hrun id). destruct (refresher_of id σ); [|done]. destruct Hok as [? Hok].
  split; [done|]. intros Hd. apply Hok. by intros ?%HD.
Qed.

(** The locks that were disturbed in a run. *)
Definition disturbed_in (ds : list (LeasableLockId * Disturbance)) (id : LeasableLockId) : Prop := ∃ d, (id, d) ∈ ds.

Lemma disturbed_more ds ds' id : disturbed_in ds id → disturbed_in (ds ++ ds') id.
Proof. intros [d Hd]. exists d. apply elem_of_app. by left. Qed.

Lemma host_reachable_ok ds σ : host_reachable ds σ → host_ok (disturbed_in ds) σ.
Proof.
  induction 1 as [l Hl|ds σ ds' σ' _ IH Hstep].
  - intros _ id. unfold refresher_of, task_of, local_in, has_local, partition_at. simpl.
    destruct (find_refresher id (lease_refreshers_ l)) as [rf|] eqn:Hrf; [|done].
    destruct (Hl id rf Hrf) as (now & running & ->). simpl. split; [done|]. intros _. by split.
  - destruct Hstep as [a race id r rf σ' Hrf Hr| | | | | |];
      [|(eapply host_ok_more; [intros i; apply disturbed_more|])..].
    + eapply host_round_ok; [exact IH|exact Hrf|exact Hr|intros i; apply disturbed_more|].
      intros Hd. destruct (disturbances r rf) as [|d ds'] eqn:Hds; [done|]. exfalso. apply Hd. exists d.
      apply elem_of_app. right. simpl. by left.
    + by apply hold_ok.
    + by apply release_ok.
    + by apply revert_ok.
    + by eapply start_ok.
    + by eapply task_ok.
    + by intros.
Qed.

(** C6: in an instance whose sink runs and whose process has not been ended, a local
    partition that is in the partition manager, or that a task is to load, is one
    whose lease its refresher holds since its last round, or one for whose lock, at
    some time before, a round changed the ownership without telling the sink, or
    found the lease again after its release - however rounds, tasks and changes of
    modes interleave and whatever the locks and the partitions' components answer. *)
Theorem local_partition_has_lease ds σ id :
  host_reachable ds σ → sink_is_running_ (event_sink_ σ) = true →
  serving (task_of id (event_sink_ σ)) (local_in id (event_sink_ σ)) = true →
  (∃ rf, refresher_of id σ = Some rf ∧ was_lease_owner_ rf = true) ∨
  (id, ChangeUnnoticed) ∈ ds ∨ (id, LeaseFoundAfterRelease) ∈ ds.
Proof.
  intros Hr Hrun Hs. pose proof (host_reachable_ok ds σ Hr Hrun id) as Hok.
  destruct (decide ((id, ChangeUnnoticed) ∈ ds)) as [?|H1]; [by right; left|].
  destruct (decide ((id, LeaseFoundAfterRelease) ∈ ds)) as [?|H2]; [by right; right|]. left.
  assert (¬ disturbed_in ds id) as Hnd by (by intros [[] ?]).
  destruct (refresher_of id σ) as [rf|]; simpl in Hok.
  - destruct Hok as [_ Hok]. exists rf. split; [done|by apply Hok].
  - destruct Hok as [Ht Hl]. rewrite Ht, Hl in Hs. done.
Qed.

(** ** Runs, evaluated *)

Inductive HostCall :=
| CallRound (race : option PartitionAnswers) (id : LeasableLockId) (r : Round)
| CallHold (n : nat)
| CallRelease (n : nat)
| CallStart (id : LeasableLockId)
| CallTask (id : LeasableLockId).

Definition everything_owned : Ownership := mkOwnership (λ _, true) (λ _, false).

(** Every call of a component succeeds. *)
Definition host_call (c : HostCall) (σ : LeaseHost) : option (list (LeasableLockId * Disturbance) * LeaseHost) :=
  match c with
  | CallRound race id r =>
      rf ← refresher_of id σ;
      '(o, σ) ← host_round all_succeed race id r σ;
      if decide (o = Returned) then Some (pair id <$> disturbances r rf, σ) else None
  | CallHold n => Some ([], map_refreshers (hold_more n everything_owned) σ)
  | CallRelease n => Some ([], map_refreshers (release_some n everything_owned) σ)
  | CallStart id => s ← StartTask id (event_sink_ σ); Some ([], mkHost (lease_manager_ σ) s)
  | CallTask id =>
      '(o, s, l) ← TaskStep all_succeed id (event_sink_ σ) (lease_manager_ σ);
      if decide (o = Returned) then Some ([], mkHost l s) else None
  end.

Fixpoint host_run (cs : list HostCall) (σ : LeaseHost) : option (list (LeasableLockId * Disturbance) * LeaseHost) :=
  match cs with
  | [] => Some ([], σ)
  | c :: cs =>
      '(ds, σ) ← host_call c σ;
      '(ds', σ) ← host_run cs σ;
      Some (ds ++ ds', σ)
  end.

Lemma host_call_step c σ ds σ' : host_call c σ = Some (ds, σ') → host_step σ ds σ'.
Proof.
  destruct c as [race id r|n|n|id|id]; simpl.
  - destruct (refresher_of id σ) as [rf|] eqn:Hrf; [|done]. simpl.
    destruct (host_round all_succeed race id r σ) as [[o σ1]|] eqn:Hr; [|done]. simpl. case_decide; [|done]. intros [= <- <-].
    eapply step_round; [done|by subst].
  - intros [= <- <-]. apply step_hold.
  - intros [= <- <-]. apply step_release.
  - destruct (StartTask id (event_sink_ σ)) as [s|] eqn:Hs; [|done]. intros [= <- <-]. by eapply step_start.
  - destruct (TaskStep _ _ _ _) as [[[o s] l]|] eqn:Ht; [|done]. simpl. case_decide; [|done]. intros [= <- <-]. subst. by eapply step_task.
Qed.

Lemma host_run_reachable cs ds σ ds' σ' :
  host_reachable ds σ → host_run cs σ = Some (ds', σ') → host_reachable (ds ++ ds') σ'.
Proof.
  revert ds σ ds'. induction cs as [|c cs IH]; intros ds σ ds' Hr; simpl; [intros [= <- <-]; by rewrite app_nil_r|].
  destruct (host_call c σ) as [[ds1 σ1]|] eqn:Hc; [|done]. simpl.
  destruct (host_run cs σ1) as [[ds2 σ2]|] eqn:Hcs; [|done]. intros [= <- ->]. rewrite app_assoc.
  eapply IH; [|exact Hcs]. eapply host_goes_on; [done|by apply host_call_step in Hc].
Qed.

Module LeaseHostExamples.

Definition lock : LeasableLockId := mkUuid 0 1.
Definition start : LeaseHost :=
  mkHost (mkManagerV2 true [(lock, NewLeaseRefresher lock 0)] None (mkPreference 1 [])) NewSink.

Definition round (owner : bool) : HostCall := CallRound None lock (mkRound true SuccessExecutionResult owner None true 0).

(** The lease is acquired and the partition loaded. *)
Definition load : list HostCall := [round false; CallHold 1; round true; CallStart lock; CallTask lock; CallTask lock; CallTask lock].
(** It is unloaded and released. *)
Definition release : list HostCall :=
  [CallRelease 1; round true; CallStart lock; CallTask lock; CallTask lock; CallTask lock; round true; round false].

(** What a run leaves: its disturbances, the state of the partition, and whether the
    refresher holds the lease. *)
Definition state_of (σ : LeaseHost) : option PartitionLoadUnloadState :=
  (λ e, GetPartitionState (partition_handle e)) <$> partition_at lock (partition_manager_ (event_sink_ σ)).

Definition left_by (cs : list HostCall)
  : option (list (LeasableLockId * Disturbance) * option PartitionLoadUnloadState * option bool) :=
  '(ds, σ) ← host_run cs start; Some (ds, state_of σ, was_lease_owner_ <$> refresher_of lock σ).

Lemma host_start_reachable : host_reachable [] start.
Proof. apply host_starts. intros id rf. simpl. case_decide; [|done]. intros [= <-]. subst. by exists 0%Z, false. Qed.

Example loads : left_by load = Some ([], Some Loaded, Some true).
Proof. vm_compute. reflexivity. Qed.

Example releases : left_by (load ++ release) = Some ([], None, Some false).
Proof. vm_compute. reflexivity. Qed.

(** The lease is lost when the task that is to unload the partition has not started;
    it starts before it is cancelled and waits for the refresher that waits for it. *)
Definition lost : Round := mkRound true SuccessExecutionResult false None true 0.
Example lost_while_unloading :
  option_map fst ('(_, σ) ← host_run (load ++ [CallRelease 1; round true]) start; host_round all_succeed (Some all_succeed) lock lost σ)
  = Some Deadlocked.
Proof. vm_compute. reflexivity. Qed.

(** The two kinds of rounds that the theorem tells apart. A lease that is found again
    after its release and lost again is taken for one that is released: the partition
    stays loaded. So it does when a lease runs out in a round that need not refresh
    it. *)
Example found_after_release :
  left_by (load ++ release ++ [round true; CallStart lock; CallTask lock; CallTask lock; CallTask lock; round false])
  = Some ([(lock, LeaseFoundAfterRelease)], Some Loaded, Some false).
Proof. vm_compute. reflexivity. Qed.

Example runs_out_unnoticed :
  left_by (load ++ [CallRound None lock (mkRound false SuccessExecutionResult false None true 0); round false])
  = Some ([(lock, ChangeUnnoticed)], Some Loaded, Some false).
Proof. vm_compute. reflexivity. Qed.

End LeaseHostExamples.

Lemma local_partition_has_lease_witness : ∃ σ rf,
  LeaseHostExamples.state_of σ = Some Loaded ∧ refresher_of LeaseHostExamples.lock σ = Some rf ∧ was_lease_owner_ rf = true.
Proof.
  destruct (host_run LeaseHostExamples.load LeaseHostExamples.start) as [[ds σ]|] eqn:Hσ; [|vm_compute in Hσ; discriminate Hσ].
  assert (option_map (λ r, (r.1, LeaseHostExamples.state_of r.2, sink_is_running_ (event_sink_ r.2),
      serving (task_of LeaseHostExamples.lock (event_sink_ r.2)) (local_in LeaseHostExamples.lock (event_sink_ r.2))))
    (host_run LeaseHostExamples.load LeaseHostExamples.start) = Some ([], Some Loaded, true, true)) as Hs by (vm_compute; reflexivity).
  rewrite Hσ in Hs. injection Hs as -> Hstate Hrun Hserving.
  destruct (local_partition_has_lease [] σ LeaseHostExamples.lock
    (host_run_reachable _ _ _ _ _ LeaseHostExamples.host_start_reachable Hσ) Hrun Hserving)
    as [(rf & Hrf & Hown)|[Hin|Hin]]; [|inversion Hin..].
  exists σ, rf. split; [exact Hstate|split; [exact Hrf|exact Hown]].
Defined.
